(* ===== verification/_CoqProject ===== *)
-Q . S2P
Prelude.v
PyFloat.v
PyData.v
GroundPolicy.v
GroundTypes.v
GroundAllocator.v
GroundScenario.v
GroundInv.v
GroundPrepare.v
GroundRecovery.v
GroundPasses.v
GroundAttribution.v
GroundOverlap.v
GroundErrors.v
GroundTheorems.v
GroundTicks.v
IslEngine.v
IslTheorems.v
GroundDecision.v
EventDiff.v
EventDiffTheorems.v
Snapshot.v
SnapshotTheorems.v
Pipeline.v
TickScenario.v
AgentHealth.v
EpochSync.v
PyTime.v
DesiredState.v
Authority.v
AuthorityTheorems.v
AuthorityScenario.v
Actuation.v
DispatchPlanner.v
ReconcileTheorems.v
ContactDrain.v
Sha256.v
Placement.v
Substrate.v
NodeAgentBatches.v
BatchTheorems.v
DispatchActuator.v
ActuatorTheorems.v
LongDelayStages.v
LongDelayTheorems.v
Adoption.v
AdoptionTheorems.v
StationState.v
Recovery.v
DispatchLoop.v
StationTheorems.v
RecoveryTheorems.v
PassTheorems.v
DispatchScenario.v
WriterLease.v
CommandContract.v
ContractTheorems.v
WriterFence.v
OperationExecutor.v
CatalogRefs.v
TransitionOperation.v
TransitionStore.v
TransitionTheorems.v
SessionReconcile.v
SessionTransitions.v
SessionTheorems.v
SessionSwitch.v
SwitchTheorems.v
TransitionScenario.v
CatalogClosure.v
ClosureTheorems.v
CatalogUpload.v
UploadTheorems.v
UploadStore.v
StoreTheorems.v
StoreProgress.v
CatalogRepository.v
RepositoryInv.v
RepositoryTheorems.v
CatalogScenario.v
