(* ===== verification/Prelude.v ===== *)
(** * Nodalarc: verification of an orbital network emulator

    Nodalarc emulates a network of satellites and ground stations on Linux
    hosts.  Four of its parts carry the decisions this library verifies:

    - the OME (orbital mechanics engine, [src/services/ome/]) decides, tick by
      tick of simulation time, which links exist: it allocates ground terminals,
      schedules inter-satellite links, and publishes the changes as
      [VisibilityEvent]s and the committed state as [LinkStateSnapshot]s;
    - the Scheduler ([src/services/scheduler/]) folds what OME publishes into the
      links it desires, compares them with the links it has, and commands the
      Node Agents, in an order that never holds a terminal twice;
    - the Node Agents wire the kernel and answer with proof of what they did;
    - VS-API ([src/services/vs_api/]) collects the catalog documents a session
      needs, uploads them, and switches the cluster from one session to the next,
      with a durable record of every transition.

    OME is the only authority on which links exist, the Scheduler the only writer
    to the Node Agents, and what the Scheduler believes is actual is only what an
    agent proved.  The theorems follow a link along that path, and a session from
    its documents to the runtime that proves it runs them.

    ** Files

    Shared:
    - [Prelude]: exceptions and the error monad ([result], [let!], [raise_if],
      [foldM], the loop rules), the tactics [rbind], [rguard], [evaluated], the
      hint database [nodal], lemmas on lists;
    - [PyFloat]: Python floats as binary64 ([SpecFloat]), with rounding, and the
      order facts away from NaN;
    - [PyData]: insertion-ordered dictionaries, string and pair order, [sorted];
    - [PyTime]: [datetime], [timedelta] of a float, the timestamp format.

    OME, one tick:
    - [GroundPolicy]: [lib/nodalarc/models/ground_policy.py],
      [ground_selection_policies.py], [ground_handover_policies.py];
    - [GroundTypes]: the values the ground engines exchange ([types.py],
      [lib/nodalarc/models/link_decisions.py]) with their validators;
    - [GroundAllocator]: [allocate_ground_links] of [ground_allocator.py], whole:
      validation, candidates and ranking, prior-state recovery, the arbitration
      passes, displacement and make-before-break, attribution, receive windows.
      [AllocInput] is its arguments, [AllocEnv] what it derives from them,
      [AllocState] its mutable locals, and each closure is a function on them;
    - [GroundInv], [GroundPrepare], [GroundRecovery], [GroundPasses],
      [GroundAttribution], [GroundOverlap], [GroundErrors]: its invariants, stage
      by stage; [GroundTheorems] and [GroundTicks]: what it promises, of one tick
      and of every state a run of ticks reaches; [GroundScenario]: the inputs of
      the repository's own unit tests, evaluated;
    - [IslEngine], [IslTheorems]: [isl_engine.py] and the feasibility and
      scheduling of [visibility.py];
    - [GroundDecision]: the per-pair decision and its wire form;
    - [EventDiff], [EventDiffTheorems]: [event_diff.py];
    - [Snapshot], [SnapshotTheorems]: [snapshot_builder.py];
    - [Pipeline]: the ground tick end to end; [TickScenario]: one, evaluated.

    Scheduler:
    - [AgentHealth]: [agent_health.py]; [EpochSync]: [epoch_sync.py];
    - [DesiredState]: [desired_state.py], the contact names included;
    - [Authority], [AuthorityTheorems], [AuthorityScenario]: the callbacks of
      [dispatcher.py] that turn messages into [DispatchIntent]s, as a transition
      function [handle] on the Scheduler's decision state;
    - [Actuation]: [actuation.py], the chunked commands of
      [dispatch_actuator.py], [_handle_actuation_result];
    - [DispatchPlanner], [ReconcileTheorems]: [dispatch_planner.py] and
      [_reconcile_mbb], the staged dispatch against the Node Agents;
    - [ContactDrain]: [contact_drain.py], the long-delay contacts;
    - [Sha256], [Placement]: [pod_locator.py] and [lib/nodalarc/vxlan.py];
    - [Substrate]: [substrate_latency.py], [latency_compensator.py] and the
      measurement contract;
    - [NodeAgentBatches], [BatchTheorems]: [node_agent_batches.py], the messages of
      every LinkUp and LinkDown;
    - [DispatchActuator], [ActuatorTheorems]: [dispatch_actuator.py], the requests,
      their judgement, the loss accounts, audits and surveys;
    - [LongDelayStages], [LongDelayTheorems]: [_reconcile_long_delay] of
      [dispatcher.py]; [Adoption], [AdoptionTheorems]: [long_delay_adoption.py] and
      the adoption of a restarted Scheduler, on the same state;
    - [StationState], [StationTheorems]: what [dispatcher.py] knows of each ground
      station (clean, dirty, repairing, operator required), its stale links, the
      marks and the filters they put on commands;
    - [Recovery], [RecoveryTheorems]: verification, kernel audits and the operator's
      repair, as programs over the Dispatcher's state and its commands; what a repair
      announces can fail to be published ([RepairEvent]), which raises there;
    - [DispatchLoop], [PassTheorems]: [_reconcile_links], the two-phase pass, the
      intent queue and the worker, with the states they reach; [DispatchScenario]:
      sessions of it, evaluated;
    - [WriterLease]: [writer_lease.py], as programs over the Kubernetes API, where the
      Lease can be deleted and created again at any time.

    Node Agent ([src/services/node_agent/]):
    - [CommandContract], [ContractTheorems]: [command_contract.py], and that the
      requests of the Scheduler meet it;
    - [WriterFence]: the Lease, the Scheduler processes and the Node Agents'
      floors ([writer_lease_view.py]) as one transition system;
    - [OperationExecutor]: [operation_plan.py], [operation_executor.py].

    VS-API and the documents it deploys:
    - [CatalogRefs]: [lib/nodalarc/catalog_refs.py], the references and the regular
      expression their schema publishes;
    - [CatalogClosure], [ClosureTheorems]: [lib/nodalarc/catalog_closure.py], the
      documents a session needs;
    - [CatalogUpload], [UploadTheorems]: [lib/nodalarc/catalog_upload.py] and the
      ConfigMap codec of [kubernetes_runtime_config.py];
    - [UploadStore], [StoreTheorems], [StoreProgress]: [catalog_upload_store.py] and
      [catalog_upload_lifecycle.py];
    - [CatalogRepository], [RepositoryInv], [RepositoryTheorems]:
      [lib/nodalarc/filesystem_catalog_repository.py], the generations of the user
      catalog, with writes that fail and processes that die, its counters of pins and,
      apart from them, the snapshot objects there are; [CatalogScenario]: a small
      catalog, collected, uploaded, stored and changed, evaluated;
    - [TransitionOperation]: the records of [transition_operations.py] with the
      models of [session_sources.py]; [TransitionStore], [TransitionTheorems]: its two
      stores, the one in files with the faults of a file system and crashes;
    - [SessionReconcile]: what is concluded of an interrupted transition from the
      live resource; [SessionTransitions], [SessionTheorems]: admission, run and
      recovery of transitions in [main.py];
    - [SessionSwitch], [SwitchTheorems]: [session_manager.py], where a job in flight
      outlives the cancellation of its task, and the resource of
      [session_deployment.py]; [TransitionScenario]: some transitions and a switch on a
      small cluster, evaluated.

    ** Interfaces

    [AllocationContract] ([EventDiff]) is what the event diff and the decision
    snapshot need of an allocation; [Pipeline] proves that the allocator meets it.
    [isl_contract] is the same between the ISL engine and its diff.  [Agents]
    ([DispatchPlanner]) is what the reconcile pass needs of the Node Agents; its
    law is what [build_actuation_result] ensures, and [ActuatorTheorems] shows that
    the dispatch actuator implements it.  [LeaseServer] ([WriterLease]) is what the
    Kubernetes API server promises of a Lease: compare-and-swap writes, and uids and
    versions that are not given twice.  The Node
    Agents, the clocks and the measurements are the environment [Env] of the
    long-delay stages, a function of the commands sent before.
    [TransitionOperationStore] is what the transitions need of a store; both stores
    are instances.  [RecordCodec] is the JSON text of a record, [Grammar] the
    validation of a document, [AtomicCluster] and [ConfigMapServer] what the
    Kubernetes API promises the switch and the upload store.  [StrictTotal] and
    [StrictWeakOn] are the orders the sorts need.

    ** What is proved

    - Ground allocation (C1 to C6): no terminal carries two links, the result
      accounts for every visible pair with a reason that is true of the final tables,
      a pair is refused for capacity only behind links it may not displace, from
      well-formed inputs no internal check of the allocator can fail, and over any run
      of ticks every make-before-break overlap keeps both links.
    - Inter-satellite links and events (C7, C8): terminal capacity; the event stream
      is exactly the difference of the states.
    - Scheduler state (C9 to C11): the Scheduler dispatches what OME published, it
      never desires a link OME has not marked, contact names read back.
    - Reconciliation (C15, C16): a pass opens nothing at stations that are not
      trusted and takes down no plain link at those whose kernel is dirty; between
      clean stations of local links, when its batches succeed, it leaves exactly the
      desired links.
    - Recovery of a ground station (C12 to C14): no station is without a way back to
      clean but by a repair that could not be announced, a station is cleared on kernel
      proof only, and a repair that leaves a station clean has given it the links of the
      authority.
    - Long-delay contacts (C17, C18): the records are sound in every state a session
      reaches, and a restart leaves no contact behind that a survey answer names.
    - Node Agents (C19 to C22): what the Scheduler sends for well-formed records meets
      the contract of an agent of its session, the epochs taken of one Lease object are
      exclusive and bind the agents that see it, and an operation plan reports what it
      did: what was proven, what was rolled back and whether dirt is left.
    - Transition records (C23, C24): at most one transition is open and a closed
      record never changes, whatever fails on a volume that keeps what was written to
      it; the two stores answer alike.
    - Transitions (C25 to C27): an interrupted transition whose resource decides it is
      settled, success is recorded on runtime proof only, and every transition ends.
    - The switch (C28, C29): the old session goes only after the new upload is stored
      and verified, and a failed switch keeps an upload that is in use unless it was
      cancelled while the creation that uses it was in flight.
    - Catalog documents (C30 to C33 and C40): the collector returns exactly the
      documents a session needs or the reason there are none, its walk ends, an upload
      is accepted exactly when it is the closure of its root, what was collected can
      be uploaded, and the reference classes accept what their schema says.
    - The upload store (C34 to C36): an upload is stored whole or taken back, it is
      stored when the server does what it is asked, and collection spares what is in
      use.
    - The catalog repository (C37 to C39): whatever fails and wherever the process
      dies, a catalog that was opened has a current generation, which is whole, as are
      those of the snapshots there are; a snapshot never changes, and a commit happens
      entirely or not at all.
    - Beside these, lemmas of the same weight that carry no number:
      [ground_links_admissible], [ground_windows_off_held_terminals],
      [ground_tick_total], [isl_symmetric], [snapshot_interfaces_exclusive],
      [suspended_queues_only_resume], [resume_from_expected_epoch],
      [success_is_kernel_proof], [mbb_within_capacity], [evidence_calls_operator],
      [no_reconcile_during_seek], [plan_lets_contacts_drain],
      [drain_closes_on_time], [up_plan_wires_both_ends], [teardown_reaches_setup],
      [losses_conserved], [inventory_asserts_setup], [stage_reaches_named_ends],
      [opens_follow_prepare], [open_is_what_was_prepared], [holder_never_refused],
      [clean_failure_leaves_no_trace], [own_resource_recognised], [acquire_never_collides],
      [link_ups_are_proven], [close_rounds_complete].
    - Behaviour that differs from what the code or its comments intend, as
      theorems about the code as it is: [degraded_by_a_success],
      [unreachable_ground_is_clean], [split_command_drops_reports] and its
      consequence [large_survey_forgets_contacts], [diff_ignores_terminals],
      [failed_release_collides], [bbm_reservation_uncounted],
      [latency_update_forgets_losses], [missed_stop_drops_contact],
      [first_view_readmits_stale_writer], [recreated_lease_locks_out],
      [lost_repair_strands], [repair_during_seek_clears],
      [repair_of_pass_fails], [stale_repair_halts], [leftover_is_listed_stale],
      [recovery_ends_admitted], [inflight_create_loses_upload],
      [unsynced_reservation_blocks], [lost_answer_left],
      [interrupted_removal_blocks], [failed_commit_published].

    ** Conventions and bounds

    A Python exception is a [Raise] naming its site; message text, logging and
    metrics are not modelled.  Dictionaries whose order the code observes are
    [dict], the others [gmap]; sets are [gset], and where the source iterates a
    set whose order cannot matter the model uses [elements].  Integers are [Z]
    (Python integers are unbounded), floats binary64.  The arbitration loop of
    the allocator is bounded by the source's own cap on passes.  Other fuel:
    [chunks_from]'s is the length of the command, enough because each chunk takes
    at least one item ([chunked_command_exact]); [rounds_from]'s is the number of
    records, enough because each round takes at least one
    ([close_rounds_complete]); the depth of [visit] is the number of documents that
    can be read, enough because no document is visited inside itself
    ([closure_walk_ends]; Python's own recursion limit is not modelled).
    Coroutines are modelled between their suspension points: a callback runs to
    its end, and messages arrive in any order.  A publication that raises is modelled
    around a repair, where it changes what follows ([announce]); elsewhere it ends the
    worker, as any exception of a pass does.

    ** Not modelled

    The propagation, light-time and antenna geometry (numerical; what the engines
    read of it is an argument), NATS and gRPC transport, the Kubernetes operator, the
    browser front end, the document models with the YAML decoder and the session
    resolver (to the collector they are the interface [Grammar]), the kernel handlers
    of the Node Agent, routing adapters, measurement and tools.  Of the Scheduler: the
    publication of its status and heartbeats, the substrate refresher and the reading
    of the lifecycle from Kubernetes.  Of the catalog repository: the checks of the
    configured roots and scopes, and the loss of writes that were not synced (a write
    that was done stays, a write that is interrupted may be partial).  Of VS-API: the
    routes, the frames it sends to browsers, the active session context and the session
    builder. *)

From stdpp Require Import base list strings gmap sorting numbers.
From Stdlib Require Import Lia.

(** ** Exceptions and the error monad

    Python code that raises is modelled by [result]: a value, or the exception
    that stopped it.  [what] identifies the raise site (the fixed part of the
    message); the interpolated text of a message is not modelled.  [Raised] is an
    exception class of the program itself. *)

Inductive exn : Type :=
| ValueError (what : string)
| KeyError (what : string)
| TypeError (what : string)
| RuntimeError (what : string)
| OverflowError (what : string)
| Raised (class what : string).

Inductive result (A : Type) : Type :=
| Ok (a : A)
| Raise (e : exn).
Arguments Ok {A} a.
Arguments Raise {A} e.

#[global] Instance exn_eq_dec : EqDecision exn.
Proof. solve_decision. Defined.

Definition rbind {A B} (c : result A) (k : A → result B) : result B :=
  match c with Ok a => k a | Raise e => Raise e end.

Declare Scope py_scope.
Delimit Scope py_scope with py.
Open Scope py_scope.

Notation "'let!' x ':=' c 'in' k" := (rbind c (λ x, k))
  (at level 10, x binder, c at level 200, k at level 200) : py_scope.
Notation "'raise_if' b 'with' e ';;' k" := (if b then Raise e else k)
  (at level 10, b at level 99, e at level 10, k at level 200, only parsing) : py_scope.

(** A lookup that raises [KeyError] when the key is absent: [d[k]]. *)
Definition or_raise {A} (o : option A) (e : exn) : result A :=
  match o with Some a => Ok a | None => Raise e end.

(** [for x in l: s = f(s, x)], stopping at the first exception. *)
Fixpoint foldM {A S} (f : S → A → result S) (s : S) (l : list A) : result S :=
  match l with
  | [] => Ok s
  | x :: l => let! s' := f s x in foldM f s' l
  end.

(** [[f(x) for x in l]], stopping at the first exception. *)
Fixpoint mapM_r {A B} (f : A → result B) (l : list A) : result (list B) :=
  match l with
  | [] => Ok []
  | x :: l => let! y := f x in let! ys := mapM_r f l in Ok (y :: ys)
  end.

Definition is_Ok {A} (r : result A) : bool :=
  match r with Ok _ => true | Raise _ => false end.

Lemma rbind_Ok {A B} (c : result A) (k : A → result B) b :
  rbind c k = Ok b ↔ ∃ a, c = Ok a ∧ k a = Ok b.
Proof. destruct c; simpl; naive_solver. Qed.

Lemma or_raise_Ok {A} (o : option A) e a : or_raise o e = Ok a ↔ o = Some a.
Proof. destruct o; simpl; naive_solver. Qed.

Lemma raise_if_Ok {A} (b : bool) e (k : result A) a :
  (if b then Raise e else k) = Ok a ↔ b = false ∧ k = Ok a.
Proof. destruct b; naive_solver. Qed.

Section Result.
Context {A B S : Type}.

Lemma foldM_app (f : S → A → result S) s l1 l2 :
  foldM f s (l1 ++ l2) = let! s' := foldM f s l1 in foldM f s' l2.
Proof. revert s. induction l1; intros s; simpl; [done|]. destruct (f s a); simpl; auto. Qed.

(** The invariant rule of a loop: what every iteration preserves, the loop
    preserves. *)
Lemma foldM_inv (I : S → Prop) (f : S → A → result S) l :
  (∀ s x s', x ∈ l → I s → f s x = Ok s' → I s') →
  ∀ s s', I s → foldM f s l = Ok s' → I s'.
Proof.
  induction l as [|x l IH]; intros Hf s s' Hs; simpl.
  { intros [= <-]. done. }
  intros [s1 [H1 H2]]%rbind_Ok. eapply IH; [|eapply Hf; [|exact Hs|exact H1]|exact H2].
  - intros s0 y s0' Hy. apply Hf. by right.
  - by left.
Qed.

(** The same with the processed prefix visible to the invariant. *)
Lemma foldM_prefix (I : list A → S → Prop) (f : S → A → result S) l :
  (∀ pre x post s s', l = pre ++ x :: post → I pre s → f s x = Ok s' → I (pre ++ [x]) s') →
  ∀ s s', I [] s → foldM f s l = Ok s' → I l s'.
Proof.
  intros Hf s s' Hs Hfold.
  enough (∀ done todo s, l = done ++ todo → I done s → foldM f s todo = Ok s' → I l s')
    as H by (eapply (H []); done).
  clear s Hs Hfold. intros done todo. revert done.
  induction todo as [|x todo IH]; intros done s Hl Hs; simpl.
  - intros [= <-]. by rewrite Hl, app_nil_r.
  - intros (s1 & H1 & H2)%rbind_Ok. eapply (IH (done ++ [x])); [| |exact H2].
    + by rewrite <- app_assoc.
    + by eapply Hf.
Qed.

(** The progress rule: a loop whose iterations cannot raise does not raise. *)
Lemma foldM_total (I : S → Prop) (f : S → A → result S) l :
  (∀ s x, x ∈ l → I s → ∃ s', f s x = Ok s' ∧ I s') →
  ∀ s, I s → ∃ s', foldM f s l = Ok s' ∧ I s'.
Proof.
  induction l as [|x l IH]; intros Hf s Hs; simpl; [by eauto|].
  destruct (Hf s x) as (s1 & -> & Hs1); [by left|done|]. simpl.
  apply IH; [|done]. intros s0 y Hy. apply Hf. by right.
Qed.

Lemma mapM_r_Forall2 (f : A → result B) l l' :
  mapM_r f l = Ok l' ↔ Forall2 (λ x y, f x = Ok y) l l'.
Proof.
  revert l'. induction l as [|x l IH]; intros l'; simpl.
  - split; [intros [= <-]; constructor|by inversion 1].
  - rewrite rbind_Ok. setoid_rewrite rbind_Ok. split.
    + intros (y & Hy & ys & Hys & [= <-]). constructor; [done|]. by apply IH.
    + inversion 1; subst. eexists; split; [done|]. eexists; split; [by apply IH|done].
Qed.

Lemma mapM_r_total (f : A → result B) l :
  (∀ x, x ∈ l → is_Ok (f x) = true) → is_Ok (mapM_r f l) = true.
Proof.
  induction l as [|x l IH]; intros Hf; simpl; [done|].
  specialize (Hf x ltac:(by left)) as Hx. destruct (f x); [|done]. simpl.
  destruct (mapM_r f l) eqn:E; [done|]. simpl in IH. apply IH.
  intros y Hy. apply Hf. by right.
Qed.
End Result.

(** ** Which exceptions a computation can raise *)

Definition raises_only {A} (P : exn → Prop) (r : result A) : Prop := ∀ e, r = Raise e → P e.

Section Raises.
Context {A B : Type} (P : exn → Prop).

Lemma ro_Ok (a : A) : raises_only P (Ok a).
Proof. by intros e. Qed.

Lemma ro_Raise e : P e → raises_only P (Raise e : result A).
Proof. by intros ? ? [= <-]. Qed.

Lemma ro_bind (c : result A) (k : A → result B) :
  raises_only P c → (∀ a, c = Ok a → raises_only P (k a)) → raises_only P (rbind c k).
Proof. intros Hc Hk e. destruct c as [a|e']; simpl; [by apply Hk|]. intros [= <-]. by apply Hc. Qed.

Lemma ro_Some (o : option A) (a : A) e : o = Some a → raises_only P (or_raise o e).
Proof. intros ->. by intros e'. Qed.

Lemma ro_is_Some (o : option A) e : is_Some o → raises_only P (or_raise o e).
Proof. intros [a ->]. by intros e'. Qed.

Lemma ro_foldM {S} (I : S → Prop) (f : S → A → result S) l :
  (∀ s x, x ∈ l → I s → raises_only P (f s x) ∧ ∀ s', f s x = Ok s' → I s') →
  ∀ s, I s → raises_only P (foldM f s l).
Proof.
  induction l as [|x l IH]; intros Hf s Hs; simpl; [by intros e|].
  destruct (Hf s x) as [H1 H2]; [by left|done|]. intros e.
  destruct (f s x) as [s1|e1]; simpl; [|intros [= <-]; by apply H1].
  apply IH; [|by apply H2]. intros s0 y Hy. apply Hf. by right.
Qed.

Lemma ro_mapM (f : A → result B) l :
  (∀ x, x ∈ l → raises_only P (f x)) → raises_only P (mapM_r f l).
Proof.
  induction l as [|x l IH]; intros Hf; simpl; [by intros e|]. intros e.
  specialize (Hf x ltac:(by left)) as Hx. destruct (f x) as [y|e1]; simpl.
  - destruct (mapM_r f l) as [ys|e2] eqn:E; simpl; [done|]. intros [= <-].
    apply IH; [|done]. intros z Hz. apply Hf. by right.
  - intros [= <-]. by apply Hx.
Qed.
End Raises.

(** ** Automation *)

(** [rstep as x E] steps over the first bind of a [raises_only] goal: it leaves
    the goal for the bound computation, unless a hint closes it, and the
    continuation with [E : c = Ok x]. *)
Tactic Notation "rstep" "as" simple_intropattern(x) ident(E) :=
  apply ro_bind; [try solve [eauto using ro_Some, ro_is_Some, ro_Ok with nodal]
                 |intros x E; cbn beta iota; try apply or_raise_Ok in E].

(** [rbind H as x E] opens [H : (let! y := c in k y) = Ok r] into
    [E : c = Ok x] (the lookup itself when [c] is one) and [H : k x = Ok r]. *)
Tactic Notation "rbind" hyp(H) "as" simple_intropattern(x) ident(E) :=
  apply rbind_Ok in H; destruct H as (x & E & H); cbn beta iota in H;
  try apply or_raise_Ok in E.

(** [rguard H as E] passes a [raise_if] of [H], keeping in [E] what the guard
    established. *)
Tactic Notation "rguard" hyp(H) "as" ident(E) :=
  apply raise_if_Ok in H; destruct H as [E H];
  try (apply negb_false_iff in E);
  first [apply bool_decide_eq_true in E | apply bool_decide_eq_false in E | idtac].

(** Case on a boolean test in the goal, keeping its equation. *)
Ltac case_test E :=
  match goal with
  | |- context [if ?b then _ else _] => destruct b eqn:E
  end.

(** A decidable or computable fact about concrete data. *)
Ltac evaluated :=
  first [ solve [vm_compute; reflexivity] | apply (bool_decide_unpack _); vm_compute; exact I ].

Create HintDb nodal discriminated.

(** ** Lists *)

Section Lists.
Context {A : Type}.
Implicit Types (l : list A) (p : A → bool).

(** [next((x for x in l if p(x)), None)]. *)
Fixpoint find_first p l : option A :=
  match l with
  | [] => None
  | x :: l => if p x then Some x else find_first p l
  end.

Lemma find_first_Some p l x : find_first p l = Some x → x ∈ l ∧ p x = true.
Proof.
  induction l as [|y l IH]; simpl; [done|]. destruct (p y) eqn:E.
  - intros [= <-]. split; [by left|done].
  - intros [??]%IH. split; [by right|done].
Qed.

Lemma find_first_None p l : find_first p l = None ↔ ∀ x, x ∈ l → p x = false.
Proof.
  induction l as [|y l IH]; simpl.
  - split; [intros _ x Hx; inversion Hx|done].
  - destruct (p y) eqn:E; split.
    + done.
    + intros H. rewrite (H y) in E; [done|by left].
    + intros H x [->|Hx]%elem_of_cons; [done|]. by apply IH.
    + intros H. apply IH. intros x Hx. apply H. by right.
Qed.

Lemma find_first_is_Some p l x :
  x ∈ l → p x = true → is_Some (find_first p l).
Proof.
  intros Hx Hp. destruct (find_first p l) eqn:E; [by eexists|].
  rewrite find_first_None in E. rewrite E in Hp; done.
Qed.

(** [max(l, key=...)] for a non-empty list and [None] for an empty one, with
    [lt] the order on keys: the first of the maximal elements. *)
Fixpoint max_by_from (lt : A → A → bool) (best : A) l : A :=
  match l with
  | [] => best
  | x :: l => max_by_from lt (if lt best x then x else best) l
  end.
Definition max_by (lt : A → A → bool) l : option A :=
  match l with [] => None | x :: l => Some (max_by_from lt x l) end.

Lemma max_by_from_in lt b l : max_by_from lt b l = b ∨ max_by_from lt b l ∈ l.
Proof.
  revert b. induction l as [|x l IH]; intros b; simpl; [by left|].
  destruct (IH (if lt b x then x else b)) as [->|?].
  - destruct (lt b x); [right; by left|by left].
  - right. by right.
Qed.

Lemma max_by_in lt l x : max_by lt l = Some x → x ∈ l.
Proof.
  destruct l as [|y l]; simpl; [done|]. intros [= <-].
  destruct (max_by_from_in lt y l) as [->|?]; [by left|by right].
Qed.

Lemma max_by_None lt l : max_by lt l = None ↔ l = [].
Proof. destruct l; simpl; naive_solver. Qed.

(** [l] without the elements where [p] holds, and the count of those. *)
Lemma length_filter_bool_le p l : length (List.filter p l) ≤ length l.
Proof. induction l as [|x l IH]; simpl; [done|]. destruct (p x); simpl; lia. Qed.

Lemma in_filter_bool p l x : x ∈ List.filter p l ↔ x ∈ l ∧ p x = true.
Proof. rewrite !list_elem_of_In. apply List.filter_In. Qed.

Lemma NoDup_filter_bool p l : NoDup l → NoDup (List.filter p l).
Proof. intros H. apply NoDup_ListNoDup, List.NoDup_filter. by apply NoDup_ListNoDup. Qed.

Lemma NoDup_map_filter {B} (f : A → B) p l :
  NoDup (map f l) → NoDup (map f (List.filter p l)).
Proof.
  induction l as [|x l IH]; simpl; [done|]. inversion 1 as [|? ? Hx Hl]; subst.
  destruct (p x); simpl; [|auto]. constructor; [|auto].
  intros (y & E & [Hy _]%in_filter_bool)%list_elem_of_fmap. apply Hx, list_elem_of_fmap. eauto.
Qed.
End Lists.

(** [enumerate(l)]. *)
Definition enumerate {A} (l : list A) : list (nat * A) := imap pair l.

Definition opt_or {A} (o : option A) (d : A) : A := default d o.
