(* ===== verification/PyFloat.v ===== *)
(** * IEEE 754 binary64: Python's [float]

    A Python float is a binary64 number.  It is represented here by the
    Standard Library's [spec_float] at precision 53 and maximal exponent 1024,
    whose operations round to nearest even, so the arithmetic of the model is
    that of the interpreter, rounding included.  Comparisons are IEEE: every
    comparison with a NaN is false.

    The only order facts the development uses are proved here: on the numbers
    that are not NaN, [flt] is a strict weak order ([flt_swo]). *)

From Stdlib Require Import ZArith SpecFloat.
From S2P Require Import Prelude.
From stdpp Require Import base list.
Local Open Scope Z_scope.

Abbreviation float := spec_float.

#[global] Instance float_eq_dec : EqDecision float.
Proof. solve_decision. Defined.

Definition prec : Z := 53.
Definition emax : Z := 1024.

Definition fadd : float → float → float := SFadd prec emax.
Definition fsub : float → float → float := SFsub prec emax.
Definition fmul : float → float → float := SFmul prec emax.
Definition fdiv : float → float → float := SFdiv prec emax.
Definition fsqrt : float → float := SFsqrt prec emax.
Definition fopp : float → float := SFopp.
Definition fabs : float → float := SFabs.

(** [x < y], [x <= y], [x == y] on floats. *)
Definition flt : float → float → bool := SFltb.
Definition fle : float → float → bool := SFleb.
Definition feq : float → float → bool := SFeqb.

(** [float(n)] for an integer, and the decimal literals of the source. *)
Definition float_of_Z (n : Z) : float := binary_normalize prec emax n 0 false.
Definition f_0 : float := S754_zero false.
Definition f_1 : float := float_of_Z 1.
Definition f_90 : float := float_of_Z 90.
Definition f_1000 : float := float_of_Z 1000.

(** The double nearest to [n / d]: the value of a decimal literal. *)
Definition float_of_ratio (n d : positive) : float :=
  let '(m, e, l) := SFdiv_core_binary prec emax (Z.pos n) 0 (Z.pos d) 0 in
  binary_round_aux prec emax false m e l.
Definition f_1_15 : float := Eval vm_compute in float_of_ratio 115 100.
Definition f_5 : float := float_of_Z 5.
Definition f_1e_9 : float := Eval vm_compute in float_of_ratio 1 1000000000.

Definition f_360 : float := float_of_Z 360.
Definition f_2 : float := float_of_Z 2.
Definition f_inf : float := S754_infinity false.

(** [min(x, y)]: the first of the smallest. *)
Definition fmin (x y : float) : float := if flt y x then y else x.

Definition is_nan (x : float) : bool := match x with S754_nan => true | _ => false end.
Definition is_inf (x : float) : bool := match x with S754_infinity _ => true | _ => false end.

(** [int(x)]: truncation toward zero; [None] where Python raises (NaN and the
    infinities). *)
Definition int_of_float (x : float) : option Z :=
  match x with
  | S754_zero _ => Some 0
  | S754_infinity _ | S754_nan => None
  | S754_finite s m e =>
      let a := if 0 <=? e then Z.shiftl (Z.pos m) e else Z.shiftr (Z.pos m) (- e) in
      Some (if s then - a else a)
  end.

(** ** The order *)

(** A key whose lexicographic order is the order of the floats. *)
Definition fkey (x : float) : Z * Z * Z :=
  match x with
  | S754_infinity true => (-2, 0, 0)
  | S754_finite true m e => (-1, - e, - Z.pos m)
  | S754_zero _ | S754_nan => (0, 0, 0)
  | S754_finite false m e => (1, e, Z.pos m)
  | S754_infinity false => (2, 0, 0)
  end.

Definition lex3 (a b : Z * Z * Z) : Prop :=
  let '(a1, a2, a3) := a in let '(b1, b2, b3) := b in
  a1 < b1 ∨ (a1 = b1 ∧ (a2 < b2 ∨ (a2 = b2 ∧ a3 < b3))).

Lemma flt_fkey x y :
  is_nan x = false → is_nan y = false → flt x y = true ↔ lex3 (fkey x) (fkey y).
Proof.
  unfold flt, SFltb, SFcompare.
  destruct x as [|[]| |[] m1 e1], y as [|[]| |[] m2 e2]; simpl; intros ??;
    try done; try (split; [done|lia]); try (split; [lia|done]).
  - change (Pos.compare_cont Eq m1 m2) with (Pos.compare m1 m2).
    destruct (Z.compare_spec e1 e2), (Pos.compare_spec m1 m2); simpl;
      split; intros; try done; lia.
  - change (Pos.compare_cont Eq m1 m2) with (Pos.compare m1 m2).
    destruct (Z.compare_spec e1 e2), (Pos.compare_spec m1 m2); simpl;
      split; intros; try done; lia.
Qed.

(** ** Strict weak orders

    What a sort needs of the order of its keys, on the keys it meets. *)
Class StrictWeakOn {A} (lt : A → A → bool) (P : A → Prop) : Prop := {
  swo_irrefl x : P x → lt x x = false;
  swo_trans x y z : P x → P y → P z → lt x y = true → lt y z = true → lt x z = true;
  swo_neg_trans x y z : P x → P y → P z → lt x z = true → lt x y = true ∨ lt y z = true;
}.

Definition not_nan (x : float) : Prop := is_nan x = false.

#[global] Instance flt_swo : StrictWeakOn flt not_nan.
Proof.
  split; unfold not_nan.
  - intros x Hx. apply not_true_iff_false. rewrite flt_fkey by done.
    destruct (fkey x) as [[??]?]; simpl; lia.
  - intros x y z Hx Hy Hz. rewrite !flt_fkey by done.
    destruct (fkey x) as [[??]?], (fkey y) as [[??]?], (fkey z) as [[??]?]; simpl; lia.
  - intros x y z Hx Hy Hz. rewrite !flt_fkey by done.
    destruct (fkey x) as [[??]?], (fkey y) as [[??]?], (fkey z) as [[??]?]; simpl; lia.
Qed.

Lemma fopp_not_nan x : not_nan x → not_nan (fopp x).
Proof. by destruct x. Qed.

Lemma flt_nan_l x y : is_nan x = true → flt x y = false.
Proof. by destruct x. Qed.

(** [x <= y] is [not y < x] away from NaN. *)
Lemma fle_flt x y : not_nan x → not_nan y → fle x y = negb (flt y x).
Proof.
  unfold not_nan, fle, flt, SFleb, SFltb, SFcompare.
  destruct x as [|[]| |[] m1 e1], y as [|[]| |[] m2 e2]; simpl; intros ??; try done.
  all: change (Pos.compare_cont Eq m1 m2) with (Pos.compare m1 m2);
    change (Pos.compare_cont Eq m2 m1) with (Pos.compare m2 m1);
    rewrite (Z.compare_antisym e1 e2), (Pos.compare_antisym m1 m2);
    destruct (Z.compare e1 e2), (Pos.compare m1 m2); done.
Qed.

Example f_1_15_value : f_1_15 = S754_finite false 5179139571476070 (-52).
Proof. reflexivity. Qed.
Example forty_hold : fmul (float_of_Z 40) f_1_15 = float_of_Z 46.
Proof. vm_compute. reflexivity. Qed.
