(* ===== verification/PyData.v ===== *)
(** * Python containers: dicts, ordering, sorting

    - [dict K V]: an insertion-ordered dictionary, as CPython keeps it: an
      association list without repeated keys.  Assigning an existing key keeps
      its position, a new key goes last.
    - the order of [str] (by code point; UTF-8 bytes sort the same way) and of
      tuples of strings;
    - [sorted]: the stable sort. *)

From Stdlib Require Import Permutation Sorted.
From S2P Require Import Prelude.
From S2P Require Import PyFloat.
From stdpp Require Import base list strings gmap.

(** ** Dictionaries *)

Definition dict (K V : Type) : Type := list (K * V).

Section Dict.
Context {K V : Type} `{EqDecision K}.
Implicit Types (d : dict K V) (k : K) (v : V).

(** [d.get(k)]. *)
Fixpoint dict_get k d : option V :=
  match d with
  | [] => None
  | (k', v) :: d => if decide (k = k') then Some v else dict_get k d
  end.

(** [k in d]. *)
Definition dict_mem k d : bool := if dict_get k d is Some _ then true else false.

(** [d[k] = v]. *)
Fixpoint dict_set k v d : dict K V :=
  match d with
  | [] => [(k, v)]
  | (k', v') :: d => if decide (k = k') then (k', v) :: d else (k', v') :: dict_set k v d
  end.

(** [d.pop(k, None)]. *)
Definition dict_del k d : dict K V := List.filter (λ kv, negb (bool_decide (kv.1 = k))) d.

(** [list(d)]. *)
Definition dict_keys d : list K := map fst d.

Definition dict_wf d : Prop := NoDup (dict_keys d).

(** [dict(items)]: later values replace earlier ones. *)
Definition dict_of (items : list (K * V)) : dict K V :=
  fold_left (λ d kv, dict_set kv.1 kv.2 d) items [].

Lemma dict_get_set_eq k v d : dict_get k (dict_set k v d) = Some v.
Proof.
  induction d as [|[k' v'] d IH]; simpl; [by rewrite decide_True|].
  destruct (decide (k = k')) as [<-|]; simpl; [by rewrite decide_True|].
  by rewrite decide_False.
Qed.

Lemma dict_get_set_ne k k' v d : k ≠ k' → dict_get k' (dict_set k v d) = dict_get k' d.
Proof.
  intros Hne. induction d as [|[k0 v0] d IH]; simpl; [by rewrite decide_False|].
  destruct (decide (k = k0)) as [<-|]; simpl; [by rewrite !decide_False|].
  by rewrite IH.
Qed.

Lemma dict_get_set k k' v d :
  dict_get k' (dict_set k v d) = if decide (k' = k) then Some v else dict_get k' d.
Proof.
  destruct (decide _) as [->|]; [apply dict_get_set_eq|by apply dict_get_set_ne].
Qed.

Lemma dict_get_del k k' d :
  dict_get k' (dict_del k d) = if decide (k' = k) then None else dict_get k' d.
Proof.
  induction d as [|[k0 v0] d IH]; simpl; [by destruct (decide _)|].
  case_bool_decide as E; simpl in *; subst; rewrite IH;
    repeat destruct (decide _); subst; done.
Qed.

Lemma dict_get_None k d : dict_get k d = None ↔ k ∉ dict_keys d.
Proof.
  induction d as [|[k' v] d IH]; simpl; [split; [intros _ H; inversion H|done]|].
  rewrite not_elem_of_cons. destruct (decide (k = k')) as [->|]; naive_solver.
Qed.

Lemma dict_get_is_Some k d : is_Some (dict_get k d) ↔ k ∈ dict_keys d.
Proof.
  destruct (dict_get k d) eqn:E.
  - split; [|by eauto]. intros _. destruct (decide (k ∈ dict_keys d)) as [|H]; [done|].
    apply dict_get_None in H. congruence.
  - apply dict_get_None in E. split; [by intros []|done].
Qed.

Lemma dict_mem_true k d : dict_mem k d = true ↔ k ∈ dict_keys d.
Proof.
  unfold dict_mem. rewrite <- dict_get_is_Some.
  destruct (dict_get k d); by split.
Qed.

Lemma dict_mem_false k d : dict_mem k d = false ↔ k ∉ dict_keys d.
Proof. rewrite <- dict_mem_true. by destruct (dict_mem k d). Qed.

Lemma dict_get_in k v d : dict_get k d = Some v → (k, v) ∈ d.
Proof.
  induction d as [|[k' v'] d IH]; simpl; [done|]. destruct (decide _) as [->|].
  - intros [= ->]. by left.
  - intros H. right. auto.
Qed.

Lemma dict_in_get k v d : dict_wf d → (k, v) ∈ d → dict_get k d = Some v.
Proof.
  unfold dict_wf. induction d as [|[k' v'] d IH]; simpl; intros Hnd Hin; [inversion Hin|].
  apply NoDup_cons in Hnd as [Hk Hnd]. apply elem_of_cons in Hin as [[= -> ->]|Hin].
  - by rewrite decide_True.
  - rewrite decide_False; [by auto|]. intros ->. apply Hk.
    apply list_elem_of_fmap. by exists (k', v).
Qed.

Lemma dict_get_elem_keys k v d : dict_get k d = Some v → k ∈ dict_keys d.
Proof. intros H. apply dict_get_is_Some. by eauto. Qed.

Lemma dict_keys_set_in k v d : k ∈ dict_keys d → dict_keys (dict_set k v d) = dict_keys d.
Proof.
  induction d as [|[k' v'] d IH]; simpl; intros Hin; [inversion Hin|].
  destruct (decide _) as [->|]; simpl; [done|].
  apply elem_of_cons in Hin as [|]; [done|]. by rewrite IH.
Qed.

Lemma dict_set_new k v d : k ∉ dict_keys d → dict_set k v d = d ++ [(k, v)].
Proof.
  induction d as [|[k' v'] d IH]; simpl; intros Hin; [done|].
  apply not_elem_of_cons in Hin as [? ?]. rewrite decide_False by done. by rewrite IH.
Qed.

Lemma dict_keys_set_new k v d : k ∉ dict_keys d → dict_keys (dict_set k v d) = dict_keys d ++ [k].
Proof. intros H. rewrite dict_set_new by done. unfold dict_keys. by rewrite map_app. Qed.

Lemma elem_of_dict_keys_set k k' v d :
  k' ∈ dict_keys (dict_set k v d) ↔ k' = k ∨ k' ∈ dict_keys d.
Proof.
  rewrite <- !dict_get_is_Some, dict_get_set. destruct (decide _); naive_solver.
Qed.

Lemma elem_of_dict_keys_del k k' d :
  k' ∈ dict_keys (dict_del k d) ↔ k' ≠ k ∧ k' ∈ dict_keys d.
Proof.
  rewrite <- !dict_get_is_Some, dict_get_del. destruct (decide _); [|naive_solver].
  split; [by intros []|naive_solver].
Qed.

Lemma dict_keys_del k d :
  dict_keys (dict_del k d) = List.filter (λ k', negb (bool_decide (k' = k))) (dict_keys d).
Proof.
  induction d as [|[k' v'] d IH]; simpl; [done|]. case_bool_decide; simpl; congruence.
Qed.

Lemma dict_set_wf k v d : dict_wf d → dict_wf (dict_set k v d).
Proof.
  unfold dict_wf. intros Hnd. destruct (decide (k ∈ dict_keys d)).
  - by rewrite dict_keys_set_in.
  - rewrite dict_keys_set_new by done. apply NoDup_app. repeat split; [done| |].
    + intros x Hx ->%list_elem_of_singleton. done.
    + apply NoDup_singleton.
Qed.

Lemma dict_del_wf k d : dict_wf d → dict_wf (dict_del k d).
Proof. unfold dict_wf. rewrite dict_keys_del. apply NoDup_filter_bool. Qed.

Lemma dict_wf_nil : dict_wf [].
Proof. constructor. Qed.

Lemma dict_of_wf_from items d :
  dict_wf d → dict_wf (fold_left (λ d kv, dict_set kv.1 kv.2 d) items d).
Proof.
  revert d. induction items as [|[k v] items IH]; intros d Hd; simpl; [done|].
  apply IH. by apply dict_set_wf.
Qed.

Lemma dict_set_in k v k' v' d : (k', v') ∈ dict_set k v d → (k', v') = (k, v) ∨ (k', v') ∈ d.
Proof.
  induction d as [|[k0 v0] d IH]; simpl.
  - rewrite list_elem_of_singleton. auto.
  - case_decide; rewrite !elem_of_cons; naive_solver.
Qed.

Lemma dict_of_in k v items : (k, v) ∈ dict_of items → (k, v) ∈ items.
Proof.
  unfold dict_of.
  enough (∀ d, (k, v) ∈ fold_left (λ d kv, dict_set kv.1 kv.2 d) items d →
    (k, v) ∈ items ∨ (k, v) ∈ d) as H by (intros [?|Hn]%H; [done|inversion Hn]).
  induction items as [|[k' v'] items IH]; intros d; simpl; [auto|].
  intros [?|[[= -> ->]|?]%dict_set_in]%IH; rewrite elem_of_cons; auto.
Qed.

Lemma dict_of_wf items : dict_wf (dict_of items).
Proof. apply dict_of_wf_from, dict_wf_nil. Qed.
End Dict.

#[export] Hint Resolve dict_set_wf dict_del_wf dict_wf_nil dict_of_wf : nodal.

(** ** Orders *)

(** A strict total order given by a boolean test. *)
Class StrictTotal {A} (lt : A → A → bool) : Prop := {
  st_irrefl x : lt x x = false;
  st_trans x y z : lt x y = true → lt y z = true → lt x z = true;
  st_total x y : lt x y = false → lt y x = false → x = y;
}.

Lemma st_asym {A} (lt : A → A → bool) `{!StrictTotal lt} x y : lt x y = true → lt y x = false.
Proof.
  intros H. apply not_true_iff_false. intros H'.
  pose proof (st_trans _ _ _ H H'). by rewrite st_irrefl in *.
Qed.

#[global] Instance strict_total_swo {A} (lt : A → A → bool) (P : A → Prop) `{!StrictTotal lt} :
  StrictWeakOn lt P.
Proof.
  split.
  - intros x _. apply st_irrefl.
  - intros x y z _ _ _. apply st_trans.
  - intros x y z _ _ _ Hxz. destruct (lt x y) eqn:Exy; [by left|right].
    destruct (lt y z) eqn:Eyz; [done|]. destruct (lt y x) eqn:Eyx.
    + rewrite (st_trans y x z) in Eyz; done.
    + rewrite (st_total x y Exy Eyx) in Hxz. congruence.
Qed.

Definition str_lt : string → string → bool := String.ltb.

Lemma str_lt_le s1 s2 : str_lt s1 s2 = negb (String.leb s2 s1).
Proof.
  unfold str_lt, String.ltb, String.leb. rewrite (String.compare_antisym s1 s2).
  by destruct (String.compare s2 s1).
Qed.

#[global] Instance str_lt_total : StrictTotal str_lt.
Proof.
  split.
  - intros x. rewrite str_lt_le. apply negb_false_iff.
    assert (String.le x x) as H by done. by apply Is_true_true.
  - intros x y z. rewrite !str_lt_le, !negb_true_iff. intros Hxy Hyz.
    apply not_true_iff_false. intros Hzx%Is_true_true. apply not_true_iff_false in Hxy.
    apply Hxy, Is_true_true. trans z; [|exact Hzx].
    destruct (String.le_total y z) as [|H]; [done|]. apply Is_true_true in H.
    rewrite H in Hyz. done.
  - intros x y. rewrite !str_lt_le, !negb_false_iff, <- !Is_true_true. intros ??.
    apply (anti_symm String.le); done.
Qed.

(** Two-component tuples, compared as Python does. *)
Definition pair_lt {A B} `{EqDecision A} (lta : A → A → bool) (ltb : B → B → bool)
    (x y : A * B) : bool :=
  if decide (x.1 = y.1) then ltb x.2 y.2 else lta x.1 y.1.

#[global] Instance pair_lt_total {A B} `{EqDecision A} (lta : A → A → bool)
    (ltb : B → B → bool) `{!StrictTotal lta, !StrictTotal ltb} :
  StrictTotal (pair_lt lta ltb).
Proof.
  split; unfold pair_lt.
  - intros [a b]; simpl. rewrite decide_True by done. apply st_irrefl.
  - intros [a1 b1] [a2 b2] [a3 b3]; simpl.
    intros H1 H2. destruct (decide (a1 = a2)) as [->|N12], (decide (a2 = a3)) as [->|N23];
      try (eapply st_trans; eassumption).
    + done.
    + by rewrite decide_False.
    + destruct (decide (a1 = a3)) as [->|].
      * rewrite (st_asym lta a3 a2) in H2; done.
      * eapply st_trans; eauto.
  - intros [a1 b1] [a2 b2]; simpl. destruct (decide (a1 = a2)) as [->|].
    + rewrite decide_True by done. intros. f_equal. by apply (st_total (lt := ltb)).
    + rewrite decide_False by done. intros. exfalso. by apply n, (st_total (lt := lta)).
Qed.

(** Node pairs [(node_a, node_b)], the key of every link of the system. *)
Abbreviation node_pair := (string * string)%type.
Definition npair_lt : node_pair → node_pair → bool := pair_lt str_lt str_lt.
#[global] Instance npair_lt_total : StrictTotal npair_lt.
Proof. apply _. Qed.

(** ** Sorting *)

Section Sort.
Context {A : Type} (lt : A → A → bool).

(** Insertion before the first element that is not smaller: stable. *)
Fixpoint insert_sorted (x : A) (l : list A) : list A :=
  match l with
  | [] => [x]
  | y :: l => if lt y x then y :: insert_sorted x l else x :: y :: l
  end.

(** [sorted(l)]; [lt] compares keys. *)
Definition sorted (l : list A) : list A := foldr insert_sorted [] l.

Lemma insert_sorted_perm x l : insert_sorted x l ≡ₚ x :: l.
Proof.
  induction l as [|y l IH]; simpl; [done|]. destruct (lt y x); [|done].
  rewrite IH. constructor.
Qed.

Lemma sorted_perm l : sorted l ≡ₚ l.
Proof. induction l as [|x l IH]; simpl; [done|]. by rewrite insert_sorted_perm, IH. Qed.

Lemma elem_of_sorted x l : x ∈ sorted l ↔ x ∈ l.
Proof. by rewrite sorted_perm. Qed.

Lemma NoDup_sorted l : NoDup (sorted l) ↔ NoDup l.
Proof. by rewrite sorted_perm. Qed.

(** The output is ordered: no later element is smaller than an earlier one. *)
Lemma sorted_sorted (P : A → Prop) `{!StrictWeakOn lt P} l :
  Forall P l → StronglySorted (λ x y, lt y x = false) (sorted l).
Proof.
  induction 1 as [|x l Hx Hl IH]; simpl; [constructor|].
  assert (Forall P (sorted l)) as HP.
  { apply Forall_forall. intros y Hy. rewrite Forall_forall in Hl. apply Hl.
    by apply elem_of_sorted. }
  clear Hl. revert IH HP. generalize (sorted l) as k. clear l.
  induction k as [|y k IH]; intros Hs HP; simpl; [repeat constructor|].
  apply Forall_cons in HP as [Hy HP]. inversion Hs as [|?? Hs' Hf]; subst.
  destruct (lt y x) eqn:E.
  - constructor; [by apply IH|]. rewrite Forall_forall. intros z Hz.
    rewrite insert_sorted_perm in Hz. apply elem_of_cons in Hz as [->|Hz].
    + apply not_true_iff_false. intros H. pose proof (swo_irrefl (P:=P) y Hy).
      rewrite (swo_trans (P:=P) y x y) in *; done.
    + rewrite Forall_forall in Hf. by apply Hf.
  - constructor; [done|]. constructor; [done|]. rewrite Forall_forall in Hf |- *.
    intros z Hz. apply not_true_iff_false. intros H.
    rewrite Forall_forall in HP. destruct (swo_neg_trans (P:=P) z y x) as [H'|H']; auto.
    + rewrite Hf in H'; done.
    + congruence.
Qed.
End Sort.

(** [sorted(s)] of a set and [sorted(m.items())] of a mapping whose keys are
    compared by [lt]. *)
Definition sorted_set {A} `{Countable A} (lt : A → A → bool) (s : gset A) : list A :=
  sorted lt (elements s).
Definition sorted_items {K V} `{Countable K} (lt : K → K → bool) (m : gmap K V) : list (K * V) :=
  sorted (λ x y, lt x.1 y.1) (map_to_list m).

Lemma elem_of_sorted_set {A} `{Countable A} (lt : A → A → bool) s x :
  x ∈ sorted_set lt s ↔ x ∈ s.
Proof. unfold sorted_set. rewrite elem_of_sorted. apply elem_of_elements. Qed.

Lemma NoDup_sorted_set {A} `{Countable A} (lt : A → A → bool) s : NoDup (sorted_set lt s).
Proof. apply NoDup_sorted, NoDup_elements. Qed.

Lemma elem_of_sorted_items {K V} `{Countable K} (lt : K → K → bool) (m : gmap K V) k v :
  (k, v) ∈ sorted_items lt m ↔ m !! k = Some v.
Proof. unfold sorted_items. rewrite elem_of_sorted. apply elem_of_map_to_list. Qed.

(** [(min(a, b), max(a, b))]. *)
Definition ordered_pair (a b : string) : node_pair :=
  if str_lt b a then (b, a) else (a, b).

Lemma ordered_pair_comm a b : ordered_pair a b = ordered_pair b a.
Proof.
  unfold ordered_pair. destruct (str_lt b a) eqn:E.
  - by rewrite (st_asym _ b a).
  - destruct (str_lt a b) eqn:E'; [done|]. by rewrite (st_total (lt := str_lt) a b).
Qed.
