(* ===== verification/GroundPolicy.v ===== *)
(** * Ground selection and handover policies

    The operator's policy surface: [lib/nodalarc/models/ground_policy.py] (the
    specs and their validators), [services/ome/ground_selection_policies.py]
    (the score of a visible candidate) and
    [services/ome/ground_handover_policies.py] (whether a challenger displaces
    an incumbent).  The allocator calls [score_candidate] and
    [evaluate_handover] only.

    A policy's parameter bag holds numbers: [pyval] is a Python int or float. *)

From S2P Require Import Prelude.
From S2P Require Import PyFloat.
From S2P Require Import PyData.
From stdpp Require Import base list strings gmap.
Local Open Scope Z_scope.

(** ** Ground visibility records ([services/ome/visibility.py]) *)

Inductive GroundVisibilityRejectReason :=
| ok | los_blocked | elevation_below_min | range_exceeded | field_of_regard
| tracking_exceeded.

Inductive GroundVisibilityRejectingEndpoint := endpoint_none | ground | satellite | both.

#[global] Instance reject_reason_eq_dec : EqDecision GroundVisibilityRejectReason.
Proof. solve_decision. Defined.
#[global] Instance rejecting_endpoint_eq_dec : EqDecision GroundVisibilityRejectingEndpoint.
Proof. solve_decision. Defined.

Record GroundVisibility := {
  gv_sat_id : string;
  gv_visible : bool;
  gv_elevation_deg : float;
  gv_range_km : float;
  gv_remaining_visible_s : option float;
  gv_reject_reason : GroundVisibilityRejectReason;
  gv_rejecting_endpoint : GroundVisibilityRejectingEndpoint;
  gv_azimuth_deg : option float;
  gv_sat_off_nadir_deg : option float;
}.

(** ** Policy specs *)

Inductive pyval := VInt (n : Z) | VFloat (x : float).

(** [int(v)], which raises on NaN and the infinities. *)
Definition int_of_pyval (v : pyval) : result Z :=
  match v with
  | VInt n => Ok n
  | VFloat x => or_raise (int_of_float x) (ValueError "cannot convert float to integer")
  end.

(** The float a numeric field holds after validation. *)
Definition float_of_pyval (v : pyval) : float :=
  match v with VInt n => float_of_Z n | VFloat x => x end.

Record HysteresisParameters := {
  discount_factor : float;
  mask_fade_range_deg : float;
}.

(** [HysteresisParameters]  built from [params]: the defaults, no extra field, finite
    numbers, and the two field validators. *)
Definition make_HysteresisParameters (params : gmap string pyval) : result HysteresisParameters :=
  let discount := default f_1_15 (float_of_pyval <$> params !! "discount_factor") in
  let fade := default f_5 (float_of_pyval <$> params !! "mask_fade_range_deg") in
  raise_if negb (bool_decide (dom params ⊆ {["discount_factor"; "mask_fade_range_deg"]}))
    with ValueError "Extra inputs are not permitted" ;;
  raise_if is_nan discount || is_inf discount || is_nan fade || is_inf fade
    with ValueError "Input should be a finite number" ;;
  raise_if flt discount f_1 with ValueError "discount_factor must be >= 1.0" ;;
  raise_if negb (flt f_0 fade && fle fade f_90)
    with ValueError "mask_fade_range_deg must be in (0, 90]" ;;
  Ok {| discount_factor := discount; mask_fade_range_deg := fade |}.

Record SelectionPolicySpec := {
  sp_name : string;
  sp_params : gmap string pyval;
}.

Record HandoverPolicySpec := {
  hp_name : string;
  hp_params : gmap string pyval;
}.

Definition VALID_SELECTION_POLICY_NAMES : list string :=
  ["highest-elevation"; "lowest-elevation"; "longest-remaining-pass"].
Definition VALID_HANDOVER_POLICY_NAMES : list string := ["hysteresis"; "none"].

Definition lookahead_key : string := "lookahead_horizon_ticks".

(** The horizon check shared by the spec's validator and the score function:
    [horizon is None or int(horizon) <= 0] raises. *)
Definition check_horizon (params : gmap string pyval) : result unit :=
  match params !! lookahead_key with
  | None => Raise (ValueError "requires params.lookahead_horizon_ticks > 0")
  | Some v =>
      let! n := int_of_pyval v in
      raise_if n <=? 0 with ValueError "requires params.lookahead_horizon_ticks > 0" ;;
      Ok tt
  end.

(** [SelectionPolicySpec(name=..., params=...)]: the coercion of the horizon to
    an int before construction, the literal name, then
    [_validate_policy_params]. *)
Definition make_SelectionPolicySpec (name : string) (params : gmap string pyval) :
    result SelectionPolicySpec :=
  let! params' :=
    (if bool_decide (name = "longest-remaining-pass") then
       match params !! lookahead_key with
       | None => Ok params
       | Some v => let! n := int_of_pyval v in Ok (<[lookahead_key := VInt n]> params)
       end
     else Ok params) in
  raise_if negb (bool_decide (name ∈ VALID_SELECTION_POLICY_NAMES))
    with ValueError "name: Input should be a valid selection policy" ;;
  let spec := {| sp_name := name; sp_params := params' |} in
  if bool_decide (name = "longest-remaining-pass") then
    raise_if negb (bool_decide (dom params' ⊆ {[lookahead_key]}))
      with ValueError "longest-remaining-pass received unsupported params" ;;
    let! _ := check_horizon params' in Ok spec
  else
    raise_if negb (bool_decide (params' = ∅)) with ValueError "requires empty params" ;;
    Ok spec.

(** [HandoverPolicySpec(name=..., params=...)]. *)
Definition make_HandoverPolicySpec (name : string) (params : gmap string pyval) :
    result HandoverPolicySpec :=
  raise_if negb (bool_decide (name ∈ VALID_HANDOVER_POLICY_NAMES))
    with ValueError "name: Input should be a valid handover policy" ;;
  raise_if bool_decide (name = "none") && negb (bool_decide (params = ∅))
    with ValueError "handover_policy.name='none' requires empty params" ;;
  Ok {| hp_name := name; hp_params := params |}.

(** ** Score scales *)

Definition SELECTION_POLICY_SCORE_SCALES : gmap string string :=
  {[ "highest-elevation" := "normalized-elevation-degrees";
     "lowest-elevation" := "normalized-elevation-degrees";
     "longest-remaining-pass" := "remaining-visible-seconds" ]}.

Definition selection_policy_score_scale (policy_name : string) : result string :=
  or_raise (SELECTION_POLICY_SCORE_SCALES !! policy_name)
    (ValueError "Unknown ground selection policy").

Inductive RankingComponent :=
| service_priority | selection_score | per_gs_rank
| satellite_ground_terminal_capacity | lex_pair.

#[global] Instance ranking_component_eq_dec : EqDecision RankingComponent.
Proof. solve_decision. Defined.

(** The scales in use, by scale: [scales.setdefault(scale, []).append(gs_id)]
    over the stations in sorted order. *)
Definition collect_scales (policy_names : gmap string string) : result (dict string (list string)) :=
  foldM (λ scales '(gs_id, policy_name),
      let! scale := selection_policy_score_scale policy_name in
      Ok (dict_set scale (default [] (dict_get scale scales) ++ [gs_id]) scales))
    [] (sorted_items str_lt policy_names).

Definition validate_selection_score_scale_compatibility
    (policy_names : gmap string string) (ranking_order : list RankingComponent) : result unit :=
  if negb (bool_decide (selection_score ∈ ranking_order)) then Ok tt else
  let! scales := collect_scales policy_names in
  if (length scales <=? 1)%nat then Ok tt else
  Raise (ValueError "resolved ground selection policies use incompatible score scales").

(** ** Selection scores *)

Record SelectionContext := { sc_step : Z; sc_gs_id : string; sc_sat_id : string }.

Definition reject_params (params : gmap string pyval) (allowed : gset string) : result unit :=
  raise_if negb (bool_decide (dom params ⊆ allowed))
    with ValueError "selection_policy received unsupported params" ;;
  Ok tt.

Definition highest_elevation (visibility : GroundVisibility) (_ : SelectionContext)
    (params : gmap string pyval) : result float :=
  let! _ := reject_params params ∅ in
  Ok (gv_elevation_deg visibility).

Definition lowest_elevation (visibility : GroundVisibility) (_ : SelectionContext)
    (params : gmap string pyval) : result float :=
  let! _ := reject_params params ∅ in
  Ok (fsub f_90 (gv_elevation_deg visibility)).

Definition longest_remaining_pass (visibility : GroundVisibility) (_ : SelectionContext)
    (params : gmap string pyval) : result float :=
  let! _ := reject_params params {[lookahead_key]} in
  let! _ := check_horizon params in
  or_raise (gv_remaining_visible_s visibility)
    (ValueError "requires OME pass lookahead; missing remaining_visible_s").

(** [SCORE_FUNCTIONS]. *)
Definition SCORE_FUNCTIONS (name : string) :
    option (GroundVisibility → SelectionContext → gmap string pyval → result float) :=
  if bool_decide (name = "highest-elevation") then Some highest_elevation
  else if bool_decide (name = "lowest-elevation") then Some lowest_elevation
  else if bool_decide (name = "longest-remaining-pass") then Some longest_remaining_pass
  else None.

Definition score_candidate (policy : SelectionPolicySpec) (visibility : GroundVisibility)
    (context : SelectionContext) : result float :=
  let! fn := or_raise (SCORE_FUNCTIONS (sp_name policy))
    (ValueError "Unknown ground selection policy") in
  let! score := fn visibility context (sp_params policy) in
  raise_if flt score f_0 with ValueError "Ground selection policy returned negative score" ;;
  Ok score.

(** ** Handover decisions *)

Inductive GroundUnscheduledReason :=
| gs_capacity | sat_capacity | hysteresis_hold | incumbent_held | bbm_no_spare
| mbb_overlap_locked | replaced_by_successor | successor_aborted | failed_successor
| failed_acquire.

#[global] Instance unscheduled_reason_eq_dec : EqDecision GroundUnscheduledReason.
Proof. solve_decision. Defined.

Record HandoverContext := {
  hc_step : Z;
  hc_gs_id : string;
  hc_incumbent_pair : node_pair;
  hc_challenger_pair : node_pair;
  hc_incumbent_visibility : GroundVisibility;
  hc_challenger_visibility : GroundVisibility;
  hc_min_elevation_deg : float;
}.

Inductive HandoverAction := hold | displace.

#[global] Instance handover_action_eq_dec : EqDecision HandoverAction.
Proof. solve_decision. Defined.

Record HandoverDecision := {
  hd_action : HandoverAction;
  hd_unscheduled_reason : option GroundUnscheduledReason;
  hd_incumbent_hold_score : option float;
}.

Definition compute_effective_hysteresis_discount (elevation_deg min_elevation_deg : float)
    (params : HysteresisParameters) : float :=
  let fade_bottom := min_elevation_deg in
  let fade_top := fadd min_elevation_deg (mask_fade_range_deg params) in
  if fle elevation_deg fade_bottom then f_1
  else if fle fade_top elevation_deg then discount_factor params
  else
    let t := fdiv (fsub elevation_deg fade_bottom) (mask_fade_range_deg params) in
    fadd f_1 (fmul (fsub (discount_factor params) f_1) t).

Definition handover_none (incumbent_score challenger_score : float) (_ : HandoverContext)
    (params : gmap string pyval) : result HandoverDecision :=
  raise_if negb (bool_decide (params = ∅))
    with ValueError "handover_policy.name='none' requires empty params" ;;
  if flt incumbent_score challenger_score then
    Ok {| hd_action := displace; hd_unscheduled_reason := None;
          hd_incumbent_hold_score := None |}
  else
    Ok {| hd_action := hold; hd_unscheduled_reason := Some incumbent_held;
          hd_incumbent_hold_score := None |}.

Definition handover_hysteresis (incumbent_score challenger_score : float)
    (context : HandoverContext) (params : gmap string pyval) : result HandoverDecision :=
  let! hysteresis := make_HysteresisParameters params in
  let discount := compute_effective_hysteresis_discount
    (gv_elevation_deg (hc_incumbent_visibility context))
    (hc_min_elevation_deg context) hysteresis in
  let hold_score := fmul incumbent_score discount in
  if flt hold_score challenger_score then
    Ok {| hd_action := displace; hd_unscheduled_reason := None;
          hd_incumbent_hold_score := Some hold_score |}
  else
    Ok {| hd_action := hold; hd_unscheduled_reason := Some hysteresis_hold;
          hd_incumbent_hold_score := Some hold_score |}.

(** [HOLD_SCORE_FUNCTIONS]. *)
Definition HOLD_SCORE_FUNCTIONS (name : string) :
    option (float → float → HandoverContext → gmap string pyval → result HandoverDecision) :=
  if bool_decide (name = "none") then Some handover_none
  else if bool_decide (name = "hysteresis") then Some handover_hysteresis
  else None.

Definition evaluate_handover (policy : HandoverPolicySpec)
    (incumbent_score challenger_score : float) (context : HandoverContext) :
    result HandoverDecision :=
  let! fn := or_raise (HOLD_SCORE_FUNCTIONS (hp_name policy))
    (ValueError "Unknown ground handover policy") in
  fn incumbent_score challenger_score context (hp_params policy).
