(* ===== verification/GroundTypes.v ===== *)
(** * Ground link decision types

    The typed values the OME ground engines exchange:
    [services/ome/types.py] (teardown state, receive windows, lifecycle
    events) and [lib/nodalarc/models/link_decisions.py] (allocation events,
    unscheduled pairs, the policy audit), with the validators their
    constructors run. *)

From S2P Require Import Prelude.
From S2P Require Import PyFloat.
From S2P Require Import PyData.
From S2P Require Import GroundPolicy.
From stdpp Require Import base list strings gmap.
Local Open Scope Z_scope.

(** ** Make-before-break teardowns and receive windows *)

Record MbbTeardown := {
  start_step : Z;
  successor_pair : node_pair;
}.

#[global] Instance mbb_teardown_eq_dec : EqDecision MbbTeardown.
Proof. solve_decision. Defined.

Abbreviation MbbTeardownState := (gmap node_pair MbbTeardown).

Inductive GroundTerminalReleaseCause :=
| cause_bbm_gap | cause_incumbent_lost | cause_teardown_completed
| cause_successor_aborted | cause_failed_successor | cause_sat_capacity.

#[global] Instance release_cause_eq_dec : EqDecision GroundTerminalReleaseCause.
Proof. solve_decision. Defined.

Record ReceiveWindow := {
  until_unix : float;
  old_pair : node_pair;
  released_by : GroundTerminalReleaseCause;
}.

(** A terminal: (node id, terminal index). *)
Abbreviation terminal := (string * Z)%type.
Abbreviation ReceiveWindows := (gmap terminal ReceiveWindow).

(** ** Allocation events *)

Inductive GroundAllocationEventCategory :=
| ev_mbb_overlap_started | ev_teardown_completed | ev_teardown_invalidated_by_epoch
| ev_successor_aborted | ev_failed_successor | ev_failed_acquire | ev_incumbent_lost
| ev_bbm_gap | ev_retargeted_before_last_arrival.

#[global] Instance event_category_eq_dec : EqDecision GroundAllocationEventCategory.
Proof. solve_decision. Defined.

Inductive GroundAllocationPolicyKind :=
| kind_selection_policy | kind_handover_policy | kind_handover_mode
| kind_successor_abort_policy | kind_mbb_preemption | kind_cross_tenant_displacement.

Definition GROUND_ALLOCATION_POLICY_NAMES_BY_KIND (kind : GroundAllocationPolicyKind) :
    list string :=
  match kind with
  | kind_selection_policy => VALID_SELECTION_POLICY_NAMES
  | kind_handover_policy => VALID_HANDOVER_POLICY_NAMES
  | kind_handover_mode => ["bbm"; "mbb"]
  | kind_successor_abort_policy => ["hard_release"; "soft_retain"]
  | kind_mbb_preemption => ["off"]
  | kind_cross_tenant_displacement => ["off"]
  end.

(** [SUPPORTED_BODY_NAMES] of [lib/nodalarc/body_frames.py]. *)
Definition SUPPORTED_BODY_NAMES : list string := ["earth"; "luna"; "mars"].

Record GroundAllocationEvent := {
  ev_category : GroundAllocationEventCategory;
  ev_pair : node_pair;
  ev_tenant_id : string;
  ev_reference_body : string;
  ev_successor_pair : option node_pair;
  ev_challenger_pair : option node_pair;
  ev_policy_kind : option GroundAllocationPolicyKind;
  ev_policy_name : option string;
  ev_terminal_node_id : option string;
  ev_terminal_index : option Z;
  ev_remaining_arrival_ms : option float;
  ev_released_by : option GroundTerminalReleaseCause;
}.

Definition is_none {A} (o : option A) : bool := if o is None then true else false.

(** [_retarget_fields_on_their_category_only]. *)
Definition retarget_fields_on_their_category_only (e : GroundAllocationEvent) : result unit :=
  let retarget := bool_decide (ev_category e = ev_retargeted_before_last_arrival) in
  let missing := is_none (ev_terminal_node_id e) || is_none (ev_terminal_index e)
    || is_none (ev_remaining_arrival_ms e) || is_none (ev_released_by e) in
  let present := negb (is_none (ev_terminal_node_id e)) || negb (is_none (ev_terminal_index e))
    || negb (is_none (ev_remaining_arrival_ms e)) || negb (is_none (ev_released_by e)) in
  raise_if retarget && (missing || is_none (ev_successor_pair e))
    with ValueError "a retarget event names the terminal" ;;
  raise_if negb retarget && present with ValueError "terminal retarget fields on another event" ;;
  Ok tt.

(** [_policy_name_matches_kind]. *)
Definition policy_name_matches_kind (e : GroundAllocationEvent) : result unit :=
  match ev_policy_kind e, ev_policy_name e with
  | None, None => Ok tt
  | Some kind, Some name =>
      raise_if negb (bool_decide (name ∈ GROUND_ALLOCATION_POLICY_NAMES_BY_KIND kind))
        with ValueError "policy_name is not valid for policy_kind" ;;
      Ok tt
  | _, _ => Raise (ValueError "policy_kind and policy_name must either both be set or both be None")
  end.

(** [GroundAllocationEvent(...)]: field validation (a supported body, a finite
    non-negative remaining time), then the two model validators. *)
Definition make_GroundAllocationEvent (e : GroundAllocationEvent) : result GroundAllocationEvent :=
  raise_if negb (bool_decide (ev_reference_body e ∈ SUPPORTED_BODY_NAMES))
    with ValueError "reference_body: Input should be a supported body" ;;
  raise_if (if ev_remaining_arrival_ms e is Some ms
            then is_nan ms || is_inf ms || flt ms f_0 else false)
    with ValueError "remaining_arrival_ms: finite and >= 0" ;;
  let! _ := retarget_fields_on_their_category_only e in
  let! _ := policy_name_matches_kind e in
  Ok e.

(** ** Lifecycle events *)

(** [one(pair)] of [authority_before_for_pairs]. *)
Record AuthorityBefore := {
  ab_pair : node_pair;
  ab_scheduled : bool;
  ab_pending_teardown : bool;
  ab_visible : bool;
  ab_terminal_indices : option (Z * Z);
}.

Record MbbTeardownLifecycleEvent := {
  lc_category : GroundAllocationEventCategory;
  lc_old_pair : node_pair;
  lc_successor_pair : node_pair;
  lc_gs_id : string;
  lc_source_allocation_event_category : option GroundAllocationEventCategory;
  lc_authority_before : AuthorityBefore * AuthorityBefore;
  lc_terminal_indices : dict string (Z * Z);
  lc_seek_target_sim_time_unix : option float;
}.

(** The [teardown_id] property. *)
Definition teardown_id (e : MbbTeardownLifecycleEvent) : string :=
  (lc_old_pair e).1 +:+ ":" +:+ (lc_old_pair e).2 +:+ "->" +:+
  (lc_successor_pair e).1 +:+ ":" +:+ (lc_successor_pair e).2.

(** ** Unscheduled pairs and the policy audit *)

Record UnscheduledPair := {
  up_pair : node_pair;
  up_tenant_id : string;
  up_reference_body : string;
  up_unscheduled_reason : GroundUnscheduledReason;
  up_incumbent_pair : option node_pair;
  up_capacity_constraint : option string;
}.

(** [UnscheduledPair(...)]: the body must be a supported one. *)
Definition make_UnscheduledPair (u : UnscheduledPair) : result UnscheduledPair :=
  raise_if negb (bool_decide (up_reference_body u ∈ SUPPORTED_BODY_NAMES))
    with ValueError "reference_body: Input should be a supported body" ;;
  Ok u.

Record GroundPolicyAudit := {
  pa_selection_policies : dict string string;
  pa_selection_policy_params : dict string (gmap string pyval);
  pa_handover_policies : dict string string;
  pa_handover_policy_params : dict string (gmap string pyval);
  pa_ranking_order : list RankingComponent;
  pa_handover_mode : string;
  pa_handover_modes : dict string string;
  pa_mbb_preemption : string;
  pa_successor_abort_policy : string;
  pa_cross_tenant_displacement : string;
  pa_mbb_overlap_ticks : Z;
  pa_mbb_overlap_ticks_by_gs : dict string Z;
  pa_mbb_reserve : Z;
  pa_mbb_reserve_by_gs : dict string Z;
  pa_bbm_acquire_timeout_ticks : Z;
  pa_ignored_capacity_fields : list string;
}.
