(* ===== verification/GroundAllocator.v ===== *)
(** * The ground link allocator ([services/ome/ground_allocator.py])

    [allocate_ground_links] decides, once per OME tick, which ground station
    terminal talks to which satellite terminal.  The source is one function
    with closures over mutable local dictionaries; here the immutable inputs are
    an [AllocInput], what the function derives from them before it allocates is
    an [AllocEnv], the mutable dictionaries are an [AllocState], and every
    closure is a function on them.  The order of the source's guards and
    updates is kept, so the exception raised is the one the code raises.

    Parts: input validation, candidates and their ranking, the terminal
    closures, prior-state recovery, the arbitration passes, attribution of the
    unscheduled pairs, the result. *)

From S2P Require Import Prelude.
From S2P Require Import PyFloat.
From S2P Require Import PyData.
From S2P Require Import GroundPolicy.
From S2P Require Import GroundTypes.
From stdpp Require Import base list strings gmap.
Local Open Scope Z_scope.

(** ** Inputs *)

Record AllocInput := {
  step : Z;
  visible_per_station : gmap string (list GroundVisibility);
  ground_station_ids : gset string;
  current_associations : dict node_pair (Z * Z);
  pending_teardowns : MbbTeardownState;
  gs_terminal_indices : gmap string (list Z);
  gs_selection_policies : gmap string SelectionPolicySpec;
  gs_min_elevations : gmap string float;
  gs_handover_policies : gmap string HandoverPolicySpec;
  gs_handover_modes : gmap string string;
  gs_mbb_overlap_ticks : gmap string Z;
  gs_mbb_reserve : gmap string Z;
  gs_service_priorities : gmap string Z;
  gs_tenant_ids : gmap string string;
  gs_reference_bodies : gmap string string;
  sat_ground_terminals : gmap string Z;
  sat_ground_terminal_indices_by_body : gmap string (gmap string (list Z));
  ranking_order : list RankingComponent;
  mbb_preemption : string;
  successor_abort_policy : string;
  cross_tenant_displacement : string;
  bbm_acquire_timeout_ticks : Z;
  ignored_capacity_fields : list string;
  sim_time_unix : float;
  pair_delays_ms : gmap node_pair (float * float);
  receive_windows : ReceiveWindows;
}.

(** ** Pairs *)

Definition normalized_pair (gs_id sat_id : string) : node_pair := ordered_pair gs_id sat_id.

Definition ground_and_satellite_ids (gs_ids : gset string) (pair : node_pair) :
    result (string * string) :=
  raise_if bool_decide (pair.1 ∈ gs_ids) && bool_decide (pair.2 ∈ gs_ids)
    with ValueError "Pair contains two ground-station ids" ;;
  if bool_decide (pair.1 ∈ gs_ids) then Ok (pair.1, pair.2)
  else if bool_decide (pair.2 ∈ gs_ids) then Ok (pair.2, pair.1)
  else Raise (ValueError "Pair does not contain a known ground-station id").

(** ** Ranking *)

Definition validate_ranking_order (order : list RankingComponent) :
    result (list RankingComponent) :=
  match last order with
  | None => Raise (ValueError "ranking_order must not be empty")
  | Some component =>
      raise_if negb (bool_decide (component = lex_pair))
        with ValueError "ranking_order must end with 'lex_pair'" ;;
      raise_if bool_decide (length order = 1%nat)
        with ValueError "ranking_order needs a decision component before lex_pair" ;;
      raise_if negb (bool_decide (NoDup order))
        with ValueError "ranking_order must not contain duplicates" ;;
      Ok order
  end.

(** One element of a rank key: a Python int, float or tuple of two strings. *)
Inductive key_val := KInt (n : Z) | KFloat (x : float) | KPair (p : node_pair).

Definition key_eq (a b : key_val) : bool :=
  match a, b with
  | KInt n, KInt m => n =? m
  | KFloat x, KFloat y => feq x y
  | KPair p, KPair q => bool_decide (p = q)
  | _, _ => false
  end.

Definition key_lt (a b : key_val) : bool :=
  match a, b with
  | KInt n, KInt m => n <? m
  | KFloat x, KFloat y => flt x y
  | KPair p, KPair q => npair_lt p q
  | _, _ => false
  end.

(** [a < b] on tuples: the first elements that are not equal decide. *)
Fixpoint rank_lt (a b : list key_val) : bool :=
  match a, b with
  | [], [] => false
  | [], _ :: _ => true
  | _ :: _, [] => false
  | x :: a, y :: b => if key_eq x y then rank_lt a b else key_lt x y
  end.

Record Candidate := {
  c_pair : node_pair;
  c_gs_id : string;
  c_sat_id : string;
  c_visibility : GroundVisibility;
  c_selection_score : float;
  c_service_priority : Z;
  c_per_gs_rank : Z;
  c_satellite_ground_terminal_capacity : Z;
  c_rank_key : list key_val;
}.

Definition candidate_rank_key (c : Candidate) (order : list RankingComponent) : list key_val :=
  map (λ component,
    match component with
    | service_priority => KInt (c_service_priority c)
    | selection_score => KFloat (fopp (c_selection_score c))
    | per_gs_rank => KInt (c_per_gs_rank c)
    | satellite_ground_terminal_capacity => KInt (c_satellite_ground_terminal_capacity c)
    | lex_pair => KPair (c_pair c)
    end) order.

Definition with_per_gs_rank (c : Candidate) (rank : Z) : Candidate :=
  {| c_pair := c_pair c; c_gs_id := c_gs_id c; c_sat_id := c_sat_id c;
     c_visibility := c_visibility c; c_selection_score := c_selection_score c;
     c_service_priority := c_service_priority c; c_per_gs_rank := rank;
     c_satellite_ground_terminal_capacity := c_satellite_ground_terminal_capacity c;
     c_rank_key := [] |}.

Definition with_rank_key (c : Candidate) (key : list key_val) : Candidate :=
  {| c_pair := c_pair c; c_gs_id := c_gs_id c; c_sat_id := c_sat_id c;
     c_visibility := c_visibility c; c_selection_score := c_selection_score c;
     c_service_priority := c_service_priority c; c_per_gs_rank := c_per_gs_rank c;
     c_satellite_ground_terminal_capacity := c_satellite_ground_terminal_capacity c;
     c_rank_key := key |}.

(** [key=lambda c: (-c.selection_score, c.pair)]. *)
Definition station_lt (a b : Candidate) : bool :=
  let x := fopp (c_selection_score a) in
  let y := fopp (c_selection_score b) in
  if feq x y then npair_lt (c_pair a) (c_pair b) else flt x y.

Definition pool_of (pools : gmap string (gmap string (list Z))) (sat_id body : string) : list Z :=
  default [] (default ∅ (pools !! sat_id) !! body).

(** The candidates of one station, in visibility order, and the visible set
    extended with their pairs. *)
Definition build_station_candidates (i : AllocInput)
    (pools : gmap string (gmap string (list Z))) (gs_id : string)
    (visible_sats : list GroundVisibility) (seen : gset node_pair) :
    result (list Candidate * gset node_pair) :=
  let! policy := or_raise (gs_selection_policies i !! gs_id)
    (ValueError "Ground allocator is missing selection policy") in
  let! priority := or_raise (gs_service_priorities i !! gs_id)
    (ValueError "Ground allocator is missing service_priority") in
  foldM (λ '(acc, seen) gv,
      raise_if negb (gv_visible gv)
        with ValueError "visible_per_station contains invisible satellite" ;;
      let pair := normalized_pair gs_id (gv_sat_id gv) in
      raise_if bool_decide (pair ∈ seen)
        with ValueError "Duplicate ground visibility candidate" ;;
      let! score := score_candidate policy gv
        {| sc_step := step i; sc_gs_id := gs_id; sc_sat_id := gv_sat_id gv |} in
      let! body := or_raise (gs_reference_bodies i !! gs_id) (KeyError "gs_reference_bodies") in
      Ok (acc ++ [{| c_pair := pair; c_gs_id := gs_id; c_sat_id := gv_sat_id gv;
                     c_visibility := gv; c_selection_score := score;
                     c_service_priority := priority; c_per_gs_rank := -1;
                     c_satellite_ground_terminal_capacity :=
                       Z.of_nat (length (pool_of pools (gv_sat_id gv) body));
                     c_rank_key := [] |}],
          {[pair]} ∪ seen))
    ([], seen) visible_sats.

(** A station's candidates ranked by score, then pair. *)
Definition rank_station (candidates : list Candidate) : list Candidate :=
  imap (λ idx c, with_per_gs_rank c (Z.of_nat idx)) (sorted station_lt candidates).

Definition build_candidates (i : AllocInput) (pools : gmap string (gmap string (list Z)))
    (order : list RankingComponent) :
    result (list Candidate * gmap node_pair Candidate * gset node_pair) :=
  let! '(by_gs, visible_set) :=
    foldM (λ '(by_gs, seen) '(gs_id, visible_sats),
        let! '(station, seen') := build_station_candidates i pools gs_id visible_sats seen in
        Ok (by_gs ++ [station], seen'))
      ([], ∅) (sorted_items str_lt (visible_per_station i)) in
  let ranked := concat (map rank_station by_gs) in
  let keyed := map (λ c, with_rank_key c (candidate_rank_key c order)) ranked in
  let candidate_by_pair :=
    fold_left (λ m c, <[c_pair c := c]> m) keyed ∅ in
  Ok (sorted (λ a b, rank_lt (c_rank_key a) (c_rank_key b)) keyed, candidate_by_pair, visible_set).

(** ** Terminal pools *)

Definition check_pool_indices (pool : list Z) : result (list Z) :=
  raise_if negb (bool_decide (NoDup pool)) with ValueError "terminal pool contains duplicate indices" ;;
  raise_if existsb (λ idx, idx <? 0) pool with ValueError "terminal pool contains negative indices" ;;
  Ok pool.

Definition normalize_satellite (i : AllocInput) (sat_id : string) (total : Z) :
    result (gmap string (list Z)) :=
  raise_if total <? 0 with ValueError "Satellite ground terminal count must be >= 0" ;;
  let! body_map := or_raise (sat_ground_terminal_indices_by_body i !! sat_id)
    (KeyError "sat_ground_terminal_indices_by_body") in
  raise_if (0 <? total) && bool_decide (body_map = ∅)
    with ValueError "Satellite has ground terminals but no target-body pools" ;;
  let! pools := foldM (λ acc '(body, indices),
      let! pool := check_pool_indices indices in Ok (<[body := pool]> acc))
    (∅ : gmap string (list Z)) (sorted_items str_lt body_map) in
  let unique_indices : gset Z := list_to_set (concat (map_to_list pools).*2) in
  raise_if negb (Z.of_nat (size unique_indices) =? total)
    with ValueError "Satellite terminal capacity does not match its global interface index pools" ;;
  Ok pools.

Definition normalize_satellite_terminal_pools (i : AllocInput) :
    result (gmap string (gmap string (list Z))) :=
  raise_if negb (bool_decide (dom (sat_ground_terminals i) ⊆
                              dom (sat_ground_terminal_indices_by_body i)))
    with ValueError "missing satellite ground-terminal index pools" ;;
  foldM (λ normalized '(sat_id, total),
      let! pools := normalize_satellite i sat_id total in Ok (<[sat_id := pools]> normalized))
    ∅ (sorted_items str_lt (sat_ground_terminals i)).

Definition normalize_ground_terminal_pools (i : AllocInput) : result (gmap string (list Z)) :=
  foldM (λ normalized '(gs_id, indices),
      raise_if bool_decide (indices = []) with ValueError "terminal pool must not be empty" ;;
      let! pool := check_pool_indices indices in Ok (<[gs_id := pool]> normalized))
    ∅ (sorted_items str_lt (gs_terminal_indices i)).

(** ** Input validation *)

(** The policy switches the allocator implements. *)
Definition validate_policies (i : AllocInput) : result unit :=
  raise_if step i <? 0 with ValueError "step must be non-negative" ;;
  raise_if negb (bool_decide (mbb_preemption i = "off"))
    with ValueError "mbb_preemption is not implemented" ;;
  raise_if negb (bool_decide (cross_tenant_displacement i = "off"))
    with ValueError "cross_tenant_displacement is not implemented" ;;
  raise_if negb (bool_decide (successor_abort_policy i ∈ ["hard_release"; "soft_retain"]))
    with ValueError "Unknown successor_abort_policy" ;;
  raise_if negb (bbm_acquire_timeout_ticks i =? 1)
    with ValueError "bbm_acquire_timeout_ticks values other than 1" ;;
  Ok tt.

(** The handover facts of one station. *)
Definition validate_station_handover (i : AllocInput) (pools : gmap string (list Z))
    (gs_id : string) : result unit :=
  let! mode := or_raise (gs_handover_modes i !! gs_id) (KeyError "gs_handover_modes") in
  raise_if negb (bool_decide (mode ∈ ["bbm"; "mbb"])) with ValueError "Unknown handover_mode" ;;
  let! overlap_ticks := or_raise (gs_mbb_overlap_ticks i !! gs_id)
    (KeyError "gs_mbb_overlap_ticks") in
  let! reserve := or_raise (gs_mbb_reserve i !! gs_id) (KeyError "gs_mbb_reserve") in
  raise_if overlap_ticks <? 0 with ValueError "mbb_overlap_ticks must be >= 0" ;;
  raise_if reserve <? 0 with ValueError "mbb_reserve must be >= 0" ;;
  raise_if 1 <? reserve with ValueError "mbb_reserve > 1 requires multi-overlap support" ;;
  if bool_decide (mode = "mbb") then
    raise_if (overlap_ticks <=? 0) || (reserve <=? 0)
      with ValueError "MBB handover requires mbb_overlap_ticks > 0 and mbb_reserve > 0" ;;
    let! pool := or_raise (pools !! gs_id) (KeyError "gs_terminal_counts") in
    raise_if Z.of_nat (length pool) <=? reserve
      with ValueError "MBB handover requires terminal capacity greater than mbb_reserve" ;;
    Ok tt
  else
    raise_if negb (reserve =? 0) || negb (overlap_ticks =? 0)
      with ValueError "BBM handover must carry mbb_reserve=0 and mbb_overlap_ticks=0" ;;
    Ok tt.

(** The station maps agree with the known stations, every station's handover
    facts are consistent, and every station with a visible satellite has its
    tenant, body, handover policy and elevation mask. *)
Definition validate_stations (i : AllocInput) (pools : gmap string (list Z)) : result unit :=
  let known_gs : gset string := ground_station_ids i ∪ dom pools in
  raise_if negb (bool_decide (dom (gs_handover_modes i) = known_gs))
    with ValueError "Ground allocator handover mode map does not match stations" ;;
  raise_if negb (bool_decide (dom (gs_mbb_overlap_ticks i) = known_gs))
    with ValueError "Ground allocator MBB overlap ticks map does not match stations" ;;
  raise_if negb (bool_decide (dom (gs_mbb_reserve i) = known_gs))
    with ValueError "Ground allocator MBB reserve map does not match stations" ;;
  let! _ := foldM (λ _ gs_id, validate_station_handover i pools gs_id) tt
    (sorted_set str_lt known_gs) in
  let visible_gs := dom (visible_per_station i) in
  raise_if negb (bool_decide (visible_gs ⊆ dom (gs_tenant_ids i)))
    with ValueError "Ground allocator is missing tenant_id" ;;
  raise_if negb (bool_decide (visible_gs ⊆ dom (gs_reference_bodies i)))
    with ValueError "Ground allocator is missing reference_body" ;;
  raise_if negb (bool_decide (visible_gs ⊆ dom (gs_handover_policies i)))
    with ValueError "Ground allocator is missing handover_policy" ;;
  raise_if negb (bool_decide (visible_gs ⊆ dom (gs_min_elevations i)))
    with ValueError "Ground allocator is missing min elevation" ;;
  Ok tt.

(** [max(values, default=0)]. *)
Definition max_values (values : list Z) : Z :=
  match values with [] => 0 | x :: l => fold_left Z.max l x end.

Definition policy_audit_of (i : AllocInput) (order : list RankingComponent) : GroundPolicyAudit :=
  let modes : gset string := list_to_set (map_to_list (gs_handover_modes i)).*2 in
  {| pa_selection_policies :=
       map (λ '(k, v), (k, sp_name v)) (sorted_items str_lt (gs_selection_policies i));
     pa_selection_policy_params :=
       map (λ '(k, v), (k, sp_params v)) (sorted_items str_lt (gs_selection_policies i));
     pa_handover_policies :=
       map (λ '(k, v), (k, hp_name v)) (sorted_items str_lt (gs_handover_policies i));
     pa_handover_policy_params :=
       map (λ '(k, v), (k, hp_params v)) (sorted_items str_lt (gs_handover_policies i));
     pa_ranking_order := order;
     pa_handover_mode := match elements modes with [mode] => mode | _ => "mixed" end;
     pa_handover_modes := sorted_items str_lt (gs_handover_modes i);
     pa_mbb_preemption := mbb_preemption i;
     pa_successor_abort_policy := successor_abort_policy i;
     pa_cross_tenant_displacement := cross_tenant_displacement i;
     pa_mbb_overlap_ticks := max_values (map_to_list (gs_mbb_overlap_ticks i)).*2;
     pa_mbb_overlap_ticks_by_gs := sorted_items str_lt (gs_mbb_overlap_ticks i);
     pa_mbb_reserve := max_values (map_to_list (gs_mbb_reserve i)).*2;
     pa_mbb_reserve_by_gs := sorted_items str_lt (gs_mbb_reserve i);
     pa_bbm_acquire_timeout_ticks := bbm_acquire_timeout_ticks i;
     pa_ignored_capacity_fields := sorted str_lt (ignored_capacity_fields i) |}.

(** Which association held each terminal in the published state. *)
Definition prior_holders (i : AllocInput) : result (dict terminal node_pair) :=
  foldM (λ holders '(p, (gs_idx, sat_idx)),
      let! '(gs_id, sat_id) := ground_and_satellite_ids (ground_station_ids i) p in
      Ok (dict_set (sat_id, sat_idx) p (dict_set (gs_id, gs_idx) p holders)))
    [] (current_associations i).

(** ** The environment of one allocation *)

Record AllocEnv := {
  inp : AllocInput;
  gs_terminal_pools : gmap string (list Z);
  sat_terminal_pools : gmap string (gmap string (list Z));
  candidates : list Candidate;
  candidate_by_pair : gmap node_pair Candidate;
  visible_set : gset node_pair;
  prior_holder : dict terminal node_pair;
  policy_audit : GroundPolicyAudit;
}.

(** Everything [allocate_ground_links] does before it touches its state. *)
Definition prepare (i : AllocInput) : result AllocEnv :=
  let! _ := validate_policies i in
  let! order := validate_ranking_order (ranking_order i) in
  let! gs_pools := normalize_ground_terminal_pools i in
  let! _ := validate_stations i gs_pools in
  let audit := policy_audit_of i order in
  let! sat_pools := normalize_satellite_terminal_pools i in
  let! '(cands, by_pair, visible) := build_candidates i sat_pools order in
  let! holders := prior_holders i in
  Ok {| inp := i; gs_terminal_pools := gs_pools; sat_terminal_pools := sat_pools;
        candidates := cands; candidate_by_pair := by_pair; visible_set := visible;
        prior_holder := holders; policy_audit := audit |}.

(** ** The mutable state of one allocation *)

Record Rejected := {
  rej_reason : GroundUnscheduledReason;
  rej_incumbent_pair : option node_pair;
  rej_capacity_constraint : option string;
}.

Record AllocState := {
  gs_occupied : gmap string (gset Z);
  sat_occupied : gmap string (gset Z);
  new_associations : dict node_pair (Z * Z);
  assoc_by_gs : gmap string (list node_pair);
  assoc_by_sat : gmap string (list node_pair);
  new_pending_teardowns : MbbTeardownState;
  rejected : gmap node_pair Rejected;
  release_cause : gmap node_pair GroundTerminalReleaseCause;
  allocation_events : list GroundAllocationEvent;
  lifecycle_events : list MbbTeardownLifecycleEvent;
  drop_current_pairs : gset node_pair;
}.

Definition initial_state : AllocState :=
  {| gs_occupied := ∅; sat_occupied := ∅; new_associations := []; assoc_by_gs := ∅;
     assoc_by_sat := ∅; new_pending_teardowns := ∅; rejected := ∅; release_cause := ∅;
     allocation_events := []; lifecycle_events := []; drop_current_pairs := ∅ |}.

(** The association tables together: occupancy, associations and the two
    per-node indexes, which the source always updates in one block. *)
Definition with_tables (st : AllocState) gs_occ sat_occ assocs by_gs by_sat : AllocState :=
  {| gs_occupied := gs_occ; sat_occupied := sat_occ; new_associations := assocs;
     assoc_by_gs := by_gs; assoc_by_sat := by_sat;
     new_pending_teardowns := new_pending_teardowns st; rejected := rejected st;
     release_cause := release_cause st; allocation_events := allocation_events st;
     lifecycle_events := lifecycle_events st; drop_current_pairs := drop_current_pairs st |}.

Definition with_pending (st : AllocState) (pending : MbbTeardownState) : AllocState :=
  {| gs_occupied := gs_occupied st; sat_occupied := sat_occupied st;
     new_associations := new_associations st; assoc_by_gs := assoc_by_gs st;
     assoc_by_sat := assoc_by_sat st; new_pending_teardowns := pending;
     rejected := rejected st; release_cause := release_cause st;
     allocation_events := allocation_events st; lifecycle_events := lifecycle_events st;
     drop_current_pairs := drop_current_pairs st |}.

Definition with_rejected (st : AllocState) (r : gmap node_pair Rejected) : AllocState :=
  {| gs_occupied := gs_occupied st; sat_occupied := sat_occupied st;
     new_associations := new_associations st; assoc_by_gs := assoc_by_gs st;
     assoc_by_sat := assoc_by_sat st; new_pending_teardowns := new_pending_teardowns st;
     rejected := r; release_cause := release_cause st;
     allocation_events := allocation_events st; lifecycle_events := lifecycle_events st;
     drop_current_pairs := drop_current_pairs st |}.

Definition with_events (st : AllocState) cause events lifecycle drops : AllocState :=
  {| gs_occupied := gs_occupied st; sat_occupied := sat_occupied st;
     new_associations := new_associations st; assoc_by_gs := assoc_by_gs st;
     assoc_by_sat := assoc_by_sat st; new_pending_teardowns := new_pending_teardowns st;
     rejected := rejected st; release_cause := cause; allocation_events := events;
     lifecycle_events := lifecycle; drop_current_pairs := drops |}.

Definition add_event (st : AllocState) (e : GroundAllocationEvent) : AllocState :=
  with_events st (release_cause st) (allocation_events st ++ [e]) (lifecycle_events st)
    (drop_current_pairs st).
Definition add_drop (st : AllocState) (p : node_pair) : AllocState :=
  with_events st (release_cause st) (allocation_events st) (lifecycle_events st)
    ({[p]} ∪ drop_current_pairs st).
Definition add_lifecycle (st : AllocState) (e : MbbTeardownLifecycleEvent) : AllocState :=
  with_events st (release_cause st) (allocation_events st) (lifecycle_events st ++ [e])
    (drop_current_pairs st).

(** [_record_rejection]. *)
Definition record_rejection (st : AllocState) (p : node_pair) (reason : GroundUnscheduledReason)
    (incumbent : option node_pair) (constraint : option string) : AllocState :=
  with_rejected st (<[p := {| rej_reason := reason; rej_incumbent_pair := incumbent;
                              rej_capacity_constraint := constraint |}]> (rejected st)).

Definition LOCKED_REJECTION_REASONS : list GroundUnscheduledReason :=
  [replaced_by_successor; successor_aborted; failed_successor; failed_acquire].

Definition occ (m : gmap string (gset Z)) (node : string) : gset Z := default ∅ (m !! node).
Definition pairs_at (m : gmap string (list node_pair)) (node : string) : list node_pair :=
  default [] (m !! node).

(** ** The closures of [allocate_ground_links] *)

Section Closures.
Context (env : AllocEnv).
Local Abbreviation i := (inp env).

Definition ids (p : node_pair) : result (string * string) :=
  ground_and_satellite_ids (ground_station_ids i) p.

(** [_make_event]: the tenant and body of the station, then the event's
    constructor. *)
Definition make_event (category : GroundAllocationEventCategory) (p : node_pair)
    (gs_id : string) (successor challenger : option node_pair)
    (policy : option (GroundAllocationPolicyKind * string))
    (retarget : option (string * Z * float * GroundTerminalReleaseCause)) :
    result GroundAllocationEvent :=
  let! tenant := or_raise (gs_tenant_ids i !! gs_id) (KeyError "gs_tenant_ids") in
  let! body := or_raise (gs_reference_bodies i !! gs_id) (KeyError "gs_reference_bodies") in
  make_GroundAllocationEvent
    {| ev_category := category; ev_pair := p; ev_tenant_id := tenant;
       ev_reference_body := body; ev_successor_pair := successor;
       ev_challenger_pair := challenger;
       ev_policy_kind := fst <$> policy; ev_policy_name := snd <$> policy;
       ev_terminal_node_id := (λ '(node, _, _, _), node) <$> retarget;
       ev_terminal_index := (λ '(_, index, _, _), index) <$> retarget;
       ev_remaining_arrival_ms := (λ '(_, _, ms, _), ms) <$> retarget;
       ev_released_by := (λ '(_, _, _, cause), cause) <$> retarget |}.

(** The table update shared by [add_existing] and [allocate_new]. *)
Definition put_association (st : AllocState) (p : node_pair) (gs_id sat_id : string)
    (gs_idx sat_idx : Z) : AllocState :=
  with_tables st
    (<[gs_id := {[gs_idx]} ∪ occ (gs_occupied st) gs_id]> (gs_occupied st))
    (<[sat_id := {[sat_idx]} ∪ occ (sat_occupied st) sat_id]> (sat_occupied st))
    (dict_set p (gs_idx, sat_idx) (new_associations st))
    (<[gs_id := if bool_decide (p ∈ pairs_at (assoc_by_gs st) gs_id)
                then pairs_at (assoc_by_gs st) gs_id
                else pairs_at (assoc_by_gs st) gs_id ++ [p]]> (assoc_by_gs st))
    (<[sat_id := if bool_decide (p ∈ pairs_at (assoc_by_sat st) sat_id)
                 then pairs_at (assoc_by_sat st) sat_id
                 else pairs_at (assoc_by_sat st) sat_id ++ [p]]> (assoc_by_sat st)).

Definition add_existing (st : AllocState) (p : node_pair) (indices : Z * Z) :
    result AllocState :=
  let! '(gs_id, sat_id) := ids p in
  let! gs_pool := or_raise (gs_terminal_pools env !! gs_id)
    (ValueError "Missing ground terminal index pool") in
  let! sat_pools := or_raise (sat_terminal_pools env !! sat_id)
    (ValueError "Missing satellite ground terminal index pool") in
  let '(gs_idx, sat_idx) := indices in
  raise_if negb (bool_decide (gs_idx ∈ gs_pool))
    with ValueError "Association uses a GS terminal index outside its pool" ;;
  raise_if bool_decide (gs_idx ∈ occ (gs_occupied st) gs_id)
    with ValueError "Duplicate GS terminal occupancy" ;;
  let! body := or_raise (gs_reference_bodies i !! gs_id) (KeyError "gs_reference_bodies") in
  raise_if negb (bool_decide (sat_idx ∈ default [] (sat_pools !! body)))
    with ValueError "Association uses a satellite terminal index outside its pool" ;;
  raise_if bool_decide (sat_idx ∈ occ (sat_occupied st) sat_id)
    with ValueError "Duplicate satellite ground terminal occupancy" ;;
  Ok (put_association st p gs_id sat_id gs_idx sat_idx).

(** [remove_association]; the caller ignores the returned indices. *)
Definition remove_association (st : AllocState) (p : node_pair) : result AllocState :=
  let! indices := or_raise (dict_get p (new_associations st)) (KeyError "new_associations") in
  let! '(gs_id, sat_id) := ids p in
  let '(gs_idx, sat_idx) := indices in
  let drop := List.filter (λ q, negb (bool_decide (q = p))) in
  let st' := with_tables st
    (<[gs_id := occ (gs_occupied st) gs_id ∖ {[gs_idx]}]> (gs_occupied st))
    (<[sat_id := occ (sat_occupied st) sat_id ∖ {[sat_idx]}]> (sat_occupied st))
    (dict_del p (new_associations st))
    (<[gs_id := drop (pairs_at (assoc_by_gs st) gs_id)]> (assoc_by_gs st))
    (<[sat_id := drop (pairs_at (assoc_by_sat st) sat_id)]> (assoc_by_sat st)) in
  Ok (with_pending st' (delete p (new_pending_teardowns st'))).

Definition reference_body_of (c : Candidate) : result string :=
  or_raise (gs_reference_bodies i !! c_gs_id c) (KeyError "gs_reference_bodies").

Definition sat_terminal_pool (c : Candidate) : result (list Z) :=
  let! body := reference_body_of c in
  Ok (pool_of (sat_terminal_pools env) (c_sat_id c) body).

Definition sat_capacity_constraint (c : Candidate) : result string :=
  let! body := reference_body_of c in
  Ok (c_sat_id c +:+ ".ground_terminals[" +:+ body +:+ "]").

Definition gs_constraint (gs_id : string) : string := gs_id +:+ ".terminals".

(** [released]: the first cause recorded stands. *)
Definition released (st : AllocState) (p : node_pair) (cause : GroundTerminalReleaseCause) :
    AllocState :=
  match release_cause st !! p with
  | Some _ => st
  | None => with_events st (<[p := cause]> (release_cause st)) (allocation_events st)
              (lifecycle_events st) (drop_current_pairs st)
  end.

Definition light_time_into_ms (p : node_pair) (node_id : string) : result float :=
  let! '(a_to_b, b_to_a) := or_raise (pair_delays_ms i !! p)
    (ValueError "released ground pair has no delays this tick") in
  Ok (if bool_decide (node_id = p.2) then a_to_b else b_to_a).

(** [window_for]: the reception still arriving on a terminal. *)
Definition window_for (st : AllocState) (node_id : string) (index : Z) :
    result (option ReceiveWindow) :=
  let carried :=
    match receive_windows i !! (node_id, index) with
    | Some window => if flt (sim_time_unix i) (until_unix window) then Some window else None
    | None => None
    end in
  match dict_get (node_id, index) (prior_holder env) with
  | Some holder =>
      if dict_mem holder (new_associations st) then Ok carried else
      let! cause := or_raise (release_cause st !! holder)
        (ValueError "terminal was released with no recorded cause") in
      let! ms := light_time_into_ms holder node_id in
      Ok (Some {| until_unix := fadd (sim_time_unix i) (fdiv ms f_1000);
                  old_pair := holder; released_by := cause |})
  | None => Ok carried
  end.

(** [retargeted]: report a terminal turned while its old peer's signals were
    still arriving. *)
Definition retargeted (st : AllocState) (node_id : string) (index : Z) (c : Candidate) :
    result AllocState :=
  let! window := window_for st node_id index in
  match window with
  | None => Ok st
  | Some w =>
      if bool_decide (old_pair w = c_pair c) then Ok st else
      let remaining_ms := fmul (fsub (until_unix w) (sim_time_unix i)) f_1000 in
      let policy :=
        match released_by w with
        | cause_bbm_gap => Some (kind_handover_mode, "bbm")
        | cause_teardown_completed => Some (kind_handover_mode, "mbb")
        | _ => None
        end in
      let! e := make_event ev_retargeted_before_last_arrival (old_pair w) (c_gs_id c)
        (Some (c_pair c)) None policy (Some (node_id, index, remaining_ms, released_by w)) in
      Ok (add_event st e)
  end.

(** The first free index of a pool with no reception in progress. *)
Fixpoint first_quiet (st : AllocState) (node_id : string) (occupied : gset Z)
    (pool : list Z) : result (option Z) :=
  match pool with
  | [] => Ok None
  | idx :: pool =>
      if bool_decide (idx ∈ occupied) then first_quiet st node_id occupied pool else
      let! window := window_for st node_id idx in
      if window is None then Ok (Some idx) else first_quiet st node_id occupied pool
  end.

(** A quiet free index, else any free index. *)
Definition pick_index (st : AllocState) (node_id : string) (occupied : gset Z)
    (pool : list Z) : result (option Z) :=
  let! quiet := first_quiet st node_id occupied pool in
  match quiet with
  | Some idx => Ok (Some idx)
  | None => Ok (find_first (λ idx, negb (bool_decide (idx ∈ occupied))) pool)
  end.

Definition next_sat_terminal_index (st : AllocState) (c : Candidate) : result (option Z) :=
  let occupied := occ (sat_occupied st) (c_sat_id c) in
  let! pool := sat_terminal_pool c in
  pick_index st (c_sat_id c) occupied pool.

Definition satellite_has_capacity (st : AllocState) (c : Candidate) : result bool :=
  let! idx := next_sat_terminal_index st c in Ok (negb (is_none idx)).

(** [allocate_new]: [None] where the source returns [False]. *)
Definition allocate_new (st : AllocState) (c : Candidate) : result (option AllocState) :=
  let gs_occ := occ (gs_occupied st) (c_gs_id c) in
  let! gs_pool := or_raise (gs_terminal_pools env !! c_gs_id c) (KeyError "gs_terminal_pools") in
  let! gs_choice := pick_index st (c_gs_id c) gs_occ gs_pool in
  let! sat_choice := next_sat_terminal_index st c in
  match gs_choice, sat_choice with
  | Some gs_idx, Some sat_idx =>
      let! st1 := retargeted st (c_gs_id c) gs_idx c in
      let! st2 := retargeted st1 (c_sat_id c) sat_idx c in
      let st3 := put_association st2 (c_pair c) (c_gs_id c) (c_sat_id c) gs_idx sat_idx in
      Ok (Some (with_rejected st3 (delete (c_pair c) (rejected st3))))
  | _, _ => Ok None
  end.

Definition handover_mode_for (gs_id : string) : result string :=
  or_raise (gs_handover_modes i !! gs_id) (KeyError "gs_handover_modes").

Definition mbb_overlap_ticks_for (gs_id : string) : result Z :=
  let! mode := handover_mode_for gs_id in
  if bool_decide (mode = "mbb")
  then or_raise (gs_mbb_overlap_ticks i !! gs_id) (KeyError "gs_mbb_overlap_ticks")
  else Ok 0.

Definition mbb_reserve_for (gs_id : string) : result Z :=
  let! mode := handover_mode_for gs_id in
  if bool_decide (mode = "mbb")
  then or_raise (gs_mbb_reserve i !! gs_id) (KeyError "gs_mbb_reserve")
  else Ok 0.

Definition terminal_count (gs_id : string) : result Z :=
  let! pool := or_raise (gs_terminal_pools env !! gs_id) (KeyError "gs_terminal_counts") in
  Ok (Z.of_nat (length pool)).

Definition steady_limit (gs_id : string) : result Z :=
  let! tc := terminal_count gs_id in
  let! mode := handover_mode_for gs_id in
  if bool_decide (mode = "mbb") then
    let! reserve := mbb_reserve_for gs_id in Ok (tc - reserve)
  else Ok tc.

Definition steady_pairs_for_gs (st : AllocState) (gs_id : string) : list node_pair :=
  List.filter (λ p, is_none (new_pending_teardowns st !! p)) (pairs_at (assoc_by_gs st) gs_id).

Definition visible_incumbent_for_pair (p : node_pair) : result Candidate :=
  or_raise (candidate_by_pair env !! p)
    (ValueError "Internal allocator invariant violated: association has no candidate").

Definition cand_lt (a b : Candidate) : bool := rank_lt (c_rank_key a) (c_rank_key b).

Definition worst_steady_incumbent (st : AllocState) (gs_id : string) :
    result (option Candidate) :=
  let! incumbents := mapM_r visible_incumbent_for_pair (steady_pairs_for_gs st gs_id) in
  Ok (max_by cand_lt incumbents).

Definition rejection_locked (st : AllocState) (p : node_pair) : bool :=
  match rejected st !! p with
  | Some r => bool_decide (rej_reason r ∈ LOCKED_REJECTION_REASONS)
  | None => false
  end.

Definition protected_mbb_pairs (st : AllocState) : gset node_pair :=
  dom (new_pending_teardowns st) ∪
  list_to_set (successor_pair <$> (map_to_list (new_pending_teardowns st)).*2).

Fixpoint first_pair_of_gs (gs_id : string) (l : list node_pair) : result (option node_pair) :=
  match l with
  | [] => Ok None
  | p :: l =>
      let! '(pair_gs, _) := ids p in
      if bool_decide (pair_gs = gs_id) then Ok (Some p) else first_pair_of_gs gs_id l
  end.

Definition protected_mbb_pair_for_gs (st : AllocState) (gs_id : string) :
    result (option node_pair) :=
  first_pair_of_gs gs_id (sorted_set npair_lt (protected_mbb_pairs st)).

Definition same_partition (c : Candidate) (p : node_pair) : result bool :=
  let! '(pair_gs, _) := ids p in
  let! tenant := or_raise (gs_tenant_ids i !! pair_gs) (KeyError "gs_tenant_ids") in
  let! own_tenant := or_raise (gs_tenant_ids i !! c_gs_id c) (KeyError "gs_tenant_ids") in
  if negb (bool_decide (tenant = own_tenant)) then Ok false else
  let! body := or_raise (gs_reference_bodies i !! pair_gs) (KeyError "gs_reference_bodies") in
  let! own_body := reference_body_of c in
  Ok (bool_decide (body = own_body)).

Definition sat_occupants_for_candidate (st : AllocState) (c : Candidate) :
    result (list Candidate) :=
  let! pool := sat_terminal_pool c in
  foldM (λ occupants p,
      let! indices := or_raise (dict_get p (new_associations st))
        (KeyError "new_associations") in
      if bool_decide (indices.2 ∈ pool) then
        let! incumbent := visible_incumbent_for_pair p in Ok (occupants ++ [incumbent])
      else Ok occupants)
    [] (sorted npair_lt (pairs_at (assoc_by_sat st) (c_sat_id c))).

Definition sat_capacity_blocker (st : AllocState) (c : Candidate) :
    result (option node_pair) :=
  let! occupants := sat_occupants_for_candidate st c in
  Ok (c_pair <$> max_by cand_lt occupants).

(** The filter of [displaceable_sat_incumbent], left to right. *)
Definition displaceable (protected : gset node_pair) (c incumbent : Candidate) : result bool :=
  if bool_decide (c_pair incumbent ∈ protected) then Ok false else
  let! same := same_partition c (c_pair incumbent) in
  Ok (same && cand_lt c incumbent).

Definition displaceable_sat_incumbent (st : AllocState) (c : Candidate) :
    result (option Candidate) :=
  let! occupants := sat_occupants_for_candidate st c in
  let! incumbents := foldM (λ acc incumbent,
      let! yes := displaceable (protected_mbb_pairs st) c incumbent in
      Ok (if (yes : bool) then acc ++ [incumbent] else acc)) [] occupants in
  Ok (max_by cand_lt incumbents).

Definition emit_bbm_gap (st : AllocState) (incumbent challenger : Candidate) :
    result AllocState :=
  let! e := make_event ev_bbm_gap (c_pair incumbent) (c_gs_id challenger)
    (Some (c_pair challenger)) (Some (c_pair challenger))
    (Some (kind_handover_mode, "bbm")) None in
  Ok (add_event st e).

Definition emit_incumbent_lost (st : AllocState) (p : node_pair) : result AllocState :=
  let st1 := released st p cause_incumbent_lost in
  let! '(gs_id, _) := ids p in
  let! e := make_event ev_incumbent_lost p gs_id None None None None in
  Ok (add_event st1 e).

Definition authority_before_for_pair (p : node_pair) : AuthorityBefore :=
  {| ab_pair := p;
     ab_scheduled := dict_mem p (current_associations i);
     ab_pending_teardown := negb (is_none (pending_teardowns i !! p));
     ab_visible := bool_decide (p ∈ visible_set env);
     ab_terminal_indices := dict_get p (current_associations i) |}.

Definition emit_mbb_lifecycle_terminal (st : AllocState)
    (category : GroundAllocationEventCategory) (old successor : node_pair) (gs_id : string) :
    AllocState :=
  add_lifecycle st
    {| lc_category := category; lc_old_pair := old; lc_successor_pair := successor;
       lc_gs_id := gs_id;
       lc_source_allocation_event_category := Some category;
       lc_authority_before := (authority_before_for_pair old, authority_before_for_pair successor);
       lc_terminal_indices :=
         omap (λ '(key, v), (λ indices, (key, indices)) <$> v)
           [("old_pair", dict_get old (current_associations i));
            ("successor_pair", dict_get successor (current_associations i))];
       lc_seek_target_sim_time_unix := None |}.
End Closures.

(** ** Prior-state recovery

    In-flight make-before-break teardowns are resolved before new candidates
    compete. *)

Section Recovery.
Context (env : AllocEnv).
Local Abbreviation i := (inp env).

(** The successor did not survive: the teardown's links are dropped, or the
    old link is kept under [soft_retain]. *)
Definition recover_abort (st : AllocState) (p successor : node_pair) (gs_id : string)
    (pair_visible successor_visible successor_current : bool) : result AllocState :=
  let category := if negb successor_current then ev_failed_successor else ev_successor_aborted in
  let cause := if negb successor_current then cause_failed_successor
               else cause_successor_aborted in
  let reason := if negb successor_current then failed_successor else successor_aborted in
  let abort_policy := Some (kind_successor_abort_policy, successor_abort_policy i) in
  let! e := make_event env category p gs_id (Some successor) None abort_policy None in
  let st := add_event st e in
  let st := emit_mbb_lifecycle_terminal env st category p successor gs_id in
  let! st := if negb pair_visible then emit_incumbent_lost env st p else Ok st in
  let! st := if successor_current && negb successor_visible
             then emit_incumbent_lost env st successor else Ok st in
  let! st :=
    if successor_visible && negb successor_current then
      let! '(successor_gs, _) := ids env successor in
      let! e := make_event env ev_failed_acquire successor successor_gs (Some successor) None
        abort_policy None in
      Ok (add_event st e)
    else Ok st in
  let st := add_drop (add_drop st p) successor in
  let st := released (released st p cause) successor cause in
  let st := if successor_visible
            then record_rejection st successor failed_acquire (Some p) None else st in
  if pair_visible && bool_decide (successor_abort_policy i = "soft_retain") then
    let! indices := or_raise (dict_get p (current_associations i))
      (KeyError "current_associations") in
    add_existing env st p indices
  else if pair_visible then Ok (record_rejection st p reason (Some successor) None)
  else Ok st.

(** The overlap ended, or the old link lost visibility: the old link goes. *)
Definition recover_complete (st : AllocState) (p successor : node_pair) (gs_id : string)
    (pair_visible : bool) : result AllocState :=
  let st := add_drop st p in
  let st := released st p cause_teardown_completed in
  let! e := make_event env ev_teardown_completed p gs_id (Some successor) None
    (Some (kind_handover_mode, "mbb")) None in
  let st := add_event st e in
  let st := emit_mbb_lifecycle_terminal env st ev_teardown_completed p successor gs_id in
  let! st := if negb pair_visible then emit_incumbent_lost env st p else Ok st in
  Ok (if pair_visible
      then record_rejection st p replaced_by_successor (Some successor) None else st).

(** One pending teardown. *)
Definition recover_teardown (st : AllocState) (p : node_pair) : result AllocState :=
  let! indices := or_raise (dict_get p (current_associations i))
    (ValueError "Pending teardown is missing from current associations") in
  let! teardown := or_raise (pending_teardowns i !! p) (KeyError "pending_teardowns") in
  raise_if step i <? start_step teardown with ValueError "Pending teardown starts in the future" ;;
  let! '(gs_id, _) := ids env p in
  let successor := successor_pair teardown in
  raise_if bool_decide (successor = p)
    with ValueError "Pending teardown names itself as successor" ;;
  let pair_visible := bool_decide (p ∈ visible_set env) in
  let successor_visible := bool_decide (successor ∈ visible_set env) in
  let successor_current := dict_mem successor (current_associations i)
    && is_none (pending_teardowns i !! successor) in
  let elapsed := step i - start_step teardown in
  let! mode := handover_mode_for env gs_id in
  raise_if negb (bool_decide (mode = "mbb"))
    with ValueError "Pending MBB teardown exists for BBM ground station" ;;
  if negb successor_visible || negb successor_current then
    recover_abort st p successor gs_id pair_visible successor_visible successor_current
  else
    let! overlap_ticks := mbb_overlap_ticks_for env gs_id in
    if (overlap_ticks <=? elapsed) || negb pair_visible then
      recover_complete st p successor gs_id pair_visible
    else
      let! st := add_existing env st p indices in
      Ok (with_pending st (<[p := teardown]> (new_pending_teardowns st))).

Definition recover_teardowns (st : AllocState) : result AllocState :=
  foldM recover_teardown st (sorted_set npair_lt (dom (pending_teardowns i))).

(** Steady-state continuity: visible current links not in teardown survive. *)
Definition continue_link (st : AllocState) (link : node_pair * (Z * Z)) : result AllocState :=
  let '(p, indices) := link in
  if negb (is_none (pending_teardowns i !! p)) || bool_decide (p ∈ drop_current_pairs st)
  then Ok st
  else if negb (bool_decide (p ∈ visible_set env)) then emit_incumbent_lost env st p
  else add_existing env st p indices.

Definition continue_links (st : AllocState) : result AllocState :=
  foldM continue_link st (sorted (λ x y, npair_lt x.1 y.1) (current_associations i)).
End Recovery.

(** ** Arbitration passes *)

(** What one look at one candidate decides. *)
Inductive Arbitration :=
| Skip
| Reject (reason : GroundUnscheduledReason) (incumbent : option node_pair)
    (constraint : option string)
| Schedule (gs_displacement sat_displacement : option Candidate).

Section Arbitrate.
Context (env : AllocEnv).
Local Abbreviation i := (inp env).

(** The satellite side: room, an incumbent to displace, or a rejection. *)
Definition arbitrate_satellite (st : AllocState) (c : Candidate) :
    result (Arbitration + option Candidate) :=
  let! room := satellite_has_capacity env st c in
  if (room : bool) then Ok (inr None) else
  let! displaced := displaceable_sat_incumbent env st c in
  match displaced with
  | Some incumbent => Ok (inr (Some incumbent))
  | None =>
      let! blocker := sat_capacity_blocker env st c in
      let! constraint := sat_capacity_constraint env c in
      Ok (inl (Reject sat_capacity blocker (Some constraint)))
  end.

(** The station side: room, an incumbent the handover policy lets go, or a
    rejection. *)
Definition arbitrate_station (st : AllocState) (c : Candidate) (tc : Z)
    (protected_pair : option node_pair) : result (Arbitration + option Candidate) :=
  let gs_id := c_gs_id c in
  let steady_count := Z.of_nat (length (steady_pairs_for_gs st gs_id)) in
  let! limit := steady_limit env gs_id in
  let logical_room := steady_count <? limit in
  let physical_room := Z.of_nat (size (occ (gs_occupied st) gs_id)) <? tc in
  if negb logical_room then
    let! worst := worst_steady_incumbent env st gs_id in
    match worst with
    | None => Ok (inl (Reject gs_capacity None (Some (gs_constraint gs_id))))
    | Some incumbent =>
        let! policy := or_raise (gs_handover_policies i !! gs_id)
          (KeyError "gs_handover_policies") in
        let! min_elevation := or_raise (gs_min_elevations i !! gs_id)
          (KeyError "gs_min_elevations") in
        let! decision := evaluate_handover policy (c_selection_score incumbent)
          (c_selection_score c)
          {| hc_step := step i; hc_gs_id := gs_id; hc_incumbent_pair := c_pair incumbent;
             hc_challenger_pair := c_pair c; hc_incumbent_visibility := c_visibility incumbent;
             hc_challenger_visibility := c_visibility c;
             hc_min_elevation_deg := min_elevation |} in
        match hd_action decision with
        | hold =>
            let! reason := or_raise (hd_unscheduled_reason decision)
              (ValueError "Handover policy held but did not provide an unscheduled reason") in
            Ok (inl (Reject reason (Some (c_pair incumbent)) None))
        | displace =>
            let! mode := handover_mode_for env gs_id in
            if bool_decide (mode = "mbb") && negb physical_room then
              Ok (inl (Reject bbm_no_spare (Some (c_pair incumbent)) (Some (gs_constraint gs_id))))
            else Ok (inr (Some incumbent))
        end
    end
  else if negb physical_room then
    Ok (inl (Reject gs_capacity protected_pair (Some (gs_constraint gs_id))))
  else Ok (inr None).

(** The decision for one candidate; it changes nothing. *)
Definition arbitrate (st : AllocState) (c : Candidate) : result Arbitration :=
  if dict_mem (c_pair c) (new_associations st) || rejection_locked st (c_pair c) then Ok Skip
  else
    let! tc := terminal_count env (c_gs_id c) in
    let! protected_pair := protected_mbb_pair_for_gs env st (c_gs_id c) in
    match protected_pair with
    | Some _ => Ok (Reject mbb_overlap_locked protected_pair (Some (gs_constraint (c_gs_id c))))
    | None =>
        let! sat_side := arbitrate_satellite st c in
        match sat_side with
        | inl rejection => Ok rejection
        | inr sat_displacement =>
            let! gs_side := arbitrate_station st c tc protected_pair in
            match gs_side with
            | inl rejection => Ok rejection
            | inr gs_displacement => Ok (Schedule gs_displacement sat_displacement)
            end
        end
    end.

(** A break-before-make handover releases the station's incumbent first. *)
Definition displace_station (st : AllocState) (c : Candidate) (gs_displacement : option Candidate) :
    result AllocState :=
  match gs_displacement with
  | None => Ok st
  | Some incumbent =>
      let! mode := handover_mode_for env (c_gs_id c) in
      if negb (bool_decide (mode = "bbm")) then Ok st else
      let st := released st (c_pair incumbent) cause_bbm_gap in
      let! st := remove_association env st (c_pair incumbent) in
      let st := if bool_decide (c_pair incumbent ∈ visible_set env)
                then record_rejection st (c_pair incumbent) replaced_by_successor
                       (Some (c_pair c)) None
                else st in
      emit_bbm_gap env st incumbent c
  end.

(** A better candidate takes the satellite terminal of a worse one. *)
Definition displace_satellite (st : AllocState) (c : Candidate)
    (sat_displacement : option Candidate) : result AllocState :=
  match sat_displacement with
  | None => Ok st
  | Some incumbent =>
      let st := released st (c_pair incumbent) cause_sat_capacity in
      let! st := remove_association env st (c_pair incumbent) in
      let! constraint := sat_capacity_constraint env c in
      Ok (record_rejection st (c_pair incumbent) sat_capacity (Some (c_pair c))
            (Some constraint))
  end.

(** A make-before-break handover starts the incumbent's teardown after the
    successor holds its terminals. *)
Definition start_overlap (st : AllocState) (c : Candidate) (gs_displacement : option Candidate) :
    result AllocState :=
  match gs_displacement with
  | None => Ok st
  | Some incumbent =>
      let! mode := handover_mode_for env (c_gs_id c) in
      if negb (bool_decide (mode = "mbb")) then Ok st else
      let st := with_pending st (<[c_pair incumbent :=
        {| start_step := step i; successor_pair := c_pair c |}]> (new_pending_teardowns st)) in
      let! e := make_event env ev_mbb_overlap_started (c_pair incumbent) (c_gs_id c)
        (Some (c_pair c)) (Some (c_pair c)) (Some (kind_handover_mode, "mbb")) None in
      Ok (add_event st e)
  end.

Definition schedule_candidate (st : AllocState) (c : Candidate)
    (gs_displacement sat_displacement : option Candidate) : result AllocState :=
  let! st := displace_station st c gs_displacement in
  let! st := displace_satellite st c sat_displacement in
  let! allocated := allocate_new env st c in
  let! st := or_raise allocated
    (ValueError "Allocator selected a pair but could not allocate terminal indices") in
  start_overlap st c gs_displacement.

(** One iteration of the candidate loop, with the pass's [progress] flag. *)
Definition candidate_step (acc : AllocState * bool) (c : Candidate) :
    result (AllocState * bool) :=
  let '(st, progress) := acc in
  let! verdict := arbitrate st c in
  match verdict with
  | Skip => Ok (st, progress)
  | Reject reason incumbent constraint =>
      Ok (record_rejection st (c_pair c) reason incumbent constraint, progress)
  | Schedule gs_displacement sat_displacement =>
      let! st' := schedule_candidate st c gs_displacement sat_displacement in
      Ok (st', true)
  end.

Definition candidate_pass (st : AllocState) : result (AllocState * bool) :=
  foldM candidate_step (st, false) (candidates env).

(** The source's fail-safe cap on the number of passes. *)
Definition max_candidate_passes : nat :=
  Nat.max 1 (length (candidates env) + length (current_associations i)
             + size (pending_teardowns i) + 1).

(** [for _pass_idx in range(max_candidate_passes): ... else: raise]. *)
Fixpoint run_passes (n : nat) (st : AllocState) : result AllocState :=
  match n with
  | O => Raise (ValueError "Ground allocator did not converge")
  | S n =>
      let! '(st', progress) := candidate_pass st in
      if (progress : bool) then run_passes n st' else Ok st'
  end.
End Arbitrate.

(** ** Attribution and the result *)

Section Finish.
Context (env : AllocEnv).
Local Abbreviation i := (inp env).

(** The recorded rejection of an unscheduled pair, or one derived from the
    final occupancy when none was recorded. *)
Definition attribute_rejection (st : AllocState) (p : node_pair) (gs_id : string) :
    result Rejected :=
  match rejected st !! p with
  | Some rejection => Ok rejection
  | None =>
      let! c := or_raise (candidate_by_pair env !! p)
        (ValueError "Visible unscheduled pair has no allocation candidate") in
      let! room := satellite_has_capacity env st c in
      if negb room then
        let! blocker := sat_capacity_blocker env st c in
        let! constraint := sat_capacity_constraint env c in
        Ok {| rej_reason := sat_capacity; rej_incumbent_pair := blocker;
              rej_capacity_constraint := Some constraint |}
      else
        let! limit := steady_limit env gs_id in
        let! tc := terminal_count env gs_id in
        if (limit <=? Z.of_nat (length (steady_pairs_for_gs st gs_id)))
           || (tc <=? Z.of_nat (size (occ (gs_occupied st) gs_id))) then
          let! worst := worst_steady_incumbent env st gs_id in
          Ok {| rej_reason := gs_capacity; rej_incumbent_pair := c_pair <$> worst;
                rej_capacity_constraint := Some (gs_constraint gs_id) |}
        else Raise (ValueError "Allocator could not attribute rejection reason")
  end.

Definition unscheduled_pair (st : AllocState) (p : node_pair) : result UnscheduledPair :=
  let! '(gs_id, _) := ids env p in
  let! rejection := attribute_rejection st p gs_id in
  let! tenant := or_raise (gs_tenant_ids i !! gs_id) (KeyError "gs_tenant_ids") in
  let! body := or_raise (gs_reference_bodies i !! gs_id) (KeyError "gs_reference_bodies") in
  make_UnscheduledPair
    {| up_pair := p; up_tenant_id := tenant; up_reference_body := body;
       up_unscheduled_reason := rej_reason rejection;
       up_incumbent_pair := rej_incumbent_pair rejection;
       up_capacity_constraint := rej_capacity_constraint rejection |}.

Definition scheduled_set (st : AllocState) : gset node_pair :=
  list_to_set (dict_keys (new_associations st)).

Definition unscheduled (st : AllocState) : result (list UnscheduledPair) :=
  mapM_r (unscheduled_pair st) (sorted_set npair_lt (visible_set env ∖ scheduled_set st)).

(** The terminals held by the new associations. *)
Definition held_terminals (st : AllocState) : result (gset terminal) :=
  foldM (λ held '(p, (gs_idx, sat_idx)),
      let! '(gs_id, sat_id) := ids env p in
      Ok ({[(gs_id, gs_idx); (sat_id, sat_idx)]} ∪ held))
    ∅ (new_associations st).

(** The receive windows still open for the next tick. *)
Definition open_windows (st : AllocState) : result ReceiveWindows :=
  let! held := held_terminals st in
  let carried : ReceiveWindows :=
    filter (λ kv, flt (sim_time_unix i) (until_unix kv.2) = true ∧ kv.1 ∉ held)
      (receive_windows i) in
  foldM (λ windows '(key, holder),
      if dict_mem holder (new_associations st) || bool_decide (key ∈ held) then Ok windows else
      let! window := window_for env st key.1 key.2 in
      Ok (match window with Some w => <[key := w]> windows | None => windows end))
    carried (prior_holder env).
End Finish.

Record GroundAllocationResult := {
  associations : dict node_pair (Z * Z);
  r_pending_teardowns : MbbTeardownState;
  scheduled_pairs : gset node_pair;
  unscheduled_pairs : list UnscheduledPair;
  r_policy_audit : GroundPolicyAudit;
  r_allocation_events : list GroundAllocationEvent;
  r_lifecycle_events : list MbbTeardownLifecycleEvent;
  r_receive_windows : option ReceiveWindows;
}.

(** The allocation state machine: recovery, continuity, arbitration. *)
Definition allocate_state (env : AllocEnv) : result AllocState :=
  let! st := recover_teardowns env initial_state in
  let! st := continue_links env st in
  run_passes env (max_candidate_passes env) st.

Definition finish_allocation (env : AllocEnv) (st : AllocState) : result GroundAllocationResult :=
  let! unsched := unscheduled env st in
  let! windows := open_windows env st in
  Ok {| associations := new_associations st;
        r_pending_teardowns := new_pending_teardowns st;
        scheduled_pairs := scheduled_set st;
        unscheduled_pairs := unsched;
        r_policy_audit := policy_audit env;
        r_allocation_events := allocation_events st;
        r_lifecycle_events := lifecycle_events st;
        r_receive_windows := Some windows |}.

Definition allocate_ground_links (i : AllocInput) : result GroundAllocationResult :=
  let! env := prepare i in
  let! st := allocate_state env in
  finish_allocation env st.
