(* ===== verification/GroundScenario.v ===== *)
(** * Concrete ground allocation scenarios

    The inputs of [tests/unit/sky/test_ground_allocator_engine.py]: a station
    with given terminals, visible satellites at given elevations, and the
    allocation state of the previous tick.  The witnesses of the allocator's
    theorems evaluate the model on them. *)

From S2P Require Import Prelude.
From S2P Require Import PyFloat.
From S2P Require Import PyData.
From S2P Require Import GroundPolicy.
From S2P Require Import GroundTypes.
From S2P Require Import GroundAllocator.
From stdpp Require Import base list strings gmap.
Local Open Scope Z_scope.

Definition visible_at (sat : string) (elevation : Z) : GroundVisibility :=
  {| gv_sat_id := sat; gv_visible := true; gv_elevation_deg := float_of_Z elevation;
     gv_range_km := float_of_Z 1000; gv_remaining_visible_s := None;
     gv_reject_reason := ok; gv_rejecting_endpoint := endpoint_none;
     gv_azimuth_deg := None; gv_sat_off_nadir_deg := None |}.

Definition highest_elevation_spec : SelectionPolicySpec :=
  {| sp_name := "highest-elevation"; sp_params := ∅ |}.
Definition hysteresis_spec : HandoverPolicySpec :=
  {| hp_name := "hysteresis"; hp_params := ∅ |}.

(** A station: name, visible satellites with elevations, terminals, service
    priority. *)
Record station := {
  stn : string; sees : list (string * Z); terms : nat; prio : Z;
}.

Definition by_station {A} (f : station → A) (l : list station) : gmap string A :=
  list_to_map (map (λ s, (stn s, f s)) l).

Definition indices (n : nat) : list Z := map Z.of_nat (seq 0 n).

Definition scenario (stations : list station) (sats : list (string * nat))
    (current : dict node_pair (Z * Z)) (pending : MbbTeardownState)
    (mbb : bool) (abort : string) : AllocInput :=
  let pairs := concat (map (λ s, map (λ v, normalized_pair (stn s) v.1) (sees s)) stations) in
  {| step := 10;
     visible_per_station := by_station (λ s, map (λ v, visible_at v.1 v.2) (sees s)) stations;
     ground_station_ids := list_to_set (map stn stations);
     current_associations := current;
     pending_teardowns := pending;
     gs_terminal_indices := by_station (λ s, indices (terms s)) stations;
     gs_selection_policies := by_station (λ _, highest_elevation_spec) stations;
     gs_min_elevations := by_station (λ _, float_of_Z 25) stations;
     gs_handover_policies := by_station (λ _, hysteresis_spec) stations;
     gs_handover_modes := by_station (λ _, if mbb then "mbb" else "bbm") stations;
     gs_mbb_overlap_ticks := by_station (λ _, if mbb then 3 else 0) stations;
     gs_mbb_reserve := by_station (λ _, if mbb then 1 else 0) stations;
     gs_service_priorities := by_station prio stations;
     gs_tenant_ids := by_station (λ _, "default") stations;
     gs_reference_bodies := by_station (λ _, "earth") stations;
     sat_ground_terminals := list_to_map (map (λ s, (s.1, Z.of_nat s.2)) sats);
     sat_ground_terminal_indices_by_body :=
       list_to_map (map (λ s, (s.1, {["earth" := indices s.2]})) sats);
     ranking_order := [service_priority; selection_score;
                       satellite_ground_terminal_capacity; lex_pair];
     mbb_preemption := "off";
     successor_abort_policy := abort;
     cross_tenant_displacement := "off";
     bbm_acquire_timeout_ticks := 1;
     ignored_capacity_fields := [];
     sim_time_unix := float_of_Z 1000;
     pair_delays_ms := list_to_map (map (λ p, (p, (float_of_Z 4, float_of_Z 4)))
       (pairs ++ dict_keys current));
     receive_windows := ∅ |}.

Definition gs_A (sees : list (string * Z)) (terms : nat) : station :=
  {| stn := "gs-A"; sees := sees; terms := terms; prio := 10 |}.

Definition assoc_of (r : result GroundAllocationResult) : option (dict node_pair (Z * Z)) :=
  match r with Ok r => Some (associations r) | Raise _ => None end.

(** [test_highest_elevation_selects_best_visible_candidate]. *)
Definition in_highest : AllocInput :=
  scenario [gs_A [("sat-low", 35); ("sat-high", 55)] 1] [("sat-low", 1%nat); ("sat-high", 1%nat)]
    [] ∅ false "hard_release".

Example highest_selected :
  assoc_of (allocate_ground_links in_highest) = Some [(("gs-A", "sat-high"), (0, 0))].
Proof. vm_compute. reflexivity. Qed.

(** [test_mbb_replacement_starts_teardown_when_challenger_beats_hysteresis]. *)
Definition in_mbb (challenger : Z) : AllocInput :=
  scenario [gs_A [("sat-old", 40); ("sat-new", challenger)] 2]
    [("sat-old", 1%nat); ("sat-new", 1%nat)]
    [(("gs-A", "sat-old"), (0, 0))] ∅ true "hard_release".

Example mbb_overlap :
  assoc_of (allocate_ground_links (in_mbb 47)) =
  Some [(("gs-A", "sat-old"), (0, 0)); (("gs-A", "sat-new"), (1, 0))].
Proof. vm_compute. reflexivity. Qed.

Example mbb_held :
  assoc_of (allocate_ground_links (in_mbb 44)) = Some [(("gs-A", "sat-old"), (0, 0))].
Proof. vm_compute. reflexivity. Qed.

(** [test_station_ranking_arbitrates_satellite_capacity], three tiers. *)
Definition in_tiers : AllocInput :=
  scenario [ {| stn := "a"; sees := [("sat-shared", 80)]; terms := 1; prio := 20 |};
             {| stn := "b"; sees := [("sat-shared", 30)]; terms := 1; prio := 1 |};
             {| stn := "c"; sees := [("sat-shared", 60)]; terms := 1; prio := 5 |} ]
    [("sat-shared", 2%nat)] [(("a", "sat-shared"), (0, 0))] ∅ false "hard_release".

Example tiers_selected :
  assoc_of (allocate_ground_links in_tiers) =
  Some [(("b", "sat-shared"), (0, 1)); (("c", "sat-shared"), (0, 0))].
Proof. vm_compute. reflexivity. Qed.
