(* ===== verification/GroundInv.v ===== *)
(** * The allocator's table invariant

    The association tables of [AllocState] (occupancy sets, associations, the
    two per-node indexes) always describe one set of links: [tables_inv].
    Every closure that writes them preserves it, so it holds of the state the
    allocator returns.

    The station side and the satellite side of the tables obey the same laws;
    they are stated and proved once, for a [side] of a link ([side_inv]). *)

From S2P Require Import Prelude.
From S2P Require Import PyFloat.
From S2P Require Import PyData.
From S2P Require Import GroundPolicy.
From S2P Require Import GroundTypes.
From S2P Require Import GroundAllocator.
From stdpp Require Import base list strings gmap.
Local Open Scope Z_scope.

(** ** One side of the tables *)

(** Which node of a link is the station and which the satellite. *)
Definition gs_side (env : AllocEnv) (p : node_pair) : option string :=
  match ids env p with Ok (g, _) => Some g | Raise _ => None end.
Definition sat_side (env : AllocEnv) (p : node_pair) : option string :=
  match ids env p with Ok (_, s) => Some s | Raise _ => None end.

Definition on_node (side : node_pair → option string) (n : string) (p : node_pair) : bool :=
  bool_decide (side p = Some n).

Lemma occ_insert m g s g' : occ (<[g := s]> m) g' = if decide (g' = g) then s else occ m g'.
Proof.
  unfold occ. destruct (decide _) as [->|]; [by rewrite lookup_insert_eq|].
  by rewrite lookup_insert_ne.
Qed.
Lemma pairs_at_insert m g l g' :
  pairs_at (<[g := l]> m) g' = if decide (g' = g) then l else pairs_at m g'.
Proof.
  unfold pairs_at. destruct (decide _) as [->|]; [by rewrite lookup_insert_eq|].
  by rewrite lookup_insert_ne.
Qed.

Section Side.
Context (side : node_pair → option string) (proj : Z * Z → Z).
Implicit Types (d : dict node_pair (Z * Z)) (m : gmap string (gset Z))
  (index : gmap string (list node_pair)).

(** The occupancy map holds exactly the indices the links use, no index
    twice, and the node index lists the node's links in table order. *)
Record side_inv m index d : Prop := {
  si_occ n x : x ∈ occ m n ↔
    ∃ p v, dict_get p d = Some v ∧ side p = Some n ∧ proj v = x;
  si_unique p q v w n :
    dict_get p d = Some v → dict_get q d = Some w →
    side p = Some n → side q = Some n → proj v = proj w → p = q;
  si_index n : pairs_at index n = List.filter (on_node side n) (dict_keys d);
}.

Lemma side_inv_empty : side_inv ∅ ∅ [].
Proof.
  split; simpl; unfold occ, pairs_at; try done.
  intros n x. rewrite lookup_empty; simpl. set_solver.
Qed.

Definition index_add index (n : string) (p : node_pair) : gmap string (list node_pair) :=
  <[n := if bool_decide (p ∈ pairs_at index n) then pairs_at index n
         else pairs_at index n ++ [p]]> index.

Lemma index_add_filter index d n p v :
  (∀ n, pairs_at index n = List.filter (on_node side n) (dict_keys d)) →
  p ∉ dict_keys d → side p = Some n →
  ∀ n', pairs_at (index_add index n p) n' =
        List.filter (on_node side n') (dict_keys (dict_set p v d)).
Proof.
  intros Hix Hp Hs n'. unfold index_add.
  rewrite pairs_at_insert, dict_keys_set_new, List.filter_app by done. simpl.
  unfold on_node at 2. rewrite Hs. case_decide as E.
  - subst n'. rewrite (bool_decide_eq_true_2 (Some n = Some n)), bool_decide_eq_false_2; [|  |done].
    + by rewrite Hix.
    + rewrite Hix, in_filter_bool. tauto.
  - rewrite bool_decide_eq_false_2 by congruence. by rewrite app_nil_r.
Qed.

(** A new link on a free index. *)
Lemma side_put m index d p n v :
  side_inv m index d → p ∉ dict_keys d → side p = Some n → proj v ∉ occ m n →
  side_inv (<[n := {[proj v]} ∪ occ m n]> m) (index_add index n p) (dict_set p v d).
Proof.
  intros [Ho Hu Hix] Hp Hs Hfree.
  assert (∀ q w, dict_get q d = Some w → q ≠ p) as Hne.
  { intros q w Hq ->. apply Hp, dict_get_is_Some. by eauto. }
  rewrite Ho in Hfree. split; [| |by apply index_add_filter].
  - intros n' x. rewrite occ_insert. setoid_rewrite dict_get_set. case_decide as E.
    + subst n'. rewrite elem_of_union, elem_of_singleton, Ho. split.
      * intros [->|(q & w & Hq & Hq')]; [exists p, v; by rewrite decide_True|].
        exists q, w. rewrite decide_False by eauto. done.
      * intros (q & w & Hq & Hq' & <-). case_decide; [left; congruence|right; eauto].
    + rewrite Ho. split; intros (q & w & Hq & Hq' & <-); exists q, w.
      * rewrite decide_False by eauto. done.
      * case_decide; [congruence|done].
  - intros a b va vb n'. rewrite !dict_get_set.
    repeat case_decide; subst; try congruence; intros Ha Hb Sa Sb Heq.
    + exfalso. apply Hfree. exists b, vb. split_and!; congruence.
    + exfalso. apply Hfree. exists a, va. split_and!; congruence.
    + by eapply Hu.
Qed.

Definition index_del index (n : string) (p : node_pair) : gmap string (list node_pair) :=
  <[n := List.filter (λ q, negb (bool_decide (q = p))) (pairs_at index n)]> index.

Lemma filter_bool_comm {A} (f g : A → bool) l :
  List.filter f (List.filter g l) = List.filter g (List.filter f l).
Proof.
  induction l as [|x l IH]; simpl; [done|].
  destruct (f x) eqn:Ef, (g x) eqn:Eg; simpl; rewrite ?Ef, ?Eg, IH; done.
Qed.

Lemma filter_bool_id {A} (f : A → bool) l : (∀ x, x ∈ l → f x = true) → List.filter f l = l.
Proof.
  induction l as [|x l IH]; intros H; simpl; [done|]. rewrite H by by left.
  rewrite IH; [done|]. intros y Hy. apply H. by right.
Qed.

(** Removing a link frees its index. *)
Lemma side_remove m index d p n v :
  side_inv m index d → dict_get p d = Some v → side p = Some n →
  side_inv (<[n := occ m n ∖ {[proj v]}]> m) (index_del index n p) (dict_del p d).
Proof.
  intros [Ho Hu Hix] Hp Hs. split.
  - intros n' x. rewrite occ_insert. setoid_rewrite dict_get_del. case_decide as E.
    + subst n'. rewrite elem_of_difference, elem_of_singleton, Ho. split.
      * intros [(q & w & Hq & Hq' & <-) Hne]. exists q, w. rewrite decide_False; [done|].
        intros ->. congruence.
      * intros (q & w & Hq & Hq' & <-). case_decide as Eq; [done|]. split; [eauto|].
        intros Heq. by apply Eq, (Hu q p w v n).
    + rewrite Ho. split; intros (q & w & Hq & Hq' & <-); exists q, w.
      * rewrite decide_False; [done|]. intros ->. congruence.
      * case_decide; done.
  - intros a b va vb n'. rewrite !dict_get_del. repeat case_decide; try done. apply Hu.
  - intros n'. unfold index_del. rewrite pairs_at_insert, dict_keys_del, filter_bool_comm.
    rewrite <- Hix. case_decide as E; [by subst|]. rewrite filter_bool_id; [done|].
    intros q. rewrite Hix, in_filter_bool. unfold on_node. rewrite bool_decide_eq_true.
    intros [_ Hq]. apply negb_true_iff, bool_decide_eq_false. congruence.
Qed.
End Side.

(** ** Links and tables *)

(** A link of the tables: it is visible, and both its terminals are in the
    pools it may use. *)
Record link_ok (env : AllocEnv) (p : node_pair) (gi si : Z) : Prop := {
  lk_visible : p ∈ visible_set env;
  lk_nodes : ∃ g s pool body,
    ids env p = Ok (g, s) ∧ gs_terminal_pools env !! g = Some pool ∧ gi ∈ pool ∧
    gs_reference_bodies (inp env) !! g = Some body ∧
    si ∈ pool_of (sat_terminal_pools env) s body;
}.

Record tables_inv (env : AllocEnv) (st : AllocState) : Prop := {
  ti_wf : dict_wf (new_associations st);
  ti_link p gi si : dict_get p (new_associations st) = Some (gi, si) → link_ok env p gi si;
  ti_gs : side_inv (gs_side env) fst (gs_occupied st) (assoc_by_gs st) (new_associations st);
  ti_sat : side_inv (sat_side env) snd (sat_occupied st) (assoc_by_sat st) (new_associations st);
}.

(** States that agree on the tables. *)
Definition same_tables (st st' : AllocState) : Prop :=
  gs_occupied st = gs_occupied st' ∧ sat_occupied st = sat_occupied st' ∧
  new_associations st = new_associations st' ∧ assoc_by_gs st = assoc_by_gs st' ∧
  assoc_by_sat st = assoc_by_sat st'.

#[global] Instance same_tables_equiv : Equivalence same_tables.
Proof.
  unfold same_tables. split.
  - by repeat split.
  - intros st st'. naive_solver.
  - intros s1 s2 s3. intuition congruence.
Qed.

Lemma tables_inv_same env st st' : same_tables st st' → tables_inv env st → tables_inv env st'.
Proof.
  intros (H1 & H2 & H3 & H4 & H5) [].
  split; rewrite <- ?H1, <- ?H2, <- ?H3, <- ?H4, <- ?H5; done.
Qed.

#[global] Instance tables_inv_proper env : Proper (same_tables ==> iff) (tables_inv env).
Proof. intros st st' H. by split; apply tables_inv_same. Qed.

Lemma tables_inv_initial env : tables_inv env initial_state.
Proof. split; simpl; [constructor|done|apply side_inv_empty..]. Qed.

Lemma gs_side_ids env p g s : ids env p = Ok (g, s) → gs_side env p = Some g.
Proof. unfold gs_side. by intros ->. Qed.
Lemma sat_side_ids env p g s : ids env p = Ok (g, s) → sat_side env p = Some s.
Proof. unfold sat_side. by intros ->. Qed.
#[export] Hint Resolve gs_side_ids sat_side_ids tables_inv_initial : nodal.

Lemma put_association_inv env st p g s gi si :
  tables_inv env st → link_ok env p gi si → ids env p = Ok (g, s) →
  p ∉ dict_keys (new_associations st) →
  gi ∉ occ (gs_occupied st) g → si ∉ occ (sat_occupied st) s →
  tables_inv env (put_association st p g s gi si).
Proof.
  intros [Hwf Hlk Hg Hs] Hok Hids Hp Hgi Hsi. split; simpl.
  - by apply dict_set_wf.
  - intros q gi' si'. rewrite dict_get_set. case_decide as E; [|by apply Hlk].
    intros [= <- <-]. by subst q.
  - apply (side_put _ fst _ _ _ p g (gi, si)); eauto with nodal.
  - apply (side_put _ snd _ _ _ p s (gi, si)); eauto with nodal.
Qed.

Lemma add_existing_inv env st st' p v :
  tables_inv env st → p ∉ dict_keys (new_associations st) → p ∈ visible_set env →
  add_existing env st p v = Ok st' →
  tables_inv env st' ∧ new_associations st' = dict_set p v (new_associations st) ∧
  new_pending_teardowns st' = new_pending_teardowns st ∧
  rejected st' = rejected st ∧ release_cause st' = release_cause st ∧
  drop_current_pairs st' = drop_current_pairs st.
Proof.
  intros Hinv Hp Hvis H. unfold add_existing in H.
  rbind H as [g s] Hids. rbind H as gpool Hg. rbind H as spools Hs. destruct v as [gi si].
  rguard H as Hgi. rguard H as Hgfree. rbind H as body Hbody.
  rguard H as Hsi. rguard H as Hsfree. injection H as <-.
  split; [|done]. apply put_association_inv; try done. split; [done|].
  exists g, s, gpool, body. unfold pool_of. by rewrite Hs.
Qed.

(** ** What an operation leaves alone *)

(** Two states that differ at most in the events they collected. *)
Definition same_core (st st' : AllocState) : Prop :=
  same_tables st st' ∧ new_pending_teardowns st = new_pending_teardowns st' ∧
  rejected st = rejected st' ∧ release_cause st = release_cause st' ∧
  drop_current_pairs st = drop_current_pairs st'.

#[global] Instance same_core_equiv : Equivalence same_core.
Proof.
  unfold same_core, same_tables. split.
  - by repeat split.
  - intros st st'. naive_solver.
  - intros s1 s2 s3. intuition congruence.
Qed.

#[global] Instance same_core_tables : subrelation same_core same_tables.
Proof. by intros st st' [H _]. Qed.

Lemma add_event_core st e : same_core st (add_event st e).
Proof. by repeat split. Qed.
Lemma add_lifecycle_core st e : same_core st (add_lifecycle st e).
Proof. by repeat split. Qed.
Lemma record_rejection_tables st p r o k : same_tables st (record_rejection st p r o k).
Proof. by repeat split. Qed.
Lemma released_tables st p c : same_tables st (released st p c).
Proof. unfold released. by destruct (release_cause st !! p). Qed.
#[export] Hint Resolve add_event_core add_lifecycle_core record_rejection_tables
  released_tables : nodal.

Lemma released_some st p c : is_Some (release_cause (released st p c) !! p).
Proof.
  unfold released. destruct (release_cause st !! p) eqn:E; [by rewrite E|].
  simpl. by rewrite lookup_insert_eq.
Qed.
Lemma released_mono st p c q :
  is_Some (release_cause st !! q) → is_Some (release_cause (released st p c) !! q).
Proof.
  unfold released. destruct (release_cause st !! p) eqn:E; [done|]. simpl. intros Hq.
  destruct (decide (p = q)) as [->|]; [by rewrite lookup_insert_eq|by rewrite lookup_insert_ne].
Qed.
Lemma released_rest st p c :
  new_associations (released st p c) = new_associations st ∧
  new_pending_teardowns (released st p c) = new_pending_teardowns st ∧
  rejected (released st p c) = rejected st ∧
  drop_current_pairs (released st p c) = drop_current_pairs st.
Proof. unfold released. by destruct (release_cause st !! p). Qed.
#[export] Hint Resolve released_some released_mono : nodal.

Lemma retargeted_core env st st' n x c : retargeted env st n x c = Ok st' → same_core st st'.
Proof.
  unfold retargeted. intros H. rbind H as [w|] Hw; [|by injection H as <-].
  destruct (bool_decide _); [by injection H as <-|].
  rbind H as e He. injection H as <-. apply add_event_core.
Qed.

(** ** Removing and allocating *)

Lemma remove_association_ok env st p v g s :
  dict_get p (new_associations st) = Some v → ids env p = Ok (g, s) →
  ∃ st', remove_association env st p = Ok st'.
Proof. intros Hp Hi. unfold remove_association. rewrite Hp; simpl. rewrite Hi; simpl. destruct v. eauto. Qed.

(** The tables without [p], and what stays. *)
Definition without (st : AllocState) (p : node_pair) (st' : AllocState) : Prop :=
  new_associations st' = dict_del p (new_associations st) ∧
  new_pending_teardowns st' = delete p (new_pending_teardowns st) ∧
  rejected st' = rejected st ∧ release_cause st' = release_cause st ∧
  drop_current_pairs st' = drop_current_pairs st.

Lemma remove_association_inv env st st' p :
  tables_inv env st → remove_association env st p = Ok st' →
  tables_inv env st' ∧ without st p st'.
Proof.
  intros [Hwf Hlk Hg Hs] H. unfold remove_association in H.
  rbind H as [gi si] Hp. rbind H as [g s] Hids. injection H as <-. split; [|done].
  split; simpl.
  - by apply dict_del_wf.
  - intros q gi' si'. rewrite dict_get_del. case_decide; [done|by apply Hlk].
  - apply (side_remove _ fst _ _ _ p g (gi, si)); eauto with nodal.
  - apply (side_remove _ snd _ _ _ p s (gi, si)); eauto with nodal.
Qed.

(** The occupancy a removal frees. *)
Lemma remove_association_occ env st st' p gi si g s :
  remove_association env st p = Ok st' → ids env p = Ok (g, s) →
  dict_get p (new_associations st) = Some (gi, si) →
  gs_occupied st' = <[g := occ (gs_occupied st) g ∖ {[gi]}]> (gs_occupied st) ∧
  sat_occupied st' = <[s := occ (sat_occupied st) s ∖ {[si]}]> (sat_occupied st).
Proof.
  intros H Hids Hp. unfold remove_association in H. rewrite Hp, Hids in H. simpl in H.
  by injection H as <-.
Qed.

Lemma first_quiet_spec env st n occupied pool x :
  first_quiet env st n occupied pool = Ok (Some x) → x ∈ pool ∧ x ∉ occupied.
Proof.
  induction pool as [|y pool IH]; simpl; [done|]. case_bool_decide as E.
  - intros [??]%IH. split; [by right|done].
  - intros H. rbind H as [w|] Hw.
    + apply IH in H as [??]. split; [by right|done].
    + injection H as <-. split; [by left|done].
Qed.

Lemma pick_index_spec env st n occupied pool x :
  pick_index env st n occupied pool = Ok (Some x) → x ∈ pool ∧ x ∉ occupied.
Proof.
  unfold pick_index. intros H. rbind H as [y|] Hq.
  - injection H as <-. by eapply first_quiet_spec.
  - injection H as H. apply find_first_Some in H as [? H].
    by apply negb_true_iff, bool_decide_eq_false in H.
Qed.

(** No index is offered only when every index of the pool is occupied. *)
Lemma pick_index_None env st n occupied pool :
  pick_index env st n occupied pool = Ok None → ∀ x, x ∈ pool → x ∈ occupied.
Proof.
  unfold pick_index. intros H. rbind H as [y|] Hq; [done|]. injection H as H.
  intros x Hx. rewrite find_first_None in H. specialize (H x Hx).
  by apply negb_false_iff, bool_decide_eq_true in H.
Qed.

(** ** The environment [prepare] builds *)

Record env_ok (env : AllocEnv) : Prop := {
  eo_cand c : c ∈ candidates env → candidate_by_pair env !! c_pair c = Some c;
  eo_by_pair p c : candidate_by_pair env !! p = Some c → c ∈ candidates env ∧ c_pair c = p;
  eo_ids c : c ∈ candidates env →
    ids env (c_pair c) = Ok (c_gs_id c, c_sat_id c) ∧
    c_pair c = normalized_pair (c_gs_id c) (c_sat_id c);
  eo_visible p : p ∈ visible_set env ↔ ∃ c, c ∈ candidates env ∧ c_pair c = p;
  eo_nodup : NoDup (map c_pair (candidates env));
  eo_gs_pool g pool : gs_terminal_pools env !! g = Some pool → NoDup pool;
}.

Lemma eo_visible_cand env p :
  env_ok env → p ∈ visible_set env → ∃ c, candidate_by_pair env !! p = Some c ∧ c_pair c = p ∧
    c ∈ candidates env.
Proof.
  intros Henv Hp. apply (eo_visible env Henv) in Hp as (c & Hc & <-).
  exists c. split; [by apply eo_cand|done].
Qed.

Lemma allocate_new_inv env st st' c :
  env_ok env → c ∈ candidates env → tables_inv env st →
  c_pair c ∉ dict_keys (new_associations st) →
  allocate_new env st c = Ok (Some st') →
  tables_inv env st' ∧
  (∃ v, new_associations st' = dict_set (c_pair c) v (new_associations st)) ∧
  new_pending_teardowns st' = new_pending_teardowns st ∧
  rejected st' = delete (c_pair c) (rejected st) ∧ release_cause st' = release_cause st ∧
  drop_current_pairs st' = drop_current_pairs st.
Proof.
  intros Henv Hc Hinv Hnew H. unfold allocate_new, next_sat_terminal_index, sat_terminal_pool,
    reference_body_of in H.
  destruct (eo_ids env Henv c Hc) as [Hids _].
  rbind H as gpool Hg. rbind H as gi Hgi. rbind H as si Hsi.
  rbind Hsi as spool Hsp. rbind Hsp as body Hbody. injection Hsp as <-.
  destruct gi as [gi|], si as [si|]; try done.
  rbind H as st1 H1. rbind H as st2 H2. injection H as <-.
  apply retargeted_core in H1. apply retargeted_core in H2.
  assert (same_core st st2) as [Ht (Hp & Hr & Hcs & Hd)] by by etrans.
  apply pick_index_spec in Hgi as [Hgi Hgf]. apply pick_index_spec in Hsi as [Hsi Hsf].
  rewrite Ht in Hinv. destruct Ht as (Hgo & Hso & Ha & _). rewrite Hgo in Hgf.
  rewrite Hso in Hsf. rewrite Ha in Hnew. simpl. rewrite Hp, Hr, Hcs, Hd, Ha.
  split; [|by eauto 10]. apply tables_inv_same with
    (put_association st2 (c_pair c) (c_gs_id c) (c_sat_id c) gi si); [by repeat split|].
  apply put_association_inv; try done. split.
  - apply (eo_visible env Henv). eauto.
  - exists (c_gs_id c), (c_sat_id c), gpool, body. done.
Qed.
