(* ===== verification/GroundPrepare.v ===== *)
(** * What the allocator's preparation establishes

    [prepare] validates the inputs, builds the candidates and ranks them.
    [prepare_env_ok]: the environment it returns satisfies [env_ok], the
    contract the allocation passes are proved against; [candidates_ranked]: the
    candidates are tried in rank order. *)

From Stdlib Require Import Sorted.
From S2P Require Import Prelude.
From S2P Require Import PyFloat.
From S2P Require Import PyData.
From S2P Require Import GroundPolicy.
From S2P Require Import GroundTypes.
From S2P Require Import GroundAllocator.
From S2P Require Import GroundInv.
From stdpp Require Import base list strings gmap.
Local Open Scope Z_scope.

(** The caller's naming contract: every station with visible satellites is a
    known ground station, and no satellite carries a station's name. *)
Definition stations_named (i : AllocInput) : bool :=
  forallb (λ '(g, sats), bool_decide (g ∈ ground_station_ids i) &&
      forallb (λ gv, negb (bool_decide (gv_sat_id gv ∈ ground_station_ids i))) sats)
    (map_to_list (visible_per_station i)).

Lemma stations_named_spec i g sats gv :
  stations_named i = true → visible_per_station i !! g = Some sats → gv ∈ sats →
  g ∈ ground_station_ids i ∧ gv_sat_id gv ∉ ground_station_ids i.
Proof.
  intros H Hg Hgv. unfold stations_named in H. rewrite forallb_forall in H.
  specialize (H (g, sats)). rewrite <- list_elem_of_In, elem_of_map_to_list in H.
  specialize (H Hg). simpl in H. apply andb_true_iff in H as [H1 H2].
  apply bool_decide_eq_true in H1. rewrite forallb_forall in H2.
  specialize (H2 gv). rewrite <- list_elem_of_In in H2. specialize (H2 Hgv).
  by apply negb_true_iff, bool_decide_eq_false in H2.
Qed.

Lemma normalized_pair_ids gs_ids g s :
  g ∈ gs_ids → s ∉ gs_ids → ground_and_satellite_ids gs_ids (normalized_pair g s) = Ok (g, s).
Proof.
  intros Hg Hs. unfold ground_and_satellite_ids, normalized_pair, ordered_pair.
  destruct (str_lt s g); simpl; rewrite (bool_decide_eq_true_2 _ Hg), (bool_decide_eq_false_2 _ Hs); done.
Qed.

(** ** The candidates of the stations *)

(** What a candidate of station [g] over [sats] is. *)
Definition cand_of (i : AllocInput) (c : Candidate) : Prop :=
  ∃ sats gv, visible_per_station i !! c_gs_id c = Some sats ∧ gv ∈ sats ∧
    gv_sat_id gv = c_sat_id c ∧ c_pair c = normalized_pair (c_gs_id c) (c_sat_id c).

Definition pairs_set (l : list Candidate) : gset node_pair := list_to_set (map c_pair l).

Lemma build_station_spec i pools g sats seen l seen' :
  visible_per_station i !! g = Some sats →
  build_station_candidates i pools g sats seen = Ok (l, seen') →
  seen' = (pairs_set l ∪ seen) ∧ NoDup (map c_pair l) ∧
  Forall (λ c, (c_pair c ∉ seen) ∧ cand_of i c) l.
Proof.
  intros Hg H. unfold build_station_candidates in H.
  rbind H as policy Hpol. rbind H as priority Hpri.
  revert H. apply (foldM_inv (λ r, r.2 = (pairs_set r.1 ∪ seen) ∧ NoDup (map c_pair r.1) ∧
    Forall (λ c, (c_pair c ∉ seen) ∧ cand_of i c) r.1)).
  2:{ split_and!; [set_solver|constructor|constructor]. }
  intros [acc s0] gv [acc' s1] Hgv (Hs0 & Hnd & Hall) H. simpl in *. subst s0.
  rguard H as Hvis. rguard H as Hfresh. rbind H as score Hsc. rbind H as body Hb.
  injection H as <- <-. apply not_elem_of_union in Hfresh as [Hf1 Hf2].
  unfold pairs_set in *. rewrite map_app. simpl. split_and!.
  - rewrite list_to_set_app_L. set_solver.
  - apply NoDup_app. split_and!; [done| |apply NoDup_singleton].
    intros p Hp ->%list_elem_of_singleton. apply Hf1. by apply elem_of_list_to_set.
  - apply Forall_app. split; [done|]. constructor; [|constructor]. split; [done|].
    exists sats, gv. done.
Qed.

Lemma rank_station_pairs l : map c_pair (rank_station l) = map c_pair (sorted station_lt l).
Proof.
  unfold rank_station. generalize (sorted station_lt l) as k. clear l.
  intros k. generalize 0%nat as n.
  enough (∀ f : nat → Z, map c_pair (imap (λ idx c, with_per_gs_rank c (f idx)) k) = map c_pair k)
    as H by (intros _; apply (H Z.of_nat)).
  induction k as [|c k IH]; intros f; simpl; [done|]. f_equal. apply (IH (f ∘ S)).
Qed.

Lemma rank_station_elem l c :
  c ∈ rank_station l → ∃ c0, c0 ∈ l ∧ c_pair c = c_pair c0 ∧ c_gs_id c = c_gs_id c0 ∧
    c_sat_id c = c_sat_id c0.
Proof.
  unfold rank_station. intros H. apply elem_of_lookup_imap in H as (n & c0 & -> & Hc).
  exists c0. split; [|done]. eapply elem_of_sorted, list_elem_of_lookup_2, Hc.
Qed.

Lemma cand_of_ext i c c' :
  c_pair c = c_pair c' → c_gs_id c = c_gs_id c' → c_sat_id c = c_sat_id c' →
  cand_of i c' → cand_of i c.
Proof. unfold cand_of. intros -> -> ->. done. Qed.

Lemma concat_ranked by_gs :
  map c_pair (concat (map rank_station by_gs)) ≡ₚ map c_pair (concat by_gs).
Proof.
  induction by_gs as [|l by_gs IH]; simpl; [done|]. rewrite !map_app, IH, rank_station_pairs.
  apply Permutation_app_tail. by rewrite sorted_perm.
Qed.

Lemma concat_ranked_elem by_gs c :
  c ∈ concat (map rank_station by_gs) → ∃ c0, c0 ∈ concat by_gs ∧ c_pair c = c_pair c0 ∧
    c_gs_id c = c_gs_id c0 ∧ c_sat_id c = c_sat_id c0.
Proof.
  induction by_gs as [|l by_gs IH]; simpl; [intros H; inversion H|].
  rewrite elem_of_app. setoid_rewrite elem_of_app. intros [H%rank_station_elem|H%IH]; naive_solver.
Qed.

Lemma fold_insert_lookup (l : list Candidate) (m : gmap node_pair Candidate) p c :
  NoDup (map c_pair l) →
  fold_left (λ m c, <[c_pair c := c]> m) l m !! p = Some c ↔
  (c ∈ l ∧ c_pair c = p) ∨ ((p ∉ map c_pair l) ∧ m !! p = Some c).
Proof.
  revert m. induction l as [|x l IH]; intros m; simpl.
  { intros _. split; [intros H; right; split; [apply not_elem_of_nil|done]|].
    intros [[H _]|[_ H]]; [inversion H|done]. }
  intros [Hx Hnd]%NoDup_cons. rewrite IH by done. rewrite not_elem_of_cons, elem_of_cons.
  destruct (decide (c_pair x = p)) as [<-|Hne].
  - rewrite lookup_insert_eq. split.
    + intros [[Hc E]|[Hp [= <-]]]; [left; by split; [right|]|left; by split; [left|]].
    + intros [[[->|Hc] E]|[[? _] _]]; [by right|left; by split|done].
  - rewrite lookup_insert_ne by done. naive_solver.
Qed.

(** What the candidate builder returns. *)
Record built (i : AllocInput) (cands : list Candidate) (by_pair : gmap node_pair Candidate)
    (visible : gset node_pair) : Prop := {
  bl_nodup : NoDup (map c_pair cands);
  bl_visible : visible = pairs_set cands;
  bl_cand c : c ∈ cands → cand_of i c;
  bl_by_pair p c : by_pair !! p = Some c ↔ c ∈ cands ∧ c_pair c = p;
}.

Lemma keyed_pairs order l :
  map c_pair (map (λ c, with_rank_key c (candidate_rank_key c order)) l) = map c_pair l.
Proof. rewrite map_map. done. Qed.

Lemma build_candidates_spec i pools order cands by_pair visible :
  build_candidates i pools order = Ok (cands, by_pair, visible) → built i cands by_pair visible.
Proof.
  intros H. unfold build_candidates in H. rbind H as [by_gs vis] Hfold. injection H as <- <- <-.
  assert (vis = pairs_set (concat by_gs) ∧ NoDup (map c_pair (concat by_gs)) ∧
          Forall (cand_of i) (concat by_gs)) as (-> & Hnd & Hall).
  { revert Hfold. apply (foldM_inv (λ r, r.2 = pairs_set (concat r.1) ∧
      NoDup (map c_pair (concat r.1)) ∧ Forall (cand_of i) (concat r.1))).
    2:{ split_and!; [done|constructor|constructor]. }
    intros [acc s0] [g sats] [acc' s1] Hg (Hs0 & Hnd & Hall) H. simpl in *. subst s0.
    apply elem_of_sorted_items in Hg. rbind H as [l s2] Hl. injection H as <- <-.
    apply (build_station_spec _ _ _ _ _ _ _ Hg) in Hl as (-> & Hnd' & Hall').
    rewrite concat_app. simpl. rewrite app_nil_r. split_and!.
    - unfold pairs_set. rewrite map_app, list_to_set_app_L. set_solver.
    - rewrite map_app. apply NoDup_app. split_and!; try done. intros p Hp Hp'.
      apply list_elem_of_fmap in Hp' as (c & -> & Hc). rewrite Forall_forall in Hall'.
      apply Hall' in Hc as [Hc _]. apply Hc. by apply elem_of_list_to_set.
    - apply Forall_app. split; [done|]. eapply Forall_impl; [exact Hall'|]. by intros c [_ ?]. }
  set (keyed := map _ _). assert (map c_pair keyed ≡ₚ map c_pair (concat by_gs)) as Hperm.
  { unfold keyed. rewrite keyed_pairs. apply concat_ranked. }
  assert (NoDup (map c_pair keyed)) as Hndk by by rewrite Hperm.
  split.
  - by rewrite sorted_perm.
  - unfold pairs_set. rewrite sorted_perm. by rewrite Hperm.
  - intros c Hc. apply elem_of_sorted, list_elem_of_fmap in Hc as (c1 & -> & Hc).
    apply concat_ranked_elem in Hc as (c0 & Hc0 & E1 & E2 & E3).
    rewrite Forall_forall in Hall. apply (cand_of_ext i _ c0); [done..|]. by apply Hall.
  - intros p c. rewrite fold_insert_lookup by done. rewrite lookup_empty, elem_of_sorted.
    naive_solver.
Qed.

(** ** The environment *)

Lemma ground_pools_nodup i pools g pool :
  normalize_ground_terminal_pools i = Ok pools → pools !! g = Some pool → NoDup pool.
Proof.
  intros H. revert g pool.
  revert H. apply (foldM_inv (λ m, ∀ g pool, m !! g = Some pool → NoDup pool)).
  2:{ intros g pool. by rewrite lookup_empty. }
  intros m [g indices] m' _ Hm H g' pool'. rguard H as Hne. rbind H as pool Hp.
  injection H as <-. unfold check_pool_indices in Hp. rguard Hp as Hnd. rguard Hp as Hneg.
  injection Hp as <-. rewrite lookup_insert_Some. intros [[_ <-]|[_ ?]]; eauto.
Qed.

Record prepared (i : AllocInput) (env : AllocEnv) : Prop := {
  pr_inp : inp env = i;
  pr_policies : validate_policies i = Ok tt;
  pr_stations : validate_stations i (gs_terminal_pools env) = Ok tt;
  pr_gs_pools : normalize_ground_terminal_pools i = Ok (gs_terminal_pools env);
  pr_built : build_candidates i (sat_terminal_pools env) (ranking_order i) =
    Ok (candidates env, candidate_by_pair env, visible_set env);
  pr_holders : prior_holders i = Ok (prior_holder env);
}.

Lemma validate_ranking_order_id order order' :
  validate_ranking_order order = Ok order' → order' = order.
Proof.
  unfold validate_ranking_order. destruct (last order); [|done]. intros H.
  rguard H as H1. rguard H as H2. rguard H as H3. by injection H as <-.
Qed.

Lemma prepare_spec i env : prepare i = Ok env → prepared i env.
Proof.
  intros H. unfold prepare in H. rbind H as [] Hp. rbind H as order Ho.
  apply validate_ranking_order_id in Ho as ->. rbind H as gp Hgp. rbind H as [] Hst.
  rbind H as sp Hsp. rbind H as [[cands by_pair] vis] Hb. rbind H as holders Hh.
  injection H as <-. by split.
Qed.

Lemma prepare_env_ok i env : stations_named i = true → prepare i = Ok env → env_ok env.
Proof.
  intros Hn H. apply prepare_spec in H as [<- _ _ Hgp Hb _].
  apply build_candidates_spec in Hb as [Hnd Hvis Hc Hbp]. split.
  - intros c Hin. by apply Hbp.
  - intros p c Hpc. by apply Hbp in Hpc.
  - intros c Hin. apply Hc in Hin as (sats & gv & Hs & Hgv & E & Ep). split; [|done].
    destruct (stations_named_spec _ _ _ _ Hn Hs Hgv) as [Hg Hsat].
    rewrite Ep. apply normalized_pair_ids; [done|congruence].
  - intros p. rewrite Hvis. unfold pairs_set. rewrite elem_of_list_to_set, list_elem_of_fmap.
    naive_solver.
  - done.
  - intros g pool. by eapply ground_pools_nodup.
Qed.

(** ** Every visible pair is a candidate *)

(** The pairs the visibility input names. *)
Definition visible_pairs (i : AllocInput) : gset node_pair :=
  list_to_set (concat (map (λ '(g, sats), map (λ gv, normalized_pair g (gv_sat_id gv)) sats)
    (map_to_list (visible_per_station i)))).

Lemma elem_of_visible_pairs i p :
  p ∈ visible_pairs i ↔ ∃ g sats gv, visible_per_station i !! g = Some sats ∧ gv ∈ sats ∧
    p = normalized_pair g (gv_sat_id gv).
Proof.
  unfold visible_pairs. rewrite elem_of_list_to_set, list_elem_of_In, in_concat.
  setoid_rewrite <- list_elem_of_In. split.
  - intros (l & Hl & Hp). apply list_elem_of_fmap in Hl as ([g sats] & -> & Hg).
    apply list_elem_of_fmap in Hp as (gv & -> & Hgv). apply elem_of_map_to_list in Hg. eauto 6.
  - intros (g & sats & gv & Hg & Hgv & ->).
    exists (map (λ gv, normalized_pair g (gv_sat_id gv)) sats). split.
    + apply list_elem_of_fmap. exists (g, sats). split; [done|]. by apply elem_of_map_to_list.
    + apply list_elem_of_fmap. eauto.
Qed.

Lemma build_station_complete i pools g sats seen l seen' :
  build_station_candidates i pools g sats seen = Ok (l, seen') →
  seen ⊆ seen' ∧ ∀ gv, gv ∈ sats → normalized_pair g (gv_sat_id gv) ∈ seen'.
Proof.
  intros H. unfold build_station_candidates in H. rbind H as policy Hpol. rbind H as priority Hpri.
  revert H. apply (foldM_prefix (λ pre r, seen ⊆ r.2 ∧
    ∀ gv, gv ∈ pre → normalized_pair g (gv_sat_id gv) ∈ r.2)).
  2:{ split; [done|]. intros gv Hgv. inversion Hgv. }
  intros pre gv post [acc s0] [acc' s1] _ [Hs0 Hpre] H. simpl in *.
  rguard H as Hvis. rguard H as Hfresh. rbind H as score Hsc. rbind H as body Hb.
  injection H as <- <-. split; [set_solver|].
  intros v [Hv| ->%list_elem_of_singleton]%elem_of_app; set_solver.
Qed.

Lemma build_candidates_complete i pools order cands by_pair visible :
  build_candidates i pools order = Ok (cands, by_pair, visible) → visible = visible_pairs i.
Proof.
  intros H. apply set_eq. intros p. rewrite elem_of_visible_pairs. split.
  - apply build_candidates_spec in H as [_ -> Hc _]. unfold pairs_set.
    rewrite elem_of_list_to_set, list_elem_of_fmap. intros (c & -> & Hin).
    destruct (Hc c Hin) as (sats & gv & Hs & Hgv & E & ->). rewrite <- E. eauto 6.
  - intros (g & sats & gv & Hg & Hgv & ->). unfold build_candidates in H.
    rbind H as [by_gs vis] Hfold. injection H as _ _ <-.
    assert (∀ x, x ∈ sorted_items str_lt (visible_per_station i) → ∀ gv, gv ∈ x.2 →
      normalized_pair x.1 (gv_sat_id gv) ∈ vis) as Hall.
    { revert Hfold. apply (foldM_prefix (λ pre r, ∀ x, x ∈ pre → ∀ gv, gv ∈ x.2 →
        normalized_pair x.1 (gv_sat_id gv) ∈ r.2)).
      2:{ intros x Hx. inversion Hx. }
      intros pre [g' sats'] post [acc s0] [acc' s1] _ Hpre H x Hx v Hv. simpl in *.
      rbind H as [st seen'] Hst. injection H as <- <-. apply build_station_complete in Hst as [Hm Hin].
      apply elem_of_app in Hx as [Hx| ->%list_elem_of_singleton]; [|by apply Hin].
      by apply Hm, (Hpre x). }
    apply (Hall (g, sats)); [|done]. by apply elem_of_sorted_items.
Qed.

(** ** The normalized pools are the configured ones *)

Lemma gs_pool_configured i pools g pool :
  normalize_ground_terminal_pools i = Ok pools → pools !! g = Some pool →
  gs_terminal_indices i !! g = Some pool.
Proof.
  intros H. revert g pool.
  revert H. apply (foldM_inv (λ m, ∀ g pool, m !! g = Some pool →
    gs_terminal_indices i !! g = Some pool)).
  2:{ intros g pool. by rewrite lookup_empty. }
  intros m [g indices] m' Hin Hm H g' pool'. rguard H as Hne. rbind H as pool Hp.
  injection H as <-. unfold check_pool_indices in Hp. rguard Hp as Hnd. rguard Hp as Hneg.
  injection Hp as <-. rewrite lookup_insert_Some. intros [[<- <-]|[_ ?]]; [|eauto].
  by apply elem_of_sorted_items in Hin.
Qed.

Lemma normalize_satellite_configured i s total pools b pool :
  normalize_satellite i s total = Ok pools → pools !! b = Some pool →
  ∃ bm, sat_ground_terminal_indices_by_body i !! s = Some bm ∧ bm !! b = Some pool ∧ NoDup pool.
Proof.
  unfold normalize_satellite. intros H. rguard H as Ht. rbind H as bm Hbm. rguard H as He.
  rbind H as ps Hps. rguard H as Hc. injection H as <-. intros Hb. exists bm. split; [done|].
  revert b pool Hb. revert Hps. apply (foldM_inv (λ (m : gmap string (list Z)), ∀ b pool,
    m !! b = Some pool → bm !! b = Some pool ∧ NoDup pool)).
  2:{ intros b pool. by rewrite lookup_empty. }
  intros m [b indices] m' Hin Hm H b' pool'. rbind H as pool Hp.
  injection H as <-. unfold check_pool_indices in Hp. rguard Hp as Hnd. rguard Hp as Hneg.
  injection Hp as <-. rewrite lookup_insert_Some. intros [[<- <-]|[_ ?]]; [|eauto].
  by apply elem_of_sorted_items in Hin.
Qed.

Lemma sat_pools_configured i sp s pools :
  normalize_satellite_terminal_pools i = Ok sp → sp !! s = Some pools →
  ∃ total, normalize_satellite i s total = Ok pools.
Proof.
  unfold normalize_satellite_terminal_pools. intros H. rguard H as Hd. revert s pools. revert H.
  apply (foldM_inv (λ m : gmap string (gmap string (list Z)), ∀ s pools, m !! s = Some pools →
    ∃ total, normalize_satellite i s total = Ok pools)).
  2:{ intros s pools. by rewrite lookup_empty. }
  intros m [s total] m' _ Hm H s' pools'. rbind H as ps Hps. injection H as <-.
  rewrite lookup_insert_Some. intros [[<- <-]|[_ ?]]; eauto.
Qed.

Lemma sat_pool_configured i env s b x :
  prepare i = Ok env → x ∈ pool_of (sat_terminal_pools env) s b →
  ∃ bm, sat_ground_terminal_indices_by_body i !! s = Some bm ∧ x ∈ default [] (bm !! b) ∧
    NoDup (pool_of (sat_terminal_pools env) s b) ∧
    default [] (bm !! b) = pool_of (sat_terminal_pools env) s b.
Proof.
  intros H Hx. unfold prepare in H. rbind H as [] Hp. rbind H as order Ho.
  rbind H as gp Hgp. rbind H as [] Hst. rbind H as sp Hsp. rbind H as [[cands by_pair] vis] Hb.
  rbind H as holders Hh. injection H as <-. simpl in *. unfold pool_of in *.
  destruct (sp !! s) as [pools|] eqn:Es; simpl in *; [|rewrite lookup_empty in Hx; by inversion Hx].
  destruct (pools !! b) as [pool|] eqn:Eb; simpl in *; [|by inversion Hx].
  destruct (sat_pools_configured i sp s pools Hsp Es) as [total Hn].
  destruct (normalize_satellite_configured _ _ _ _ _ _ Hn Eb) as (bm & Hbm & Hbb & Hnd).
  exists bm. rewrite Hbb. simpl. done.
Qed.
