(* ===== verification/GroundRecovery.v ===== *)
(** * Prior-state recovery and continuity preserve the invariants

    After recovery and continuity ([recovered]): the tables describe one set of
    links, every link of the previous tick is kept or has a recorded release
    cause, and every teardown in flight is a link of the tables. *)

From S2P Require Import Prelude.
From S2P Require Import PyFloat.
From S2P Require Import PyData.
From S2P Require Import GroundPolicy.
From S2P Require Import GroundTypes.
From S2P Require Import GroundAllocator.
From S2P Require Import GroundInv.
From stdpp Require Import base list strings gmap.
Local Open Scope Z_scope.

(** A step that keeps the tables and the teardowns and only adds causes. *)
Definition quiet_step (st st' : AllocState) : Prop :=
  same_tables st st' ∧ new_pending_teardowns st = new_pending_teardowns st' ∧
  (∀ q, is_Some (release_cause st !! q) → is_Some (release_cause st' !! q)).

#[global] Instance quiet_step_preorder : PreOrder quiet_step.
Proof.
  split.
  - by repeat split.
  - intros s1 s2 s3 (H1 & H2 & H3) (H1' & H2' & H3').
    split_and!; [by etrans|congruence|eauto].
Qed.

Lemma same_core_quiet st st' : same_core st st' → quiet_step st st'.
Proof. intros (? & ? & ? & E & ?). repeat split; try done; try apply H. by rewrite E. Qed.
Lemma released_quiet st p c : quiet_step st (released st p c).
Proof.
  split_and!; [apply released_tables|by destruct (released_rest st p c) as (_ & -> & _)|].
  intros q. apply released_mono.
Qed.
Lemma record_rejection_quiet st p r o k : quiet_step st (record_rejection st p r o k).
Proof. by repeat split. Qed.
Lemma add_drop_quiet st p : quiet_step st (add_drop st p).
Proof. by repeat split. Qed.
#[export] Hint Resolve same_core_quiet released_quiet record_rejection_quiet add_drop_quiet
  : nodal.

Lemma emit_incumbent_lost_spec env st st' p :
  emit_incumbent_lost env st p = Ok st' →
  quiet_step st st' ∧ is_Some (release_cause st' !! p) ∧
  drop_current_pairs st' = drop_current_pairs st ∧ rejected st' = rejected st.
Proof.
  unfold emit_incumbent_lost. intros H. rbind H as [g s] Hi. rbind H as e He. injection H as <-.
  destruct (released_rest st p cause_incumbent_lost) as (_ & _ & Hr & Hd). split_and!.
  - etrans; [apply released_quiet|]. auto with nodal.
  - apply released_some.
  - done.
  - done.
Qed.

(** An optional [emit_incumbent_lost], as the recovery code guards it. *)
Lemma maybe_lost_spec env (b : bool) st st' p :
  (if b then emit_incumbent_lost env st p else Ok st) = Ok st' →
  quiet_step st st' ∧ drop_current_pairs st' = drop_current_pairs st.
Proof.
  destruct b; [|by intros [= <-]]. intros (? & _ & ? & _)%emit_incumbent_lost_spec. done.
Qed.

Lemma recover_abort_spec env st st' p q g pv qv qc :
  recover_abort env st p q g pv qv qc = Ok st' →
  ∃ st1, quiet_step st st1 ∧
    drop_current_pairs st1 = {[q]} ∪ ({[p]} ∪ drop_current_pairs st) ∧
    is_Some (release_cause st1 !! p) ∧ is_Some (release_cause st1 !! q) ∧
    ((quiet_step st1 st' ∧ drop_current_pairs st' = drop_current_pairs st1) ∨
     (pv = true ∧ ∃ v, dict_get p (current_associations (inp env)) = Some v ∧
        add_existing env st1 p v = Ok st')).
Proof.
  intros H. unfold recover_abort in H. rbind H as e He.
  rbind H as s1 H1. apply maybe_lost_spec in H1 as [Q1 D1].
  rbind H as s2 H2. apply maybe_lost_spec in H2 as [Q2 D2].
  rbind H as s3 H3.
  assert (quiet_step s2 s3 ∧ drop_current_pairs s3 = drop_current_pairs s2) as [Q3 D3].
  { destruct (qv && negb qc); [|by injection H3 as <-].
    rbind H3 as [gq sq] Hgq. rbind H3 as e' He'. injection H3 as <-. split; auto with nodal. }
  set (cause := if negb qc then _ else _) in H.
  set (s4 := released (released (add_drop (add_drop s3 p) q) p cause) q cause) in H.
  assert (quiet_step st s4) as Q4.
  { etrans; [|apply released_quiet]. etrans; [|apply released_quiet].
    etrans; [|apply add_drop_quiet]. etrans; [|apply add_drop_quiet].
    etrans; [|exact Q3]. etrans; [|exact Q2]. etrans; [|exact Q1].
    etrans; [apply same_core_quiet, add_event_core|apply same_core_quiet, add_lifecycle_core]. }
  exists (if qv then record_rejection s4 q failed_acquire (Some p) None else s4). split_and!.
  - destruct qv; [|done]. etrans; [exact Q4|]. auto with nodal.
  - assert (drop_current_pairs s4 = {[q]} ∪ ({[p]} ∪ drop_current_pairs st)) as D4.
    { unfold s4. destruct (released_rest (released (add_drop (add_drop s3 p) q) p cause) q cause)
        as (_ & _ & _ & ->).
      destruct (released_rest (add_drop (add_drop s3 p) q) p cause) as (_ & _ & _ & ->).
      simpl. by rewrite D3, D2, D1. }
    by destruct qv.
  - assert (is_Some (release_cause s4 !! p)) by eauto with nodal. by destruct qv.
  - assert (is_Some (release_cause s4 !! q)) by apply released_some. by destruct qv.
  - destruct (pv && bool_decide _) eqn:Es.
    + right. apply andb_true_iff in Es as [-> _]. split; [done|].
      rbind H as v Hv. by exists v.
    + left. destruct pv; injection H as <-; split; auto with nodal. done.
Qed.

Lemma recover_complete_spec env st st' p q g pv :
  recover_complete env st p q g pv = Ok st' →
  quiet_step st st' ∧ drop_current_pairs st' = {[p]} ∪ drop_current_pairs st ∧
  is_Some (release_cause st' !! p).
Proof.
  intros H. unfold recover_complete in H. rbind H as e He.
  rbind H as s1 H1. apply maybe_lost_spec in H1 as [Q1 D1].
  set (s0 := released (add_drop st p) p cause_teardown_completed) in *.
  assert (quiet_step s0 s1) as Q0.
  { etrans; [|exact Q1]. etrans; [apply same_core_quiet, add_event_core|apply same_core_quiet, add_lifecycle_core]. }
  assert (is_Some (release_cause s1 !! p)) as Hc by (apply Q0, released_some).
  assert (quiet_step st s1) as Qs.
  { etrans; [|exact Q0]. unfold s0. etrans; [apply add_drop_quiet|apply released_quiet]. }
  assert (drop_current_pairs s1 = {[p]} ∪ drop_current_pairs st) as D.
  { rewrite D1. simpl. unfold s0.
    by destruct (released_rest (add_drop st p) p cause_teardown_completed) as (_ & _ & _ & ->). }
  injection H as <-. by destruct pv.
Qed.

(** ** The recovery loop *)

(** After the teardowns [pre]: the tables hold only pairs of [pre], and every
    processed or dropped pair is kept or has a cause. *)
Record recovering (env : AllocEnv) (pre : list node_pair) (st : AllocState) : Prop := {
  rv_tables : tables_inv env st;
  rv_keys p : p ∈ dict_keys (new_associations st) → p ∈ pre;
  rv_pre p : p ∈ pre → p ∈ dict_keys (new_associations st) ∨ is_Some (release_cause st !! p);
  rv_drop p : p ∈ drop_current_pairs st → is_Some (release_cause st !! p);
  rv_pending p : is_Some (new_pending_teardowns st !! p) →
    p ∈ dict_keys (new_associations st);
}.

(** A processed pair that stays out of the tables. *)
Lemma recovering_skip env pre p st st' :
  recovering env pre st → quiet_step st st' → is_Some (release_cause st' !! p) →
  (∀ q, q ∈ drop_current_pairs st' → q ∈ drop_current_pairs st ∨ is_Some (release_cause st' !! q)) →
  recovering env (pre ++ [p]) st'.
Proof.
  intros [Ht Hk Hp Hd Hn] (T & P & C) Hc Hdrop. rewrite T in Ht.
  destruct T as (_ & _ & A & _ & _). rewrite A in *. rewrite P in Hn. split; try done.
  - intros q Hq. apply elem_of_app. auto.
  - intros q [Hq| ->%list_elem_of_singleton]%elem_of_app; [|by right].
    destruct (Hp q Hq); [by left|right; auto].
  - intros q Hq. destruct (Hdrop q Hq); [by apply C, Hd|done].
Qed.

(** A processed pair added back to the tables. *)
Lemma recovering_keep env pre p v st st' :
  recovering env pre st → p ∉ pre → p ∈ visible_set env → add_existing env st p v = Ok st' →
  recovering env (pre ++ [p]) st'.
Proof.
  intros [Ht Hk Hp Hd Hn] Hfresh Hvis H.
  apply add_existing_inv in H as (Ht' & A & P & _ & C & D); [|done|by auto|done].
  split; [done|..]; rewrite ?A, ?P, ?C, ?D;
    try setoid_rewrite elem_of_dict_keys_set.
  - intros q [->|Hq]; apply elem_of_app; [right; by left|left; auto].
  - intros q [Hq| ->%list_elem_of_singleton]%elem_of_app; [|by left; left].
    destruct (Hp q Hq); [left; by right|by right].
  - done.
  - intros q Hq. right. auto.
Qed.

Lemma recover_teardown_inv env pre p st st' :
  recovering env pre st → p ∉ pre → recover_teardown env st p = Ok st' →
  recovering env (pre ++ [p]) st'.
Proof.
  intros Hr Hfresh H. unfold recover_teardown in H.
  rbind H as v Hv. rbind H as td Htd. rguard H as Hs. rbind H as [g s] Hids.
  rguard H as Hself. rbind H as mode Hm. rguard H as Hmode.
  destruct (negb _ || negb _).
  - apply recover_abort_spec in H as (st1 & Q & D & Cp & Cq & Hcase).
    assert (∀ q, q ∈ drop_current_pairs st1 →
      q ∈ drop_current_pairs st ∨ is_Some (release_cause st1 !! q)) as Hdrop.
    { intros q. rewrite D. intros [->%elem_of_singleton|[->%elem_of_singleton|Hq]%elem_of_union]%elem_of_union;
        auto. }
    destruct Hcase as [[Q' D']|(Hvis & v' & Hv' & Hadd)].
    + eapply recovering_skip; [exact Hr|by etrans|by apply Q'|].
      intros q. rewrite D'. intros [?|?]%Hdrop; [by left|right; by apply Q'].
    + apply bool_decide_eq_true in Hvis.
      assert (recovering env pre st1) as Hr1.
      { destruct Hr as [Ht Hk Hp Hd Hn], Q as (T & P & C). rewrite T in Ht.
        destruct T as (_ & _ & A & _ & _). rewrite A in *. rewrite P in Hn.
        split; try done; [intros q Hq; destruct (Hp q Hq); auto|].
        intros q [Hq|?]%Hdrop; [by apply C, Hd|done]. }
      by eapply recovering_keep.
  - rbind H as ticks Ht. destruct (_ || _) eqn:Edone.
    + apply recover_complete_spec in H as (Q & D & C).
      eapply recovering_skip; [exact Hr|done|done|]. intros q. rewrite D.
      intros [->%elem_of_singleton|?]%elem_of_union; auto.
    + apply orb_false_iff in Edone as [_ Hvis%negb_false_iff%bool_decide_eq_true].
      rbind H as st1 Hadd. injection H as <-.
      destruct (recovering_keep env pre p v st st1 Hr Hfresh Hvis Hadd) as [Ht1 Hk1 Hp1 Hd1 Hn1].
      assert (p ∈ dict_keys (new_associations st1)) as Hin.
      { apply add_existing_inv in Hadd as (_ & -> & _); [|apply Hr| |done].
        - apply elem_of_dict_keys_set. by left.
        - intros Hq. by apply Hfresh, (rv_keys env pre st Hr). }
      split; simpl; try done; [by eapply tables_inv_same; [|exact Ht1]|].
      intros q. rewrite lookup_insert_is_Some. intros [<-|[_ ?]]; auto.
Qed.

Lemma recover_teardowns_inv env st :
  recover_teardowns env initial_state = Ok st →
  recovering env (sorted_set npair_lt (dom (pending_teardowns (inp env)))) st.
Proof.
  unfold recover_teardowns. apply (foldM_prefix (recovering env)).
  - intros pre p post s s' Hl Hr H. eapply recover_teardown_inv; [done| |done].
    intros Hp. pose proof (NoDup_sorted_set npair_lt (dom (pending_teardowns (inp env)))) as Hnd.
    rewrite Hl in Hnd. apply NoDup_app in Hnd as (_ & Hnd & _). apply (Hnd p Hp). by left.
  - split; simpl; [apply tables_inv_initial|set_solver..|].
    intros p. rewrite lookup_empty. by intros [].
Qed.

(** ** Continuity *)

(** After recovery and continuity. *)
Record recovered (env : AllocEnv) (st : AllocState) : Prop := {
  rd_tables : tables_inv env st;
  rd_released p : p ∈ dict_keys (current_associations (inp env)) →
    p ∉ dict_keys (new_associations st) → is_Some (release_cause st !! p);
  rd_pending p : is_Some (new_pending_teardowns st !! p) →
    p ∈ dict_keys (new_associations st);
}.

Definition pending_list (env : AllocEnv) : list node_pair :=
  sorted_set npair_lt (dom (pending_teardowns (inp env))).

Lemma elem_of_pending_list env p :
  p ∈ pending_list env ↔ is_Some (pending_teardowns (inp env) !! p).
Proof. unfold pending_list. rewrite elem_of_sorted_set. apply elem_of_dom. Qed.

Lemma continue_link_inv env done link st st' :
  recovering env (pending_list env ++ done) st → link.1 ∉ done →
  continue_link env st link = Ok st' →
  recovering env (pending_list env ++ (done ++ [link.1])) st'.
Proof.
  intros Hr Hfresh H. destruct link as [p v]. simpl in *. rewrite app_assoc.
  destruct (is_none (pending_teardowns (inp env) !! p)) eqn:En; simpl in H.
  2:{ injection H as <-. destruct Hr as [Ht Hk Hp Hd Hn]. split; try done.
      - intros q Hq. apply elem_of_app. auto.
      - intros q [Hq| ->%list_elem_of_singleton]%elem_of_app; [by auto|]. apply Hp, elem_of_app.
        left. apply elem_of_pending_list. by destruct (pending_teardowns (inp env) !! p). }
  assert (p ∉ pending_list env ++ done) as Hnew.
  { intros [Hq%elem_of_pending_list|]%elem_of_app; [|done].
    destruct Hq as [? Hq]. by rewrite Hq in En. }
  case_bool_decide as Ed.
  { injection H as <-. eapply recovering_skip; [exact Hr|done|by eapply rv_drop|by left]. }
  case_bool_decide as Ev; simpl in H.
  - by eapply recovering_keep.
  - apply emit_incumbent_lost_spec in H as (Q & C & D & _).
    eapply recovering_skip; [exact Hr|done|done|]. rewrite D. by left.
Qed.

Lemma continue_links_inv env st st' :
  dict_wf (current_associations (inp env)) →
  recovering env (pending_list env) st → continue_links env st = Ok st' → recovered env st'.
Proof.
  intros Hwf Hr H. unfold continue_links in H.
  set (l := sorted _ _) in H.
  assert (recovering env (pending_list env ++ map fst l) st') as [Ht Hk Hp Hd Hn].
  { revert H. apply (foldM_prefix (λ pre, recovering env (pending_list env ++ map fst pre))).
    - intros pre link post s s' Hl Hs H. rewrite map_app. simpl.
      eapply continue_link_inv; [done| |done]. intros Hin.
      assert (NoDup (map fst l)) as Hnd by (unfold l; by rewrite sorted_perm).
      rewrite Hl, map_app in Hnd. apply NoDup_app in Hnd as (_ & Hnd & _).
      apply (Hnd _ Hin). simpl. by left.
    - simpl. by rewrite app_nil_r. }
  split; [done| |done]. intros p Hcur Hout. destruct (Hp p); [|done|done].
  apply elem_of_app. right. unfold l. by rewrite sorted_perm.
Qed.

Lemma recovery_recovered env st1 st2 :
  dict_wf (current_associations (inp env)) →
  recover_teardowns env initial_state = Ok st1 → continue_links env st1 = Ok st2 →
  recovered env st2.
Proof. intros Hwf H1%recover_teardowns_inv H2. by eapply continue_links_inv. Qed.
