(* ===== verification/GroundPasses.v ===== *)
(** * The arbitration passes preserve the invariants

    Every candidate step keeps [recovered]; so does the whole pass loop, and so
    does the allocator ([allocate_state_recovered]). *)

From S2P Require Import Prelude.
From S2P Require Import PyFloat.
From S2P Require Import PyData.
From S2P Require Import GroundPolicy.
From S2P Require Import GroundTypes.
From S2P Require Import GroundAllocator.
From S2P Require Import GroundInv.
From S2P Require Import GroundPrepare.
From S2P Require Import GroundRecovery.
From stdpp Require Import base list strings gmap.
Local Open Scope Z_scope.

Lemma recovered_same env st st' :
  same_tables st st' → new_pending_teardowns st = new_pending_teardowns st' →
  (∀ q, is_Some (release_cause st !! q) → is_Some (release_cause st' !! q)) →
  recovered env st → recovered env st'.
Proof.
  intros T P C [Ht Hr Hn]. rewrite T in Ht. destruct T as (_ & _ & A & _ & _).
  rewrite A in *. rewrite P in Hn. split; auto.
Qed.

Lemma recovered_quiet env st st' : quiet_step st st' → recovered env st → recovered env st'.
Proof. intros (T & P & C). by apply recovered_same. Qed.

Lemma record_rejection_recovered env st p r o k :
  recovered env st → recovered env (record_rejection st p r o k).
Proof. apply recovered_quiet, record_rejection_quiet. Qed.
#[export] Hint Resolve record_rejection_recovered : nodal.

(** Release with a recorded cause, then removal. *)
Lemma release_remove_recovered env st st' p c :
  recovered env st → remove_association env (released st p c) p = Ok st' →
  recovered env st' ∧
  (∀ q, q ∈ dict_keys (new_associations st') ↔ q ≠ p ∧ q ∈ dict_keys (new_associations st)).
Proof.
  intros Hr H. pose proof (recovered_quiet _ _ _ (released_quiet st p c) Hr) as [Ht Hc Hn].
  apply remove_association_inv in H as (Ht' & A & P & _ & C & _); [|done].
  destruct (released_rest st p c) as (A0 & P0 & _). rewrite A0 in *. rewrite P0 in *.
  assert (∀ q, q ∈ dict_keys (new_associations st') ↔ q ≠ p ∧ q ∈ dict_keys (new_associations st))
    as Hk by (intros q; rewrite A; apply elem_of_dict_keys_del).
  split; [|done]. split; [done|..].
  - intros q Hq Hout. rewrite C. destruct (decide (q = p)) as [->|]; [apply released_some|].
    apply Hc; [done|]. intros Hin. by apply Hout, Hk.
  - intros q. rewrite P, lookup_delete_is_Some, Hk. intros [? ?]. split; [done|auto].
Qed.

Lemma displace_station_recovered env st st' c gd :
  recovered env st → displace_station env st c gd = Ok st' →
  recovered env st' ∧
  (∀ q, q ∈ dict_keys (new_associations st') → q ∈ dict_keys (new_associations st)).
Proof.
  intros Hr H. destruct gd as [inc|]; simpl in H; [|by injection H as <-].
  rbind H as mode Hm. destruct (negb _); [by injection H as <-|].
  rbind H as st1 H1. apply release_remove_recovered in H1 as [Hr1 Hk]; [|done].
  unfold emit_bbm_gap in H. rbind H as e He. injection H as <-. split.
  - apply recovered_quiet with (if bool_decide (c_pair inc ∈ visible_set env)
      then record_rejection st1 (c_pair inc) replaced_by_successor (Some (c_pair c)) None
      else st1); [auto with nodal|]. destruct (bool_decide _); auto with nodal.
  - intros q Hq. simpl in Hq. destruct (bool_decide _); apply Hk in Hq; tauto.
Qed.

Lemma displace_satellite_recovered env st st' c sd :
  recovered env st → displace_satellite env st c sd = Ok st' →
  recovered env st' ∧
  (∀ q, q ∈ dict_keys (new_associations st') → q ∈ dict_keys (new_associations st)).
Proof.
  intros Hr H. destruct sd as [inc|]; simpl in H; [|by injection H as <-].
  rbind H as st1 H1. apply release_remove_recovered in H1 as [Hr1 Hk]; [|done].
  rbind H as k Hkk. injection H as <-. split; [auto with nodal|].
  intros q Hq. apply Hk in Hq. tauto.
Qed.

Lemma allocate_new_recovered env st st' c :
  env_ok env → c ∈ candidates env → c_pair c ∉ dict_keys (new_associations st) →
  recovered env st → allocate_new env st c = Ok (Some st') →
  recovered env st' ∧ c_pair c ∈ dict_keys (new_associations st') ∧
  (∀ q, q ∈ dict_keys (new_associations st) → q ∈ dict_keys (new_associations st')).
Proof.
  intros Henv Hc Hnew [Ht Hr Hn] H.
  apply allocate_new_inv in H as (Ht' & [v A] & P & _ & C & _); try done.
  assert (∀ q, q ∈ dict_keys (new_associations st') ↔
               q = c_pair c ∨ q ∈ dict_keys (new_associations st)) as Hk.
  { intros q. rewrite A. apply elem_of_dict_keys_set. }
  setoid_rewrite Hk. split_and!; [split; [done|..]|by left|by right].
  - intros q Hq Hout. rewrite C. apply Hr; [done|]. rewrite Hk in Hout. tauto.
  - intros q. rewrite P, Hk. auto.
Qed.

Lemma start_overlap_recovered env st st' c gd :
  recovered env st →
  (∀ inc mode, gd = Some inc → handover_mode_for env (c_gs_id c) = Ok mode → mode = "mbb" →
     c_pair inc ∈ dict_keys (new_associations st)) →
  start_overlap env st c gd = Ok st' → recovered env st'.
Proof.
  intros Hr Hkept H. destruct gd as [inc|]; simpl in H; [|by injection H as <-].
  rbind H as mode Hm. case_bool_decide as Em; simpl in H; [|by injection H as <-].
  rbind H as e He. injection H as <-. destruct Hr as [Ht Hc Hn].
  split; simpl; [by eapply tables_inv_same; [|exact Ht]|done|].
  intros q. rewrite lookup_insert_is_Some. intros [<-|[_ ?]]; [|auto].
  apply (Hkept inc mode); try done. unfold handover_mode_for. by rewrite Hm.
Qed.

(** ** What a verdict says *)

Lemma arbitrate_unscheduled env st c v :
  arbitrate env st c = Ok v → v ≠ Skip →
  (c_pair c ∉ dict_keys (new_associations st)) ∧ rejection_locked st (c_pair c) = false.
Proof.
  unfold arbitrate. destruct (_ || _) eqn:E; [by intros [= <-]|].
  apply orb_false_iff in E as [E1%dict_mem_false E2]. done.
Qed.

(** What either side stops with is a rejection. *)
Lemma arbitrate_satellite_inl env st c v :
  arbitrate_satellite env st c = Ok (inl v) → ∃ r o k, v = Reject r o k.
Proof.
  unfold arbitrate_satellite. intros H. rbind H as room Hroom. destruct room; [done|].
  rbind H as d Hd. destruct d; [done|]. rbind H as b Hbl. rbind H as k Hk.
  injection H as <-. eauto.
Qed.

Lemma arbitrate_station_inl env st c tc pp v :
  arbitrate_station env st c tc pp = Ok (inl v) → ∃ r o k, v = Reject r o k.
Proof.
  unfold arbitrate_station. intros H. rbind H as lim Hl. destruct (negb _).
  - rbind H as w Hw. destruct w; [|injection H as <-; by eauto].
    rbind H as pol Hpol. rbind H as me Hme. rbind H as d Hd. destruct (hd_action d).
    + rbind H as r Hr. injection H as <-. eauto.
    + rbind H as m Hm. destruct (_ && _); [|done]. injection H as <-. eauto.
  - destruct (negb _); [|done]. injection H as <-. eauto.
Qed.

(** The three ways an arbitration ends. *)
Lemma arbitrate_cases env st c v :
  arbitrate env st c = Ok v →
  (v = Skip ∧ dict_mem (c_pair c) (new_associations st) || rejection_locked st (c_pair c) = true) ∨
  (∃ r o k, v = Reject r o k) ∨
  ∃ gd sd tc, v = Schedule gd sd ∧ terminal_count env (c_gs_id c) = Ok tc ∧
    protected_mbb_pair_for_gs env st (c_gs_id c) = Ok None ∧
    arbitrate_satellite env st c = Ok (inr sd) ∧
    arbitrate_station env st c tc None = Ok (inr gd).
Proof.
  unfold arbitrate. destruct (_ || _); [intros [= <-]; by left|]. intros H. right.
  rbind H as tc Ht. rbind H as [pp|] Hp; [injection H as <-; by eauto|]. rbind H as sside Hs.
  destruct sside as [r|sd]; [injection H as ->; by apply arbitrate_satellite_inl in Hs; left|].
  rbind H as gside Hg. destruct gside as [r|gd].
  - injection H as ->. apply arbitrate_station_inl in Hg. by left.
  - injection H as <-. right. by exists gd, sd, tc.
Qed.

Lemma arbitrate_Schedule env st c gd sd :
  arbitrate env st c = Ok (Schedule gd sd) →
  ∃ tc, terminal_count env (c_gs_id c) = Ok tc ∧
    protected_mbb_pair_for_gs env st (c_gs_id c) = Ok None ∧
    arbitrate_satellite env st c = Ok (inr sd) ∧
    arbitrate_station env st c tc None = Ok (inr gd).
Proof.
  intros [[[=] _]|[(r & o & k & [=])|(gd' & sd' & tc & [= <- <-] & H)]]%arbitrate_cases.
  by exists tc.
Qed.

(** The station's incumbent to displace is one of its steady links. *)
Lemma arbitrate_station_incumbent env st c tc pp inc :
  arbitrate_station env st c tc pp = Ok (inr (Some inc)) →
  ∃ p, p ∈ steady_pairs_for_gs st (c_gs_id c) ∧ candidate_by_pair env !! p = Some inc.
Proof.
  unfold arbitrate_station. intros H. rbind H as lim Hl. destruct (negb _).
  2:{ by destruct (negb _). }
  rbind H as w Hw. destruct w as [w|]; [|done]. rbind H as pol Hpol. rbind H as me Hme.
  rbind H as d Hd. destruct (hd_action d); [by rbind H as r Hr|].
  rbind H as m Hm. destruct (_ && _); [done|]. injection H as ->.
  unfold worst_steady_incumbent in Hw. rbind Hw as l Hl'. injection Hw as Hw.
  apply max_by_in in Hw. apply mapM_r_Forall2 in Hl'.
  apply list_elem_of_lookup in Hw as [k Hk].
  destruct (Forall2_lookup_r _ _ _ _ _ Hl' Hk) as (p & Hp & Hpc).
  exists p. split; [by eapply list_elem_of_lookup_2|].
  unfold visible_incumbent_for_pair in Hpc. by apply or_raise_Ok in Hpc.
Qed.

Lemma steady_pairs_in env st g p :
  tables_inv env st → p ∈ steady_pairs_for_gs st g →
  p ∈ dict_keys (new_associations st) ∧ gs_side env p = Some g ∧
  new_pending_teardowns st !! p = None.
Proof.
  intros Ht Hp. unfold steady_pairs_for_gs in Hp.
  rewrite (si_index _ _ _ _ _ (ti_gs _ _ Ht)), !in_filter_bool in Hp.
  destruct Hp as [[Hk Hg] Hn]. unfold on_node in Hg. apply bool_decide_eq_true in Hg.
  split_and!; try done. by destruct (new_pending_teardowns st !! p).
Qed.

(** Two links of the same station and satellite are the same link. *)
Lemma same_nodes_same_pair env p q c d :
  env_ok env → candidate_by_pair env !! p = Some c → candidate_by_pair env !! q = Some d →
  gs_side env p = gs_side env q → sat_side env p = sat_side env q → p = q.
Proof.
  intros Henv Hp Hq Hg Hs.
  destruct (eo_by_pair env Henv p c Hp) as [Hc <-].
  destruct (eo_by_pair env Henv q d Hq) as [Hd <-].
  destruct (eo_ids env Henv c Hc) as [Ic Ec]. destruct (eo_ids env Henv d Hd) as [Id Ed].
  unfold gs_side, sat_side in *. rewrite Ic, Id in *. rewrite Ec, Ed. injection Hg as ->.
  by injection Hs as ->.
Qed.

(** An occupant of the candidate's satellite pool is a link on the satellite
    holding one of the pool's indices. *)
Record occupant (env : AllocEnv) (st : AllocState) (c inc : Candidate) : Prop := {
  oc_pool : ∃ pool v, sat_terminal_pool env c = Ok pool ∧
    dict_get (c_pair inc) (new_associations st) = Some v ∧ v.2 ∈ pool;
  oc_sat : sat_side env (c_pair inc) = Some (c_sat_id c);
  oc_cand : candidate_by_pair env !! c_pair inc = Some inc;
}.

Lemma sat_occupants_spec env st c l inc :
  env_ok env → tables_inv env st → sat_occupants_for_candidate env st c = Ok l → inc ∈ l →
  occupant env st c inc.
Proof.
  intros Henv Ht H Hin. unfold sat_occupants_for_candidate in H. rbind H as pool Hpool.
  revert inc Hin. revert H.
  apply (foldM_inv (λ l, ∀ inc, inc ∈ l → occupant env st c inc)).
  2:{ intros inc Hin. inversion Hin. }
  intros acc p acc' Hp Hacc H. rbind H as v Hv.
  rewrite elem_of_sorted, (si_index _ _ _ _ _ (ti_sat _ _ Ht)), in_filter_bool in Hp.
  destruct Hp as [_ Hp]. apply bool_decide_eq_true in Hp.
  case_bool_decide as E; [|by injection H as <-].
  rbind H as d Hd. injection H as <-.
  destruct (eo_by_pair env Henv p d Hd) as [_ <-].
  intros inc [?| ->%list_elem_of_singleton]%elem_of_app; [by auto|].
  split; try done. eauto.
Qed.

Lemma displaceable_sat_incumbent_spec env st c inc :
  env_ok env → tables_inv env st → displaceable_sat_incumbent env st c = Ok (Some inc) →
  occupant env st c inc ∧ (c_pair inc ∉ protected_mbb_pairs st) ∧
  same_partition env c (c_pair inc) = Ok true ∧ cand_lt c inc = true.
Proof.
  intros Henv Ht H. unfold displaceable_sat_incumbent in H. rbind H as occs Ho.
  rbind H as incs Hi. injection H as H. apply max_by_in in H.
  revert inc H. revert Hi.
  apply (foldM_inv (λ l, ∀ inc, inc ∈ l → occupant env st c inc ∧
    (c_pair inc ∉ protected_mbb_pairs st) ∧ same_partition env c (c_pair inc) = Ok true ∧
    cand_lt c inc = true)).
  2:{ intros inc Hin. inversion Hin. }
  intros acc d acc' Hd Hacc H. rbind H as yes Hy. injection H as <-.
  destruct yes; [|done]. intros inc [?| ->%list_elem_of_singleton]%elem_of_app; [by auto|].
  unfold displaceable in Hy. case_bool_decide as Ep; [done|]. rbind Hy as same Hs.
  injection Hy as Hy. apply andb_true_iff in Hy as [-> Hlt].
  split_and!; try done. by eapply sat_occupants_spec.
Qed.

Lemma arbitrate_satellite_incumbent env st c inc :
  env_ok env → tables_inv env st → arbitrate_satellite env st c = Ok (inr (Some inc)) →
  satellite_has_capacity env st c = Ok false ∧
  displaceable_sat_incumbent env st c = Ok (Some inc).
Proof.
  intros Henv Ht H. unfold arbitrate_satellite in H. rbind H as room Hr. destruct room; [done|].
  rbind H as d Hd. destruct d as [d|].
  - by injection H as ->.
  - rbind H as b Hb. by rbind H as k Hk.
Qed.

(** The displaced satellite incumbent is not a link of the candidate's
    station. *)
Lemma displaced_other_station env st c inc :
  env_ok env → c ∈ candidates env → c_pair c ∉ dict_keys (new_associations st) →
  occupant env st c inc → gs_side env (c_pair inc) ≠ Some (c_gs_id c).
Proof.
  intros Henv Hc Hnew [(pool & v & _ & Hv & _) Hs Hi] Hg.
  destruct (eo_ids env Henv c Hc) as [Hids _].
  assert (c_pair inc = c_pair c) as E.
  { eapply same_nodes_same_pair; [done|exact Hi|by apply eo_cand|..].
    - rewrite Hg. symmetry. eauto with nodal.
    - rewrite Hs. symmetry. eauto with nodal. }
  rewrite E in Hv. apply Hnew. by eapply dict_get_elem_keys.
Qed.

(** The station's incumbent survives the satellite's displacement. *)
Lemma station_incumbent_kept env st st1 st2 c inc sd :
  env_ok env → c ∈ candidates env → recovered env st →
  arbitrate env st c = Ok (Schedule (Some inc) sd) →
  handover_mode_for env (c_gs_id c) = Ok "mbb" →
  displace_station env st c (Some inc) = Ok st1 → displace_satellite env st1 c sd = Ok st2 →
  c_pair inc ∈ dict_keys (new_associations st2).
Proof.
  intros Henv Hc Hr Harb Hm H1 H2.
  destruct (arbitrate_unscheduled _ _ _ _ Harb ltac:(done)) as [Hnew _].
  apply arbitrate_Schedule in Harb as (tc & Htc & Hprot & Hsat & Hgs).
  simpl in H1. rewrite Hm in H1. simpl in H1. injection H1 as <-.
  apply arbitrate_station_incumbent in Hgs as (p & Hp & Hpc).
  apply (steady_pairs_in env) in Hp as (Hk & Hg & _); [|apply Hr].
  destruct (eo_by_pair env Henv p inc Hpc) as [_ <-].
  destruct sd as [d|]; simpl in H2; [|by injection H2 as <-].
  rbind H2 as st3 H3. apply release_remove_recovered in H3 as [_ Hk3]; [|done].
  rbind H2 as k Hkk. injection H2 as <-. simpl. apply Hk3. split; [|done].
  intros E. apply arbitrate_satellite_incumbent in Hsat as [_ Hd]; [|done|apply Hr].
  apply displaceable_sat_incumbent_spec in Hd as [Ho _]; [|done|apply Hr].
  apply (displaced_other_station env st c d) in Ho; try done. by rewrite <- E in Ho.
Qed.

Lemma schedule_candidate_recovered env st st' c gd sd :
  env_ok env → c ∈ candidates env → recovered env st →
  arbitrate env st c = Ok (Schedule gd sd) →
  schedule_candidate env st c gd sd = Ok st' → recovered env st'.
Proof.
  intros Henv Hc Hr Harb H.
  destruct (arbitrate_unscheduled _ _ _ _ Harb ltac:(done)) as [Hnew _].
  unfold schedule_candidate in H. rbind H as st1 H1. rbind H as st2 H2. rbind H as o Ho.
  rbind H as st3 H3. subst o.
  pose proof (displace_station_recovered _ _ _ _ _ Hr H1) as [Hr1 Hk1].
  pose proof (displace_satellite_recovered _ _ _ _ _ Hr1 H2) as [Hr2 Hk2].
  apply allocate_new_recovered in Ho as (Hr3 & Hin & Hk3); auto.
  eapply start_overlap_recovered; [exact Hr3| |exact H].
  intros inc mode -> Hm ->. apply Hk3. by apply (station_incumbent_kept env st st1 st2 c inc sd).
Qed.

Lemma candidate_step_recovered env acc acc' c :
  env_ok env → c ∈ candidates env → recovered env acc.1 →
  candidate_step env acc c = Ok acc' → recovered env acc'.1.
Proof.
  intros Henv Hc Hr H. destruct acc as [st prog]. simpl in H. rbind H as v Hv.
  destruct v as [|r o k|gd sd].
  - by injection H as <-.
  - injection H as <-. simpl. by auto with nodal.
  - rbind H as st' Hs. injection H as <-. simpl. by eapply schedule_candidate_recovered.
Qed.

Lemma candidate_pass_recovered env st st' b :
  env_ok env → recovered env st → candidate_pass env st = Ok (st', b) → recovered env st'.
Proof.
  intros Henv Hr H.
  apply (foldM_inv (λ acc, recovered env acc.1) _ _
    (λ acc c acc' Hc Hacc, candidate_step_recovered env acc acc' c Henv Hc Hacc)) in H; done.
Qed.

Lemma run_passes_recovered env n st st' :
  env_ok env → recovered env st → run_passes env n st = Ok st' → recovered env st'.
Proof.
  intros Henv. revert st. induction n as [|n IH]; intros st Hr H; simpl in H; [done|].
  rbind H as [st1 b] H1. apply candidate_pass_recovered in H1; try done.
  destruct b; [by eapply IH|by injection H as <-].
Qed.

Theorem allocate_state_recovered env st :
  env_ok env → dict_wf (current_associations (inp env)) →
  allocate_state env = Ok st → recovered env st.
Proof.
  intros Henv Hwf H. unfold allocate_state in H. rbind H as st1 H1. rbind H as st2 H2.
  eapply run_passes_recovered; [done| |exact H]. by eapply recovery_recovered.
Qed.
