(* ===== verification/GroundAttribution.v ===== *)
(** * The last pass attributes every rejection

    The allocator stops after a pass that schedules nothing.  Such a pass
    changes only the recorded rejections ([idle_pass]), so the reason it leaves
    with each unscheduled candidate is the verdict of [arbitrate] on the final
    tables, unless an earlier decision of the tick locked the candidate out. *)

From S2P Require Import Prelude.
From S2P Require Import PyFloat.
From S2P Require Import PyData.
From S2P Require Import GroundPolicy.
From S2P Require Import GroundTypes.
From S2P Require Import GroundAllocator.
From S2P Require Import GroundInv.
From S2P Require Import GroundPrepare.
From S2P Require Import GroundRecovery.
From S2P Require Import GroundPasses.
From stdpp Require Import base list strings gmap.
Local Open Scope Z_scope.

(** The verdict on a candidate with no rejection recorded yet. *)
Definition fresh_verdict (env : AllocEnv) (st : AllocState) (c : Candidate) : result Arbitration :=
  arbitrate env (with_rejected st ∅) c.

(** Outside its lock, [arbitrate] does not look at the recorded rejections. *)
Lemma first_quiet_rejected env st m n occupied pool :
  first_quiet env (with_rejected st m) n occupied pool = first_quiet env st n occupied pool.
Proof.
  induction pool as [|x pool IH]; simpl; [done|]. destruct (bool_decide _); [done|].
  change (window_for env (with_rejected st m) n x) with (window_for env st n x).
  destruct (window_for env st n x) as [[w|]|]; simpl; [done..|done].
Qed.

Lemma satellite_room_rejected env st m c :
  satellite_has_capacity env (with_rejected st m) c = satellite_has_capacity env st c.
Proof.
  unfold satellite_has_capacity, next_sat_terminal_index, pick_index. simpl.
  destruct (sat_terminal_pool env c); simpl; [|done]. by rewrite first_quiet_rejected.
Qed.

Lemma arbitrate_fresh env st c :
  rejection_locked st (c_pair c) = false → arbitrate env st c = fresh_verdict env st c.
Proof.
  intros Hl. unfold fresh_verdict, arbitrate. rewrite Hl.
  assert (rejection_locked (with_rejected st ∅) (c_pair c) = false) as ->.
  { unfold rejection_locked. simpl. by rewrite lookup_empty. }
  unfold arbitrate_satellite. rewrite !satellite_room_rejected. reflexivity.
Qed.

Definition rejection_of (r : GroundUnscheduledReason) (o : option node_pair) (k : option string) :
    Rejected :=
  {| rej_reason := r; rej_incumbent_pair := o; rej_capacity_constraint := k |}.

(** What an idle pass leaves with a candidate. *)
Inductive settled (env : AllocEnv) (st : AllocState) (c : Candidate) : Prop :=
| settled_scheduled : c_pair c ∈ dict_keys (new_associations st) → settled env st c
| settled_locked r : rejected st !! c_pair c = Some r →
    rej_reason r ∈ LOCKED_REJECTION_REASONS → settled env st c
| settled_rejected r o k : rejected st !! c_pair c = Some (rejection_of r o k) →
    fresh_verdict env st c = Ok (Reject r o k) → settled env st c.

Lemma candidate_step_progress env st b c st' b' :
  candidate_step env (st, b) c = Ok (st', b') → b = true → b' = true.
Proof.
  unfold candidate_step. intros H ->. rbind H as v Hv. destruct v; try by injection H as <- <-.
  by rbind H as s1 Hs; injection H as <- <-.
Qed.

Lemma fold_progress env l st b st' :
  foldM (candidate_step env) (st, b) l = Ok (st', false) → b = false.
Proof.
  revert st b. induction l as [|c l IH]; intros st b H; simpl in H; [by injection H as _ ->|].
  rbind H as [s1 b1] H1. apply IH in H as ->. destruct b; [|done].
  by apply candidate_step_progress in H1.
Qed.

(** One idle step: nothing but the candidate's own rejection changes. *)
Lemma idle_step env st c st' :
  candidate_step env (st, false) c = Ok (st', false) →
  st' = with_rejected st (rejected st') ∧ settled env st' c ∧
  ∀ p, p ≠ c_pair c → rejected st' !! p = rejected st !! p.
Proof.
  intros H. unfold candidate_step in H. rbind H as v Hv. destruct v as [|r o k|gd sd].
  - injection H as <-. split_and!; [by destruct st| |done].
    apply arbitrate_cases in Hv as [[_ [E|E]%orb_true_iff]|[(?&?&?&[=])|(?&?&?&[=]&_)]].
    + apply settled_scheduled. by apply dict_mem_true.
    + unfold rejection_locked in E. destruct (rejected st !! c_pair c) as [r|] eqn:Er; [|done].
      apply bool_decide_eq_true in E. by eapply settled_locked.
  - injection H as <-. split_and!; [done| |intros p Hp; by apply lookup_insert_ne].
    apply (settled_rejected _ _ _ r o k); [by apply lookup_insert_eq|].
    destruct (arbitrate_unscheduled _ _ _ _ Hv ltac:(done)) as [_ Hl].
    by rewrite arbitrate_fresh in Hv.
  - by rbind H as s1 Hs.
Qed.

(** Later idle steps for other candidates keep a candidate settled. *)
Lemma settled_kept env st m c :
  m !! c_pair c = rejected st !! c_pair c → settled env st c → settled env (with_rejected st m) c.
Proof.
  intros Hm [Hin|r Hr Hl|r o k Hr Hv].
  - by apply settled_scheduled.
  - apply (settled_locked _ _ _ r); [by rewrite <- Hr|done].
  - apply (settled_rejected _ _ _ r o k); [by rewrite <- Hr|done].
Qed.

Lemma idle_fold env l st st' :
  NoDup (map c_pair l) → foldM (candidate_step env) (st, false) l = Ok (st', false) →
  st' = with_rejected st (rejected st') ∧ (∀ c, c ∈ l → settled env st' c) ∧
  ∀ p, p ∉ map c_pair l → rejected st' !! p = rejected st !! p.
Proof.
  revert st. induction l as [|c l IH]; intros st Hnd H; simpl in H.
  { injection H as <-. split_and!; [by destruct st|intros c Hc; inversion Hc|done]. }
  rbind H as [s1 b1] H1. pose proof (fold_progress _ _ _ _ _ H) as ->. simpl in Hnd.
  apply NoDup_cons in Hnd as [Hc Hnd].
  apply IH in H as (E & Hs & Hr); [|done]. apply idle_step in H1 as (E1 & Hs1 & Hr1).
  split_and!.
  - rewrite E, E1. done.
  - intros d [->|Hd]%elem_of_cons; [|by auto]. rewrite E. apply settled_kept; [|done]. auto.
  - intros p [Hp Hp']%not_elem_of_cons. rewrite Hr; auto.
Qed.

Lemma run_passes_settled env n st st' :
  env_ok env → run_passes env n st = Ok st' → ∀ c, c ∈ candidates env → settled env st' c.
Proof.
  intros Henv. revert st. induction n as [|n IH]; intros st H; simpl in H; [done|].
  rbind H as [s1 b] H1. destruct b; [by eapply IH|]. injection H as ->.
  by apply idle_fold in H1 as (_ & Hs & _); [|apply eo_nodup].
Qed.

(** After the passes every visible pair is settled. *)
Lemma allocate_state_settled env st p :
  env_ok env → allocate_state env = Ok st → p ∈ visible_set env →
  ∃ c, c ∈ candidates env ∧ c_pair c = p ∧ settled env st c.
Proof.
  intros Henv H Hp. unfold allocate_state in H. rbind H as s1 H1. rbind H as s2 H2.
  apply (eo_visible env Henv) in Hp as (c & Hc & <-). exists c. split_and!; try done.
  by eapply run_passes_settled.
Qed.

(** An unscheduled pair has a recorded rejection, so the attribution of
    [attribute_rejection] from the final occupancy is never reached. *)
Lemma allocate_state_attributed env st p :
  env_ok env → allocate_state env = Ok st → p ∈ visible_set env →
  p ∉ dict_keys (new_associations st) →
  ∃ c r, candidate_by_pair env !! p = Some c ∧ rejected st !! p = Some r ∧
    (rej_reason r ∈ LOCKED_REJECTION_REASONS ∨
     fresh_verdict env st c =
       Ok (Reject (rej_reason r) (rej_incumbent_pair r) (rej_capacity_constraint r))).
Proof.
  intros Henv H Hp Hout. destruct (allocate_state_settled _ _ _ Henv H Hp) as (c & Hc & <- & Hs).
  exists c. destruct Hs as [?|r Hr Hl|r o k Hr Hv]; [done|exists r|exists (rejection_of r o k)];
    (split; [by apply eo_cand|]); auto.
Qed.

(** ** What a capacity rejection means *)

Lemma evaluate_handover_reason policy a b ctx d r :
  evaluate_handover policy a b ctx = Ok d → hd_unscheduled_reason d = Some r →
  r = incumbent_held ∨ r = hysteresis_hold.
Proof.
  unfold evaluate_handover, HOLD_SCORE_FUNCTIONS. intros H. rbind H as fn Hfn.
  repeat case_bool_decide; simplify_eq.
  - unfold handover_none in H. rguard H as Hp. destruct (flt a b); injection H as <-; simpl; [done|].
    intros [= <-]. by left.
  - unfold handover_hysteresis in H. rbind H as hy Hhy.
    destruct (flt _ b); injection H as <-; simpl; [done|]. intros [= <-]. by right.
Qed.

Lemma arbitrate_station_reason env st c tc pp r o k :
  arbitrate_station env st c tc pp = Ok (inl (Reject r o k)) → r ≠ sat_capacity.
Proof.
  unfold arbitrate_station. intros H. rbind H as lim Hl. destruct (negb _).
  - rbind H as w Hw. destruct w; [|by injection H as <- _ _].
    rbind H as pol Hpol. rbind H as me Hme. rbind H as d Hd. destruct (hd_action d).
    + rbind H as r' Hr. injection H as <- _ _.
      by destruct (evaluate_handover_reason _ _ _ _ _ _ Hd Hr) as [->| ->].
    + rbind H as m Hm. destruct (_ && _); [|done]. by injection H as <- _ _.
  - destruct (negb _); [|done]. by injection H as <- _ _.
Qed.

(** A satellite-capacity rejection: no free index and no one to displace. *)
Lemma arbitrate_sat_capacity env st c o k :
  arbitrate env st c = Ok (Reject sat_capacity o k) →
  satellite_has_capacity env st c = Ok false ∧ displaceable_sat_incumbent env st c = Ok None.
Proof.
  unfold arbitrate. destruct (_ || _); [done|]. intros H. rbind H as tc Ht.
  rbind H as [pp|] Hp; [done|]. rbind H as sside Hs. destruct sside as [v|sd].
  - injection H as ->. unfold arbitrate_satellite in Hs. rbind Hs as room Hroom.
    destruct room; [done|]. rbind Hs as d Hd. by destruct d.
  - rbind H as gside Hg. destruct gside as [v|gd]; [|done]. injection H as ->.
    by apply arbitrate_station_reason in Hg.
Qed.

Lemma displaceable_none env st c d occs :
  displaceable_sat_incumbent env st c = Ok None →
  sat_occupants_for_candidate env st c = Ok occs → d ∈ occs →
  displaceable env (protected_mbb_pairs st) c d = Ok false.
Proof.
  intros H Ho Hd. unfold displaceable_sat_incumbent in H. rewrite Ho in H. cbn [rbind] in H.
  rbind H as incs Hi. injection H as ->%max_by_None.
  assert (∀ d, d ∈ occs → ∃ b, displaceable env (protected_mbb_pairs st) c d = Ok b ∧
            (b = true → d ∈ ([] : list Candidate))) as Hall.
  { revert Hi. apply (foldM_prefix (λ pre acc, ∀ d, d ∈ pre →
      ∃ b, displaceable env (protected_mbb_pairs st) c d = Ok b ∧ (b = true → d ∈ acc))).
    2:{ intros x Hx. inversion Hx. }
    intros pre x post acc acc' _ IH H y Hy. rbind H as b Hb. injection H as <-.
    apply elem_of_app in Hy as [Hy| ->%list_elem_of_singleton].
    - destruct (IH y Hy) as (b' & Hb' & Hin). exists b'. split; [done|]. intros E.
      destruct b; [|auto]. apply elem_of_app. auto.
    - exists b. split; [done|]. intros ->. apply elem_of_app. right. by left. }
  destruct (Hall d Hd) as ([] & ? & Hin); [|done]. by specialize (Hin eq_refl); inversion Hin.
Qed.

Lemma sat_occupants_complete env st c pool occs p v d :
  tables_inv env st → sat_terminal_pool env c = Ok pool →
  sat_occupants_for_candidate env st c = Ok occs →
  dict_get p (new_associations st) = Some v → sat_side env p = Some (c_sat_id c) → v.2 ∈ pool →
  candidate_by_pair env !! p = Some d → d ∈ occs.
Proof.
  intros Ht Hpool H Hp Hs Hv Hd. unfold sat_occupants_for_candidate in H. rewrite Hpool in H.
  cbn [rbind] in H.
  assert (p ∈ sorted npair_lt (pairs_at (assoc_by_sat st) (c_sat_id c))) as Hin.
  { rewrite elem_of_sorted, (si_index _ _ _ _ _ (ti_sat _ _ Ht)), in_filter_bool.
    split; [by eapply dict_get_elem_keys|]. by apply bool_decide_eq_true. }
  revert Hin. revert H. generalize (sorted npair_lt (pairs_at (assoc_by_sat st) (c_sat_id c))).
  intros l H. revert H.
  apply (foldM_prefix (λ pre acc, p ∈ pre → d ∈ acc)); [|by intros Hx; inversion Hx].
  intros pre q post acc acc' _ IH H Hin. rbind H as w Hw.
  apply elem_of_app in Hin as [Hin| ->%list_elem_of_singleton].
  - destruct (bool_decide _); [|injection H as <-; auto]. rbind H as e He. injection H as <-.
    apply elem_of_app. auto.
  - rewrite Hp in Hw. injection Hw as <-. rewrite bool_decide_eq_true_2 in H by done.
    rbind H as e He. unfold visible_incumbent_for_pair in He. rewrite Hd in He.
    injection He as <-. injection H as <-. apply elem_of_app. right. by left.
Qed.

(** A satellite-capacity rejection is justified link by link. *)
Lemma sat_capacity_justified env st c o k pool x :
  env_ok env → c ∈ candidates env → tables_inv env st →
  arbitrate env st c = Ok (Reject sat_capacity o k) →
  sat_terminal_pool env c = Ok pool → x ∈ pool →
  ∃ p v d, dict_get p (new_associations st) = Some v ∧ v.2 = x ∧
    sat_side env p = Some (c_sat_id c) ∧ candidate_by_pair env !! p = Some d ∧
    (p ∈ protected_mbb_pairs st ∨ same_partition env c p = Ok false ∨ cand_lt c d = false).
Proof.
  intros Henv Hc Ht Harb Hpool Hx. apply arbitrate_sat_capacity in Harb as [Hroom Hdisp].
  unfold satellite_has_capacity, next_sat_terminal_index in Hroom. rewrite Hpool in Hroom.
  cbn [rbind] in Hroom. rbind Hroom as idx Hidx. destruct idx; [done|].
  pose proof (pick_index_None _ _ _ _ _ Hidx x Hx) as Hocc.
  apply (si_occ _ _ _ _ _ (ti_sat _ _ Ht)) in Hocc as (p & v & Hp & Hs & Hv).
  destruct v as [gi si]. destruct (ti_link _ _ Ht _ _ _ Hp) as [Hvis _].
  apply (eo_visible_cand env p Henv) in Hvis as (d & Hd & Hdp & _).
  exists p, (gi, si), d. split_and!; try done.
  assert (∃ occs, sat_occupants_for_candidate env st c = Ok occs) as [occs Hoccs].
  { unfold displaceable_sat_incumbent in Hdisp. rbind Hdisp as occs Ho. eauto. }
  assert (d ∈ occs) as Hin.
  { eapply (sat_occupants_complete env st c pool occs p (gi, si)); try done.
    simpl in *. by rewrite Hv. }
  pose proof (displaceable_none _ _ _ _ _ Hdisp Hoccs Hin) as Hno. unfold displaceable in Hno.
  rewrite Hdp in Hno. case_bool_decide as Ep; [by left|]. rbind Hno as same Hsame.
  injection Hno as [-> | ->]%andb_false_iff; auto.
Qed.
