(* ===== verification/GroundOverlap.v ===== *)
(** * Make-before-break overlaps

    While a station hands over, its old link and the successor coexist.  [overlaps]:
    every pending teardown is an old link still held, its successor is held, on
    the same station and not itself in teardown, and a station is in at most one
    overlap.  Recovery establishes it from the previous tick's state, and the
    arbitration passes preserve it: a protected link is never displaced. *)

From S2P Require Import Prelude.
From S2P Require Import PyFloat.
From S2P Require Import PyData.
From S2P Require Import GroundPolicy.
From S2P Require Import GroundTypes.
From S2P Require Import GroundAllocator.
From S2P Require Import GroundInv.
From S2P Require Import GroundPrepare.
From S2P Require Import GroundRecovery.
From S2P Require Import GroundPasses.
From stdpp Require Import base list strings gmap.
Local Open Scope Z_scope.

(** ** Recovery *)

(** A successor that cannot complete its overlap this tick. *)
Definition doomed (env : AllocEnv) (s : node_pair) : Prop :=
  s ∉ visible_set env ∨ s ∉ dict_keys (current_associations (inp env)) ∨
  is_Some (pending_teardowns (inp env) !! s).

Record kept_teardown (env : AllocEnv) (p : node_pair) (t : MbbTeardown) : Prop := {
  kt_td : pending_teardowns (inp env) !! p = Some t;
  kt_self : successor_pair t ≠ p;
  kt_start : start_step t ≤ step (inp env);
  kt_succ : ¬ doomed env (successor_pair t);
}.

(** While the teardowns are resolved, a kept one's successor can continue, and
    only links in teardown or doomed ones are dropped. *)
Record resolving (env : AllocEnv) (st : AllocState) : Prop := {
  rs_kept p t : new_pending_teardowns st !! p = Some t → kept_teardown env p t;
  rs_drop d : d ∈ drop_current_pairs st → doomed env d;
}.

Lemma add_existing_frame env st st' p v :
  add_existing env st p v = Ok st' →
  new_pending_teardowns st' = new_pending_teardowns st ∧
  drop_current_pairs st' = drop_current_pairs st ∧
  ∀ q, q ∈ dict_keys (new_associations st') ↔ q = p ∨ q ∈ dict_keys (new_associations st).
Proof.
  intros H. unfold add_existing in H. rbind H as [g s] Hi. rbind H as gp Hg. rbind H as sp Hs.
  destruct v as [gi si]. rguard H as E1. rguard H as E2. rbind H as body Hb.
  rguard H as E3. rguard H as E4. injection H as <-. split_and!; try done.
  intros q. simpl. apply elem_of_dict_keys_set.
Qed.

Lemma recover_teardown_resolving env p st st' :
  is_Some (pending_teardowns (inp env) !! p) →
  resolving env st → recover_teardown env st p = Ok st' → resolving env st'.
Proof.
  intros Hpend [Hk Hd] H. unfold recover_teardown in H.
  rbind H as v Hv. rbind H as td Htd. rguard H as Hs. rbind H as [g s] Hids.
  rguard H as Hself. rbind H as mode Hm. rguard H as Hmode.
  assert (doomed env p) as Hp by (right; by right).
  destruct (negb _ || negb _) eqn:Es.
  - apply recover_abort_spec in H as (st1 & Q & D & _ & _ & Hcase).
    assert (doomed env (successor_pair td)) as Hsucc.
    { apply orb_true_iff in Es as [E%negb_true_iff%bool_decide_eq_false|E]; [by left|].
      apply negb_true_iff, andb_false_iff in E as [E%dict_mem_false|E]; [by right; left|].
      right; right. by destruct (pending_teardowns _ !! successor_pair td). }
    assert (new_pending_teardowns st' = new_pending_teardowns st ∧
            drop_current_pairs st' = drop_current_pairs st1) as [P D'].
    { destruct Hcase as [[Q' D']|(_ & v' & _ & Hadd)].
      - split; [|done]. destruct Q as (_ & -> & _), Q' as (_ & -> & _). done.
      - apply add_existing_frame in Hadd as (-> & -> & _). by destruct Q as (_ & -> & _). }
    split; [by rewrite P|]. intros d. rewrite D', D.
    rewrite !elem_of_union, !elem_of_singleton. intros [->|[->|?]]; auto.
  - apply orb_false_iff in Es as [Ev%negb_false_iff%bool_decide_eq_true Ec%negb_false_iff].
    apply andb_true_iff in Ec as [Ec%dict_mem_true En].
    rbind H as ticks Ht. destruct (_ || _) eqn:Edone.
    + apply recover_complete_spec in H as ((_ & P & _) & D & _). split; [by rewrite <- P|].
      intros d. rewrite D, elem_of_union, elem_of_singleton. intros [->|?]; auto.
    + rbind H as st1 Hadd. injection H as <-.
      apply add_existing_frame in Hadd as (P & D & _). split; simpl; [|by rewrite D].
      intros q t. rewrite P, lookup_insert_Some. intros [[<- <-]|[_ ?]]; [|by auto].
      split; try done; [lia|]. unfold doomed. intros [?|[?|[? E]]]; [done..|].
      by rewrite E in En.
Qed.

Lemma recover_teardowns_resolving env st :
  recover_teardowns env initial_state = Ok st → resolving env st.
Proof.
  unfold recover_teardowns. apply (foldM_inv (resolving env)).
  - intros s p s' Hp. rewrite elem_of_sorted_set, elem_of_dom in Hp.
    by apply recover_teardown_resolving.
  - split; simpl; [intros p t; by rewrite lookup_empty|set_solver].
Qed.

Lemma continue_link_frame env st st' link :
  continue_link env st link = Ok st' →
  new_pending_teardowns st' = new_pending_teardowns st ∧
  drop_current_pairs st' = drop_current_pairs st ∧
  (∀ q, q ∈ dict_keys (new_associations st) → q ∈ dict_keys (new_associations st')) ∧
  ((link.1 ∉ drop_current_pairs st) → link.1 ∈ visible_set env →
   pending_teardowns (inp env) !! link.1 = None → link.1 ∈ dict_keys (new_associations st')).
Proof.
  destruct link as [p v]. simpl. destruct (pending_teardowns (inp env) !! p) eqn:Ep; simpl.
  { by intros [= <-]. }
  case_bool_decide as Ed; simpl; [by intros [= <-]|].
  case_bool_decide as Ev; simpl.
  - intros (P & D & K)%add_existing_frame. split_and!; try done.
    + intros q Hq. apply K. by right.
    + intros _ _ _. apply K. by left.
  - intros ((T & P & _) & _ & D & _)%emit_incumbent_lost_spec.
    destruct T as (_ & _ & A & _ & _). rewrite A. by split_and!.
Qed.

Lemma continue_links_successors env st st' :
  resolving env st → continue_links env st = Ok st' →
  new_pending_teardowns st' = new_pending_teardowns st ∧
  ∀ q, q ∈ dict_keys (current_associations (inp env)) → ¬ doomed env q →
    q ∈ dict_keys (new_associations st').
Proof.
  intros [_ Hd] H. unfold continue_links in H. set (l := sorted _ _) in H.
  assert (new_pending_teardowns st' = new_pending_teardowns st ∧
    drop_current_pairs st' = drop_current_pairs st ∧
    ∀ x, x ∈ l → ¬ doomed env x.1 → x.1 ∈ dict_keys (new_associations st')) as (P & _ & K).
  { revert H. apply (foldM_prefix (λ pre s, new_pending_teardowns s = new_pending_teardowns st ∧
      drop_current_pairs s = drop_current_pairs st ∧
      ∀ x, x ∈ pre → ¬ doomed env x.1 → x.1 ∈ dict_keys (new_associations s))).
    2:{ split_and!; try done. intros x Hx. inversion Hx. }
    intros pre link post s s' _ (P & D & K) H.
    apply continue_link_frame in H as (P' & D' & M & N). rewrite P', D'. split_and!; try done.
    intros x [Hx| ->%list_elem_of_singleton]%elem_of_app Hnd; [by auto|].
    unfold doomed in Hnd. apply N.
    - rewrite D. intros Hin. by apply Hnd, Hd.
    - destruct (decide (link.1 ∈ visible_set env)); [done|]. tauto.
    - destruct (pending_teardowns _ !! _) eqn:E; [|done]. exfalso. apply Hnd. right. by right. }
  split; [done|]. intros q Hq Hnd. unfold dict_keys in Hq.
  apply list_elem_of_fmap in Hq as (x & -> & Hx). apply K; [|done]. by apply elem_of_sorted.
Qed.

(** ** The invariant *)

(** What one tick promises the next about its overlaps, on the associations and
    the pending teardowns alone. *)
Record overlaps_ok (gs : node_pair → option string) (assoc : dict node_pair (Z * Z))
    (pending : MbbTeardownState) : Prop := {
  ov_old p t : pending !! p = Some t → p ∈ dict_keys assoc;
  ov_succ p t : pending !! p = Some t →
    successor_pair t ∈ dict_keys assoc ∧ pending !! successor_pair t = None;
  ov_gs p t : pending !! p = Some t → gs (successor_pair t) = gs p;
  ov_one p q t u : pending !! p = Some t → pending !! q = Some u → gs p = gs q → p = q;
}.

Abbreviation overlaps env st :=
  (overlaps_ok (gs_side env) (new_associations st) (new_pending_teardowns st)).

Lemma recovery_overlaps env st1 st2 :
  dict_wf (current_associations (inp env)) →
  overlaps_ok (gs_side env) (current_associations (inp env)) (pending_teardowns (inp env)) →
  recover_teardowns env initial_state = Ok st1 → continue_links env st1 = Ok st2 →
  overlaps env st2.
Proof.
  intros Hwf Hov H1 H2. pose proof (recovery_recovered _ _ _ Hwf H1 H2) as [_ _ Hn].
  apply recover_teardowns_resolving in H1.
  pose proof (continue_links_successors _ _ _ H1 H2) as [P K]. rewrite P in *.
  assert (∀ p t, new_pending_teardowns st1 !! p = Some t → kept_teardown env p t) as Hk
    by apply H1.
  split.
  - intros p t Hp. apply Hn. by rewrite Hp.
  - intros p t Hp. destruct (Hk p t Hp) as [Htd _ _ Hs]. split.
    + apply K; [|done]. by apply (ov_succ _ _ _ Hov p t).
    + destruct (new_pending_teardowns st1 !! successor_pair t) eqn:E; [|done]. exfalso.
      apply Hs. right. right. apply Hk in E as [E _ _ _]. by rewrite E.
  - intros p t Hp. apply (ov_gs _ _ _ Hov). by apply Hk.
  - intros p q t u Hp Hq. apply (ov_one _ _ _ Hov p q t u); by apply Hk.
Qed.

Lemma elem_of_protected st p :
  p ∈ protected_mbb_pairs st ↔ ∃ q t, new_pending_teardowns st !! q = Some t ∧
    (p = q ∨ p = successor_pair t).
Proof.
  unfold protected_mbb_pairs. rewrite elem_of_union, elem_of_dom, elem_of_list_to_set.
  rewrite list_elem_of_fmap. setoid_rewrite list_elem_of_fmap. split.
  - intros [[t Ht]|(t & -> & ([q t'] & -> & Hq%elem_of_map_to_list))]; simpl; eauto.
  - intros (q & t & Hq & [->| ->]); [left; by eexists|right]. exists t. split; [done|].
    exists (q, t). split; [done|]. by apply elem_of_map_to_list.
Qed.

Lemma first_pair_of_gs_None env g l :
  first_pair_of_gs env g l = Ok None → ∀ p, p ∈ l → gs_side env p ≠ Some g.
Proof.
  induction l as [|q l IH]; simpl; intros H p Hp; [inversion Hp|].
  rbind H as [g' s] Hi. case_bool_decide as E; [done|].
  apply elem_of_cons in Hp as [->|Hp]; [|by apply IH]. unfold gs_side. rewrite Hi. congruence.
Qed.

(** A station outside any overlap. *)
Lemma unprotected_station env st g p :
  protected_mbb_pair_for_gs env st g = Ok None → gs_side env p = Some g →
  p ∉ protected_mbb_pairs st.
Proof.
  intros H Hp Hin. eapply first_pair_of_gs_None; [exact H| |exact Hp]. by apply elem_of_sorted_set.
Qed.

(** Removing an unprotected link keeps every overlap. *)
Lemma overlaps_remove gs assoc assoc' pending pending' p :
  overlaps_ok gs assoc pending → pending' = delete p pending →
  (∀ q t, pending !! q = Some t → p ≠ q ∧ p ≠ successor_pair t) →
  (∀ q, q ∈ dict_keys assoc' ↔ q ≠ p ∧ q ∈ dict_keys assoc) →
  overlaps_ok gs assoc' pending'.
Proof.
  intros [Ho Hs Hg H1] -> Hnp Hk.
  assert (delete p pending = pending) as ->.
  { apply delete_id. destruct (pending !! p) eqn:E; [|done]. by destruct (Hnp p m E). }
  split; try done.
  - intros q t Hq. apply Hk. split; [intros ->; by destruct (Hnp p t Hq)|eauto].
  - intros q t Hq. destruct (Hs q t Hq). split; [|done]. apply Hk. split; [|done].
    intros E. by destruct (Hnp q t Hq).
Qed.

Lemma overlaps_grow gs assoc assoc' pending :
  overlaps_ok gs assoc pending → (∀ q, q ∈ dict_keys assoc → q ∈ dict_keys assoc') →
  overlaps_ok gs assoc' pending.
Proof.
  intros [Ho Hs Hg H1] Hk. split; eauto. intros p t Hp. destruct (Hs p t Hp). auto.
Qed.

(** Starting an overlap at a station that is in none. *)
Lemma overlaps_start gs assoc pending p t :
  overlaps_ok gs assoc pending → p ∈ dict_keys assoc → successor_pair t ∈ dict_keys assoc →
  pending !! successor_pair t = None → successor_pair t ≠ p → gs (successor_pair t) = gs p →
  (∀ q u, pending !! q = Some u → gs q ≠ gs p ∧ gs (successor_pair u) ≠ gs p) →
  overlaps_ok gs assoc (<[p := t]> pending).
Proof.
  intros [Ho Hs Hg H1] Hp Ht Hpt Hne Hgs Hq. split.
  - intros q u. rewrite lookup_insert_Some. intros [[<- <-]|[_ Hu]]; eauto.
  - intros q u. rewrite lookup_insert_Some. intros [[<- <-]|[_ Hu]].
    + split; [done|]. by rewrite lookup_insert_ne.
    + destruct (Hs q u Hu). split; [done|]. rewrite lookup_insert_ne; [done|].
      intros ->. by destruct (Hq q u Hu).
  - intros q u. rewrite lookup_insert_Some. intros [[<- <-]|[_ Hu]]; eauto.
  - intros q r u w. rewrite !lookup_insert_Some.
    intros [[<- <-]|[_ Hu]] [[<- <-]|[_ Hw]]; [done|..]; intros E.
    + by destruct (Hq r w Hw).
    + by destruct (Hq q u Hu).
    + eauto.
Qed.

(** ** The passes *)

Lemma unprotected st p :
  p ∉ protected_mbb_pairs st →
  ∀ q t, new_pending_teardowns st !! q = Some t → p ≠ q ∧ p ≠ successor_pair t.
Proof.
  intros Hp q t Hq. split; intros ->; apply Hp, elem_of_protected; eauto.
Qed.

Lemma release_remove_overlaps env st st' p c :
  recovered env st → overlaps env st → p ∉ protected_mbb_pairs st →
  remove_association env (released st p c) p = Ok st' →
  overlaps env st' ∧ new_pending_teardowns st' = new_pending_teardowns st.
Proof.
  intros Hr Hov Hp H. pose proof (release_remove_recovered _ _ _ _ _ Hr H) as [_ Hk].
  assert (new_pending_teardowns st' = delete p (new_pending_teardowns st)) as P.
  { apply remove_association_inv in H as (_ & _ & -> & _).
    - by destruct (released_rest st p c) as (_ & -> & _).
    - apply (recovered_quiet _ _ _ (released_quiet st p c) Hr). }
  split; [by eapply overlaps_remove; [exact Hov|exact P|by apply unprotected|]|].
  rewrite P. apply delete_id. destruct (new_pending_teardowns st !! p) eqn:E; [|done].
  exfalso. apply Hp, elem_of_protected. eauto.
Qed.

Lemma displace_station_overlaps env st st' c gd :
  recovered env st → overlaps env st →
  (∀ inc, gd = Some inc → c_pair inc ∉ protected_mbb_pairs st) →
  displace_station env st c gd = Ok st' →
  overlaps env st' ∧ new_pending_teardowns st' = new_pending_teardowns st.
Proof.
  intros Hr Hov Hp H. destruct gd as [inc|]; simpl in H; [|by injection H as <-].
  rbind H as mode Hm. destruct (negb _); [by injection H as <-|].
  rbind H as st1 H1. apply release_remove_overlaps in H1 as [Hov1 P1]; auto.
  unfold emit_bbm_gap in H. rbind H as e He. injection H as <-. simpl.
  by destruct (bool_decide _).
Qed.

Lemma displace_satellite_overlaps env st st' c sd :
  recovered env st → overlaps env st →
  (∀ inc, sd = Some inc → c_pair inc ∉ protected_mbb_pairs st) →
  displace_satellite env st c sd = Ok st' →
  overlaps env st' ∧ new_pending_teardowns st' = new_pending_teardowns st.
Proof.
  intros Hr Hov Hp H. destruct sd as [inc|]; simpl in H; [|by injection H as <-].
  rbind H as st1 H1. apply release_remove_overlaps in H1 as [Hov1 P1]; auto.
  by rbind H as k Hkk; injection H as <-.
Qed.

Lemma protected_same st st' :
  new_pending_teardowns st' = new_pending_teardowns st →
  protected_mbb_pairs st' = protected_mbb_pairs st.
Proof. unfold protected_mbb_pairs. by intros ->. Qed.

(** Neither displacement of a verdict touches a protected link. *)
Lemma displaced_unprotected env st c gd sd :
  env_ok env → recovered env st → arbitrate env st c = Ok (Schedule gd sd) →
  (∀ inc, gd = Some inc → c_pair inc ∉ protected_mbb_pairs st) ∧
  (∀ inc, sd = Some inc → c_pair inc ∉ protected_mbb_pairs st).
Proof.
  intros Henv Hr (tc & _ & Hprot & Hsat & Hgs)%arbitrate_Schedule. split; intros inc ->.
  - apply arbitrate_station_incumbent in Hgs as (p & Hp & Hpc).
    destruct (eo_by_pair env Henv p inc Hpc) as [_ <-].
    apply (steady_pairs_in env) in Hp as (_ & Hg & _); [|apply Hr].
    by eapply unprotected_station.
  - apply arbitrate_satellite_incumbent in Hsat as [_ Hd]; [|done|apply Hr].
    by apply displaceable_sat_incumbent_spec in Hd as (_ & ? & _); [|done|apply Hr].
Qed.

Lemma schedule_candidate_overlaps env st st' c gd sd :
  env_ok env → c ∈ candidates env → recovered env st → overlaps env st →
  arbitrate env st c = Ok (Schedule gd sd) →
  schedule_candidate env st c gd sd = Ok st' → overlaps env st'.
Proof.
  intros Henv Hc Hr Hov Harb H.
  destruct (arbitrate_unscheduled _ _ _ _ Harb ltac:(done)) as [Hnew _].
  destruct (displaced_unprotected _ _ _ _ _ Henv Hr Harb) as [Hgd Hsd].
  unfold schedule_candidate in H. rbind H as st1 H1. rbind H as st2 H2. rbind H as o Ho.
  rbind H as st3 H3. subst o.
  pose proof (displace_station_recovered _ _ _ _ _ Hr H1) as [Hr1 Hk1].
  pose proof (displace_satellite_recovered _ _ _ _ _ Hr1 H2) as [Hr2 Hk2].
  destruct (displace_station_overlaps _ _ _ _ _ Hr Hov Hgd H1) as [Hov1 P1].
  rewrite <- (protected_same _ _ P1) in Hsd.
  destruct (displace_satellite_overlaps _ _ _ _ _ Hr1 Hov1 Hsd H2) as [Hov2 P2].
  assert (new_pending_teardowns st3 = new_pending_teardowns st) as P3.
  { apply allocate_new_inv in Ho as (_ & _ & -> & _); [congruence|done..|apply Hr2|auto]. }
  apply allocate_new_recovered in Ho as (Hr3 & Hin & Hk3); auto.
  rewrite P2, P1, <- P3 in Hov2. apply (overlaps_grow _ _ (new_associations st3)) in Hov2; [|done].
  destruct gd as [inc|]; simpl in H; [|by injection H as <-].
  rbind H as mode Hm. case_bool_decide as Em; simpl in H; [|by injection H as <-]. subst mode.
  rbind H as e He. injection H as <-. simpl.
  assert (handover_mode_for env (c_gs_id c) = Ok "mbb") as Hmode
    by (unfold handover_mode_for; by rewrite Hm).
  pose proof (station_incumbent_kept _ _ _ _ _ _ _ Henv Hc Hr Harb Hmode H1 H2) as Hinc.
  apply arbitrate_Schedule in Harb as (tc & _ & Hprot & _ & Hgs).
  apply arbitrate_station_incumbent in Hgs as (p & Hp & Hpc).
  destruct (eo_by_pair env Henv p inc Hpc) as [_ <-].
  apply (steady_pairs_in env) in Hp as (Hki & Hg & _); [|apply Hr].
  destruct (eo_ids env Henv c Hc) as [Hids%gs_side_ids _].
  apply overlaps_start; simpl; auto; [|by intros E; rewrite E in Hnew|by rewrite Hg, Hids|].
  - destruct (new_pending_teardowns st3 !! c_pair c) eqn:E; [|done].
    exfalso. apply Hnew. apply (rd_pending _ _ Hr). by rewrite <- P3, E.
  - rewrite Hg, P3. intros q u Hq. split; intros E;
      eapply (unprotected_station env st); try done; apply elem_of_protected; eauto.
Qed.

Lemma candidate_step_overlaps env acc acc' c :
  env_ok env → c ∈ candidates env → recovered env acc.1 → overlaps env acc.1 →
  candidate_step env acc c = Ok acc' → overlaps env acc'.1.
Proof.
  intros Henv Hc Hr Hov H. destruct acc as [st b]. simpl in *. rbind H as v Hv.
  destruct v as [|r o k|gd sd].
  - by injection H as <-.
  - by injection H as <-.
  - rbind H as s2 H2. injection H as <-. by apply (schedule_candidate_overlaps env st s2 c gd sd).
Qed.

Lemma run_passes_overlaps env n st st' :
  env_ok env → recovered env st → overlaps env st → run_passes env n st = Ok st' →
  overlaps env st'.
Proof.
  intros Henv. revert st. induction n as [|n IH]; intros st Hr Hov H; simpl in H; [done|].
  rbind H as [st1 b] H1.
  assert (recovered env st1 ∧ overlaps env st1) as [Hr1 Hov1].
  { apply (foldM_inv (λ acc, recovered env acc.1 ∧ overlaps env acc.1)) in H1; [done| |done].
    intros acc c acc' Hc [Hs Ho] Hstep.
    split; [by eapply candidate_step_recovered|by eapply candidate_step_overlaps]. }
  destruct b; [by eapply IH|by injection H as <-].
Qed.

Lemma allocate_state_overlaps env st :
  env_ok env → dict_wf (current_associations (inp env)) →
  overlaps_ok (gs_side env) (current_associations (inp env)) (pending_teardowns (inp env)) →
  allocate_state env = Ok st → overlaps env st.
Proof.
  intros Henv Hwf Hov H. unfold allocate_state in H. rbind H as st1 H1. rbind H as st2 H2.
  eapply run_passes_overlaps; [done| | |exact H].
  - by eapply recovery_recovered.
  - by eapply recovery_overlaps.
Qed.
