(* ===== verification/GroundErrors.v ===== *)
(** * Which exceptions an allocation can raise

    Once the inputs are validated and the previous tick's state recovered, the
    allocator raises at most the errors of [tick_errors].  Every other raise of
    the passes and of the result's construction guards an internal invariant,
    and is unreachable: an association without a candidate, a terminal released
    without a cause, a selected pair without terminal indices, a rejection that
    cannot be attributed. *)

From S2P Require Import Prelude.
From S2P Require Import PyFloat.
From S2P Require Import PyData.
From S2P Require Import GroundPolicy.
From S2P Require Import GroundTypes.
From S2P Require Import GroundAllocator.
From S2P Require Import GroundInv.
From S2P Require Import GroundPrepare.
From S2P Require Import GroundRecovery.
From S2P Require Import GroundPasses.
From S2P Require Import GroundAttribution.
From S2P Require Import GroundOverlap.
From stdpp Require Import base list strings gmap.
Local Open Scope Z_scope.

(** The light-time input is incomplete or not finite, or the pass cap hits. *)
Definition tick_errors : list exn :=
  [ValueError "Ground allocator did not converge";
   ValueError "released ground pair has no delays this tick";
   ValueError "remaining_arrival_ms: finite and >= 0"].

Abbreviation tick_only r := (raises_only (λ e, e ∈ tick_errors) r).

Lemma tick_error_converge : ValueError "Ground allocator did not converge" ∈ tick_errors.
Proof. by left. Qed.
Lemma tick_error_delays : ValueError "released ground pair has no delays this tick" ∈ tick_errors.
Proof. right. by left. Qed.
Lemma tick_error_arrival : ValueError "remaining_arrival_ms: finite and >= 0" ∈ tick_errors.
Proof. right. right. by left. Qed.
#[export] Hint Resolve tick_error_converge tick_error_delays tick_error_arrival : nodal.

(** ** The caller's contract *)

(** A handover policy whose parameters parse, as the caller normalises them. *)
Definition policy_ok (spec : HandoverPolicySpec) : bool :=
  (bool_decide (hp_name spec = "none") && bool_decide (hp_params spec = ∅)) ||
  (bool_decide (hp_name spec = "hysteresis") && is_Ok (make_HysteresisParameters (hp_params spec))).

(** Every station that sees a satellite has a terminal pool, a supported body
    and a valid handover policy. *)
Definition stations_equipped (i : AllocInput) : bool :=
  bool_decide (dom (visible_per_station i) ⊆ dom (gs_terminal_indices i)) &&
  forallb (λ b, bool_decide (b ∈ SUPPORTED_BODY_NAMES)) (map_to_list (gs_reference_bodies i)).*2 &&
  forallb policy_ok (map_to_list (gs_handover_policies i)).*2.

Lemma evaluate_handover_total spec a b ctx :
  policy_ok spec = true →
  ∃ d, evaluate_handover spec a b ctx = Ok d ∧
    (hd_action d = hold → is_Some (hd_unscheduled_reason d)).
Proof.
  unfold policy_ok, evaluate_handover, HOLD_SCORE_FUNCTIONS.
  intros [[->%bool_decide_eq_true Hp]%andb_true_iff|[->%bool_decide_eq_true Hp]%andb_true_iff]%orb_true_iff;
    simpl.
  - unfold handover_none. rewrite Hp. simpl. destruct (flt _ _); (eexists; split; [done|]); simpl; [done|by eexists].
  - unfold handover_hysteresis. destruct (make_HysteresisParameters _); [|done]. simpl.
    destruct (flt _ _); (eexists; split; [done|]); simpl; [done|by eexists].
Qed.

Record station_ok (env : AllocEnv) (g : string) : Prop := {
  so_pool : is_Some (gs_terminal_pools env !! g);
  so_mode : ∃ m, gs_handover_modes (inp env) !! g = Some m ∧ (m = "bbm" ∨ m = "mbb");
  so_reserve : is_Some (gs_mbb_reserve (inp env) !! g);
  so_tenant : is_Some (gs_tenant_ids (inp env) !! g);
  so_body : ∃ b, gs_reference_bodies (inp env) !! g = Some b ∧ b ∈ SUPPORTED_BODY_NAMES;
  so_policy : ∃ pol, gs_handover_policies (inp env) !! g = Some pol ∧ policy_ok pol = true;
  so_elevation : is_Some (gs_min_elevations (inp env) !! g);
}.

Record env_total (env : AllocEnv) : Prop := {
  et_ok : env_ok env;
  et_station c : c ∈ candidates env → station_ok env (c_gs_id c);
  et_holder k p : dict_get k (prior_holder env) = Some p →
    p ∈ dict_keys (current_associations (inp env));
}.

(** ** Validated inputs give a total environment *)

Lemma gs_pools_dom i pools :
  normalize_ground_terminal_pools i = Ok pools → dom pools = dom (gs_terminal_indices i).
Proof.
  intros H. apply set_eq. intros g.
  assert (g ∈ dom pools ↔ g ∈ map fst (sorted_items str_lt (gs_terminal_indices i))) as ->.
  { revert H. apply (foldM_prefix (λ pre (m : gmap string (list Z)), g ∈ dom m ↔ g ∈ map fst pre)).
    - intros pre [g' l] post m m' _ Hm H. rguard H as Hne. rbind H as pool Hp.
      injection H as <-. rewrite dom_insert, elem_of_union, elem_of_singleton, Hm, map_app.
      simpl. rewrite elem_of_app, list_elem_of_singleton. tauto.
    - rewrite dom_empty. set_solver. }
  rewrite list_elem_of_fmap, elem_of_dom. split.
  - intros ([g' l] & -> & Hl%elem_of_sorted_items). by eexists.
  - intros [l Hl]. exists (g, l). split; [done|]. by apply elem_of_sorted_items.
Qed.

Lemma prior_holders_spec i holders k p :
  prior_holders i = Ok holders → dict_get k holders = Some p →
  p ∈ dict_keys (current_associations i).
Proof.
  intros H. revert k p. revert H.
  apply (foldM_inv (λ m, ∀ k p, dict_get k m = Some p → p ∈ dict_keys (current_associations i)));
    [|done].
  intros m [q [gi si]] m' Hq Hm H k p. rbind H as [g s] Hi. injection H as <-.
  assert (q ∈ dict_keys (current_associations i)) as Hin.
  { unfold dict_keys. apply list_elem_of_fmap. by exists (q, (gi, si)). }
  rewrite !dict_get_set. repeat case_decide; intros E; simplify_eq; eauto.
Qed.

Lemma validate_station_mode i pools g :
  validate_station_handover i pools g = Ok tt →
  (∃ m, gs_handover_modes i !! g = Some m ∧ (m = "bbm" ∨ m = "mbb")) ∧
  is_Some (gs_mbb_reserve i !! g).
Proof.
  unfold validate_station_handover. intros H. rbind H as m Hm. rguard H as Em.
  rbind H as t Ht. rbind H as r Hr. split; [|by rewrite Hr]. exists m. split; [done|].
  apply elem_of_cons in Em as [->|Em]; [by left|]. apply list_elem_of_singleton in Em as ->. by right.
Qed.

Lemma validate_stations_spec i pools g :
  validate_stations i pools = Ok tt → g ∈ dom (visible_per_station i) →
  g ∈ ground_station_ids i →
  ((∃ m, gs_handover_modes i !! g = Some m ∧ (m = "bbm" ∨ m = "mbb")) ∧
   is_Some (gs_mbb_reserve i !! g)) ∧
  is_Some (gs_tenant_ids i !! g) ∧ is_Some (gs_reference_bodies i !! g) ∧
  is_Some (gs_handover_policies i !! g) ∧ is_Some (gs_min_elevations i !! g).
Proof.
  unfold validate_stations. intros H Hg Hgs.
  rguard H as E1. rguard H as E2. rguard H as E3. rbind H as [] Hst.
  rguard H as S1. rguard H as S2. rguard H as S3. rguard H as S4.
  rewrite <- !elem_of_dom. split; [|by auto]. rewrite elem_of_dom.
  assert (g ∈ sorted_set str_lt (ground_station_ids i ∪ dom pools)) as Hin
    by (apply elem_of_sorted_set, elem_of_union; by left).
  apply (validate_station_mode i pools). apply list_elem_of_split in Hin as (l1 & l2 & E).
  rewrite E, foldM_app in Hst. rbind Hst as [] H1. simpl in Hst. by rbind Hst as [] H2.
Qed.

Lemma prepare_total i env :
  stations_named i = true → stations_equipped i = true → prepare i = Ok env → env_total env.
Proof.
  intros Hn He H. pose proof (prepare_env_ok i env Hn H) as Hok.
  apply prepare_spec in H as [<- _ Hst Hgp Hb Hh]. split; [done| |intros k p; by apply prior_holders_spec].
  intros c Hc. apply build_candidates_spec in Hb as [_ _ Hcand _].
  destruct (Hcand c Hc) as (sats & gv & Hs & Hgv & _).
  destruct (stations_named_spec _ _ _ _ Hn Hs Hgv) as [Hg _].
  assert (c_gs_id c ∈ dom (visible_per_station (inp env))) as Hdom by (apply elem_of_dom; eauto).
  destruct (validate_stations_spec _ _ _ Hst Hdom Hg) as ([Hm Hr] & Ht & [b Hbod] & [pol Hpol] & Hel).
  unfold stations_equipped in He. apply andb_true_iff in He as [[H1 H2]%andb_true_iff H3].
  apply bool_decide_eq_true in H1. rewrite forallb_forall in H2, H3.
  split; try done.
  - apply elem_of_dom. rewrite (gs_pools_dom _ _ Hgp). auto.
  - exists b. split; [done|]. apply (bool_decide_eq_true (b ∈ SUPPORTED_BODY_NAMES)), H2.
    rewrite <- list_elem_of_In. apply list_elem_of_fmap. exists (c_gs_id c, b). split; [done|].
    by apply elem_of_map_to_list.
  - exists pol. split; [done|]. apply H3. rewrite <- list_elem_of_In. apply list_elem_of_fmap.
    exists (c_gs_id c, pol). split; [done|]. by apply elem_of_map_to_list.
Qed.

(** ** Room after a displacement *)

Definition sub_assoc (st st' : AllocState) : Prop :=
  ∀ p v, dict_get p (new_associations st') = Some v → dict_get p (new_associations st) = Some v.

#[global] Instance sub_assoc_preorder : PreOrder sub_assoc.
Proof. split; [by intros st p v|intros s1 s2 s3 H1 H2 p v; eauto]. Qed.

Section Room.
Context (side : node_pair → option string) (proj : Z * Z → Z).
Context (m m' : gmap string (gset Z)) (index index' : gmap string (list node_pair))
  (d d' : dict node_pair (Z * Z)).
Context (Hd : side_inv side proj m index d) (Hd' : side_inv side proj m' index' d').
Context (Hsub : ∀ p v, dict_get p d' = Some v → dict_get p d = Some v).

Lemma side_shrink n x : x ∉ occ m n → x ∉ occ m' n.
Proof using Hd Hd' Hsub.
  rewrite (si_occ _ _ _ _ _ Hd), (si_occ _ _ _ _ _ Hd'). intros Hx (p & v & Hp & ?).
  apply Hx. exists p, v. auto.
Qed.

Lemma side_freed p v n :
  dict_get p d = Some v → side p = Some n → p ∉ dict_keys d' → proj v ∉ occ m' n.
Proof using Hd Hd' Hsub.
  intros Hp Hn Hout. rewrite (si_occ _ _ _ _ _ Hd'). intros (q & w & Hq & Hqn & E).
  assert (q = p) as -> by (eapply (si_unique _ _ _ _ _ Hd); eauto).
  by apply Hout, (dict_get_elem_keys p w).
Qed.
End Room.

Lemma free_index (pool : list Z) (occupied : gset Z) :
  NoDup pool → Z.of_nat (size occupied) < Z.of_nat (length pool) →
  ∃ x, x ∈ pool ∧ x ∉ occupied.
Proof.
  intros Hnd Hlt. destruct (find_first (λ x, negb (bool_decide (x ∈ occupied))) pool) as [x|] eqn:E.
  - apply find_first_Some in E as [Hx E]. exists x. split; [done|].
    by apply negb_true_iff, bool_decide_eq_false in E.
  - exfalso. rewrite find_first_None in E.
    assert ((list_to_set pool : gset Z) ⊆ occupied) as Hsub.
    { intros x Hx%elem_of_list_to_set. specialize (E x Hx).
      by apply negb_false_iff, bool_decide_eq_true in E. }
    apply subseteq_size in Hsub. rewrite size_list_to_set in Hsub by done. lia.
Qed.

Lemma pick_index_free env st n occupied pool x :
  x ∈ pool → x ∉ occupied → pick_index env st n occupied pool ≠ Ok None.
Proof. intros Hx Hf H. by eapply Hf, pick_index_None. Qed.

Lemma release_remove_sub env st st' p c :
  recovered env st → remove_association env (released st p c) p = Ok st' →
  sub_assoc st st' ∧ p ∉ dict_keys (new_associations st').
Proof.
  intros Hr H. pose proof (release_remove_recovered _ _ _ _ _ Hr H) as [_ Hk].
  split; [|rewrite Hk; by intros [? _]].
  apply remove_association_inv in H as (_ & A & _);
    [|apply (recovered_quiet _ _ _ (released_quiet st p c) Hr)].
  destruct (released_rest st p c) as (A0 & _). rewrite A0 in A.
  intros q v. rewrite A, dict_get_del. by case_decide.
Qed.

Lemma displace_station_sub env st st' c gd :
  recovered env st → displace_station env st c gd = Ok st' →
  sub_assoc st st' ∧ ∀ inc, gd = Some inc → handover_mode_for env (c_gs_id c) = Ok "bbm" →
    c_pair inc ∉ dict_keys (new_associations st').
Proof.
  intros Hr H. destruct gd as [inc|]; simpl in H; [|by injection H as <-].
  rbind H as mode Hm. case_bool_decide as Em; simpl in H.
  - rbind H as st1 H1. apply release_remove_sub in H1 as [Hs Hp]; [|done].
    unfold emit_bbm_gap in H. rbind H as e He. injection H as <-.
    unfold sub_assoc. simpl. destruct (bool_decide _); (split; [done|]); by intros ? [= <-] _.
  - injection H as <-. split; [done|]. intros ? _. unfold handover_mode_for. rewrite Hm.
    by intros [= ->].
Qed.

Lemma displace_satellite_sub env st st' c sd :
  recovered env st → displace_satellite env st c sd = Ok st' →
  sub_assoc st st' ∧ ∀ inc, sd = Some inc → c_pair inc ∉ dict_keys (new_associations st').
Proof.
  intros Hr H. destruct sd as [inc|]; simpl in H; [|by injection H as <-].
  rbind H as st1 H1. apply release_remove_sub in H1 as [Hs Hp]; [|done].
  rbind H as k Hk. injection H as <-. split; [done|]. by intros ? [= <-].
Qed.

(** A station that takes a candidate has a free terminal, or frees one. *)
Lemma arbitrate_station_room env st c tc pp gd :
  arbitrate_station env st c tc pp = Ok (inr gd) →
  Z.of_nat (size (occ (gs_occupied st) (c_gs_id c))) < tc ∨
  ∃ inc, gd = Some inc ∧ handover_mode_for env (c_gs_id c) ≠ Ok "mbb".
Proof.
  unfold arbitrate_station. intros H. rbind H as lim Hl. destruct (negb (_ <? lim)).
  - rbind H as w Hw. destruct w as [w|]; [|done]. rbind H as pol Hpol. rbind H as me Hme.
    rbind H as d Hd. destruct (hd_action d); [by rbind H as r Hr|].
    rbind H as m Hm. case_bool_decide as Em; simpl in H.
    + destruct (negb _) eqn:E; [done|]. left. apply negb_false_iff in E. lia.
    + injection H as <-. right. exists w. split; [done|]. unfold handover_mode_for. rewrite Hm.
      by intros [= ->].
  - destruct (negb _) eqn:E; [done|]. left. apply negb_false_iff in E. lia.
Qed.

(** ** Reading the tables *)

Section Total.
Context (env : AllocEnv) (Het : env_total env).

Local Abbreviation i := (inp env).

Lemma cand_of_key st p :
  tables_inv env st → p ∈ dict_keys (new_associations st) →
  ∃ d, candidate_by_pair env !! p = Some d ∧ c_pair d = p ∧ d ∈ candidates env ∧
    ids env p = Ok (c_gs_id d, c_sat_id d).
Proof using Het.
  intros Ht Hp. apply dict_get_is_Some in Hp as [[gi si] Hp].
  destruct (ti_link _ _ Ht _ _ _ Hp) as [Hv _].
  apply (eo_visible_cand env p (et_ok env Het)) in Hv as (d & Hd & <- & Hin).
  exists d. split_and!; try done. by apply (eo_ids env (et_ok env Het)).
Qed.

Lemma ro_body c : c ∈ candidates env → tick_only (reference_body_of env c).
Proof using Het. intros (b & Hb & _)%(et_station env Het)%so_body. by eapply ro_Some. Qed.

Lemma ro_sat_pool c : c ∈ candidates env → tick_only (sat_terminal_pool env c).
Proof using Het. intros Hc. apply ro_bind; [by apply ro_body|]. intros. apply ro_Ok. Qed.

Lemma ro_sat_constraint c : c ∈ candidates env → tick_only (sat_capacity_constraint env c).
Proof using Het. intros Hc. apply ro_bind; [by apply ro_body|]. intros. apply ro_Ok. Qed.

Lemma ro_mode c : c ∈ candidates env → tick_only (handover_mode_for env (c_gs_id c)).
Proof using Het. intros (m & Hm & _)%(et_station env Het)%so_mode. by eapply ro_Some. Qed.

Lemma ro_terminal_count c : c ∈ candidates env → tick_only (terminal_count env (c_gs_id c)).
Proof using Het.
  intros [p Hp]%(et_station env Het)%so_pool. apply ro_bind; [by eapply ro_Some|].
  intros. apply ro_Ok.
Qed.

Lemma ro_steady_limit c : c ∈ candidates env → tick_only (steady_limit env (c_gs_id c)).
Proof using Het.
  intros Hc. apply ro_bind; [by apply ro_terminal_count|]. intros tc _.
  apply ro_bind; [by apply ro_mode|]. intros m Hm. case_bool_decide as Em; [|apply ro_Ok].
  apply ro_bind; [|intros; apply ro_Ok]. apply ro_bind; [by apply ro_mode|].
  intros m' _. case_bool_decide; [|apply ro_Ok].
  destruct (et_station env Het c Hc) as [_ _ Hr _ _ _ _]. by apply ro_is_Some.
Qed.

Lemma ro_incumbent st p :
  tables_inv env st → p ∈ dict_keys (new_associations st) →
  tick_only (visible_incumbent_for_pair env p).
Proof using Het. intros Ht (d & Hd & _)%(cand_of_key st); [|done]. by eapply ro_Some. Qed.

Lemma ro_worst st g : tables_inv env st → tick_only (worst_steady_incumbent env st g).
Proof using Het.
  intros Ht. apply ro_bind; [|intros; apply ro_Ok]. apply ro_mapM. intros p Hp.
  apply (steady_pairs_in env) in Hp as (Hp & _); [|done]. by eapply ro_incumbent.
Qed.

(** The receive window of a terminal: only the delays can be missing. *)
Lemma ro_window st n x : recovered env st → tick_only (window_for env st n x).
Proof using Het.
  intros Hr. unfold window_for. destruct (dict_get (n, x) (prior_holder env)) as [h|] eqn:Eh;
    [|apply ro_Ok].
  destruct (dict_mem h _) eqn:Em; [apply ro_Ok|].
  apply (et_holder env Het) in Eh. apply dict_mem_false in Em.
  apply ro_bind; [by apply ro_is_Some, (rd_released _ _ Hr)|]. intros cause _.
  apply ro_bind; [|intros; apply ro_Ok]. unfold light_time_into_ms.
  apply ro_bind; [|intros []; intros; apply ro_Ok].
  destruct (pair_delays_ms i !! h); [apply ro_Ok|apply ro_Raise, tick_error_delays].
Qed.

Lemma ro_first_quiet st n occupied pool :
  recovered env st → tick_only (first_quiet env st n occupied pool).
Proof using Het.
  intros Hr. induction pool as [|x pool IH]; simpl; [apply ro_Ok|].
  destruct (bool_decide _); [done|]. apply ro_bind; [by apply ro_window|].
  intros [w|] _; [done|apply ro_Ok].
Qed.

Lemma ro_pick_index st n occupied pool :
  recovered env st → tick_only (pick_index env st n occupied pool).
Proof using Het.
  intros Hr. apply ro_bind; [by apply ro_first_quiet|]. intros [x|] _; apply ro_Ok.
Qed.

Lemma ro_next_sat st c :
  c ∈ candidates env → recovered env st → tick_only (next_sat_terminal_index env st c).
Proof using Het.
  intros Hc Hr. apply ro_bind; [by apply ro_sat_pool|]. intros. by apply ro_pick_index.
Qed.

Lemma ro_sat_room st c :
  c ∈ candidates env → recovered env st → tick_only (satellite_has_capacity env st c).
Proof using Het.
  intros Hc Hr. apply ro_bind; [by apply ro_next_sat|]. intros; apply ro_Ok.
Qed.

Lemma sat_index_keys st p n :
  tables_inv env st → p ∈ sorted npair_lt (pairs_at (assoc_by_sat st) n) →
  p ∈ dict_keys (new_associations st).
Proof.
  intros Ht. rewrite elem_of_sorted, (si_index _ _ _ _ _ (ti_sat _ _ Ht)), in_filter_bool.
  by intros [? _].
Qed.

Lemma ro_occupants st c :
  c ∈ candidates env → tables_inv env st → tick_only (sat_occupants_for_candidate env st c).
Proof using Het.
  intros Hc Ht. apply ro_bind; [by apply ro_sat_pool|]. intros pool _.
  apply (ro_foldM _ (λ _, True)); [|done]. intros acc p Hp _. split; [|done].
  apply sat_index_keys in Hp; [|done].
  apply ro_bind; [by apply ro_is_Some, dict_get_is_Some|]. intros v _.
  destruct (bool_decide _); [|apply ro_Ok].
  apply ro_bind; [by eapply ro_incumbent|]. intros; apply ro_Ok.
Qed.

Lemma ro_blocker st c :
  c ∈ candidates env → tables_inv env st → tick_only (sat_capacity_blocker env st c).
Proof using Het. intros. apply ro_bind; [by apply ro_occupants|]. intros; apply ro_Ok. Qed.

Lemma ro_same_partition st c p :
  c ∈ candidates env → tables_inv env st → p ∈ dict_keys (new_associations st) →
  tick_only (same_partition env c p).
Proof using Het.
  intros Hc Ht (d & _ & <- & Hd & Hids)%(cand_of_key st); [|done].
  unfold same_partition. rewrite Hids. cbn beta iota delta [rbind].
  destruct (et_station env Het c Hc) as [_ _ _ Htc (bc & Hbc & _) _ _].
  destruct (et_station env Het d Hd) as [_ _ _ Htd (bd & Hbd & _) _ _].
  apply ro_bind; [by apply ro_is_Some|]. intros t1 _.
  apply ro_bind; [by apply ro_is_Some|]. intros t2 _.
  destruct (negb _); [apply ro_Ok|].
  apply ro_bind; [by eapply ro_Some|]. intros b1 _.
  apply ro_bind; [by eapply ro_Some|]. intros; apply ro_Ok.
Qed.

Lemma ro_displaceable st c :
  c ∈ candidates env → tables_inv env st → tick_only (displaceable_sat_incumbent env st c).
Proof using Het.
  intros Hc Ht. apply ro_bind; [by apply ro_occupants|]. intros occs Hoccs.
  apply ro_bind; [|intros; apply ro_Ok]. apply (ro_foldM _ (λ _, True)); [|done].
  intros acc d Hd _. split; [|done].
  apply ro_bind; [|intros; apply ro_Ok]. unfold displaceable.
  destruct (bool_decide _); [apply ro_Ok|]. apply ro_bind; [|intros; apply ro_Ok].
  destruct (sat_occupants_spec env st c occs d (et_ok env Het) Ht Hoccs Hd)
    as [(pool & v & _ & Hv & _) _ _].
  eapply ro_same_partition; [done..|]. by eapply dict_get_elem_keys.
Qed.

(** ** Arbitration *)

Lemma ro_protected st g :
  tables_inv env st → overlaps env st → tick_only (protected_mbb_pair_for_gs env st g).
Proof using Het.
  intros Ht Hov. unfold protected_mbb_pair_for_gs.
  assert (∀ p, p ∈ sorted_set npair_lt (protected_mbb_pairs st) →
               p ∈ dict_keys (new_associations st)) as Hin.
  { intros p. rewrite elem_of_sorted_set, elem_of_protected. intros (q & t & Hq & [->| ->]).
    - by eapply ov_old.
    - by eapply ov_succ. }
  induction (sorted_set npair_lt (protected_mbb_pairs st)) as [|p l IH]; simpl; [apply ro_Ok|].
  destruct (cand_of_key st p) as (d & _ & _ & _ & ->); [done|apply Hin; by left|]. simpl.
  destruct (bool_decide _); [apply ro_Ok|]. apply IH. intros q Hq. apply Hin. by right.
Qed.

Lemma ro_satellite st c :
  c ∈ candidates env → recovered env st → tick_only (arbitrate_satellite env st c).
Proof using Het.
  intros Hc Hr. pose proof (rd_tables _ _ Hr) as Ht.
  apply ro_bind; [by apply ro_sat_room|]. intros [] _; [apply ro_Ok|].
  apply ro_bind; [by apply ro_displaceable|]. intros [d|] _; [apply ro_Ok|].
  apply ro_bind; [by apply ro_blocker|]. intros b _.
  apply ro_bind; [by apply ro_sat_constraint|]. intros; apply ro_Ok.
Qed.

Lemma ro_station st c tc pp :
  c ∈ candidates env → recovered env st → tick_only (arbitrate_station env st c tc pp).
Proof using Het.
  intros Hc Hr. pose proof (rd_tables _ _ Hr) as Ht.
  destruct (et_station env Het c Hc) as [_ _ _ _ _ (pol & Hpol & Hok) Hel].
  apply ro_bind; [by apply ro_steady_limit|]. intros lim _. cbv zeta. destruct (negb _).
  2:{ destruct (negb _); apply ro_Ok. }
  apply ro_bind; [by apply ro_worst|]. intros [w|] _; [|apply ro_Ok].
  rewrite Hpol. cbn [or_raise rbind].
  apply ro_bind; [by apply ro_is_Some|]. intros me _.
  match goal with |- context [evaluate_handover pol ?a ?b ?ctx] =>
    destruct (evaluate_handover_total pol a b ctx Hok) as (d & -> & Hd) end.
  cbn [rbind]. destruct (hd_action d).
  - apply ro_bind; [by apply ro_is_Some, Hd|]. intros; apply ro_Ok.
  - apply ro_bind; [by apply ro_mode|]. intros m _. destruct (_ && _); apply ro_Ok.
Qed.

Lemma ro_arbitrate st c :
  c ∈ candidates env → recovered env st → overlaps env st → tick_only (arbitrate env st c).
Proof using Het.
  intros Hc Hr Hov. unfold arbitrate. destruct (_ || _); [apply ro_Ok|].
  apply ro_bind; [by apply ro_terminal_count|]. intros tc _.
  apply ro_bind; [apply ro_protected; [apply Hr|done]|]. intros [pp|] _; [apply ro_Ok|].
  apply ro_bind; [by apply ro_satellite|]. intros [v|sd] _; [apply ro_Ok|].
  apply ro_bind; [by apply ro_station|]. intros [v|gd] _; apply ro_Ok.
Qed.

(** ** Events *)

Lemma ro_make_event category p c succ chall policy :
  c ∈ candidates env → category ≠ ev_retargeted_before_last_arrival →
  (∀ k n, policy = Some (k, n) → n ∈ GROUND_ALLOCATION_POLICY_NAMES_BY_KIND k) →
  tick_only (make_event env category p (c_gs_id c) succ chall policy None).
Proof using Het.
  intros Hc Hcat Hpol. destruct (et_station env Het c Hc) as [_ _ _ Ht (b & Hb & Hs) _ _].
  apply ro_bind; [by apply ro_is_Some|]. intros t _. rewrite Hb. cbn [or_raise rbind].
  unfold make_GroundAllocationEvent. simpl. rewrite bool_decide_eq_true_2 by done. simpl.
  unfold retarget_fields_on_their_category_only. simpl. rewrite bool_decide_eq_false_2 by done.
  simpl. unfold policy_name_matches_kind. simpl. destruct policy as [[k n]|]; simpl; [|apply ro_Ok].
  rewrite bool_decide_eq_true_2 by (by apply Hpol). apply ro_Ok.
Qed.

Lemma ro_bbm_gap st inc c : c ∈ candidates env → tick_only (emit_bbm_gap env st inc c).
Proof using Het.
  intros Hc. apply ro_bind; [|intros; apply ro_Ok]. apply ro_make_event; [done..|].
  intros k n [= <- <-]. by left.
Qed.

Lemma ro_retargeted st n x c :
  c ∈ candidates env → recovered env st → tick_only (retargeted env st n x c).
Proof using Het.
  intros Hc Hr. apply ro_bind; [by apply ro_window|]. intros [w|] _; [|apply ro_Ok].
  destruct (bool_decide _); [apply ro_Ok|]. apply ro_bind; [|intros; apply ro_Ok].
  destruct (et_station env Het c Hc) as [_ _ _ Ht (b & Hb & Hs) _ _].
  apply ro_bind; [by apply ro_is_Some|]. intros t _. rewrite Hb. cbn [or_raise rbind].
  unfold make_GroundAllocationEvent. simpl. rewrite bool_decide_eq_true_2 by done. simpl.
  destruct (_ || _ || _); [apply ro_Raise, tick_error_arrival|].
  unfold retarget_fields_on_their_category_only. simpl.
  unfold policy_name_matches_kind. simpl. by destruct (released_by w); simpl; apply ro_Ok.
Qed.

(** ** Scheduling *)

Lemma station_room_after st st2 c tc pp gd pool :
  c ∈ candidates env → tables_inv env st → tables_inv env st2 → sub_assoc st st2 →
  terminal_count env (c_gs_id c) = Ok tc → arbitrate_station env st c tc pp = Ok (inr gd) →
  (∀ inc, gd = Some inc → handover_mode_for env (c_gs_id c) = Ok "bbm" →
     c_pair inc ∉ dict_keys (new_associations st2)) →
  gs_terminal_pools env !! c_gs_id c = Some pool →
  ∃ x, x ∈ pool ∧ x ∉ occ (gs_occupied st2) (c_gs_id c).
Proof using Het.
  intros Hc Ht Ht2 Hsub Htc Hst Hbbm Hpool.
  pose proof (arbitrate_station_room _ _ _ _ _ _ Hst) as [Hlt|(inc & -> & Hm)].
  - unfold terminal_count in Htc. rewrite Hpool in Htc. injection Htc as <-.
    destruct (free_index pool _ (eo_gs_pool env (et_ok env Het) _ _ Hpool) Hlt) as (x & Hx & Hf).
    exists x. split; [done|]. by eapply side_shrink; [apply Ht|apply Ht2|exact Hsub|].
  - apply arbitrate_station_incumbent in Hst as (p & Hp & Hpc).
    destruct (eo_by_pair env (et_ok env Het) p inc Hpc) as [_ <-].
    apply (steady_pairs_in env) in Hp as (Hk & Hg & _); [|done].
    apply dict_get_is_Some in Hk as [[gi si] Hk].
    destruct (ti_link _ _ Ht _ _ _ Hk) as [_ (g & s & pl & b & Hids & Hpl & Hgi & _)].
    apply gs_side_ids in Hids. rewrite Hids in Hg. injection Hg as ->.
    rewrite Hpool in Hpl. injection Hpl as <-. exists gi. split; [done|].
    apply (side_freed _ _ _ _ _ _ _ _ (ti_gs _ _ Ht) (ti_gs _ _ Ht2) Hsub (c_pair inc) (gi, si));
      [done..|].
    apply Hbbm; [done|].
    destruct (et_station env Het c Hc) as [_ (m & Em & [->| ->]) _ _ _ _ _];
      unfold handover_mode_for in *; rewrite Em in *; [done|by destruct Hm].
Qed.

Lemma satellite_room_after st st2 c sd pool :
  c ∈ candidates env → tables_inv env st → tables_inv env st2 → sub_assoc st st2 →
  arbitrate_satellite env st c = Ok (inr sd) →
  (∀ inc, sd = Some inc → c_pair inc ∉ dict_keys (new_associations st2)) →
  sat_terminal_pool env c = Ok pool →
  ∃ x, x ∈ pool ∧ x ∉ occ (sat_occupied st2) (c_sat_id c).
Proof using Het.
  intros Hc Ht Ht2 Hsub Hsat Hout Hpool. destruct sd as [inc|].
  - apply arbitrate_satellite_incumbent in Hsat as [_ Hd]; [|apply Het|done].
    apply displaceable_sat_incumbent_spec in Hd as ([(pl & v & Hpl & Hv & Hin) Hs _] & _);
      [|apply Het|done].
    rewrite Hpool in Hpl. injection Hpl as <-. exists v.2. split; [done|].
    apply (side_freed _ _ _ _ _ _ _ _ (ti_sat _ _ Ht) (ti_sat _ _ Ht2) Hsub (c_pair inc) v);
      [done..|auto].
  - unfold arbitrate_satellite in Hsat. rbind Hsat as room Hroom. destruct room.
    + unfold satellite_has_capacity, next_sat_terminal_index in Hroom. rewrite Hpool in Hroom.
      rbind Hroom as o Ho. simpl in Ho. destruct o as [x|]; [|done].
      apply pick_index_spec in Ho as [Hx Hf]. exists x. split; [done|].
      by apply (side_shrink _ _ _ _ _ _ _ _ (ti_sat _ _ Ht) (ti_sat _ _ Ht2) Hsub).
    + rbind Hsat as d Hd. destruct d; [done|]. rbind Hsat as b Hb. by rbind Hsat as k Hk.
Qed.

Lemma ro_allocate_new st c :
  c ∈ candidates env → recovered env st → tick_only (allocate_new env st c).
Proof using Het.
  intros Hc Hr. destruct (et_station env Het c Hc) as [Hpool _ _ _ _ _ _].
  apply ro_bind; [by apply ro_is_Some|]. intros pool _.
  apply ro_bind; [by apply ro_pick_index|]. intros [gi|] _;
    (apply ro_bind; [by apply ro_next_sat|]); intros [si|] _; try apply ro_Ok.
  apply ro_bind; [by apply ro_retargeted|]. intros st1 H1.
  apply ro_bind; [|intros; apply ro_Ok]. apply ro_retargeted; [done|].
  by eapply recovered_quiet; [eapply same_core_quiet, retargeted_core|].
Qed.

(** A selected candidate gets its terminals. *)
Lemma allocate_new_some st c gpool spool :
  gs_terminal_pools env !! c_gs_id c = Some gpool → sat_terminal_pool env c = Ok spool →
  (∃ x, x ∈ gpool ∧ x ∉ occ (gs_occupied st) (c_gs_id c)) →
  (∃ x, x ∈ spool ∧ x ∉ occ (sat_occupied st) (c_sat_id c)) →
  allocate_new env st c ≠ Ok None.
Proof.
  intros Hg Hs (x & Hx & Hfx) (y & Hy & Hfy) H. unfold allocate_new in H. rewrite Hg in H.
  cbn [or_raise rbind] in H. rbind H as [gi|] Hgi; [|by eapply (pick_index_free _ _ _ _ _ x Hx Hfx)].
  unfold next_sat_terminal_index in H. rewrite Hs in H. cbn [rbind] in H.
  rbind H as [si|] Hsi; [|by eapply (pick_index_free _ _ _ _ _ y Hy Hfy)]. rbind H as s1 H1. by rbind H as s2 H2.
Qed.

Lemma ro_remove st p :
  tables_inv env st → p ∈ dict_keys (new_associations st) →
  tick_only (remove_association env st p).
Proof using Het.
  intros Ht Hp. destruct (cand_of_key st p) as (d & _ & _ & _ & Hids); [done..|].
  apply dict_get_is_Some in Hp as [v Hv].
  destruct (remove_association_ok env st p v _ _ Hv Hids) as [st' ->]. apply ro_Ok.
Qed.

Lemma ro_release_remove st p cause :
  recovered env st → p ∈ dict_keys (new_associations st) →
  tick_only (remove_association env (released st p cause) p).
Proof using Het.
  intros Hr Hp. apply ro_remove.
  - apply (recovered_quiet _ _ _ (released_quiet st p cause) Hr).
  - by destruct (released_rest st p cause) as (-> & _).
Qed.

Lemma ro_displace_station st c gd :
  c ∈ candidates env → recovered env st →
  (∀ inc, gd = Some inc → c_pair inc ∈ dict_keys (new_associations st)) →
  tick_only (displace_station env st c gd).
Proof using Het.
  intros Hc Hr Hk. destruct gd as [inc|]; simpl; [|apply ro_Ok].
  apply ro_bind; [by apply ro_mode|]. intros m _. destruct (negb _); [apply ro_Ok|].
  apply ro_bind; [by apply ro_release_remove; [|apply Hk]|]. intros st1 _. by apply ro_bbm_gap.
Qed.

Lemma ro_displace_satellite st c sd :
  c ∈ candidates env → recovered env st →
  (∀ inc, sd = Some inc → c_pair inc ∈ dict_keys (new_associations st)) →
  tick_only (displace_satellite env st c sd).
Proof using Het.
  intros Hc Hr Hk. destruct sd as [inc|]; simpl; [|apply ro_Ok].
  apply ro_bind; [by apply ro_release_remove; [|apply Hk]|]. intros st1 _.
  apply ro_bind; [by apply ro_sat_constraint|]. intros; apply ro_Ok.
Qed.

Lemma ro_start_overlap st c gd : c ∈ candidates env → tick_only (start_overlap env st c gd).
Proof using Het.
  intros Hc. destruct gd as [inc|]; simpl; [|apply ro_Ok].
  apply ro_bind; [by apply ro_mode|]. intros m _. destruct (negb _); [apply ro_Ok|].
  apply ro_bind; [|intros; apply ro_Ok]. apply ro_make_event; [done..|].
  intros k n [= <- <-]. right. by left.
Qed.

(** The satellite's displaced link survives the station's displacement. *)
Lemma satellite_incumbent_kept st st1 c gd d :
  c ∈ candidates env → recovered env st → c_pair c ∉ dict_keys (new_associations st) →
  (∀ inc, gd = Some inc → gs_side env (c_pair inc) = Some (c_gs_id c)) →
  occupant env st c d → displace_station env st c gd = Ok st1 →
  c_pair d ∈ dict_keys (new_associations st1).
Proof using Het.
  intros Hc Hr Hnew Hg Ho H. destruct (oc_pool _ _ _ _ Ho) as (pool & v & _ & Hv & _).
  apply (displaced_other_station env st c d (et_ok env Het)) in Ho; [|done..].
  apply dict_get_elem_keys in Hv.
  destruct gd as [inc|]; simpl in H; [|by injection H as <-].
  rbind H as mode Hm. destruct (negb _); [by injection H as <-|].
  rbind H as s1 H1. apply release_remove_recovered in H1 as [_ Hk]; [|done].
  unfold emit_bbm_gap in H. rbind H as e He. injection H as <-.
  assert (c_pair d ∈ dict_keys (new_associations s1)) as Hin.
  { apply Hk. split; [|done]. intros E. apply Ho. rewrite E. by apply Hg. }
  simpl. by destruct (bool_decide _).
Qed.

Lemma ro_schedule st c gd sd :
  c ∈ candidates env → recovered env st →
  arbitrate env st c = Ok (Schedule gd sd) → tick_only (schedule_candidate env st c gd sd).
Proof using Het.
  intros Hc Hr Harb.
  destruct (arbitrate_unscheduled _ _ _ _ Harb ltac:(done)) as [Hnew _].
  apply arbitrate_Schedule in Harb as (tc & Htc & _ & Hsat & Hst).
  assert (∀ inc, gd = Some inc → c_pair inc ∈ dict_keys (new_associations st) ∧
            gs_side env (c_pair inc) = Some (c_gs_id c)) as Hinc.
  { intros inc ->. apply arbitrate_station_incumbent in Hst as (p & Hp & Hpc).
    destruct (eo_by_pair env (et_ok env Het) p inc Hpc) as [_ <-].
    by apply (steady_pairs_in env) in Hp as (? & ? & _); [|apply Hr]. }
  apply ro_bind; [by apply ro_displace_station; [..|apply Hinc]|]. intros st1 H1.
  pose proof (displace_station_recovered _ _ _ _ _ Hr H1) as [Hr1 Hk1].
  destruct (displace_station_sub _ _ _ _ _ Hr H1) as [Hs1 Hout1].
  apply ro_bind.
  { apply ro_displace_satellite; [done..|]. intros d ->.
    apply arbitrate_satellite_incumbent in Hsat as [_ Hd]; [|apply Het|apply Hr].
    apply displaceable_sat_incumbent_spec in Hd as [Ho _]; [|apply Het|apply Hr].
    eapply (satellite_incumbent_kept st st1 c gd d); try done. intros inc Hi. by apply Hinc. }
  intros st2 H2. pose proof (displace_satellite_recovered _ _ _ _ _ Hr1 H2) as [Hr2 Hk2].
  destruct (displace_satellite_sub _ _ _ _ _ Hr1 H2) as [Hs2 Hout2].
  apply ro_bind; [by apply ro_allocate_new|]. intros o Ho.
  apply ro_bind; [|intros; by apply ro_start_overlap]. destruct o; [apply ro_Ok|]. exfalso.
  destruct (et_station env Het c Hc) as [[gpool Hgp] _ _ _ (b & Hb & _) _ _].
  assert (sub_assoc st st2) as Hs by (by etrans).
  assert (∃ spool, sat_terminal_pool env c = Ok spool) as [spool Hsp].
  { unfold sat_terminal_pool, reference_body_of. rewrite Hb. simpl. eauto. }
  revert Ho. eapply allocate_new_some; [done..| |].
  - eapply station_room_after; [done|apply Hr|apply Hr2|done..| |done].
    intros inc Hi Hm Hin. by apply (Hout1 inc Hi Hm), Hk2.
  - by eapply satellite_room_after; [done|apply Hr|apply Hr2|..].
Qed.

Lemma ro_run_passes n st :
  recovered env st → overlaps env st → tick_only (run_passes env n st).
Proof using Het.
  revert st. induction n as [|n IH]; intros st Hr Hov; simpl; [apply ro_Raise, tick_error_converge|].
  pose proof (et_ok env Het) as Henv.
  assert (∀ acc c, c ∈ candidates env → recovered env acc.1 ∧ overlaps env acc.1 →
    tick_only (candidate_step env acc c) ∧
    ∀ acc', candidate_step env acc c = Ok acc' → recovered env acc'.1 ∧ overlaps env acc'.1)
    as Hstep.
  { intros [s b] c Hc [Hs Ho]. simpl in *. split.
    - apply ro_bind; [by apply ro_arbitrate|]. intros [|r o k|gd sd] Hv; [apply ro_Ok..|].
      apply ro_bind; [by apply ro_schedule|]. intros; apply ro_Ok.
    - intros acc' H. split; [by apply (candidate_step_recovered env (s, b) acc' c)|].
      by apply (candidate_step_overlaps env (s, b) acc' c). }
  apply ro_bind.
  - eapply (ro_foldM _ (λ acc, recovered env acc.1 ∧ overlaps env acc.1)); [|done].
    intros acc c Hc Hacc. by apply Hstep.
  - intros [st1 b] H1. destruct b; [|apply ro_Ok].
    apply (foldM_inv (λ acc, recovered env acc.1 ∧ overlaps env acc.1)) in H1 as [Hr1 Hov1];
      [by apply IH| |done].
    intros s c s' Hc Hs. by apply Hstep.
Qed.

(** ** The result *)

Lemma ro_unscheduled st :
  allocate_state env = Ok st → tables_inv env st → tick_only (unscheduled env st).
Proof using Het.
  intros Hst Ht. pose proof (et_ok env Het) as Henv. apply ro_mapM. intros p.
  rewrite elem_of_sorted_set, elem_of_difference. unfold scheduled_set.
  rewrite elem_of_list_to_set. intros [Hv Hout].
  destruct (allocate_state_attributed env st p Henv Hst Hv Hout) as (c & r & Hc & Hr & _).
  destruct (eo_by_pair env Henv p c Hc) as [Hin <-].
  destruct (eo_ids env Henv c Hin) as [Hids _].
  destruct (et_station env Het c Hin) as [_ _ _ Htn (b & Hb & Hs) _ _].
  unfold unscheduled_pair. rewrite Hids. cbn [rbind]. unfold attribute_rejection. rewrite Hr.
  cbn [rbind]. apply ro_bind; [by apply ro_is_Some|]. intros t _.
  rewrite Hb. cbn [or_raise rbind]. unfold make_UnscheduledPair. simpl.
  rewrite bool_decide_eq_true_2 by done. apply ro_Ok.
Qed.

Lemma ro_held st : tables_inv env st → tick_only (held_terminals env st).
Proof using Het.
  intros Ht. apply (ro_foldM _ (λ _, True)); [|done]. intros held [p [gi si]] Hp _.
  split; [|done].
  destruct (cand_of_key st p) as (d & _ & _ & _ & ->); [done| |apply ro_Ok].
  unfold dict_keys. apply list_elem_of_fmap. by exists (p, (gi, si)).
Qed.

Lemma ro_open_windows st : recovered env st → tick_only (open_windows env st).
Proof using Het.
  intros Hr. apply ro_bind; [by apply ro_held, Hr|]. intros held _.
  apply (ro_foldM _ (λ _, True)); [|done]. intros w [k h] _ _. split; [|done].
  destruct (_ || _); [apply ro_Ok|]. apply ro_bind; [by apply ro_window|]. intros; apply ro_Ok.
Qed.

Lemma ro_finish st :
  allocate_state env = Ok st → recovered env st → tick_only (finish_allocation env st).
Proof using Het.
  intros Hst Hr. apply ro_bind; [by apply ro_unscheduled, Hr|]. intros u _.
  apply ro_bind; [by apply ro_open_windows|]. intros; apply ro_Ok.
Qed.

(** After a successful recovery the rest of the allocation raises only the
    errors of [tick_errors]. *)
Lemma ro_after_recovery st1 st2 :
  dict_wf (current_associations i) →
  overlaps_ok (gs_side env) (current_associations i) (pending_teardowns i) →
  recover_teardowns env initial_state = Ok st1 → continue_links env st1 = Ok st2 →
  tick_only (let! st := allocate_state env in finish_allocation env st).
Proof using Het.
  intros Hwf Hov H1 H2. pose proof (et_ok env Het) as Henv. apply ro_bind.
  - unfold allocate_state. rewrite H1. cbn [rbind]. rewrite H2. cbn [rbind]. apply ro_run_passes.
    + by eapply recovery_recovered.
    + by eapply recovery_overlaps.
  - intros st Hst. apply ro_finish; [done|]. by apply allocate_state_recovered.
Qed.
End Total.
