(* ===== verification/GroundTheorems.v ===== *)
(** * What the ground allocator promises

    The properties of [allocate_ground_links] its callers rely on: exclusive
    terminals within their pools, a complete and truthful account of the pairs
    it did not schedule, a bounded set of exceptions, and, over a run of ticks,
    make-before-break overlaps that never break. *)

From S2P Require Import Prelude.
From S2P Require Import PyFloat.
From S2P Require Import PyData.
From S2P Require Import GroundPolicy.
From S2P Require Import GroundTypes.
From S2P Require Import GroundAllocator.
From S2P Require Import GroundScenario.
From S2P Require Import GroundInv.
From S2P Require Import GroundPrepare.
From S2P Require Import GroundRecovery.
From S2P Require Import GroundPasses.
From S2P Require Import GroundAttribution.
From S2P Require Import GroundOverlap.
From S2P Require Import GroundErrors.
From stdpp Require Import base list strings gmap.
Local Open Scope Z_scope.

(** The station and the satellite of a pair. *)
Definition station_of (gs_ids : gset string) (p : node_pair) : option string :=
  match ground_and_satellite_ids gs_ids p with Ok (g, _) => Some g | Raise _ => None end.
Definition satellite_of (gs_ids : gset string) (p : node_pair) : option string :=
  match ground_and_satellite_ids gs_ids p with Ok (_, s) => Some s | Raise _ => None end.

(** The caller's contract that every property assumes. *)
Definition input_ok (i : AllocInput) : Prop :=
  stations_named i = true ∧ dict_wf (current_associations i).

#[global] Instance input_ok_dec i : Decision (input_ok i).
Proof. unfold input_ok, dict_wf. apply _. Defined.

(** A completed allocation, taken apart. *)
Record allocated (i : AllocInput) (r : GroundAllocationResult) (env : AllocEnv)
    (st : AllocState) : Prop := {
  al_inp : inp env = i;
  al_prepare : prepare i = Ok env;
  al_env : env_ok env;
  al_visible : visible_set env = visible_pairs i;
  al_gs_pools : normalize_ground_terminal_pools i = Ok (gs_terminal_pools env);
  al_state : allocate_state env = Ok st;
  al_recovered : recovered env st;
  al_unscheduled : unscheduled env st = Ok (unscheduled_pairs r);
  al_windows : ∃ ws, open_windows env st = Ok ws ∧ r_receive_windows r = Some ws;
  al_associations : associations r = new_associations st;
  al_pending : r_pending_teardowns r = new_pending_teardowns st;
  al_scheduled : scheduled_pairs r = list_to_set (dict_keys (associations r));
}.

Lemma allocate_Ok i r :
  input_ok i → allocate_ground_links i = Ok r → ∃ env st, allocated i r env st.
Proof.
  intros [Hn Hwf] H. unfold allocate_ground_links in H. rbind H as env Hp. rbind H as st Hst.
  pose proof (prepare_env_ok i env Hn Hp) as Henv.
  pose proof (prepare_spec i env Hp) as [Hi _ _ Hgp Hb _].
  unfold finish_allocation in H. rbind H as u Hu. rbind H as ws Hws. injection H as <-.
  exists env, st. subst i. split; simpl; try done; eauto using build_candidates_complete.
  by apply allocate_state_recovered.
Qed.

(** ** Terminals *)

(** C1: two links of a result never share a ground terminal of a station, nor a
    ground terminal of a satellite. *)
Theorem ground_terminals_exclusive i r p q vp vq :
  input_ok i → allocate_ground_links i = Ok r →
  dict_get p (associations r) = Some vp → dict_get q (associations r) = Some vq → p ≠ q →
  (∀ g, station_of (ground_station_ids i) p = Some g →
        station_of (ground_station_ids i) q = Some g → vp.1 ≠ vq.1) ∧
  (∀ s, satellite_of (ground_station_ids i) p = Some s →
        satellite_of (ground_station_ids i) q = Some s → vp.2 ≠ vq.2).
Proof.
  intros Hi H Hp Hq Hne. destruct (allocate_Ok i r Hi H) as (env & st & Ha).
  destruct (rd_tables _ _ (al_recovered _ _ _ _ Ha)) as [_ _ Hg Hs].
  rewrite (al_associations _ _ _ _ Ha) in *. rewrite <- (al_inp _ _ _ _ Ha).
  split; intros n Hn Hm E; apply Hne.
  - eapply (si_unique _ _ _ _ _ Hg); eauto.
  - eapply (si_unique _ _ _ _ _ Hs); eauto.
Qed.

(** The overlap scenario holds two links of one station at once. *)
Lemma ground_terminals_exclusive_witness :
  ∃ r, allocate_ground_links (in_mbb 47) = Ok r ∧
    (∀ g, station_of {["gs-A"]} ("gs-A", "sat-old") = Some g →
          station_of {["gs-A"]} ("gs-A", "sat-new") = Some g → 0 ≠ 1).
Proof.
  destruct (allocate_ground_links (in_mbb 47)) as [r|e] eqn:E; [|by vm_compute in E].
  exists r. split; [done|].
  apply (ground_terminals_exclusive (in_mbb 47) r ("gs-A", "sat-old") ("gs-A", "sat-new")
           (0, 0) (1, 0)); [evaluated|done|..|done];
    vm_compute in E; by injection E as <-.
Defined.

(** every link of a result is a visible pair, on indices of its station's
    configured pool and of its satellite's pool for the station's body. *)
Theorem ground_links_admissible i r p gi si :
  input_ok i → allocate_ground_links i = Ok r →
  dict_get p (associations r) = Some (gi, si) →
  p ∈ visible_pairs i ∧
  ∃ g s pool body pools, ground_and_satellite_ids (ground_station_ids i) p = Ok (g, s) ∧
    gs_terminal_indices i !! g = Some pool ∧ gi ∈ pool ∧
    gs_reference_bodies i !! g = Some body ∧
    sat_ground_terminal_indices_by_body i !! s = Some pools ∧
    si ∈ default [] (pools !! body).
Proof.
  intros Hi H Hp. destruct (allocate_Ok i r Hi H) as (env & st & Ha).
  rewrite (al_associations _ _ _ _ Ha) in Hp.
  destruct (ti_link _ _ (rd_tables _ _ (al_recovered _ _ _ _ Ha)) _ _ _ Hp)
    as [Hv (g & s & pool & b & Hids & Hpool & Hgi & Hb & Hsi)].
  rewrite (al_visible _ _ _ _ Ha) in Hv. split; [done|].
  pose proof (prepare_spec _ _ (al_prepare _ _ _ _ Ha)) as [Einp _ _ Hgp _ _].
  unfold ids in Hids. rewrite Einp in *.
  destruct (sat_pool_configured i env s b si (al_prepare _ _ _ _ Ha) Hsi) as (pools & Hpools & Hin & _).
  exists g, s, pool, b, pools. split_and!; try done.
  by eapply gs_pool_configured.
Qed.

(** The highest-elevation scenario schedules [sat-high] on its only terminals. *)
Lemma ground_links_admissible_witness :
  ∃ r, allocate_ground_links in_highest = Ok r ∧ ("gs-A", "sat-high") ∈ visible_pairs in_highest.
Proof.
  destruct (allocate_ground_links in_highest) as [r|e] eqn:E; [|by vm_compute in E].
  exists r. split; [done|].
  apply (ground_links_admissible in_highest r ("gs-A", "sat-high") 0 0);
    [evaluated|done|]. vm_compute in E. by injection E as <-.
Defined.

(** The links of a station. *)
Definition links_of_station (gs_ids : gset string) (g : string)
    (assoc : dict node_pair (Z * Z)) : list node_pair :=
  List.filter (λ p, bool_decide (station_of gs_ids p = Some g)) (dict_keys assoc).

(** The index a link holds on one side. *)
Definition index_at (proj : Z * Z → Z) (d : dict node_pair (Z * Z)) (p : node_pair) : Z :=
  match dict_get p d with Some v => proj v | None => 0 end.

(** Distinct links of a node hold distinct indices. *)
Lemma side_indices_nodup side proj m index d l n :
  side_inv side proj m index d → NoDup l →
  (∀ p, p ∈ l → p ∈ dict_keys d ∧ side p = Some n) → NoDup (map (index_at proj d) l).
Proof.
  intros Hs. induction l as [|p l IH]; intros Hnd Hl; simpl; [constructor|].
  apply NoDup_cons in Hnd as [Hp Hnd]. apply NoDup_cons.
  split; [|apply IH; [done|]; intros q Hq; apply Hl; by right].
  destruct (Hl p) as [Hk Hside]; [by left|]. apply dict_get_is_Some in Hk as [v Hv].
  intros (q & E & Hq)%list_elem_of_fmap. destruct (Hl q) as [Hkq Hsq]; [by right|].
  apply dict_get_is_Some in Hkq as [w Hw]. unfold index_at in E. rewrite Hv, Hw in E.
  apply Hp. by rewrite (si_unique _ _ _ _ _ Hs p q v w n Hv Hw Hside Hsq E).
Qed.

(** a station never has more links than terminals. *)
Theorem ground_station_capacity i r g pool :
  input_ok i → allocate_ground_links i = Ok r → gs_terminal_indices i !! g = Some pool →
  (length (links_of_station (ground_station_ids i) g (associations r)) ≤ length pool)%nat.
Proof.
  intros Hi H Hg. destruct (allocate_Ok i r Hi H) as (env & st & Ha).
  pose proof (rd_tables _ _ (al_recovered _ _ _ _ Ha)) as [Hwf Hlk Hgs _].
  rewrite (al_associations _ _ _ _ Ha). pose proof (al_inp _ _ _ _ Ha) as Einp. subst i.
  set (l := links_of_station _ g _).
  assert (∀ p, p ∈ l → p ∈ dict_keys (new_associations st) ∧ gs_side env p = Some g) as Hl.
  { intros p. unfold l, links_of_station. rewrite in_filter_bool, bool_decide_eq_true. done. }
  assert (NoDup l) as Hnd by (by apply NoDup_filter_bool).
  pose proof (side_indices_nodup _ _ _ _ _ l g Hgs Hnd Hl) as Hnd'.
  rewrite <- (length_map (index_at fst (new_associations st)) l).
  apply submseteq_length, NoDup_submseteq; [done|]. intros x (p & -> & Hp)%list_elem_of_fmap.
  destruct (Hl p Hp) as [Hk Hside]. apply dict_get_is_Some in Hk as [[gi si] Ep].
  unfold index_at. rewrite Ep. simpl.
  destruct (Hlk p gi si Ep) as [_ (g' & s & pl & b & Hids & Hpl & Hin & _)].
  apply gs_side_ids in Hids. rewrite Hids in Hside. injection Hside as ->.
  apply (gs_pool_configured _ _ _ _ (al_gs_pools _ _ _ _ Ha)) in Hpl. by simplify_eq.
Qed.

Lemma ground_station_capacity_witness :
  ∃ r, allocate_ground_links (in_mbb 47) = Ok r ∧
    (length (links_of_station {["gs-A"]} "gs-A" (associations r)) ≤ 2)%nat.
Proof.
  destruct (allocate_ground_links (in_mbb 47)) as [r|e] eqn:E; [|by vm_compute in E].
  exists r. split; [done|]. apply (ground_station_capacity (in_mbb 47) r "gs-A" [0; 1]);
    [evaluated|done|by vm_compute].
Defined.

(** ** The account of unscheduled pairs *)

Lemma unscheduled_spec env st l :
  unscheduled env st = Ok l →
  Forall2 (λ p u, unscheduled_pair env st p = Ok u)
    (sorted_set npair_lt (visible_set env ∖ scheduled_set st)) l.
Proof. apply mapM_r_Forall2. Qed.

Lemma unscheduled_pair_spec env st p u :
  unscheduled_pair env st p = Ok u →
  up_pair u = p ∧ ∃ g s r, ids env p = Ok (g, s) ∧ attribute_rejection env st p g = Ok r ∧
    gs_tenant_ids (inp env) !! g = Some (up_tenant_id u) ∧
    gs_reference_bodies (inp env) !! g = Some (up_reference_body u) ∧
    up_unscheduled_reason u = rej_reason r ∧ up_incumbent_pair u = rej_incumbent_pair r ∧
    up_capacity_constraint u = rej_capacity_constraint r.
Proof.
  unfold unscheduled_pair. intros H. rbind H as [g s] Hi. rbind H as r Hr. rbind H as t Ht.
  rbind H as b Hb. unfold make_UnscheduledPair in H. rguard H as Hs. injection H as <-.
  split; [done|]. by exists g, s, r.
Qed.

(** C2: a result accounts for every visible pair exactly once: the scheduled
    pairs are the links, all visible, and the unscheduled ones are the rest, in
    pair order. *)
Theorem ground_result_partition i r :
  input_ok i → allocate_ground_links i = Ok r →
  scheduled_pairs r = list_to_set (dict_keys (associations r)) ∧
  scheduled_pairs r ⊆ visible_pairs i ∧
  map up_pair (unscheduled_pairs r) =
    sorted_set npair_lt (visible_pairs i ∖ scheduled_pairs r).
Proof.
  intros Hi H. destruct (allocate_Ok i r Hi H) as (env & st & Ha).
  rewrite (al_scheduled _ _ _ _ Ha). split; [done|].
  pose proof (al_unscheduled _ _ _ _ Ha) as Hu%unscheduled_spec.
  rewrite (al_visible _ _ _ _ Ha) in Hu. unfold scheduled_set in Hu.
  rewrite <- (al_associations _ _ _ _ Ha) in Hu. split.
  - intros p Hp%elem_of_list_to_set. rewrite (al_associations _ _ _ _ Ha) in Hp.
    apply dict_get_is_Some in Hp as [[gi si] Hp].
    rewrite <- (al_visible _ _ _ _ Ha).
    apply (ti_link _ _ (rd_tables _ _ (al_recovered _ _ _ _ Ha)) _ _ _ Hp).
  - induction Hu as [|p u l l' Hpu _ IH]; simpl; [done|].
    apply unscheduled_pair_spec in Hpu as [-> _]. by rewrite IH.
Qed.

Lemma ground_result_partition_witness :
  ∃ r, allocate_ground_links in_tiers = Ok r ∧
    map up_pair (unscheduled_pairs r) =
      sorted_set npair_lt (visible_pairs in_tiers ∖ scheduled_pairs r).
Proof.
  destruct (allocate_ground_links in_tiers) as [r|e] eqn:E; [|by vm_compute in E].
  exists r. split; [done|].
  apply (ground_result_partition in_tiers r); [evaluated|done].
Defined.

(** An unscheduled entry of a result comes from the recorded rejection of a
    candidate. *)
Lemma unscheduled_origin i r env st u :
  allocated i r env st → u ∈ unscheduled_pairs r →
  ∃ c rej, c ∈ candidates env ∧ candidate_by_pair env !! up_pair u = Some c ∧
    up_unscheduled_reason u = rej_reason rej ∧ up_incumbent_pair u = rej_incumbent_pair rej ∧
    up_capacity_constraint u = rej_capacity_constraint rej ∧
    (rej_reason rej ∈ LOCKED_REJECTION_REASONS ∨
     fresh_verdict env st c = Ok (Reject (rej_reason rej) (rej_incumbent_pair rej)
                                   (rej_capacity_constraint rej))).
Proof.
  intros Ha Hu. pose proof (al_unscheduled _ _ _ _ Ha) as HF%unscheduled_spec.
  apply list_elem_of_lookup in Hu as [n Hn].
  destruct (Forall2_lookup_r _ _ _ _ _ HF Hn) as (p & Hp & Hpu).
  apply list_elem_of_lookup_2 in Hp. rewrite elem_of_sorted_set, elem_of_difference in Hp.
  unfold scheduled_set in Hp. rewrite elem_of_list_to_set in Hp. destruct Hp as [Hv Hout].
  destruct (allocate_state_attributed env st p (al_env _ _ _ _ Ha) (al_state _ _ _ _ Ha) Hv Hout)
    as (c & rej & Hc & Hrej & Hwhy).
  apply unscheduled_pair_spec in Hpu as (-> & g & s & r' & _ & Hr' & _ & _ & E1 & E2 & E3).
  unfold attribute_rejection in Hr'. rewrite Hrej in Hr'. injection Hr' as <-.
  exists c, rej. split_and!; try done. by apply (eo_by_pair env (al_env _ _ _ _ Ha) p c).
Qed.

(** C3: every reported reason is true of the final tables: arbitrating the pair
    afresh gives exactly the reported reason, incumbent and constraint, unless
    the pair lost its link or its overlap earlier in the tick and is locked
    out. *)
Theorem ground_reasons_truthful i r u :
  input_ok i → allocate_ground_links i = Ok r → u ∈ unscheduled_pairs r →
  ∃ env st c, prepare i = Ok env ∧ allocate_state env = Ok st ∧
    new_associations st = associations r ∧ new_pending_teardowns st = r_pending_teardowns r ∧
    candidate_by_pair env !! up_pair u = Some c ∧
    (up_unscheduled_reason u ∈ LOCKED_REJECTION_REASONS ∨
     fresh_verdict env st c = Ok (Reject (up_unscheduled_reason u) (up_incumbent_pair u)
                                   (up_capacity_constraint u))).
Proof.
  intros Hi H Hu. destruct (allocate_Ok i r Hi H) as (env & st & Ha).
  destruct (unscheduled_origin i r env st u Ha Hu) as (c & rej & _ & Hc & -> & -> & -> & Hwhy).
  exists env, st, c. destruct Ha. by split_and!.
Qed.

(** The challenger below the hysteresis is reported held by the incumbent. *)
Definition held_entry : UnscheduledPair :=
  {| up_pair := ("gs-A", "sat-new"); up_tenant_id := "default"; up_reference_body := "earth";
     up_unscheduled_reason := hysteresis_hold;
     up_incumbent_pair := Some ("gs-A", "sat-old"); up_capacity_constraint := None |}.

Lemma ground_reasons_truthful_witness :
  ∃ r env st c, allocate_ground_links (in_mbb 44) = Ok r ∧ prepare (in_mbb 44) = Ok env ∧
    candidate_by_pair env !! ("gs-A", "sat-new") = Some c ∧
    fresh_verdict env st c = Ok (Reject hysteresis_hold (Some ("gs-A", "sat-old")) None).
Proof.
  destruct (allocate_ground_links (in_mbb 44)) as [r|e] eqn:E; [|by vm_compute in E].
  assert (held_entry ∈ unscheduled_pairs r) as Hu.
  { vm_compute in E. injection E as <-. by left. }
  destruct (ground_reasons_truthful (in_mbb 44) r held_entry
    ltac:(evaluated) E Hu)
    as (env & st & c & Hp & _ & _ & _ & Hc & [Hl|Hv]).
  - exfalso. revert Hl. apply (bool_decide_unpack _). by vm_compute.
  - exists r, env, st, c. exact (conj eq_refl (conj Hp (conj Hc Hv))).
Defined.

Lemma protected_in_result i r env st p :
  allocated i r env st → p ∈ protected_mbb_pairs st →
  ∃ q t, r_pending_teardowns r !! q = Some t ∧ (p = q ∨ p = successor_pair t).
Proof. intros Ha. rewrite (al_pending _ _ _ _ Ha). apply elem_of_protected. Qed.

(** C4: no priority inversion at a satellite.  When a pair is rejected for
    satellite capacity, every terminal of its pool is held by a scheduled link
    that is in an overlap, belongs to another tenant or body, or does not rank
    after the rejected candidate. *)
Theorem ground_no_priority_inversion i r u :
  input_ok i → allocate_ground_links i = Ok r → u ∈ unscheduled_pairs r →
  up_unscheduled_reason u = sat_capacity →
  ∃ env c, prepare i = Ok env ∧ candidate_by_pair env !! up_pair u = Some c ∧
    ∀ pool x, sat_terminal_pool env c = Ok pool → x ∈ pool →
    ∃ p v d, dict_get p (associations r) = Some v ∧ v.2 = x ∧
      satellite_of (ground_station_ids i) p = Some (c_sat_id c) ∧
      candidate_by_pair env !! p = Some d ∧
      ((∃ q t, r_pending_teardowns r !! q = Some t ∧ (p = q ∨ p = successor_pair t)) ∨
       same_partition env c p = Ok false ∨ cand_lt c d = false).
Proof.
  intros Hi H Hu Hreason. destruct (allocate_Ok i r Hi H) as (env & st & Ha).
  destruct (unscheduled_origin i r env st u Ha Hu) as (c & rej & Hin & Hc & E & _ & _ & Hwhy).
  exists env, c. split_and!; [apply Ha|done|]. intros pool x Hpool Hx.
  destruct Hwhy as [Hl|Hv].
  { exfalso. rewrite <- E, Hreason in Hl. revert Hl. apply (bool_decide_unpack _). by vm_compute. }
  rewrite <- E, Hreason in Hv. unfold fresh_verdict in Hv.
  assert (tables_inv env (with_rejected st ∅)) as Ht.
  { eapply tables_inv_same; [|apply (al_recovered _ _ _ _ Ha)]. by repeat split. }
  destruct (sat_capacity_justified _ _ _ _ _ _ _ (al_env _ _ _ _ Ha) Hin Ht Hv Hpool Hx)
    as (p & v & d & Hp & Hvx & Hs & Hd & Hwhy).
  exists p, v, d. rewrite (al_associations _ _ _ _ Ha). split_and!; try done.
  - rewrite <- (al_inp _ _ _ _ Ha). done.
  - destruct Hwhy as [Hprot|?]; [left|by right]. by apply (protected_in_result i r env st p Ha).
Qed.

(** The lowest tier of three stations loses a satellite with two terminals. *)
Definition outranked_entry : UnscheduledPair :=
  {| up_pair := ("a", "sat-shared"); up_tenant_id := "default"; up_reference_body := "earth";
     up_unscheduled_reason := sat_capacity; up_incumbent_pair := Some ("c", "sat-shared");
     up_capacity_constraint := Some "sat-shared.ground_terminals[earth]" |}.

Lemma ground_no_priority_inversion_witness :
  ∃ r env c, allocate_ground_links in_tiers = Ok r ∧ prepare in_tiers = Ok env ∧
    candidate_by_pair env !! ("a", "sat-shared") = Some c.
Proof.
  destruct (allocate_ground_links in_tiers) as [r|e] eqn:E; [|by vm_compute in E].
  assert (outranked_entry ∈ unscheduled_pairs r) as Hu.
  { vm_compute in E. injection E as <-. by left. }
  destruct (ground_no_priority_inversion in_tiers r outranked_entry
    ltac:(evaluated) E Hu eq_refl) as (env & c & Hp & Hc & _).
  exists r, env, c. exact (conj eq_refl (conj Hp Hc)).
Defined.

(** ** Exceptions *)

(** The overlaps carried over from the previous tick. *)
Definition prior_overlaps (i : AllocInput) : Prop :=
  overlaps_ok (station_of (ground_station_ids i)) (current_associations i) (pending_teardowns i).

(** C5: an allocation that got past its recovery fails only for its light times or at
    the pass cap.  For well-formed inputs (stations named, incumbents without
    duplicates), stations that are equipped (every visible station has terminals,
    supported bodies and valid handover policies) and overlaps of the previous tick
    that are overlaps of two held links: once the inputs validated and the previous
    links were recovered and continued, the only errors are a released pair without
    delays, a light time or receive window that is not a finite number from zero up,
    and the pass cap.  No internal consistency check of the passes, of the attribution
    or of the result can fail. *)
Theorem ground_only_tick_errors i env st1 st2 e :
  input_ok i → stations_equipped i = true → prior_overlaps i →
  prepare i = Ok env → recover_teardowns env initial_state = Ok st1 →
  continue_links env st1 = Ok st2 →
  allocate_ground_links i = Raise e → e ∈ tick_errors.
Proof.
  intros [Hn Hwf] He Hov Hp H1 H2. pose proof (prepare_total i env Hn He Hp) as Het.
  pose proof (prepare_spec i env Hp) as [<- _ _ _ _ _].
  unfold allocate_ground_links. rewrite Hp. cbn [rbind].
  by apply (ro_after_recovery env Het st1 st2).
Qed.

Lemma prior_overlaps_none i : pending_teardowns i = ∅ → prior_overlaps i.
Proof. intros E. unfold prior_overlaps. rewrite E. split; intros p; by rewrite lookup_empty. Qed.

(** A displaced link whose light time the caller did not supply. *)
Definition in_no_delays : AllocInput :=
  let i := in_tiers in
  {| step := step i; visible_per_station := visible_per_station i;
     ground_station_ids := ground_station_ids i; current_associations := current_associations i;
     pending_teardowns := ∅; gs_terminal_indices := gs_terminal_indices i;
     gs_selection_policies := gs_selection_policies i; gs_min_elevations := gs_min_elevations i;
     gs_handover_policies := gs_handover_policies i; gs_handover_modes := gs_handover_modes i;
     gs_mbb_overlap_ticks := gs_mbb_overlap_ticks i; gs_mbb_reserve := gs_mbb_reserve i;
     gs_service_priorities := gs_service_priorities i; gs_tenant_ids := gs_tenant_ids i;
     gs_reference_bodies := gs_reference_bodies i; sat_ground_terminals := sat_ground_terminals i;
     sat_ground_terminal_indices_by_body := sat_ground_terminal_indices_by_body i;
     ranking_order := ranking_order i; mbb_preemption := "off";
     successor_abort_policy := "hard_release"; cross_tenant_displacement := "off";
     bbm_acquire_timeout_ticks := 1; ignored_capacity_fields := [];
     sim_time_unix := sim_time_unix i; pair_delays_ms := ∅; receive_windows := ∅ |}.

Lemma ground_only_tick_errors_witness :
  ∃ e, allocate_ground_links in_no_delays = Raise e ∧ e ∈ tick_errors.
Proof.
  destruct (allocate_ground_links in_no_delays) as [r|e] eqn:E; [by vm_compute in E|].
  exists e. split; [exact eq_refl|].
  destruct (prepare in_no_delays) as [env|] eqn:Ep; [|by vm_compute in Ep].
  destruct (recover_teardowns env initial_state) as [st1|] eqn:E1;
    [|exfalso; clear E; vm_compute in Ep; injection Ep as <-; by vm_compute in E1].
  destruct (continue_links env st1) as [st2|] eqn:E2;
    [|exfalso; clear E; vm_compute in Ep; injection Ep as <-; vm_compute in E1;
      injection E1 as <-; by vm_compute in E2].
  apply (ground_only_tick_errors in_no_delays env st1 st2 e);
    [evaluated|by vm_compute
    |by apply prior_overlaps_none|assumption..].
Defined.

(** ** Receive windows *)

(** A terminal of a link. *)
Definition holds (gs_ids : gset string) (assoc : dict node_pair (Z * Z)) (t : terminal) : Prop :=
  ∃ p v g s, dict_get p assoc = Some v ∧ ground_and_satellite_ids gs_ids p = Ok (g, s) ∧
    (t = (g, v.1) ∨ t = (s, v.2)).

Lemma held_terminals_spec env st held :
  dict_wf (new_associations st) → held_terminals env st = Ok held →
  ∀ t, holds (ground_station_ids (inp env)) (new_associations st) t → t ∈ held.
Proof.
  intros Hwf H t (p & v & g & s & Hp & Hids & Ht). apply dict_get_in in Hp.
  revert Hp. revert H. unfold held_terminals.
  apply (foldM_prefix (λ pre held, (p, v) ∈ pre → t ∈ held)); [|by intros Hx; inversion Hx].
  intros pre [q [gi si]] post h h' _ IH H Hin. rbind H as [g' s'] Hi. injection H as <-.
  apply elem_of_app in Hin as [Hin|[= -> ->]%list_elem_of_singleton]; [set_solver|].
  unfold ids in Hi. rewrite Hids in Hi. injection Hi as <- <-. simpl in Ht. set_solver.
Qed.

(** a receive window left open for the next tick is never on a terminal the
    result gives to a link. *)
Theorem ground_windows_off_held_terminals i r ws t w :
  input_ok i → allocate_ground_links i = Ok r → r_receive_windows r = Some ws →
  ws !! t = Some w → ¬ holds (ground_station_ids i) (associations r) t.
Proof.
  intros Hi H Hws Ht Hh. destruct (allocate_Ok i r Hi H) as (env & st & Ha).
  destruct (al_windows _ _ _ _ Ha) as (ws' & How & E). rewrite Hws in E. injection E as <-.
  rewrite (al_associations _ _ _ _ Ha), <- (al_inp _ _ _ _ Ha) in Hh.
  unfold open_windows in How. rbind How as held Hheld.
  pose proof (held_terminals_spec env st held
    (ti_wf _ _ (rd_tables _ _ (al_recovered _ _ _ _ Ha))) Hheld t Hh) as Hin.
  assert (∀ t w, ws !! t = Some w → t ∉ held) as Hno; [|by eapply Hno].
  revert How. apply (foldM_inv (λ ws : ReceiveWindows, ∀ t w, ws !! t = Some w → t ∉ held)).
  - intros m [k h] m' _ IH Hm. destruct (_ || _) eqn:E; [by injection Hm as <-|].
    apply orb_false_iff in E as [_ E%bool_decide_eq_false].
    rbind Hm as o Ho. injection Hm as <-. destruct o as [w'|]; [|done].
    intros t' w0. rewrite lookup_insert_Some. intros [[<- _]|[_ ?]]; eauto.
  - intros t' w0 [_ [_ ?]]%map_lookup_filter_Some. done.
Qed.

(** The displaced link of the lowest tier leaves a window on its station. *)
Lemma ground_windows_off_held_terminals_witness :
  ∃ r, allocate_ground_links in_tiers = Ok r ∧
    ¬ holds (ground_station_ids in_tiers) (associations r) ("a", 0).
Proof.
  destruct (allocate_ground_links in_tiers) as [r|e] eqn:E; [|by vm_compute in E].
  exists r. split; [exact eq_refl|].
  destruct (r_receive_windows r) as [ws|] eqn:Ew;
    [|exfalso; vm_compute in E; injection E as <-; by vm_compute in Ew].
  destruct (ws !! ("a", 0)) as [w|] eqn:Et;
    [|exfalso; vm_compute in E; injection E as <-; vm_compute in Ew; injection Ew as <-;
      by vm_compute in Et].
  apply (ground_windows_off_held_terminals in_tiers r ws ("a", 0) w);
    [evaluated|assumption..].
Defined.
