(* ===== verification/GroundTicks.v ===== *)
(** * The allocator over a run of ticks

    The loop of the event stream feeds each tick the associations and the
    pending teardowns the previous one returned.  [reachable] is that loop, and
    [reachable_state_ok] its invariant: a link never shares a terminal, and
    every make-before-break overlap keeps both of its links. *)

From S2P Require Import Prelude.
From S2P Require Import PyFloat.
From S2P Require Import PyData.
From S2P Require Import GroundPolicy.
From S2P Require Import GroundTypes.
From S2P Require Import GroundAllocator.
From S2P Require Import GroundScenario.
From S2P Require Import GroundInv.
From S2P Require Import GroundPrepare.
From S2P Require Import GroundRecovery.
From S2P Require Import GroundPasses.
From S2P Require Import GroundOverlap.
From S2P Require Import GroundTheorems.
From stdpp Require Import base list strings gmap.
Local Open Scope Z_scope.

(** What one tick hands to the next. *)
Record TickState := {
  tick_associations : dict node_pair (Z * Z);
  tick_pending : MbbTeardownState;
  tick_windows : ReceiveWindows;
}.

Definition no_links : TickState :=
  {| tick_associations := []; tick_pending := ∅; tick_windows := ∅ |}.

Definition state_of (r : GroundAllocationResult) : TickState :=
  {| tick_associations := associations r; tick_pending := r_pending_teardowns r;
     tick_windows := default ∅ (r_receive_windows r) |}.

(** The runs of a session whose ground stations are [gs_ids]: any inputs, each
    continuing the state before it. *)
Inductive reachable (gs_ids : gset string) : TickState → Prop :=
| reach_start : reachable gs_ids no_links
| reach_tick s i r :
    reachable gs_ids s →
    ground_station_ids i = gs_ids → stations_named i = true →
    current_associations i = tick_associations s → pending_teardowns i = tick_pending s →
    receive_windows i = tick_windows s →
    allocate_ground_links i = Ok r →
    reachable gs_ids (state_of r).

(** No terminal twice. *)
Definition exclusive (gs_ids : gset string) (assoc : dict node_pair (Z * Z)) : Prop :=
  ∀ p q vp vq, dict_get p assoc = Some vp → dict_get q assoc = Some vq → p ≠ q →
    (∀ g, station_of gs_ids p = Some g → station_of gs_ids q = Some g → vp.1 ≠ vq.1) ∧
    (∀ s, satellite_of gs_ids p = Some s → satellite_of gs_ids q = Some s → vp.2 ≠ vq.2).

Record tick_ok (gs_ids : gset string) (s : TickState) : Prop := {
  tk_wf : dict_wf (tick_associations s);
  tk_exclusive : exclusive gs_ids (tick_associations s);
  tk_overlaps : overlaps_ok (station_of gs_ids) (tick_associations s) (tick_pending s);
}.

Lemma tables_exclusive env st :
  tables_inv env st → exclusive (ground_station_ids (inp env)) (new_associations st).
Proof.
  intros [_ _ Hg Hs] p q vp vq Hp Hq Hne. split; intros n Hn Hm E; apply Hne.
  - eapply (si_unique _ _ _ _ _ Hg); eauto.
  - eapply (si_unique _ _ _ _ _ Hs); eauto.
Qed.

Lemma tick_preserves gs_ids s i r :
  tick_ok gs_ids s → ground_station_ids i = gs_ids → stations_named i = true →
  current_associations i = tick_associations s → pending_teardowns i = tick_pending s →
  allocate_ground_links i = Ok r → tick_ok gs_ids (state_of r).
Proof.
  intros [Hwf _ Hov] <- Hn Ec Ep H. rewrite <- Ec, <- Ep in *.
  destruct (allocate_Ok i r (conj Hn Hwf) H) as (env & st & Ha).
  pose proof (al_inp _ _ _ _ Ha) as Ei. subst i.
  pose proof (rd_tables _ _ (al_recovered _ _ _ _ Ha)) as Ht.
  assert (overlaps env st) as Hov' by (by apply allocate_state_overlaps; [apply Ha|..|apply Ha]).
  unfold state_of. rewrite (al_associations _ _ _ _ Ha), (al_pending _ _ _ _ Ha).
  split; simpl; [apply Ht|by apply tables_exclusive|done].
Qed.

(** C6: in every state a run of ticks can reach, no terminal carries two links,
    and every pending teardown is an overlap of two held links of one station:
    the old link is held, its successor is held and not itself in teardown, and
    the station has no other overlap. *)
Theorem reachable_state_ok gs_ids s : reachable gs_ids s → tick_ok gs_ids s.
Proof.
  induction 1 as [|s i r _ IH Hg Hn Ec Ep _ H]; [|by eapply tick_preserves].
  split; simpl; [constructor|done|]. split; intros p; by rewrite lookup_empty.
Qed.

(** [sat-old] is acquired, then handed over to [sat-new] make-before-break. *)
Definition in_acquire : AllocInput :=
  scenario [gs_A [("sat-old", 40)] 2] [("sat-old", 1%nat); ("sat-new", 1%nat)]
    [] ∅ true "hard_release".

Definition overlap_state : TickState :=
  {| tick_associations := [(("gs-A", "sat-old"), (0, 0)); (("gs-A", "sat-new"), (1, 0))];
     tick_pending := {[("gs-A", "sat-old") :=
       {| start_step := 10; successor_pair := ("gs-A", "sat-new") |}]};
     tick_windows := ∅ |}.

Lemma overlap_reachable : reachable {["gs-A"]} overlap_state.
Proof.
  destruct (allocate_ground_links in_acquire) as [r1|] eqn:E1; [|by vm_compute in E1].
  destruct (allocate_ground_links (in_mbb 47)) as [r2|] eqn:E2; [|by vm_compute in E2].
  assert (state_of r2 = overlap_state) as <-.
  { clear E1. vm_compute in E2. by injection E2 as <-. }
  assert (tick_associations (state_of r1) = [(("gs-A", "sat-old"), (0, 0))] ∧
          tick_pending (state_of r1) = ∅ ∧ tick_windows (state_of r1) = ∅) as (H1 & H2 & H3).
  { clear E2. vm_compute in E1. by injection E1 as <-. }
  apply (reach_tick _ (state_of r1) (in_mbb 47)); [|done|by vm_compute|by rewrite H1|by rewrite H2
    |by rewrite H3|done].
  apply (reach_tick _ no_links in_acquire); [constructor|done|by vm_compute|done..].
Qed.

Lemma reachable_state_ok_witness : tick_ok {["gs-A"]} overlap_state.
Proof. exact (reachable_state_ok {["gs-A"]} overlap_state overlap_reachable). Defined.
