(* ===== verification/IslEngine.v ===== *)
(** * Inter-satellite links

    [services/ome/isl_engine.py] and [services/ome/visibility.py]: which
    assigned neighbour pairs are physically feasible this tick, and which of
    the feasible ones get a terminal on both satellites.

    The light-time solver and the attitude geometry are numerical code; what
    the engine reads of them is a [Direction] per direction of a pair (light
    time, occlusion, and the pointing angle, rate and latitude of each end), an
    argument of the model. *)

From S2P Require Import Prelude.
From S2P Require Import PyFloat.
From S2P Require Import PyData.
From stdpp Require Import base list strings gmap.
Local Open Scope Z_scope.

(** ** Data *)

Definition intra_plane_isl : string := "intra_plane_isl".
Definition cross_plane_isl : string := "cross_plane_isl".

Record NeighborAssignment := {
  na_interface : string;
  na_peer_node_id : string;
  na_link_type : string;
  na_priority : Z;
  na_long_delay : bool;
}.

Record IslTerminalConstraints := {
  tc_role : option string;
  tc_max_range_km : float;
  tc_max_tracking_rate_deg_s : float;
  tc_field_of_regard_deg : float;
  tc_terminal_type : string;
}.

Record IslLimits := {
  li_max_range_km : float;
  li_field_of_regard_deg : float;
  li_max_tracking_rate_deg_s : option float;
  li_polar_seam : bool;
}.

Abbreviation Vec3 := (float * float * float)%type.

(** The fields of [PropagatedState] the engine reads. *)
Record PropagatedState := {
  ps_central_body : string;
  ps_position_ecef_km : Vec3;
  ps_position_common_km : Vec3;
}.

(** One direction of a pair: a signal sent at the tick. *)
Record EndAngles := {
  off_horizontal_deg : float;
  rate_deg_s : float;
  latitude_deg : float;
}.
Record Direction := {
  light_time_s : float;
  blocked : bool;
  transmitter : EndAngles;
  receiver : EndAngles;
}.

(** [PairSignals]: both directions of the tick's pairs. *)
Abbreviation PairSignals := (gmap node_pair (Direction * Direction)).

Record IslFeasibilityResult := {
  if_pair : node_pair;
  if_link_type : string;
  if_feasible : bool;
  if_range_km : float;
  if_one_way_a_to_b_ms : float;
  if_one_way_b_to_a_ms : float;
  if_reject_reason : string;
  if_terminal_role_a : option string;
  if_terminal_role_b : option string;
  if_terminal_type : string;
  if_interface_a : string;
  if_interface_b : string;
  if_applied_max_range_km : float;
  if_applied_max_tracking_rate_deg_s : option float;
  if_applied_field_of_regard_deg : float;
}.

Record ScheduledIsl := {
  si_pair : node_pair;
  si_terminal_role_a : option string;
  si_terminal_role_b : option string;
  si_range_km : float;
  si_one_way_a_to_b_ms : float;
  si_one_way_b_to_a_ms : float;
  si_scheduled : bool;
  si_unscheduled_reason : option string;
}.

(** ** Feasibility *)

Definition role_allows_link (role : option string) (link_type : string) : bool :=
  match role with
  | None => true
  | Some role =>
      if bool_decide (link_type = intra_plane_isl) then bool_decide (role = "intra-plane")
      else if bool_decide (link_type = cross_plane_isl) then bool_decide (role = "cross-plane")
      else true
  end.

(** The positions of [_state_vectors]; the velocities are not used here. *)
Definition state_vectors (a b : PropagatedState) : Vec3 * Vec3 :=
  if bool_decide (ps_central_body a = ps_central_body b)
  then (ps_position_ecef_km a, ps_position_ecef_km b)
  else (ps_position_common_km a, ps_position_common_km b).

Definition compute_range_km (a b : Vec3) : float :=
  let '(ax, ay, az) := a in
  let '(bx, by_, bz) := b in
  let dx := fsub ax bx in
  let dy := fsub ay by_ in
  let dz := fsub az bz in
  fsqrt (fadd (fadd (fmul dx dx) (fmul dy dy)) (fmul dz dz)).

(** [SPEED_OF_LIGHT_KM_S]. *)
Definition speed_of_light_km_s : float := Eval vm_compute in float_of_ratio 299792458 1000.

(** [isl_reasons] on one direction: the first failing constraint, as
    [np.select] picks it. *)
Definition isl_reason (d : Direction) (limits : IslLimits) (latitude_threshold_deg : float) :
    string :=
  let path_km := fmul (light_time_s d) speed_of_light_km_s in
  let field_of_regard := li_field_of_regard_deg limits in
  let half := fdiv field_of_regard f_2 in
  let max_rate := default f_inf (li_max_tracking_rate_deg_s limits) in
  let outside_regard := flt field_of_regard f_360 &&
    (flt half (off_horizontal_deg (transmitter d)) || flt half (off_horizontal_deg (receiver d))) in
  let tracking := flt max_rate (rate_deg_s (transmitter d)) || flt max_rate (rate_deg_s (receiver d)) in
  let polar := li_polar_seam limits &&
    (flt latitude_threshold_deg (fabs (latitude_deg (transmitter d)))
     || flt latitude_threshold_deg (fabs (latitude_deg (receiver d)))) in
  if blocked d then "los_blocked"
  else if flt (li_max_range_km limits) path_km then "range_exceeded"
  else if outside_regard then "field_of_regard"
  else if tracking then "tracking_exceeded"
  else if polar then "polar_seam"
  else "ok".

(** [signals.directions(pairs)]. *)
Definition directions (signals : PairSignals) (pairs : list node_pair) :
    result (list (Direction * Direction)) :=
  mapM_r (λ p, or_raise (signals !! p) (ValueError "pair has no signals this tick")) pairs.

(** [isl_pair_reasons]: the first failure, a to b before b to a. *)
Definition isl_pair_reasons (signals : PairSignals) (latitude_threshold_deg : float)
    (pairs : list node_pair) (limits : list IslLimits) : result (list string) :=
  let! dirs := directions signals pairs in
  Ok (zip_with (λ '(forward, backward) limit,
        let ahead := isl_reason forward limit latitude_threshold_deg in
        if negb (bool_decide (ahead = "ok")) then ahead
        else isl_reason backward limit latitude_threshold_deg) dirs limits).

(** [_Candidate] and the [common] record of a pair that passed the
    structural checks. *)
Record IslCandidate := {
  ic_pair : node_pair;
  ic_link_type : string;
  ic_constraints_a : IslTerminalConstraints;
  ic_constraints_b : IslTerminalConstraints;
  ic_interface_a : string;
  ic_interface_b : string;
  ic_range_km : float;
  ic_limits : IslLimits;
  ic_applied_tracking_rate : option float;
}.

(** [_result]. *)
Definition make_result (c : IslCandidate) (one_way_ms : float * float) (reason terminal_type : string) :
    IslFeasibilityResult :=
  {| if_pair := ic_pair c; if_link_type := ic_link_type c;
     if_feasible := bool_decide (reason = "ok");
     if_range_km := ic_range_km c;
     if_one_way_a_to_b_ms := one_way_ms.1; if_one_way_b_to_a_ms := one_way_ms.2;
     if_reject_reason := reason;
     if_terminal_role_a := tc_role (ic_constraints_a c);
     if_terminal_role_b := tc_role (ic_constraints_b c);
     if_terminal_type := terminal_type;
     if_interface_a := ic_interface_a c; if_interface_b := ic_interface_b c;
     if_applied_max_range_km := li_max_range_km (ic_limits c);
     if_applied_max_tracking_rate_deg_s := ic_applied_tracking_rate c;
     if_applied_field_of_regard_deg := li_field_of_regard_deg (ic_limits c) |}.

Record IslInput := {
  node_order : list string;
  sat_states : gmap string PropagatedState;
  by_node : gmap string (list NeighborAssignment);
  terminal_constraints : gmap string (gmap string IslTerminalConstraints);
  body_frames : gset string;
  polar_seam_enabled : bool;
  latitude_threshold_deg : float;
  signals : PairSignals;
}.

Section Feasibility.
Context (i : IslInput).

Definition assignments (node : string) : list NeighborAssignment := default [] (by_node i !! node).

Definition constraints_of (node interface : string) : option IslTerminalConstraints :=
  default ∅ (terminal_constraints i !! node) !! interface.

(** The candidate of two assignments whose constraints are known. *)
Definition candidate_of (p : node_pair) (state_a state_b : PropagatedState)
    (a b : NeighborAssignment) (ca cb : IslTerminalConstraints) : IslCandidate :=
  let max_tracking_rate := fmin (tc_max_tracking_rate_deg_s ca) (tc_max_tracking_rate_deg_s cb) in
  let applied := if bool_decide (na_link_type a = cross_plane_isl)
                 then Some max_tracking_rate else None in
  let '(pos_a, pos_b) := state_vectors state_a state_b in
  {| ic_pair := p; ic_link_type := na_link_type a; ic_constraints_a := ca;
     ic_constraints_b := cb; ic_interface_a := na_interface a; ic_interface_b := na_interface b;
     ic_range_km := compute_range_km pos_a pos_b;
     ic_limits :=
       {| li_max_range_km := fmin (tc_max_range_km ca) (tc_max_range_km cb);
          li_field_of_regard_deg := fmin (tc_field_of_regard_deg ca) (tc_field_of_regard_deg cb);
          li_max_tracking_rate_deg_s := applied;
          li_polar_seam := polar_seam_enabled i && bool_decide (na_link_type a = cross_plane_isl)
            && bool_decide (ps_central_body state_a = ps_central_body state_b) |};
     ic_applied_tracking_rate := applied |}.

(** The structural rejection of a candidate, with the terminal type it
    reports. *)
Definition structural_reject (c : IslCandidate) : option (string * string) :=
  let ta := tc_terminal_type (ic_constraints_a c) in
  let tb := tc_terminal_type (ic_constraints_b c) in
  if negb (bool_decide (ta = tb)) then Some ("terminal_type_mismatch", ta +:+ "/" +:+ tb)
  else if negb (role_allows_link (tc_role (ic_constraints_a c)) (ic_link_type c))
          || negb (role_allows_link (tc_role (ic_constraints_b c)) (ic_link_type c))
  then Some ("terminal_role_mismatch", ta)
  else None.

(** The candidates and the structurally rejected pairs, so far. *)
Record IslScan := {
  sc_candidates : list IslCandidate;
  sc_rejected : list (IslCandidate * string * string);
}.

(** One assignment of one node. *)
Definition scan_assignment (node_id : string) (state_a : PropagatedState) (acc : IslScan)
    (a : NeighborAssignment) : result IslScan :=
  let peer_id := na_peer_node_id a in
  let! state_b := or_raise (sat_states i !! peer_id)
    (ValueError "ISL feasibility missing propagated state for endpoint") in
  let p := ordered_pair node_id peer_id in
  if negb (bool_decide (p.1 = node_id)) then Ok acc else
  let! b := or_raise (find_first (λ x, bool_decide (na_peer_node_id x = node_id))
                        (assignments peer_id))
    (ValueError "Missing reciprocal ISL assignment") in
  let missing := ValueError "Missing terminal constraints" in
  let! ca := or_raise (constraints_of node_id (na_interface a)) missing in
  let! cb := or_raise (constraints_of peer_id (na_interface b)) missing in
  raise_if negb (bool_decide (ps_central_body state_a ∈ body_frames i))
           || negb (bool_decide (ps_central_body state_b ∈ body_frames i))
    with ValueError "ISL feasibility is missing resolved body primitive facts" ;;
  let c := candidate_of p state_a state_b a b ca cb in
  match structural_reject c with
  | Some (reason, terminal_type) =>
      Ok {| sc_candidates := sc_candidates acc;
            sc_rejected := sc_rejected acc ++ [(c, reason, terminal_type)] |}
  | None => Ok {| sc_candidates := sc_candidates acc ++ [c]; sc_rejected := sc_rejected acc |}
  end.

Definition scan_node (acc : IslScan) (node_id : string) : result IslScan :=
  let! state_a := or_raise (sat_states i !! node_id)
    (ValueError "ISL feasibility missing propagated state for endpoint") in
  foldM (scan_assignment node_id state_a) acc (assignments node_id).

Definition scan : result IslScan :=
  foldM scan_node {| sc_candidates := []; sc_rejected := [] |} (node_order i).

Definition one_way_ms (d : Direction * Direction) : float * float :=
  (fmul (light_time_s d.1) f_1000, fmul (light_time_s d.2) f_1000).

Definition evaluate_isl_feasibility : result (dict node_pair IslFeasibilityResult) :=
  let! s := scan in
  let all_pairs := map (λ '(c, _, _), ic_pair c) (sc_rejected s)
                   ++ map ic_pair (sc_candidates s) in
  if bool_decide (all_pairs = []) then Ok [] else
  let! dirs := directions (signals i) all_pairs in
  let one_way : dict node_pair (float * float) :=
    dict_of (zip_with (λ p d, (p, one_way_ms d)) all_pairs dirs) in
  let! rejected := mapM_r (λ '(c, reason, terminal_type),
      let! ow := or_raise (dict_get (ic_pair c) one_way) (KeyError "one_way") in
      Ok (ic_pair c, make_result c ow reason terminal_type)) (sc_rejected s) in
  let! reasons := isl_pair_reasons (signals i) (latitude_threshold_deg i)
    (map ic_pair (sc_candidates s)) (map ic_limits (sc_candidates s)) in
  let! feasible := mapM_r (λ '(c, reason),
      let! ow := or_raise (dict_get (ic_pair c) one_way) (KeyError "one_way") in
      Ok (ic_pair c, make_result c ow reason (tc_terminal_type (ic_constraints_a c))))
    (zip (sc_candidates s) reasons) in
  Ok (dict_of (rejected ++ feasible)).
End Feasibility.

(** ** Scheduling *)

Record ScheduledLink := {
  sl_node_a : string;
  sl_node_b : string;
  sl_scheduled : bool;
  sl_range_km : float;
}.

(** A feasible link as one endpoint sees it: peer, priority, range. *)
Abbreviation feasible_isl := (string * Z * float)%type.

Definition schedule_isl_terminals (node_id : string) (feasible_isls : list feasible_isl)
    (terminal_count : Z) : list ScheduledLink :=
  imap (λ idx '(peer_id, _, range_km),
      {| sl_node_a := node_id; sl_node_b := peer_id;
         sl_scheduled := Z.of_nat idx <? terminal_count; sl_range_km := range_km |})
    (sorted (λ x y, x.1.2 <? y.1.2) feasible_isls).

Abbreviation IslSchedules := (dict string (list ScheduledLink)).

(** The directed links scheduled by their first node. *)
Definition scheduled_directed (schedules : IslSchedules) : gset node_pair :=
  list_to_set (concat (map (λ '(_, links),
    omap (λ l, if sl_scheduled l then Some (sl_node_a l, sl_node_b l) else None) links) schedules)).

Definition to_unschedule (scheduled_pairs : gset node_pair) : gset node_pair :=
  filter (λ p, (p.2, p.1) ∉ scheduled_pairs) scheduled_pairs.

Definition unschedule (drop : gset node_pair) (l : ScheduledLink) : ScheduledLink :=
  if bool_decide ((sl_node_a l, sl_node_b l) ∈ drop)
  then {| sl_node_a := sl_node_a l; sl_node_b := sl_node_b l; sl_scheduled := false;
          sl_range_km := sl_range_km l |}
  else l.

Definition enforce_symmetric_scheduling (all_schedules : IslSchedules) : IslSchedules :=
  let drop := to_unschedule (scheduled_directed all_schedules) in
  if bool_decide (drop = ∅) then all_schedules else
  map (λ '(node_id, links), (node_id, map (unschedule drop) links)) all_schedules.

Section Schedule.
Context (by_node : gmap string (list NeighborAssignment)).

(** One direction of a feasible pair: the node's assignment to its peer, when
    it has one, adds the link to the node's list. *)
Definition add_feasible (node peer : string) (range_km : float)
    (m : dict string (list feasible_isl)) : dict string (list feasible_isl) :=
  match find_first (λ a, bool_decide (na_peer_node_id a = peer)) (default [] (by_node !! node)) with
  | Some a => dict_set node (default [] (dict_get node m) ++ [(peer, na_priority a, range_km)]) m
  | None => m
  end.

Definition add_pair (m : dict string (list feasible_isl))
    (x : node_pair * IslFeasibilityResult) : dict string (list feasible_isl) :=
  let '((node_a, node_b), r) := x in
  if if_feasible r then
    add_feasible node_b node_a (if_range_km r) (add_feasible node_a node_b (if_range_km r) m)
  else m.

Definition node_feasible_isls (feasibility : dict node_pair IslFeasibilityResult) :
    dict string (list feasible_isl) := fold_left add_pair feasibility [].

(** Every node's own choice. *)
Definition node_schedules (terminal_counts : gmap string Z)
    (feasible : dict string (list feasible_isl)) : result IslSchedules :=
  mapM_r (λ '(node_id, links),
    let! count := or_raise (terminal_counts !! node_id) (KeyError "terminal_counts") in
    Ok (node_id, schedule_isl_terminals node_id links count)) feasible.

(** The conjunction of the entries of each pair. *)
Definition add_link (m : gmap node_pair bool) (l : ScheduledLink) : gmap node_pair bool :=
  let p := ordered_pair (sl_node_a l) (sl_node_b l) in
  match m !! p with
  | None => <[p := sl_scheduled l]> m
  | Some b => <[p := b && sl_scheduled l]> m
  end.

Definition scheduled_by_pair (schedules : IslSchedules) : gmap node_pair bool :=
  fold_left (λ m '(_, links), fold_left add_link links m) schedules ∅.

Definition scheduled_isl (by_pair : gmap node_pair bool) (p : node_pair)
    (r : IslFeasibilityResult) : ScheduledIsl :=
  let is_scheduled := if if_feasible r then default false (by_pair !! p) else false in
  {| si_pair := p; si_terminal_role_a := if_terminal_role_a r;
     si_terminal_role_b := if_terminal_role_b r; si_range_km := if_range_km r;
     si_one_way_a_to_b_ms := if_one_way_a_to_b_ms r;
     si_one_way_b_to_a_ms := if_one_way_b_to_a_ms r;
     si_scheduled := is_scheduled;
     si_unscheduled_reason := if is_scheduled then None
       else if if_feasible r then Some "capacity" else Some (if_reject_reason r) |}.

Definition schedule_isl_links (terminal_counts : gmap string Z)
    (feasibility : dict node_pair IslFeasibilityResult) :
    result (dict node_pair ScheduledIsl) :=
  let! own := node_schedules terminal_counts (node_feasible_isls feasibility) in
  let by_pair := scheduled_by_pair (enforce_symmetric_scheduling own) in
  Ok (map (λ '(p, r), (p, scheduled_isl by_pair p r)) feasibility).
End Schedule.
