(* ===== verification/IslTheorems.v ===== *)
(** * What the inter-satellite link scheduler promises

    Every node keeps its best-priority links within its terminals, a link is
    scheduled only when both of its nodes keep it, and so no node ever exceeds
    its terminals. *)

From Stdlib Require Import Sorted.
From S2P Require Import Prelude.
From S2P Require Import PyFloat.
From S2P Require Import PyData.
From S2P Require Import IslEngine.
From stdpp Require Import base list strings gmap.
Local Open Scope Z_scope.

(** ** One node's choice *)

Definition link_of (node : string) (scheduled : bool) (x : feasible_isl) : ScheduledLink :=
  {| sl_node_a := node; sl_node_b := x.1.1; sl_scheduled := scheduled; sl_range_km := x.2 |}.

Lemma imap_below {A B} (f : bool → A → B) (l : list A) (k : Z) (n : nat) :
  imap (λ idx x, f (Z.of_nat (n + idx) <? k) x) l =
  map (f true) (take (Z.to_nat (k - Z.of_nat n)) l) ++
  map (f false) (drop (Z.to_nat (k - Z.of_nat n)) l).
Proof.
  revert n. induction l as [|x l IH]; intros n; simpl; [by rewrite take_nil, drop_nil|].
  replace (n + 0)%nat with n by lia.
  rewrite (imap_ext _ (λ idx y, f (Z.of_nat (S n + idx) <? k) y)) by (intros; simpl; do 3 f_equal; lia).
  rewrite (IH (S n)). destruct (Z.of_nat n <? k) eqn:E.
  - replace (Z.to_nat (k - Z.of_nat n)) with (S (Z.to_nat (k - Z.of_nat (S n)))) by lia. done.
  - replace (Z.to_nat (k - Z.of_nat n)) with 0%nat by lia.
    replace (Z.to_nat (k - Z.of_nat (S n))) with 0%nat by lia. done.
Qed.

Lemma schedule_isl_terminals_split node f k :
  schedule_isl_terminals node f k =
  map (link_of node true) (take (Z.to_nat k) (sorted (λ x y, x.1.2 <? y.1.2) f)) ++
  map (link_of node false) (drop (Z.to_nat k) (sorted (λ x y, x.1.2 <? y.1.2) f)).
Proof.
  unfold schedule_isl_terminals.
  rewrite (imap_ext _ (λ idx x, link_of node (Z.of_nat (0 + idx) <? k) x))
    by (intros ? [[? ?] ?] _; done).
  rewrite (imap_below (λ b x, link_of node b x)). by rewrite Z.sub_0_r.
Qed.

#[local] Instance priority_swo :
  StrictWeakOn (λ x y : feasible_isl, x.1.2 <? y.1.2) (λ _, True).
Proof. split; intros; lia. Qed.

(** a node keeps as many links as it has terminals, and every link it keeps
    has a priority no worse than every link it leaves. *)
Theorem isl_node_choice node f k :
  ∃ kept left, f ≡ₚ kept ++ left ∧ length kept = Nat.min (Z.to_nat k) (length f) ∧
    (∀ x y, x ∈ kept → y ∈ left → x.1.2 ≤ y.1.2) ∧
    schedule_isl_terminals node f k = map (link_of node true) kept ++ map (link_of node false) left.
Proof.
  set (s := sorted (λ x y : feasible_isl, x.1.2 <? y.1.2) f).
  exists (take (Z.to_nat k) s), (drop (Z.to_nat k) s). split_and!.
  - rewrite take_drop. unfold s. by rewrite sorted_perm.
  - rewrite length_take. unfold s. by rewrite (Permutation_length (sorted_perm _ f)).
  - assert (StronglySorted (λ x y : feasible_isl, (y.1.2 <? x.1.2) = false) s) as Hs.
    { apply (sorted_sorted _ (λ _, True)). by apply Forall_forall. }
    rewrite <- (take_drop (Z.to_nat k) s) in Hs. intros x y Hx Hy.
    induction (take (Z.to_nat k) s) as [|z l IH]; [by inversion Hx|]. simpl in Hs.
    inversion Hs as [|? ? Hs' HF]; subst. apply elem_of_cons in Hx as [->|Hx]; [|by apply IH].
    rewrite Forall_forall in HF. specialize (HF y). rewrite elem_of_app in HF.
    specialize (HF (or_intror Hy)). lia.
  - apply schedule_isl_terminals_split.
Qed.

Lemma kept_bound node f k :
  (length (List.filter sl_scheduled (schedule_isl_terminals node f k)) ≤ Z.to_nat k)%nat.
Proof.
  rewrite schedule_isl_terminals_split, List.filter_app, length_app.
  set (s := sorted _ f).
  assert (∀ l, List.filter sl_scheduled (map (link_of node false) l) = []) as Hf
    by (induction l; done).
  rewrite Hf. pose proof (length_filter_bool_le sl_scheduled
    (map (link_of node true) (take (Z.to_nat k) s))) as H.
  rewrite length_map, length_take in H. simpl. lia.
Qed.

Lemma schedule_isl_node node f k l : l ∈ schedule_isl_terminals node f k → sl_node_a l = node.
Proof.
  rewrite schedule_isl_terminals_split, elem_of_app, !list_elem_of_fmap.
  by intros [(x & -> & _)|(x & -> & _)].
Qed.

(** ** Symmetric enforcement *)

Lemma elem_of_scheduled_directed schedules p :
  p ∈ scheduled_directed schedules ↔
  ∃ node links l, (node, links) ∈ schedules ∧ l ∈ links ∧ sl_scheduled l = true ∧
    p = (sl_node_a l, sl_node_b l).
Proof.
  unfold scheduled_directed. rewrite elem_of_list_to_set, list_elem_of_In, in_concat.
  setoid_rewrite <- list_elem_of_In. split.
  - intros (x & Hx & Hp). apply list_elem_of_fmap in Hx as ([node links] & -> & Hn).
    apply list_elem_of_omap in Hp as (l & Hl & E). destruct (sl_scheduled l) eqn:Es; [|done].
    injection E as <-. eauto 8.
  - intros (node & links & l & Hn & Hl & Hs & ->).
    eexists. split; [apply list_elem_of_fmap; by exists (node, links)|]. simpl.
    apply list_elem_of_omap. exists l. by rewrite Hs.
Qed.

Lemma unschedule_scheduled drop l :
  sl_scheduled (unschedule drop l) = true ↔
  sl_scheduled l = true ∧ (sl_node_a l, sl_node_b l) ∉ drop.
Proof. unfold unschedule. case_bool_decide; simpl; naive_solver. Qed.

Lemma unschedule_ends drop l :
  sl_node_a (unschedule drop l) = sl_node_a l ∧ sl_node_b (unschedule drop l) = sl_node_b l.
Proof. unfold unschedule. by case_bool_decide. Qed.

(** The surviving directed links are those scheduled both ways. *)
Lemma enforce_scheduled schedules p :
  p ∈ scheduled_directed (enforce_symmetric_scheduling schedules) ↔
  p ∈ scheduled_directed schedules ∧ (p.2, p.1) ∈ scheduled_directed schedules.
Proof.
  unfold enforce_symmetric_scheduling.
  set (drop := to_unschedule (scheduled_directed schedules)).
  assert (∀ q, q ∈ drop ↔ q ∈ scheduled_directed schedules ∧
            (q.2, q.1) ∉ scheduled_directed schedules) as Hdrop
    by (intros q; unfold drop, to_unschedule; rewrite elem_of_filter; tauto).
  case_bool_decide as E.
  - split; [|by intros [? _]]. intros Hp. split; [done|].
    destruct (decide ((p.2, p.1) ∈ scheduled_directed schedules)); [done|].
    assert (p ∈ drop) as Hin by (by apply Hdrop). rewrite E in Hin. set_solver.
  - rewrite (elem_of_scheduled_directed (map _ _)). split.
    + intros (node & links & l & Hn & Hl & Hs & ->).
      apply list_elem_of_fmap in Hn as ([node' links'] & [= -> ->] & Hn).
      apply list_elem_of_fmap in Hl as (l' & -> & Hl).
      apply unschedule_scheduled in Hs as [Hs Hout].
      destruct (unschedule_ends drop l') as [-> ->].
      assert ((sl_node_a l', sl_node_b l') ∈ scheduled_directed schedules) as Hin
        by (apply elem_of_scheduled_directed; eauto 8).
      split; [done|]. destruct (decide ((sl_node_b l', sl_node_a l') ∈ scheduled_directed schedules));
        [done|]. exfalso. by apply Hout, Hdrop.
    + intros [Hp Hrev]. apply elem_of_scheduled_directed in Hp as (node & links & l & Hn & Hl & Hs & ->).
      exists node, (map (unschedule drop) links), (unschedule drop l).
      destruct (unschedule_ends drop l) as [-> ->]. split_and!; try done.
      * apply list_elem_of_fmap. by exists (node, links).
      * apply list_elem_of_fmap. eauto.
      * apply unschedule_scheduled. split; [done|]. rewrite Hdrop. by intros [_ ?].
Qed.

(** after the symmetric enforcement a link is scheduled by one end exactly
    when the other end schedules it too, and exactly the links both ends chose
    survive. *)
Theorem isl_symmetric schedules a b :
  ((a, b) ∈ scheduled_directed (enforce_symmetric_scheduling schedules) ↔
   (b, a) ∈ scheduled_directed (enforce_symmetric_scheduling schedules)) ∧
  ((a, b) ∈ scheduled_directed (enforce_symmetric_scheduling schedules) ↔
   (a, b) ∈ scheduled_directed schedules ∧ (b, a) ∈ scheduled_directed schedules).
Proof. rewrite !enforce_scheduled. simpl. tauto. Qed.

(** ** The pairs *)

Definition pair_of_link (l : ScheduledLink) : node_pair := ordered_pair (sl_node_a l) (sl_node_b l).

Lemma add_links_true links m p :
  fold_left add_link links m !! p = Some true ↔
  (m !! p = Some true ∨ (m !! p = None ∧ ∃ l, l ∈ links ∧ pair_of_link l = p)) ∧
  (∀ l, l ∈ links → pair_of_link l = p → sl_scheduled l = true).
Proof.
  revert m. induction links as [|l links IH]; intros m; simpl.
  { split; [intros H; split; [by left|intros l Hl; inversion Hl]|].
    intros [[?|[_ (l & Hl & _)]] _]; [done|inversion Hl]. }
  rewrite IH. setoid_rewrite elem_of_cons. unfold add_link. fold (pair_of_link l).
  destruct (decide (pair_of_link l = p)) as [E0|Hne].
  - rewrite E0. destruct (m !! p) as [b|] eqn:Em; rewrite lookup_insert_eq.
    + split.
      * intros [[[= E]|[? _]] Hall]; [|done]. apply andb_true_iff in E as [-> Hl].
        split; [by left|]. intros l' [->|?] ?; auto.
      * intros [[[= ->]|[? _]] Hall]; [|done]. split; [left|auto].
        by rewrite (Hall l (or_introl eq_refl) E0).
    + split.
      * intros [[[= E]|[? _]] Hall]; [|done]. split; [right; split; [done|]; exists l; auto|].
        intros l' [->|?] ?; auto.
      * intros [_ Hall]. split; [left; rewrite (Hall l); auto|auto].
  - assert (∀ v, <[pair_of_link l := v]> m !! p = m !! p) as Hm
      by (intros; by apply lookup_insert_ne).
    destruct (m !! pair_of_link l); rewrite !Hm; naive_solver.
Qed.

Lemma scheduled_by_pair_flat (schedules : IslSchedules) m :
  fold_left (λ m '(_, links), fold_left add_link links m) schedules m =
  fold_left add_link (concat (map snd schedules)) m.
Proof.
  revert m. induction schedules as [|[n links] s IH]; intros m; simpl; [done|].
  by rewrite IH, fold_left_app.
Qed.

Lemma elem_of_concat_snd {A} (s : dict string (list A)) x :
  x ∈ concat (map snd s) ↔ ∃ n l, (n, l) ∈ s ∧ x ∈ l.
Proof.
  rewrite list_elem_of_In, in_concat. setoid_rewrite <- list_elem_of_In. split.
  - intros (l & Hl & Hx). apply list_elem_of_fmap in Hl as ([n l'] & -> & Hn). eauto.
  - intros (n & l & Hn & Hx). exists l. split; [|done]. apply list_elem_of_fmap. by exists (n, l).
Qed.

(** A scheduled pair is scheduled by both of its ends. *)
Lemma scheduled_pair_both own p :
  scheduled_by_pair (enforce_symmetric_scheduling own) !! p = Some true →
  ∃ a b, p = ordered_pair a b ∧ (a, b) ∈ scheduled_directed own ∧ (b, a) ∈ scheduled_directed own.
Proof.
  unfold scheduled_by_pair. rewrite scheduled_by_pair_flat, add_links_true.
  intros [[H|[_ (l & Hl & <-)]] Hall]; [by rewrite lookup_empty in H|].
  pose proof (Hall l Hl eq_refl) as Hs. apply elem_of_concat_snd in Hl as (n & links & Hn & Hl).
  exists (sl_node_a l), (sl_node_b l). split; [done|].
  apply (enforce_scheduled own (sl_node_a l, sl_node_b l)). apply elem_of_scheduled_directed. eauto 8.
Qed.

(** The directed links of a node come from its own schedule. *)
Lemma node_schedules_spec counts feasible own n links :
  node_schedules counts feasible = Ok own → (n, links) ∈ own →
  ∃ f k, (n, f) ∈ feasible ∧ counts !! n = Some k ∧ links = schedule_isl_terminals n f k.
Proof.
  unfold node_schedules. intros HF Hn. apply mapM_r_Forall2 in HF.
  apply list_elem_of_lookup in Hn as [j Hj].
  destruct (Forall2_lookup_r _ _ _ _ _ HF Hj) as ([n' f] & Hf & H).
  rbind H as k Hk. injection H as <- <-. apply list_elem_of_lookup_2 in Hf. eauto 6.
Qed.

Lemma add_feasible_wf bn n q x m : dict_wf m → dict_wf (add_feasible bn n q x m).
Proof. intros Hm. unfold add_feasible. destruct (find_first _ _); [by apply dict_set_wf|done]. Qed.

Lemma node_feasible_wf bn feas : dict_wf (node_feasible_isls bn feas).
Proof.
  unfold node_feasible_isls.
  assert (∀ m, dict_wf m → dict_wf (fold_left (add_pair bn) feas m)) as H; [|apply H; constructor].
  induction feas as [|[[a b] r] feas IH]; intros m Hm; simpl; [done|]. apply IH.
  destruct (if_feasible r); [|done]. by apply add_feasible_wf, add_feasible_wf.
Qed.

Definition touches (n : string) (p : node_pair) : bool :=
  bool_decide (p.1 = n) || bool_decide (p.2 = n).
Definition other_end (n : string) (p : node_pair) : string :=
  if bool_decide (p.1 = n) then p.2 else p.1.

(** The pairs of a result that use a terminal of node [n]. *)
Definition scheduled_at (n : string) (out : dict node_pair ScheduledIsl) : list node_pair :=
  map fst (List.filter (λ x, si_scheduled x.2 && touches n x.1) out).

(** The pairs are canonical, each once. *)
Definition canonical_pairs {A} (feas : dict node_pair A) : Prop :=
  dict_wf feas ∧ Forall (λ x, str_lt x.1.1 x.1.2 = true) feas.

#[global] Instance canonical_pairs_dec {A} (feas : dict node_pair A) : Decision (canonical_pairs feas).
Proof. unfold canonical_pairs, dict_wf. apply _. Defined.

Lemma ordered_pair_ends a b n :
  touches n (ordered_pair a b) = true →
  (n = a ∧ other_end n (ordered_pair a b) = b) ∨ (n = b ∧ other_end n (ordered_pair a b) = a).
Proof.
  unfold touches, other_end, ordered_pair. destruct (str_lt b a); simpl;
    repeat case_bool_decide; simpl; naive_solver.
Qed.

(** Distinct canonical pairs of [n] have distinct other ends. *)
Lemma other_end_inj n p q :
  str_lt p.1 p.2 = true → str_lt q.1 q.2 = true → touches n p = true → touches n q = true →
  other_end n p = other_end n q → p = q.
Proof.
  destruct p as [a b], q as [c d]. unfold touches, other_end. simpl. intros Hp Hq.
  repeat case_bool_decide; subst; simpl; try done; intros _ _; try congruence; intros ->.
  - rewrite (st_asym str_lt _ _ Hp) in Hq. done.
  - rewrite (st_asym str_lt _ _ Hp) in Hq. done.
Qed.

Lemma other_ends_nodup n (l : list node_pair) :
  NoDup l → Forall (λ p, str_lt p.1 p.2 = true ∧ touches n p = true) l →
  NoDup (map (other_end n) l).
Proof.
  induction l as [|p l IH]; intros Hnd HF; simpl; [constructor|].
  apply NoDup_cons in Hnd as [Hp Hnd]. apply Forall_cons in HF as [[Hpl Hpt] HF].
  constructor; [|by apply IH]. intros (q & E & Hq)%list_elem_of_fmap. apply Hp.
  rewrite Forall_forall in HF. destruct (HF q Hq). by rewrite (other_end_inj n p q).
Qed.

(** The peers node [n] keeps in its own schedule. *)
Lemma own_choice_bound bn feas counts own n k :
  node_schedules counts (node_feasible_isls bn feas) = Ok own → counts !! n = Some k →
  ∃ peers : list string, (length peers ≤ Z.to_nat k)%nat ∧
    ∀ b, (n, b) ∈ scheduled_directed own → b ∈ peers.
Proof.
  intros Hown Hk. destruct (dict_get n (node_feasible_isls bn feas)) as [f|] eqn:Ef.
  - exists (map sl_node_b (List.filter sl_scheduled (schedule_isl_terminals n f k))).
    rewrite length_map. split; [apply kept_bound|].
    intros b (n' & links & l & Hn & Hl & Hs & [= -> ->])%elem_of_scheduled_directed.
    apply (node_schedules_spec _ _ _ _ _ Hown) in Hn as (f' & k' & Hf' & Hk' & ->).
    pose proof (schedule_isl_node _ _ _ _ Hl) as <-.
    rewrite Hk in Hk'. injection Hk' as <-.
    apply dict_in_get in Hf'; [|apply node_feasible_wf]. rewrite Ef in Hf'. injection Hf' as <-.
    apply list_elem_of_fmap. exists l. split; [done|]. by apply in_filter_bool.
  - exists []. split; [simpl; lia|].
    intros b (n' & links & l & Hn & Hl & Hs & [= -> ->])%elem_of_scheduled_directed.
    apply (node_schedules_spec _ _ _ _ _ Hown) in Hn as (f' & k' & Hf' & Hk' & ->).
    pose proof (schedule_isl_node _ _ _ _ Hl) as <-.
    apply dict_in_get in Hf'; [congruence|apply node_feasible_wf].
Qed.

(** C7: the scheduled links of a result never use more terminals of a
    satellite than it has. *)
Theorem isl_terminal_capacity bn counts feas out n k :
  canonical_pairs feas → schedule_isl_links bn counts feas = Ok out → counts !! n = Some k →
  (length (scheduled_at n out) ≤ Z.to_nat k)%nat.
Proof.
  intros [Hwf Hlt] H Hk. unfold schedule_isl_links in H. rbind H as own Hown. injection H as <-.
  destruct (own_choice_bound _ _ _ _ _ _ Hown Hk) as (peers & Hlen & Hpeers).
  set (out := map _ feas). set (l := scheduled_at n out).
  assert (∀ p, p ∈ l → str_lt p.1 p.2 = true ∧ touches n p = true ∧
            scheduled_by_pair (enforce_symmetric_scheduling own) !! p = Some true) as Hl.
  { intros p (x & -> & Hx)%list_elem_of_fmap. apply in_filter_bool in Hx as [Hx Hsel].
    apply list_elem_of_fmap in Hx as ([p r] & -> & Hr). simpl in *.
    apply andb_true_iff in Hsel as [Hs Ht]. rewrite Forall_forall in Hlt.
    specialize (Hlt _ Hr). split_and!; try done.
    destruct (if_feasible r); [|done].
    by destruct (scheduled_by_pair _ !! p) as [[]|]. }
  assert (NoDup l) as Hnd.
  { apply NoDup_map_filter. unfold out. rewrite map_map. unfold dict_wf, dict_keys in Hwf.
    by replace (map _ feas) with (map fst feas) by (apply map_ext; by intros []). }
  rewrite <- (length_map (other_end n) l). trans (length peers); [|done].
  apply submseteq_length, NoDup_submseteq.
  - apply other_ends_nodup; [done|]. apply Forall_forall. intros p Hp. destruct (Hl p Hp) as (? & ? & _).
    done.
  - intros b (p & -> & Hp)%list_elem_of_fmap. destruct (Hl p Hp) as (_ & Ht & Hs).
    apply scheduled_pair_both in Hs as (a & c & -> & Hac & Hca).
    apply ordered_pair_ends in Ht as [[-> ->]|[-> ->]]; by apply Hpeers.
Qed.

(** ** A ring of satellites *)

Definition feasible_pair (p : node_pair) (feasible : bool) : node_pair * IslFeasibilityResult :=
  (p, {| if_pair := p; if_link_type := intra_plane_isl; if_feasible := feasible;
         if_range_km := float_of_Z 1000; if_one_way_a_to_b_ms := float_of_Z 3;
         if_one_way_b_to_a_ms := float_of_Z 3;
         if_reject_reason := if feasible then "ok" else "range_exceeded";
         if_terminal_role_a := None; if_terminal_role_b := None; if_terminal_type := "optical";
         if_interface_a := "isl0"; if_interface_b := "isl1";
         if_applied_max_range_km := float_of_Z 5000;
         if_applied_max_tracking_rate_deg_s := None;
         if_applied_field_of_regard_deg := float_of_Z 360 |}).

Definition toward (peer : string) (priority : Z) : NeighborAssignment :=
  {| na_interface := "isl0"; na_peer_node_id := peer; na_link_type := intra_plane_isl;
     na_priority := priority; na_long_delay := false |}.

(** Three satellites, one terminal each: only the mutual first choice is
    scheduled. *)
Definition ring_nodes : gmap string (list NeighborAssignment) :=
  {[ "s1" := [toward "s2" 0; toward "s3" 1];
     "s2" := [toward "s1" 0; toward "s3" 1];
     "s3" := [toward "s1" 0; toward "s2" 1] ]}.
Definition ring_feasible : dict node_pair IslFeasibilityResult :=
  [feasible_pair ("s1", "s2") true; feasible_pair ("s1", "s3") true;
   feasible_pair ("s2", "s3") true].
Definition ring_counts : gmap string Z := {[ "s1" := 1; "s2" := 1; "s3" := 1 ]}.

Example ring_scheduled :
  match schedule_isl_links ring_nodes ring_counts ring_feasible with
  | Ok out => map (λ x, (x.1, si_scheduled x.2)) out
  | Raise _ => []
  end = [(("s1", "s2"), true); (("s1", "s3"), false); (("s2", "s3"), false)].
Proof. vm_compute. reflexivity. Qed.

Lemma isl_terminal_capacity_witness :
  ∃ out, schedule_isl_links ring_nodes ring_counts ring_feasible = Ok out ∧
    (length (scheduled_at "s1" out) ≤ 1)%nat.
Proof.
  destruct (schedule_isl_links ring_nodes ring_counts ring_feasible) as [out|] eqn:E;
    [|by vm_compute in E].
  exists out. split; [exact eq_refl|].
  apply (isl_terminal_capacity ring_nodes ring_counts ring_feasible out "s1" 1);
    [evaluated|exact E|by vm_compute].
Defined.
