(* ===== verification/GroundDecision.v ===== *)
(** * Per-pair ground visibility decisions

    [GroundVisibilityDecision] of [services/ome/types.py], the slotted form the
    visibility loop builds, and the wire form
    [GroundVisibilityDecisionWire] of [lib/nodalarc/models/link_decisions.py].
    The loop's form is converted to the wire form without validation, so its
    own checks must accept only what the wire form's validators accept
    ([decision_checks_agree]). *)

From S2P Require Import Prelude.
From S2P Require Import PyFloat.
From S2P Require Import PyData.
From S2P Require Import GroundPolicy.
From S2P Require Import GroundTypes.
From stdpp Require Import base list strings gmap.
Local Open Scope Z_scope.

Record GroundVisibilityDecision := {
  gd_pair : node_pair;
  gd_tenant_id : string;
  gd_reference_body : string;
  gd_visible : bool;
  gd_range_km : float;
  gd_latency_a_to_b_ms : float;
  gd_latency_b_to_a_ms : float;
  gd_elevation_deg : float;
  gd_azimuth_deg : option float;
  gd_sat_off_nadir_deg : option float;
  gd_observer_frame : string;
  gd_reject_reason : GroundVisibilityRejectReason;
  gd_rejecting_endpoint : GroundVisibilityRejectingEndpoint;
  gd_applied_min_elevation_deg : float;
  gd_applied_gs_max_range_km : option float;
  gd_applied_sat_max_range_km : option float;
  gd_applied_gs_field_of_regard_deg : option float;
  gd_applied_sat_field_of_regard_deg : option float;
  gd_applied_gs_max_tracking_rate_deg_s : option float;
  gd_applied_sat_max_tracking_rate_deg_s : option float;
  gd_applied_gs_boresight_mode : option string;
  gd_applied_sat_boresight_mode : option string;
  gd_applied_gs_terminal_profile : option string;
  gd_applied_sat_terminal_profile : option string;
}.

(** The wire form has the same fields. *)
Abbreviation GroundVisibilityDecisionWire := GroundVisibilityDecision.

Abbreviation GroundVisibilityDecisionMap := (dict node_pair GroundVisibilityDecision).

Definition terminal_bound_reasons : list GroundVisibilityRejectReason :=
  [range_exceeded; field_of_regard; tracking_exceeded].

(** [GroundVisibilityDecision.__post_init__].  The reject reason and the
    endpoint are values of their literal types here, so their membership tests
    hold. *)
Definition decision_post_init (d : GroundVisibilityDecision) : result unit :=
  raise_if negb (bool_decide (gd_reference_body d ∈ SUPPORTED_BODY_NAMES))
    with ValueError "reference_body is not supported" ;;
  raise_if gd_visible d && negb (bool_decide (gd_reject_reason d = ok))
    with ValueError "visible=True requires reject_reason='ok'" ;;
  raise_if negb (gd_visible d) && bool_decide (gd_reject_reason d = ok)
    with ValueError "visible=False requires a non-'ok' reject_reason" ;;
  raise_if gd_visible d && negb (bool_decide (gd_rejecting_endpoint d = endpoint_none))
    with ValueError "visible=True requires rejecting_endpoint='none'" ;;
  raise_if bool_decide (gd_reject_reason d ∈ [los_blocked; elevation_below_min])
           && negb (bool_decide (gd_rejecting_endpoint d = endpoint_none))
    with ValueError "reject_reason requires rejecting_endpoint='none'" ;;
  let! _ :=
    if bool_decide (gd_reject_reason d ∈ terminal_bound_reasons) then
      raise_if bool_decide (gd_rejecting_endpoint d = endpoint_none)
        with ValueError "reject_reason requires a terminal rejecting_endpoint" ;;
      raise_if is_none (gd_applied_gs_terminal_profile d) && is_none (gd_applied_sat_terminal_profile d)
        with ValueError "reject_reason requires at least one terminal profile" ;;
      raise_if bool_decide (gd_rejecting_endpoint d ∈ [ground; both])
               && is_none (gd_applied_gs_terminal_profile d)
        with ValueError "rejecting_endpoint requires applied_gs_terminal_profile" ;;
      raise_if bool_decide (gd_rejecting_endpoint d ∈ [satellite; both])
               && is_none (gd_applied_sat_terminal_profile d)
        with ValueError "rejecting_endpoint requires applied_sat_terminal_profile" ;;
      raise_if bool_decide (gd_reject_reason d = field_of_regard)
               && bool_decide (gd_rejecting_endpoint d ∈ [satellite; both])
               && is_none (gd_sat_off_nadir_deg d)
        with ValueError "satellite field_of_regard rejection requires sat_off_nadir_deg" ;;
      Ok tt
    else Ok tt in
  raise_if gd_visible d && negb (is_none (gd_applied_sat_field_of_regard_deg d))
           && is_none (gd_sat_off_nadir_deg d)
    with ValueError "visible decision with satellite field_of_regard requires sat_off_nadir_deg" ;;
  Ok tt.

(** [GroundVisibilityDecisionWire._visible_iff_reject_ok]. *)
Definition visible_iff_reject_ok (d : GroundVisibilityDecisionWire) : result unit :=
  raise_if gd_visible d && negb (bool_decide (gd_reject_reason d = ok))
    with ValueError "visible=True requires reject_reason='ok'" ;;
  raise_if negb (gd_visible d) && bool_decide (gd_reject_reason d = ok)
    with ValueError "visible=False requires a non-'ok' reject_reason" ;;
  raise_if gd_visible d && negb (bool_decide (gd_rejecting_endpoint d = endpoint_none))
    with ValueError "visible=True requires rejecting_endpoint='none'" ;;
  raise_if bool_decide (gd_reject_reason d ∈ [los_blocked; elevation_below_min])
           && negb (bool_decide (gd_rejecting_endpoint d = endpoint_none))
    with ValueError "reject_reason requires rejecting_endpoint='none'" ;;
  Ok tt.

(** [GroundVisibilityDecisionWire._terminal_constraint_must_name_profile]. *)
Definition terminal_constraint_must_name_profile (d : GroundVisibilityDecision) : result unit :=
  let! _ :=
    if bool_decide (gd_reject_reason d ∈ terminal_bound_reasons) then
      raise_if bool_decide (gd_rejecting_endpoint d = endpoint_none)
        with ValueError "reject_reason requires a terminal rejecting_endpoint" ;;
      raise_if is_none (gd_applied_gs_terminal_profile d) && is_none (gd_applied_sat_terminal_profile d)
        with ValueError "reject_reason requires at least one terminal profile" ;;
      raise_if bool_decide (gd_rejecting_endpoint d ∈ [ground; both])
               && is_none (gd_applied_gs_terminal_profile d)
        with ValueError "rejecting_endpoint requires applied_gs_terminal_profile" ;;
      raise_if bool_decide (gd_rejecting_endpoint d ∈ [satellite; both])
               && is_none (gd_applied_sat_terminal_profile d)
        with ValueError "rejecting_endpoint requires applied_sat_terminal_profile" ;;
      raise_if bool_decide (gd_reject_reason d = field_of_regard)
               && bool_decide (gd_rejecting_endpoint d ∈ [satellite; both])
               && is_none (gd_sat_off_nadir_deg d)
        with ValueError "satellite field_of_regard rejection requires sat_off_nadir_deg" ;;
      Ok tt
    else Ok tt in
  raise_if gd_visible d && negb (is_none (gd_applied_sat_field_of_regard_deg d))
           && is_none (gd_sat_off_nadir_deg d)
    with ValueError "visible decision with satellite field_of_regard requires sat_off_nadir_deg" ;;
  Ok tt.

(** The wire form's validation: the supported body and observer frame of its
    field types, then its two model validators. *)
Definition validate_wire (d : GroundVisibilityDecisionWire) : result unit :=
  raise_if negb (bool_decide (gd_reference_body d ∈ SUPPORTED_BODY_NAMES))
    with ValueError "reference_body: Input should be a supported body" ;;
  raise_if negb (bool_decide (gd_observer_frame d = "body_local"))
    with ValueError "observer_frame: Input should be 'body_local'" ;;
  let! _ := visible_iff_reject_ok d in
  terminal_constraint_must_name_profile d.

(** the unvalidated conversion to the wire form is safe: a decision the
    visibility loop could construct is one the wire form's validators accept, and
    conversely; the loop's checks are the wire's. *)
Theorem decision_checks_agree d :
  gd_observer_frame d = "body_local" →
  decision_post_init d = Ok tt ↔ validate_wire d = Ok tt.
Proof.
  intros Hf. unfold decision_post_init, validate_wire, visible_iff_reject_ok,
    terminal_constraint_must_name_profile.
  rewrite (bool_decide_eq_true_2 _ Hf). simpl.
  destruct (negb (bool_decide (gd_reference_body d ∈ _))); [done|].
  repeat (case_match; simpl; try done).
Qed.

(** A satellite rejected by its own range limit. *)
Definition range_rejected : GroundVisibilityDecision :=
  {| gd_pair := ("gs-A", "sat-1"); gd_tenant_id := "default"; gd_reference_body := "earth";
     gd_visible := false; gd_range_km := float_of_Z 5000; gd_latency_a_to_b_ms := float_of_Z 17;
     gd_latency_b_to_a_ms := float_of_Z 17; gd_elevation_deg := float_of_Z 30;
     gd_azimuth_deg := None; gd_sat_off_nadir_deg := None; gd_observer_frame := "body_local";
     gd_reject_reason := range_exceeded; gd_rejecting_endpoint := satellite;
     gd_applied_min_elevation_deg := float_of_Z 10; gd_applied_gs_max_range_km := None;
     gd_applied_sat_max_range_km := Some (float_of_Z 4000);
     gd_applied_gs_field_of_regard_deg := None; gd_applied_sat_field_of_regard_deg := None;
     gd_applied_gs_max_tracking_rate_deg_s := None; gd_applied_sat_max_tracking_rate_deg_s := None;
     gd_applied_gs_boresight_mode := None; gd_applied_sat_boresight_mode := None;
     gd_applied_gs_terminal_profile := None; gd_applied_sat_terminal_profile := Some "ku" |}.

Lemma decision_checks_agree_witness :
  decision_post_init range_rejected = Ok tt ∧ validate_wire range_rejected = Ok tt.
Proof.
  split; [by vm_compute|]. apply (decision_checks_agree range_rejected); [done|by vm_compute].
Defined.

(** An accepted decision is visible exactly when nothing rejected it. *)
Lemma post_init_visible d :
  decision_post_init d = Ok tt → gd_visible d = bool_decide (gd_reject_reason d = ok).
Proof.
  unfold decision_post_init. intros H. rguard H as Hb. apply raise_if_Ok in H as [H1 H].
  apply raise_if_Ok in H as [H2 _]. by destruct (gd_visible d), (bool_decide _).
Qed.
