(* ===== verification/EventDiff.v ===== *)
(** * Visibility transitions ([services/ome/event_diff.py])

    The diff engine compares the state of every link with the state at the
    previous tick and emits one [VisibilityEvent] per change.  The event model
    and its validators are [lib/nodalarc/models/events.py].  Simulation times
    are integers (microseconds).

    The engine trusts its producers: [AllocationContract] is what the ground
    diff needs of the allocator's result, [isl_contract] what the ISL diff
    needs of the ISL scheduler; the theorems are proved against these, and the
    producers discharge them. *)

From S2P Require Import Prelude.
From S2P Require Import PyFloat.
From S2P Require Import PyData.
From S2P Require Import GroundPolicy.
From S2P Require Import GroundTypes.
From S2P Require Import GroundAllocator.
From S2P Require Import GroundDecision.
From S2P Require Import IslEngine.
From stdpp Require Import base list strings gmap.
Local Open Scope Z_scope.

(** ** Reasons *)

Definition reject_reason_name (r : GroundVisibilityRejectReason) : string :=
  match r with
  | ok => "ok" | los_blocked => "los_blocked" | elevation_below_min => "elevation_below_min"
  | range_exceeded => "range_exceeded" | field_of_regard => "field_of_regard"
  | tracking_exceeded => "tracking_exceeded"
  end.

Definition unscheduled_reason_name (r : GroundUnscheduledReason) : string :=
  match r with
  | gs_capacity => "gs_capacity" | sat_capacity => "sat_capacity"
  | hysteresis_hold => "hysteresis_hold" | incumbent_held => "incumbent_held"
  | bbm_no_spare => "bbm_no_spare" | mbb_overlap_locked => "mbb_overlap_locked"
  | replaced_by_successor => "replaced_by_successor" | successor_aborted => "successor_aborted"
  | failed_successor => "failed_successor" | failed_acquire => "failed_acquire"
  end.

Definition GROUND_REJECT_REASONS : list string :=
  map reject_reason_name [ok; los_blocked; elevation_below_min; range_exceeded; field_of_regard;
                          tracking_exceeded].
Definition ISL_REJECT_REASONS : list string :=
  ["ok"; "los_blocked"; "range_exceeded"; "field_of_regard"; "tracking_exceeded"; "polar_seam";
   "terminal_type_mismatch"; "terminal_role_mismatch"].
Definition GROUND_UNSCHEDULED_REASONS : list string :=
  map unscheduled_reason_name
    [gs_capacity; sat_capacity; hysteresis_hold; incumbent_held; bbm_no_spare; mbb_overlap_locked;
     replaced_by_successor; successor_aborted; failed_successor; failed_acquire].
Definition ISL_UNSCHEDULED_REASONS : list string := ["isl_terminal_capacity"].

(** ** Visibility events *)

Inductive LinkType := isl_link | ground_link.
Inductive SchedulingState := active | teardown.

#[global] Instance link_type_eq_dec : EqDecision LinkType.
Proof. solve_decision. Defined.
#[global] Instance scheduling_state_eq_dec : EqDecision SchedulingState.
Proof. solve_decision. Defined.

Record VisibilityEvent := {
  ve_sim_time : Z;
  ve_node_a : string;
  ve_node_b : string;
  ve_visible : bool;
  ve_scheduled : bool;
  ve_range_km : float;
  ve_latency_a_to_b_ms : option float;
  ve_latency_b_to_a_ms : option float;
  ve_elevation_deg : option float;
  ve_terminal_type : string;
  ve_link_type : LinkType;
  ve_gs_terminal_index : option Z;
  ve_sat_terminal_index : option Z;
  ve_scheduling_state : SchedulingState;
  ve_visibility_reject_reason : string;
  ve_unscheduled_reason : option string;
  ve_contact_opened_at : option Z;
}.

(** [_order_nodes], before validation: the nodes in order, each delay with its
    transmitting end. *)
Definition order_nodes (e : VisibilityEvent) : VisibilityEvent :=
  if str_lt (ve_node_b e) (ve_node_a e) then
    {| ve_sim_time := ve_sim_time e; ve_node_a := ve_node_b e; ve_node_b := ve_node_a e;
       ve_visible := ve_visible e; ve_scheduled := ve_scheduled e; ve_range_km := ve_range_km e;
       ve_latency_a_to_b_ms := ve_latency_b_to_a_ms e;
       ve_latency_b_to_a_ms := ve_latency_a_to_b_ms e;
       ve_elevation_deg := ve_elevation_deg e; ve_terminal_type := ve_terminal_type e;
       ve_link_type := ve_link_type e; ve_gs_terminal_index := ve_gs_terminal_index e;
       ve_sat_terminal_index := ve_sat_terminal_index e;
       ve_scheduling_state := ve_scheduling_state e;
       ve_visibility_reject_reason := ve_visibility_reject_reason e;
       ve_unscheduled_reason := ve_unscheduled_reason e;
       ve_contact_opened_at := ve_contact_opened_at e |}
  else e.

(** [_contact_opens_with_the_event]. *)
Definition contact_opens_with_the_event (e : VisibilityEvent) : result unit :=
  match ve_contact_opened_at e with
  | None => Ok tt
  | Some t =>
      raise_if negb (ve_visible e && ve_scheduled e)
        with ValueError "a contact opens only on a link that becomes visible and scheduled" ;;
      raise_if negb (t =? ve_sim_time e)
        with ValueError "the contact did not open at the event's sim time" ;;
      Ok tt
  end.

(** [_reasons_match_link_type]. *)
Definition reasons_match_link_type (e : VisibilityEvent) : result unit :=
  let '(rejects, unscheduled) :=
    match ve_link_type e with
    | ground_link => (GROUND_REJECT_REASONS, GROUND_UNSCHEDULED_REASONS)
    | isl_link => (ISL_REJECT_REASONS, ISL_UNSCHEDULED_REASONS)
    end in
  raise_if negb (bool_decide (ve_visibility_reject_reason e ∈ rejects))
    with ValueError "link_type rejects visibility_reject_reason" ;;
  raise_if (if ve_unscheduled_reason e is Some r then negb (bool_decide (r ∈ unscheduled)) else false)
    with ValueError "link_type rejects unscheduled_reason" ;;
  Ok tt.

(** [_reasons_consistent_with_state]. *)
Definition reasons_consistent_with_state (e : VisibilityEvent) : result unit :=
  let is_ok := bool_decide (ve_visibility_reject_reason e = "ok") in
  raise_if ve_visible e && negb is_ok
    with ValueError "visible=True requires visibility_reject_reason='ok'" ;;
  raise_if negb (ve_visible e) && is_ok
    with ValueError "visible=False requires a non-'ok' visibility_reject_reason" ;;
  raise_if negb (ve_visible e) && ve_scheduled e
    with ValueError "visible=False with scheduled=True is impossible" ;;
  raise_if ve_visible e && negb (ve_scheduled e) && is_none (ve_unscheduled_reason e)
    with ValueError "visible=True with scheduled=False requires unscheduled_reason" ;;
  raise_if negb (is_none (ve_unscheduled_reason e)) && negb (ve_visible e)
    with ValueError "unscheduled_reason set on a non-visible pair" ;;
  raise_if negb (is_none (ve_unscheduled_reason e)) && ve_scheduled e
    with ValueError "unscheduled_reason set on a scheduled pair" ;;
  Ok tt.

(** [VisibilityEvent(...)]: the literal fields, then the validators in the
    order of their definition. *)
Definition make_VisibilityEvent (e : VisibilityEvent) : result VisibilityEvent :=
  let e := order_nodes e in
  raise_if negb (bool_decide (ve_visibility_reject_reason e ∈ GROUND_REJECT_REASONS ++ ISL_REJECT_REASONS))
    with ValueError "visibility_reject_reason: not one of the literals" ;;
  let! _ := contact_opens_with_the_event e in
  let! _ := reasons_match_link_type e in
  let! _ := reasons_consistent_with_state e in
  Ok e.

(** ** The ISL diff *)

Abbreviation IslVisibilityState := (dict node_pair (bool * bool)).

Section IslDiff.
Context (sim_time : Z) (scheduled_links : dict node_pair ScheduledIsl)
  (long_delay_pairs : gset node_pair).

(** The unscheduled reason of a visible, unscheduled pair. *)
Definition isl_unscheduled_reason (p : node_pair) (visible scheduled : bool) :
    result (option string) :=
  if visible && negb scheduled then
    let! s := or_raise (dict_get p scheduled_links) (KeyError "scheduled_links") in
    if bool_decide (si_unscheduled_reason s = Some "capacity")
    then Ok (Some "isl_terminal_capacity")
    else Raise (ValueError "ISL pair is visible+unscheduled without the reason 'capacity'")
  else Ok None.

Definition isl_pair_step (acc : IslVisibilityState * list VisibilityEvent)
    (x : node_pair * IslFeasibilityResult) : result (IslVisibilityState * list VisibilityEvent) :=
  let '(state, events) := acc in
  let '(p, r) := x in
  let visible := if_feasible r in
  let! scheduled :=
    if visible then
      let! s := or_raise (dict_get p scheduled_links) (KeyError "scheduled_links") in
      Ok (si_scheduled s)
    else Ok false in
  let new_state := (visible, scheduled) in
  if bool_decide (new_state = default (false, false) (dict_get p state)) then Ok (state, events)
  else
    let state := dict_set p new_state state in
    let reject := if visible then "ok" else if_reject_reason r in
    let! unscheduled := isl_unscheduled_reason p visible scheduled in
    let! e := make_VisibilityEvent
      {| ve_sim_time := sim_time; ve_node_a := p.1; ve_node_b := p.2; ve_visible := visible;
         ve_scheduled := scheduled; ve_range_km := if_range_km r;
         ve_latency_a_to_b_ms := Some (if_one_way_a_to_b_ms r);
         ve_latency_b_to_a_ms := Some (if_one_way_b_to_a_ms r);
         ve_elevation_deg := None; ve_terminal_type := if_terminal_type r;
         ve_link_type := isl_link; ve_gs_terminal_index := None; ve_sat_terminal_index := None;
         ve_scheduling_state := active; ve_visibility_reject_reason := reject;
         ve_unscheduled_reason := unscheduled;
         ve_contact_opened_at := if visible && scheduled && bool_decide (p ∈ long_delay_pairs)
                                 then Some sim_time else None |} in
    Ok (state, events ++ [e]).

Definition diff_isl_visibility_events (feasibility : dict node_pair IslFeasibilityResult)
    (previous_state : IslVisibilityState) : result (IslVisibilityState * list VisibilityEvent) :=
  foldM isl_pair_step (previous_state, []) feasibility.
End IslDiff.

(** ** The ground diff *)

Abbreviation GroundVisibilityState := (dict node_pair (bool * bool * SchedulingState)).

Section GroundDiff.
Context (sim_time : Z) (allocation : GroundAllocationResult)
  (terminal_types : gmap node_pair string) (long_delay_pairs : gset node_pair).

(** [{u.pair: u.unscheduled_reason for u in ...}]. *)
Definition unscheduled_by_pair : dict node_pair GroundUnscheduledReason :=
  dict_of (map (λ u, (up_pair u, up_unscheduled_reason u)) (unscheduled_pairs allocation)).

Definition sched_state_of (p : node_pair) : SchedulingState :=
  if is_none (r_pending_teardowns allocation !! p) then active else teardown.

Definition ground_scheduled (p : node_pair) (d : GroundVisibilityDecision) : bool :=
  if gd_visible d then bool_decide (p ∈ scheduled_pairs allocation) else false.

Definition ground_unscheduled_reason (p : node_pair) (visible scheduled : bool) :
    result (option string) :=
  if visible && negb scheduled then
    let! r := or_raise (dict_get p unscheduled_by_pair)
      (ValueError "Ground pair is visible+unscheduled but not attributed") in
    Ok (Some (unscheduled_reason_name r))
  else Ok None.

Definition ground_pair_step (acc : GroundVisibilityState * list VisibilityEvent)
    (x : node_pair * GroundVisibilityDecision) :
    result (GroundVisibilityState * list VisibilityEvent) :=
  let '(state, events) := acc in
  let '(p, d) := x in
  let scheduled := ground_scheduled p d in
  let sched_state := sched_state_of p in
  let new_state := (gd_visible d, scheduled, sched_state) in
  let previous := default (false, false, active) (dict_get p state) in
  if bool_decide (new_state = previous) then Ok (state, events) else
  let state := dict_set p new_state state in
  let opens_contact := bool_decide (p ∈ long_delay_pairs) && gd_visible d && scheduled
    && negb (previous.1.1 && previous.1.2) in
  let! indices :=
    if scheduled then
      let! ij := or_raise (dict_get p (associations allocation)) (KeyError "associations") in
      Ok (Some ij)
    else Ok None in
  let! unscheduled := ground_unscheduled_reason p (gd_visible d) scheduled in
  let! terminal_type := or_raise (terminal_types !! p) (KeyError "terminal_types") in
  let! e := make_VisibilityEvent
    {| ve_sim_time := sim_time; ve_node_a := p.1; ve_node_b := p.2;
       ve_visible := gd_visible d; ve_scheduled := scheduled; ve_range_km := gd_range_km d;
       ve_latency_a_to_b_ms := Some (gd_latency_a_to_b_ms d);
       ve_latency_b_to_a_ms := Some (gd_latency_b_to_a_ms d);
       ve_elevation_deg := Some (gd_elevation_deg d); ve_terminal_type := terminal_type;
       ve_link_type := ground_link;
       ve_gs_terminal_index := fst <$> indices; ve_sat_terminal_index := snd <$> indices;
       ve_scheduling_state := sched_state;
       ve_visibility_reject_reason := reject_reason_name (gd_reject_reason d);
       ve_unscheduled_reason := unscheduled;
       ve_contact_opened_at := if opens_contact then Some sim_time else None |} in
  Ok (state, events ++ [e]).

Definition diff_ground_visibility_events (visibility_decisions : GroundVisibilityDecisionMap)
    (previous_state : GroundVisibilityState) :
    result (GroundVisibilityState * list VisibilityEvent) :=
  foldM ground_pair_step (previous_state, []) visibility_decisions.
End GroundDiff.
