(* ===== verification/EventDiffTheorems.v ===== *)
(** * The event stream is the exact difference of the states

    [DiffFold]: any diff loop whose step changes a pair's entry exactly when it
    emits an event for it produces the difference of the two states, one event
    per changed pair in order, and replaying the events on the old state gives
    the new one.  Both diffs are instances.  Under their producers' contracts
    they never raise. *)

From S2P Require Import Prelude.
From S2P Require Import PyFloat.
From S2P Require Import PyData.
From S2P Require Import GroundPolicy.
From S2P Require Import GroundTypes.
From S2P Require Import GroundAllocator.
From S2P Require Import GroundDecision.
From S2P Require Import IslEngine.
From S2P Require Import EventDiff.
From stdpp Require Import base list strings gmap.
Local Open Scope Z_scope.

(** ** The loop *)

Section DiffFold.
Context {X V E : Type} `{EqDecision V} (dflt : V) (target : node_pair → X → V).
Context (epair : E → node_pair) (estate : E → V).
Context (step : dict node_pair V * list E → node_pair * X → result (dict node_pair V * list E)).

Definition entry (s : dict node_pair V) (p : node_pair) : V := default dflt (dict_get p s).

(** One iteration: nothing, or one event and its entry. *)
Inductive diff_step (s : dict node_pair V) (evs : list E) (p : node_pair) (x : X) :
    dict node_pair V → list E → Prop :=
| diff_same : target p x = entry s p → diff_step s evs p x s evs
| diff_change e : target p x ≠ entry s p → epair e = p → estate e = target p x →
    diff_step s evs p x (dict_set p (target p x) s) (evs ++ [e]).

Definition replay (s : dict node_pair V) (evs : list E) : dict node_pair V :=
  fold_left (λ s e, dict_set (epair e) (estate e) s) evs s.

Definition changed (prev : dict node_pair V) (x : node_pair * X) : bool :=
  negb (bool_decide (target x.1 x.2 = entry prev x.1)).

Record exact_diff (l : dict node_pair X) (prev s : dict node_pair V) (evs : list E) : Prop := {
  xd_replay : s = replay prev evs;
  xd_events : map epair evs = map fst (List.filter (changed prev) l);
  xd_target p x : (p, x) ∈ l → entry s p = target p x;
  xd_other p : p ∉ dict_keys l → dict_get p s = dict_get p prev;
}.

Lemma entry_set_eq s p v : entry (dict_set p v s) p = v.
Proof. unfold entry. by rewrite dict_get_set_eq. Qed.

Lemma diff_fold_exact l prev s evs :
  (∀ s evs p x s' evs', (p, x) ∈ l → step (s, evs) (p, x) = Ok (s', evs') →
     diff_step s evs p x s' evs') →
  dict_wf l → foldM step (prev, []) l = Ok (s, evs) → exact_diff l prev s evs.
Proof.
  intros step_spec Hwf H. revert H.
  apply (foldM_prefix (λ pre r, exact_diff pre prev r.1 r.2)
    step l) with (s := (prev, [])) (s' := (s, evs)).
  2:{ split; simpl; try done. intros p x Hx. inversion Hx. }
  intros pre [p x] post [s0 e0] [s1 e1] Hl [Hr He Ht Ho] H. simpl in *.
  assert (p ∉ dict_keys pre) as Hfresh.
  { unfold dict_wf, dict_keys in *. rewrite Hl, map_app in Hwf. simpl in Hwf.
    apply NoDup_app in Hwf as (_ & Hwf & _). intros Hin. apply (Hwf p Hin). by left. }
  assert (entry s0 p = entry prev p) as Hentry by (unfold entry; by rewrite Ho).
  assert (∀ q, q ∉ dict_keys (pre ++ [(p, x)]) → (q ∉ dict_keys pre) ∧ q ≠ p) as Hout.
  { intros q. unfold dict_keys. rewrite map_app. simpl. set_solver. }
  assert (changed prev (p, x) = negb (bool_decide (target p x = entry s0 p))) as Hch
    by (unfold changed; simpl; by rewrite Hentry).
  apply step_spec in H; [|rewrite Hl, elem_of_app; right; by left].
  inversion H as [Es|e Ene Ep Es]; subst; clear H.
  - split.
    + done.
    + rewrite List.filter_app, map_app, <- He. simpl.
      rewrite Hch, bool_decide_eq_true_2 by done. simpl. by rewrite app_nil_r.
    + intros q y [Hq|[= -> ->]%list_elem_of_singleton]%elem_of_app; [by apply Ht|done].
    + intros q [Hq _]%Hout. by apply Ho.
  - split.
    + unfold replay. rewrite fold_left_app. simpl. fold (replay prev e0).
      by rewrite Es.
    + rewrite List.filter_app, !map_app, He. simpl.
      rewrite Hch, bool_decide_eq_false_2 by done. done.
    + intros q y [Hq|[= -> ->]%list_elem_of_singleton]%elem_of_app; [|apply entry_set_eq].
      assert (q ≠ epair e) as Hne.
      { intros ->. apply Hfresh. unfold dict_keys. apply list_elem_of_fmap. by exists (epair e, y). }
      unfold entry. rewrite dict_get_set_ne by done. by apply Ht.
    + intros q [Hq Hne]%Hout. rewrite dict_get_set_ne by done. by apply Ho.
Qed.
End DiffFold.

(** ** The two diffs *)

Definition event_pair (e : VisibilityEvent) : node_pair := (ve_node_a e, ve_node_b e).

Definition canonical_keys {A} (l : dict node_pair A) : Prop :=
  dict_wf l ∧ Forall (λ x, str_lt x.1.1 x.1.2 = true) l.

#[global] Instance canonical_keys_dec {A} (l : dict node_pair A) : Decision (canonical_keys l).
Proof. unfold canonical_keys, dict_wf. apply _. Defined.

(** A constructed event keeps what it was given, for nodes in order. *)
Lemma make_event_same e e' :
  str_lt (ve_node_a e) (ve_node_b e) = true → make_VisibilityEvent e = Ok e' → e' = e.
Proof.
  intros Hlt H. unfold make_VisibilityEvent, order_nodes in H.
  rewrite (st_asym str_lt _ _ Hlt) in H. rguard H as E. rbind H as [] H1. rbind H as [] H2.
  rbind H as [] H3. by injection H as <-.
Qed.

Section GroundExact.
Context (sim_time : Z) (allocation : GroundAllocationResult)
  (terminal_types : gmap node_pair string) (long_delay_pairs : gset node_pair).

Definition ground_target (p : node_pair) (d : GroundVisibilityDecision) :
    bool * bool * SchedulingState :=
  (gd_visible d, ground_scheduled allocation p d, sched_state_of allocation p).

Definition ground_event_state (e : VisibilityEvent) : bool * bool * SchedulingState :=
  (ve_visible e, ve_scheduled e, ve_scheduling_state e).

Abbreviation ground_step :=
  (ground_pair_step sim_time allocation terminal_types long_delay_pairs).

Lemma ground_step_diff s evs p d s' evs' :
  str_lt p.1 p.2 = true → ground_step (s, evs) (p, d) = Ok (s', evs') →
  diff_step (false, false, active) ground_target event_pair ground_event_state s evs p d s' evs'.
Proof.
  intros Hlt H. unfold ground_pair_step in H. case_bool_decide as E.
  { injection H as <- <-. by apply diff_same. }
  rbind H as ij Hij. rbind H as un Hun. rbind H as tt Htt. rbind H as e He.
  injection H as <- <-. apply make_event_same in He as ->; [|done].
  apply (diff_change (false, false, active) ground_target event_pair ground_event_state s evs p d);
    [done|by destruct p|done].
Qed.
End GroundExact.

(** C8: the ground event stream is exact.  The emitted events are one per pair
    whose (visible, scheduled, teardown) state differs from the previous tick,
    in decision order; replaying them on the previous state gives the new state;
    and the new state of every decided pair is the allocation's. *)
Theorem ground_events_exact sim_time allocation types long_delay decisions prev s evs :
  canonical_keys decisions →
  diff_ground_visibility_events sim_time allocation types long_delay decisions prev = Ok (s, evs) →
  exact_diff (false, false, active) (ground_target allocation) event_pair ground_event_state
    decisions prev s evs.
Proof.
  intros [Hwf Hlt] H. eapply diff_fold_exact; [|done|exact H].
  intros s0 e0 p d s1 e1 Hin Hstep. rewrite Forall_forall in Hlt.
  eapply ground_step_diff; [|exact Hstep]. exact (Hlt _ Hin).
Qed.

Section IslExact.
Context (sim_time : Z) (links : dict node_pair ScheduledIsl) (long_delay_pairs : gset node_pair).

Definition isl_target (p : node_pair) (r : IslFeasibilityResult) : bool * bool :=
  (if_feasible r, if_feasible r && default false (si_scheduled <$> dict_get p links)).

Definition isl_event_state (e : VisibilityEvent) : bool * bool := (ve_visible e, ve_scheduled e).

Lemma isl_step_diff s evs p r s' evs' :
  str_lt p.1 p.2 = true →
  isl_pair_step sim_time links long_delay_pairs (s, evs) (p, r) = Ok (s', evs') →
  diff_step (false, false) isl_target event_pair isl_event_state s evs p r s' evs'.
Proof.
  intros Hlt H. unfold isl_pair_step in H. rbind H as sched Hs.
  assert (isl_target p r = (if_feasible r, sched)) as Ht.
  { unfold isl_target. destruct (if_feasible r); [|by injection Hs as <-].
    rbind Hs as l Hl. injection Hs as <-. by rewrite Hl. }
  case_bool_decide as E.
  { injection H as <- <-. apply diff_same. by rewrite Ht. }
  rbind H as un Hun. rbind H as e He. injection H as <- <-.
  apply make_event_same in He as ->; [|done]. rewrite <- Ht.
  apply (diff_change (false, false) isl_target event_pair isl_event_state s evs p r);
    [by rewrite Ht|by destruct p|by rewrite Ht].
Qed.
End IslExact.

(** the ISL event stream is exact, in the same sense. *)
Theorem isl_events_exact sim_time links long_delay feasibility prev s evs :
  canonical_keys feasibility →
  diff_isl_visibility_events sim_time links long_delay feasibility prev = Ok (s, evs) →
  exact_diff (false, false) (isl_target links) event_pair isl_event_state feasibility prev s evs.
Proof.
  intros [Hwf Hlt] H. eapply diff_fold_exact; [|done|exact H].
  intros s0 e0 p d s1 e1 Hin Hstep. rewrite Forall_forall in Hlt.
  eapply isl_step_diff; [|exact Hstep]. exact (Hlt _ Hin).
Qed.

(** ** The producers' contracts *)

(** What the ground diff and the decision snapshot need of an allocation. *)
Class AllocationContract (decisions : GroundVisibilityDecisionMap)
    (allocation : GroundAllocationResult) : Prop := {
  ac_scheduled p : p ∈ scheduled_pairs allocation → is_Some (dict_get p (associations allocation));
  ac_attributed p d : dict_get p decisions = Some d → gd_visible d = true →
    p ∉ scheduled_pairs allocation → p ∈ map up_pair (unscheduled_pairs allocation);
  ac_once : NoDup (map up_pair (unscheduled_pairs allocation));
  ac_owner u : u ∈ unscheduled_pairs allocation →
    ∃ d, dict_get (up_pair u) decisions = Some d ∧ gd_visible d = true ∧
      gd_tenant_id d = up_tenant_id u ∧ gd_reference_body d = up_reference_body u;
}.

Lemma dict_of_from_keys {K V} `{EqDecision K} (l : list (K * V)) (d : dict K V) k :
  (k ∈ map fst l ∨ is_Some (dict_get k d)) →
  is_Some (dict_get k (fold_left (λ d kv, dict_set kv.1 kv.2 d) l d)).
Proof.
  revert d. induction l as [|[k' v] l IH]; intros d Hk; simpl in *.
  - destruct Hk as [Hk|Hk]; [inversion Hk|done].
  - apply IH. rewrite dict_get_set. rewrite elem_of_cons in Hk.
    case_decide; [right; by eexists|]. naive_solver.
Qed.

Lemma unscheduled_by_pair_is_Some allocation p :
  p ∈ map up_pair (unscheduled_pairs allocation) →
  is_Some (dict_get p (unscheduled_by_pair allocation)).
Proof.
  intros Hp. apply dict_of_from_keys. left. rewrite map_map. exact Hp.
Qed.

(** An event whose reasons and state agree. *)
Record consistent_event (e : VisibilityEvent) : Prop := {
  ce_contact t : ve_contact_opened_at e = Some t →
    ve_visible e = true ∧ ve_scheduled e = true ∧ t = ve_sim_time e;
  ce_visible : ve_visible e = bool_decide (ve_visibility_reject_reason e = "ok");
  ce_scheduled : ve_scheduled e = true → ve_visible e = true;
  ce_unscheduled : is_Some (ve_unscheduled_reason e) ↔
    ve_visible e = true ∧ ve_scheduled e = false;
  ce_reject : ve_visibility_reject_reason e ∈
    match ve_link_type e with ground_link => GROUND_REJECT_REASONS | isl_link => ISL_REJECT_REASONS end;
  ce_reason r : ve_unscheduled_reason e = Some r →
    r ∈ match ve_link_type e with ground_link => GROUND_UNSCHEDULED_REASONS
        | isl_link => ISL_UNSCHEDULED_REASONS end;
}.

Lemma order_nodes_consistent e : consistent_event e → consistent_event (order_nodes e).
Proof. unfold order_nodes. destruct (str_lt _ _); [|done]. intros []. by split. Qed.

Lemma contact_ok e : consistent_event e → contact_opens_with_the_event e = Ok tt.
Proof.
  intros [Hc _ _ _ _ _]. unfold contact_opens_with_the_event.
  destruct (ve_contact_opened_at e) as [t|]; [|done]. destruct (Hc t eq_refl) as (-> & -> & ->).
  simpl. by rewrite Z.eqb_refl.
Qed.

Lemma reasons_match_ok e : consistent_event e → reasons_match_link_type e = Ok tt.
Proof.
  intros [_ _ _ _ Hr Hur]. unfold reasons_match_link_type.
  destruct (ve_link_type e); rewrite (bool_decide_eq_true_2 _ Hr); simpl;
    (destruct (ve_unscheduled_reason e) as [r|]; [|done]);
    by rewrite (bool_decide_eq_true_2 _ (Hur r eq_refl)).
Qed.

Lemma reasons_consistent_ok e : consistent_event e → reasons_consistent_with_state e = Ok tt.
Proof.
  intros [_ Hv Hs Hu _ _]. unfold reasons_consistent_with_state. rewrite <- Hv.
  assert (is_none (ve_unscheduled_reason e) = negb (ve_visible e && negb (ve_scheduled e))) as ->.
  { destruct (ve_unscheduled_reason e) as [r|].
    - destruct (proj1 Hu) as [-> ->]; [by eexists|done].
    - destruct (ve_visible e), (ve_scheduled e); try done. by destruct (proj2 Hu). }
  destruct (ve_visible e), (ve_scheduled e); try done. by specialize (Hs eq_refl).
Qed.

(** The validators accept a consistent event. *)
Lemma make_event_ok e : consistent_event e → make_VisibilityEvent e = Ok (order_nodes e).
Proof.
  intros H%order_nodes_consistent. unfold make_VisibilityEvent.
  rewrite bool_decide_eq_true_2.
  2:{ pose proof (ce_reject _ H) as Hr. apply elem_of_app. destruct (ve_link_type _); auto. }
  simpl. by rewrite (contact_ok _ H), (reasons_match_ok _ H), (reasons_consistent_ok _ H).
Qed.

Lemma reject_reason_name_ok r : bool_decide (reject_reason_name r = "ok") = bool_decide (r = ok).
Proof. by destruct r. Qed.
Lemma reject_reason_name_in r : reject_reason_name r ∈ GROUND_REJECT_REASONS.
Proof. apply list_elem_of_fmap. exists r. split; [done|]. apply (bool_decide_unpack _). by destruct r. Qed.
Lemma unscheduled_reason_name_in r : unscheduled_reason_name r ∈ GROUND_UNSCHEDULED_REASONS.
Proof. apply list_elem_of_fmap. exists r. split; [done|]. apply (bool_decide_unpack _). by destruct r. Qed.

(** Under the allocator's contract the ground diff never raises. *)
Lemma ground_diff_total decisions allocation sim_time types long_delay prev :
  AllocationContract decisions allocation → dict_wf decisions →
  Forall (λ x, decision_post_init x.2 = Ok tt ∧ is_Some (types !! x.1)) decisions →
  is_Ok (diff_ground_visibility_events sim_time allocation types long_delay decisions prev) = true.
Proof.
  intros Hac Hwf HF. unfold diff_ground_visibility_events.
  destruct (foldM_total (λ _, True) (ground_pair_step sim_time allocation types long_delay) decisions)
    with (s := (prev, [] : list VisibilityEvent)) as (s' & -> & _); [|done|done].
  intros [s evs] [p d] Hin _. rewrite Forall_forall in HF.
  destruct (HF _ Hin) as [Hpost%post_init_visible [ty Hty]]. simpl in *.
  enough (∃ s', ground_pair_step sim_time allocation types long_delay (s, evs) (p, d) = Ok s') as [s' E]
    by (exists s'; done).
  unfold ground_pair_step. destruct (bool_decide (_ = default _ _)); [by eexists|]. rewrite Hty.
  unfold ground_unscheduled_reason. destruct (ground_scheduled allocation p d) eqn:Es.
  - assert (gd_visible d = true ∧ p ∈ scheduled_pairs allocation) as [Hv Hp].
    { unfold ground_scheduled in Es. destruct (gd_visible d); [|done].
      by apply bool_decide_eq_true in Es. }
    destruct (ac_scheduled p Hp) as [ij ->]. rewrite Hv in Hpost |- *. simpl.
    rewrite make_event_ok; [by eexists|]. split; simpl; try done.
    + intros t. by case_match; intros [= <-].
    + by rewrite reject_reason_name_ok.
    + split; [by intros []|by intros [_ ?]].
    + apply reject_reason_name_in.
  - rewrite andb_false_r. destruct (gd_visible d) eqn:Hv; simpl.
    + assert (p ∉ scheduled_pairs allocation) as Hp.
      { unfold ground_scheduled in Es. rewrite Hv in Es. by apply bool_decide_eq_false in Es. }
      assert (is_Some (dict_get p (unscheduled_by_pair allocation))) as [r ->].
      { apply unscheduled_by_pair_is_Some. apply (ac_attributed p d); try done.
        by apply dict_in_get. }
      simpl. rewrite make_event_ok; [by eexists|]. split; simpl; try done.
      * by rewrite reject_reason_name_ok.
      * apply reject_reason_name_in.
      * intros r' [= <-]. apply unscheduled_reason_name_in.
    + rewrite make_event_ok; [by eexists|]. split; simpl; try done.
      * by rewrite reject_reason_name_ok.
      * split; [by intros []|by intros [? _]].
      * apply reject_reason_name_in.
Qed.

(** ** The ISL producers *)

(** What the ISL diff needs of a feasibility result and of the scheduler. *)
Record isl_contract (feas : dict node_pair IslFeasibilityResult)
    (links : dict node_pair ScheduledIsl) : Prop := {
  ik_reason p r : (p, r) ∈ feas →
    if_feasible r = bool_decide (if_reject_reason r = "ok") ∧ if_reject_reason r ∈ ISL_REJECT_REASONS;
  ik_link p r : (p, r) ∈ feas → ∃ l, dict_get p links = Some l ∧
    (if_feasible r = true → si_scheduled l = false → si_unscheduled_reason l = Some "capacity");
}.

Lemma isl_diff_total feas links sim_time long_delay prev :
  isl_contract feas links →
  is_Ok (diff_isl_visibility_events sim_time links long_delay feas prev) = true.
Proof.
  intros [Hr Hl]. unfold diff_isl_visibility_events.
  destruct (foldM_total (λ _, True) (isl_pair_step sim_time links long_delay) feas)
    with (s := (prev, [] : list VisibilityEvent)) as (s' & -> & _); [|done|done].
  intros [s evs] [p r] Hin _. destruct (Hr p r Hin) as [Hv Hreason].
  destruct (Hl p r Hin) as (l & Hlink & Hcap).
  enough (∃ s', isl_pair_step sim_time links long_delay (s, evs) (p, r) = Ok s') as [s' E]
    by (exists s'; done).
  unfold isl_pair_step, isl_unscheduled_reason. rewrite Hlink.
  destruct (if_feasible r) eqn:Ef; simpl.
  - destruct (bool_decide (_ = default _ _)); [by eexists|]. destruct (si_scheduled l) eqn:Es; simpl.
    + rewrite make_event_ok; [by eexists|]. split; simpl; try done.
      * intros t. by case_match; intros [= <-].
      * split; [by intros []|by intros [_ ?]].
      * by left.
    + rewrite (Hcap eq_refl eq_refl). simpl. rewrite make_event_ok; [by eexists|].
      split; simpl; try done; [by left|]. intros r' [= <-]. by left.
  - destruct (bool_decide (_ = default _ _)); [by eexists|]. simpl.
    rewrite make_event_ok; [by eexists|]. split; simpl; try done.
    split; [by intros []|by intros [? _]].
Qed.

Lemma isl_reason_in d limits t : isl_reason d limits t ∈ ISL_REJECT_REASONS.
Proof. unfold isl_reason. repeat case_match; apply (bool_decide_unpack _); by vm_compute. Qed.

Lemma isl_pair_reasons_in sg t pairs limits reasons r :
  isl_pair_reasons sg t pairs limits = Ok reasons → r ∈ reasons → r ∈ ISL_REJECT_REASONS.
Proof.
  unfold isl_pair_reasons. intros H. rbind H as dirs Hd. injection H as <-. clear Hd.
  revert limits. induction dirs as [|[f b] dirs IH]; intros [|l limits]; simpl; try by inversion 1.
  intros [->|?]%elem_of_cons; [|eauto]. case_match; apply isl_reason_in.
Qed.

Lemma structural_reason_in c reason ty :
  structural_reject c = Some (reason, ty) → reason ∈ ISL_REJECT_REASONS.
Proof.
  unfold structural_reject. repeat case_match; intros [= <- _]; apply (bool_decide_unpack _);
    by vm_compute.
Qed.

(** The structural rejections recorded so far carry ISL reasons. *)
Definition rejects_ok (s : IslScan) : Prop :=
  Forall (λ x, x.1.2 ∈ ISL_REJECT_REASONS) (sc_rejected s).

Lemma scan_assignment_rejects i n sa s a s' :
  rejects_ok s → scan_assignment i n sa s a = Ok s' → rejects_ok s'.
Proof.
  intros Hs Ha. unfold scan_assignment in Ha.
  rbind Ha as sb Hsb. destruct (negb _); [by injection Ha as <-|].
  rbind Ha as b Hb. rbind Ha as ca Hca. rbind Ha as cb Hcb. rguard Ha as Hbody.
  destruct (structural_reject _) as [[r t]|] eqn:Er; injection Ha as <-; [|done].
  apply Forall_app. split; [done|]. apply Forall_singleton. by eapply structural_reason_in.
Qed.

Lemma scan_rejected i s c reason ty :
  scan i = Ok s → (c, reason, ty) ∈ sc_rejected s → reason ∈ ISL_REJECT_REASONS.
Proof.
  intros H Hin. assert (rejects_ok s) as Hs.
  { revert H. apply (foldM_inv rejects_ok); [|constructor].
    intros s0 n s1 _ H0 Hn. unfold scan_node in Hn. rbind Hn as sa Hsa. revert Hn.
    apply (foldM_inv rejects_ok); [|done]. intros s2 a s3 _. apply scan_assignment_rejects. }
  unfold rejects_ok in Hs. rewrite Forall_forall in Hs. exact (Hs _ Hin).
Qed.

Lemma evaluate_reasons i feas p r :
  evaluate_isl_feasibility i = Ok feas → (p, r) ∈ feas →
  if_feasible r = bool_decide (if_reject_reason r = "ok") ∧ if_reject_reason r ∈ ISL_REJECT_REASONS.
Proof.
  unfold evaluate_isl_feasibility. intros H. rbind H as s Hs. destruct (bool_decide _).
  { injection H as <-. inversion 1. }
  rbind H as dirs Hd. rbind H as rej Hrej. rbind H as reasons Hrs. rbind H as fea Hfea.
  injection H as <-. intros Hin%dict_of_in. apply elem_of_app in Hin as [Hin|Hin].
  - apply mapM_r_Forall2 in Hrej. apply list_elem_of_lookup in Hin as [k Hk].
    destruct (Forall2_lookup_r _ _ _ _ _ Hrej Hk) as ([[c reason] ty] & Hc & Hr).
    rbind Hr as ow How. injection Hr as <- <-. split; [done|]. simpl.
    eapply scan_rejected; [exact Hs|]. by eapply list_elem_of_lookup_2.
  - apply mapM_r_Forall2 in Hfea. apply list_elem_of_lookup in Hin as [k Hk].
    destruct (Forall2_lookup_r _ _ _ _ _ Hfea Hk) as ([c reason] & Hc & Hr).
    rbind Hr as ow How. injection Hr as <- <-. split; [done|]. simpl.
    eapply isl_pair_reasons_in; [exact Hrs|]. apply list_elem_of_lookup_2 in Hc.
    by apply elem_of_zip_r in Hc.
Qed.

(** the ISL tick never fails in its last stage: for the results of the
    feasibility and scheduling engines, the diff emits its events. *)
Theorem isl_tick_total i counts feas links sim_time long_delay prev :
  evaluate_isl_feasibility i = Ok feas → schedule_isl_links (by_node i) counts feas = Ok links →
  is_Ok (diff_isl_visibility_events sim_time links long_delay feas prev) = true.
Proof.
  intros He Hs. apply isl_diff_total. split; [intros p r; by eapply evaluate_reasons|].
  intros p r Hin. unfold schedule_isl_links in Hs. rbind Hs as own Hown. injection Hs as <-.
  exists (scheduled_isl (scheduled_by_pair (enforce_symmetric_scheduling own)) p r).
  split; [|simpl; by intros -> ->]. apply dict_in_get.
  - unfold dict_wf, dict_keys. rewrite map_map.
    replace (map _ feas) with (dict_keys feas) by (unfold dict_keys; apply map_ext; by intros []).
    unfold evaluate_isl_feasibility in He. rbind He as s Hs. destruct (bool_decide _).
    { injection He as <-. constructor. }
    rbind He as dirs Hd. rbind He as rej Hrej. rbind He as reasons Hrs. rbind He as fea Hfea.
    injection He as <-. apply dict_of_wf.
  - apply list_elem_of_fmap. by exists (p, r).
Qed.
