(* ===== verification/Snapshot.v ===== *)
(** * Authoritative snapshots ([services/ome/snapshot_builder.py])

    The committed state of a tick, serialized: [LinkStateSnapshot] says what is
    forwarding (with [LinkState] of [lib/nodalarc/models/link_state.py]),
    [GroundLinkDecisionSnapshot] says what the ground engine decided and why
    (its cross-field validators are in [lib/nodalarc/models/link_decisions.py]). *)

From S2P Require Import Prelude.
From S2P Require Import PyFloat.
From S2P Require Import PyData.
From S2P Require Import GroundPolicy.
From S2P Require Import GroundTypes.
From S2P Require Import GroundAllocator.
From S2P Require Import GroundDecision.
From S2P Require Import EventDiff.
From stdpp Require Import base list strings gmap pretty.
Local Open Scope Z_scope.

(** ** Link states *)

Inductive AdminState := admin_up | admin_down.
Inductive CarrierState := carrier_up | carrier_lowerlayerdown | carrier_down.
Inductive RoutingState := routing_adjacent | routing_initializing | routing_down | routing_unknown.

#[global] Instance carrier_state_eq_dec : EqDecision CarrierState.
Proof. solve_decision. Defined.

Record LinkRuleMetadata := {
  rm_link_rule_id : string;
  rm_topology_mode : string;
  rm_endpoint_segments : string * string;
}.

Record LinkState := {
  ls_node_a : string;
  ls_node_b : string;
  ls_interface_a : string;
  ls_interface_b : string;
  ls_admin : AdminState;
  ls_carrier : CarrierState;
  ls_routing : RoutingState;
  ls_range_km : option float;
  ls_latency_a_to_b_ms : option float;
  ls_latency_b_to_a_ms : option float;
  ls_link_type : LinkType;
  ls_link_rule_id : option string;
  ls_topology_mode : option string;
  ls_endpoint_segments : option (string * string);
  ls_gs_terminal_index : option Z;
  ls_sat_terminal_index : option Z;
  ls_scheduling_state : SchedulingState;
  ls_teardown_remaining_ticks : option Z;
  ls_successor_pair : option node_pair;
  ls_contact_opened_at : option Z;
  ls_sim_time : Z;
}.

Record LinkStateSnapshot := {
  sn_sim_time : Z;
  sn_snapshot_seq : Z;
  sn_links : list LinkState;
  sn_interval_s : float;
  sn_epoch_id : Z;
}.

(** [LinkSnapshotSource]: the state the tick committed. *)
Record LinkSnapshotSource := {
  isl_state : dict node_pair (bool * bool);
  ground_state : dict node_pair (bool * bool);
  src_associations : dict node_pair (Z * Z);
  src_pending_teardowns : MbbTeardownState;
  ranges_km : gmap node_pair float;
  latencies_ms : gmap node_pair (float * float);
  contacts_opened : dict node_pair Z;
}.

(** The per-call arguments of [build_link_state_snapshot]. *)
Record SnapshotArgs := {
  interface_map : gmap node_pair (string * string);
  sa_sim_time : Z;
  sa_seq : Z;
  interval_s : float;
  fixed_positions : gset string;
  epoch_id : Z;
  mbb_overlap_ticks_by_gs : gmap string Z;
  current_step : Z;
  rule_map : gmap node_pair LinkRuleMetadata;
}.

Section Build.
Context (source : LinkSnapshotSource) (a : SnapshotArgs).

Definition link_range (p : node_pair) : result float :=
  or_raise (ranges_km source !! p) (ValueError "the tick committed no range for up link").
Definition committed_latencies (p : node_pair) : result (float * float) :=
  or_raise (latencies_ms source !! p) (ValueError "the tick committed no light time for it").

(** The geometry of a link: required when it is up, absent otherwise. *)
Definition geometry (p : node_pair) (up : bool) : result (option float * option (float * float)) :=
  if up then
    let! r := link_range p in
    let! l := committed_latencies p in
    Ok (Some r, Some l)
  else Ok (None, None).

(** Every open contact belongs to a link whose carrier is up. *)
Definition check_contact (p : node_pair) : result unit :=
  let state := match dict_get p (isl_state source) with
               | Some s => Some s
               | None => dict_get p (ground_state source)
               end in
  raise_if negb (bool_decide (state = Some (true, true)))
    with ValueError "a long-delay link has an open contact but its carrier is not up" ;;
  Ok tt.

Definition check_contacts : result unit :=
  foldM (λ _ x, check_contact x.1) tt (contacts_opened source).

Definition isl_link_state (x : node_pair * (bool * bool)) : result LinkState :=
  let '(p, (visible, scheduled)) := x in
  let! ifaces := or_raise (interface_map a !! p)
    (ValueError "missing configured interface metadata") in
  let carrier := if visible && scheduled then carrier_up else carrier_down in
  let up := bool_decide (carrier = carrier_up) in
  let! '(range, latencies) := geometry p up in
  let rule := rule_map a !! p in
  Ok {| ls_node_a := p.1; ls_node_b := p.2; ls_interface_a := ifaces.1;
        ls_interface_b := ifaces.2; ls_admin := admin_up; ls_carrier := carrier;
        ls_routing := routing_unknown; ls_range_km := range;
        ls_latency_a_to_b_ms := fst <$> latencies; ls_latency_b_to_a_ms := snd <$> latencies;
        ls_link_type := isl_link; ls_link_rule_id := rm_link_rule_id <$> rule;
        ls_topology_mode := rm_topology_mode <$> rule;
        ls_endpoint_segments := rm_endpoint_segments <$> rule;
        ls_gs_terminal_index := None; ls_sat_terminal_index := None;
        ls_scheduling_state := active; ls_teardown_remaining_ticks := None;
        ls_successor_pair := None; ls_contact_opened_at := dict_get p (contacts_opened source);
        ls_sim_time := sa_sim_time a |}.

(** The nodes known to be ground stations. *)
Definition ground_ids : gset string := dom (mbb_overlap_ticks_by_gs a) ∪ fixed_positions a.

(** [_ground_side]: which end of the pair is the station. *)
Definition ground_side (p : node_pair) : result bool :=
  match bool_decide (p.1 ∈ ground_ids), bool_decide (p.2 ∈ ground_ids) with
  | true, false => Ok true
  | false, true => Ok false
  | _, _ => Raise (ValueError "expected exactly one ground-station endpoint")
  end.

Definition overlap_ticks_for_ground_pair (p : node_pair) : result Z :=
  match mbb_overlap_ticks_by_gs a !! p.1, mbb_overlap_ticks_by_gs a !! p.2 with
  | Some n, _ => Ok n
  | None, Some n => Ok n
  | None, None => Raise (ValueError "missing per-ground-station MBB overlap policy")
  end.

Definition ground_carrier (visible scheduled : bool) : CarrierState :=
  if visible && scheduled then carrier_up
  else if visible && negb scheduled then carrier_lowerlayerdown
  else carrier_down.

(** The terminals of a ground link: required when it is up. *)
Definition terminals (p : node_pair) (carrier : CarrierState) : result (option (Z * Z)) :=
  match carrier, dict_get p (src_associations source) with
  | carrier_up, None => Raise (ValueError "missing OME terminal association")
  | _, assoc => Ok assoc
  end.

Definition term_iface (gs_ti : Z) : string := "term" +:+ pretty gs_ti.
Definition gnd_iface (sat_ti : Z) : string := "gnd" +:+ pretty sat_ti.

Definition ground_interfaces (p : node_pair) (indices : option (Z * Z)) :
    result (string * string) :=
  match indices with
  | None => Ok ("", "")
  | Some (gs_ti, sat_ti) =>
      let! station_first := ground_side p in
      Ok (if (station_first : bool) then (term_iface gs_ti, gnd_iface sat_ti)
          else (gnd_iface sat_ti, term_iface gs_ti))
  end.

(** The remaining overlap of a teardown, and its successor. *)
Definition teardown_facts (p : node_pair) : result (option Z * option node_pair) :=
  match src_pending_teardowns source !! p with
  | None => Ok (None, None)
  | Some t =>
      let! ticks := overlap_ticks_for_ground_pair p in
      Ok (Some (Z.max 0 (ticks - (current_step a - start_step t))), Some (successor_pair t))
  end.

Definition ground_link_state (x : node_pair * (bool * bool)) : result LinkState :=
  let '(p, (visible, scheduled)) := x in
  let sched_state := if is_none (src_pending_teardowns source !! p) then active else teardown in
  let carrier := ground_carrier visible scheduled in
  let up := bool_decide (carrier = carrier_up) in
  let! '(range, latencies) := geometry p up in
  let! indices := terminals p carrier in
  let! ifaces := ground_interfaces p indices in
  let! '(remaining, successor) := teardown_facts p in
  let rule := rule_map a !! p in
  Ok {| ls_node_a := p.1; ls_node_b := p.2; ls_interface_a := ifaces.1;
        ls_interface_b := ifaces.2; ls_admin := admin_up; ls_carrier := carrier;
        ls_routing := routing_unknown; ls_range_km := range;
        ls_latency_a_to_b_ms := fst <$> latencies; ls_latency_b_to_a_ms := snd <$> latencies;
        ls_link_type := ground_link; ls_link_rule_id := rm_link_rule_id <$> rule;
        ls_topology_mode := rm_topology_mode <$> rule;
        ls_endpoint_segments := rm_endpoint_segments <$> rule;
        ls_gs_terminal_index := fst <$> indices; ls_sat_terminal_index := snd <$> indices;
        ls_scheduling_state := sched_state; ls_teardown_remaining_ticks := remaining;
        ls_successor_pair := successor;
        ls_contact_opened_at := if up then dict_get p (contacts_opened source) else None;
        ls_sim_time := sa_sim_time a |}.

Definition build_link_state_snapshot : result LinkStateSnapshot :=
  let! _ := check_contacts in
  let! isl := mapM_r isl_link_state (isl_state source) in
  let! ground_links := mapM_r ground_link_state (ground_state source) in
  Ok {| sn_sim_time := sa_sim_time a; sn_snapshot_seq := sa_seq a; sn_links := isl ++ ground_links;
        sn_interval_s := interval_s a; sn_epoch_id := epoch_id a |}.
End Build.

(** [LinkState]'s validator, which the leaf construction skips. *)
Definition contact_only_on_an_up_link (l : LinkState) : result unit :=
  match ls_contact_opened_at l with
  | None => Ok tt
  | Some opened =>
      raise_if negb (bool_decide (ls_carrier l = carrier_up))
        with ValueError "a contact opening belongs only to a link whose carrier is up" ;;
      raise_if ls_sim_time l <? opened
        with ValueError "its contact opened after the snapshot time" ;;
      Ok tt
  end.

(** ** The decision snapshot *)

Record GroundLinkDecisionSnapshot := {
  ds_sim_time : Z;
  ds_snapshot_seq : Z;
  ds_epoch_id : Z;
  ds_decisions : list GroundVisibilityDecisionWire;
  ds_unscheduled_pairs : list UnscheduledPair;
  ds_policy_audit : GroundPolicyAudit;
  ds_allocation_events : list GroundAllocationEvent;
}.

(** [_decisions_have_unique_pairs]. *)
Definition decisions_have_unique_pairs (s : GroundLinkDecisionSnapshot) : result unit :=
  let! _ := foldM (λ (seen : gset node_pair) d,
      raise_if bool_decide (gd_pair d ∈ seen) with ValueError "decisions has duplicate pair" ;;
      Ok ({[gd_pair d]} ∪ seen)) ∅ (ds_decisions s) in
  Ok tt.

(** One entry of [_unscheduled_pairs_consistent_with_decisions]. *)
Definition check_unscheduled (decision_by_pair : dict node_pair GroundVisibilityDecisionWire)
    (seen : gset node_pair) (u : UnscheduledPair) : result (gset node_pair) :=
  raise_if bool_decide (up_pair u ∈ seen) with ValueError "unscheduled_pairs has duplicate pair" ;;
  let seen := {[up_pair u]} ∪ seen in
  let! d := or_raise (dict_get (up_pair u) decision_by_pair)
    (ValueError "unscheduled_pair has no matching entry in decisions") in
  raise_if negb (gd_visible d)
    with ValueError "unscheduled_pair references a decision with visible=False" ;;
  raise_if negb (bool_decide (up_tenant_id u = gd_tenant_id d))
    with ValueError "unscheduled_pair tenant_id disagrees with its decision" ;;
  raise_if negb (bool_decide (up_reference_body u = gd_reference_body d))
    with ValueError "unscheduled_pair reference_body disagrees with its decision" ;;
  Ok seen.

Definition unscheduled_pairs_consistent (s : GroundLinkDecisionSnapshot) : result unit :=
  let by_pair := dict_of (map (λ d, (gd_pair d, d)) (ds_decisions s)) in
  let! _ := foldM (check_unscheduled by_pair) ∅ (ds_unscheduled_pairs s) in
  Ok tt.

Definition build_link_decision_snapshot (decisions : GroundVisibilityDecisionMap)
    (unscheduled : list UnscheduledPair) (audit : GroundPolicyAudit)
    (events : list GroundAllocationEvent) (sim_time snapshot_seq epoch_id : Z) :
    result GroundLinkDecisionSnapshot :=
  let wire := map snd (sorted (λ x y, npair_lt x.1 y.1) decisions) in
  let s := {| ds_sim_time := sim_time; ds_snapshot_seq := snapshot_seq; ds_epoch_id := epoch_id;
              ds_decisions := wire; ds_unscheduled_pairs := unscheduled;
              ds_policy_audit := audit; ds_allocation_events := events |} in
  let! _ := decisions_have_unique_pairs s in
  let! _ := unscheduled_pairs_consistent s in
  Ok s.
