(* ===== verification/SnapshotTheorems.v ===== *)
(** * What a snapshot promises its subscribers

    Every link that is up carries its geometry and its interfaces, no two ground
    links that are up meet on one interface, the leaf validation the builder
    skips would pass, and the decision snapshot's cross-field checks hold under
    the allocator's contract. *)

From S2P Require Import Prelude.
From S2P Require Import PyFloat.
From S2P Require Import PyData.
From S2P Require Import GroundPolicy.
From S2P Require Import GroundTypes.
From S2P Require Import GroundAllocator.
From S2P Require Import GroundDecision.
From S2P Require Import EventDiff.
From S2P Require Import EventDiffTheorems.
From S2P Require Import Snapshot.
From S2P Require Import GroundTheorems.
From S2P Require Import GroundTicks.
From stdpp Require Import base list strings gmap pretty.
Local Open Scope Z_scope.

Definition link_pair (l : LinkState) : node_pair := (ls_node_a l, ls_node_b l).

(** Where the links of a snapshot come from. *)
Lemma snapshot_links source a snap :
  build_link_state_snapshot source a = Ok snap →
  check_contacts source = Ok tt ∧
  ∃ isl gnd, sn_links snap = isl ++ gnd ∧
    Forall2 (λ x l, isl_link_state source a x = Ok l) (isl_state source) isl ∧
    Forall2 (λ x l, ground_link_state source a x = Ok l) (ground_state source) gnd.
Proof.
  unfold build_link_state_snapshot. intros H. rbind H as [] Hc. split; [done|].
  rbind H as isl Hi. rbind H as gnd Hg. injection H as <-. exists isl, gnd.
  split; [done|]. split; by apply mapM_r_Forall2.
Qed.

Lemma Forall2_elem_r {A B} (P : A → B → Prop) l k y :
  Forall2 P l k → y ∈ k → ∃ x, x ∈ l ∧ P x y.
Proof.
  intros HF [n Hn]%list_elem_of_lookup. destruct (Forall2_lookup_r _ _ _ _ _ HF Hn) as (x & Hx & ?).
  apply list_elem_of_lookup_2 in Hx. eauto.
Qed.

(** ** One ground link *)

Record ground_link_spec (source : LinkSnapshotSource) (a : SnapshotArgs) (p : node_pair)
    (visible scheduled : bool) (l : LinkState) : Prop := {
  gl_pair : link_pair l = p;
  gl_carrier : ls_carrier l = ground_carrier visible scheduled;
  gl_type : ls_link_type l = ground_link;
  gl_geometry : ls_carrier l = carrier_up → ∃ r x y,
    ranges_km source !! p = Some r ∧ latencies_ms source !! p = Some (x, y) ∧
    ls_range_km l = Some r ∧ ls_latency_a_to_b_ms l = Some x ∧ ls_latency_b_to_a_ms l = Some y;
  gl_terminals : ls_carrier l = carrier_up → ∃ gi si sf,
    dict_get p (src_associations source) = Some (gi, si) ∧ ground_side a p = Ok sf ∧
    ls_gs_terminal_index l = Some gi ∧ ls_sat_terminal_index l = Some si ∧
    (ls_interface_a l, ls_interface_b l) =
      (if sf : bool then (term_iface gi, gnd_iface si) else (gnd_iface si, term_iface gi));
  gl_contact t : ls_contact_opened_at l = Some t →
    ls_carrier l = carrier_up ∧ dict_get p (contacts_opened source) = Some t;
  gl_time : ls_sim_time l = sa_sim_time a;
  gl_remaining n : ls_teardown_remaining_ticks l = Some n →
    0 ≤ n ∧ ∃ t, src_pending_teardowns source !! p = Some t ∧
      ls_successor_pair l = Some (successor_pair t);
}.

Lemma geometry_up source p g : geometry source p true = Ok g →
  ∃ r l, ranges_km source !! p = Some r ∧ latencies_ms source !! p = Some l ∧ g = (Some r, Some l).
Proof.
  unfold geometry, link_range, committed_latencies. intros H. rbind H as r Hr. rbind H as l Hl.
  injection H as <-. eauto.
Qed.

Lemma ground_link_state_spec source a p visible scheduled l :
  ground_link_state source a (p, (visible, scheduled)) = Ok l →
  ground_link_spec source a p visible scheduled l.
Proof.
  unfold ground_link_state. intros H. rbind H as [range lats] Hg. rbind H as ij Hij.
  rbind H as ifs Hifs. rbind H as [rem succ] Htd. injection H as <-. split; simpl; try done.
  - by destruct p.
  - intros E. rewrite (bool_decide_eq_true_2 _ E) in Hg.
    apply geometry_up in Hg as (r & [x y] & Hr & Hl & [= -> ->]). eauto 10.
  - intros E. rewrite E in Hij. unfold terminals in Hij.
    destruct (dict_get p (src_associations source)) as [[gi si]|] eqn:Ea; [|done].
    injection Hij as <-. unfold ground_interfaces in Hifs. rbind Hifs as sf Hsf.
    injection Hifs as <-. exists gi, si, sf. split_and!; try done. by destruct sf.
  - intros t. case_bool_decide as E; [|done]. done.
  - intros n E. unfold teardown_facts in Htd.
    destruct (src_pending_teardowns source !! p) as [t|]; [|by injection Htd as <- <-].
    rbind Htd as ticks Ht. injection Htd as <- <-. injection E as <-. split; [lia|eauto].
Qed.

(** every up ground link of a snapshot carries the range and the two
    delays the tick committed for its pair, and the terminals the allocator gave
    it; an up inter-satellite link carries its range and delays. *)
Theorem snapshot_up_links_complete source a snap l :
  build_link_state_snapshot source a = Ok snap → l ∈ sn_links snap → ls_carrier l = carrier_up →
  (∃ r x y, ranges_km source !! link_pair l = Some r ∧
     latencies_ms source !! link_pair l = Some (x, y) ∧ ls_range_km l = Some r ∧
     ls_latency_a_to_b_ms l = Some x ∧ ls_latency_b_to_a_ms l = Some y) ∧
  (ls_link_type l = ground_link → ∃ gi si,
     dict_get (link_pair l) (src_associations source) = Some (gi, si) ∧
     ls_gs_terminal_index l = Some gi ∧ ls_sat_terminal_index l = Some si).
Proof.
  intros (_ & isl & gnd & -> & Hi & Hg)%snapshot_links [Hl|Hl]%elem_of_app Hup.
  - destruct (Forall2_elem_r _ _ _ _ Hi Hl) as ([p [v s]] & _ & H).
    unfold isl_link_state in H. rbind H as ifs Hifs. rbind H as [range lats] Hgeo.
    injection H as <-. simpl in Hup. rewrite (bool_decide_eq_true_2 _ Hup) in Hgeo.
    apply geometry_up in Hgeo as (r & [x y] & Hr & Hlt & [= -> ->]). unfold link_pair. simpl.
    destruct p. split; [eauto 10|done].
  - destruct (Forall2_elem_r _ _ _ _ Hg Hl) as ([p [v s]] & _ & H).
    apply ground_link_state_spec in H as [Hp _ _ Hgeo Ht _ _ _]. rewrite Hp. split; [by apply Hgeo|].
    intros _. destruct (Ht Hup) as (gi & si & sf & ? & _ & ? & ? & _). eauto.
Qed.

(** The two ends of a link: node and interface. *)
Definition link_ends (l : LinkState) : list (string * string) :=
  [(ls_node_a l, ls_interface_a l); (ls_node_b l, ls_interface_b l)].

(** A link's ends, seen from the station and from the satellite. *)
Lemma ground_ends source a p l gi si :
  ground_link_spec source a p true true l →
  dict_get p (src_associations source) = Some (gi, si) →
  ∃ g s, station_of (ground_ids a) p = Some g ∧ satellite_of (ground_ids a) p = Some s ∧
    g ∈ ground_ids a ∧ (s ∉ ground_ids a) ∧
    ∀ e, e ∈ link_ends l → e = (g, term_iface gi) ∨ e = (s, gnd_iface si).
Proof.
  intros [Hp Hc _ _ Ht _ _ _] Hv. destruct (Ht Hc) as (gi' & si' & sf & Hv' & Hsf & _ & _ & Hif).
  rewrite Hv in Hv'. injection Hv' as <- <-. unfold link_ends, link_pair in *.
  destruct p as [n m]. injection Hp as Hn Hm. rewrite Hn, Hm. clear Hn Hm.
  unfold ground_side, station_of, satellite_of, ground_and_satellite_ids in *. simpl in *.
  repeat case_bool_decide; simpl in *; try done; injection Hsf as <-; injection Hif as -> ->.
  - exists n, m. split_and!; try done. intros e. set_solver.
  - exists m, n. split_and!; try done. intros e. set_solver.
Qed.

Lemma term_gnd_ne x y : term_iface x ≠ gnd_iface y.
Proof. done. Qed.
Lemma term_iface_inj x y : term_iface x = term_iface y → x = y.
Proof. unfold term_iface. intros H. apply (inj (String.append "term")) in H. by apply (inj pretty). Qed.
Lemma gnd_iface_inj x y : gnd_iface x = gnd_iface y → x = y.
Proof. unfold gnd_iface. intros H. apply (inj (String.append "gnd")) in H. by apply (inj pretty). Qed.

Lemma up_ground_link source a snap l :
  build_link_state_snapshot source a = Ok snap → l ∈ sn_links snap →
  ls_link_type l = ground_link → ls_carrier l = carrier_up →
  ground_link_spec source a (link_pair l) true true l.
Proof.
  intros (_ & isl & gnd & -> & Hi & Hg)%snapshot_links [Hl|Hl]%elem_of_app Hty Hup.
  - destruct (Forall2_elem_r _ _ _ _ Hi Hl) as ([p [v s]] & _ & H).
    unfold isl_link_state in H. rbind H as ifs Hifs. rbind H as [range lats] Hgeo. by injection H as <-.
  - destruct (Forall2_elem_r _ _ _ _ Hg Hl) as ([p [v s]] & _ & H).
    apply ground_link_state_spec in H. pose proof (gl_pair _ _ _ _ _ _ H) as ->.
    pose proof (gl_carrier _ _ _ _ _ _ H) as E. rewrite Hup in E.
    by destruct v, s.
Qed.

(** on exclusive associations, two up ground links of a snapshot never
    meet on one interface of a node. *)
Theorem snapshot_interfaces_exclusive source a snap l1 l2 e :
  exclusive (ground_ids a) (src_associations source) →
  build_link_state_snapshot source a = Ok snap →
  l1 ∈ sn_links snap → l2 ∈ sn_links snap →
  ls_link_type l1 = ground_link → ls_link_type l2 = ground_link →
  ls_carrier l1 = carrier_up → ls_carrier l2 = carrier_up →
  e ∈ link_ends l1 → e ∈ link_ends l2 → link_pair l1 = link_pair l2.
Proof.
  intros Hex H H1 H2 Ht1 Ht2 Hu1 Hu2 He1 He2.
  pose proof (up_ground_link _ _ _ _ H H1 Ht1 Hu1) as S1.
  pose proof (up_ground_link _ _ _ _ H H2 Ht2 Hu2) as S2.
  destruct (gl_terminals _ _ _ _ _ _ S1 Hu1) as (gi & si & _ & Hv1 & _).
  destruct (gl_terminals _ _ _ _ _ _ S2 Hu2) as (gj & sj & _ & Hv2 & _).
  destruct (ground_ends _ _ _ _ _ _ S1 Hv1) as (g & s & Hg & Hs & Hgin & Hsout & E1).
  destruct (ground_ends _ _ _ _ _ _ S2 Hv2) as (g' & s' & Hg' & Hs' & Hgin' & Hsout' & E2).
  destruct (decide (link_pair l1 = link_pair l2)) as [|Hne]; [done|exfalso].
  destruct (Hex _ _ _ _ Hv1 Hv2 Hne) as [Xg Xs].
  destruct (E1 e He1) as [->| ->], (E2 _ He2) as [E|E];
    pose proof (f_equal fst E) as En; apply (f_equal snd) in E; simpl in En, E; subst.
  - apply (Xg g'); try done. by apply term_iface_inj.
  - done.
  - done.
  - apply (Xs s'); try done. by apply gnd_iface_inj.
Qed.

(** ** Contacts *)

Lemma check_contacts_spec source p t :
  check_contacts source = Ok tt → dict_get p (contacts_opened source) = Some t →
  match dict_get p (isl_state source) with
  | Some s => s = (true, true)
  | None => dict_get p (ground_state source) = Some (true, true)
  end.
Proof.
  intros H Hp. apply dict_get_in in Hp. unfold check_contacts in H.
  apply list_elem_of_split in Hp as (l1 & l2 & E). rewrite E, foldM_app in H.
  rbind H as [] H1. simpl in H. rbind H as [] H2. unfold check_contact in H2. rguard H2 as E2.
  simpl in E2. destruct (dict_get p (isl_state source)); [by injection E2|done].
Qed.

(** the leaf validation the builder skips would pass: a contact opening
    appears only on a link whose carrier is up, and never after the snapshot. *)
Theorem snapshot_leaf_valid source a snap l :
  build_link_state_snapshot source a = Ok snap → dict_wf (isl_state source) →
  (∀ p t, dict_get p (contacts_opened source) = Some t → t ≤ sa_sim_time a) →
  l ∈ sn_links snap → contact_only_on_an_up_link l = Ok tt.
Proof.
  intros (Hc & isl & gnd & -> & Hi & Hg)%snapshot_links Hwf Htime [Hl|Hl]%elem_of_app;
    unfold contact_only_on_an_up_link.
  - destruct (Forall2_elem_r _ _ _ _ Hi Hl) as ([p [v s]] & Hin & H).
    unfold isl_link_state in H. rbind H as ifs Hifs. rbind H as [range lats] Hgeo.
    injection H as <-. simpl. destruct (dict_get p (contacts_opened source)) as [t|] eqn:Et; [|done].
    pose proof (check_contacts_spec _ _ _ Hc Et) as Hup. apply dict_in_get in Hin; [|done].
    rewrite Hin in Hup. injection Hup as -> ->. simpl.
    specialize (Htime _ _ Et). destruct (Z.ltb_spec (sa_sim_time a) t); [lia|done].
  - destruct (Forall2_elem_r _ _ _ _ Hg Hl) as ([p [v s]] & Hin & H).
    apply ground_link_state_spec in H as [_ _ _ _ _ Hct Hti _].
    destruct (ls_contact_opened_at l) as [t|] eqn:Et; [|done].
    destruct (Hct t eq_refl) as [Hup Hd]. rewrite Hup, Hti. simpl.
    specialize (Htime _ _ Hd). destruct (Z.ltb_spec (sa_sim_time a) t); [lia|done].
Qed.
