(* ===== verification/Pipeline.v ===== *)
(** * The ground tick, end to end

    The allocator discharges [AllocationContract], so after a successful
    allocation neither the event diff nor the decision snapshot can fail: the
    three components agree on every visible pair. *)

From S2P Require Import Prelude.
From S2P Require Import PyFloat.
From S2P Require Import PyData.
From S2P Require Import GroundPolicy.
From S2P Require Import GroundTypes.
From S2P Require Import GroundAllocator.
From S2P Require Import GroundScenario.
From S2P Require Import GroundInv.
From S2P Require Import GroundPrepare.
From S2P Require Import GroundDecision.
From S2P Require Import EventDiff.
From S2P Require Import EventDiffTheorems.
From S2P Require Import Snapshot.
From S2P Require Import GroundTheorems.
From stdpp Require Import base list strings gmap.
Local Open Scope Z_scope.

(** ** Dictionaries built from unique keys *)

Lemma dict_of_unique {K V} `{EqDecision K} (l : list (K * V)) k v :
  NoDup (map fst l) → (k, v) ∈ l → dict_get k (dict_of l) = Some v.
Proof.
  unfold dict_of.
  enough (∀ d, NoDup (map fst l) →
    ((k, v) ∈ l ∨ ((k ∉ map fst l) ∧ dict_get k d = Some v)) →
    dict_get k (fold_left (λ d kv, dict_set kv.1 kv.2 d) l d) = Some v) as H by (intros; auto).
  induction l as [|[k' v'] l IH]; intros d Hnd H; simpl in *.
  - destruct H as [H|[_ H]]; [inversion H|done].
  - apply NoDup_cons in Hnd as [Hk Hnd]. apply IH; [done|]. rewrite dict_get_set.
    rewrite elem_of_cons, not_elem_of_cons in H. destruct H as [[[= -> ->]|H]|[[Hne Hout] Hd]].
    + right. split; [done|]. by rewrite decide_True.
    + by left.
    + right. split; [done|]. by rewrite decide_False by congruence.
Qed.

(** A [seen] loop over distinct keys does not raise. *)
Lemma seen_fold_ok {A} (f : A → node_pair) (e : exn) (l : list A) (seen : gset node_pair) :
  NoDup (map f l) → (∀ x, x ∈ l → f x ∉ seen) →
  is_Ok (foldM (λ (seen : gset node_pair) x,
    raise_if bool_decide (f x ∈ seen) with e ;; Ok ({[f x]} ∪ seen)) seen l) = true.
Proof.
  revert seen. induction l as [|x l IH]; intros seen Hnd Hs; simpl; [done|].
  apply NoDup_cons in Hnd as [Hx Hnd]. rewrite bool_decide_eq_false_2 by (apply Hs; by left).
  simpl. apply IH; [done|]. intros y Hy. rewrite elem_of_union, elem_of_singleton.
  intros [E|?]; [|by eapply Hs; [right|]]. apply Hx. rewrite <- E. apply list_elem_of_fmap. eauto.
Qed.

(** ** The decision snapshot *)

Section DecisionSnapshot.
Context (decisions : GroundVisibilityDecisionMap) (allocation : GroundAllocationResult).
Context `{Hac : !AllocationContract decisions allocation} (Hwf : dict_wf decisions)
  (Hkeys : Forall (λ x, gd_pair x.2 = x.1) decisions).

Abbreviation wire := (map snd (sorted (λ x y, npair_lt x.1 y.1) decisions)).

Lemma wire_pairs : map gd_pair wire ≡ₚ dict_keys decisions.
Proof using Hkeys.
  rewrite map_map. unfold dict_keys.
  rewrite (sorted_perm (λ x y : node_pair * GroundVisibilityDecision, npair_lt x.1 y.1) decisions).
  enough (map (λ x, gd_pair x.2) decisions = map fst decisions) as -> by done.
  apply List.map_ext_in. intros x Hx%list_elem_of_In.
  rewrite Forall_forall in Hkeys. by apply Hkeys.
Qed.

Lemma wire_unique : NoDup (map gd_pair wire).
Proof using Hwf Hkeys. rewrite wire_pairs. exact Hwf. Qed.

Lemma wire_lookup p d :
  dict_get p decisions = Some d →
  dict_get p (dict_of (map (λ d, (gd_pair d, d)) wire)) = Some d.
Proof using Hwf Hkeys.
  intros Hd%dict_get_in. apply dict_of_unique.
  - rewrite map_map. exact wire_unique.
  - apply list_elem_of_fmap. exists d.
    rewrite Forall_forall in Hkeys. pose proof (Hkeys _ Hd) as E. simpl in E. rewrite E.
    split; [done|]. apply list_elem_of_fmap. exists (p, d). split; [done|].
    by apply elem_of_sorted.
Qed.

Lemma unscheduled_fold_ok (l : list UnscheduledPair) (seen : gset node_pair) :
  NoDup (map up_pair l) → (∀ u, u ∈ l → up_pair u ∉ seen) →
  (∀ u, u ∈ l → u ∈ unscheduled_pairs allocation) →
  is_Ok (foldM (check_unscheduled (dict_of (map (λ d, (gd_pair d, d)) wire))) seen l) = true.
Proof using Hac Hwf Hkeys.
  revert seen. induction l as [|u l IH]; intros seen Hnd Hs Hin; simpl; [done|].
  apply NoDup_cons in Hnd as [Hu Hnd].
  destruct (ac_owner u (Hin u (ltac:(by left)))) as (d & Hd & Hv & Ht & Hb).
  unfold check_unscheduled at 1. rewrite bool_decide_eq_false_2 by (apply Hs; by left).
  rewrite (wire_lookup _ _ Hd). cbn [or_raise rbind]. rewrite Hv, Ht, Hb.
  rewrite !bool_decide_eq_true_2 by done. simpl.
  apply IH; [done| |intros y Hy; apply Hin; by right].
  intros y Hy. rewrite elem_of_union, elem_of_singleton.
  intros [E|?]; [|by eapply Hs; [right|]]. apply Hu. rewrite <- E. apply list_elem_of_fmap. eauto.
Qed.

Lemma decision_snapshot_ok audit events t n e :
  is_Ok (build_link_decision_snapshot decisions (unscheduled_pairs allocation) audit events t n e)
  = true.
Proof using Hac Hwf Hkeys.
  unfold build_link_decision_snapshot, decisions_have_unique_pairs, unscheduled_pairs_consistent.
  simpl. pose proof (seen_fold_ok gd_pair (ValueError "decisions has duplicate pair") wire ∅
    wire_unique (λ x _, not_elem_of_empty _)) as H1.
  destruct (foldM _ ∅ wire); [|done]. simpl.
  pose proof (unscheduled_fold_ok (unscheduled_pairs allocation) ∅ ac_once
    (λ u _, not_elem_of_empty _) (λ u Hu, Hu)) as H2.
  by destruct (foldM _ ∅ (unscheduled_pairs allocation)).
Qed.
End DecisionSnapshot.

(** ** The allocator discharges the contract *)

(** The visibility input and the decisions of one tick describe the same pairs,
    with the same owners. *)
Definition owner_agrees (i : AllocInput) (x : node_pair * GroundVisibilityDecision) : bool :=
  match ground_and_satellite_ids (ground_station_ids i) x.1 with
  | Ok (g, _) => bool_decide (gs_tenant_ids i !! g = Some (gd_tenant_id x.2)) &&
                 bool_decide (gs_reference_bodies i !! g = Some (gd_reference_body x.2))
  | Raise _ => true
  end.

Definition same_tick (i : AllocInput) (decisions : GroundVisibilityDecisionMap) : Prop :=
  dict_wf decisions ∧
  visible_pairs i = list_to_set (map fst (List.filter (λ x, gd_visible x.2) decisions)) ∧
  Forall (λ x, owner_agrees i x = true) decisions.

#[global] Instance same_tick_dec i decisions : Decision (same_tick i decisions).
Proof. unfold same_tick, dict_wf. apply _. Defined.

Lemma same_tick_visible i decisions p :
  same_tick i decisions →
  p ∈ visible_pairs i ↔ ∃ d, dict_get p decisions = Some d ∧ gd_visible d = true.
Proof.
  intros (Hwf & -> & _). rewrite elem_of_list_to_set, list_elem_of_fmap. split.
  - intros ([q d] & -> & [Hin Hv]%in_filter_bool). apply dict_in_get in Hin; eauto.
  - intros (d & Hd%dict_get_in & Hv). exists (p, d). split; [done|]. by apply in_filter_bool.
Qed.

Lemma same_tick_owner i decisions p d g s :
  same_tick i decisions → dict_get p decisions = Some d →
  ground_and_satellite_ids (ground_station_ids i) p = Ok (g, s) →
  gs_tenant_ids i !! g = Some (gd_tenant_id d) ∧
  gs_reference_bodies i !! g = Some (gd_reference_body d).
Proof.
  intros (_ & _ & HF) Hd%dict_get_in Hids. rewrite Forall_forall in HF. specialize (HF _ Hd).
  unfold owner_agrees in HF. simpl in HF. rewrite Hids in HF.
  by apply andb_true_iff in HF as [?%bool_decide_eq_true ?%bool_decide_eq_true].
Qed.

Lemma allocation_contract i r decisions :
  input_ok i → allocate_ground_links i = Ok r → same_tick i decisions →
  AllocationContract decisions r.
Proof.
  intros Hi H Hsame. destruct (allocate_Ok i r Hi H) as (env & st & Ha).
  pose proof (al_unscheduled _ _ _ _ Ha) as HF%unscheduled_spec.
  assert (map up_pair (unscheduled_pairs r) =
    sorted_set npair_lt (visible_set env ∖ scheduled_set st)) as Hpairs.
  { clear -HF. induction HF as [|p u l l' Hpu _ IH]; simpl; [done|].
    apply unscheduled_pair_spec in Hpu as [-> _]. by rewrite IH. }
  assert (scheduled_pairs r = scheduled_set st) as Hsched.
  { rewrite (al_scheduled _ _ _ _ Ha), (al_associations _ _ _ _ Ha). done. }
  split.
  - intros p. rewrite (al_scheduled _ _ _ _ Ha), elem_of_list_to_set. by rewrite dict_get_is_Some.
  - intros p d Hd Hv Hout. rewrite Hpairs, elem_of_sorted_set, elem_of_difference, <- Hsched.
    split; [|done]. rewrite (al_visible _ _ _ _ Ha). apply (same_tick_visible i decisions p Hsame). eauto.
  - rewrite Hpairs. apply NoDup_sorted_set.
  - intros u [n Hn]%list_elem_of_lookup.
    destruct (Forall2_lookup_r _ _ _ _ _ HF Hn) as (p & Hp & Hpu).
    apply list_elem_of_lookup_2 in Hp. rewrite elem_of_sorted_set, elem_of_difference in Hp.
    destruct Hp as [Hp _]. rewrite (al_visible _ _ _ _ Ha) in Hp.
    apply (same_tick_visible i decisions p Hsame) in Hp as (d & Hd & Hv).
    apply unscheduled_pair_spec in Hpu as (-> & g & s & rej & Hids & _ & Ht & Hb & _).
    unfold ids in Hids. rewrite (al_inp _ _ _ _ Ha) in *.
    destruct (same_tick_owner i decisions p d g s Hsame Hd Hids) as [Ht' Hb']. exists d. rewrite Ht in Ht'. rewrite Hb in Hb'.
    injection Ht' as ->. injection Hb' as ->. done.
Qed.

(** after a successful allocation the rest of the ground tick cannot fail:
    for decisions of the same tick, the event diff emits its events and the
    decision snapshot passes its cross-field checks. *)
Theorem ground_tick_total i r decisions sim_time types long_delay prev n epoch :
  input_ok i → allocate_ground_links i = Ok r → same_tick i decisions →
  Forall (λ x, gd_pair x.2 = x.1 ∧ decision_post_init x.2 = Ok tt ∧ is_Some (types !! x.1)) decisions →
  is_Ok (diff_ground_visibility_events sim_time r types long_delay decisions prev) = true ∧
  is_Ok (build_link_decision_snapshot decisions (unscheduled_pairs r) (r_policy_audit r)
           (r_allocation_events r) sim_time n epoch) = true.
Proof.
  intros Hi H Hsame HF. pose proof (allocation_contract i r decisions Hi H Hsame) as Hac.
  destruct Hsame as [Hwf _]. split.
  - apply (ground_diff_total decisions r); try done.
    eapply Forall_impl; [exact HF|]. by intros x (_ & ? & ?).
  - apply (decision_snapshot_ok decisions r); try done.
    eapply Forall_impl; [exact HF|]. by intros x (? & _).
Qed.
