(* ===== verification/TickScenario.v ===== *)
(** * One tick, evaluated

    A handover tick of one station (its allocation, decisions, events and
    snapshots) and one inter-satellite tick, on which the theorems about
    events, snapshots and the ground tick are applied. *)

From S2P Require Import Prelude.
From S2P Require Import PyFloat.
From S2P Require Import PyData.
From S2P Require Import GroundPolicy.
From S2P Require Import GroundTypes.
From S2P Require Import GroundAllocator.
From S2P Require Import GroundScenario.
From S2P Require Import GroundDecision.
From S2P Require Import IslEngine.
From S2P Require Import IslTheorems.
From S2P Require Import EventDiff.
From S2P Require Import EventDiffTheorems.
From S2P Require Import Snapshot.
From S2P Require Import GroundTheorems.
From S2P Require Import GroundTicks.
From S2P Require Import SnapshotTheorems.
From S2P Require Import Pipeline.
From stdpp Require Import base list strings gmap pretty.
Local Open Scope Z_scope.

(** ** The ground side *)

Definition visible_decision (sat : string) (elevation : Z) : GroundVisibilityDecision :=
  {| gd_pair := ("gs-A", sat); gd_tenant_id := "default"; gd_reference_body := "earth";
     gd_visible := true; gd_range_km := float_of_Z 1000; gd_latency_a_to_b_ms := float_of_Z 4;
     gd_latency_b_to_a_ms := float_of_Z 4; gd_elevation_deg := float_of_Z elevation;
     gd_azimuth_deg := None; gd_sat_off_nadir_deg := None; gd_observer_frame := "body_local";
     gd_reject_reason := ok; gd_rejecting_endpoint := endpoint_none;
     gd_applied_min_elevation_deg := float_of_Z 10; gd_applied_gs_max_range_km := None;
     gd_applied_sat_max_range_km := None; gd_applied_gs_field_of_regard_deg := None;
     gd_applied_sat_field_of_regard_deg := None; gd_applied_gs_max_tracking_rate_deg_s := None;
     gd_applied_sat_max_tracking_rate_deg_s := None; gd_applied_gs_boresight_mode := None;
     gd_applied_sat_boresight_mode := None; gd_applied_gs_terminal_profile := None;
     gd_applied_sat_terminal_profile := None |}.

(** The challenger and the incumbent are visible, a third satellite is not. *)
Definition tick_decisions : GroundVisibilityDecisionMap :=
  [(("gs-A", "sat-1"), range_rejected);
   (("gs-A", "sat-new"), visible_decision "sat-new" 44);
   (("gs-A", "sat-old"), visible_decision "sat-old" 40)].

Definition tick_types : gmap node_pair string :=
  {[ ("gs-A", "sat-1") := "rf"; ("gs-A", "sat-new") := "rf"; ("gs-A", "sat-old") := "rf" ]}.

(** At the previous tick only [sat-old] was visible, and scheduled. *)
Definition tick_previous : GroundVisibilityState := [(("gs-A", "sat-old"), (true, true, active))].

Lemma ground_tick_total_witness :
  ∃ r, allocate_ground_links (in_mbb 44) = Ok r ∧
    is_Ok (diff_ground_visibility_events 7 r tick_types ∅ tick_decisions tick_previous) = true.
Proof.
  destruct (allocate_ground_links (in_mbb 44)) as [r|] eqn:E; [|by vm_compute in E].
  exists r. split; [exact eq_refl|].
  apply (ground_tick_total (in_mbb 44) r tick_decisions 7 tick_types ∅ tick_previous 1 0);
    [evaluated|exact E
    |evaluated|].
  repeat constructor; vm_compute; eauto.
Defined.

(** The held challenger becomes visible and unscheduled; nothing else changes. *)
Lemma ground_events_exact_witness :
  ∃ r s evs, allocate_ground_links (in_mbb 44) = Ok r ∧
    diff_ground_visibility_events 7 r tick_types ∅ tick_decisions tick_previous = Ok (s, evs) ∧
    s = replay event_pair ground_event_state tick_previous evs ∧
    map event_pair evs = [("gs-A", "sat-new")].
Proof.
  destruct (allocate_ground_links (in_mbb 44)) as [r|] eqn:E; [|by vm_compute in E].
  destruct (diff_ground_visibility_events 7 r tick_types ∅ tick_decisions tick_previous)
    as [[s evs]|] eqn:Ed; [|exfalso; vm_compute in E; injection E as <-; by vm_compute in Ed].
  destruct (ground_events_exact 7 r tick_types ∅ tick_decisions tick_previous s evs
    ltac:(evaluated) Ed) as [Hreplay Hevents _ _].
  exists r, s, evs. split; [exact eq_refl|]. split; [exact Ed|]. split; [exact Hreplay|].
  rewrite Hevents. clear Ed Hreplay Hevents. vm_compute in E. injection E as <-. by vm_compute.
Defined.

(** ** The inter-satellite side *)

Definition optical : IslTerminalConstraints :=
  {| tc_role := None; tc_max_range_km := float_of_Z 5000;
     tc_max_tracking_rate_deg_s := float_of_Z 2; tc_field_of_regard_deg := float_of_Z 360;
     tc_terminal_type := "optical" |}.

Definition at_x (x : Z) : PropagatedState :=
  {| ps_central_body := "earth"; ps_position_ecef_km := (float_of_Z x, f_0, f_0);
     ps_position_common_km := (float_of_Z x, f_0, f_0) |}.

Definition level : EndAngles :=
  {| off_horizontal_deg := f_0; rate_deg_s := f_0; latitude_deg := f_0 |}.
Definition clear_path (is_blocked : bool) : Direction :=
  {| light_time_s := f_0; blocked := is_blocked; transmitter := level; receiver := level |}.

(** The ring of [IslTheorems], the path from [s2] to [s3] blocked one way. *)
Definition isl_tick : IslInput :=
  {| node_order := ["s1"; "s2"; "s3"];
     sat_states := {[ "s1" := at_x 7000; "s2" := at_x 7100; "s3" := at_x 7200 ]};
     by_node := ring_nodes;
     terminal_constraints := {[ "s1" := {["isl0" := optical]}; "s2" := {["isl0" := optical]};
                                "s3" := {["isl0" := optical]} ]};
     body_frames := {["earth"]}; polar_seam_enabled := false;
     latitude_threshold_deg := float_of_Z 70;
     signals := {[ ("s1", "s2") := (clear_path false, clear_path false);
                   ("s1", "s3") := (clear_path false, clear_path false);
                   ("s2", "s3") := (clear_path false, clear_path true) ]} |}.

Lemma isl_tick_total_witness :
  ∃ feas links, evaluate_isl_feasibility isl_tick = Ok feas ∧
    is_Ok (diff_isl_visibility_events 7 links ∅ feas []) = true.
Proof.
  destruct (evaluate_isl_feasibility isl_tick) as [feas|] eqn:E; [|by vm_compute in E].
  destruct (schedule_isl_links (by_node isl_tick) ring_counts feas) as [links|] eqn:Es;
    [|exfalso; vm_compute in E; injection E as <-; by vm_compute in Es].
  exists feas, links. split; [exact eq_refl|].
  exact (isl_tick_total isl_tick ring_counts feas links 7 ∅ [] E Es).
Defined.

Lemma isl_events_exact_witness :
  ∃ links s evs, schedule_isl_links ring_nodes ring_counts ring_feasible = Ok links ∧
    diff_isl_visibility_events 7 links ∅ ring_feasible [] = Ok (s, evs) ∧
    s = replay event_pair isl_event_state [] evs.
Proof.
  destruct (schedule_isl_links ring_nodes ring_counts ring_feasible) as [links|] eqn:E;
    [|by vm_compute in E].
  destruct (diff_isl_visibility_events 7 links ∅ ring_feasible []) as [[s evs]|] eqn:Ed;
    [|exfalso; vm_compute in E; injection E as <-; by vm_compute in Ed].
  exists links, s, evs. split; [exact eq_refl|]. split; [exact Ed|].
  destruct (isl_events_exact 7 links ∅ ring_feasible [] s evs
    ltac:(evaluated) Ed) as [Hreplay _ _ _]. exact Hreplay.
Defined.

(** ** The snapshot *)

(** The overlap of [GroundTicks], one long-delay contact, one ISL. *)
Definition snap_source : LinkSnapshotSource :=
  {| isl_state := [(("s1", "s2"), (true, true))];
     ground_state := [(("gs-A", "sat-old"), (true, true)); (("gs-A", "sat-new"), (true, true))];
     src_associations := tick_associations overlap_state;
     src_pending_teardowns := tick_pending overlap_state;
     ranges_km := {[ ("s1", "s2") := float_of_Z 100; ("gs-A", "sat-old") := float_of_Z 1000;
                     ("gs-A", "sat-new") := float_of_Z 900 ]};
     latencies_ms := {[ ("s1", "s2") := (f_1, f_1); ("gs-A", "sat-old") := (f_5, f_5);
                        ("gs-A", "sat-new") := (f_1, f_5) ]};
     contacts_opened := [(("s1", "s2"), 5)] |}.

Definition snap_args : SnapshotArgs :=
  {| interface_map := {[ ("s1", "s2") := ("isl0", "isl0") ]}; sa_sim_time := 7; sa_seq := 1;
     interval_s := f_1; fixed_positions := ∅; epoch_id := 0;
     mbb_overlap_ticks_by_gs := {[ "gs-A" := 3 ]}; current_step := 11; rule_map := ∅ |}.

Definition snap_links : list LinkState :=
  match build_link_state_snapshot snap_source snap_args with Ok s => sn_links s | Raise _ => [] end.

Example snap_interfaces :
  map (λ l, (ls_interface_a l, ls_interface_b l, ls_teardown_remaining_ticks l)) snap_links =
  [("isl0", "isl0", None); ("term0", "gnd0", Some 2); ("term1", "gnd0", None)].
Proof. vm_compute. reflexivity. Qed.

Lemma snap_link n l : snap_links !! n = Some l →
  ∃ snap, build_link_state_snapshot snap_source snap_args = Ok snap ∧ l ∈ sn_links snap.
Proof.
  unfold snap_links. destruct (build_link_state_snapshot snap_source snap_args) as [s|]; [|by destruct n].
  intros H%list_elem_of_lookup_2. eauto.
Qed.

Lemma snapshot_up_links_complete_witness :
  ∃ l, snap_links !! 1%nat = Some l ∧ ls_gs_terminal_index l = Some 0.
Proof.
  destruct (snap_links !! 1%nat) as [l|] eqn:E; [|by vm_compute in E]. exists l. split; [exact eq_refl|].
  destruct (snap_link 1 l E) as (snap & Hs & Hl).
  assert (ls_carrier l = carrier_up ∧ ls_link_type l = ground_link ∧
          link_pair l = ("gs-A", "sat-old")) as (Hup & Hty & Hp)
    by (vm_compute in E; by injection E as <-).
  destruct (snapshot_up_links_complete snap_source snap_args snap l Hs Hl Hup) as [_ Hg].
  destruct (Hg Hty) as (gi & si & Ha & Hgi & _). rewrite Hp in Ha. vm_compute in Ha.
  injection Ha as <- <-. exact Hgi.
Defined.

Lemma overlap_exclusive : exclusive (ground_ids snap_args) (src_associations snap_source).
Proof.
  assert (ground_ids snap_args = {["gs-A"]}) as -> by (apply (bool_decide_unpack _); by vm_compute).
  assert (∀ p v, dict_get p (src_associations snap_source) = Some v →
    (p = ("gs-A", "sat-old") ∧ v = (0, 0)) ∨ (p = ("gs-A", "sat-new") ∧ v = (1, 0))) as H.
  { intros p v. simpl. repeat case_decide; intros [= <-]; auto. }
  intros p q vp vq [[-> ->]|[-> ->]]%H [[-> ->]|[-> ->]]%H; try done; intros _;
    split; intros n H1 H2; vm_compute in H1, H2; simpl; congruence.
Qed.

(** The two links of the overlap meet on no interface. *)
Lemma snapshot_interfaces_exclusive_witness :
  ∃ l1 l2, snap_links !! 1%nat = Some l1 ∧ snap_links !! 2%nat = Some l2 ∧
    ∀ e, e ∈ link_ends l1 → e ∈ link_ends l2 → False.
Proof.
  destruct (snap_links !! 1%nat) as [l1|] eqn:E1; [|by vm_compute in E1].
  destruct (snap_links !! 2%nat) as [l2|] eqn:E2; [|by vm_compute in E2].
  exists l1, l2. split; [exact eq_refl|]. split; [exact eq_refl|]. intros e He1 He2.
  destruct (snap_link 1 l1 E1) as (snap & Hs & H1). destruct (snap_link 2 l2 E2) as (snap' & Hs' & H2).
  rewrite Hs in Hs'. injection Hs' as <-.
  assert (ls_carrier l1 = carrier_up ∧ ls_link_type l1 = ground_link ∧
          link_pair l1 = ("gs-A", "sat-old")) as (Hu1 & Ht1 & Hp1)
    by (clear -E1; vm_compute in E1; by injection E1 as <-).
  assert (ls_carrier l2 = carrier_up ∧ ls_link_type l2 = ground_link ∧
          link_pair l2 = ("gs-A", "sat-new")) as (Hu2 & Ht2 & Hp2)
    by (clear -E2; vm_compute in E2; by injection E2 as <-).
  pose proof (snapshot_interfaces_exclusive snap_source snap_args snap l1 l2 e
    overlap_exclusive Hs H1 H2 Ht1 Ht2 Hu1 Hu2 He1 He2) as E.
  rewrite Hp1, Hp2 in E. discriminate E.
Defined.

Lemma snapshot_leaf_valid_witness :
  ∃ l, snap_links !! 0%nat = Some l ∧ contact_only_on_an_up_link l = Ok tt.
Proof.
  destruct (snap_links !! 0%nat) as [l|] eqn:E; [|by vm_compute in E]. exists l. split; [exact eq_refl|].
  destruct (snap_link 0 l E) as (snap & Hs & Hl).
  apply (snapshot_leaf_valid snap_source snap_args snap l Hs); [..|exact Hl].
  - apply (bool_decide_unpack _). by vm_compute.
  - intros p t. simpl. case_decide; [|discriminate]. intros [= <-]. vm_compute. discriminate.
Defined.
