(* ===== verification/AgentHealth.v ===== *)
(** * Node Agent reachability ([services/scheduler/agent_health.py])

    Health is judged over a sliding window of call outcomes.  The window never
    outgrows its size, an agent is reported down only on real evidence, and a
    working agent's outcomes age out; but a recovery is not stable: the window
    of an outage keeps enough failures to report the agent down again on its
    second successful call ([degraded_by_a_success]). *)

From S2P Require Import Prelude.
From S2P Require Import PyData.
From stdpp Require Import base list strings gmap.
Local Open Scope Z_scope.

Inductive AgentHealthTransition := DEGRADED | RECOVERED.

#[global] Instance transition_eq_dec : EqDecision AgentHealthTransition.
Proof. solve_decision. Defined.

Record AgentHealthPolicy := { window_size : Z; failure_threshold : Z }.

Definition default_policy : AgentHealthPolicy := {| window_size := 20; failure_threshold := 15 |}.

Record AgentWindow := {
  outcomes : list bool;
  degraded : bool;
  last_failure_reason : option string;
  last_change : option Z;
}.

Definition empty_window : AgentWindow :=
  {| outcomes := []; degraded := false; last_failure_reason := None; last_change := None |}.

Definition count_failures (l : list bool) : Z := Z.of_nat (length (List.filter negb l)).

(** [while len(outcomes) > window_size: outcomes.popleft()]. *)
Fixpoint trim (size : Z) (l : list bool) : list bool :=
  match l with
  | [] => []
  | x :: l' => if size <? Z.of_nat (length l) then trim size l' else l
  end.

Section Tracker.
Context (policy : AgentHealthPolicy).

(** [record] on the agent's window. *)
Definition record_outcome (w : AgentWindow) (ok : bool) (reason : option string)
    (now : option Z) : AgentWindow * option AgentHealthTransition :=
  let kept := trim (window_size policy) (outcomes w ++ [ok]) in
  let last_reason := if ok then last_failure_reason w else reason in
  let failures := count_failures kept in
  if negb (degraded w) && (failure_threshold policy <=? failures) then
    ({| outcomes := kept; degraded := true; last_failure_reason := last_reason;
        last_change := now |}, Some DEGRADED)
  else if degraded w && ok then
    ({| outcomes := kept; degraded := false; last_failure_reason := last_reason;
        last_change := now |}, Some RECOVERED)
  else
    ({| outcomes := kept; degraded := degraded w; last_failure_reason := last_reason;
        last_change := last_change w |}, None).

(** [record]: the agent's window is created on its first call. *)
Definition record_call (agents : gmap string AgentWindow) (agent_addr : string) (ok : bool)
    (reason : option string) (now : option Z) :
    gmap string AgentWindow * option AgentHealthTransition :=
  let '(w, t) := record_outcome (default empty_window (agents !! agent_addr)) ok reason now in
  (<[agent_addr := w]> agents, t).

Definition is_degraded (agents : gmap string AgentWindow) (agent_addr : string) : bool :=
  default false (degraded <$> agents !! agent_addr).

Definition any_degraded (agents : gmap string AgentWindow) : bool :=
  existsb degraded (map_to_list agents).*2.

(** A run of outcomes of one agent, and the transitions it reports. *)
Fixpoint run (w : AgentWindow) (l : list bool) : AgentWindow * list AgentHealthTransition :=
  match l with
  | [] => (w, [])
  | ok :: l =>
      let '(w', t) := record_outcome w ok None None in
      let '(w'', ts) := run w' l in
      (w'', match t with Some t => t :: ts | None => ts end)
  end.

Lemma trim_length l : (0 ≤ window_size policy) →
  Z.of_nat (length (trim (window_size policy) l)) ≤ window_size policy.
Proof.
  intros Hs. induction l as [|x l IH]; cbn [trim]; [simpl; lia|].
  destruct (Z.ltb_spec (window_size policy) (Z.of_nat (length (x :: l)))); [done|lia].
Qed.

(** The window is the most recent outcomes. *)
Lemma trim_suffix size l : ∃ old, l = old ++ trim size l.
Proof.
  induction l as [|x l [old IH]]; cbn [trim]; [by exists []|].
  destruct (_ <? _); [|by exists []]. exists (x :: old). simpl. by rewrite <- IH.
Qed.

Lemma count_failures_app l k : count_failures (l ++ k) = count_failures l + count_failures k.
Proof. unfold count_failures. rewrite List.filter_app, length_app. lia. Qed.

Lemma count_failures_nonneg l : 0 ≤ count_failures l.
Proof. unfold count_failures. lia. Qed.

(** The bounds every window keeps. *)
Record window_ok (w : AgentWindow) : Prop := {
  wo_size : Z.of_nat (length (outcomes w)) ≤ window_size policy;
  wo_reported : degraded w = false ∨ failure_threshold policy ≤ window_size policy;
}.

Lemma record_ok w ok reason now :
  0 ≤ window_size policy → window_ok w → window_ok (record_outcome w ok reason now).1.
Proof.
  intros Hs [_ Hr]. unfold record_outcome.
  pose proof (trim_length (outcomes w ++ [ok]) Hs) as Hl.
  destruct (negb (degraded w) && _) eqn:E1; [|destruct (degraded w && ok) eqn:E2]; simpl; split; simpl;
    auto.
  right. apply andb_true_iff in E1 as [_ E1]. unfold count_failures in E1.
  pose proof (length_filter_bool_le negb (trim (window_size policy) (outcomes w ++ [ok]))). lia.
Qed.

Lemma run_ok w l : 0 ≤ window_size policy → window_ok w → window_ok (run w l).1.
Proof.
  intros Hs. revert w. induction l as [|ok l IH]; intros w Hw; simpl; [done|].
  pose proof (record_ok w ok None None Hs Hw) as Hw'.
  destruct (record_outcome w ok None None) as [w' t]. simpl in Hw'. specialize (IH w' Hw').
  by destruct (run w' l).
Qed.
End Tracker.

(** an outcome is reported exactly as the policy says: the window never
    exceeds its size, DEGRADED is reported only for an agent not already down
    whose window holds at least the threshold of failures, RECOVERED only for a
    down agent that answered, and no report leaves the state as it was. *)
Theorem health_report_justified policy w ok reason now w' t :
  0 ≤ window_size policy → record_outcome policy w ok reason now = (w', t) →
  Z.of_nat (length (outcomes w')) ≤ window_size policy ∧
  match t with
  | Some DEGRADED => degraded w = false ∧ degraded w' = true ∧
      failure_threshold policy ≤ count_failures (outcomes w')
  | Some RECOVERED => degraded w = true ∧ degraded w' = false ∧ ok = true
  | None => degraded w' = degraded w
  end.
Proof.
  intros Hs. unfold record_outcome. pose proof (trim_length policy (outcomes w ++ [ok]) Hs) as Hl.
  destruct (degraded w) eqn:Ed; simpl.
  - destruct ok; intros [= <- <-]; simpl; auto.
  - destruct (_ <=? _) eqn:E; intros [= <- <-]; simpl; [|auto]. split_and!; auto. lia.
Qed.

Lemma health_report_justified_witness :
  ∃ w' t, record_outcome default_policy empty_window false (Some "timeout") None = (w', t) ∧
    Z.of_nat (length (outcomes w')) ≤ 20.
Proof.
  eexists _, _. split; [vm_compute; reflexivity|].
  exact (proj1 (health_report_justified default_policy empty_window false (Some "timeout") None _ _
    ltac:(vm_compute; discriminate) eq_refl)).
Defined.

(** ** Fifteen failures in twenty are needed *)

(** With fewer than the threshold of failures in all, an agent is never reported
    down. *)
Lemma run_below_threshold policy w l :
  degraded w = false →
  count_failures (outcomes w) + count_failures l < failure_threshold policy →
  (run policy w l).2 = [] ∧ degraded (run policy w l).1 = false.
Proof.
  revert w. induction l as [|ok l IH]; intros w Hd Hc; simpl; [done|].
  change (ok :: l) with ([ok] ++ l) in Hc. rewrite count_failures_app in Hc.
  destruct (trim_suffix (window_size policy) (outcomes w ++ [ok])) as [old Hold].
  pose proof (count_failures_app old (trim (window_size policy) (outcomes w ++ [ok]))) as Hk.
  rewrite <- Hold, count_failures_app in Hk. pose proof (count_failures_nonneg old).
  pose proof (count_failures_nonneg l).
  assert (∃ w', record_outcome policy w ok None None = (w', None) ∧ degraded w' = false ∧
    outcomes w' = trim (window_size policy) (outcomes w ++ [ok])) as (w' & Hr & Hd' & Ho).
  { unfold record_outcome. rewrite Hd. simpl.
    destruct (Z.leb_spec (failure_threshold policy)
      (count_failures (trim (window_size policy) (outcomes w ++ [ok])))); [lia|]. eauto. }
  rewrite Hr. destruct (IH w') as [Ha Hb]; [done|rewrite Ho; lia|].
  by destruct (run policy w' l).
Qed.

(** Isolated failures never combine: over any run with fewer than the
    threshold of failures in total, a healthy agent is never reported down. *)
Theorem few_failures_never_degrade policy l :
  count_failures l < failure_threshold policy → (run policy empty_window l).2 = [].
Proof. intros H. by apply run_below_threshold. Qed.

(** A restart burst: five failures, then answers. *)
Lemma few_failures_never_degrade_witness :
  (run default_policy empty_window (replicate 5 false ++ replicate 30 true)).2 = [].
Proof. apply (few_failures_never_degrade default_policy). by vm_compute. Defined.

(** a recovered agent is reported down again by a successful call whenever
    its window still holds the threshold of failures: two answers in a row from
    a down agent report RECOVERED and then DEGRADED. *)
Theorem degraded_by_a_success policy w :
  degraded w = true →
  failure_threshold policy ≤
    count_failures (trim (window_size policy)
                      (trim (window_size policy) (outcomes w ++ [true]) ++ [true])) →
  (run policy w [true; true]).2 = [RECOVERED; DEGRADED].
Proof.
  intros Hd Hc. cbn [run]. unfold record_outcome at 1. rewrite Hd. cbn [negb andb].
  unfold record_outcome. cbn [degraded outcomes negb andb].
  by rewrite (proj2 (Z.leb_le _ _) Hc).
Qed.

(** A fifteen-failure outage under the default policy, then two answers. *)
Lemma degraded_by_a_success_witness :
  (run default_policy empty_window (replicate 15 false)).2 = [DEGRADED] ∧
  (run default_policy (run default_policy empty_window (replicate 15 false)).1 [true; true]).2 =
    [RECOVERED; DEGRADED].
Proof.
  split; [reflexivity|]. apply degraded_by_a_success; [reflexivity|]. by vm_compute.
Defined.
