(* ===== verification/EpochSync.v ===== *)
(** * Seek epoch synchronization ([services/scheduler/epoch_sync.py])

    A seek starts a new epoch.  The Scheduler suspends until the new epoch's
    playback, ephemeris and snapshot have all arrived, and then resumes from
    that snapshot.  The object's methods are the transitions [step] of a state
    machine; the invariant [sync_ok] of its reachable states gives the resume
    guarantee: the snapshot it resumes from is one of the epoch it waited for.

    The snapshot is an argument: its epoch is all the machine reads. *)

From S2P Require Import Prelude.
From S2P Require Import PyFloat.
From S2P Require Import PyData.
From S2P Require Import GroundTypes.
From S2P Require Import EventDiff.
From S2P Require Import Snapshot.
From stdpp Require Import base list strings gmap.
Local Open Scope Z_scope.

Record EpochSyncState := {
  suspended : bool;
  expected_epoch_id : Z;
  playback_playing_received : bool;
  dep_ephemeris : bool;
  dep_snapshot : bool;
  buffered_snapshot : option LinkStateSnapshot;
  stale : bool;
}.

Definition initial_sync : EpochSyncState :=
  {| suspended := false; expected_epoch_id := 0; playback_playing_received := false;
     dep_ephemeris := false; dep_snapshot := false; buffered_snapshot := None; stale := false |}.

Definition begin_seek (s : EpochSyncState) (epoch_id : Z) : EpochSyncState * bool :=
  if epoch_id <=? expected_epoch_id s then (s, false) else
  ({| suspended := true; expected_epoch_id := epoch_id; playback_playing_received := false;
      dep_ephemeris := false; dep_snapshot := false; buffered_snapshot := None;
      stale := false |}, true).

Definition mark_ephemeris (s : EpochSyncState) (epoch_id : Z) : EpochSyncState * bool :=
  if negb (epoch_id =? expected_epoch_id s) then (s, false) else
  ({| suspended := suspended s; expected_epoch_id := expected_epoch_id s;
      playback_playing_received := playback_playing_received s; dep_ephemeris := true;
      dep_snapshot := dep_snapshot s; buffered_snapshot := buffered_snapshot s;
      stale := stale s |}, true).

Definition mark_playing (s : EpochSyncState) (epoch_id : Z) : EpochSyncState * bool :=
  if negb (epoch_id =? expected_epoch_id s) then (s, false) else
  ({| suspended := suspended s; expected_epoch_id := expected_epoch_id s;
      playback_playing_received := true; dep_ephemeris := dep_ephemeris s;
      dep_snapshot := dep_snapshot s; buffered_snapshot := buffered_snapshot s;
      stale := stale s |}, true).

Definition buffer_snapshot (s : EpochSyncState) (snapshot : LinkStateSnapshot) :
    EpochSyncState * bool :=
  if negb (sn_epoch_id snapshot =? expected_epoch_id s) then (s, false) else
  ({| suspended := suspended s; expected_epoch_id := expected_epoch_id s;
      playback_playing_received := playback_playing_received s;
      dep_ephemeris := dep_ephemeris s; dep_snapshot := true;
      buffered_snapshot := Some snapshot; stale := stale s |}, true).

Definition missing_resume_dependencies (s : EpochSyncState) : list string :=
  (if playback_playing_received s then [] else ["PlaybackState(playing)"]) ++
  (if dep_ephemeris s then [] else ["SessionEphemeris"]) ++
  (if dep_snapshot s then [] else ["LinkStateSnapshot"]).

Definition ready_for_clock_resume (s : EpochSyncState) : bool :=
  bool_decide (missing_resume_dependencies s = []).

Definition resume (s : EpochSyncState) : result (EpochSyncState * option LinkStateSnapshot) :=
  raise_if negb (ready_for_clock_resume s)
    with RuntimeError "Cannot resume epoch sync with missing dependencies" ;;
  Ok ({| suspended := false; expected_epoch_id := expected_epoch_id s;
         playback_playing_received := playback_playing_received s;
         dep_ephemeris := dep_ephemeris s; dep_snapshot := dep_snapshot s;
         buffered_snapshot := None; stale := false |}, buffered_snapshot s).

Definition mark_watchdog_timeout (s : EpochSyncState) (epoch_id : Z) : EpochSyncState * bool :=
  if suspended s && (expected_epoch_id s =? epoch_id) then
    ({| suspended := suspended s; expected_epoch_id := expected_epoch_id s;
        playback_playing_received := playback_playing_received s;
        dep_ephemeris := dep_ephemeris s; dep_snapshot := dep_snapshot s;
        buffered_snapshot := buffered_snapshot s; stale := true |}, true)
  else (s, false).

(** ** The machine *)

Inductive step : EpochSyncState → EpochSyncState → Prop :=
| step_seek s e : step s (begin_seek s e).1
| step_ephemeris s e : step s (mark_ephemeris s e).1
| step_playing s e : step s (mark_playing s e).1
| step_snapshot s n : suspended s = true → step s (buffer_snapshot s n).1
| step_resume s s' n : suspended s = true → resume s = Ok (s', n) → step s s'
| step_watchdog s e : step s (mark_watchdog_timeout s e).1.

Inductive sync_reachable : EpochSyncState → Prop :=
| sync_initial : sync_reachable initial_sync
| sync_step s s' : sync_reachable s → step s s' → sync_reachable s'.

(** Suspended exactly between a seek and its resume: while suspended, the
    snapshot dependency is met exactly by a buffered snapshot of the expected
    epoch. *)
Record sync_ok (s : EpochSyncState) : Prop := {
  sy_snapshot : suspended s = true → dep_snapshot s = true → is_Some (buffered_snapshot s);
  sy_epoch n : buffered_snapshot s = Some n → sn_epoch_id n = expected_epoch_id s;
  sy_idle : suspended s = false → buffered_snapshot s = None ∧ stale s = false;
}.

Lemma ready_iff s :
  ready_for_clock_resume s = true ↔
  playback_playing_received s = true ∧ dep_ephemeris s = true ∧ dep_snapshot s = true.
Proof.
  unfold ready_for_clock_resume, missing_resume_dependencies. rewrite bool_decide_eq_true.
  by destruct (playback_playing_received s), (dep_ephemeris s), (dep_snapshot s); naive_solver.
Qed.

Lemma step_sync_ok s s' : sync_ok s → step s s' → sync_ok s'.
Proof.
  intros [H1 H2 H3] Hs. inversion Hs; subst; clear Hs.
  - unfold begin_seek. destruct (_ <=? _); simpl; [done|]. by split.
  - unfold mark_ephemeris. destruct (negb _); simpl; [done|]. by split.
  - unfold mark_playing. destruct (negb _); simpl; [done|]. by split.
  - unfold buffer_snapshot. destruct (_ =? _) eqn:E; simpl; [|done]. split; simpl; eauto.
    + intros m [= <-]. lia.
    + congruence.
  - unfold resume in H0. rguard H0 as Hr. injection H0 as <- <-. by split.
  - unfold mark_watchdog_timeout. destruct (_ && _) eqn:E; simpl; [|done].
    apply andb_true_iff in E as [E _]. split; simpl; auto. congruence.
Qed.

Lemma reachable_sync_ok s : sync_reachable s → sync_ok s.
Proof.
  induction 1 as [|s s' _ IH Hs]; [|by eapply step_sync_ok]. by split.
Qed.

(** in every reachable suspended state, the Scheduler can resume exactly
    when playback, ephemeris and snapshot of the new epoch have arrived, and it
    then resumes, from a buffered snapshot of exactly that epoch. *)
Theorem resume_from_expected_epoch s :
  sync_reachable s → suspended s = true →
  (is_Ok (resume s) = true ↔
     playback_playing_received s = true ∧ dep_ephemeris s = true ∧ dep_snapshot s = true) ∧
  ∀ s' n, resume s = Ok (s', n) → suspended s' = false ∧ expected_epoch_id s' = expected_epoch_id s ∧
    ∃ snapshot, n = Some snapshot ∧ sn_epoch_id snapshot = expected_epoch_id s.
Proof.
  intros Hr Hs. apply reachable_sync_ok in Hr as [H1 H2 _]. split.
  - rewrite <- ready_iff. unfold resume. by destruct (ready_for_clock_resume s).
  - intros s' n H. unfold resume in H. apply raise_if_Ok in H as [Hready%negb_false_iff H]. apply ready_iff in Hready as (_ & _ & Hd).
    injection H as <- <-. split_and!; try done. destruct (H1 Hs Hd) as [m Hm].
    exists m. rewrite Hm. split; [done|]. by apply H2.
Qed.

(** A seek to epoch 4 with everything arrived. *)
Definition epoch_4_snapshot : LinkStateSnapshot :=
  {| sn_sim_time := 0; sn_snapshot_seq := 9; sn_links := []; sn_interval_s := f_1; sn_epoch_id := 4 |}.
Definition ready_sync : EpochSyncState :=
  (buffer_snapshot (mark_ephemeris (mark_playing (begin_seek initial_sync 4).1 4).1 4).1
     epoch_4_snapshot).1.

Lemma ready_reachable : sync_reachable ready_sync.
Proof.
  eapply sync_step; [|apply step_snapshot; reflexivity].
  eapply sync_step; [|apply step_ephemeris]. eapply sync_step; [|apply step_playing].
  eapply sync_step; [|apply step_seek]. constructor.
Qed.

Lemma resume_from_expected_epoch_witness :
  is_Ok (resume ready_sync) = true ∧
  ∀ s' n, resume ready_sync = Ok (s', n) → suspended s' = false.
Proof.
  destruct (resume_from_expected_epoch ready_sync ready_reachable eq_refl) as [H1 H2].
  split; [apply H1; vm_compute; auto|]. intros s' n H. by destruct (H2 s' n H).
Defined.

(** The epochs a machine waits for only move forward. *)
Lemma step_epoch s s' : step s s' → expected_epoch_id s ≤ expected_epoch_id s'.
Proof.
  intros Hs. inversion Hs; subst; clear Hs;
    unfold begin_seek, mark_ephemeris, mark_playing, buffer_snapshot, mark_watchdog_timeout, resume in *.
  - destruct (Z.leb_spec e (expected_epoch_id s)); simpl; lia.
  - destruct (negb _); simpl; lia.
  - destruct (negb _); simpl; lia.
  - destruct (negb _); simpl; lia.
  - rguard H0 as Hr. injection H0 as <- _. simpl. lia.
  - destruct (_ && _); simpl; lia.
Qed.
