(* ===== verification/PyTime.v ===== *)
(** * Python's [datetime], [timedelta] and [strftime]

    An aware [datetime] is the number of microseconds since 1970-01-01 UTC.
    [civil_of_days] and [days_of_civil] are the proleptic Gregorian calendar;
    [iso_text] is [strftime("%Y-%m-%dT%H:%M:%S.%fZ")] and [iso_parse] reads it
    back.  A year is written with four digits ([%Y] of the years 1000 to 9999;
    what the C library writes for an earlier year is not modelled). *)

From S2P Require Import Prelude.
From S2P Require Import PyFloat.
From S2P Require Import PyData.
From stdpp Require Import base list strings pretty.
From Stdlib Require Import Ascii.
Local Open Scope Z_scope.

Abbreviation datetime := Z (only parsing).

(** ** The calendar *)

(** Day 0 of the shifted calendar is 0000-03-01; an era is 400 years. *)
Definition epoch_shift : Z := 719468.
Definition era_days : Z := 146097.

Definition days_before (year_of_era : Z) : Z :=
  365 * year_of_era + year_of_era / 4 - year_of_era / 100.

Definition civil_of_days (days : Z) : Z * Z * Z :=
  let z := days + epoch_shift in
  let era := z / era_days in
  let doe := z mod era_days in
  let yoe := (doe - doe / 1460 + doe / 36524 - doe / 146096) / 365 in
  let doy := doe - days_before yoe in
  let mp := (5 * doy + 2) / 153 in
  let d := doy - (153 * mp + 2) / 5 + 1 in
  let m := if mp <? 10 then mp + 3 else mp - 9 in
  (yoe + 400 * era + (if m <=? 2 then 1 else 0), m, d).

Definition days_of_civil (date : Z * Z * Z) : Z :=
  let '(y, m, d) := date in
  let y := y - (if m <=? 2 then 1 else 0) in
  let era := y / 400 in
  let yoe := y mod 400 in
  let mp := if m <=? 2 then m + 9 else m - 3 in
  let doy := (153 * mp + 2) / 5 + d - 1 in
  era * era_days + days_before yoe + doy - epoch_shift.

(** Where a day falls in its year: the year of the era the formula picks is the
    one the day is in. *)
Lemma year_of_era doe :
  0 ≤ doe < era_days →
  let yoe := (doe - doe / 1460 + doe / 36524 - doe / 146096) / 365 in
  0 ≤ yoe < 400 ∧ 0 ≤ doe - days_before yoe ≤ 365.
Proof.
  unfold era_days, days_before. intros H. cbv zeta.
  pose proof (Z.div_mod doe 1460 ltac:(lia)). pose proof (Z.mod_pos_bound doe 1460 ltac:(lia)).
  pose proof (Z.div_mod doe 36524 ltac:(lia)). pose proof (Z.mod_pos_bound doe 36524 ltac:(lia)).
  pose proof (Z.div_mod doe 146096 ltac:(lia)). pose proof (Z.mod_pos_bound doe 146096 ltac:(lia)).
  set (a := doe / 1460) in *. set (b := doe / 36524) in *. set (c := doe / 146096) in *.
  assert (0 ≤ b ≤ 4 ∧ 0 ≤ c ≤ 1) as [??] by lia.
  set (x := doe - a + b - c) in *. pose proof (Z.div_mod x 365 ltac:(lia)).
  pose proof (Z.mod_pos_bound x 365 ltac:(lia)). set (y := x / 365) in *.
  pose proof (Z.div_mod y 4 ltac:(lia)). pose proof (Z.mod_pos_bound y 4 ltac:(lia)).
  pose proof (Z.div_mod y 100 ltac:(lia)). pose proof (Z.mod_pos_bound y 100 ltac:(lia)).
  set (y4 := y / 4) in *. set (y100 := y / 100) in *.
  subst x. clearbody a b c y y4 y100. lia.
Qed.

Lemma month_of_year doy :
  0 ≤ doy ≤ 365 →
  let mp := (5 * doy + 2) / 153 in
  0 ≤ mp ≤ 11 ∧ 1 ≤ doy - (153 * mp + 2) / 5 + 1 ≤ 31.
Proof.
  intros H. cbv zeta.
  pose proof (Z.div_mod (5 * doy + 2) 153 ltac:(lia)).
  pose proof (Z.mod_pos_bound (5 * doy + 2) 153 ltac:(lia)).
  set (mp := (5 * doy + 2) / 153) in *.
  pose proof (Z.div_mod (153 * mp + 2) 5 ltac:(lia)).
  pose proof (Z.mod_pos_bound (153 * mp + 2) 5 ltac:(lia)). lia.
Qed.

Lemma civil_ranges days y m d :
  civil_of_days days = (y, m, d) → 1 ≤ m ≤ 12 ∧ 1 ≤ d ≤ 31.
Proof.
  unfold civil_of_days. set (doe := (days + epoch_shift) mod era_days).
  assert (Hdoe : 0 ≤ doe < era_days) by (apply Z.mod_pos_bound; done).
  destruct (year_of_era doe Hdoe) as [_ Hdoy]. destruct (month_of_year _ Hdoy) as [Hmp Hd].
  intros [= <- <- <-]. split; [|done].
  destruct (Z.ltb_spec ((5 * (doe - days_before ((doe - doe / 1460 + doe / 36524
    - doe / 146096) / 365)) + 2) / 153) 10); lia.
Qed.

(** The calendar read back: every day has one date. *)
Lemma days_of_civil_of_days days : days_of_civil (civil_of_days days) = days.
Proof.
  unfold civil_of_days. set (z := days + epoch_shift).
  pose proof (Z.div_mod z era_days ltac:(done)) as Hz.
  assert (Hdoe : 0 ≤ z mod era_days < era_days) by (apply Z.mod_pos_bound; done).
  set (doe := z mod era_days) in *. set (era := z / era_days) in *.
  destruct (year_of_era doe Hdoe) as [Hyoe Hdoy].
  set (yoe := (doe - doe / 1460 + doe / 36524 - doe / 146096) / 365) in *.
  destruct (month_of_year _ Hdoy) as [Hmp Hd]. set (doy := doe - days_before yoe) in *.
  set (mp := (5 * doy + 2) / 153) in *. unfold days_of_civil.
  assert (Hera : (yoe + 400 * era) / 400 = era).
  { rewrite Z.mul_comm, Z.div_add, (Z.div_small yoe) by lia. lia. }
  assert (Hmod : (yoe + 400 * era) mod 400 = yoe).
  { rewrite Z.mul_comm, Z.mod_add, Z.mod_small by lia. done. }
  assert (days = era * era_days + doe - epoch_shift) by (subst z; lia).
  destruct (Z.ltb_spec mp 10).
  - rewrite (proj2 (Z.leb_gt (mp + 3) 2)) by lia.
    replace (yoe + 400 * era + 0 - 0) with (yoe + 400 * era) by lia. rewrite Hera, Hmod.
    replace (mp + 3 - 3) with mp by lia. subst doy. lia.
  - rewrite (proj2 (Z.leb_le (mp - 9) 2)) by lia.
    replace (yoe + 400 * era + 1 - 1) with (yoe + 400 * era) by lia. rewrite Hera, Hmod.
    replace (mp - 9 + 9) with mp by lia. subst doy. lia.
Qed.

(** ** Text *)

Definition digit (n : Z) : ascii := ascii_of_N (Z.to_N (48 + n)).
Definition digit_value (c : ascii) : option Z :=
  let n := Z.of_N (N_of_ascii c) - 48 in
  if (0 <=? n) && (n <=? 9) then Some n else None.

(** [width] decimal digits of [n], zero padded. *)
Fixpoint padded (width : nat) (n : Z) (rest : string) : string :=
  match width with
  | O => rest
  | S width => padded width (n / 10) (String (digit (n mod 10)) rest)
  end.

(** Reads [width] digits onto [acc]. *)
Fixpoint read_digits (width : nat) (acc : Z) (s : string) : option (Z * string) :=
  match width, s with
  | O, _ => Some (acc, s)
  | S width, String c s => v ← digit_value c; read_digits width (10 * acc + v) s
  | S _, EmptyString => None
  end.

Definition expect (c : ascii) (s : string) : option string :=
  match s with
  | String c' s => if bool_decide (c = c') then Some s else None
  | EmptyString => None
  end.

Lemma digit_value_digit n : 0 ≤ n < 10 → digit_value (digit n) = Some n.
Proof.
  intros H. unfold digit_value, digit. rewrite N_ascii_embedding by lia.
  replace (Z.of_N (Z.to_N (48 + n)) - 48) with n by lia.
  rewrite (proj2 (Z.leb_le 0 n)), (proj2 (Z.leb_le n 9)) by lia. done.
Qed.

(** Reading [width] digits written before [rest] leaves [rest]. *)
Lemma read_padded width k n acc rest :
  0 ≤ n < 10 ^ Z.of_nat width →
  read_digits (width + k) acc (padded width n rest) =
    read_digits k (10 ^ Z.of_nat width * acc + n) rest.
Proof.
  revert k n acc rest. induction width as [|width IH]; intros k n acc rest Hn; simpl padded.
  { simpl. f_equal. change (10 ^ Z.of_nat 0) with 1 in Hn |- *. lia. }
  rewrite Nat2Z.inj_succ, Z.pow_succ_r in Hn |- * by lia.
  rewrite Nat.add_succ_comm, IH.
  - cbn [read_digits]. rewrite digit_value_digit by (apply Z.mod_pos_bound; lia). simpl.
    f_equal. pose proof (Z.div_mod n 10 ltac:(lia)). lia.
  - split; [apply Z.div_pos; lia|]. apply Z.div_lt_upper_bound; lia.
Qed.

Corollary read_digits_padded width n rest :
  0 ≤ n < 10 ^ Z.of_nat width → read_digits width 0 (padded width n rest) = Some (n, rest).
Proof.
  intros H. rewrite <- (Nat.add_0_r width) at 1. rewrite read_padded by done. simpl. do 2 f_equal. lia.
Qed.

Lemma expect_same c s : expect c (String c s) = Some s.
Proof. unfold expect. by rewrite bool_decide_true. Qed.

#[global] Arguments padded : simpl never.
#[global] Arguments read_digits : simpl never.
#[global] Arguments expect : simpl never.
#[global] Arguments days_of_civil : simpl never.

(** The time of day, in microseconds. *)
Definition day_us : Z := 86400000000.

(** [opened_at.astimezone(UTC).strftime("%Y-%m-%dT%H:%M:%S.%fZ")]. *)
Definition iso_text (t : datetime) : string :=
  let '(y, m, d) := civil_of_days (t / day_us) in
  let us := t mod day_us in
  let hms := padded 2 (us / 3600000000) (String ":" (padded 2 ((us / 60000000) mod 60) (String ":"
    (padded 2 ((us / 1000000) mod 60) (String "." (padded 6 (us mod 1000000) "Z")))))) in
  padded 4 y (String "-" (padded 2 m (String "-" (padded 2 d (String "T" hms))))).

(** [datetime.strptime(text, "%Y-%m-%dT%H:%M:%S.%fZ")] on texts of full width:
    the shorter spellings [strptime] admits are not ones [iso_text] writes. *)
Definition iso_parse (s : string) : option datetime :=
  '(y, s) ← read_digits 4 0 s; s ← expect "-" s;
  '(m, s) ← read_digits 2 0 s; s ← expect "-" s;
  '(d, s) ← read_digits 2 0 s; s ← expect "T" s;
  '(hh, s) ← read_digits 2 0 s; s ← expect ":" s;
  '(mm, s) ← read_digits 2 0 s; s ← expect ":" s;
  '(ss, s) ← read_digits 2 0 s; s ← expect "." s;
  '(ff, s) ← read_digits 6 0 s; s ← expect "Z" s;
  if bool_decide (s = "") then
    Some (days_of_civil (y, m, d) * day_us + hh * 3600000000 + mm * 60000000 + ss * 1000000 + ff)
  else None.

(** The year a datetime is in. *)
Definition year_of (t : datetime) : Z := (civil_of_days (t / day_us)).1.1.

Lemma iso_parse_text t : 0 ≤ year_of t < 10000 → iso_parse (iso_text t) = Some t.
Proof.
  unfold year_of, iso_text. destruct (civil_of_days (t / day_us)) as [[y m] d] eqn:E. simpl.
  intros Hy. destruct (civil_ranges _ _ _ _ E) as [Hm Hd].
  pose proof (Z.div_mod t day_us ltac:(done)) as Ht.
  pose proof (Z.mod_pos_bound t day_us ltac:(done)) as Hus.
  set (us := t mod day_us) in *. unfold day_us in Hus. unfold iso_parse.
  assert (0 ≤ us / 3600000000 < 24).
  { split; [apply Z.div_pos; lia|]. apply Z.div_lt_upper_bound; lia. }
  pose proof (Z.mod_pos_bound (us / 60000000) 60 ltac:(lia)).
  pose proof (Z.mod_pos_bound (us / 1000000) 60 ltac:(lia)).
  pose proof (Z.mod_pos_bound us 1000000 ltac:(lia)).
  do 7 (rewrite read_digits_padded by (simpl; lia); simpl; rewrite ?expect_same; simpl).
  rewrite <- E, days_of_civil_of_days. f_equal.
  rewrite Ht at 2. clearbody us. Z.to_euclidean_division_equations. lia.
Qed.

(** ** [timedelta] of a float *)

(** The whole number nearest to [whole + leftover] for [-1 < leftover < 1],
    ties to even. *)
Definition round_half_even (whole : Z) (leftover : float) : Z :=
  let up := if flt leftover f_0 then -1 else 1 in
  let twice := fmul f_2 (fabs leftover) in
  if flt f_1 twice then whole + up
  else if feq twice f_1 then (if Z.even whole then whole else whole + up)
  else whole.

(** [timedelta(milliseconds=x)] ([factor] 1000) and [timedelta(seconds=x)]
    ([factor] 1000000), in microseconds: the whole part is exact, the fraction
    is scaled as a float and rounded. *)
Definition timedelta_us (factor : Z) (x : float) : result Z :=
  let! whole := or_raise (int_of_float x)
    (if is_nan x then ValueError "cannot convert float NaN to integer"
     else OverflowError "cannot convert float infinity to integer") in
  let scaled := fmul (float_of_Z factor) (fsub x (float_of_Z whole)) in
  let! scaled_whole := or_raise (int_of_float scaled) (ValueError "cannot convert float") in
  let us := round_half_even (whole * factor + scaled_whole)
              (fsub scaled (float_of_Z scaled_whole)) in
  raise_if (us / day_us <? -999999999) || (999999999 <? us / day_us)
    with OverflowError "days; must have magnitude <= 999999999" ;;
  Ok us.

(** The datetimes Python represents: the years 1 to 9999. *)
Definition datetime_min : datetime := days_of_civil (1, 1, 1) * day_us.
Definition datetime_end : datetime := days_of_civil (10000, 1, 1) * day_us.

Definition datetime_add (t : datetime) (us : Z) : result datetime :=
  raise_if (t + us <? datetime_min) || (datetime_end <=? t + us)
    with OverflowError "date value out of range" ;;
  Ok (t + us).

Example year_2000_leap_day :
  iso_text (951782400000000 + 123456) = "2000-02-29T00:00:00.123456Z".
Proof. reflexivity. Qed.
Example python_years : datetime_min = -62135596800000000 ∧ datetime_end = 253402300800000000.
Proof. split; reflexivity. Qed.
Example half_millisecond_rounds_to_even :
  timedelta_us 1000 (float_of_ratio 5 10000) = Ok 0 ∧ timedelta_us 1000 (float_of_ratio 15 10000) = Ok 2.
Proof. vm_compute. auto. Qed.

#[global] Arguments civil_of_days : simpl never.
#[global] Arguments iso_text : simpl never.
#[global] Arguments iso_parse : simpl never.
