(* ===== verification/DesiredState.v ===== *)
(** * Desired link state ([services/scheduler/desired_state.py])

    The Scheduler's record of one link and how it is built from what OME says:
    a [VisibilityEvent] or an entry of a [LinkStateSnapshot].  The Scheduler
    invents nothing: range and light times are OME's, the interfaces are the
    configured ones, a contact is named exactly on the links the resolver
    classes long-delay, and anything missing stops dispatch.

    The contact of a long-delay link has a name, which a restarted Scheduler
    reads back from the kernel ([contact_id] of
    [lib/nodalarc/models/link_state.py] and [Contact.from_contact_id]). *)

From S2P Require Import Prelude.
From S2P Require Import PyFloat.
From S2P Require Import PyData.
From S2P Require Import PyTime.
From S2P Require Import GroundPolicy.
From S2P Require Import GroundTypes.
From S2P Require Import EventDiff.
From S2P Require Import Snapshot.
From stdpp Require Import base list strings gmap pretty.
From Stdlib Require Import Ascii.
Local Open Scope Z_scope.

#[global] Instance admin_state_eq_dec : EqDecision AdminState.
Proof. solve_decision. Defined.

(** ** Contacts *)

Record Contact := { ct_epoch_id : Z; ct_opened_at : datetime }.

#[global] Instance contact_eq_dec : EqDecision Contact.
Proof. solve_decision. Defined.

Definition contact_id (epoch_id : Z) (opened_at : datetime) : string :=
  pretty epoch_id +:+ String "@" (iso_text opened_at).

(** The [contact_id] property. *)
Definition Contact_contact_id (c : Contact) : string :=
  contact_id (ct_epoch_id c) (ct_opened_at c).

(** [text.partition("@")]: the text before the first separator and after it. *)
Fixpoint partition_at (text : string) : option (string * string) :=
  match text with
  | EmptyString => None
  | String c rest =>
      if bool_decide (c = "@"%char) then Some ("", rest)
      else '(l, r) ← partition_at rest; Some (String c l, r)
  end.

(** [int(text)] of a non-empty text of digits. *)
Fixpoint digits_value (acc : Z) (text : string) : option Z :=
  match text with
  | EmptyString => Some acc
  | String c rest => v ← digit_value c; digits_value (10 * acc + v) rest
  end.

(** [Contact.from_contact_id]. *)
Definition from_contact_id (text : string) : result Contact :=
  let refuse := ValueError "not a long-delay contact name" in
  let! '(epoch, opened) := or_raise (partition_at text) refuse in
  raise_if bool_decide (epoch = "") with refuse ;;
  let! epoch_id := or_raise (digits_value 0 epoch) refuse in
  let! opened_at := or_raise (iso_parse opened) refuse in
  let contact := {| ct_epoch_id := epoch_id; ct_opened_at := opened_at |} in
  raise_if negb (bool_decide (Contact_contact_id contact = text)) with refuse ;;
  Ok contact.

(** ** Link records *)

Inductive LinkEndCloseCause :=
| end_of_contact | drain_deadline | seek | scenario | reopened | retargeted_end.

(** [LinkEndLoss] of [lib/nodalarc/models/link_events.py]. *)
Record LinkEndLoss := {
  el_node_id : string;
  el_interface : string;
  el_cause : LinkEndCloseCause;
  el_refused_before_open : Z;
  el_untransmitted_at_stop : Z;
  el_admission_taken : Z;
  el_transmit_dropped : Z;
  el_queue_dropped : Z;
  el_discarded_at_close : Z;
  el_discarded_exact : bool;
}.

Record DrainingEnd := {
  de_node_id : string;
  de_interface : string;
  de_close_due : float;
  de_receives_until : datetime;
  de_contact_id : string;
}.

Record Drain := {
  dr_stopped_at : datetime;
  dr_reason : string;
  dr_ends : list DrainingEnd;
  dr_closed : list LinkEndLoss;
}.

Record StageLoss := {
  st_refused_before_open : Z;
  st_untransmitted_at_stop : Z;
  st_transmit_dropped : Z;
}.

Definition no_loss : StageLoss :=
  {| st_refused_before_open := 0; st_untransmitted_at_stop := 0; st_transmit_dropped := 0 |}.

(** [StageLoss.plus]. *)
Definition plus (a b : StageLoss) : StageLoss :=
  {| st_refused_before_open := st_refused_before_open a + st_refused_before_open b;
     st_untransmitted_at_stop := st_untransmitted_at_stop a + st_untransmitted_at_stop b;
     st_transmit_dropped := st_transmit_dropped a + st_transmit_dropped b |}.

Record ActiveLinkInfo := {
  interface_a : string;
  interface_b : string;
  latency_a_to_b_ms : float;
  latency_b_to_a_ms : float;
  commanded_netem_ms : option (float * float);
  link_type : LinkType;
  range_km : option float;
  authority_sim_time : option datetime;
  authority_source : option string;
  authority_sequence : option Z;
  contact : option Contact;
  drain : option Drain;
  stage_losses : gmap string StageLoss;
}.

(** The [long_delay] property. *)
Definition long_delay (info : ActiveLinkInfo) : bool := negb (is_none (contact info)).

(** [end_contact_id]: the contact an end of a long-delay link carries. *)
Definition end_contact_id (info : ActiveLinkInfo) (node_id : string) : result string :=
  match contact info with
  | None => Raise (ValueError "a local link carries no contact")
  | Some c =>
      let draining := d ← drain info;
        find_first (λ e, bool_decide (de_node_id e = node_id)) (dr_ends d) in
      Ok (match draining with Some e => de_contact_id e | None => Contact_contact_id c end)
  end.

(** ** What OME must provide *)

(** [require_ome_geometry]. *)
Definition require_ome_geometry (range a_to_b b_to_a : option float) :
    result (float * float * float) :=
  let! r := or_raise range (ValueError "missing OME-authoritative range_km") in
  raise_if flt r f_0 with ValueError "negative range_km" ;;
  let! ab := or_raise a_to_b (ValueError "missing OME-authoritative latency_a_to_b_ms") in
  let! ba := or_raise b_to_a (ValueError "missing OME-authoritative latency_b_to_a_ms") in
  raise_if flt ab f_0 || flt ba f_0 with ValueError "negative latency" ;;
  Ok (r, ab, ba).

(** What the Scheduler is configured with. *)
Record SchedulerConfig := {
  cfg_interface_map : gmap node_pair (string * string);
  cfg_gs_capacities : gmap string Z;
  cfg_sat_capacities : gmap string Z;
  cfg_long_delay_pairs : gset node_pair;
}.

Section Build.
Context (cfg : SchedulerConfig).

(** [frozenset(self._gs_capacities)]. *)
Definition cfg_ground_station_ids : gset string := dom (cfg_gs_capacities cfg).

(** [_contact]. *)
Definition contact_of (p : node_pair) (opened_at : option datetime) (epoch_id : Z) :
    result (option Contact) :=
  if bool_decide (p ∈ cfg_long_delay_pairs cfg) then
    let! t := or_raise opened_at (ValueError "long-delay link names no contact") in
    Ok (Some {| ct_epoch_id := epoch_id; ct_opened_at := t |})
  else
    raise_if negb (is_none opened_at)
      with ValueError "names a contact on a pair the resolved session classes local" ;;
    Ok None.

(** [_ground_interfaces]. *)
Definition scheduled_ground_interfaces (p : node_pair) (gs_ti sat_ti : option Z) :
    result (string * string) :=
  match gs_ti, sat_ti with
  | Some g, Some s =>
      let a_is_ground := bool_decide (p.1 ∈ cfg_ground_station_ids) in
      let b_is_ground := bool_decide (p.2 ∈ cfg_ground_station_ids) in
      raise_if Bool.eqb a_is_ground b_is_ground
        with ValueError "refusing to infer interface ownership" ;;
      Ok (if a_is_ground then (term_iface g, gnd_iface s) else (gnd_iface s, term_iface g))
  | _, _ => Raise (ValueError "Scheduled ground links require OME-provided terminal indices")
  end.

Definition interfaces_of (type : LinkType) (p : node_pair) (gs_ti sat_ti : option Z) :
    result (string * string) :=
  match type with
  | ground_link => scheduled_ground_interfaces p gs_ti sat_ti
  | isl_link => or_raise (cfg_interface_map cfg !! p)
                  (ValueError "no configured ISL interfaces; refusing to dispatch an unmapped link")
  end.

Definition desired_link_from_visibility (vis : VisibilityEvent) (epoch_id : Z) :
    result (node_pair * ActiveLinkInfo) :=
  let p := (ve_node_a vis, ve_node_b vis) in
  let! '(r, ab, ba) := require_ome_geometry (Some (ve_range_km vis)) (ve_latency_a_to_b_ms vis)
    (ve_latency_b_to_a_ms vis) in
  let! ifaces := interfaces_of (ve_link_type vis) p (ve_gs_terminal_index vis)
    (ve_sat_terminal_index vis) in
  let! c := contact_of p (ve_contact_opened_at vis) epoch_id in
  Ok (p, {| interface_a := ifaces.1; interface_b := ifaces.2; latency_a_to_b_ms := ab;
            latency_b_to_a_ms := ba; commanded_netem_ms := None; link_type := ve_link_type vis;
            range_km := Some r; authority_sim_time := Some (ve_sim_time vis);
            authority_source := Some "visibility_event"; authority_sequence := None;
            contact := c; drain := None; stage_losses := ∅ |}).

Definition desired_link_from_snapshot_link (l : LinkState) (snapshot_sim_time : datetime)
    (snapshot_seq epoch_id : Z) : result (option (node_pair * ActiveLinkInfo)) :=
  if negb (bool_decide (ls_admin l = admin_up)) || negb (bool_decide (ls_carrier l = carrier_up))
  then Ok None else
  raise_if negb (ls_sim_time l =? snapshot_sim_time)
    with ValueError "link sim_time does not match the snapshot authority time" ;;
  let p := (ls_node_a l, ls_node_b l) in
  let! '(r, ab, ba) := require_ome_geometry (ls_range_km l) (ls_latency_a_to_b_ms l)
    (ls_latency_b_to_a_ms l) in
  let! ifaces := interfaces_of (ls_link_type l) p (ls_gs_terminal_index l)
    (ls_sat_terminal_index l) in
  let! c := contact_of p (ls_contact_opened_at l) epoch_id in
  Ok (Some (p, {| interface_a := ifaces.1; interface_b := ifaces.2; latency_a_to_b_ms := ab;
                  latency_b_to_a_ms := ba; commanded_netem_ms := None;
                  link_type := ls_link_type l; range_km := Some r;
                  authority_sim_time := Some snapshot_sim_time;
                  authority_source := Some "link_state_snapshot";
                  authority_sequence := Some snapshot_seq; contact := c; drain := None;
                  stage_losses := ∅ |})).
End Build.

(** ** Contact names *)

Lemma digit_value_pretty n : (n < 10)%N → digit_value (pretty_N_char n) = Some (Z.of_N n).
Proof.
  intros H. assert (n ∈ [0; 1; 2; 3; 4; 5; 6; 7; 8; 9]%N) as Hn.
  { rewrite !elem_of_cons. lia. }
  repeat (apply elem_of_cons in Hn as [->|Hn]; [reflexivity|]). inversion Hn.
Qed.

(** Reading back a decimal number. *)
Lemma digits_value_pretty_go n s :
  digits_value 0 (pretty_N_go n s) = digits_value (Z.of_N n) s.
Proof.
  revert s. induction (N.lt_wf_0 n) as [n _ IH]; intros s.
  assert (n = 0 ∨ 0 < n)%N as [->|Hn] by lia; [by rewrite pretty_N_go_0|].
  rewrite pretty_N_go_step, IH by (done || by apply N.div_lt). simpl.
  rewrite digit_value_pretty by (by apply N.mod_lt). simpl. f_equal.
  rewrite (N.div_mod n 10) at 3 by done. lia.
Qed.

Lemma digits_value_pretty n : 0 ≤ n → digits_value 0 (pretty n) = Some n.
Proof.
  intros Hn. destruct n as [|p|p]; [done| |lia].
  change (pretty (Z.pos p)) with (pretty (N.pos p)). unfold pretty, pretty_N.
  rewrite decide_False by done. by rewrite digits_value_pretty_go.
Qed.

Lemma partition_digits acc s v rest :
  digits_value acc s = Some v → partition_at (s +:+ String "@" rest) = Some (s, rest).
Proof.
  revert acc. induction s as [|c s IH]; intros acc; [done|]. simpl.
  destruct (digit_value c) as [d|] eqn:E; [|done]. simpl. intros H.
  rewrite bool_decide_false by (by intros ->). by rewrite (IH _ H).
Qed.

(** A contact [contact_id] can name: an epoch of the OME, a four-digit year. *)
Definition contact_ok (c : Contact) : Prop :=
  0 ≤ ct_epoch_id c ∧ 1000 ≤ year_of (ct_opened_at c) < 10000.

Lemma pretty_epoch_nonempty n : 0 ≤ n → pretty n ≠ "".
Proof.
  intros Hn E. pose proof (digits_value_pretty n Hn) as H. rewrite E in H. injection H as <-. done.
Qed.

(** C11: a contact's name reads back as that contact and no other: the name
    OME's contact has in the kernel identifies it to a restarted Scheduler, and
    every other text is refused. *)
Theorem contact_name_roundtrip c text :
  contact_ok c → from_contact_id text = Ok c ↔ text = Contact_contact_id c.
Proof.
  intros [He Hy]. unfold from_contact_id. split.
  - intros H. rbind H as [epoch opened] E. rguard H as E1. rbind H as e E2. rbind H as t E3.
    rguard H as E4. injection H as <-. done.
  - intros ->. unfold Contact_contact_id at 1, contact_id.
    rewrite (partition_digits 0 _ (ct_epoch_id c)) by (by apply digits_value_pretty).
    cbn beta iota delta [or_raise rbind].
    rewrite bool_decide_false by (by apply pretty_epoch_nonempty).
    rewrite digits_value_pretty by done. rewrite iso_parse_text by lia.
    cbn beta iota delta [or_raise rbind]. destruct c as [e t]. by rewrite bool_decide_true.
Qed.

Lemma contact_name_roundtrip_witness :
  from_contact_id "7@2026-02-28T23:59:59.250000Z" =
    Ok {| ct_epoch_id := 7; ct_opened_at := 1772323199250000 |}.
Proof.
  apply (contact_name_roundtrip {| ct_epoch_id := 7; ct_opened_at := 1772323199250000 |}).
  - split; [|split]; vm_compute; done.
  - vm_compute. reflexivity.
Defined.
