(* ===== verification/Authority.v ===== *)
(** * The Scheduler's decision side ([services/scheduler/dispatcher.py])

    The callbacks of the [Dispatcher] that turn what OME publishes into
    [DispatchIntent]s for the dispatch worker: the event fold
    ([_apply_events_to_desired]), the snapshot replacement
    ([_build_desired_from_snapshot]), the seek reset, the scenario overrides and
    the handlers that call them.

    A Python exception leaves the object as it was mutated so far, so a callback
    returns the new state, what it put on the dispatch queue and the exception
    that ended it, if any.  The dictionaries are finite maps: their order is not
    observed. *)

From S2P Require Import Prelude.
From S2P Require Import PyFloat.
From S2P Require Import PyData.
From S2P Require Import PyTime.
From S2P Require Import GroundPolicy.
From S2P Require Import GroundTypes.
From S2P Require Import EventDiff.
From S2P Require Import Snapshot.
From S2P Require Import EpochSync.
From S2P Require Import DesiredState.
From stdpp Require Import base list strings gmap.
Local Open Scope Z_scope.

(** ** State *)

Abbreviation Links := (gmap node_pair ActiveLinkInfo).
Abbreviation OmeState := (bool * bool * SchedulingState)%type.

(** [_desired_links], [_ome_view] and [_teardown_pairs]. *)
Record View := {
  desired_links : Links;
  ome_view : gmap node_pair OmeState;
  teardown_pairs : gset node_pair;
}.

(** The identity of the last snapshot applied. *)
Record Marks := {
  last_snapshot_seq : Z;
  last_snapshot_sim_time : option datetime;
  last_snapshot_epoch_id : Z;
}.

Record Overrides := {
  override_pairs : gmap node_pair string;
  override_nodes : gmap string string;
}.

Record Authority := {
  au_view : View;
  au_marks : Marks;
  au_sync : EpochSyncState;
  au_overrides : Overrides;
  pending_visibility_events : list VisibilityEvent;
  last_visibility_sim_time : option datetime;
  current_sim_time : option datetime;
  latest_decision_snapshot : option GroundLinkDecisionSnapshot;
  pending_since : gmap node_pair (Z * Z * Z);
  fold_diagnostics : list node_pair;
}.

Definition empty_view : View := {| desired_links := ∅; ome_view := ∅; teardown_pairs := ∅ |}.

Definition initial_authority : Authority :=
  {| au_view := empty_view;
     au_marks := {| last_snapshot_seq := 0; last_snapshot_sim_time := None;
                    last_snapshot_epoch_id := 0 |};
     au_sync := initial_sync; au_overrides := {| override_pairs := ∅; override_nodes := ∅ |};
     pending_visibility_events := []; last_visibility_sim_time := None; current_sim_time := None;
     latest_decision_snapshot := None; pending_since := ∅; fold_diagnostics := [] |}.

Inductive IntentSource := src_ome_event | src_snapshot | src_scenario | src_resume | src_drain.

#[global] Instance intent_source_eq_dec : EqDecision IntentSource.
Proof. solve_decision. Defined.

Record DispatchIntent := {
  in_desired : Links;
  in_down_reasons : gmap node_pair string;
  in_forced_bbm_pairs : gset node_pair;
  in_sim_time : datetime;
  in_source : IntentSource;
  in_rebaseline_counts : bool;
}.

(** ** Updates *)

Definition with_view (st : Authority) (v : View) (m : Marks) (diag : list node_pair) : Authority :=
  {| au_view := v; au_marks := m; au_sync := au_sync st; au_overrides := au_overrides st;
     pending_visibility_events := pending_visibility_events st;
     last_visibility_sim_time := last_visibility_sim_time st;
     current_sim_time := current_sim_time st;
     latest_decision_snapshot := latest_decision_snapshot st; pending_since := pending_since st;
     fold_diagnostics := diag |}.

Definition with_sync (st : Authority) (s : EpochSyncState) : Authority :=
  {| au_view := au_view st; au_marks := au_marks st; au_sync := s; au_overrides := au_overrides st;
     pending_visibility_events := pending_visibility_events st;
     last_visibility_sim_time := last_visibility_sim_time st;
     current_sim_time := current_sim_time st;
     latest_decision_snapshot := latest_decision_snapshot st; pending_since := pending_since st;
     fold_diagnostics := fold_diagnostics st |}.

Definition with_overrides (st : Authority) (o : Overrides) : Authority :=
  {| au_view := au_view st; au_marks := au_marks st; au_sync := au_sync st; au_overrides := o;
     pending_visibility_events := pending_visibility_events st;
     last_visibility_sim_time := last_visibility_sim_time st;
     current_sim_time := current_sim_time st;
     latest_decision_snapshot := latest_decision_snapshot st; pending_since := pending_since st;
     fold_diagnostics := fold_diagnostics st |}.

Definition with_batch (st : Authority) (pending : list VisibilityEvent) (last now : option datetime) :
    Authority :=
  {| au_view := au_view st; au_marks := au_marks st; au_sync := au_sync st;
     au_overrides := au_overrides st; pending_visibility_events := pending;
     last_visibility_sim_time := last; current_sim_time := now;
     latest_decision_snapshot := latest_decision_snapshot st; pending_since := pending_since st;
     fold_diagnostics := fold_diagnostics st |}.

Definition with_decision (st : Authority) (d : option GroundLinkDecisionSnapshot) : Authority :=
  {| au_view := au_view st; au_marks := au_marks st; au_sync := au_sync st;
     au_overrides := au_overrides st; pending_visibility_events := pending_visibility_events st;
     last_visibility_sim_time := last_visibility_sim_time st;
     current_sim_time := current_sim_time st;
     latest_decision_snapshot := d; pending_since := pending_since st;
     fold_diagnostics := fold_diagnostics st |}.

(** ** The event fold *)

Section Fold.
Context (cfg : SchedulerConfig).

Definition drop_desired (v : View) (p : node_pair) : View :=
  {| desired_links := delete p (desired_links v); ome_view := ome_view v;
     teardown_pairs := teardown_pairs v ∖ {[p]} |}.

(** One event of [_apply_events_to_desired]. *)
Definition apply_event (m : Marks) (acc : View * list node_pair) (vis : VisibilityEvent) :
    View * list node_pair * option exn :=
  let '(v, diag) := acc in
  let p := (ve_node_a vis, ve_node_b vis) in
  let is_stale := match last_snapshot_sim_time m with
                  | Some t => ve_sim_time vis <=? t | None => false end in
  if is_stale then (v, diag, None) else
  let v := {| desired_links := desired_links v;
              ome_view := <[p := (ve_visible vis, ve_scheduled vis, ve_scheduling_state vis)]>
                            (ome_view v);
              teardown_pairs := teardown_pairs v |} in
  if ve_visible vis && ve_scheduled vis then
    let v := {| desired_links := desired_links v; ome_view := ome_view v;
                teardown_pairs :=
                  if bool_decide (ve_scheduling_state vis = teardown)
                  then {[p]} ∪ teardown_pairs v else teardown_pairs v ∖ {[p]} |} in
    match desired_links v !! p with
    | Some _ => (v, diag, None)
    | None =>
        match desired_link_from_visibility cfg vis (last_snapshot_epoch_id m) with
        | Raise e => (v, diag, Some e)
        | Ok (_, info) =>
            ({| desired_links := <[p := info]> (desired_links v); ome_view := ome_view v;
                teardown_pairs := teardown_pairs v |}, diag, None)
        end
    end
  else if negb (ve_visible vis) then (drop_desired v p, diag, None)
  else
    let diag := if bool_decide (ve_link_type vis = ground_link) &&
                   bool_decide (p ∈ teardown_pairs v)
                then diag ++ [p] else diag in
    (drop_desired v p, diag, None).

(** [_apply_events_to_desired]: the fold stops at the first exception. *)
Fixpoint apply_events (m : Marks) (acc : View * list node_pair) (events : list VisibilityEvent) :
    View * list node_pair * option exn :=
  match events with
  | [] => (acc, None)
  | vis :: events =>
      match apply_event m acc vis with
      | (acc', None) => apply_events m acc' events
      | (acc', Some e) => (acc', Some e)
      end
  end.

(** ** The snapshot *)

(** The OME state a link entry states. *)
Definition ome_state_of (l : LinkState) : OmeState :=
  match ls_carrier l with
  | carrier_up => (true, true, ls_scheduling_state l)
  | carrier_lowerlayerdown => (true, false, ls_scheduling_state l)
  | carrier_down => (false, false, ls_scheduling_state l)
  end.

(** One link of [_build_desired_from_snapshot], onto the maps being built. *)
Definition snapshot_link (snapshot : LinkStateSnapshot) (v : View) (l : LinkState) :
    View * option exn :=
  let p := (ls_node_a l, ls_node_b l) in
  let v := {| desired_links := desired_links v; ome_view := <[p := ome_state_of l]> (ome_view v);
              teardown_pairs := teardown_pairs v |} in
  match desired_link_from_snapshot_link cfg l (sn_sim_time snapshot) (sn_snapshot_seq snapshot)
          (sn_epoch_id snapshot) with
  | Raise e => (v, Some e)
  | Ok None => (v, None)
  | Ok (Some (p, info)) =>
      ({| desired_links := <[p := info]> (desired_links v); ome_view := ome_view v;
          teardown_pairs := if bool_decide (ls_scheduling_state l = teardown)
                            then {[p]} ∪ teardown_pairs v else teardown_pairs v ∖ {[p]} |}, None)
  end.

Fixpoint snapshot_links_fold (snapshot : LinkStateSnapshot) (v : View) (ls : list LinkState) :
    View * option exn :=
  match ls with
  | [] => (v, None)
  | l :: ls =>
      match snapshot_link snapshot v l with
      | (v', None) => snapshot_links_fold snapshot v' ls
      | (v', Some e) => (v', Some e)
      end
  end.

(** [_build_desired_from_snapshot]: [Ok true] when applied, [Ok false] when
    the snapshot is old.  The teardown set is rebuilt in place; the two maps
    are replaced at the end, so an exception leaves them as they were. *)
Definition build_desired_from_snapshot (v : View) (m : Marks) (snapshot : LinkStateSnapshot) :
    View * Marks * result bool :=
  if sn_snapshot_seq snapshot <=? last_snapshot_seq m then (v, m, Ok false) else
  let m := {| last_snapshot_seq := sn_snapshot_seq snapshot;
              last_snapshot_sim_time := Some (sn_sim_time snapshot);
              last_snapshot_epoch_id := sn_epoch_id snapshot |} in
  match snapshot_links_fold snapshot empty_view (sn_links snapshot) with
  | (new, None) => (new, m, Ok true)
  | (new, Some e) =>
      ({| desired_links := desired_links v; ome_view := ome_view v;
          teardown_pairs := teardown_pairs new |}, m, Raise e)
  end.
End Fold.

(** ** The authority invariant the code checks *)

(** OME has marked the pair visible and scheduled. *)
Definition ome_up (v : View) (p : node_pair) : bool :=
  match ome_view v !! p with Some (visible, scheduled, _) => visible && scheduled | None => false end.

(** [authority_subset_violation]. *)
Definition authority_subset_violation (v : View) : gset node_pair :=
  filter (λ p, ome_up v p = false) (dom (desired_links v)).

(** [_assert_authority_subset_fail_loud]: a violation halts the dispatcher. *)
Definition assert_authority_subset (v : View) : option exn :=
  if bool_decide (authority_subset_violation v = ∅) then None
  else Some (RuntimeError "C-A authority subset violation").

(** ** Intents *)

Definition overridden (o : Overrides) (p : node_pair) : bool :=
  negb (is_none (override_pairs o !! p)) || negb (is_none (override_nodes o !! p.1)) ||
  negb (is_none (override_nodes o !! p.2)).

(** [_effective_desired_links]. *)
Definition effective_desired_links (st : Authority) : Links :=
  filter (λ x, overridden (au_overrides st) x.1 = false) (desired_links (au_view st)).

(** A reason, when it is a non-empty text. *)
Definition truthy (reason : option string) : option string :=
  r ← reason; if bool_decide (r = "") then None else Some r.

(** The reason of an override-caused removal: the pair's, else the first end's
    that has one. *)
Definition override_reason (o : Overrides) (p : node_pair) : option string :=
  match truthy (override_pairs o !! p) with
  | Some r => Some r
  | None => match truthy (override_nodes o !! p.1) with
            | Some r => Some r
            | None => truthy (override_nodes o !! p.2)
            end
  end.

(** [_build_dispatch_intent]; [actual] are the pairs of [_actual_links]. *)
Definition build_dispatch_intent (st : Authority) (actual : gset node_pair) (sim_time : datetime)
    (source : IntentSource) (rebaseline : bool) : DispatchIntent :=
  let effective := effective_desired_links st in
  let candidates := (dom (desired_links (au_view st)) ∪ actual) ∖ dom effective in
  let down_reasons : gmap node_pair string :=
    map_imap (λ p _, override_reason (au_overrides st) p) (gset_to_gmap () candidates) in
  {| in_desired := effective; in_down_reasons := down_reasons;
     in_forced_bbm_pairs := dom down_reasons; in_sim_time := sim_time; in_source := source;
     in_rebaseline_counts := rebaseline |}.

(** [_update_pending_since]: the clock of the desired pairs not yet open. *)
Definition update_pending_since (st : Authority) (desired : gset node_pair)
    (open_pairs : gset node_pair) (now : Z) : gmap node_pair (Z * Z * Z) :=
  let pending := desired ∖ open_pairs in
  let stamp := (now, last_snapshot_epoch_id (au_marks st), last_snapshot_seq (au_marks st)) in
  map_imap (λ p _, Some (default stamp (pending_since st !! p))) (gset_to_gmap () pending).

(** [paired_decision_snapshot]. *)
Definition paired_decision_snapshot (st : Authority) : option GroundLinkDecisionSnapshot :=
  ds ← latest_decision_snapshot st;
  t ← last_snapshot_sim_time (au_marks st);
  if (ds_snapshot_seq ds =? last_snapshot_seq (au_marks st)) &&
     (ds_epoch_id ds =? last_snapshot_epoch_id (au_marks st)) && (ds_sim_time ds =? t)
  then Some ds else None.

(** ** Callbacks *)

(** What a callback did: the state, the intents it queued, how it ended. *)
Abbreviation Outcome := (Authority * list DispatchIntent * option exn)%type.

(** [_reset_epoch_local_authority]. *)
Definition reset_epoch_local_authority (st : Authority) : Authority :=
  {| au_view := empty_view;
     au_marks := {| last_snapshot_seq := last_snapshot_seq (au_marks st);
                    last_snapshot_sim_time := None;
                    last_snapshot_epoch_id := last_snapshot_epoch_id (au_marks st) |};
     au_sync := au_sync st; au_overrides := au_overrides st; pending_visibility_events := [];
     last_visibility_sim_time := None; current_sim_time := current_sim_time st;
     latest_decision_snapshot := None; pending_since := ∅;
     fold_diagnostics := fold_diagnostics st |}.

(** [_begin_seek_epoch]; the queue it drains is an optimisation of the worker's
    suspended guard. *)
Definition begin_seek_epoch (st : Authority) (epoch_id : Z) : Authority :=
  match begin_seek (au_sync st) epoch_id with
  | (_, false) => st
  | (sync, true) =>
      let st := reset_epoch_local_authority (with_sync st sync) in
      with_view st (au_view st)
        {| last_snapshot_seq := last_snapshot_seq (au_marks st);
           last_snapshot_sim_time := last_snapshot_sim_time (au_marks st);
           last_snapshot_epoch_id := epoch_id |} (fold_diagnostics st)
  end.

Section Callbacks.
Context (cfg : SchedulerConfig) (epsilon_ms : float) (actual : gset node_pair).

(** Applies the pending batch and queues its intent, up to the exception that
    stops it; the batch is cleared only at the end. *)
Definition flush_batch (st : Authority) (pending : list VisibilityEvent) (sim_time : datetime) :
    Outcome :=
  match apply_events cfg (au_marks st) (au_view st, fold_diagnostics st) pending with
  | (v, diag, Some e) => (with_view st v (au_marks st) diag, [], Some e)
  | (v, diag, None) =>
      let st := with_view st v (au_marks st) diag in
      match assert_authority_subset v with
      | Some e => (st, [], Some e)
      | None =>
          let st := with_view st v (au_marks st) [] in
          (with_batch st [] (last_visibility_sim_time st) (current_sim_time st),
           [build_dispatch_intent st actual sim_time src_ome_event false], None)
      end
  end.

(** [(snap_sim - last_sim_time).total_seconds() * 1000]. *)
Definition delta_ms (now last : datetime) : float :=
  fmul (fdiv (float_of_Z (now - last)) (float_of_Z 1000000)) f_1000.

Definition append_event (st : Authority) (vis : VisibilityEvent) : Authority :=
  with_batch st (pending_visibility_events st ++ [vis]) (Some (ve_sim_time vis))
    (current_sim_time st).

(** [_handle_visibility_event]. *)
Definition handle_visibility_event (st : Authority) (vis : VisibilityEvent) : Outcome :=
  if suspended (au_sync st) then (st, [], None) else
  match last_visibility_sim_time st with
  | Some last =>
      if negb (ve_sim_time vis =? last) then
        if flt (delta_ms (ve_sim_time vis) last) f_0 then
          (st, [], Some (RuntimeError "VisibilityEvent sim_time regressed outside an epoch seek"))
        else
          match pending_visibility_events st with
          | first :: _ =>
              if flt epsilon_ms (delta_ms (ve_sim_time vis) last) then
                match flush_batch st (pending_visibility_events st) (ve_sim_time first) with
                | (st', out, None) => (append_event st' vis, out, None)
                | (st', out, Some e) => (st', out, Some e)
                end
              else (append_event st vis, [], None)
          | [] => (append_event st vis, [], None)
          end
      else (append_event st vis, [], None)
  | None => (append_event st vis, [], None)
  end.

(** Applies a snapshot and queues its intent. *)
Definition apply_snapshot (st : Authority) (snapshot : LinkStateSnapshot) (sim_time : datetime)
    (source : IntentSource) : Outcome :=
  match build_desired_from_snapshot cfg (au_view st) (au_marks st) snapshot with
  | (v, m, Raise e) => (with_view st v m (fold_diagnostics st), [], Some e)
  | (v, m, Ok false) => (with_view st v m (fold_diagnostics st), [], None)
  | (v, m, Ok true) =>
      let st := with_view st v m (fold_diagnostics st) in
      match assert_authority_subset v with
      | Some e => (st, [], Some e)
      | None => (st, [build_dispatch_intent st actual sim_time source true], None)
      end
  end.

(** [_handle_link_state_snapshot]. *)
Definition handle_link_state_snapshot (st : Authority) (snapshot : LinkStateSnapshot) : Outcome :=
  if suspended (au_sync st) then (with_sync st (buffer_snapshot (au_sync st) snapshot).1, [], None)
  else apply_snapshot st snapshot (sn_sim_time snapshot) src_snapshot.

Definition set_current (st : Authority) (t : datetime) : Authority :=
  with_batch st (pending_visibility_events st) (last_visibility_sim_time st) (Some t).

(** [_try_resume_on_clock_tick]: the machine has resumed before the tick's
    time is read. *)
Definition try_resume_on_clock_tick (st : Authority) (tick_sim_time : option datetime) : Outcome :=
  if negb (ready_for_clock_resume (au_sync st)) then (st, [], None) else
  match resume (au_sync st) with
  | Raise e => (st, [], Some e)
  | Ok (sync, buffered) =>
      let st := with_sync st sync in
      match tick_sim_time, buffered with
      | None, _ => (st, [], Some (ValueError "ClockTick missing sim_time"))
      | Some t, None => (set_current st t, [], None)
      | Some t, Some snapshot => apply_snapshot (set_current st t) snapshot t src_resume
      end
  end.

(** [_handle_clock_tick_payload]; both fields of the payload can be absent. *)
Definition handle_clock_tick (st : Authority) (tick_epoch_id : option Z)
    (tick_time : option datetime) : Outcome :=
  match tick_epoch_id with
  | None => (st, [], Some (ValueError "ClockTick missing epoch_id"))
  | Some tick_epoch_id =>
  if suspended (au_sync st) then
    if tick_epoch_id =? expected_epoch_id (au_sync st)
    then try_resume_on_clock_tick st tick_time else (st, [], None)
  else
  match tick_time with
  | None => (st, [], Some (ValueError "ClockTick missing sim_time"))
  | Some tick_sim_time =>
    let st := set_current st tick_sim_time in
    match pending_visibility_events st with
    | [] => (st, [], None)
    | first :: _ =>
        if ve_sim_time first <? tick_sim_time then
          match flush_batch st (pending_visibility_events st) (ve_sim_time first) with
          | (st', out, None) =>
              (with_batch st' (pending_visibility_events st') (Some tick_sim_time)
                 (current_sim_time st'), out, None)
          | (st', out, Some e) => (st', out, Some e)
          end
        else (st, [], None)
    end
  end
  end.

(** [_handle_session_ephemeris]. *)
Definition handle_session_ephemeris (st : Authority) (epoch_id : Z) : Outcome :=
  (with_sync st (mark_ephemeris (au_sync st) epoch_id).1, [], None).

Inductive PlaybackPhase := phase_playing | phase_paused | phase_seeking.

(** [_handle_playback_state]. *)
Definition handle_playback_state (st : Authority) (phase : PlaybackPhase) (epoch_id : Z) : Outcome :=
  match phase with
  | phase_seeking => (begin_seek_epoch st epoch_id, [], None)
  | phase_playing => (with_sync st (mark_playing (au_sync st) epoch_id).1, [], None)
  | phase_paused => (st, [], None)
  end.

(** The commands of [services/scheduler/scenario_handler.py]. *)
Inductive ScenarioCommand :=
| InjectLinkDown (node_a node_b reason : string)
| InjectSatelliteLoss (node : string)
| ReleaseLinkOverride (node_a node_b : string)
| RestoreSatellite (node : string)
| ClearAllOverrides.

Definition command_nodes (cmd : ScenarioCommand) : list string :=
  match cmd with
  | InjectLinkDown a b _ | ReleaseLinkOverride a b => [a; b]
  | InjectSatelliteLoss n | RestoreSatellite n => [n]
  | ClearAllOverrides => []
  end.

(** [_scenario_known_node_ids]. *)
Definition pair_nodes (ps : gset node_pair) : gset string :=
  set_map fst ps ∪ set_map snd ps.
Definition scenario_known_node_ids (st : Authority) : gset string :=
  dom (cfg_gs_capacities cfg) ∪ dom (cfg_sat_capacities cfg) ∪
  pair_nodes (dom (cfg_interface_map cfg)) ∪ pair_nodes (dom (desired_links (au_view st))) ∪
  pair_nodes actual ∪ pair_nodes (dom (ome_view (au_view st))).

Definition override_command (o : Overrides) (cmd : ScenarioCommand) : Overrides :=
  match cmd with
  | InjectLinkDown a b reason =>
      {| override_pairs := <[ordered_pair a b := reason]> (override_pairs o);
         override_nodes := override_nodes o |}
  | InjectSatelliteLoss n =>
      {| override_pairs := override_pairs o;
         override_nodes := <[n := "satellite_loss"]> (override_nodes o) |}
  | ReleaseLinkOverride a b =>
      {| override_pairs := delete (ordered_pair a b) (override_pairs o);
         override_nodes := override_nodes o |}
  | RestoreSatellite n =>
      {| override_pairs := override_pairs o; override_nodes := delete n (override_nodes o) |}
  | ClearAllOverrides => {| override_pairs := ∅; override_nodes := ∅ |}
  end.

(** [_on_scenario_command] on a parsed command; a refused command answers the
    requester and changes nothing. *)
Definition on_scenario_command (st : Authority) (cmd : ScenarioCommand) : Outcome :=
  if existsb (λ n, negb (bool_decide (n ∈ scenario_known_node_ids st))) (command_nodes cmd)
  then (st, [], None) else
  match suspended (au_sync st), current_sim_time st with
  | false, None =>
      (st, [], Some (RuntimeError "Cannot dispatch scenario override before OME simulation time"))
  | is_suspended, now =>
      let st := with_overrides st (override_command (au_overrides st) cmd) in
      match is_suspended, now with
      | false, Some t => (st, [build_dispatch_intent st actual t src_scenario false], None)
      | _, _ => (st, [], None)
      end
  end.

(** Everything the OME and the operator can send. *)
Inductive Message :=
| MsgVisibility (vis : VisibilityEvent)
| MsgClockTick (epoch_id : option Z) (sim_time : option datetime)
| MsgSnapshot (snapshot : LinkStateSnapshot)
| MsgDecisions (decisions : GroundLinkDecisionSnapshot)
| MsgEphemeris (epoch_id : Z)
| MsgPlayback (phase : PlaybackPhase) (epoch_id : Z)
| MsgScenario (cmd : ScenarioCommand)
| MsgWatchdog (epoch_id : Z).

Definition handle (st : Authority) (msg : Message) : Outcome :=
  match msg with
  | MsgVisibility vis => handle_visibility_event st vis
  | MsgClockTick epoch_id sim_time => handle_clock_tick st epoch_id sim_time
  | MsgSnapshot snapshot => handle_link_state_snapshot st snapshot
  | MsgDecisions d => (with_decision st (Some d), [], None)
  | MsgEphemeris epoch_id => handle_session_ephemeris st epoch_id
  | MsgPlayback phase epoch_id => handle_playback_state st phase epoch_id
  | MsgScenario cmd => on_scenario_command st cmd
  | MsgWatchdog epoch_id => (with_sync st (mark_watchdog_timeout (au_sync st) epoch_id).1, [], None)
  end.
End Callbacks.
