(* ===== verification/AuthorityTheorems.v ===== *)
(** * What reaches the dispatch queue

    The Scheduler dispatches only what OME states: its desired links are always
    among the pairs OME has marked visible and scheduled, whatever the order of
    events, snapshots, seeks and failures; a snapshot replaces the desired state
    by exactly its up links; the interfaces it derives are the ones OME
    published; overrides are applied with their reasons; and nothing is queued
    while a seek is in progress. *)

From S2P Require Import Prelude.
From S2P Require Import PyFloat.
From S2P Require Import PyData.
From S2P Require Import PyTime.
From S2P Require Import GroundPolicy.
From S2P Require Import GroundTypes.
From S2P Require Import EventDiff.
From S2P Require Import Snapshot.
From S2P Require Import SnapshotTheorems.
From S2P Require Import EpochSync.
From S2P Require Import DesiredState.
From S2P Require Import Authority.
From stdpp Require Import base list strings gmap.
Local Open Scope Z_scope.

(** ** The subset invariant *)

Definition subset_ok (v : View) : Prop :=
  ∀ p, is_Some (desired_links v !! p) → ome_up v p = true.

Lemma no_violation v : subset_ok v ↔ authority_subset_violation v = ∅.
Proof.
  unfold authority_subset_violation, subset_ok. split.
  - intros H. apply set_eq. intros p. rewrite elem_of_filter, elem_of_dom. split; [|set_solver].
    intros [Hf Hd]. by rewrite (H p Hd) in Hf.
  - intros H p Hd. destruct (ome_up v p) eqn:E; [done|exfalso].
    assert (p ∈ (∅ : gset node_pair)) as Hp; [|set_solver].
    rewrite <- H. by apply elem_of_filter; rewrite elem_of_dom.
Qed.

Lemma assert_ok v : subset_ok v → assert_authority_subset v = None.
Proof.
  intros H%no_violation. unfold assert_authority_subset. by rewrite bool_decide_true.
Qed.

(** Dropping a pair and restating it keeps the invariant. *)
Lemma subset_drop v p s :
  subset_ok v →
  subset_ok (drop_desired {| desired_links := desired_links v; ome_view := <[p := s]> (ome_view v);
                             teardown_pairs := teardown_pairs v |} p).
Proof.
  intros H q. unfold drop_desired, ome_up. simpl. intros [info Hq].
  apply lookup_delete_Some in Hq as [Hne Hq]. rewrite lookup_insert_ne by done. apply H. by eexists.
Qed.

Lemma apply_event_subset cfg m v diag vis :
  subset_ok v → subset_ok (apply_event cfg m (v, diag) vis).1.1.
Proof.
  intros H. unfold apply_event. cbn beta iota zeta. set (p := (ve_node_a vis, ve_node_b vis)).
  case_test Estale; [done|].
  destruct (ve_visible vis && ve_scheduled vis) eqn:E.
  - cbn [desired_links]. destruct (desired_links v !! p) as [i|] eqn:Ed.
    + intros q Hq. unfold ome_up. simpl in *. destruct (decide (q = p)) as [->|Hne].
      * by rewrite lookup_insert_eq.
      * rewrite lookup_insert_ne by done. by apply H.
    + assert (Hv : ∀ d t, (∀ q, is_Some (d !! q) → q = p ∨ is_Some (desired_links v !! q)) →
        subset_ok {| desired_links := d; teardown_pairs := t; ome_view :=
          <[p := (ve_visible vis, ve_scheduled vis, ve_scheduling_state vis)]> (ome_view v) |}).
      { intros d t Hd q Hq. unfold ome_up. simpl in *. destruct (decide (q = p)) as [->|Hne].
        - by rewrite lookup_insert_eq.
        - rewrite lookup_insert_ne by done. destruct (Hd q Hq) as [->|Hq']; [done|by apply H]. }
      destruct (desired_link_from_visibility _ _ _) as [[p' info]|e]; simpl; apply Hv; [|by right].
      intros q. destruct (decide (q = p)) as [->|Hne]; [by left|].
      rewrite lookup_insert_ne by done. by right.
  - destruct (negb (ve_visible vis)); simpl; by apply subset_drop.
Qed.

Lemma apply_events_subset cfg m v diag l :
  subset_ok v → subset_ok (apply_events cfg m (v, diag) l).1.1.
Proof.
  revert v diag. induction l as [|vis l IH]; intros v diag H; cbn [apply_events]; [done|].
  pose proof (apply_event_subset cfg m v diag vis H) as H'.
  destruct (apply_event cfg m (v, diag) vis) as [[v' d'] [e|]]; [exact H'|apply IH; exact H'].
Qed.

(** ** Snapshots *)

(** A snapshot states each pair once, as OME builds it. *)
Definition unique_pairs (snapshot : LinkStateSnapshot) : Prop :=
  NoDup (map link_pair (sn_links snapshot)).

Definition stated (snapshot : LinkStateSnapshot) (p : node_pair) : option LinkState :=
  find_first (λ l, bool_decide (link_pair l = p)) (sn_links snapshot).

(** The desired link an up entry gives. *)
Definition desired_of (cfg : SchedulerConfig) (snapshot : LinkStateSnapshot) (l : LinkState) :
    option ActiveLinkInfo :=
  match desired_link_from_snapshot_link cfg l (sn_sim_time snapshot) (sn_snapshot_seq snapshot)
          (sn_epoch_id snapshot) with
  | Ok (Some (_, info)) => Some info
  | _ => None
  end.

Lemma desired_link_pair cfg l t n e p info :
  desired_link_from_snapshot_link cfg l t n e = Ok (Some (p, info)) →
  p = link_pair l ∧ ls_carrier l = carrier_up.
Proof.
  unfold desired_link_from_snapshot_link.
  destruct (negb (bool_decide (ls_admin l = admin_up)) ||
    negb (bool_decide (ls_carrier l = carrier_up))) eqn:E; [done|].
  apply orb_false_iff in E as [_ E%negb_false_iff%bool_decide_eq_true].
  intros H. rguard H as Et. rbind H as [[r ab] ba] Hg. rbind H as ifs Hi. rbind H as c Hc.
  by injection H as <- _.
Qed.

(** What the fold over a snapshot's links builds, from what it had. *)
Lemma snapshot_fold_spec cfg snapshot ls v v' :
  NoDup (map link_pair ls) → snapshot_links_fold cfg snapshot v ls = (v', None) →
  ∀ p, match find_first (λ l, bool_decide (link_pair l = p)) ls with
       | Some l => ome_view v' !! p = Some (ome_state_of l) ∧
                   desired_links v' !! p =
                     match desired_of cfg snapshot l with
                     | Some info => Some info | None => desired_links v !! p end
       | None => ome_view v' !! p = ome_view v !! p ∧ desired_links v' !! p = desired_links v !! p
       end.
Proof.
  revert v. induction ls as [|l ls IH]; intros v Hnd; cbn [snapshot_links_fold find_first].
  { by intros [= <-] p. }
  cbn [map] in Hnd. apply NoDup_cons in Hnd as [Hl Hnd]. unfold snapshot_link, desired_of in *. cbn zeta.
  fold (link_pair l). intros H p.
  assert (find_first (λ l, bool_decide (link_pair l = p)) ls = None ∨ link_pair l ≠ p) as Hcase.
  { destruct (decide (link_pair l = p)) as [<-|]; [left|by right]. apply find_first_None.
    intros x Hx. apply bool_decide_eq_false. intros E. apply Hl. rewrite <- E.
    apply list_elem_of_fmap. eauto. }
  destruct (desired_link_from_snapshot_link _ _ _ _ _) as [[[q info]|]|e] eqn:E; [| |done];
    [destruct (desired_link_pair _ _ _ _ _ _ _ E) as [-> _]|];
    specialize (IH _ Hnd H p); cbn [ome_view desired_links] in IH;
    (destruct (bool_decide (link_pair l = p)) eqn:Hp;
      [apply bool_decide_eq_true in Hp|apply bool_decide_eq_false in Hp]).
  - destruct Hcase as [Hn|]; [|done]. rewrite Hn in IH. destruct IH as [-> ->]. subst p.
    by rewrite !lookup_insert_eq, E.
  - by rewrite !lookup_insert_ne in IH by done.
  - destruct Hcase as [Hn|]; [|done]. rewrite Hn in IH. destruct IH as [-> ->]. subst p.
    by rewrite lookup_insert_eq, E.
  - by rewrite lookup_insert_ne in IH by done.
Qed.

(** an applied snapshot replaces the Scheduler's state: its desired links
    are exactly the ones its up entries give and its view of OME is exactly what
    the entries state, whatever the state before; an older snapshot changes
    nothing. *)
Theorem snapshot_replaces_desired cfg v m snapshot v' m' applied :
  unique_pairs snapshot →
  build_desired_from_snapshot cfg v m snapshot = (v', m', Ok applied) →
  if applied : bool then
    last_snapshot_seq m < last_snapshot_seq m' ∧
    (∀ p, desired_links v' !! p = stated snapshot p ≫= desired_of cfg snapshot) ∧
    (∀ p, ome_view v' !! p = ome_state_of <$> stated snapshot p)
  else v' = v ∧ m' = m ∧ sn_snapshot_seq snapshot ≤ last_snapshot_seq m.
Proof.
  intros Hu. unfold build_desired_from_snapshot.
  destruct (Z.leb_spec (sn_snapshot_seq snapshot) (last_snapshot_seq m)) as [Hs|Hs].
  { intros [= <- <- <-]. by auto. }
  destruct (snapshot_links_fold _ _ _ _) as [new [e|]] eqn:E; [done|]. intros [= <- <- <-].
  pose proof (snapshot_fold_spec _ _ _ _ _ Hu E) as Hspec. split; [done|].
  split; intros p; specialize (Hspec p); unfold stated;
    destruct (find_first _ (sn_links snapshot)) as [l|]; simpl; destruct Hspec as [Hv Hd];
    [rewrite Hd; by destruct (desired_of cfg snapshot l)|done|done|done].
Qed.

Lemma build_desired_subset cfg v m snapshot v' m' r :
  subset_ok v → unique_pairs snapshot →
  build_desired_from_snapshot cfg v m snapshot = (v', m', r) → subset_ok v'.
Proof.
  intros Hv Hu. unfold build_desired_from_snapshot. destruct (_ <=? _); [by intros [= <- _ _]|].
  destruct (snapshot_links_fold _ _ _ _) as [new [e|]] eqn:E; intros [= <- _ _]; [done|].
  intros p [info Hp]. pose proof (snapshot_fold_spec _ _ _ _ _ Hu E p) as Hs. unfold ome_up.
  destruct (find_first _ (sn_links snapshot)) as [l|]; destruct Hs as [Ho Hd];
    [|by rewrite Hd in Hp]. rewrite Ho. rewrite Hd in Hp. unfold desired_of in Hp.
  destruct (desired_link_from_snapshot_link _ _ _ _ _) as [[[q i]|]|e] eqn:El; [|done|done].
  destruct (desired_link_pair _ _ _ _ _ _ _ El) as [_ Hup]. unfold ome_state_of. by rewrite Hup.
Qed.

(** ** Reachable states *)

Definition msg_ok (msg : Message) : Prop :=
  match msg with MsgSnapshot snapshot => unique_pairs snapshot | _ => True end.

(** What the worker writes back. *)
Definition stamp_pending (st : Authority) (desired open_pairs : gset node_pair) (now : Z) : Authority :=
  {| au_view := au_view st; au_marks := au_marks st; au_sync := au_sync st;
     au_overrides := au_overrides st; pending_visibility_events := pending_visibility_events st;
     last_visibility_sim_time := last_visibility_sim_time st;
     current_sim_time := current_sim_time st;
     latest_decision_snapshot := latest_decision_snapshot st;
     pending_since := update_pending_since st desired open_pairs now;
     fold_diagnostics := fold_diagnostics st |}.

Inductive au_reachable (cfg : SchedulerConfig) (epsilon_ms : float) : Authority → Prop :=
| au_initial : au_reachable cfg epsilon_ms initial_authority
| au_message st actual msg st' out e :
    au_reachable cfg epsilon_ms st → msg_ok msg →
    handle cfg epsilon_ms actual st msg = (st', out, e) → au_reachable cfg epsilon_ms st'
| au_worker st desired open_pairs now :
    au_reachable cfg epsilon_ms st →
    au_reachable cfg epsilon_ms (stamp_pending st desired open_pairs now).

Record au_ok (st : Authority) : Prop := {
  ao_subset : subset_ok (au_view st);
  ao_sync : sync_reachable (au_sync st);
  ao_unique n : buffered_snapshot (au_sync st) = Some n → unique_pairs n;
}.

(** An outcome whose state is fine and which no authority violation ended. *)
Definition violation : exn := RuntimeError "C-A authority subset violation".
Definition outcome_ok (o : Outcome) : Prop := au_ok o.1.1 ∧ o.2 ≠ Some violation.

Lemma au_ok_view st v m diag : au_ok st → subset_ok v → au_ok (with_view st v m diag).
Proof. intros [_ H2 H3] Hv. by split. Qed.
Lemma au_ok_batch st pending last now : au_ok st → au_ok (with_batch st pending last now).
Proof. intros [H1 H2 H3]. by split. Qed.
Lemma au_ok_sync st s :
  au_ok st → step (au_sync st) s →
  (∀ n, buffered_snapshot s = Some n → buffered_snapshot (au_sync st) = Some n ∨ unique_pairs n) →
  au_ok (with_sync st s).
Proof.
  intros [H1 H2 H3] Hs Hn. split; simpl; [done|by eapply sync_step|].
  intros n E. destruct (Hn n E); eauto.
Qed.
#[export] Hint Resolve au_ok_view au_ok_batch : nodal.

(** The desired-state builders raise [ValueError]s only. *)
Definition value_error (e : exn) : Prop := ∃ what, e = ValueError what.

Lemma desired_visibility_errors cfg vis e x :
  desired_link_from_visibility cfg vis e = Raise x → value_error x.
Proof.
  unfold desired_link_from_visibility, require_ome_geometry, interfaces_of,
    scheduled_ground_interfaces, contact_of. intros H.
  repeat (case_match || simpl in * || simplify_eq || unfold or_raise in *);
    try (by eexists); simplify_eq/=; by eexists.
Qed.

Lemma desired_snapshot_errors cfg l t n e x :
  desired_link_from_snapshot_link cfg l t n e = Raise x → value_error x.
Proof.
  unfold desired_link_from_snapshot_link, require_ome_geometry, interfaces_of,
    scheduled_ground_interfaces, contact_of. intros H.
  repeat (case_match || simpl in * || simplify_eq || unfold or_raise in *);
    try (by eexists); simplify_eq/=; by eexists.
Qed.

Lemma apply_event_errors cfg m acc vis e :
  (apply_event cfg m acc vis).2 = Some e → value_error e.
Proof.
  destruct acc as [v diag]. unfold apply_event. cbn beta iota zeta.
  case_test Es; [done|]. case_test Ev; [|by case_test En].
  destruct (desired_links _ !! _); [done|].
  destruct (desired_link_from_visibility _ _ _) as [[q i]|x] eqn:Ed; [done|].
  intros [= <-]. by eapply desired_visibility_errors.
Qed.

Lemma apply_events_errors cfg m acc l e :
  (apply_events cfg m acc l).2 = Some e → value_error e.
Proof.
  revert acc. induction l as [|vis l IH]; intros acc; cbn [apply_events]; [done|].
  pose proof (apply_event_errors cfg m acc vis) as He.
  destruct (apply_event cfg m acc vis) as [acc' [e'|]]; [|apply IH]. intros [= <-]. by apply He.
Qed.

Lemma snapshot_fold_errors cfg snapshot v ls e :
  (snapshot_links_fold cfg snapshot v ls).2 = Some e → value_error e.
Proof.
  revert v. induction ls as [|l ls IH]; intros v; cbn [snapshot_links_fold]; [done|].
  destruct (snapshot_link cfg snapshot v l) as [v' [e'|]] eqn:E; [|apply IH].
  intros [= <-]. unfold snapshot_link in E. cbn beta iota zeta in E.
  destruct (desired_link_from_snapshot_link _ _ _ _ _) as [[[q i]|]|x] eqn:Ed; simplify_eq.
  by eapply desired_snapshot_errors.
Qed.

Lemma not_violation e : value_error e → Some e ≠ Some violation.
Proof. by intros [what ->]. Qed.

Section Outcomes.
Context (cfg : SchedulerConfig) (epsilon_ms : float) (actual : gset node_pair).

Lemma flush_ok st pending t : au_ok st → outcome_ok (flush_batch cfg actual st pending t).
Proof.
  intros Hst. pose proof (apply_events_subset cfg (au_marks st) (au_view st) (fold_diagnostics st)
    pending (ao_subset _ Hst)) as Hv.
  pose proof (apply_events_errors cfg (au_marks st) (au_view st, fold_diagnostics st) pending) as He.
  unfold flush_batch. destruct (apply_events _ _ _ _) as [[v diag] [e|]]; simpl in Hv, He.
  - split; simpl; [auto with nodal|]. by apply not_violation, He.
  - rewrite assert_ok by done. split; simpl; [auto with nodal|done].
Qed.

Lemma snapshot_ok st snapshot t source :
  au_ok st → unique_pairs snapshot → outcome_ok (apply_snapshot cfg actual st snapshot t source).
Proof.
  intros Hst Hu. unfold apply_snapshot.
  destruct (build_desired_from_snapshot _ _ _ _) as [[v m] r] eqn:E.
  pose proof (build_desired_subset _ _ _ _ _ _ _ (ao_subset _ Hst) Hu E) as Hv.
  destruct r as [[]|e].
  - rewrite assert_ok by done. split; simpl; [auto with nodal|done].
  - split; simpl; [auto with nodal|done].
  - split; simpl; [auto with nodal|]. unfold build_desired_from_snapshot in E.
    destruct (_ <=? _); [done|].
    pose proof (snapshot_fold_errors cfg snapshot empty_view (sn_links snapshot)) as He.
    destruct (snapshot_links_fold _ _ _ _) as [new [e'|]]; [|done].
    injection E as _ _ <-. by apply not_violation, He.
Qed.

Lemma resume_ok st t :
  au_ok st → suspended (au_sync st) = true →
  outcome_ok (try_resume_on_clock_tick cfg actual st t).
Proof.
  intros Hst Hs. unfold try_resume_on_clock_tick.
  destruct (negb (ready_for_clock_resume _)) eqn:Er; [by split|].
  destruct (resume (au_sync st)) as [[sync buffered]|e] eqn:E; simpl.
  - assert (Hsync : au_ok (with_sync st sync)).
    { apply au_ok_sync; [done|by eapply step_resume|]. unfold resume in E. rewrite Er in E.
      by injection E as <- _. }
    destruct t as [t|]; [|by split].
    destruct buffered as [n|]; [|split; [by apply au_ok_batch|done]].
    apply snapshot_ok; [by apply au_ok_batch|].
    unfold resume in E. rewrite Er in E. injection E as _ E. by apply (ao_unique _ Hst).
  - unfold resume in E. by rewrite Er in E.
Qed.

Lemma seek_ok st epoch : au_ok st → au_ok (begin_seek_epoch st epoch).
Proof.
  intros Hst. unfold begin_seek_epoch. pose proof (step_seek (au_sync st) epoch) as Hs.
  unfold begin_seek in *. destruct (_ <=? _); simpl in *; [done|].
  split; simpl; [|eapply sync_step; [apply Hst|done]|done].
  intros p [x Hp]. by simpl in Hp; rewrite lookup_empty in Hp.
Qed.

Lemma visibility_ok st vis :
  au_ok st → outcome_ok (handle_visibility_event cfg epsilon_ms actual st vis).
Proof.
  intros Hst. unfold handle_visibility_event, append_event.
  assert (Happ : outcome_ok (with_batch st (pending_visibility_events st ++ [vis])
    (Some (ve_sim_time vis)) (current_sim_time st), [], None)) by (split; [by apply au_ok_batch|done]).
  destruct (suspended (au_sync st)); [by split|].
  destruct (last_visibility_sim_time st) as [last|]; [|done].
  case_test E1; [|done]. case_test E2; [by split|].
  destruct (pending_visibility_events st) as [|first rest]; [done|].
  case_test E3; [|done].
  pose proof (flush_ok st (first :: rest) (ve_sim_time first) Hst) as [Hf He].
  destruct (flush_batch _ _ _ _ _) as [[st' out] [e|]]; split; simpl in *; auto with nodal.
Qed.

Lemma clock_ok st epoch t : au_ok st → outcome_ok (handle_clock_tick cfg actual st epoch t).
Proof.
  intros Hst. unfold handle_clock_tick. destruct epoch as [epoch|]; [|by split].
  destruct (suspended (au_sync st)) eqn:Es.
  { case_test E1; [by apply resume_ok|by split]. }
  destruct t as [t|]; [|by split]. unfold set_current. cbn [pending_visibility_events with_batch].
  set (st1 := with_batch st _ _ (Some t)). assert (H1 : au_ok st1) by (by apply au_ok_batch).
  destruct (pending_visibility_events st) as [|first rest]; [by split|].
  case_test E3; [|by split].
  pose proof (flush_ok st1 (first :: rest) (ve_sim_time first) H1) as [Hf He].
  destruct (flush_batch _ _ _ _ _) as [[st' out] [e|]]; split; simpl in *; auto with nodal.
Qed.

Lemma scenario_ok st cmd : au_ok st → outcome_ok (on_scenario_command cfg actual st cmd).
Proof.
  intros Hst. unfold on_scenario_command. case_test E1; [by split|].
  assert (Ho : ∀ o, au_ok (with_overrides st o)) by (intros o; destruct Hst; by split).
  destruct (suspended (au_sync st)), (current_sim_time st);
    (split; simpl; [first [done|apply Ho]|done]).
Qed.

Lemma handle_ok st msg : au_ok st → msg_ok msg → outcome_ok (handle cfg epsilon_ms actual st msg).
Proof.
  intros Hst Hm. destruct msg as [vis|epoch t|n|d|epoch|phase epoch|cmd|epoch]; simpl.
  - by apply visibility_ok.
  - by apply clock_ok.
  - unfold handle_link_state_snapshot. destruct (suspended (au_sync st)) eqn:Es.
    + split; [|done]. apply au_ok_sync; [done|by apply step_snapshot|].
      unfold buffer_snapshot. destruct (negb _); simpl; [by left|]. intros x [= <-]. by right.
    + by apply snapshot_ok.
  - destruct Hst. split; [by split|done].
  - split; [|done]. apply au_ok_sync; [done|by apply step_ephemeris|].
    unfold mark_ephemeris. destruct (negb _); by left.
  - destruct phase; simpl; (split; [|done]); simpl; [|done|by apply seek_ok].
    apply au_ok_sync; [done|by apply step_playing|]. unfold mark_playing. destruct (negb _); by left.
  - by apply scenario_ok.
  - split; [|done]. apply au_ok_sync; [done|by apply step_watchdog|].
    unfold mark_watchdog_timeout. destruct (_ && _); by left.
Qed.
End Outcomes.

Lemma reachable_au_ok cfg epsilon_ms st : au_reachable cfg epsilon_ms st → au_ok st.
Proof.
  induction 1 as [|st actual msg st' out e _ IH Hm Hh|st d o now _ IH].
  - split; [|constructor|done]. intros p [x Hp]. by simpl in Hp; rewrite lookup_empty in Hp.
  - pose proof (handle_ok cfg epsilon_ms actual st msg IH Hm) as [H _]. by rewrite Hh in H.
  - by destruct IH; split.
Qed.

(** C10: the Scheduler never desires a link OME has not marked visible and
    scheduled: in every state reached by any sequence of events, ticks,
    snapshots, seeks, commands and failures the violation set is empty, and no
    callback is ended by the authority check. *)
Theorem authority_subset_always cfg epsilon_ms st :
  au_reachable cfg epsilon_ms st →
  authority_subset_violation (au_view st) = ∅ ∧
  ∀ actual msg, msg_ok msg →
    (handle cfg epsilon_ms actual st msg).2 ≠ Some (RuntimeError "C-A authority subset violation").
Proof.
  intros Hr%reachable_au_ok. split; [by apply no_violation, Hr|].
  intros actual msg Hm. by apply (handle_ok cfg epsilon_ms actual st msg).
Qed.

(** ** OME's snapshots *)

(** OME and the Scheduler are configured from the same resolved session. *)
Definition same_wiring (cfg : SchedulerConfig) (a : SnapshotArgs) : Prop :=
  cfg_interface_map cfg = interface_map a ∧ cfg_ground_station_ids cfg = ground_ids a.

(** What the tick committed is not negative. *)
Definition geometry_ok (source : LinkSnapshotSource) : Prop :=
  (∀ p r, ranges_km source !! p = Some r → flt r f_0 = false) ∧
  (∀ p x y, latencies_ms source !! p = Some (x, y) → flt x f_0 = false ∧ flt y f_0 = false).

(** The link facts the Scheduler reads, for an up entry. *)
Lemma up_entry source a snap l cfg :
  build_link_state_snapshot source a = Ok snap → same_wiring cfg a → l ∈ sn_links snap →
  ls_admin l = admin_up ∧ ls_sim_time l = sn_sim_time snap ∧
  (ls_carrier l = carrier_up →
   interfaces_of cfg (ls_link_type l) (link_pair l) (ls_gs_terminal_index l) (ls_sat_terminal_index l)
     = Ok (ls_interface_a l, ls_interface_b l) ∧
   ∃ r x y, ranges_km source !! link_pair l = Some r ∧
     latencies_ms source !! link_pair l = Some (x, y) ∧ ls_range_km l = Some r ∧
     ls_latency_a_to_b_ms l = Some x ∧ ls_latency_b_to_a_ms l = Some y).
Proof.
  intros H [Hmap Hgs] Hl.
  assert (sn_sim_time snap = sa_sim_time a) as ->.
  { unfold build_link_state_snapshot in H. rbind H as u Hu. rbind H as x Hx. rbind H as y Hy.
    by injection H as <-. }
  apply snapshot_links in H as (_ & isl & gnd & E & Hi & Hg). rewrite E in Hl.
  apply elem_of_app in Hl as [Hl|Hl].
  - destruct (Forall2_elem_r _ _ _ _ Hi Hl) as ([p [v s]] & _ & H).
    unfold isl_link_state in H. rbind H as ifs Hifs. rbind H as [range lats] Hgeo.
    injection H as <-. unfold link_pair. simpl. split_and!; [done|done|]. intros Hup. split.
    + rewrite Hmap. destruct p. simpl. rewrite Hifs. by destruct ifs.
    + rewrite (bool_decide_eq_true_2 _ Hup) in Hgeo.
      apply geometry_up in Hgeo as (r & [x y] & Hr & Hlt & [= -> ->]). destruct p. eauto 10.
  - destruct (Forall2_elem_r _ _ _ _ Hg Hl) as ([p [v s]] & _ & H).
    assert (ls_admin l = admin_up) as ->.
    { unfold ground_link_state in H. rbind H as [x1 x2] H1. rbind H as x3 H3. rbind H as x4 H4.
      rbind H as [x5 x6] H5. by injection H as <-. }
    apply ground_link_state_spec in H as [Hp _ Hty Hgeo Ht _ Htime _].
    split_and!; [done|done|]. intros Hup. split; [|rewrite Hp; by apply Hgeo].
    destruct (Ht Hup) as (gi & si & sf & _ & Hsf & -> & -> & Hif). rewrite Hty, Hp. simpl.
    unfold ground_side in Hsf. rewrite Hgs.
    repeat case_bool_decide; simpl in *; try done; injection Hsf as <-; by rewrite Hif.
Qed.

(** C9: the Scheduler dispatches what OME published: of an OME snapshot whose
    contacts agree with the resolver's classes, every up link gives a desired
    link with the interfaces, range and light times OME stated, and no other
    link gives one; nothing in it stops dispatch. *)
Theorem desired_link_faithful cfg source a snap l :
  build_link_state_snapshot source a = Ok snap → same_wiring cfg a → geometry_ok source →
  l ∈ sn_links snap →
  (ls_carrier l = carrier_up →
     (is_none (ls_contact_opened_at l) = false ↔ link_pair l ∈ cfg_long_delay_pairs cfg)) →
  match desired_link_from_snapshot_link cfg l (sn_sim_time snap) (sn_snapshot_seq snap)
          (sn_epoch_id snap) with
  | Ok None => ls_carrier l ≠ carrier_up
  | Ok (Some (p, info)) => ls_carrier l = carrier_up ∧ p = link_pair l ∧
      interface_a info = ls_interface_a l ∧ interface_b info = ls_interface_b l ∧
      range_km info = ls_range_km l ∧ Some (latency_a_to_b_ms info) = ls_latency_a_to_b_ms l ∧
      Some (latency_b_to_a_ms info) = ls_latency_b_to_a_ms l ∧
      long_delay info = bool_decide (p ∈ cfg_long_delay_pairs cfg)
  | Raise _ => False
  end.
Proof.
  intros H Hw [Hr Hlat] Hl Hclass.
  destruct (up_entry _ _ _ _ _ H Hw Hl) as (Hadm & Htime & Hup). unfold desired_link_from_snapshot_link.
  rewrite Hadm, bool_decide_true by done. simpl.
  destruct (decide (ls_carrier l = carrier_up)) as [Hc|Hc]; [|by rewrite bool_decide_false].
  rewrite bool_decide_true by done. simpl. rewrite Htime, Z.eqb_refl. simpl.
  destruct (Hup Hc) as (Hif & r & x & y & Er & El & -> & -> & ->).
  destruct (Hlat _ _ _ El) as [Hx Hy]. unfold require_ome_geometry. simpl.
  rewrite (Hr _ _ Er), Hx, Hy. simpl. fold (link_pair l). rewrite Hif. simpl.
  unfold contact_of, long_delay. specialize (Hclass Hc). clear -Hclass Hc.
  destruct (decide (link_pair l ∈ cfg_long_delay_pairs cfg)) as [Hd|Hd].
  - rewrite bool_decide_true by done. pose proof (proj2 Hclass Hd) as Hn.
    destruct (ls_contact_opened_at l); [|done]. simpl. rewrite bool_decide_true by done.
    by split_and!.
  - rewrite bool_decide_false by done.
    destruct (ls_contact_opened_at l); simpl; [exfalso; tauto|].
    rewrite bool_decide_false by done. by split_and!.
Qed.

(** ** Seeks *)

Lemma build_desired_epoch cfg v m snapshot v' m' :
  unique_pairs snapshot → build_desired_from_snapshot cfg v m snapshot = (v', m', Ok true) →
  ∀ p info c, desired_links v' !! p = Some info → contact info = Some c →
    ct_epoch_id c = sn_epoch_id snapshot.
Proof.
  intros Hu H p info c Hp Hc.
  unfold build_desired_from_snapshot in H. destruct (_ <=? _); [done|].
  destruct (snapshot_links_fold _ _ _ _) as [new [e|]] eqn:E; [done|]. injection H as <- _.
  pose proof (snapshot_fold_spec _ _ _ _ _ Hu E p) as Hs.
  destruct (find_first _ (sn_links snapshot)) as [l|]; destruct Hs as [_ Hd]; rewrite Hd in Hp;
    [|done]. unfold desired_of in Hp.
  destruct (desired_link_from_snapshot_link _ _ _ _ _) as [[[q i]|]|e] eqn:El; [|done|done].
  injection Hp as ->. unfold desired_link_from_snapshot_link in El. destruct (_ || _); [done|].
  rguard El as Et. rbind El as [[r ab] ba] Hg. rbind El as ifs Hi. rbind El as cc Hcc.
  injection El as _ <-. simpl in Hc. subst cc. unfold contact_of in Hcc.
  destruct (bool_decide _); [rbind Hcc as t Ht; by injection Hcc as <-|by destruct (negb _)].
Qed.

(** nothing is queued for dispatch while a seek is in progress, except the
    one intent that ends it: on a clock tick of the new epoch, from a snapshot
    of that epoch, so that every long-delay contact in it belongs to it. *)
Theorem suspended_queues_only_resume cfg epsilon_ms st actual msg st' out e :
  au_reachable cfg epsilon_ms st → suspended (au_sync st) = true →
  handle cfg epsilon_ms actual st msg = (st', out, e) →
  out = [] ∨
  ∃ t intent, msg = MsgClockTick (Some (expected_epoch_id (au_sync st))) (Some t) ∧
    out = [intent] ∧ in_source intent = src_resume ∧ suspended (au_sync st') = false ∧
    ∀ p info c, in_desired intent !! p = Some info → contact info = Some c →
      ct_epoch_id c = expected_epoch_id (au_sync st).
Proof.
  intros Hr%reachable_au_ok Hs H. destruct msg as [vis|epoch t|n|d|epoch|phase epoch|cmd|epoch];
    simpl in H; try (injection H as _ <- _; by left).
  - unfold handle_visibility_event in H. rewrite Hs in H. injection H as _ <- _. by left.
  - unfold handle_clock_tick in H. destruct epoch as [epoch|]; [|injection H as _ <- _; by left].
    rewrite Hs in H. destruct (Z.eqb_spec epoch (expected_epoch_id (au_sync st))) as [->|];
      [|injection H as _ <- _; by left].
    unfold try_resume_on_clock_tick in H. case_match eqn:Er; [injection H as _ <- _; by left|].
    destruct (resume (au_sync st)) as [[sync buffered]|x] eqn:E; [|injection H as _ <- _; by left].
    destruct t as [t|]; [|injection H as _ <- _; by left].
    destruct buffered as [n|]; [|injection H as _ <- _; by left].
    unfold resume in E. rewrite Er in E. injection E as <- Hn.
    unfold apply_snapshot in H. cbn [set_current with_batch with_sync au_view au_marks] in H.
    destruct (build_desired_from_snapshot _ _ _ _) as [[v m] [[]|x]] eqn:Eb;
      [|injection H as _ <- _; by left..].
    destruct (assert_authority_subset v); [injection H as _ <- _; by left|].
    injection H as <- <- _. right. eexists t, _. split_and!; [done|done|done|done|].
    intros p info c Hp Hc. apply map_lookup_filter_Some in Hp as [Hp _]. simpl in Hp.
    rewrite (build_desired_epoch _ _ _ _ _ _ (ao_unique _ Hr _ Hn) Eb p info c Hp Hc).
    apply (sy_epoch _ (reachable_sync_ok _ (ao_sync _ Hr))). done.
  - unfold handle_link_state_snapshot in H. rewrite Hs in H. injection H as _ <- _. by left.
  - destruct phase; injection H as _ <- _; by left.
  - unfold on_scenario_command in H. rewrite Hs in H. destruct (existsb _ _);
      [injection H as _ <- _; by left|].
    destruct (current_sim_time st); injection H as _ <- _; by left.
Qed.

(** ** Overrides *)

(** an intent carries exactly the desired links no override covers; an
    override-caused removal (of a desired or an actual link) is named with its
    reason and forced break-before-make, and no link both stays and is named. *)
Theorem intent_applies_overrides st actual t source rebaseline p :
  let o := au_overrides st in
  let intent := build_dispatch_intent st actual t source rebaseline in
  in_desired intent !! p = (if overridden o p then None else desired_links (au_view st) !! p) ∧
  (in_down_reasons intent !! p =
     if bool_decide (is_Some (desired_links (au_view st) !! p) ∨ p ∈ actual) &&
        negb (bool_decide (is_Some (in_desired intent !! p)))
     then override_reason o p else None) ∧
  (p ∈ in_forced_bbm_pairs intent ↔ is_Some (in_down_reasons intent !! p)).
Proof.
  cbn zeta. unfold build_dispatch_intent. cbn [in_desired in_down_reasons in_forced_bbm_pairs].
  split_and!.
  - unfold effective_desired_links. destruct (overridden (au_overrides st) p) eqn:E.
    + apply map_lookup_filter_None. right. intros x _. simpl. by rewrite E.
    + destruct (desired_links (au_view st) !! p) as [x|] eqn:Ex.
      * by apply map_lookup_filter_Some.
      * apply map_lookup_filter_None. by left.
  - rewrite map_lookup_imap. destruct (decide (p ∈ (dom (desired_links (au_view st)) ∪ actual)
      ∖ dom (effective_desired_links st))) as [Hp|Hp].
    + rewrite lookup_gset_to_gmap, option_guard_True by done. simpl.
      apply elem_of_difference in Hp as [Hp1 Hp2]. rewrite elem_of_union, elem_of_dom in Hp1.
      rewrite elem_of_dom in Hp2. by rewrite bool_decide_true, bool_decide_false.
    + rewrite lookup_gset_to_gmap, option_guard_False by done. simpl.
      rewrite elem_of_difference, elem_of_union, !elem_of_dom in Hp.
      case_bool_decide; [|done]. case_bool_decide; [done|]. exfalso. tauto.
  - apply elem_of_dom.
Qed.
