(* ===== verification/AuthorityScenario.v ===== *)
(** * A seek, evaluated

    The snapshot of [TickScenario] as the Scheduler receives it: read entry by
    entry, applied to a fresh state, and buffered through a seek until the clock
    tick that resumes dispatch. *)

From S2P Require Import Prelude.
From S2P Require Import PyFloat.
From S2P Require Import PyData.
From S2P Require Import PyTime.
From S2P Require Import GroundPolicy.
From S2P Require Import GroundTypes.
From S2P Require Import GroundScenario.
From S2P Require Import EventDiff.
From S2P Require Import Snapshot.
From S2P Require Import SnapshotTheorems.
From S2P Require Import TickScenario.
From S2P Require Import EpochSync.
From S2P Require Import DesiredState.
From S2P Require Import Authority.
From S2P Require Import AuthorityTheorems.
From stdpp Require Import base list strings gmap.
Local Open Scope Z_scope.

(** The Scheduler of the same session: the link between [s1] and [s2] is a
    long-delay one. *)
Definition session_cfg : SchedulerConfig :=
  {| cfg_interface_map := interface_map snap_args; cfg_gs_capacities := {["gs-A" := 2]};
     cfg_sat_capacities := {["s1" := 1; "s2" := 1; "sat-old" := 1; "sat-new" := 1]};
     cfg_long_delay_pairs := {[("s1", "s2")]} |}.

Lemma session_wiring : same_wiring session_cfg snap_args.
Proof. split; [reflexivity|evaluated]. Qed.

Lemma session_geometry : geometry_ok snap_source.
Proof.
  assert (map_Forall (λ (_ : node_pair) r, flt r f_0 = false) (ranges_km snap_source)) as Hr by evaluated.
  assert (map_Forall (λ (_ : node_pair) (v : float * float), flt v.1 f_0 = false ∧ flt v.2 f_0 = false)
    (latencies_ms snap_source)) as Hl by evaluated.
  split; [intros p r; apply Hr|]. intros p x y H. exact (Hl p (x, y) H).
Qed.

(** The long-delay entry keeps its interfaces and its class. *)
Definition long_delay_entry_ok : bool :=
  match snap_links !! 0%nat with
  | Some l => match desired_link_from_snapshot_link session_cfg l 7 1 0 with
              | Ok (Some (p, info)) => bool_decide (p = ("s1", "s2"))
              | _ => false
              end
  | None => false
  end.

Lemma desired_link_faithful_witness :
  ∃ l info, snap_links !! 0%nat = Some l ∧
    desired_link_from_snapshot_link session_cfg l 7 1 0 = Ok (Some (("s1", "s2"), info)) ∧
    interface_a info = ls_interface_a l ∧ range_km info = ls_range_km l ∧ long_delay info = true.
Proof.
  assert (long_delay_entry_ok = true) as Hok by evaluated. unfold long_delay_entry_ok in Hok.
  destruct (snap_links !! 0%nat) as [l|] eqn:E; [|done]. destruct (snap_link 0 l E) as (snap & Hs & Hl).
  assert ((sn_sim_time snap, sn_snapshot_seq snap, sn_epoch_id snap) = (7, 1, 0)) as Hid
    by (clear -Hs; vm_compute in Hs; by injection Hs as <-).
  injection Hid as Ht Hn He.
  assert (bool_decide (is_none (ls_contact_opened_at l) = false ↔
    link_pair l ∈ cfg_long_delay_pairs session_cfg) = true) as Hc%bool_decide_eq_true
    by (clear -E; vm_compute in E; injection E as <-; by vm_compute).
  pose proof (desired_link_faithful session_cfg snap_source snap_args snap l Hs session_wiring
    session_geometry Hl (λ _, Hc)) as H. rewrite Ht, Hn, He in H.
  destruct (desired_link_from_snapshot_link session_cfg l 7 1 0) as [[[p info]|]|] eqn:Ed; [|done..].
  apply bool_decide_eq_true in Hok as ->. destruct H as (_ & _ & Ha & _ & Hr & _ & _ & Hld).
  exists l, info. split_and!; [exact eq_refl|exact Ed|exact Ha|exact Hr|].
  rewrite Hld. apply bool_decide_eq_true. evaluated.
Defined.

(** ** The snapshot applied, and a seek *)

(** What OME publishes in epoch [e]. *)
Definition published (seq e : Z) : LinkStateSnapshot :=
  {| sn_sim_time := 7; sn_snapshot_seq := seq; sn_links := snap_links; sn_interval_s := f_1;
     sn_epoch_id := e |}.

Lemma published_unique seq e : unique_pairs (published seq e).
Proof. unfold unique_pairs, published. cbn [sn_links]. evaluated. Qed.

Definition deliver (st : Authority) (msg : Message) : Authority :=
  (handle session_cfg f_1 ∅ st msg).1.1.

Lemma deliver_all msgs st :
  au_reachable session_cfg f_1 st → Forall msg_ok msgs →
  au_reachable session_cfg f_1 (fold_left deliver msgs st).
Proof.
  intros Hst Hm. revert st Hst. induction Hm as [|msg msgs Hmsg _ IH]; intros st Hst; [done|].
  cbn [fold_left]. apply IH. unfold deliver.
  destruct (handle session_cfg f_1 ∅ st msg) as [[st' out] e] eqn:E.
  exact (au_message _ _ st ∅ msg st' out e Hst Hmsg E).
Qed.

Definition three_up : gset node_pair := {[("s1", "s2"); ("gs-A", "sat-old"); ("gs-A", "sat-new")]}.

Definition applied_view : View * Marks * result bool :=
  build_desired_from_snapshot session_cfg empty_view (au_marks initial_authority) (published 1 0).
Definition applied_true : bool :=
  match applied_view with (_, _, Ok b) => b | _ => false end.

Lemma snapshot_replaces_desired_witness :
  ∃ v m, applied_view = (v, m, Ok true) ∧ last_snapshot_seq m = 1 ∧
    ome_view v !! ("gs-A", "sat-old") = Some (true, true, teardown).
Proof.
  assert (applied_true = true) as Hok by evaluated.
  assert (last_snapshot_seq applied_view.1.2 = 1) as Hseq by evaluated. unfold applied_true in Hok.
  destruct applied_view as [[v m] [[]|]] eqn:E; [|done..].
  destruct (snapshot_replaces_desired session_cfg empty_view (au_marks initial_authority) (published 1 0)
    v m true (published_unique 1 0) E) as (_ & _ & Hv).
  exists v, m. split; [exact eq_refl|]. split; [exact Hseq|]. rewrite Hv. evaluated.
Defined.

(** A session that starts, is seeked to epoch 1 and publishes its first snapshot
    there. *)
Definition seek_msgs : list Message :=
  [MsgSnapshot (published 1 0); MsgClockTick (Some 0) (Some 7); MsgPlayback phase_seeking 1;
   MsgEphemeris 1; MsgSnapshot (published 2 1); MsgPlayback phase_playing 1].
Definition started : Authority := fold_left deliver [MsgSnapshot (published 1 0)] initial_authority.
Definition seeking : Authority := fold_left deliver seek_msgs initial_authority.

Lemma started_reachable : au_reachable session_cfg f_1 started.
Proof. apply deliver_all; [constructor|]. apply Forall_singleton, published_unique. Qed.

Lemma seeking_reachable : au_reachable session_cfg f_1 seeking.
Proof.
  apply deliver_all; [constructor|].
  repeat (apply Forall_cons_2; [first [exact I|apply published_unique]|]). apply Forall_nil_2.
Qed.

Lemma authority_subset_always_witness :
  dom (desired_links (au_view started)) = three_up ∧ authority_subset_violation (au_view started) = ∅.
Proof.
  split; [evaluated|]. exact (proj1 (authority_subset_always session_cfg f_1 started started_reachable)).
Defined.

(** The tick of the new epoch queues one intent, from its snapshot. *)
Definition resume_tick : Message := MsgClockTick (Some 1) (Some 8).
Definition resume_contacts : bool :=
  match (handle session_cfg f_1 ∅ seeking resume_tick).1.2 with
  | [intent] => bool_decide (dom (in_desired intent) = three_up)
  | _ => false
  end.

Lemma suspended_queues_only_resume_witness :
  ∃ intent, (handle session_cfg f_1 ∅ seeking resume_tick).1.2 = [intent] ∧
    dom (in_desired intent) = three_up ∧ in_source intent = src_resume ∧
    ∀ info c, in_desired intent !! ("s1", "s2") = Some info → contact info = Some c → ct_epoch_id c = 1.
Proof.
  assert (suspended (au_sync seeking) = true) as Hs by evaluated.
  assert (expected_epoch_id (au_sync seeking) = 1) as He by evaluated.
  assert (resume_contacts = true) as Hok by evaluated. unfold resume_contacts in Hok.
  destruct (handle session_cfg f_1 ∅ seeking resume_tick) as [[st' out] e] eqn:E.
  pose proof (suspended_queues_only_resume session_cfg f_1 seeking ∅ resume_tick st' out e
    seeking_reachable Hs E) as H. cbn [fst snd] in *. clear E.
  destruct H as [H|(t & intent & _ & H & Hsrc & _ & Hc)]; rewrite H in *; [discriminate Hok|].
  apply bool_decide_eq_true in Hok. exists intent. rewrite He in Hc.
  split_and!; [exact eq_refl|exact Hok|exact Hsrc|]. intros info c. apply Hc.
Defined.
