(* ===== verification/Actuation.v ===== *)
(** * Actuation results

    What the Scheduler concludes from the Node Agents' answers:
    [services/scheduler/actuation.py] (the classification of one answer, the
    result of one batch), the chunk merge of
    [services/scheduler/dispatch_actuator.py], and what the [Dispatcher] does
    with a batch's failures ([_handle_actuation_result]).

    The answers are the environment's: an [AgentReply] is what came back for one
    chunk, a reply message or a transport exception.  The [details] dictionaries
    (text for operators) are not modelled. *)

From S2P Require Import Prelude.
From S2P Require Import PyFloat.
From S2P Require Import PyData.
From S2P Require Import GroundTypes.
From S2P Require Import EventDiff.
From stdpp Require Import base list strings gmap pretty.
Local Open Scope Z_scope.

(** ** Node Agent replies *)

Inductive ActuationFailureClass :=
| fc_none | fc_authority_invariant | fc_fence | fc_ground_clean_failure | fc_ground_kernel_dirty
| fc_ground_unknown | fc_agent_unreachable | fc_isl_failure.

#[global] Instance failure_class_eq_dec : EqDecision ActuationFailureClass.
Proof. solve_decision. Defined.

Inductive ActuationState := st_clean | st_actuation_blocked | st_kernel_dirty | st_unknown.

#[global] Instance actuation_state_eq_dec : EqDecision ActuationState.
Proof. solve_decision. Defined.

(** The [NodeAgentErrorCode]s the classification reads. *)
Definition NODE_AGENT_OK : Z := 1.
Definition NODE_AGENT_INVALID_ENVELOPE : Z := 5.
Definition NODE_AGENT_STALE_SESSION : Z := 6.
Definition NODE_AGENT_STALE_GENERATION : Z := 7.
Definition NODE_AGENT_STALE_WRITER : Z := 19.
Definition FENCE_CODES : list Z :=
  [NODE_AGENT_STALE_SESSION; NODE_AGENT_STALE_GENERATION; NODE_AGENT_INVALID_ENVELOPE;
   NODE_AGENT_STALE_WRITER].

Record EndLossCounts := {
  lc_admission_taken : Z;
  lc_queue_dropped : Z;
  lc_discarded_at_close : Z;
  lc_discarded_exact : bool;
  lc_untransmitted_at_stop : Z;
  lc_transmit_dropped : Z;
}.

Record EndSurvey := {
  sv_carried_contact_id : string;
  sv_admission_stopped : bool;
  sv_receive_latency_ms : float;
  sv_carried_peer : string;
}.

(** An interface: (node id, interface name); an acknowledgement names the agent
    too. *)
Abbreviation Iface := (string * string)%type.
Abbreviation InterfaceAck := (string * Iface)%type.

Record Entry := {
  en_iface : Iface;
  en_success : bool;
  en_error_code : Z;
  en_verified : bool;
  en_dirty_kernel : bool;
  en_loss : option EndLossCounts;
  en_survey : option EndSurvey;
}.

Record AgentResponse := {
  rs_success : bool;
  rs_error_code : Z;
  rs_dirty_kernel : bool;
  rs_entries : list Entry;
}.

Inductive AgentReply := Answered (r : AgentResponse) | Unreachable.

(** ** Classification *)

Record AgentCommandResult := {
  ar_agent_addr : string;
  ar_requested : list Iface;
  ar_success_acks : gset InterfaceAck;
  ar_failure_class : ActuationFailureClass;
  ar_dirty_kernel : bool;
  ar_unknown_outcome : bool;
  ar_fence_failure : bool;
  ar_writer_fenced : bool;
  ar_end_losses : gmap Iface EndLossCounts;
  ar_surveys : gmap Iface EndSurvey;
}.

(** An entry whose effect the agent verified in the kernel. *)
Definition proven (e : Entry) : bool := en_success e && en_verified e && negb (en_dirty_kernel e).

(** A dictionary comprehension over the entries: the last one of a key stands. *)
Definition collect {A} (f : Entry → option A) (entries : list Entry) : gmap Iface A :=
  fold_left (λ m e, match f e with Some a => <[en_iface e := a]> m | None => m end) entries ∅.

Definition reported {A} (f : Entry → option A) (e : Entry) : option A :=
  if en_success e && en_verified e then f e else None.

Definition iface_lt : Iface → Iface → bool := pair_lt str_lt str_lt.

(** [classify_agent_response]. *)
Definition classify_agent_response (r : AgentResponse) (requested : list Iface) (addr : string) :
    AgentCommandResult :=
  let entries := rs_entries r in
  let requested_set : gset Iface := list_to_set requested in
  let returned_set : gset Iface := list_to_set (map en_iface entries) in
  let codes := rs_error_code r :: map en_error_code entries in
  let fence := existsb (λ c, bool_decide (c ∈ FENCE_CODES)) codes in
  let writer_fenced := bool_decide (NODE_AGENT_STALE_WRITER ∈ codes) in
  let dirty := rs_dirty_kernel r || existsb en_dirty_kernel entries in
  let all_success := forallb en_success entries in
  let shape_ok := bool_decide (requested_set = returned_set) && Bool.eqb (rs_success r) all_success in
  let unverified := existsb (λ e, en_success e && negb (en_verified e)) entries in
  let '(failure_class, unknown, dirty) :=
    if fence then (fc_fence, false, dirty)
    else if dirty || unverified then (fc_ground_kernel_dirty, false, true)
    else if negb shape_ok then (fc_ground_unknown, true, true)
    else if rs_success r then (fc_none, false, dirty)
    else (fc_ground_clean_failure, false, dirty) in
  {| ar_agent_addr := addr; ar_requested := sorted_set iface_lt requested_set;
     ar_success_acks := list_to_set (map (λ e, (addr, en_iface e)) (List.filter proven entries));
     ar_failure_class := failure_class; ar_dirty_kernel := dirty; ar_unknown_outcome := unknown;
     ar_fence_failure := fence; ar_writer_fenced := writer_fenced;
     ar_end_losses := collect (reported en_loss) entries;
     ar_surveys := collect (reported en_survey) entries |}.

(** [classify_agent_exception]. *)
Definition classify_agent_exception (requested : list Iface) (addr : string) : AgentCommandResult :=
  {| ar_agent_addr := addr; ar_requested := sorted_set iface_lt (list_to_set requested);
     ar_success_acks := ∅; ar_failure_class := fc_agent_unreachable; ar_dirty_kernel := true;
     ar_unknown_outcome := true; ar_fence_failure := false; ar_writer_fenced := false;
     ar_end_losses := ∅; ar_surveys := ∅ |}.

Definition classify (reply : AgentReply) (requested : list Iface) (addr : string) :
    AgentCommandResult :=
  match reply with
  | Answered r => classify_agent_response r requested addr
  | Unreachable => classify_agent_exception requested addr
  end.

(** ** Chunks *)

Definition MAX_NODE_AGENT_INTERFACES_PER_COMMAND : nat := 64.

(** [_chunks]: consecutive runs of at most [size] items; [fuel] bounds the
    number of chunks by the number of items. *)
Fixpoint chunks_from {A} (fuel size : nat) (items : list A) : list (list A) :=
  match fuel, items with
  | O, _ | _, [] => []
  | S fuel, _ => take size items :: chunks_from fuel size (drop size items)
  end.
Definition chunks {A} (size : nat) (items : list A) : list (list A) :=
  chunks_from (length items) size items.

Definition merge_precedence : list ActuationFailureClass :=
  [fc_fence; fc_ground_kernel_dirty; fc_ground_unknown; fc_agent_unreachable;
   fc_ground_clean_failure; fc_isl_failure].

(** [_merge_agent_results]; the merged result carries neither losses nor
    surveys. *)
Definition merge_agent_results (addr : string) (results : list AgentCommandResult) :
    result AgentCommandResult :=
  match results with
  | [] => Ok {| ar_agent_addr := addr; ar_requested := []; ar_success_acks := ∅;
                ar_failure_class := fc_none; ar_dirty_kernel := false; ar_unknown_outcome := false;
                ar_fence_failure := false; ar_writer_fenced := false; ar_end_losses := ∅;
                ar_surveys := ∅ |}
  | [r] => Ok r
  | _ =>
      let classes := map ar_failure_class results in
      let failure_class := default fc_none
        (find_first (λ c, bool_decide (c ∈ classes)) merge_precedence) in
      raise_if existsb (λ c, negb (bool_decide (c = fc_none)) &&
                             negb (bool_decide (c ∈ merge_precedence))) classes
        with RuntimeError "_merge_agent_results cannot merge failure classes" ;;
      Ok {| ar_agent_addr := addr; ar_requested := concat (map ar_requested results);
            ar_success_acks := ⋃ (map ar_success_acks results);
            ar_failure_class := failure_class;
            ar_dirty_kernel := existsb ar_dirty_kernel results;
            ar_unknown_outcome := existsb ar_unknown_outcome results;
            ar_fence_failure := existsb ar_fence_failure results;
            ar_writer_fenced := existsb ar_writer_fenced results;
            ar_end_losses := ∅; ar_surveys := ∅ |}
  end.

(** [_send_chunked_command]: [reply] is what came back for each chunk. *)
Definition send_chunked_command (addr : string) (items : list Iface)
    (reply : nat → list Iface → AgentReply) : result AgentCommandResult :=
  merge_agent_results addr
    (imap (λ i chunk, classify (reply i chunk) chunk addr)
       (chunks MAX_NODE_AGENT_INTERFACES_PER_COMMAND items)).

(** ** The result of a batch *)

Record PairActuationResult := {
  pr_link_type : option LinkType;
  pr_gs_id : option string;
  pr_expected_ifaces : gset InterfaceAck;
  pr_successful_ifaces : gset InterfaceAck;
  pr_failure_class : ActuationFailureClass;
}.

(** The [success] property. *)
Definition pr_success (r : PairActuationResult) : bool :=
  negb (bool_decide (pr_expected_ifaces r = ∅)) &&
  bool_decide (pr_expected_ifaces r ⊆ pr_successful_ifaces r).

Record ActuationResult := {
  requested_pairs : gset node_pair;
  succeeded_pairs : gset node_pair;
  failed_pairs : gset node_pair;
  pair_results : gmap node_pair PairActuationResult;
  agent_results : list AgentCommandResult;
}.

(** [_pair_failure_class]. *)
Definition pair_failure_class (results : list AgentCommandResult) (type : option LinkType) :
    ActuationFailureClass :=
  let has c := bool_decide (c ∈ map ar_failure_class results) in
  let is_isl := bool_decide (type = Some isl_link) in
  if has fc_fence then fc_fence
  else if is_isl && existsb (λ r, negb (bool_decide (ar_failure_class r = fc_none))) results
  then fc_isl_failure
  else if bool_decide (length results = 0%nat)
  then (if is_isl then fc_isl_failure else fc_ground_unknown)
  else if has fc_ground_kernel_dirty then fc_ground_kernel_dirty
  else if has fc_ground_unknown then fc_ground_unknown
  else if has fc_ground_clean_failure then fc_ground_clean_failure
  else fc_none.

(** The agents a pair's outcome depends on. *)
Definition involved (expected : gset InterfaceAck) (r : AgentCommandResult) : bool :=
  bool_decide (ar_success_acks r ∩ expected ≠ ∅) ||
  existsb (λ i, bool_decide ((ar_agent_addr r, i) ∈ expected)) (ar_requested r).

Section Batch.
Context (pair_agent_ifaces : gmap node_pair (gset InterfaceAck))
        (pair_link_type : gmap node_pair LinkType) (pair_gs_id : gmap node_pair string)
        (results : list AgentCommandResult).

Definition pair_result (p : node_pair) : PairActuationResult :=
  let expected := default ∅ (pair_agent_ifaces !! p) in
  {| pr_link_type := pair_link_type !! p; pr_gs_id := pair_gs_id !! p;
     pr_expected_ifaces := expected;
     pr_successful_ifaces := (⋃ (map ar_success_acks results)) ∩ expected;
     pr_failure_class :=
       pair_failure_class (List.filter (involved expected) results) (pair_link_type !! p) |}.

(** [build_actuation_result]. *)
Definition build_actuation_result (requested : gset node_pair) : ActuationResult :=
  {| requested_pairs := requested;
     succeeded_pairs := filter (λ p, pr_success (pair_result p) = true) requested;
     failed_pairs := filter (λ p, pr_success (pair_result p) = false) requested;
     pair_results := set_to_map (λ p, (p, pair_result p)) requested;
     agent_results := results |}.
End Batch.

(** ** What the Dispatcher does with failures *)

(** The properties of [ActuationResult] the [Dispatcher] reads. *)
Definition fence_failure (r : ActuationResult) : bool := existsb ar_fence_failure (agent_results r).
Definition writer_fenced (r : ActuationResult) : bool := existsb ar_writer_fenced (agent_results r).
Definition failing (r : AgentCommandResult) : bool :=
  negb (bool_decide (ar_failure_class r = fc_none)).
Definition has_failures (r : ActuationResult) : bool :=
  negb (bool_decide (failed_pairs r = ∅)) || existsb failing (agent_results r).
Definition transport_only_failure (r : ActuationResult) : bool :=
  let failures := List.filter failing (agent_results r) in
  has_failures r && negb (bool_decide (length failures = 0%nat)) &&
  forallb (λ a, bool_decide (ar_failure_class a = fc_agent_unreachable)) failures.

(** The failed pairs no per-station degradation can absorb. *)
Definition fatal_pairs (r : ActuationResult) : gset node_pair :=
  filter (λ p, match pair_results r !! p with
               | Some pr => bool_decide (pr_failure_class pr ∈ [fc_fence; fc_isl_failure]) ||
                            negb (bool_decide (pr_link_type pr = Some ground_link))
               | None => false
               end = true) (failed_pairs r).

(** A failed ground pair's station. *)
Definition failed_station (r : ActuationResult) (p : node_pair) : option string :=
  pr ← pair_results r !! p;
  if bool_decide (pr_link_type pr = Some ground_link) then pr_gs_id pr else None.

Definition failed_at (r : ActuationResult) (gs_id : string) : gset node_pair :=
  filter (λ p, failed_station r p = Some gs_id) (failed_pairs r).

(** The state and class a station with these failed pairs gets. *)
Definition station_failure (r : ActuationResult) (pairs : gset node_pair) :
    ActuationState * ActuationFailureClass :=
  let dirty p := match pair_results r !! p with
                 | Some pr => bool_decide (pr_failure_class pr ∈ [fc_ground_kernel_dirty; fc_ground_unknown])
                 | None => false end in
  if existsb dirty (elements pairs) then (st_kernel_dirty, fc_ground_kernel_dirty)
  else (st_actuation_blocked, fc_ground_clean_failure).

(** How [_handle_actuation_result] ends: it stops the dispatcher (as a fenced
    writer, or after asking the lifecycle authority) by an exception, or moves
    the stations with failed pairs out of clean. *)
Inductive Verdict :=
| VerdictStop (fenced : bool)
| VerdictContinue (nonclean : gmap string (ActuationState * ActuationFailureClass)).

Definition handle_actuation_result (r : ActuationResult) : Verdict :=
  if negb (has_failures r) then VerdictContinue ∅
  else if writer_fenced r then VerdictStop true
  else if fence_failure r || negb (bool_decide (fatal_pairs r = ∅)) then VerdictStop false
  else
    let stations : gset string := list_to_set (omap (failed_station r) (elements (failed_pairs r))) in
    VerdictContinue (set_to_map (λ gs_id, (gs_id, station_failure r (failed_at r gs_id))) stations).

(** ** Chunks and their merge *)

Lemma chunks_from_concat {A} fuel size (items : list A) :
  (0 < size)%nat → (length items ≤ fuel)%nat → concat (chunks_from fuel size items) = items.
Proof.
  intros Hs. revert items. induction fuel as [|fuel IH]; intros items Hf.
  - by destruct items; simpl in *; [|lia].
  - destruct items as [|x items]; [done|]. cbn [chunks_from concat].
    rewrite IH; [apply take_drop|]. rewrite length_drop. simpl in *. lia.
Qed.

Lemma chunks_from_size {A} fuel size (items c : list A) :
  c ∈ chunks_from fuel size items → (length c ≤ size)%nat.
Proof.
  revert items. induction fuel as [|fuel IH]; intros items; [by inversion 1|].
  destruct items as [|x items]; [by inversion 1|]. cbn [chunks_from].
  intros [->|Hc]%elem_of_cons; [|by eapply IH]. rewrite length_take. lia.
Qed.

Lemma classify_class reply requested addr :
  ar_failure_class (classify reply requested addr) ∈ fc_none :: merge_precedence.
Proof.
  destruct reply as [r|]; simpl; [|set_solver].
  unfold classify_agent_response. cbn zeta.
  repeat (case_match; simplify_eq; simpl); set_solver.
Qed.

Section Chunked.
Context (addr : string) (items : list Iface) (reply : nat → list Iface → AgentReply).

Definition chunk_results : list AgentCommandResult :=
  imap (λ i chunk, classify (reply i chunk) chunk addr)
    (chunks MAX_NODE_AGENT_INTERFACES_PER_COMMAND items).

Lemma chunk_classes : Forall (λ r, ar_failure_class r ∈ fc_none :: merge_precedence) chunk_results.
Proof.
  apply Forall_forall. intros r (i & c & -> & _)%elem_of_lookup_imap_1. apply classify_class.
Qed.

(** The merge of results the classifiers produce raises nothing and reports
    the worst of them. *)
Lemma merge_class results :
  Forall (λ r, ar_failure_class r ∈ fc_none :: merge_precedence) results →
  ∃ r, merge_agent_results addr results = Ok r ∧
    (ar_failure_class r = fc_none ↔ Forall (λ r, ar_failure_class r = fc_none) results) ∧
    (∀ a, a ∈ ar_success_acks r ↔ ∃ r', r' ∈ results ∧ a ∈ ar_success_acks r').
Proof.
  intros Hc. destruct results as [|r1 [|r2 rest]].
  - eexists. split; [done|]. simpl. split; [done|]. set_solver.
  - exists r1. split; [done|]. rewrite Forall_singleton. split; [done|]. set_solver.
  - set (rs := r1 :: r2 :: rest) in *. unfold merge_agent_results. fold rs.
    change (match rs with [] => _ | [r] => _ | _ => ?k end) with k.
    assert (existsb (λ c, negb (bool_decide (c = fc_none)) && negb (bool_decide (c ∈ merge_precedence)))
      (map ar_failure_class rs) = false) as ->.
    { apply not_true_iff_false. rewrite existsb_exists. intros (c & Hin & E).
        apply list_elem_of_In, list_elem_of_fmap in Hin as (r & -> & Hr).
        apply andb_true_iff in E as [E1%negb_true_iff%bool_decide_eq_false
          E2%negb_true_iff%bool_decide_eq_false].
        rewrite Forall_forall in Hc. specialize (Hc r Hr). apply elem_of_cons in Hc. tauto. }
    clearbody rs. eexists. split; [reflexivity|]. cbn [ar_failure_class ar_success_acks]. split.
    + destruct (find_first (λ c, bool_decide (c ∈ map ar_failure_class rs)) merge_precedence)
        as [c|] eqn:E; simpl.
      * apply find_first_Some in E as [Hp Hm%bool_decide_eq_true].
        apply list_elem_of_fmap in Hm as (r & -> & Hr).
        split; [intros E; rewrite E in Hp; set_solver|].
        intros HF. rewrite Forall_forall in HF. by apply HF.
      * split; [intros _|done]. apply Forall_forall. intros r Hr.
        rewrite Forall_forall in Hc. specialize (Hc r Hr).
        apply elem_of_cons in Hc as [|Hp]; [done|exfalso].
        rewrite find_first_None in E. specialize (E _ Hp). apply bool_decide_eq_false in E.
        apply E, list_elem_of_fmap. eauto.
    + intros a. rewrite elem_of_union_list. setoid_rewrite list_elem_of_fmap. naive_solver.
Qed.
End Chunked.

(** a command of any size to one agent is sent in runs of at most 64
    interfaces that together are the command, and the merged answer hides
    nothing: it raises no error, it is a success exactly when every run was
    classified a success, and it acknowledges exactly what some run did. *)
Theorem chunked_command_exact addr items reply :
  concat (chunks MAX_NODE_AGENT_INTERFACES_PER_COMMAND items) = items ∧
  Forall (λ c, (length c ≤ MAX_NODE_AGENT_INTERFACES_PER_COMMAND)%nat)
    (chunks MAX_NODE_AGENT_INTERFACES_PER_COMMAND items) ∧
  ∃ r, send_chunked_command addr items reply = Ok r ∧
    (ar_failure_class r = fc_none ↔
       Forall (λ c, ar_failure_class c = fc_none) (chunk_results addr items reply)) ∧
    (∀ a, a ∈ ar_success_acks r ↔
       ∃ c, c ∈ chunk_results addr items reply ∧ a ∈ ar_success_acks c).
Proof.
  split_and!.
  - by apply chunks_from_concat; [unfold MAX_NODE_AGENT_INTERFACES_PER_COMMAND; lia|].
  - apply Forall_forall. intros c. apply chunks_from_size.
  - apply merge_class, chunk_classes.
Qed.

(** ** What a success proves *)

(** The commands of a batch: an agent, the interfaces it is asked for, and what
    it answers to each run of them. *)
Record Call := {
  cl_addr : string;
  cl_items : list Iface;
  cl_reply : nat → list Iface → AgentReply;
}.

Definition send_call (c : Call) : result AgentCommandResult :=
  send_chunked_command (cl_addr c) (cl_items c) (cl_reply c).

(** The agent of [c] answered that it changed the interface and verified the
    kernel. *)
Definition kernel_proof (c : Call) (i : Iface) : Prop :=
  ∃ n run r e,
    chunks MAX_NODE_AGENT_INTERFACES_PER_COMMAND (cl_items c) !! n = Some run ∧
    cl_reply c n run = Answered r ∧ e ∈ rs_entries r ∧ en_iface e = i ∧
    en_success e = true ∧ en_verified e = true ∧ en_dirty_kernel e = false.

Lemma classify_acks reply requested addr a :
  a ∈ ar_success_acks (classify reply requested addr) →
  ∃ r e, reply = Answered r ∧ e ∈ rs_entries r ∧ a = (addr, en_iface e) ∧
    en_success e = true ∧ en_verified e = true ∧ en_dirty_kernel e = false.
Proof.
  destruct reply as [r|]; simpl; [|set_solver]. unfold classify_agent_response. cbn zeta.
  intros Ha. assert (a ∈ (list_to_set (map (λ e, (addr, en_iface e))
    (List.filter proven (rs_entries r))) : gset InterfaceAck)) as H.
  { by repeat case_match. }
  apply elem_of_list_to_set, list_elem_of_fmap in H as (e & -> & He).
  apply in_filter_bool in He as [He [[Hs Hv]%andb_true_iff Hd%negb_true_iff]%andb_true_iff].
  by exists r, e.
Qed.

Lemma call_acks c r a :
  send_call c = Ok r → a ∈ ar_success_acks r → a.1 = cl_addr c ∧ kernel_proof c a.2.
Proof.
  unfold send_call, send_chunked_command. fold (chunk_results (cl_addr c) (cl_items c) (cl_reply c)).
  destruct (merge_class (cl_addr c) _ (chunk_classes (cl_addr c) (cl_items c) (cl_reply c)))
    as (r' & -> & _ & Hacks). intros [= ->] Ha. apply Hacks in Ha as (x & Hx & Ha).
  apply elem_of_lookup_imap_1 in Hx as (n & run & -> & Hrun).
  apply classify_acks in Ha as (resp & e & Hr & He & -> & Hp). split; [done|].
  exists n, run, resp, e. tauto.
Qed.

(** A succeeded pair had something to acknowledge, and a result acknowledged each
    of its interfaces. *)
Lemma succeeded_acks ifaces types stations results requested p :
  p ∈ succeeded_pairs (build_actuation_result ifaces types stations results requested) →
  p ∈ requested ∧ default ∅ (ifaces !! p) ≠ ∅ ∧
  ∀ ack, ack ∈ default ∅ (ifaces !! p) → ∃ a, a ∈ results ∧ ack ∈ ar_success_acks a.
Proof.
  simpl. rewrite elem_of_filter. intros [Hs Hp]. unfold pr_success, pair_result in Hs.
  cbn [pr_expected_ifaces pr_successful_ifaces] in Hs.
  apply andb_true_iff in Hs as [Hne%negb_true_iff%bool_decide_eq_false Hsub%bool_decide_eq_true].
  split; [done|]. split; [done|]. intros ack Hi. apply Hsub in Hi as [Hi _]%elem_of_intersection.
  apply elem_of_union_list in Hi as (X & HX & Hi). apply list_elem_of_fmap in HX as (a & -> & Ha). eauto.
Qed.

(** the Scheduler records a link change only on kernel proof: a batch's
    requested pairs are split into succeeded and failed ones, and a pair succeeds
    only if it expects at least one interface and, for every interface it
    expects at an agent, that agent answered success with the kernel verified
    and not dirty. *)
Theorem success_is_kernel_proof calls results ifaces types stations requested p :
  mapM_r send_call calls = Ok results →
  let r := build_actuation_result ifaces types stations results requested in
  (succeeded_pairs r ∪ failed_pairs r = requested ∧ succeeded_pairs r ## failed_pairs r) ∧
  (p ∈ succeeded_pairs r →
     default ∅ (ifaces !! p) ≠ ∅ ∧
     ∀ addr i, (addr, i) ∈ default ∅ (ifaces !! p) →
       ∃ c, c ∈ calls ∧ cl_addr c = addr ∧ kernel_proof c i).
Proof.
  intros Hm r. split; [split|].
  - apply set_eq. intros q. subst r. simpl. rewrite elem_of_union, !elem_of_filter.
    destruct (pr_success _); naive_solver.
  - intros q. subst r. simpl. rewrite !elem_of_filter. intros [E _] [E' _]. congruence.
  - intros Hp. apply succeeded_acks in Hp as (_ & Hne & Hacks). split; [done|]. intros addr i Hi.
    destruct (Hacks _ Hi) as (a & Ha & Hi').
    apply mapM_r_Forall2 in Hm. apply list_elem_of_lookup in Ha as [n Hn].
    destruct (Forall2_lookup_r _ _ _ _ _ Hm Hn) as (c & Hc & Hcall).
    destruct (call_acks _ _ _ Hcall Hi') as [Haddr Hproof]. exists c.
    split; [by eapply list_elem_of_lookup_2|done].
Qed.

(** A ground link brought up at its two agents. *)
Definition ok_reply (_ : nat) (run : list Iface) : AgentReply :=
  Answered {| rs_success := true; rs_error_code := NODE_AGENT_OK; rs_dirty_kernel := false;
              rs_entries := map (λ i, {| en_iface := i; en_success := true;
                en_error_code := NODE_AGENT_OK; en_verified := true; en_dirty_kernel := false;
                en_loss := None; en_survey := None |}) run |}.
Definition two_calls : list Call :=
  [{| cl_addr := "agent-1"; cl_items := [("gs-A", "term0")]; cl_reply := ok_reply |};
   {| cl_addr := "agent-2"; cl_items := [("sat-1", "gnd0")]; cl_reply := ok_reply |}].
Definition two_ifaces : gmap node_pair (gset InterfaceAck) :=
  {[("gs-A", "sat-1") := {[("agent-1", ("gs-A", "term0")); ("agent-2", ("sat-1", "gnd0"))]}]}.

Lemma success_is_kernel_proof_witness :
  ∃ c, c ∈ two_calls ∧ cl_addr c = "agent-2" ∧ kernel_proof c ("sat-1", "gnd0").
Proof.
  destruct (mapM_r send_call two_calls) as [results|e] eqn:E; [|by vm_compute in E].
  destruct (success_is_kernel_proof two_calls results two_ifaces {[("gs-A", "sat-1") := ground_link]}
    {[("gs-A", "sat-1") := "gs-A"]} {[("gs-A", "sat-1")]} ("gs-A", "sat-1") E) as [_ H].
  apply H; [|evaluated]. clear H.
  vm_compute in E. injection E as <-. evaluated.
Defined.

(** ** Two ways a failure is understated *)

Definition unreachable (expected : gset InterfaceAck) (r : AgentCommandResult) : Prop :=
  ∃ addr items, r = classify_agent_exception items addr ∧ involved expected r = true.

Section Unreachable.
Context (expected : gset InterfaceAck) (results : list AgentCommandResult).
Hypothesis (Hsome : results ≠ []) (Hall : Forall (unreachable expected) results).

Lemma unreachable_existsb f b :
  (∀ addr items, f (classify_agent_exception items addr) = b) → existsb f results = b.
Proof.
  intros Hf. destruct results as [|x rest]; [by destruct Hsome|].
  apply Forall_cons in Hall as [(addr & items & -> & _) Hrest]. simpl. rewrite Hf.
  destruct b; [done|]. simpl. clear -Hrest Hf.
  induction Hrest as [|? ? (addr & items & -> & _) _ IH]; simpl; [done|]. by rewrite Hf.
Qed.

Lemma unreachable_filter : List.filter (involved expected) results = results.
Proof.
  clear Hsome. revert Hall. generalize results as rs.
  induction 1 as [|x rest (addr & items & -> & Hi) _ IH]; cbn [List.filter]; [done|].
  rewrite Hi. by f_equal.
Qed.

Lemma unreachable_class c : c ≠ fc_agent_unreachable → c ∉ map ar_failure_class results.
Proof.
  intros Hc (x & -> & Hx)%list_elem_of_fmap. rewrite Forall_forall in Hall.
  by destruct (Hall x Hx) as (addr & items & -> & _).
Qed.

Lemma unreachable_pair_class : pair_failure_class results (Some ground_link) = fc_none.
Proof.
  unfold pair_failure_class. rewrite !(bool_decide_eq_false_2 (_ ∈ map _ _))
    by (by apply unreachable_class). simpl.
  destruct results; [by destruct Hsome|]. done.
Qed.

Lemma unreachable_acks : ⋃ (map ar_success_acks results) = ∅.
Proof.
  clear Hsome. revert Hall. generalize results as rs.
  induction 1 as [|x rest (addr & items & -> & _) _ IH]; simpl; [done|]. rewrite IH. set_solver.
Qed.
End Unreachable.

(** a ground link whose agents could not be reached is handled as a clean
    failure: the agents' results say the kernel may be dirty and the outcome is
    unknown, yet the station is only blocked, with the class of a failure that
    mutated nothing. *)
Theorem unreachable_ground_is_clean p gs expected results :
  expected ≠ ∅ → results ≠ [] → Forall (unreachable expected) results →
  let r := build_actuation_result {[p := expected]} {[p := ground_link]} {[p := gs]} results {[p]} in
  existsb ar_dirty_kernel (agent_results r) = true ∧
  existsb ar_unknown_outcome (agent_results r) = true ∧
  handle_actuation_result r =
    VerdictContinue {[gs := (st_actuation_blocked, fc_ground_clean_failure)]}.
Proof.
  intros He Hn HF r. pose proof (unreachable_existsb _ _ Hn HF) as Hex.
  set (pr := pair_result {[p := expected]} {[p := ground_link]} {[p := gs]} results p).
  assert (Hpr : pr = {| pr_link_type := Some ground_link; pr_gs_id := Some gs;
    pr_expected_ifaces := expected; pr_successful_ifaces := ∅; pr_failure_class := fc_none |}).
  { unfold pr, pair_result. rewrite !lookup_singleton_eq. simpl. rewrite unreachable_filter by done.
    rewrite (unreachable_acks expected), (unreachable_pair_class expected) by done.
    f_equal. set_solver. }
  assert (Hsucc : pr_success pr = false).
  { rewrite Hpr. unfold pr_success. simpl. rewrite (bool_decide_eq_false_2 (expected ⊆ ∅)) by set_solver.
    apply andb_false_r. }
  assert (Hfail : failed_pairs r = {[p]}).
  { unfold r. simpl. apply set_eq. intros q. rewrite elem_of_filter, elem_of_singleton.
    split; [by intros [_ ?]|]. intros ->. by fold pr. }
  assert (Hres : pair_results r !! p = Some pr).
  { unfold r. simpl. apply lookup_set_to_map; [by intros ? ? _ _|]. exists p. set_solver. }
  assert (Hagents : agent_results r = results) by done. clearbody r pr. rewrite Hagents.
  split; [by apply Hex|]. split; [by apply Hex|].
  unfold handle_actuation_result, has_failures, writer_fenced, fence_failure.
  rewrite Hfail, Hagents. rewrite (bool_decide_eq_false_2 ({[p]} = ∅)) by set_solver. simpl.
  rewrite !(Hex _ false) by done.
  rewrite (bool_decide_eq_true_2 (fatal_pairs r = ∅)).
  2:{ unfold fatal_pairs. rewrite Hfail. apply set_eq. intros q.
      rewrite elem_of_filter, elem_of_singleton. split; [|set_solver].
      intros [E ->]. rewrite Hres, Hpr in E. done. }
  assert (Hst : failed_station r p = Some gs) by (unfold failed_station; by rewrite Hres, Hpr).
  assert (Hat : station_failure r (failed_at r gs) = (st_actuation_blocked, fc_ground_clean_failure)).
  { assert (failed_at r gs = {[p]}) as ->.
    { unfold failed_at. rewrite Hfail. apply set_eq. intros q.
      rewrite elem_of_filter, elem_of_singleton. naive_solver. }
    unfold station_failure. rewrite elements_singleton. simpl. by rewrite Hres, Hpr. }
  simpl. f_equal. rewrite elements_singleton. simpl. rewrite Hst. simpl. rewrite right_id_L by apply _.
  apply map_eq. intros k. apply option_eq. intros x.
  rewrite lookup_set_to_map, lookup_singleton_Some by (by intros ? ? _ _).
  setoid_rewrite elem_of_singleton. rewrite <- Hat. naive_solver.
Qed.

Lemma unreachable_ground_is_clean_witness :
  let acks : gset InterfaceAck := {[("agent-1", ("gs-A", "term0"))]} in
  let r := build_actuation_result {[("gs-A", "sat-1") := acks]} {[("gs-A", "sat-1") := ground_link]}
    {[("gs-A", "sat-1") := "gs-A"]} [classify_agent_exception [("gs-A", "term0")] "agent-1"]
    {[("gs-A", "sat-1")]} in
  handle_actuation_result r =
    VerdictContinue {["gs-A" := (st_actuation_blocked, fc_ground_clean_failure)]}.
Proof.
  apply (unreachable_ground_is_clean ("gs-A", "sat-1") "gs-A" {[("agent-1", ("gs-A", "term0"))]}
    [classify_agent_exception [("gs-A", "term0")] "agent-1"]); [set_solver|done|].
  constructor; [|constructor]. eexists _, _. split; [reflexivity|]. by vm_compute.
Defined.

(** a command long enough to be split loses what its ends reported: the
    merged result of two runs or more carries no loss counts and no surveys,
    whatever the runs reported. *)
Theorem split_command_drops_reports addr items reply r :
  (MAX_NODE_AGENT_INTERFACES_PER_COMMAND < length items)%nat →
  send_chunked_command addr items reply = Ok r → ar_end_losses r = ∅ ∧ ar_surveys r = ∅.
Proof.
  unfold send_chunked_command, chunks, MAX_NODE_AGENT_INTERFACES_PER_COMMAND.
  intros Hl. destruct items as [|x items]; [simpl in Hl; lia|].
  cbn [length chunks_from] in *. destruct (drop 64 (x :: items)) as [|y rest] eqn:Ed.
  { apply (f_equal length) in Ed. rewrite length_drop in Ed. simpl in Ed. lia. }
  destruct (length items) as [|n] eqn:En; [lia|]. cbn [chunks_from imap].
  unfold merge_agent_results. intros H. rguard H as E. by injection H as <-.
Qed.

(** Every end reports seven dropped packets; 65 ends make two runs. *)
Definition seven_dropped : EndLossCounts :=
  {| lc_admission_taken := 0; lc_queue_dropped := 7; lc_discarded_at_close := 0;
     lc_discarded_exact := true; lc_untransmitted_at_stop := 0; lc_transmit_dropped := 0 |}.
Definition reporting_reply (_ : nat) (run : list Iface) : AgentReply :=
  Answered {| rs_success := true; rs_error_code := NODE_AGENT_OK; rs_dirty_kernel := false;
              rs_entries := map (λ i, {| en_iface := i; en_success := true;
                en_error_code := NODE_AGENT_OK; en_verified := true; en_dirty_kernel := false;
                en_loss := Some seven_dropped; en_survey := None |}) run |}.

Lemma split_command_drops_reports_witness :
  let items := map (λ n : nat, ("n", pretty n)) (seq 0 65) in
  ar_end_losses (classify (reporting_reply 0 [("n", "0")]) [("n", "0")] "agent-1") !! ("n", "0") =
    Some seven_dropped ∧
  ∃ r, send_chunked_command "agent-1" items reporting_reply = Ok r ∧ ar_end_losses r = ∅.
Proof.
  intros items. split; [by vm_compute|].
  destruct (merge_class "agent-1" _ (chunk_classes "agent-1" items reporting_reply)) as (r & E & _).
  exists r. split; [exact E|].
  apply (split_command_drops_reports "agent-1" items reporting_reply r); [|exact E].
  unfold items. rewrite length_map, length_seq. unfold MAX_NODE_AGENT_INTERFACES_PER_COMMAND. lia.
Defined.
