(* ===== verification/DispatchPlanner.v ===== *)
(** * Reconciliation

    [services/scheduler/dispatch_planner.py] plans one reconcile pass (the
    difference between actual and desired links, the releases whose interface an
    acquire reuses, make-before-break or break-before-make per station), and
    [Dispatcher._reconcile_mbb] of [services/scheduler/dispatcher.py] carries it
    out in three stages against the Node Agents.

    The agents are the environment: [Agents] gives, for each batch, the
    [ActuationResult] that comes back.  Its law is what
    [Actuation.build_actuation_result] ensures of every batch: a succeeded pair
    was requested.  Where the source walks a set in no given order the model
    walks its [elements]; the order only decides which of several bad
    configurations raises first. *)

From S2P Require Import Prelude.
From S2P Require Import PyFloat.
From S2P Require Import PyData.
From S2P Require Import PyTime.
From S2P Require Import GroundTypes.
From S2P Require Import EventDiff.
From S2P Require Import DesiredState.
From S2P Require Import Authority.
From S2P Require Import Actuation.
From stdpp Require Import base list strings gmap.
Local Open Scope Z_scope.

(** ** The difference *)

Record ReconcileDiff := {
  to_remove : gset node_pair;
  to_add : gset node_pair;
  to_update_latency : gset node_pair;
}.

(** [has_changes]. *)
Definition has_changes (d : ReconcileDiff) : bool :=
  negb (bool_decide (to_remove d = ∅) && bool_decide (to_add d = ∅) &&
        bool_decide (to_update_latency d = ∅)).

(** [x != y] of two optional floats. *)
Definition range_differs (x y : option float) : bool :=
  match x, y with
  | Some a, Some b => negb (feq a b)
  | None, None => false
  | _, _ => true
  end.

Definition geometry_changed (tolerance : float) (held wanted : ActiveLinkInfo) : bool :=
  flt tolerance (fabs (fsub (latency_a_to_b_ms held) (latency_a_to_b_ms wanted))) ||
  flt tolerance (fabs (fsub (latency_b_to_a_ms held) (latency_b_to_a_ms wanted))) ||
  range_differs (range_km held) (range_km wanted).

(** [diff_link_state]; the default tolerance is [f_1e_9]. *)
Definition diff_link_state (actual desired : Links) (tolerance : float) : ReconcileDiff :=
  {| to_remove := dom actual ∖ dom desired;
     to_add := dom desired ∖ dom actual;
     to_update_latency := filter (λ p,
       match actual !! p, desired !! p with
       | Some held, Some wanted => geometry_changed tolerance held wanted
       | _, _ => false
       end = true) (dom actual ∩ dom desired) |}.

(** ** Ground endpoints *)

Section Endpoints.
Context (gs_capacities : gmap string Z).

(** [ground_side]: [Some true] when the first endpoint is the station. *)
Definition planner_ground_side (p : node_pair) : option bool :=
  match gs_capacities !! p.1, gs_capacities !! p.2 with
  | Some _, _ => Some true
  | None, Some _ => Some false
  | None, None => None
  end.

Definition gs_id_for_pair (p : node_pair) : option string :=
  (λ first : bool, if first then p.1 else p.2) <$> planner_ground_side p.
Definition sat_id_for_gs_pair (p : node_pair) : option string :=
  (λ first : bool, if first then p.2 else p.1) <$> planner_ground_side p.

Record GroundEndpoints := { ge_gs_id : string; ge_sat_id : string; ge_gs_iface : string;
                            ge_sat_iface : string }.

Definition ground_endpoints (p : node_pair) (info : ActiveLinkInfo) : option GroundEndpoints :=
  (λ first : bool,
     if first then {| ge_gs_id := p.1; ge_sat_id := p.2; ge_gs_iface := interface_a info;
                      ge_sat_iface := interface_b info |}
     else {| ge_gs_id := p.2; ge_sat_id := p.1; ge_gs_iface := interface_b info;
             ge_sat_iface := interface_a info |}) <$> planner_ground_side p.
End Endpoints.

(** ** Interfaces *)

(** The two (node, interface) ends of a link. *)
Definition ends_of (p : node_pair) (info : ActiveLinkInfo) : gset (string * string) :=
  {[(p.1, interface_a info); (p.2, interface_b info)]}.

(** [interface_colliding_downs]: the lookups raise [KeyError] on a pair the maps
    do not hold. *)
Definition interface_colliding_downs (removes adds : gset node_pair) (actual desired : Links) :
    result (gset node_pair) :=
  let! acquired := foldM (λ (acc : gset (string * string)) p,
      let! info := or_raise (desired !! p) (KeyError "desired") in Ok (ends_of p info ∪ acc))
    ∅ (elements adds) in
  foldM (λ (acc : gset node_pair) p,
      let! info := or_raise (actual !! p) (KeyError "actual") in
      Ok (if bool_decide (ends_of p info ∩ acquired ≠ ∅) then {[p]} ∪ acc else acc))
    ∅ (elements removes).

(** ** Make-before-break or break-before-make *)

Record MbbClassification := {
  isl_downs : gset node_pair;
  isl_ups : gset node_pair;
  gs_downs : gmap string (gset node_pair);
  gs_ups : gmap string (gset node_pair);
  mbb_segments : gset string;
  bbm_segments : gset string;
}.

Section Classify.
Context (gs_capacities gs_active_count sat_capacities sat_active_count : gmap string Z)
        (forced_bbm_pairs : gset node_pair).

(** [if gs_id:] of a pair's station. *)
Definition segment_of (p : node_pair) : option string := truthy (gs_id_for_pair gs_capacities p).

Definition stations_of (pairs : gset node_pair) : gset string :=
  list_to_set (omap segment_of (elements pairs)).
Definition segment (pairs : gset node_pair) (gs_id : string) : gset node_pair :=
  filter (λ p, segment_of p = Some gs_id) pairs.
Definition by_station (pairs : gset node_pair) : gmap string (gset node_pair) :=
  set_to_map (λ gs_id, (gs_id, segment pairs gs_id)) (stations_of pairs).
Definition no_station (pairs : gset node_pair) : gset node_pair :=
  filter (λ p, segment_of p = None) pairs.

(** [gs_capacities[gs_id] - gs_active_count.get(gs_id, 0)]. *)
Definition gs_spare (gs_id : string) : result Z :=
  let! capacity := or_raise (gs_capacities !! gs_id) (KeyError "gs_capacities") in
  Ok (capacity - default 0 (gs_active_count !! gs_id)).
Definition sat_spare (sat_id : string) : result Z :=
  let! capacity := or_raise (sat_capacities !! sat_id) (KeyError "sat_capacities") in
  Ok (capacity - default 0 (sat_active_count !! sat_id)).

(** Every satellite of [ups] has a spare terminal; the loop stops at the first
    that has none. *)
Fixpoint all_sats_ok (ups : list node_pair) : result bool :=
  match ups with
  | [] => Ok true
  | p :: ups =>
      let! sat_id := or_raise (sat_id_for_gs_pair gs_capacities p)
        (ValueError "Ground segment includes non-ground pair") in
      let! spare := sat_spare sat_id in
      if spare <=? 0 then Ok false else all_sats_ok ups
  end.

(** Whether a station with changes goes make-before-break. *)
Definition segment_is_mbb (removes adds : gset node_pair) (gs_id : string) : result bool :=
  let downs := segment removes gs_id in
  let ups := segment adds gs_id in
  if bool_decide ((downs ∪ ups) ∩ forced_bbm_pairs ≠ ∅) then Ok false
  else if bool_decide (ups = ∅) then Ok false
  else
    let! spare := gs_spare gs_id in
    let! sats := all_sats_ok (elements ups) in
    Ok ((Z.of_nat (size ups) <=? spare) && sats).

(** [classify_mbb_changes]. *)
Definition classify_mbb_changes (removes adds : gset node_pair) : result MbbClassification :=
  let dirty := stations_of removes ∪ stations_of adds in
  let! '(mbb, bbm) := foldM (λ '(mbb, bbm) gs_id,
      let! is_mbb := segment_is_mbb removes adds gs_id in
      Ok (if (is_mbb : bool) then ({[gs_id]} ∪ mbb, bbm) else (mbb, {[gs_id]} ∪ bbm)))
    ((∅, ∅) : gset string * gset string) (elements dirty) in
  Ok {| isl_downs := no_station removes; isl_ups := no_station adds;
        gs_downs := by_station removes; gs_ups := by_station adds;
        mbb_segments := mbb; bbm_segments := bbm |}.
End Classify.

(** ** The staged dispatch *)

(** What the dispatcher tracks: [_actual_links], [_last_latencies] and the
    active-link counts. *)
Record Tracked := {
  actual_links : Links;
  last_latencies : gmap node_pair (float * float);
  gs_active : gmap string Z;
  sat_active : gmap string Z;
}.

Inductive Command :=
| DownBatch (pairs : gset node_pair)
| UpBatch (pairs : gset node_pair) (desired : Links).

Definition command_pairs (cmd : Command) : gset node_pair :=
  match cmd with DownBatch pairs | UpBatch pairs _ => pairs end.

(** What sending a batch comes to: the result, with the desired records as an
    acquire left them (it writes the commanded delays on them), or an exception.
    A succeeded pair was requested. *)
Class Agents := {
  answer : Tracked → Command → result (ActuationResult * Links);
  answer_requested st cmd r desired p :
    answer st cmd = Ok (r, desired) → p ∈ succeeded_pairs r → p ∈ command_pairs cmd;
}.

(** The results the dispatcher handled, in order, each with what it tracked then:
    what the states of the stations are made of ([StationState]). *)
Record Handled := { hd_tracked : Tracked; hd_result : ActuationResult }.
Abbreviation Log := (list Handled).

Section Counts.
Context (gs_capacities sat_capacities : gmap string Z).

Definition bump (delta : Z → Z) (counts : gmap string Z) (nid : string) : gmap string Z :=
  <[nid := delta (default 0 (counts !! nid))]> counts.

(** One endpoint of [_increment_active_counts] and [_decrement_active_counts]. *)
Definition count_end (delta : Z → Z) (c : gmap string Z * gmap string Z) (nid : string) :
    gmap string Z * gmap string Z :=
  if negb (is_none (gs_capacities !! nid)) then (bump delta c.1 nid, c.2)
  else if negb (is_none (sat_capacities !! nid)) then (c.1, bump delta c.2 nid)
  else c.
Definition count_link (delta : Z → Z) (c : gmap string Z * gmap string Z) (p : node_pair)
    (info : ActiveLinkInfo) : gmap string Z * gmap string Z :=
  match link_type info with
  | ground_link => count_end delta (count_end delta c p.1) p.2
  | isl_link => c
  end.

Definition increment (n : Z) : Z := n + 1.
Definition decrement (n : Z) : Z := Z.max 0 (n - 1).

(** [_rebaseline_active_counts], over the link records held. *)
Definition rebaseline_active_counts (held : list (node_pair * ActiveLinkInfo)) :
    gmap string Z * gmap string Z :=
  fold_left (λ c x, count_link increment c x.1 x.2) held (∅, ∅).

(** A released pair leaves the record. *)
Definition release (st : Tracked) (p : node_pair) : Tracked :=
  let c := (gs_active st, sat_active st) in
  let '(g, s) := match actual_links st !! p with
                 | Some info => count_link decrement c p info | None => c end in
  {| actual_links := delete p (actual_links st); last_latencies := delete p (last_latencies st);
     gs_active := g; sat_active := s |}.

(** An acquired pair enters it. *)
Definition acquire (desired : Links) (st : Tracked) (p : node_pair) : result Tracked :=
  let! info := or_raise (desired !! p) (KeyError "desired") in
  let '(g, s) := count_link increment (gs_active st, sat_active st) p info in
  Ok {| actual_links := <[p := info]> (actual_links st);
        last_latencies := <[p := (latency_a_to_b_ms info, latency_b_to_a_ms info)]>
                            (last_latencies st);
        gs_active := g; sat_active := s |}.
End Counts.

Section Reconcile.
Context (cfg : SchedulerConfig) (gs_handover_modes : gmap string string).
Context {agents : Agents}.

(** The pairs the policy or the intent forces break-before-make. *)
Definition policy_forced (forced removes adds : gset node_pair) : result (gset node_pair) :=
  foldM (λ acc p,
      match gs_id_for_pair (cfg_gs_capacities cfg) p with
      | None => Ok acc
      | Some gs_id =>
          let! mode := or_raise (gs_handover_modes !! gs_id)
            (ValueError "Missing handover mode for ground station") in
          Ok (if bool_decide (mode = "bbm") then {[p]} ∪ acc else acc)
      end) forced (elements (removes ∪ adds)).

(** The classification one pass works with. *)
Definition plan (st : Tracked) (removes adds : gset node_pair) (desired : Links)
    (forced : gset node_pair) : result MbbClassification :=
  let! forced := policy_forced forced removes adds in
  let! collisions := interface_colliding_downs removes adds (actual_links st) desired in
  classify_mbb_changes (cfg_gs_capacities cfg) (gs_active st) (cfg_sat_capacities cfg)
    (sat_active st) (forced ∪ collisions) removes adds.

Definition segment_pairs (by_gs : gmap string (gset node_pair)) (segments : gset string) :
    gset node_pair :=
  ⋃ (map (λ gs_id, default ∅ (by_gs !! gs_id)) (elements segments)).

Definition pre_release_downs (c : MbbClassification) : gset node_pair :=
  isl_downs c ∪ segment_pairs (gs_downs c) (bbm_segments c).

(** A batch and what the dispatcher makes of the answer: [Raise] when it
    stops. *)
Definition dispatch (st : Tracked) (log : Log) (cmd : Command) :
    result (gset node_pair * Links * Log) :=
  let! '(r, desired) := answer st cmd in
  match handle_actuation_result r with
  | VerdictStop _ => Raise (RuntimeError "Fatal actuation failure")
  | VerdictContinue _ =>
      Ok (succeeded_pairs r, desired, log ++ [{| hd_tracked := st; hd_result := r |}])
  end.

Definition release_all (st : Tracked) (pairs : gset node_pair) : Tracked :=
  fold_left (release (cfg_gs_capacities cfg) (cfg_sat_capacities cfg))
    (sorted_set npair_lt pairs) st.

(** The stations with a pre-release that did not succeed. *)
Definition failed_stations (downs succeeded : gset node_pair) : gset string :=
  list_to_set (omap (segment_of (cfg_gs_capacities cfg)) (elements (downs ∖ succeeded))).

(** The greedy reservation of one break-before-make pair, against the counts
    after the pre-release. *)
Definition has_room (st : Tracked) (gs_id : string) (p : node_pair) : result bool :=
  let! sat_id := or_raise (sat_id_for_gs_pair (cfg_gs_capacities cfg) p)
    (ValueError "Ground segment includes non-ground pair") in
  let! gs := gs_spare (cfg_gs_capacities cfg) (gs_active st) gs_id in
  let! sat := sat_spare (cfg_sat_capacities cfg) (sat_active st) sat_id in
  Ok ((0 <? gs) && (0 <? sat)).

Definition acquire_ups (st : Tracked) (c : MbbClassification) (failed_bbm_gs : gset string) :
    result (gset node_pair) :=
  let base := isl_ups c ∪ segment_pairs (gs_ups c) (mbb_segments c) in
  foldM (λ acc gs_id,
      if bool_decide (gs_id ∈ failed_bbm_gs) then Ok acc else
      foldM (λ acc p,
          let! room := has_room st gs_id p in
          Ok (if (room : bool) then {[p]} ∪ acc else acc))
        acc (sorted_set npair_lt (default ∅ (gs_ups c !! gs_id))))
    base (sorted_set str_lt (bbm_segments c)).

Definition final_release_downs (c : MbbClassification) (added : gset node_pair) : gset node_pair :=
  segment_pairs (gs_downs c)
    (filter (λ gs_id, default ∅ (gs_ups c !! gs_id) ∩ added ≠ ∅) (mbb_segments c)).

(** A batch is sent only when it is not empty. *)
Definition send_batch (st : Tracked) (log : Log) (cmd : Command) :
    result (gset node_pair * Links * Log) :=
  if bool_decide (command_pairs cmd = ∅) then Ok (∅, ∅, log) else dispatch st log cmd.

(** The pre-release stage: the state after it and the stations it failed. *)
Definition pre_release_stage (st : Tracked) (log : Log) (c : MbbClassification) :
    result (Tracked * Log * gset string) :=
  let downs := pre_release_downs c in
  let! '(done, _, log) := send_batch st log (DownBatch downs) in
  Ok (release_all st (downs ∩ done), log, failed_stations downs done).

Definition acquire_stage (st : Tracked) (log : Log) (desired : Links)
    (ups : gset node_pair) : result (Tracked * Log * gset node_pair) :=
  let! '(added, desired, log) := send_batch st log (UpBatch ups desired) in
  let! st := foldM (acquire (cfg_gs_capacities cfg) (cfg_sat_capacities cfg) desired) st
    (sorted_set npair_lt added) in
  Ok (st, log, added).

Definition final_stage (st : Tracked) (log : Log) (c : MbbClassification)
    (added : gset node_pair) : result (Tracked * Log) :=
  let downs := final_release_downs c added in
  let! '(done, _, log) := send_batch st log (DownBatch downs) in
  Ok (release_all st done, log).

(** [_reconcile_mbb]. *)
Definition reconcile_mbb (st : Tracked) (log : Log) (removes adds : gset node_pair)
    (desired : Links) (forced : gset node_pair) : result (Tracked * Log) :=
  let! c := plan st removes adds desired forced in
  let! '(st, log, failed) := pre_release_stage st log c in
  let! ups := acquire_ups st c failed in
  let! '(st, log, added) := acquire_stage st log desired ups in
  final_stage st log c added.
End Reconcile.
