(* ===== verification/ReconcileTheorems.v ===== *)
(** * What one reconcile pass guarantees

    Make-before-break segments stay within capacity, no interface is acquired
    while a tracked link still holds it, and what the staged dispatch does not
    guarantee: a release that failed at another station is not waited for, and
    the break-before-make reservation does not count what it reserves. *)

From S2P Require Import Prelude.
From S2P Require Import PyFloat.
From S2P Require Import PyData.
From S2P Require Import PyTime.
From S2P Require Import GroundTypes.
From S2P Require Import EventDiff.
From S2P Require Import DesiredState.
From S2P Require Import Authority.
From S2P Require Import Actuation.
From S2P Require Import DispatchPlanner.
From stdpp Require Import base list strings gmap.
Local Open Scope Z_scope.

(** ** The difference *)

(** A link record moved to other terminals. *)
Definition on_terminals (a b : string) (info : ActiveLinkInfo) : ActiveLinkInfo :=
  {| interface_a := a; interface_b := b; latency_a_to_b_ms := latency_a_to_b_ms info;
     latency_b_to_a_ms := latency_b_to_a_ms info; commanded_netem_ms := commanded_netem_ms info;
     link_type := link_type info; range_km := range_km info;
     authority_sim_time := authority_sim_time info; authority_source := authority_source info;
     authority_sequence := authority_sequence info; contact := contact info; drain := drain info;
     stage_losses := stage_losses info |}.

(** the difference does not see terminals: moving any desired links to
    other interfaces changes nothing of what is removed, added or updated, so a
    link OME moved to other terminals stays where it was. *)
Theorem diff_ignores_terminals actual desired tolerance (moved : node_pair → string * string) :
  diff_link_state actual
    (map_imap (λ p info, Some (on_terminals (moved p).1 (moved p).2 info)) desired) tolerance =
  diff_link_state actual desired tolerance.
Proof.
  set (f := λ p info, Some (on_terminals (moved p).1 (moved p).2 info)).
  assert (Hdom : dom (map_imap f desired) = dom desired).
  { apply set_eq. intros p. rewrite !elem_of_dom, map_lookup_imap. unfold f.
    destruct (desired !! p); simpl; [|done]. split; intros _; by eexists. }
  unfold diff_link_state. rewrite Hdom. f_equal. apply set_eq. intros p. rewrite !elem_of_filter.
  rewrite map_lookup_imap. unfold f.
  by destruct (actual !! p), (desired !! p).
Qed.

(** ** Collections *)

Lemma elem_of_segment caps pairs gs p :
  p ∈ segment caps pairs gs ↔ segment_of caps p = Some gs ∧ p ∈ pairs.
Proof. unfold segment. by rewrite elem_of_filter. Qed.

Lemma elem_of_stations caps pairs gs :
  gs ∈ stations_of caps pairs ↔ ∃ p, p ∈ pairs ∧ segment_of caps p = Some gs.
Proof.
  unfold stations_of. rewrite elem_of_list_to_set, list_elem_of_omap.
  setoid_rewrite elem_of_elements. done.
Qed.

Lemma by_station_lookup caps pairs gs :
  by_station caps pairs !! gs = if bool_decide (gs ∈ stations_of caps pairs)
                                then Some (segment caps pairs gs) else None.
Proof.
  unfold by_station. apply option_eq. intros X. rewrite lookup_set_to_map by (by intros ? ? _ _).
  case_bool_decide; naive_solver.
Qed.

Lemma by_station_default caps pairs gs :
  default ∅ (by_station caps pairs !! gs) = segment caps pairs gs.
Proof.
  rewrite by_station_lookup. case_bool_decide as H; [done|]. simpl. symmetry. apply set_eq.
  intros p. rewrite elem_of_segment. split; [|set_solver]. intros [Hs Hp].
  destruct H. apply elem_of_stations. eauto.
Qed.

Lemma elem_of_segment_pairs by_gs segments p :
  p ∈ segment_pairs by_gs segments ↔ ∃ gs, gs ∈ segments ∧ p ∈ default ∅ (by_gs !! gs).
Proof.
  unfold segment_pairs. rewrite elem_of_union_list. setoid_rewrite list_elem_of_fmap.
  setoid_rewrite elem_of_elements. naive_solver.
Qed.

(** ** Releases *)

Lemma release_lookup gcap scap st p q :
  actual_links (release gcap scap st p) !! q =
    if bool_decide (q = p) then None else actual_links st !! q.
Proof.
  unfold release. destruct (actual_links st !! p) as [info|];
    [destruct (count_link _ _ _ _ _ _) as [g s]|]; simpl;
    (case_bool_decide as E; [subst; apply lookup_delete_eq|by apply lookup_delete_ne]).
Qed.

Lemma release_fold_lookup gcap scap l st q :
  actual_links (fold_left (release gcap scap) l st) !! q =
    if bool_decide (q ∈ l) then None else actual_links st !! q.
Proof.
  revert st. induction l as [|p l IH]; intros st; cbn [fold_left].
  - rewrite bool_decide_false; [done|]. by intros ?%elem_of_nil.
  - rewrite IH, release_lookup. repeat case_bool_decide; set_solver.
Qed.

Lemma release_all_lookup cfg st X q :
  actual_links (release_all cfg st X) !! q = if bool_decide (q ∈ X) then None else actual_links st !! q.
Proof.
  unfold release_all. rewrite release_fold_lookup.
  by rewrite (bool_decide_ext _ _ (elem_of_sorted_set npair_lt X q)).
Qed.

(** ** Collisions *)

Lemma colliding_spec removes adds actual desired collisions p held :
  interface_colliding_downs removes adds actual desired = Ok collisions →
  p ∈ removes → actual !! p = Some held →
  (∃ q info, q ∈ adds ∧ desired !! q = Some info ∧ ends_of p held ∩ ends_of q info ≠ ∅) →
  p ∈ collisions.
Proof.
  intros H Hp Ha (q & info & Hq & Hd & Hne). unfold interface_colliding_downs in H.
  rbind H as acquired Hacq.
  assert (Hin : ends_of q info ⊆ acquired).
  { refine (foldM_prefix (λ pre acc, q ∈ pre → ends_of q info ⊆ acc) _ _ _ _ _ _ Hacq
      (proj2 (elem_of_elements _ _) Hq)); [|by intros ?%elem_of_nil].
    intros pre x post s s' _ IH Hs [Hx| ->%list_elem_of_singleton]%elem_of_app;
      rbind Hs as i Hi; injection Hs as <-; [set_solver|].
    rewrite Hd in Hi. injection Hi as ->. set_solver. }
  refine (foldM_prefix (λ pre acc, p ∈ pre → p ∈ acc) _ _ _ _ _ _ H
    (proj2 (elem_of_elements _ _) Hp)); [|by intros ?%elem_of_nil].
  intros pre x post s s' _ IH Hs [Hx| ->%list_elem_of_singleton]%elem_of_app;
    rbind Hs as i Hi; injection Hs as <-.
  - case_bool_decide; set_solver.
  - rewrite Ha in Hi. injection Hi as ->. rewrite bool_decide_true; set_solver.
Qed.

(** ** Classification *)

Record classified (gcap gact scap sact : gmap string Z) (forced removes adds : gset node_pair)
    (c : MbbClassification) : Prop := {
  cl_isl_downs : isl_downs c = no_station gcap removes;
  cl_isl_ups : isl_ups c = no_station gcap adds;
  cl_gs_downs : gs_downs c = by_station gcap removes;
  cl_gs_ups : gs_ups c = by_station gcap adds;
  cl_mbb gs : gs ∈ mbb_segments c ↔
    gs ∈ stations_of gcap removes ∪ stations_of gcap adds ∧
    segment_is_mbb gcap gact scap sact forced removes adds gs = Ok true;
  cl_bbm gs : gs ∈ bbm_segments c ↔
    gs ∈ stations_of gcap removes ∪ stations_of gcap adds ∧
    segment_is_mbb gcap gact scap sact forced removes adds gs = Ok false;
  cl_total gs : gs ∈ stations_of gcap removes ∪ stations_of gcap adds →
    gs ∈ mbb_segments c ∨ gs ∈ bbm_segments c;
}.

Lemma classify_spec gcap gact scap sact forced removes adds c :
  classify_mbb_changes gcap gact scap sact forced removes adds = Ok c →
  classified gcap gact scap sact forced removes adds c.
Proof.
  unfold classify_mbb_changes. intros H. rbind H as [mbb bbm] Hf. injection H as <-.
  set (mode := segment_is_mbb gcap gact scap sact forced removes adds) in *.
  set (dirty := stations_of gcap removes ∪ stations_of gcap adds) in *.
  assert (Hs : ∀ gs, (gs ∈ mbb ↔ gs ∈ elements dirty ∧ mode gs = Ok true) ∧
                     (gs ∈ bbm ↔ gs ∈ elements dirty ∧ mode gs = Ok false) ∧
                     (gs ∈ elements dirty → gs ∈ mbb ∨ gs ∈ bbm)).
  { refine (foldM_prefix (λ pre acc, ∀ gs, (gs ∈ acc.1 ↔ gs ∈ pre ∧ mode gs = Ok true) ∧
      (gs ∈ acc.2 ↔ gs ∈ pre ∧ mode gs = Ok false) ∧ (gs ∈ pre → gs ∈ acc.1 ∨ gs ∈ acc.2))
      _ _ _ (∅, ∅) (mbb, bbm) _ Hf).
    - intros pre x post [m b] s' _ IH Hx gs. rbind Hx as is_mbb Hm.
      destruct (IH gs) as (IH1 & IH2 & IH3). rewrite elem_of_app, list_elem_of_singleton.
      destruct is_mbb; injection Hx as <-; cbn [fst snd] in *;
        rewrite ?elem_of_union, ?elem_of_singleton, IH1, IH2;
        (destruct (decide (gs = x)) as [->|]; [rewrite Hm|]); intuition congruence.
    - intros gs. cbn [fst snd]. split_and!; set_solver. }
  split; try done; cbn [mbb_segments bbm_segments]; intros gs; fold dirty mode;
    rewrite <- (elem_of_elements dirty gs); apply Hs.
Qed.

(** Every changed pair is sent: to its station's segment or, without a station,
    at once. *)
Lemma classified_cases gcap gact scap sact forced removes adds c p :
  classified gcap gact scap sact forced removes adds c → p ∈ removes →
  p ∈ isl_downs c ∨ ∃ gs, segment_of gcap p = Some gs ∧ p ∈ default ∅ (gs_downs c !! gs) ∧
    gs ∈ stations_of gcap removes ∪ stations_of gcap adds.
Proof.
  intros [-> _ -> _ _ _ _] Hp. destruct (segment_of gcap p) as [gs|] eqn:E.
  - right. exists gs. rewrite by_station_default, elem_of_segment, elem_of_union, elem_of_stations.
    split_and!; eauto.
  - left. unfold no_station. by rewrite elem_of_filter.
Qed.

(** ** Capacity *)

Lemma all_sats_ok_spec gcap scap sact ups p :
  all_sats_ok gcap scap sact ups = Ok true → p ∈ ups →
  ∃ sat spare, sat_id_for_gs_pair gcap p = Some sat ∧ sat_spare scap sact sat = Ok spare ∧ 0 < spare.
Proof.
  induction ups as [|q ups IH]; cbn [all_sats_ok]; [by intros _ ?%elem_of_nil|]. intros H.
  rbind H as sat Hs. rbind H as spare Hsp. destruct (Z.leb_spec spare 0); [done|].
  intros [->|Hp]%elem_of_cons; [eauto|by apply IH].
Qed.

(** a reconcile pass puts every station with changes in exactly one mode,
    and a make-before-break station has room for it: its new links fit beside
    all its active ones, and each satellite it acquires has a spare terminal
    before anything is released. *)
Theorem mbb_within_capacity gcap gact scap sact forced removes adds c gs :
  classify_mbb_changes gcap gact scap sact forced removes adds = Ok c →
  ¬ (gs ∈ mbb_segments c ∧ gs ∈ bbm_segments c) ∧
  (gs ∈ mbb_segments c ∨ gs ∈ bbm_segments c ↔
     ∃ p, p ∈ removes ∪ adds ∧ segment_of gcap p = Some gs) ∧
  (gs ∈ mbb_segments c →
     ∃ capacity, gcap !! gs = Some capacity ∧
       default 0 (gact !! gs) + Z.of_nat (size (segment gcap adds gs)) ≤ capacity ∧
       ∀ p, p ∈ segment gcap adds gs → ∃ sat spare,
         sat_id_for_gs_pair gcap p = Some sat ∧ sat_spare scap sact sat = Ok spare ∧ 0 < spare).
Proof.
  intros H. pose proof (classify_spec _ _ _ _ _ _ _ _ H) as Hc.
  pose proof (cl_mbb _ _ _ _ _ _ _ _ Hc gs) as Hm. pose proof (cl_bbm _ _ _ _ _ _ _ _ Hc gs) as Hb.
  split_and!.
  - rewrite Hm, Hb. intros [[_ E] [_ E']]. congruence.
  - rewrite Hm, Hb. transitivity (gs ∈ stations_of gcap removes ∪ stations_of gcap adds).
    + split; [tauto|]. rewrite <- Hm, <- Hb. apply Hc.
    + rewrite elem_of_union, !elem_of_stations. set_solver.
  - rewrite Hm. intros [_ E]. unfold segment_is_mbb in E.
    case_bool_decide; [done|]. case_bool_decide; [done|]. rbind E as spare Hs. rbind E as sats Ha.
    injection E as E. apply andb_true_iff in E as [E ->]. unfold gs_spare in Hs.
    rbind Hs as capacity Hcap. injection Hs as <-. exists capacity. split_and!; [done|lia|].
    intros p Hp. eapply all_sats_ok_spec; [done|]. by apply elem_of_elements.
Qed.

(** ** Interfaces *)

(** No two links of a table meet on an interface. *)
Definition exclusive_links (links : Links) : Prop :=
  ∀ p q i j, links !! p = Some i → links !! q = Some j → p ≠ q → ends_of p i ## ends_of q j.

Section Acquire.
Context (cfg : SchedulerConfig) (modes : gmap string string) {agents : Agents}.

(** The acquires are among the additions. *)
Lemma acquire_ups_sub st c failed ups gact scap sact forced removes adds :
  classified (cfg_gs_capacities cfg) gact scap sact forced removes adds c →
  acquire_ups cfg st c failed = Ok ups → ups ⊆ adds.
Proof.
  intros [_ Hi _ Hu _ _ _] H. unfold acquire_ups in H.
  assert (Hseg : ∀ gs, default ∅ (gs_ups c !! gs) ⊆ adds).
  { intros gs p. rewrite Hu, by_station_default, elem_of_segment. tauto. }
  refine (foldM_inv (λ acc, acc ⊆ adds) _ _ _ _ _ _ H).
  - intros acc gs acc' _ Hacc Hf. case_bool_decide; [by injection Hf as <-|].
    refine (foldM_inv (λ acc, acc ⊆ adds) _ _ _ _ _ Hacc Hf).
    intros a p a' Hp Ha Hr. rbind Hr as room Hroom. injection Hr as <-.
    apply elem_of_sorted_set in Hp. specialize (Hseg gs). destruct room; set_solver.
  - rewrite Hi. intros p [Hp|Hp]%elem_of_union.
    + unfold no_station in Hp. by apply elem_of_filter in Hp as [_ Hp].
    + apply elem_of_segment_pairs in Hp as (gs & _ & Hp). by apply (Hseg gs).
Qed.

(** A removed link that meets an addition is released before the acquires. *)
Lemma colliding_pre_released st removes adds desired forced c q held :
  plan cfg modes st removes adds desired forced = Ok c →
  q ∈ removes → actual_links st !! q = Some held →
  (∃ p info, p ∈ adds ∧ desired !! p = Some info ∧ ends_of q held ∩ ends_of p info ≠ ∅) →
  q ∈ pre_release_downs c.
Proof.
  intros H Hq Ha Hmeet. unfold plan in H. rbind H as forced' Hf. rbind H as coll Hcoll.
  pose proof (colliding_spec _ _ _ _ _ _ _ Hcoll Hq Ha Hmeet) as Hin.
  apply classify_spec in H as Hc. unfold pre_release_downs.
  destruct (classified_cases _ _ _ _ _ _ _ _ _ Hc Hq) as [Hi|(gs & Hgs & Hd & Hdirty)];
    [set_solver|]. apply elem_of_union_r, elem_of_segment_pairs. exists gs. split; [|done].
  apply (cl_bbm _ _ _ _ _ _ _ _ Hc). split; [done|]. unfold segment_is_mbb.
  rewrite bool_decide_true; [done|].
  assert (q ∈ segment (cfg_gs_capacities cfg) removes gs) by (by apply elem_of_segment).
  set_solver.
Qed.
End Acquire.

(** when the pre-releases succeed, an acquire never meets a held link: on
    tables where no two links share an interface and the kept links kept theirs,
    at the moment the acquires are sent no interface of an acquired link is held
    by a link the Scheduler still tracks. *)
Theorem acquire_never_collides (cfg : SchedulerConfig) (modes : gmap string string) (agents : Agents)
    st log desired forced c st1 log1 failed ups p info q held :
  let removes := dom (actual_links st) ∖ dom desired in
  let adds := dom desired ∖ dom (actual_links st) in
  exclusive_links (actual_links st) → exclusive_links desired →
  (∀ r i j, actual_links st !! r = Some i → desired !! r = Some j → ends_of r i = ends_of r j) →
  plan cfg modes st removes adds desired forced = Ok c →
  (∀ r d, answer st (DownBatch (pre_release_downs c)) = Ok (r, d) →
     pre_release_downs c ⊆ succeeded_pairs r) →
  pre_release_stage cfg st log c = Ok (st1, log1, failed) →
  acquire_ups cfg st1 c failed = Ok ups →
  p ∈ ups → desired !! p = Some info → actual_links st1 !! q = Some held →
  ends_of p info ## ends_of q held.
Proof.
  intros removes adds Hxa Hxd Hkept Hplan Hall Hpre Hups Hp Hd Hq.
  assert (Hc : ∃ gact scap sact f, classified (cfg_gs_capacities cfg) gact scap sact f removes adds c).
  { pose proof Hplan as H. unfold plan in H. rbind H as f' Hf. rbind H as coll Hcoll.
    eexists _, _, _, _. by apply classify_spec. }
  destruct Hc as (gact & scap & sact & f & Hc).
  pose proof (acquire_ups_sub _ _ _ _ _ _ _ _ _ _ _ Hc Hups _ Hp) as Hadd.
  apply elem_of_difference in Hadd as [Hdp Hap].
  assert (Hst1 : actual_links st !! q = Some held ∧ q ∉ pre_release_downs c).
  { unfold pre_release_stage in Hpre. rbind Hpre as [[done' d] nc] Hsend. injection Hpre as <- _ _.
    rewrite release_all_lookup in Hq. case_bool_decide as Hin; [done|]. split; [done|].
    intros Hqd. apply Hin. apply elem_of_intersection. split; [done|].
    unfold send_batch in Hsend. simpl in Hsend. case_bool_decide as He; [set_solver|].
    unfold dispatch in Hsend. rbind Hsend as [r d'] Hr.
    destruct (handle_actuation_result _); [done|].
    injection Hsend as <- _ _. by apply (Hall r d'). }
  destruct Hst1 as [Hqa Hnot]. destruct (desired !! q) as [j|] eqn:Ej.
  - rewrite (Hkept _ _ _ Hqa Ej). apply Hxd; [done|done|]. intros ->.
    apply Hap, elem_of_dom. by eexists.
  - destruct (decide (ends_of q held ∩ ends_of p info = ∅)) as [E|E]; [set_solver|].
    destruct Hnot. eapply colliding_pre_released; [exact Hplan| |exact Hqa|].
    + apply elem_of_difference. rewrite elem_of_dom, not_elem_of_dom. split; [by eexists|done].
    + exists p, info. split; [|by split]. by apply elem_of_difference.
Qed.

(** the break-before-make reservation does not count what it reserves: a
    station with one spare terminal has every one of its new links dispatched
    whose satellite has a spare, however many there are. *)
Theorem bbm_reservation_uncounted cfg st c failed ups gs p sat n m :
  acquire_ups cfg st c failed = Ok ups → gs ∈ bbm_segments c → gs ∉ failed →
  p ∈ default ∅ (gs_ups c !! gs) →
  gs_spare (cfg_gs_capacities cfg) (gs_active st) gs = Ok n → 0 < n →
  sat_id_for_gs_pair (cfg_gs_capacities cfg) p = Some sat →
  sat_spare (cfg_sat_capacities cfg) (sat_active st) sat = Ok m → 0 < m →
  p ∈ ups.
Proof.
  intros H Hgs Hf Hp Hg Hn Hsat Hs Hm. unfold acquire_ups in H.
  refine (foldM_prefix (λ pre acc, gs ∈ pre → p ∈ acc) _ _ _ _ _ _ H
    (proj2 (elem_of_sorted_set _ _ _) Hgs)); [|by intros ?%elem_of_nil].
  intros pre x post acc acc' _ IH Hx Hin. case_bool_decide as Hxf.
  { injection Hx as <-. apply elem_of_app in Hin as [|Hin%list_elem_of_singleton]; [auto|by subst]. }
  assert (Hmono : acc ⊆ acc').
  { refine (foldM_inv (λ a, acc ⊆ a) _ _ _ _ _ _ Hx); [|done].
    intros a r a' _ Ha Hr. rbind Hr as room Hroom. injection Hr as <-. destruct room; set_solver. }
  apply elem_of_app in Hin as [Hin|Hin%list_elem_of_singleton]; [by apply Hmono, IH|]. subst x.
  refine (foldM_prefix (λ pre a, p ∈ pre → p ∈ a) _ _ _ _ _ _ Hx
    (proj2 (elem_of_sorted_set _ _ _) Hp)); [|by intros ?%elem_of_nil].
  intros pre' r post' a a' _ IHr Hr Hin. rbind Hr as room Hroom. injection Hr as <-.
  apply elem_of_app in Hin as [Hin|Hin%list_elem_of_singleton]; [destruct room; set_solver|]. subst r.
  unfold has_room in Hroom. rewrite Hsat, Hg in Hroom. simpl in Hroom. rewrite Hs in Hroom.
  injection Hroom as <-. rewrite (proj2 (Z.ltb_lt 0 n)), (proj2 (Z.ltb_lt 0 m)) by done. set_solver.
Qed.

(** ** Scenarios *)

(** Agents that do what they are asked, except for the [refused] pairs, where
    they fail cleanly. *)
Definition scripted_answer (refused pairs : gset node_pair) : ActuationResult :=
  let entries := map (λ p, {| en_iface := p; en_success := negb (bool_decide (p ∈ refused));
    en_error_code := if bool_decide (p ∈ refused) then 10 else NODE_AGENT_OK;
    en_verified := negb (bool_decide (p ∈ refused)); en_dirty_kernel := false; en_loss := None;
    en_survey := None |}) (elements pairs) in
  build_actuation_result (set_to_map (λ p, (p, {[("agent", p)]})) pairs)
    (set_to_map (λ p, (p, ground_link)) pairs) (set_to_map (λ p, (p, p.1)) pairs)
    [classify_agent_response {| rs_success := forallb en_success entries;
       rs_error_code := NODE_AGENT_OK; rs_dirty_kernel := false; rs_entries := entries |}
       (elements pairs) "agent"] pairs.

Definition command_records (cmd : Command) : Links :=
  match cmd with DownBatch _ => ∅ | UpBatch _ desired => desired end.

Definition scripted (refused : gset node_pair) : Agents.
Proof.
  refine {| answer st cmd :=
    Ok (scripted_answer refused (command_pairs cmd), command_records cmd) |}.
  intros st cmd r d p [= <- <-]. unfold scripted_answer. simpl. by intros [_ ?]%elem_of_filter.
Defined.

Definition ground_info (a b : string) : ActiveLinkInfo :=
  {| interface_a := a; interface_b := b; latency_a_to_b_ms := float_of_Z 4;
     latency_b_to_a_ms := float_of_Z 4; commanded_netem_ms := None; link_type := ground_link;
     range_km := Some (float_of_Z 1000); authority_sim_time := Some 0;
     authority_source := Some "link_state_snapshot"; authority_sequence := Some 1; contact := None;
     drain := None; stage_losses := ∅ |}.

Definition two_stations : SchedulerConfig :=
  {| cfg_interface_map := ∅; cfg_gs_capacities := {["gs-A" := 2; "gs-B" := 2]};
     cfg_sat_capacities := {["sat-1" := 2; "sat-2" := 2]}; cfg_long_delay_pairs := ∅ |}.
Definition both_mbb : gmap string string := {["gs-A" := "mbb"; "gs-B" := "mbb"]}.

(** Station A moves from [sat-1] to [sat-2] with a terminal to spare. *)
Definition own_handover : result MbbClassification :=
  classify_mbb_changes (cfg_gs_capacities two_stations) {["gs-A" := 1]}
    (cfg_sat_capacities two_stations) {["sat-1" := 1]} ∅ {[("gs-A", "sat-1")]} {[("gs-A", "sat-2")]}.
Definition own_handover_mbb : bool :=
  match own_handover with Ok c => bool_decide ("gs-A" ∈ mbb_segments c) | Raise _ => false end.

Lemma mbb_within_capacity_witness :
  ∃ c, own_handover = Ok c ∧ "gs-A" ∈ mbb_segments c ∧ ¬ "gs-A" ∈ bbm_segments c.
Proof.
  assert (own_handover_mbb = true) as Hok by evaluated. unfold own_handover_mbb in Hok.
  destruct own_handover as [c|] eqn:E; [|discriminate Hok]. apply bool_decide_eq_true in Hok.
  exists c. split; [exact eq_refl|]. split; [exact Hok|]. intros Hb.
  exact (proj1 (mbb_within_capacity _ _ _ _ _ _ _ _ "gs-A" E) (conj Hok Hb)).
Defined.

(** [sat-1] moves from station A to station B, on the same satellite terminal. *)
Definition handed_over : Tracked :=
  {| actual_links := {[("gs-A", "sat-1") := ground_info "term0" "gnd0"]}; last_latencies := ∅;
     gs_active := {["gs-A" := 1]}; sat_active := {["sat-1" := 1]} |}.
Definition handover_target : Links := {[("gs-B", "sat-1") := ground_info "term0" "gnd0"]}.
Definition handover_plan : result MbbClassification :=
  plan two_stations both_mbb handed_over {[("gs-A", "sat-1")]} {[("gs-B", "sat-1")]} handover_target ∅.

(** The stages of that pass, as far as the acquires, against agents that refuse
    [refused]. *)
Definition handover_stages (refused : gset node_pair) :
    result (MbbClassification * (Tracked * Log * gset string) * gset node_pair) :=
  let! c := handover_plan in
  let! r := pre_release_stage (agents := scripted refused) two_stations handed_over [] c in
  let! ups := acquire_ups two_stations r.1.1 c r.2 in
  Ok (c, r, ups).

(** Reading back three steps in a row. *)
Lemma three_steps_Ok {A B C} (x : result A) (f : A → result B) (g : A → B → result C) a b c :
  (let! a := x in let! b := f a in let! c := g a b in Ok (a, b, c)) = Ok (a, b, c) →
  x = Ok a ∧ f a = Ok b ∧ g a b = Ok c.
Proof.
  intros H. rbind H as a' Ha. rbind H as b' Hb. rbind H as c' Hc. injection H as -> -> ->. done.
Qed.

Lemma handover_stages_Ok refused c st1 nc failed ups :
  handover_stages refused = Ok (c, (st1, nc, failed), ups) →
  handover_plan = Ok c ∧
  pre_release_stage (agents := scripted refused) two_stations handed_over [] c = Ok (st1, nc, failed) ∧
  acquire_ups two_stations st1 c failed = Ok ups.
Proof.
  intros H. exact (three_steps_Ok handover_plan
    (λ c, pre_release_stage (agents := scripted refused) two_stations handed_over [] c)
    (λ c r, acquire_ups two_stations r.1.1 c r.2) _ _ _ H).
Qed.

Definition new_link : ActiveLinkInfo := ground_info "term0" "gnd0".

(** The acquire is sent, and whether station A's link then still holds the
    satellite's terminal. *)
Definition handover_sent (refused : gset node_pair) (still_held : bool) : bool :=
  match handover_stages refused with
  | Ok (c, (st1, _, _), ups) =>
      bool_decide (("gs-B", "sat-1") ∈ ups) &&
      bool_decide (pre_release_downs c ⊆ {[("gs-A", "sat-1")]}) &&
      Bool.eqb still_held
        (match actual_links st1 !! ("gs-A", "sat-1") with
         | Some held => bool_decide (("sat-1", "gnd0") ∈
                          ends_of ("gs-A", "sat-1") held ∩ ends_of ("gs-B", "sat-1") new_link)
         | None => false
         end)
  | Raise _ => false
  end.

Lemma obedient_release : handover_sent ∅ false = true.
Proof. vm_compute. reflexivity. Qed.
Lemma refused_release : handover_sent {[("gs-A", "sat-1")]} true = true.
Proof. vm_compute. reflexivity. Qed.

Lemma singleton_exclusive p info : exclusive_links {[p := info]}.
Proof. by intros x y i j [<- <-]%lookup_singleton_Some [<- <-]%lookup_singleton_Some. Qed.

Lemma obedient_down pairs :
  pairs ⊆ {[("gs-A", "sat-1")]} →
  ∀ r d, answer (Agents := scripted ∅) handed_over (DownBatch pairs) = Ok (r, d) →
    pairs ⊆ succeeded_pairs r.
Proof.
  intros H r d [= <- <-]. assert (pairs = ∅ ∨ pairs = {[("gs-A", "sat-1")]}) as [->| ->].
  { destruct (decide (("gs-A", "sat-1") ∈ pairs)); [right|left]; set_solver. }
  - set_solver.
  - apply singleton_subseteq_l. apply elem_of_filter. split; [|set_solver]. by vm_compute.
Qed.

Lemma acquire_never_collides_witness :
  ∃ c st1 nc failed ups, handover_stages ∅ = Ok (c, (st1, nc, failed), ups) ∧
    ("gs-B", "sat-1") ∈ ups ∧
    ∀ q held, actual_links st1 !! q = Some held →
      ends_of ("gs-B", "sat-1") new_link ## ends_of q held.
Proof.
  pose proof obedient_release as Hs. unfold handover_sent in Hs.
  destruct (handover_stages ∅) as [[[c [[st1 nc] failed]] ups]|e] eqn:E; [|done].
  apply andb_true_iff in Hs as [[Hin%bool_decide_eq_true Hd%bool_decide_eq_true]%andb_true_iff _].
  exists c, st1, nc, failed, ups. split; [exact eq_refl|]. split; [exact Hin|]. intros q held Hq.
  destruct (handover_stages_Ok _ _ _ _ _ _ E) as (Ec & Ep & Eu).
  refine (acquire_never_collides two_stations both_mbb (scripted ∅) handed_over [] handover_target ∅ c
    st1 nc failed ups _ _ q held (singleton_exclusive _ _) (singleton_exclusive _ _) _ Ec
    (obedient_down _ Hd) Ep Eu Hin _ Hq); [|reflexivity].
  unfold handed_over, handover_target. cbn [actual_links].
  by intros r i j [<- <-]%lookup_singleton_Some [? _]%lookup_singleton_Some.
Defined.

(** a release that fails at one station does not stop the other station's
    acquire: when the agents refuse to release [sat-1] from station A, station
    B's link to the same satellite terminal is still acquired while the
    Scheduler tracks A's link on it. *)
Theorem failed_release_collides :
  ∃ c st1 nc failed ups held,
    handover_stages {[("gs-A", "sat-1")]} = Ok (c, (st1, nc, failed), ups) ∧
    ("gs-B", "sat-1") ∈ ups ∧ actual_links st1 !! ("gs-A", "sat-1") = Some held ∧
    ("sat-1", "gnd0") ∈ ends_of ("gs-A", "sat-1") held ∩ ends_of ("gs-B", "sat-1") new_link.
Proof.
  pose proof refused_release as Hs. unfold handover_sent in Hs.
  destruct (handover_stages _) as [[[c [[st1 nc] failed]] ups]|e]; [|done].
  apply andb_true_iff in Hs as [[Hin%bool_decide_eq_true _]%andb_true_iff Hh].
  destruct (actual_links st1 !! _) as [held|] eqn:Ea; [|done].
  exists c, st1, nc, failed, ups, held. apply eqb_prop, symmetry, bool_decide_eq_true in Hh. by split_and!.
Qed.

(** One terminal, two links. *)
Definition one_terminal : SchedulerConfig :=
  {| cfg_interface_map := ∅; cfg_gs_capacities := {["gs-A" := 1]};
     cfg_sat_capacities := {["sat-1" := 1; "sat-2" := 1]}; cfg_long_delay_pairs := ∅ |}.
Definition idle : Tracked :=
  {| actual_links := ∅; last_latencies := ∅; gs_active := ∅; sat_active := ∅ |}.
Definition two_links : MbbClassification :=
  {| isl_downs := ∅; isl_ups := ∅; gs_downs := ∅;
     gs_ups := {["gs-A" := {[("gs-A", "sat-1"); ("gs-A", "sat-2")]}]}; mbb_segments := ∅;
     bbm_segments := {["gs-A"]} |}.

Lemma two_links_sent : is_Ok (acquire_ups one_terminal idle two_links ∅) = true.
Proof. vm_compute. reflexivity. Qed.

Lemma bbm_reservation_uncounted_witness :
  ∃ ups, acquire_ups one_terminal idle two_links ∅ = Ok ups ∧
    ("gs-A", "sat-1") ∈ ups ∧ ("gs-A", "sat-2") ∈ ups.
Proof.
  pose proof two_links_sent as Hok.
  destruct (acquire_ups one_terminal idle two_links ∅) as [ups|e] eqn:E; [|done].
  exists ups. split; [exact eq_refl|]. split.
  - refine (bbm_reservation_uncounted one_terminal idle two_links ∅ ups "gs-A" _ "sat-1" 1 1 E
      _ _ _ _ _ _ _ _); [evaluated..|lia].
  - refine (bbm_reservation_uncounted one_terminal idle two_links ∅ ups "gs-A" _ "sat-2" 1 1 E
      _ _ _ _ _ _ _ _); [evaluated..|lia].
Defined.
