(* ===== verification/ContactDrain.v ===== *)
(** * Long-delay contacts ([services/scheduler/contact_drain.py])

    A link whose light time is long does not end when OME says so: both
    transmitters stop, and each end closes when the last packet sent toward it
    has arrived.  This file has the plan of one reconcile over those contacts,
    the drains of a stopped and of a recovered contact, and the timer that closes
    their ends.

    Mappings are finite maps; [next_close_due] takes the smallest close over all
    of them, which for numbers does not depend on their order. *)

From S2P Require Import Prelude.
From S2P Require Import PyFloat.
From S2P Require Import PyData.
From S2P Require Import PyTime.
From S2P Require Import GroundTypes.
From S2P Require Import EventDiff.
From S2P Require Import DesiredState.
From S2P Require Import Authority.
From S2P Require Import DispatchPlanner.
From stdpp Require Import base list strings gmap.
Local Open Scope Z_scope.

(** ** The plan *)

Inductive ForcedCause := forced_seek | forced_scenario.

Record LongDelayPlan := {
  lp_forced : gmap node_pair ForcedCause;
  lp_stop : gset node_pair;
  lp_open : gset node_pair;
  lp_latency : gset node_pair;
  lp_relocate : gset node_pair;
}.

(** The [empty] property. *)
Definition lp_empty (plan : LongDelayPlan) : bool :=
  bool_decide (lp_forced plan = ∅) && bool_decide (lp_stop plan = ∅) &&
  bool_decide (lp_open plan = ∅) && bool_decide (lp_latency plan = ∅) &&
  bool_decide (lp_relocate plan = ∅).

(** [terminals]. *)
Definition terminals (info : ActiveLinkInfo) : string * string := (interface_a info, interface_b info).

(** What one pass of the loop adds for its pair. *)
Record PairPlan := {
  pp_forced : option ForcedCause;
  pp_stop : bool;
  pp_open : bool;
  pp_latency : bool;
  pp_relocate : bool;
}.

Definition pp_nothing : PairPlan :=
  {| pp_forced := None; pp_stop := false; pp_open := false; pp_latency := false;
     pp_relocate := false |}.

Section Plan.
Context (epoch_id : Z) (down_reasons : gmap node_pair string) (latency_tolerance_ms : float).

(** The contact of a long-delay record. *)
Definition contact_of_record (info : option ActiveLinkInfo) : result (option Contact) :=
  match info with
  | None => Ok None
  | Some i =>
      let! c := or_raise (contact i)
        (ValueError "long-delay link has no contact in the link record") in
      Ok (Some c)
  end.

(** Whether the held contact belongs to an epoch a seek ended. *)
Definition seeked_away (held : option ActiveLinkInfo) : bool :=
  match held ≫= contact with Some c => ct_epoch_id c <? epoch_id | None => false end.

(** The body of the loop of [plan_long_delay_contacts]. *)
Definition plan_pair (p : node_pair) (held wanted : option ActiveLinkInfo) : result PairPlan :=
  let! _ := contact_of_record held in
  let! _ := contact_of_record wanted in
  Ok (if seeked_away held then
        {| pp_forced := Some forced_seek; pp_stop := false; pp_open := negb (is_none wanted);
           pp_latency := false; pp_relocate := false |}
      else
      match wanted, held with
      | None, None => pp_nothing
      | None, Some h =>
          if negb (is_none (down_reasons !! p)) then
            {| pp_forced := Some forced_scenario; pp_stop := false; pp_open := false;
               pp_latency := false; pp_relocate := false |}
          else
            {| pp_forced := None; pp_stop := is_none (drain h); pp_open := false;
               pp_latency := false; pp_relocate := false |}
      | Some w, None =>
          {| pp_forced := None; pp_stop := false; pp_open := true; pp_latency := false;
             pp_relocate := false |}
      | Some w, Some h =>
          let renamed := negb (bool_decide (contact h = contact w)) in
          if renamed && negb (bool_decide (terminals h = terminals w)) then
            {| pp_forced := None; pp_stop := is_none (drain h); pp_open := true;
               pp_latency := false; pp_relocate := true |}
          else if negb (is_none (drain h)) || renamed then
            {| pp_forced := None; pp_stop := false; pp_open := true; pp_latency := false;
               pp_relocate := false |}
          else
            {| pp_forced := None; pp_stop := false; pp_open := false;
               pp_latency := geometry_changed latency_tolerance_ms h w; pp_relocate := false |}
      end).

Definition add_if (b : bool) (p : node_pair) (s : gset node_pair) : gset node_pair :=
  if b then {[p]} ∪ s else s.

Definition plan_add (acc : LongDelayPlan) (p : node_pair) (pp : PairPlan) : LongDelayPlan :=
  {| lp_forced := match pp_forced pp with Some c => <[p := c]> (lp_forced acc)
                                        | None => lp_forced acc end;
     lp_stop := add_if (pp_stop pp) p (lp_stop acc);
     lp_open := add_if (pp_open pp) p (lp_open acc);
     lp_latency := add_if (pp_latency pp) p (lp_latency acc);
     lp_relocate := add_if (pp_relocate pp) p (lp_relocate acc) |}.

(** [plan_long_delay_contacts]. *)
Definition plan_long_delay_contacts (actual desired : Links) : result LongDelayPlan :=
  foldM (λ acc p,
      let! pp := plan_pair p (actual !! p) (desired !! p) in
      Ok (plan_add acc p pp))
    {| lp_forced := ∅; lp_stop := ∅; lp_open := ∅; lp_latency := ∅; lp_relocate := ∅ |}
    (sorted_set npair_lt (dom actual ∪ dom desired)).
End Plan.

(** ** Ends *)

(** [end_terminals]: each end's interface by node; a dict display keeps the last
    of two equal keys. *)
Definition end_terminals (p : node_pair) (info : ActiveLinkInfo) : gmap string string :=
  <[p.2 := interface_b info]> {[p.1 := interface_a info]}.

(** [draining_terminals]. *)
Definition draining_terminals (info : ActiveLinkInfo) : gset (string * string) :=
  match drain info with
  | None => ∅
  | Some d => list_to_set (map (λ e, (de_node_id e, de_interface e)) (dr_ends d))
  end.

(** [ends_on]. *)
Definition ends_on (info : ActiveLinkInfo) (wanted : gset (string * string)) : gset string :=
  match drain info with
  | None => ∅
  | Some d => list_to_set (map de_node_id
      (List.filter (λ e, bool_decide ((de_node_id e, de_interface e) ∈ wanted)) (dr_ends d)))
  end.

(** [remaining_ends]. *)
Definition remaining_ends (p : node_pair) (info : ActiveLinkInfo) : gset string :=
  match drain info with
  | None => {[p.1; p.2]}
  | Some d => list_to_set (map de_node_id (dr_ends d))
  end.

(** ** Drains *)

(** One end of [start_drain]. *)
Definition start_end (info : ActiveLinkInfo) (stopped_mono : float) (stopped_wall : datetime)
    (node_id interface : string) (receive_ms : float) : result DrainingEnd :=
  let! wait := timedelta_us 1000 receive_ms in
  let! until := datetime_add stopped_wall wait in
  let! cid := end_contact_id info node_id in
  Ok {| de_node_id := node_id; de_interface := interface;
        de_close_due := fadd stopped_mono (fdiv receive_ms f_1000);
        de_receives_until := until; de_contact_id := cid |}.

(** [start_drain]. *)
Definition start_drain (p : node_pair) (info : ActiveLinkInfo) (stopped_mono : float)
    (stopped_wall : datetime) (reason : string) : result Drain :=
  let! a := start_end info stopped_mono stopped_wall p.1 (interface_a info) (latency_b_to_a_ms info) in
  let! b := start_end info stopped_mono stopped_wall p.2 (interface_b info) (latency_a_to_b_ms info) in
  Ok {| dr_stopped_at := stopped_wall; dr_reason := reason; dr_ends := [a; b]; dr_closed := [] |}.

Definition RECOVERED_REASON : string := "scheduler_restart".

(** [recover_drain]. *)
Definition recover_drain (p : node_pair) (info : ActiveLinkInfo) (carried : gmap string string)
    (stopped_mono : float) (stopped_wall : datetime) (longest_delay_s : float) : result Drain :=
  raise_if bool_decide (carried = ∅) || negb (bool_decide (dom carried ⊆ {[p.1; p.2]}))
    with ValueError "a recovered drain needs ends of the pair" ;;
  let! ends := mapM_r (λ node_id,
      let! interface := or_raise (end_terminals p info !! node_id) (KeyError "interfaces") in
      let! wait := timedelta_us 1000000 longest_delay_s in
      let! until := datetime_add stopped_wall wait in
      let! cid := or_raise (carried !! node_id) (KeyError "carried") in
      Ok {| de_node_id := node_id; de_interface := interface;
            de_close_due := fadd stopped_mono longest_delay_s;
            de_receives_until := until; de_contact_id := cid |})
    (List.filter (λ n, negb (is_none (carried !! n))) [p.1; p.2]) in
  Ok {| dr_stopped_at := stopped_wall; dr_reason := RECOVERED_REASON; dr_ends := ends;
        dr_closed := [] |}.

(** ** Closing *)

Definition ready_ends (now_mono : float) (d : Drain) : gset string :=
  list_to_set (map de_node_id (List.filter (λ e, fle (de_close_due e) now_mono) (dr_ends d))).

(** [due_ends]. *)
Definition due_ends (actual : Links) (now_mono : float) : gmap node_pair (gset string) :=
  omap (λ info,
    d ← drain info;
    let ready := ready_ends now_mono d in
    if bool_decide (ready = ∅) then None else Some ready) actual.

(** Every close of a record that drains. *)
Definition closes {K} `{Countable K} (actual : gmap K ActiveLinkInfo) : list float :=
  map_to_list actual ≫= λ x, match drain x.2 with
                             | Some d => map de_close_due (dr_ends d) | None => [] end.

(** [next_close_due]. *)
Definition next_close_due {K} `{Countable K} (actual : gmap K ActiveLinkInfo) : option float :=
  match closes actual with [] => None | t :: rest => Some (fold_left fmin rest t) end.

(** ** The plan, pair by pair *)

(** What a plan does with one pair. *)
Definition planned (plan : LongDelayPlan) (p : node_pair) : PairPlan :=
  {| pp_forced := lp_forced plan !! p; pp_stop := bool_decide (p ∈ lp_stop plan);
     pp_open := bool_decide (p ∈ lp_open plan); pp_latency := bool_decide (p ∈ lp_latency plan);
     pp_relocate := bool_decide (p ∈ lp_relocate plan) |}.

Lemma add_if_self b p s : p ∉ s → bool_decide (p ∈ add_if b p s) = b.
Proof. intros H. destruct b; simpl; [apply bool_decide_eq_true; set_solver|by apply bool_decide_eq_false]. Qed.
Lemma add_if_other b p q s : q ≠ p → bool_decide (q ∈ add_if b p s) = bool_decide (q ∈ s).
Proof. intros H. apply bool_decide_ext. destruct b; simpl; set_solver. Qed.

Lemma planned_self acc p pp : planned acc p = pp_nothing → planned (plan_add acc p pp) p = pp.
Proof.
  intros H. unfold planned, pp_nothing in H.
  injection H as Hf Hs%bool_decide_eq_false Ho%bool_decide_eq_false Hl%bool_decide_eq_false
    Hr%bool_decide_eq_false.
  destruct pp as [f s o l r]. unfold planned, plan_add. simpl. rewrite !add_if_self by done. f_equal.
  destruct f; [by rewrite lookup_insert_eq|done].
Qed.

Lemma planned_other acc p q pp : q ≠ p → planned (plan_add acc p pp) q = planned acc q.
Proof.
  intros H. unfold planned, plan_add. simpl. rewrite !add_if_other by done. f_equal.
  destruct (pp_forced pp); [by rewrite lookup_insert_ne|done].
Qed.

(** The loop decides each pair on its own. *)
Lemma plan_spec epoch down tol actual desired plan p :
  plan_long_delay_contacts epoch down tol actual desired = Ok plan →
  plan_pair epoch down tol p (actual !! p) (desired !! p) = Ok (planned plan p).
Proof.
  intros H. pose proof (NoDup_sorted_set npair_lt (dom actual ∪ dom desired)) as Hnd.
  pose proof (elem_of_sorted_set npair_lt (dom actual ∪ dom desired) p) as Hin.
  unfold plan_long_delay_contacts in H. revert Hnd Hin H.
  generalize (sorted_set npair_lt (dom actual ∪ dom desired)) as l. intros l Hnd Hin H.
  assert (if decide (p ∈ l) then
            plan_pair epoch down tol p (actual !! p) (desired !! p) = Ok (planned plan p)
          else planned plan p = pp_nothing) as Hp.
  { refine (foldM_prefix (λ pre acc, if decide (p ∈ pre) then
      plan_pair epoch down tol p (actual !! p) (desired !! p) = Ok (planned acc p)
      else planned acc p = pp_nothing) _ _ _ _ _ _ H); [|done].
    intros pre x post acc acc' Hl IH Hx. rbind Hx as pp Hpp. injection Hx as <-.
    destruct (decide (x = p)) as [->|Hne].
    - rewrite (decide_True (P := p ∈ pre ++ [p])) by set_solver.
      rewrite decide_False in IH by (rewrite Hl in Hnd; apply NoDup_app in Hnd; set_solver).
      by rewrite planned_self.
    - rewrite planned_other by done.
      destruct (decide (p ∈ pre)), (decide (p ∈ pre ++ [x])); [done|set_solver..|done]. }
  destruct (decide (p ∈ l)) as [|Hn]; [done|]. rewrite Hin in Hn.
  rewrite elem_of_union, !elem_of_dom in Hn.
  assert (actual !! p = None ∧ desired !! p = None) as [-> ->].
  { split; apply eq_None_not_Some; intros ?; apply Hn; [by left|by right]. }
  by rewrite Hp.
Qed.

Lemma planned_mem plan p :
  (p ∈ lp_stop plan ↔ pp_stop (planned plan p) = true) ∧
  (p ∈ lp_open plan ↔ pp_open (planned plan p) = true) ∧
  (p ∈ lp_latency plan ↔ pp_latency (planned plan p) = true) ∧
  (p ∈ lp_relocate plan ↔ pp_relocate (planned plan p) = true).
Proof. simpl. by rewrite !bool_decide_eq_true. Qed.

(** a reconcile never cuts a long-delay contact short on its own: at once
    ends only a contact of an epoch a seek left, or one a scenario command
    removed; a contact OME still desires is left alone while it is open; an
    undesired one is stopped, not closed, and once draining it is left to drain;
    a desired contact opens unless it is the one open; and a contact that moves
    to other terminals leaves the held one stopped or draining. *)
Theorem plan_lets_contacts_drain epoch down tol actual desired plan p :
  plan_long_delay_contacts epoch down tol actual desired = Ok plan →
  (lp_forced plan !! p = Some forced_seek ↔
     ∃ held c, actual !! p = Some held ∧ contact held = Some c ∧ ct_epoch_id c < epoch) ∧
  (lp_forced plan !! p = Some forced_scenario →
     is_Some (actual !! p) ∧ desired !! p = None ∧ is_Some (down !! p)) ∧
  (p ∈ lp_stop plan → lp_forced plan !! p = None ∧
     ∃ held, actual !! p = Some held ∧ drain held = None ∧
       ∀ wanted, desired !! p = Some wanted →
         contact held ≠ contact wanted ∧ terminals held ≠ terminals wanted) ∧
  (∀ wanted, desired !! p = Some wanted →
     (p ∉ lp_open plan ↔ ∃ held, actual !! p = Some held ∧ lp_forced plan !! p = None ∧
        contact held = contact wanted ∧ drain held = None)) ∧
  (p ∈ lp_open plan → is_Some (desired !! p) ∧ p ∉ lp_latency plan) ∧
  (p ∈ lp_relocate plan → p ∈ lp_open plan ∧ lp_forced plan !! p = None ∧
     ∃ held, actual !! p = Some held ∧ (p ∈ lp_stop plan ∨ drain held ≠ None)) ∧
  (∀ held, actual !! p = Some held → desired !! p = None → lp_forced plan !! p = None →
     drain held = None → p ∈ lp_stop plan).
Proof.
  intros H%(plan_spec _ _ _ _ _ _ p). destruct (planned_mem plan p) as (Es & Eo & El & Er).
  assert (lp_forced plan !! p = pp_forced (planned plan p)) as -> by done.
  setoid_rewrite Es. setoid_rewrite Eo. setoid_rewrite El. setoid_rewrite Er.
  clear Es Eo El Er. destruct (planned plan p) as [f s o l r].
  unfold plan_pair in H. rbind H as ch Hh. rbind H as cw Hw.
  injection H as H. unfold seeked_away, is_none in H.
  destruct (actual !! p) as [h|], (desired !! p) as [w|]; simpl in *.
  all: try (destruct (contact h) as [c|] eqn:Hc; [|discriminate Hh]).
  all: try (destruct (contact w) as [c'|] eqn:Hc'; [|discriminate Hw]).
  all: clear Hh Hw; simpl in *; try destruct (Z.ltb_spec (ct_epoch_id c) epoch).
  all: destruct (down !! p); simpl in *; try (destruct (drain h) eqn:?; simpl in *).
  all: repeat (case_bool_decide; simpl in *).
  all: unfold pp_nothing in H; injection H as <- <- <- <- <-.
  all: split_and!; intros; try (split; intros);
    try solve [eauto | naive_solver (first [lia | congruence])].
Qed.

(** ** The drain timer *)

Lemma fmin_not_nan l t : Forall not_nan (t :: l) → not_nan (fold_left fmin l t).
Proof.
  revert t. induction l as [|x l IH]; intros t Hl; simpl; [by inversion Hl|].
  apply IH. inversion Hl as [|?? H1 H2]; subst. inversion H2; subst.
  constructor; [|done]. unfold fmin. by destruct (flt x t).
Qed.

(** The smallest of a list is reached exactly when one of its members is. *)
Lemma fle_fold_fmin l t now :
  Forall not_nan (t :: l) → not_nan now →
  fle (fold_left fmin l t) now = true ↔ ∃ x, x ∈ t :: l ∧ fle x now = true.
Proof.
  intros Hl Hn. revert t Hl. induction l as [|x l IH]; intros t Hl; simpl.
  - split; [eauto using list_elem_of_here|by intros (y & ->%list_elem_of_singleton & ?)].
  - inversion Hl as [|?? Ht Hl']; subst. inversion Hl' as [|?? Hx Hl'']; subst.
    rewrite IH by (constructor; [unfold fmin; by destruct (flt x t)|done]).
    setoid_rewrite elem_of_cons. split.
    + intros (y & [->|Hy] & Hle); [|exists y; set_solver].
      unfold fmin in *. destruct (flt x t); [exists x|exists t]; set_solver.
    + intros (y & [->|[->|Hy]%elem_of_cons] & Hle); [| |exists y; by auto].
      all: exists (fmin t x); split; [by left|]; unfold fmin; destruct (flt x t) eqn:E; [|try done].
      * rewrite fle_flt in * by done. apply negb_true_iff in Hle. apply negb_true_iff.
        apply not_true_iff_false. intros H. apply not_true_iff_false in Hle. apply Hle.
        eapply (swo_trans (lt := flt) (P := not_nan)); [done..|exact H|exact E].
      * done.
      * rewrite fle_flt in * by done. apply negb_true_iff in Hle. apply negb_true_iff.
        apply not_true_iff_false. intros H. apply not_true_iff_false in Hle.
        destruct (swo_neg_trans (lt := flt) (P := not_nan) now x t) as [?|?]; [done..|congruence].
Qed.

Lemma elem_of_closes {K} `{Countable K} (actual : gmap K ActiveLinkInfo) t :
  t ∈ closes actual ↔
  ∃ p info d e, actual !! p = Some info ∧ drain info = Some d ∧ e ∈ dr_ends d ∧ t = de_close_due e.
Proof.
  unfold closes. rewrite list_elem_of_bind. split.
  - intros ([p info] & Ht & Hin%elem_of_map_to_list). simpl in Ht.
    destruct (drain info) as [d|] eqn:E; [|by apply elem_of_nil in Ht].
    apply list_elem_of_fmap in Ht as (e & -> & He). by eauto 10.
  - intros (p & info & d & e & Hp & Hd & He & ->). exists (p, info). simpl. rewrite Hd.
    split; [by apply list_elem_of_fmap_2|by apply elem_of_map_to_list].
Qed.

Lemma elem_of_ready_ends now d n :
  n ∈ ready_ends now d ↔ ∃ e, e ∈ dr_ends d ∧ de_node_id e = n ∧ fle (de_close_due e) now = true.
Proof.
  unfold ready_ends. rewrite elem_of_list_to_set, list_elem_of_fmap. setoid_rewrite in_filter_bool.
  naive_solver.
Qed.

Lemma due_ends_lookup actual now p s :
  due_ends actual now !! p = Some s ↔
  ∃ info d, actual !! p = Some info ∧ drain info = Some d ∧ s = ready_ends now d ∧ s ≠ ∅.
Proof.
  unfold due_ends. rewrite lookup_omap. destruct (actual !! p) as [info|]; simpl; [|naive_solver].
  destruct (drain info) as [d|] eqn:E; simpl; [|naive_solver]. case_bool_decide; naive_solver.
Qed.

(** No close is NaN. *)
Definition closes_ok (actual : Links) : Prop := Forall not_nan (closes actual).

Lemma timer_exact actual now :
  closes_ok actual → not_nan now →
  due_ends actual now ≠ ∅ ↔ ∃ t, next_close_due actual = Some t ∧ fle t now = true.
Proof.
  intros Hok Hn. transitivity (∃ t, t ∈ closes actual ∧ fle t now = true).
  - split.
    + intros (p & s & H)%map_choose.
      apply due_ends_lookup in H as (info & d & Hp & Hd & Hs & (n & Hne)%set_choose_L).
      rewrite Hs in Hne. apply elem_of_ready_ends in Hne as (e & He & _ & Hle).
      exists (de_close_due e). split; [apply elem_of_closes; by eauto 10|done].
    + intros (t & (p & info & d & e & Hp & Hd & He & ->)%elem_of_closes & Hle) Hempty.
      assert (due_ends actual now !! p = Some (ready_ends now d)) as Hs.
      { apply due_ends_lookup. exists info, d. split_and!; [done..|]. intros Hr.
        apply (not_elem_of_empty (C := gset string) (de_node_id e)). rewrite <- Hr.
        apply elem_of_ready_ends. by exists e. }
      by rewrite Hempty, lookup_empty in Hs.
  - unfold closes_ok, next_close_due in *. destruct (closes actual) as [|t0 l].
    + split; [by intros (t & ?%elem_of_nil & _)|by intros (t & ? & _)].
    + rewrite <- fle_fold_fmin by done. naive_solver.
Qed.

Lemma start_drain_ends p info mono wall reason d :
  start_drain p info mono wall reason = Ok d →
  ∃ a b, dr_ends d = [a; b] ∧
    (de_node_id a, de_interface a) = (p.1, interface_a info) ∧
    (de_node_id b, de_interface b) = (p.2, interface_b info) ∧
    de_close_due a = fadd mono (fdiv (latency_b_to_a_ms info) f_1000) ∧
    de_close_due b = fadd mono (fdiv (latency_a_to_b_ms info) f_1000).
Proof.
  unfold start_drain, start_end. intros H. rbind H as a Ha. rbind H as b Hb. injection H as <-.
  rbind Ha as wa Hwa. rbind Ha as ua Hua. rbind Ha as ca Hca. injection Ha as <-.
  rbind Hb as wb Hwb. rbind Hb as ub Hub. rbind Hb as cb Hcb. injection Hb as <-.
  simpl. eauto 10.
Qed.

(** a drained end closes when the last packet sent toward it has arrived and
    not before: of a contact whose drain started at [mono], the first node's end
    is due once the light time of the direction from the second node has passed
    and the second node's once that of the other direction has; and the timer
    fires exactly when some end is due. *)
Theorem drain_closes_on_time actual now p info held d mono wall reason :
  closes_ok actual → not_nan now →
  start_drain p info mono wall reason = Ok d →
  actual !! p = Some held → drain held = Some d →
  (∀ n, (∃ ready, due_ends actual now !! p = Some ready ∧ n ∈ ready) ↔
     (n = p.1 ∧ fle (fadd mono (fdiv (latency_b_to_a_ms info) f_1000)) now = true) ∨
     (n = p.2 ∧ fle (fadd mono (fdiv (latency_a_to_b_ms info) f_1000)) now = true)) ∧
  (due_ends actual now ≠ ∅ ↔ ∃ t, next_close_due actual = Some t ∧ fle t now = true).
Proof.
  intros Hok Hn Hs Ha Hd. split; [|by apply timer_exact]. intros n.
  destruct (start_drain_ends _ _ _ _ _ _ Hs) as (a & b & He & [= Hna _] & [= Hnb _] & Hca & Hcb).
  rewrite <- Hca, <- Hcb, <- Hna, <- Hnb.
  transitivity (n ∈ ready_ends now d); [|rewrite elem_of_ready_ends, He; set_solver].
  setoid_rewrite due_ends_lookup. split.
  - intros (ready & (i & d' & Hi & Hd' & -> & _) & Hin). naive_solver.
  - intros Hin. exists (ready_ends now d). split; [|done]. exists held, d. set_solver.
Qed.

(** ** A contact that ends *)

(** 500 s one way and 400 s the other. *)
Definition far_link (opened : datetime) (d : option Drain) : ActiveLinkInfo :=
  {| interface_a := "isl0"; interface_b := "isl1"; latency_a_to_b_ms := float_of_Z 500000;
     latency_b_to_a_ms := float_of_Z 400000; commanded_netem_ms := None; link_type := isl_link;
     range_km := Some (float_of_Z 135000000); authority_sim_time := Some 0;
     authority_source := Some "link_state_snapshot"; authority_sequence := Some 1;
     contact := Some {| ct_epoch_id := 3; ct_opened_at := opened |}; drain := d;
     stage_losses := ∅ |}.
Definition far_pair : node_pair := ("mars-relay", "terra-relay").

Definition far_drain : result Drain :=
  start_drain far_pair (far_link 0 None) (float_of_Z 10) 1000000 "contact_ended".
Definition far_actual (d : Drain) : Links := {[far_pair := far_link 0 (Some d)]}.
Definition far_ok : bool :=
  match far_drain with
  | Ok d => bool_decide (Forall (λ t, is_nan t = false) (closes (far_actual d)))
  | Raise _ => false
  end.

Lemma drain_closes_on_time_witness :
  ∃ d, far_drain = Ok d ∧ due_ends (far_actual d) (float_of_Z 420) ≠ ∅ ∧
    ∀ ready, due_ends (far_actual d) (float_of_Z 420) !! far_pair = Some ready → "terra-relay" ∉ ready.
Proof.
  assert (far_ok = true) as Hok by evaluated. unfold far_ok in Hok.
  destruct far_drain as [d|] eqn:E; [|discriminate Hok]. apply bool_decide_eq_true in Hok.
  destruct (drain_closes_on_time (far_actual d) (float_of_Z 420) far_pair (far_link 0 None)
    (far_link 0 (Some d)) d (float_of_Z 10) 1000000 "contact_ended" Hok eq_refl E
    (lookup_singleton_eq _ _) eq_refl) as [Hends _].
  exists d. split; [exact eq_refl|]. split.
  - intros Hempty. destruct (proj2 (Hends "mars-relay")) as (ready & Hr & _); [left; evaluated|].
    rewrite Hempty in Hr. discriminate Hr.
  - intros ready Hr Hin.
    destruct (proj1 (Hends "terra-relay") (ex_intro _ ready (conj Hr Hin))) as [[? _]|[_ H]];
      [discriminate|]. vm_compute in H. discriminate H.
Defined.

(** The same contact, no longer desired: stopped, not closed. *)
Definition far_plan : result LongDelayPlan :=
  plan_long_delay_contacts 3 ∅ f_1e_9 {[far_pair := far_link 0 None]} ∅.

Lemma plan_lets_contacts_drain_witness :
  ∃ plan, far_plan = Ok plan ∧ lp_forced plan = ∅ ∧ far_pair ∈ lp_stop plan.
Proof.
  assert (match far_plan with Ok plan => bool_decide (lp_forced plan = ∅) | _ => false end = true)
    as Hok by evaluated.
  destruct far_plan as [plan|] eqn:E; [|discriminate Hok]. apply bool_decide_eq_true in Hok.
  exists plan. split; [exact eq_refl|]. split; [exact Hok|].
  destruct (plan_lets_contacts_drain 3 ∅ f_1e_9 {[far_pair := far_link 0 None]} ∅ plan far_pair E)
    as (_ & _ & _ & _ & _ & _ & H).
  refine (H (far_link 0 None) (lookup_singleton_eq _ _) (lookup_empty _) _ eq_refl).
  by rewrite Hok.
Defined.
