(* ===== verification/Sha256.v ===== *)
(** * SHA-256

    The hash of Python's [hashlib.sha256], which names the VXLAN tunnel of a link
    (FIPS 180-4).  Words are 32-bit integers, bytes 8-bit ones; a text is the
    bytes of its UTF-8 encoding. *)

From S2P Require Import Prelude.
From stdpp Require Import base list strings.
From Stdlib Require Import ZArith Lia Ascii.
Local Open Scope Z_scope.

Definition word : Z := 2 ^ 32.
Definition wadd (x y : Z) : Z := (x + y) mod word.
Definition rotr (n x : Z) : Z := Z.lor (Z.shiftr x n) (Z.shiftl x (32 - n) mod word).
Definition wnot (x : Z) : Z := word - 1 - x.
Definition xor3 (a b c : Z) : Z := Z.lxor a (Z.lxor b c).

Definition Ch (x y z : Z) : Z := Z.lxor (Z.land x y) (Z.land (wnot x) z).
Definition Maj (x y z : Z) : Z := xor3 (Z.land x y) (Z.land x z) (Z.land y z).
Definition Sigma0 (x : Z) : Z := xor3 (rotr 2 x) (rotr 13 x) (rotr 22 x).
Definition Sigma1 (x : Z) : Z := xor3 (rotr 6 x) (rotr 11 x) (rotr 25 x).
Definition sigma0 (x : Z) : Z := xor3 (rotr 7 x) (rotr 18 x) (Z.shiftr x 3).
Definition sigma1 (x : Z) : Z := xor3 (rotr 17 x) (rotr 19 x) (Z.shiftr x 10).

(** The round constants and the initial hash value: the first 32 bits of the
    fractional parts of the cube roots of the first 64 primes, and of the square
    roots of the first eight.  [root_above] is the largest [r + d] with
    [(r + d) ^ k <= n], [d] below [2 ^ bits]. *)
Fixpoint root_above (k n : Z) (bits : nat) (r : Z) : Z :=
  match bits with
  | O => r
  | S bits =>
      let r' := r + 2 ^ Z.of_nat bits in
      root_above k n bits (if r' ^ k <=? n then r' else r)
  end.
Definition root_fraction (k p : Z) : Z := root_above k (Z.shiftl p (32 * k)) 37 0 mod word.

Fixpoint primes_from (fuel count : nat) (n : Z) (found : list Z) : list Z :=
  match fuel, count with
  | O, _ | _, O => found
  | S fuel, S count' =>
      if existsb (λ p, n mod p =? 0) found then primes_from fuel count (n + 1) found
      else primes_from fuel count' (n + 1) (found ++ [n])
  end.
Definition first_primes (count : nat) : list Z := primes_from 400 count 2 [].

Definition round_constants : list Z := Eval vm_compute in map (root_fraction 3) (first_primes 64).
Definition initial_hash : list Z := Eval vm_compute in map (root_fraction 2) (first_primes 8).

(** The message schedule of a block, the latest word first. *)
Fixpoint extend_schedule (n : nat) (latest : list Z) : list Z :=
  match n with
  | O => latest
  | S n =>
      let w i := nth i latest 0 in
      extend_schedule n
        (wadd (wadd (sigma1 (w 1%nat)) (w 6%nat)) (wadd (sigma0 (w 14%nat)) (w 15%nat)) :: latest)
  end.
Definition schedule (block : list Z) : list Z := rev (extend_schedule 48 (rev block)).

Definition round (h : list Z) (kw : Z * Z) : list Z :=
  match h with
  | [a; b; c; d; e; f; g; h] =>
      let t1 := wadd (wadd h (Sigma1 e)) (wadd (Ch e f g) (wadd kw.1 kw.2)) in
      let t2 := wadd (Sigma0 a) (Maj a b c) in
      [wadd t1 t2; a; b; c; wadd d t1; e; f; g]
  | _ => h
  end.

Definition compress (h block : list Z) : list Z :=
  zip_with wadd h (fold_left round (zip round_constants (schedule block)) h).

(** Padding: a one bit, zeros, and the length in bits in the last eight bytes. *)
Fixpoint be_bytes (n : nat) (x : Z) : list Z :=
  match n with O => [] | S n => be_bytes n (x / 256) ++ [x mod 256] end.
Definition pad (message : list Z) : list Z :=
  let len := Z.of_nat (length message) in
  message ++ [128] ++ replicate (Z.to_nat ((55 - len) mod 64)) 0 ++ be_bytes 8 (8 * len).

Fixpoint words_of (bytes : list Z) : list Z :=
  match bytes with
  | a :: b :: c :: d :: rest => ((a * 256 + b) * 256 + c) * 256 + d :: words_of rest
  | _ => []
  end.

(** Sixteen words a block. *)
Fixpoint blocks_of (n : nat) (words : list Z) : list (list Z) :=
  match n with O => [] | S n => take 16 words :: blocks_of n (drop 16 words) end.

Definition bytes_of (text : string) : list Z :=
  map (λ c, Z.of_N (N_of_ascii c)) (String.list_ascii_of_string text).

(** The digest of a text, as its eight words. *)
Definition sha256 (text : string) : list Z :=
  let words := words_of (pad (bytes_of text)) in
  fold_left compress (blocks_of (length words / 16) words) initial_hash.

(** [int(hashlib.sha256(key.encode()).hexdigest()[:8], 16)]: eight hexadecimal
    digits are the first word. *)
Definition digest_prefix (key : string) : Z := nth 0 (sha256 key) 0.

(** The standard's test vectors. *)
Example sha256_abc : sha256 "abc" =
  [0xba7816bf; 0x8f01cfea; 0x414140de; 0x5dae2223; 0xb00361a3; 0x96177a9c; 0xb410ff61; 0xf20015ad].
Proof. vm_compute. reflexivity. Qed.

Example sha256_two_blocks :
  sha256 "abcdbcdecdefdefgefghfghighijhijkijkljklmklmnlmnomnopnopq" =
  [0x248d6a61; 0xd20638b8; 0xe5c02693; 0x0c3e6039; 0xa33ce459; 0x64ff2167; 0xf6ecedd4; 0x19db06c1].
Proof. vm_compute. reflexivity. Qed.

(** Every word of a digest fits 32 bits. *)
Lemma compress_bounds h block x : x ∈ compress h block → 0 ≤ x < word.
Proof.
  unfold compress. generalize (fold_left round (zip round_constants (schedule block)) h) as t.
  induction h as [|a h IH]; intros [|b t]; simpl; rewrite ?elem_of_nil; [done..|].
  rewrite elem_of_cons. intros [->|H]; [|by eapply IH]. unfold wadd. apply Z.mod_pos_bound.
  unfold word. lia.
Qed.

Lemma sha256_bounds text x : x ∈ sha256 text → 0 ≤ x < word.
Proof.
  unfold sha256. generalize (words_of (pad (bytes_of text))) as words. intros words.
  assert (∀ blocks h, (∀ y, y ∈ h → 0 ≤ y < word) →
            x ∈ fold_left compress blocks h → 0 ≤ x < word) as H.
  { induction blocks as [|b blocks IH]; simpl; [auto|]. intros h _. apply IH.
    intros y. apply compress_bounds. }
  apply H. intros y Hy. apply list_elem_of_In in Hy. unfold word. simpl in Hy. intuition lia.
Qed.

Lemma digest_prefix_bounds key : 0 ≤ digest_prefix key < word.
Proof.
  unfold digest_prefix. destruct (nth_in_or_default 0 (sha256 key) 0) as [H| ->].
  - apply (sha256_bounds key). by apply list_elem_of_In.
  - unfold word. lia.
Qed.
