(* ===== verification/Placement.v ===== *)
(** * Placement and tunnels

    Where the session's pods run ([services/scheduler/pod_locator.py]) and the
    VXLAN identifier of a link or a site ([lib/nodalarc/vxlan.py]).  The
    Kubernetes API is the environment: [load_from_k8s_api] takes the two listings
    it reads. *)

From S2P Require Import Prelude.
From S2P Require Import PyData.
From S2P Require Import Sha256.
From S2P Require Import GroundTypes.
From stdpp Require Import base list strings gmap.
Local Open Scope Z_scope.

(** ** Pod locations *)

Record PodLocationMap := {
  node_of : gmap string string;
  node_ips : gmap string string;
  agent_addrs : gmap string string;
}.

Definition no_locations : PodLocationMap :=
  {| node_of := ∅; node_ips := ∅; agent_addrs := ∅ |}.

Inductive Locality := LOCALITY_LOCAL | LOCALITY_CROSS_NODE.
#[global] Instance locality_eq_dec : EqDecision Locality.
Proof. solve_decision. Defined.

Definition PodLocationError (what : string) : exn := Raised "PodLocationError" what.

Definition k3s_node (loc : PodLocationMap) (node_id : string) : result string :=
  or_raise (node_of loc !! node_id) (PodLocationError "no pod location for node").

Definition agent_addr (loc : PodLocationMap) (node_id : string) : result string :=
  let! k3s := k3s_node loc node_id in
  or_raise (agent_addrs loc !! k3s) (KeyError "_agent_addrs").

Definition node_ip (loc : PodLocationMap) (k3s : string) : result string :=
  or_raise (node_ips loc !! k3s) (PodLocationError "no InternalIP for Kubernetes node").

Definition link_locality (loc : PodLocationMap) (node_a node_b : string) : result Locality :=
  let! ka := k3s_node loc node_a in
  let! kb := k3s_node loc node_b in
  Ok (if bool_decide (ka = kb) then LOCALITY_LOCAL else LOCALITY_CROSS_NODE).

(** [locator.node_ip(locator.k3s_node(node_id))]. *)
Definition host_ip (loc : PodLocationMap) (node_id : string) : result string :=
  let! k3s := k3s_node loc node_id in node_ip loc k3s.

(** What the Kubernetes API lists. *)
Record Pod := { pod_labels : gmap string string; pod_node_name : option string }.
Record KubeNode := { kn_name : string; kn_addresses : list (string * string) }.

Definition NODE_ID_LABEL : string := "nodalarc.io/node-id".
Definition POD_SESSION_RUN_LABEL : string := "nodalarc.io/session-run-id".

(** An empty or absent text is false. *)
Definition text_of (s : option string) : option string :=
  match s with Some "" | None => None | _ => s end.

Section Load.
Context (expected : gset string) (session_id : string).

(** The session node a listed pod carries, if it is one of the active session. *)
Definition session_node (pod : Pod) : option string :=
  node_id ← text_of (pod_labels pod !! NODE_ID_LABEL);
  if bool_decide (node_id ∈ expected) &&
     bool_decide (pod_labels pod !! POD_SESSION_RUN_LABEL = Some session_id)
  then Some node_id else None.

Definition locate_pod (located : gmap string string) (pod : Pod) : result (gmap string string) :=
  match session_node pod with
  | None => Ok located
  | Some node_id =>
      raise_if negb (is_none (located !! node_id))
        with RuntimeError "Duplicate active session pod location" ;;
      Ok (match text_of (pod_node_name pod) with
          | None => located
          | Some k3s => <[node_id := k3s]> located
          end)
  end.

(** The first [InternalIP] of a node. *)
Definition internal_ip (node : KubeNode) : option string :=
  snd <$> find_first (λ a, bool_decide (a.1 = "InternalIP")) (kn_addresses node).

Definition add_node_ip (ips : gmap string string) (node : KubeNode) : gmap string string :=
  match internal_ip node with Some ip => <[kn_name node := ip]> ips | None => ips end.

Definition k3s_nodes_of (located : gmap string string) : gset string :=
  list_to_set (map snd (map_to_list located)).

(** [load_from_k8s_api]; [self] is the map before the call. *)
Definition load_from_k8s_api (self : PodLocationMap) (pods : list Pod) (nodes : list KubeNode) :
    result PodLocationMap :=
  raise_if bool_decide (expected = ∅) with ValueError "expected_node_ids must not be empty" ;;
  let! located := foldM locate_pod (node_of self) pods in
  raise_if negb (bool_decide (expected ⊆ dom located))
    with RuntimeError "Missing active session pod location(s)" ;;
  let k3s_nodes := k3s_nodes_of located in
  let agents := set_to_map (λ k3s, (k3s, k3s)) k3s_nodes ∪ agent_addrs self in
  let ips := fold_left add_node_ip nodes (node_ips self) in
  raise_if negb (bool_decide (k3s_nodes ⊆ dom ips))
    with PodLocationError "Kubernetes node(s) hosting session pods have no InternalIP" ;;
  Ok {| node_of := located; node_ips := ips; agent_addrs := agents |}.
End Load.

(** ** VXLAN identifiers *)

Definition VNI_MIN : Z := 1.
Definition VNI_MAX : Z := 16777214.

Definition end_lt : string * string → string * string → bool := pair_lt str_lt str_lt.

Definition compute_vni (node_a node_b iface_a iface_b : string) : Z :=
  let '(x, y) :=
    match sorted end_lt [(node_a, iface_a); (node_b, iface_b)] with
    | [x; y] => (x, y)
    | _ => ((node_a, iface_a), (node_b, iface_b))
    end in
  let key := x.1 +:+ ":" +:+ x.2 +:+ ":" +:+ y.1 +:+ ":" +:+ y.2 in
  digest_prefix key mod VNI_MAX + VNI_MIN.

Definition compute_site_vni (site_id : string) : Z :=
  digest_prefix ("site-lan:" +:+ site_id) mod VNI_MAX + VNI_MIN.

(** ** Loading locates every expected node *)

Lemma elem_of_k3s_nodes located k :
  k ∈ k3s_nodes_of located ↔ ∃ n, located !! n = Some k.
Proof.
  unfold k3s_nodes_of. rewrite elem_of_list_to_set, list_elem_of_fmap. split.
  - intros ([n k'] & -> & H%elem_of_map_to_list). eauto.
  - intros [n H]. exists (n, k). split; [done|]. by apply elem_of_map_to_list.
Qed.

Lemma lookup_agents located k :
  k ∈ k3s_nodes_of located →
  (set_to_map (λ k3s, (k3s, k3s)) (k3s_nodes_of located) : gmap string string) !! k = Some k.
Proof. intros H. apply lookup_set_to_map; [by intros ? ? _ _|]. eauto. Qed.

(** A located node is one the session's own pod carries, on that pod's node. *)
Lemma locate_pods_sound expected session_id pods located located' n k :
  foldM (locate_pod expected session_id) located pods = Ok located' →
  located' !! n = Some k →
  located !! n = Some k ∨
  ∃ pod, pod ∈ pods ∧ session_node expected session_id pod = Some n ∧
         text_of (pod_node_name pod) = Some k.
Proof.
  intros H Hn. revert Hn. refine (foldM_prefix (λ pre m, m !! n = Some k →
    located !! n = Some k ∨ ∃ pod, pod ∈ pre ∧ session_node expected session_id pod = Some n ∧
      text_of (pod_node_name pod) = Some k) _ _ _ _ _ _ H); [|by left].
  intros pre pod post m m' _ IH Hm Hn. unfold locate_pod in Hm.
  destruct (session_node expected session_id pod) as [n'|] eqn:En; [rguard Hm as E|];
    injection Hm as <-; [destruct (text_of (pod_node_name pod)) as [k'|] eqn:Ek;
      [destruct (decide (n' = n)) as [->|];
        [rewrite lookup_insert_eq in Hn; injection Hn as ->; right; exists pod; set_solver|
         rewrite lookup_insert_ne in Hn by done]|]|];
    destruct (IH Hn) as [?|(q & ? & ?)]; eauto; right; exists q; set_solver.
Qed.

(** ** Identifiers agree at both ends *)

Lemma compute_vni_bounds a b ia ib : VNI_MIN ≤ compute_vni a b ia ib ≤ VNI_MAX.
Proof.
  unfold compute_vni. destruct (match _ with [x; y] => _ | _ => _ end) as [x y].
  pose proof (Z.mod_pos_bound (digest_prefix
    (x.1 +:+ ":" +:+ x.2 +:+ ":" +:+ y.1 +:+ ":" +:+ y.2)) VNI_MAX) as H.
  unfold VNI_MIN, VNI_MAX in *. lia.
Qed.

Lemma compute_vni_sym a b ia ib : compute_vni a b ia ib = compute_vni b a ib ia.
Proof.
  unfold compute_vni. simpl.
  destruct (end_lt (b, ib) (a, ia)) eqn:E, (end_lt (a, ia) (b, ib)) eqn:E'; try done.
  - by rewrite (st_asym end_lt _ _ E) in E'.
  - assert ((a, ia) = (b, ib)) as [= -> ->] by by apply (st_total (lt := end_lt)).
    done.
Qed.

(** a loaded session is dispatchable as a whole.  When loading succeeds,
    the located nodes are exactly the expected ones; each is placed by a pod of
    this session that carries its label and is scheduled on a Kubernetes node,
    and its agent and that node's address are known, so no later lookup of an
    expected node fails. *)
Theorem load_locates_session expected session_id pods nodes loc :
  load_from_k8s_api expected session_id no_locations pods nodes = Ok loc →
  dom (node_of loc) = expected ∧
  ∀ n, n ∈ expected → ∃ k ip pod,
    k3s_node loc n = Ok k ∧ agent_addr loc n = Ok k ∧ host_ip loc n = Ok ip ∧
    pod ∈ pods ∧ pod_labels pod !! NODE_ID_LABEL = Some n ∧
    pod_labels pod !! POD_SESSION_RUN_LABEL = Some session_id ∧ pod_node_name pod = Some k.
Proof.
  unfold load_from_k8s_api. intros H. rguard H as Hne. rbind H as located Hloc.
  rguard H as Hmiss. rguard H as Hip. injection H as <-. simpl.
  assert (∀ n k, located !! n = Some k → ∃ pod, pod ∈ pods ∧
    pod_labels pod !! NODE_ID_LABEL = Some n ∧ n ∈ expected ∧
    pod_labels pod !! POD_SESSION_RUN_LABEL = Some session_id ∧ pod_node_name pod = Some k) as Hpod.
  { intros n k Hn. destruct (locate_pods_sound _ _ _ _ _ _ _ Hloc Hn) as [?|(pod & Hin & Hs & Hk)];
      [set_solver|]. exists pod. unfold session_node in Hs.
    destruct (pod_labels pod !! NODE_ID_LABEL) as [[]|] eqn:El; try done. simpl in Hs.
    case_bool_decide as He; simpl in Hs; [|done]. case_bool_decide as Hr; simpl in Hs; [|done].
    injection Hs as <-. by destruct (pod_node_name pod) as [[]|]. }
  split.
  { apply set_eq. intros n. split; [|by apply Hmiss].
    intros [k Hn]%elem_of_dom. by destruct (Hpod n k Hn) as (pod & _ & _ & ? & _). }
  intros n Hn. apply Hmiss, elem_of_dom in Hn as [k Hk].
  assert (k ∈ k3s_nodes_of located) as Hin by (apply elem_of_k3s_nodes; eauto).
  apply Hip in Hin as Hd. apply elem_of_dom in Hd as [ip Hd].
  destruct (Hpod n k Hk) as (pod & ? & ? & _ & ? & ?). exists k, ip, pod.
  unfold agent_addr, host_ip, k3s_node, node_ip. cbn [node_of node_ips agent_addrs].
  rewrite Hk. cbn [or_raise rbind]. simpl in Hd. rewrite Hd.
  rewrite (lookup_union_Some_l _ _ k k) by by apply lookup_agents. done.
Qed.

(** A cluster of two Kubernetes nodes: a satellite on the first, a station on the
    second, and a pod left over from another session. *)
Module Cluster.

Definition session_pod (node_id session_id k3s : string) : Pod :=
  {| pod_labels := {[NODE_ID_LABEL := node_id; POD_SESSION_RUN_LABEL := session_id]};
     pod_node_name := Some k3s |}.
Definition pods : list Pod :=
  [session_pod "sat-1" "run-7" "k3s-1"; session_pod "gs-A" "run-6" "k3s-1";
   session_pod "gs-A" "run-7" "k3s-2"].
Definition nodes : list KubeNode :=
  [{| kn_name := "k3s-1"; kn_addresses := [("Hostname", "k3s-1"); ("InternalIP", "10.0.0.1")] |};
   {| kn_name := "k3s-2"; kn_addresses := [("InternalIP", "10.0.0.2")] |}].

Definition located : PodLocationMap :=
  {| node_of := {["sat-1" := "k3s-1"; "gs-A" := "k3s-2"]};
     node_ips := {["k3s-1" := "10.0.0.1"; "k3s-2" := "10.0.0.2"]};
     agent_addrs := {["k3s-1" := "k3s-1"; "k3s-2" := "k3s-2"]} |}.

End Cluster.

Lemma load_locates_session_witness :
  load_from_k8s_api {["sat-1"; "gs-A"]} "run-7" no_locations Cluster.pods Cluster.nodes =
    Ok Cluster.located ∧
  dom (node_of Cluster.located) = {["sat-1"; "gs-A"]}.
Proof.
  assert (load_from_k8s_api {["sat-1"; "gs-A"]} "run-7" no_locations Cluster.pods Cluster.nodes =
    Ok Cluster.located) as H by (vm_compute; reflexivity).
  split; [exact H|]. exact (proj1 (load_locates_session _ _ _ _ _ H)).
Defined.
