(* ===== verification/Substrate.v ===== *)
(** * Substrate latency

    The delay the cluster itself adds between two Kubernetes nodes is measured by
    the Node Agents ([lib/nodalarc/substrate/measurement_contract.py]), validated
    and looked up by the Scheduler ([services/scheduler/substrate_latency.py],
    [Dispatcher._get_substrate_rtt_ms]) and subtracted from the light time OME
    commits ([services/scheduler/latency_compensator.py]).

    The syntax of IP addresses and the JSON of the status documents are not
    modelled; a document is its decoded value. *)

From S2P Require Import Prelude.
From S2P Require Import PyFloat.
From S2P Require Import PyData.
From S2P Require Import PyTime.
From S2P Require Import GroundTypes.
From S2P Require Import Placement.
From stdpp Require Import base list strings gmap.
Local Open Scope Z_scope.

(** ** Measurements *)

(** [substrate_pair_key] and [substrate_directional_key]. *)
Definition substrate_pair_key (node_a node_b : string) : result string :=
  raise_if bool_decide (node_a = "") || bool_decide (node_b = "")
    with ValueError "substrate pair nodes must be non-empty" ;;
  let ends := ordered_pair node_a node_b in
  Ok (ends.1 +:+ "<->" +:+ ends.2).

Definition substrate_directional_key (source target : string) : result string :=
  raise_if bool_decide (source = "") || bool_decide (target = "")
    with ValueError "substrate directional nodes must be non-empty" ;;
  Ok (source +:+ "->" +:+ target).

Record RequiredSubstratePair := {
  rq_source_node : string;
  rq_source_ip : string;
  rq_target_node : string;
  rq_target_ip : string;
  rq_pair_key : string;
  rq_directional_key : string;
}.

(** [RequiredSubstratePair._keys_match_nodes]. *)
Definition keys_match_nodes (r : RequiredSubstratePair) : result RequiredSubstratePair :=
  let! expected_pair := substrate_pair_key (rq_source_node r) (rq_target_node r) in
  let! expected_directional := substrate_directional_key (rq_source_node r) (rq_target_node r) in
  raise_if bool_decide (rq_source_node r = rq_target_node r)
    with ValueError "required substrate pair must be cross-node" ;;
  raise_if negb (bool_decide (rq_pair_key r = expected_pair)) with ValueError "pair_key mismatch" ;;
  raise_if negb (bool_decide (rq_directional_key r = expected_directional))
    with ValueError "directional_key mismatch" ;;
  Ok r.

(** [RequiredSubstratePair.build]. *)
Definition build_required_pair (source source_ip target target_ip : string) :
    result RequiredSubstratePair :=
  let! pair_key := substrate_pair_key source target in
  let! directional_key := substrate_directional_key source target in
  keys_match_nodes
    {| rq_source_node := source; rq_source_ip := source_ip; rq_target_node := target;
       rq_target_ip := target_ip; rq_pair_key := pair_key;
       rq_directional_key := directional_key |}.

Record SubstrateMeasurement := {
  ms_session_id : string;
  ms_wiring_generation : string;
  ms_source_node : string;
  ms_source_ip : string;
  ms_target_node : string;
  ms_target_ip : string;
  ms_measured_at : datetime;
  ms_stale_after : datetime;
  ms_ok : bool;
  ms_sample_count : Z;
  ms_success_count : Z;
  ms_median_rtt_ms : option float;
}.

(** [SubstrateMeasurement._measurement_consistent]. *)
Definition measurement_consistent (m : SubstrateMeasurement) : result SubstrateMeasurement :=
  raise_if negb (String.prefix "sha256:" (ms_wiring_generation m))
    with ValueError "wiring_generation must be sha256:<hex>" ;;
  raise_if ms_sample_count m <=? 0 with ValueError "sample_count must be > 0" ;;
  raise_if (ms_success_count m <? 0) || (ms_sample_count m <? ms_success_count m)
    with ValueError "success_count must be between 0 and sample_count" ;;
  raise_if ms_stale_after m <=? ms_measured_at m
    with ValueError "stale_after must be after measured_at" ;;
  raise_if ms_ok m && (ms_success_count m <=? 0)
    with ValueError "successful substrate measurement requires RTT samples" ;;
  raise_if ms_ok m && is_none (ms_median_rtt_ms m)
    with ValueError "successful substrate measurement requires median_rtt_ms" ;;
  Ok m.

(** What a measurement must be about: session, wiring generation, source node and
    address, target node and address. *)
Record Direction := {
  di_session_id : string;
  di_wiring_generation : string;
  di_source_node : string;
  di_source_ip : string;
  di_target_node : string;
  di_target_ip : string;
}.
#[global] Instance direction_eq_dec : EqDecision Direction.
Proof. solve_decision. Defined.

Definition measured_direction (m : SubstrateMeasurement) : Direction :=
  {| di_session_id := ms_session_id m; di_wiring_generation := ms_wiring_generation m;
     di_source_node := ms_source_node m; di_source_ip := ms_source_ip m;
     di_target_node := ms_target_node m; di_target_ip := ms_target_ip m |}.

(** [SubstrateMeasurement.rtt_ms]. *)
Definition rtt_ms (m : SubstrateMeasurement) (now : datetime) (expected : Direction) : result float :=
  raise_if negb (bool_decide (measured_direction m = expected))
    with ValueError "Substrate RTT measurement identity mismatch" ;;
  raise_if negb (ms_ok m) with ValueError "Substrate RTT measurement failed" ;;
  let! median := or_raise (ms_median_rtt_ms m) (ValueError "no median RTT") in
  raise_if ms_success_count m <=? 0 with ValueError "no samples" ;;
  raise_if ms_stale_after m <=? now with ValueError "stale" ;;
  Ok median.

Record SubstrateStatusDocument := {
  sd_session_id : string;
  sd_wiring_generation : string;
  sd_source_node : string;
  sd_measurements : gmap string SubstrateMeasurement;
}.

(** [SubstrateStatusDocument._measurements_match_document]. *)
Definition measurements_match_document (d : SubstrateStatusDocument) :
    result SubstrateStatusDocument :=
  let! _ := foldM (λ _ '(target, m),
      raise_if negb (bool_decide (target = ms_target_node m))
        with ValueError "substrate status key does not match measurement target" ;;
      raise_if negb (bool_decide (ms_session_id m = sd_session_id d))
        with ValueError "substrate status measurement session_id mismatch" ;;
      raise_if negb (bool_decide (ms_wiring_generation m = sd_wiring_generation d))
        with ValueError "substrate status measurement wiring_generation mismatch" ;;
      raise_if negb (bool_decide (ms_source_node m = sd_source_node d))
        with ValueError "substrate status measurement source_node mismatch" ;;
      Ok tt) tt (map_to_list (sd_measurements d)) in
  Ok d.

(** ** The Scheduler's copy *)

(** [load_substrate_status_documents], of the decoded documents. *)
Definition load_substrate_status_documents (documents : list SubstrateStatusDocument) :
    gmap string SubstrateStatusDocument :=
  fold_left (λ m d, <[sd_source_node d := d]> m) documents ∅.

Section Validate.
Context (session_id wiring_generation : string).

Definition required_direction (r : RequiredSubstratePair) : Direction :=
  {| di_session_id := session_id; di_wiring_generation := wiring_generation;
     di_source_node := rq_source_node r; di_source_ip := rq_source_ip r;
     di_target_node := rq_target_node r; di_target_ip := rq_target_ip r |}.

(** The loop of [validate_required_substrate_measurements]: the index and whether
    a required measurement is missing or refused. *)
Definition index_required (documents : gmap string SubstrateStatusDocument) (now : datetime)
    (acc : gmap string SubstrateMeasurement * bool) (r : RequiredSubstratePair) :
    gmap string SubstrateMeasurement * bool :=
  match documents !! rq_source_node r with
  | None => (acc.1, true)
  | Some d =>
      match sd_measurements d !! rq_target_node r with
      | None => (acc.1, true)
      | Some m =>
          match rtt_ms m now (required_direction r) with
          | Ok _ => (<[rq_directional_key r := m]> acc.1, acc.2)
          | Raise _ => (acc.1, true)
          end
      end
  end.

Definition validate_required_substrate_measurements (required : list RequiredSubstratePair)
    (documents : gmap string SubstrateStatusDocument) (now : datetime) :
    result (gmap string SubstrateMeasurement) :=
  let '(indexed, missing) := fold_left (index_required documents now)
    (sorted (λ x y, str_lt (rq_directional_key x) (rq_directional_key y)) required) (∅, false) in
  raise_if missing with ValueError "Substrate measurement gate failed" ;;
  Ok indexed.

(** [resolve_substrate_rtt_ms]. *)
Definition resolve_substrate_rtt_ms (loc : PodLocationMap)
    (measurements_by_direction : gmap string SubstrateMeasurement) (node_a node_b : string)
    (now : datetime) : result float :=
  let! k3s_a := k3s_node loc node_a in
  let! k3s_b := k3s_node loc node_b in
  if bool_decide (k3s_a = k3s_b) then Ok f_0 else
  raise_if bool_decide (session_id = "") || bool_decide (wiring_generation = "")
    with ValueError "session_id and wiring_generation are required for substrate RTT" ;;
  let! ip_a := node_ip loc k3s_a in
  let! ip_b := node_ip loc k3s_b in
  let! key := substrate_directional_key k3s_a k3s_b in
  let! m := or_raise (measurements_by_direction !! key)
    (ValueError "No substrate RTT measurement for cross-node link") in
  rtt_ms m now {| di_session_id := session_id; di_wiring_generation := wiring_generation;
                  di_source_node := k3s_a; di_source_ip := ip_a; di_target_node := k3s_b;
                  di_target_ip := ip_b |}.
End Validate.

(** What the Dispatcher keeps of the substrate. *)
Record SubstrateState := {
  ss_required_pairs : list RequiredSubstratePair;
  ss_by_direction : gmap string SubstrateMeasurement;
  ss_last_reload : option datetime;
}.

Definition SUBSTRATE_STALE_US : Z := 45000000.

Section Dispatcher.
Context (session_id wiring_generation : string).

(** [_reload_substrate_status]: every failure is a [RuntimeError]. *)
Definition reload_substrate_status (s : SubstrateState) (documents : list SubstrateStatusDocument)
    (now : datetime) : result SubstrateState :=
  if bool_decide (length (ss_required_pairs s) = 0%nat) then Ok s else
  match validate_required_substrate_measurements session_id wiring_generation
          (ss_required_pairs s) (load_substrate_status_documents documents) now with
  | Ok indexed => Ok {| ss_required_pairs := ss_required_pairs s; ss_by_direction := indexed;
                        ss_last_reload := Some now |}
  | Raise _ => Raise (RuntimeError "Substrate status load failed")
  end.

(** [_get_substrate_rtt_ms]. *)
Definition get_substrate_rtt_ms (loc : PodLocationMap) (s : SubstrateState) (now : datetime)
    (node_a node_b : string) : result float :=
  raise_if negb (bool_decide (length (ss_required_pairs s) = 0%nat)) &&
           match ss_last_reload s with
           | None => true
           | Some t => SUBSTRATE_STALE_US <? now - t
           end
    with RuntimeError "substrate measurements stale" ;;
  resolve_substrate_rtt_ms session_id wiring_generation loc (ss_by_direction s) node_a node_b now.
End Dispatcher.

(** ** Compensation *)

Record LatencyCompensation := {
  lk_orbital_a_to_b_ms : float;
  lk_orbital_b_to_a_ms : float;
  lk_substrate_rtt_ms : float;
  lk_substrate_one_way_ms : float;
  lk_netem_a_to_b_ms : float;
  lk_netem_b_to_a_ms : float;
  lk_policy : string;
}.

(** [compensate_latency]. *)
Definition compensate_latency (orbital_a_to_b orbital_b_to_a substrate_rtt : float)
    (policy : string) : result LatencyCompensation :=
  raise_if flt orbital_a_to_b f_0 with ValueError "orbital_a_to_b_ms must be non-negative" ;;
  raise_if flt orbital_b_to_a f_0 with ValueError "orbital_b_to_a_ms must be non-negative" ;;
  raise_if flt substrate_rtt f_0 with ValueError "substrate_rtt_ms must be non-negative" ;;
  raise_if negb (bool_decide (policy = "half-rtt"))
    with ValueError "Unsupported RTT conversion policy" ;;
  let one_way := fdiv substrate_rtt f_2 in
  let ab := fsub orbital_a_to_b one_way in
  raise_if flt ab f_0 with ValueError "Unrepresentable latency" ;;
  let ba := fsub orbital_b_to_a one_way in
  raise_if flt ba f_0 with ValueError "Unrepresentable latency" ;;
  Ok {| lk_orbital_a_to_b_ms := orbital_a_to_b; lk_orbital_b_to_a_ms := orbital_b_to_a;
        lk_substrate_rtt_ms := substrate_rtt; lk_substrate_one_way_ms := one_way;
        lk_netem_a_to_b_ms := ab; lk_netem_b_to_a_ms := ba; lk_policy := policy |}.

(** [egress_ms]: the value of the direction a node transmits. *)
Definition egress_ms (p : node_pair) (node_id : string) (values : float * float) : result float :=
  if bool_decide (node_id = p.1) then Ok values.1
  else if bool_decide (node_id = p.2) then Ok values.2
  else Raise (ValueError "is not an end of link").

(** [Dispatcher._latency_compensation]. *)
Definition latency_compensation (session_id wiring_generation : string) (loc : PodLocationMap)
    (s : SubstrateState) (now : datetime) (policy : string) (node_a node_b : string)
    (orbital_ms : float * float) : result LatencyCompensation :=
  let! rtt := get_substrate_rtt_ms session_id wiring_generation loc s now node_a node_b in
  match compensate_latency orbital_ms.1 orbital_ms.2 rtt policy with
  | Ok c => Ok c
  | Raise (ValueError _) => Raise (ValueError "Unrepresentable latency for link")
  | Raise e => Raise e
  end.

(** ** What a measurement proves *)

Lemma rtt_ms_Ok m now d r :
  rtt_ms m now d = Ok r →
  measured_direction m = d ∧ ms_ok m = true ∧ ms_median_rtt_ms m = Some r ∧
  0 < ms_success_count m ∧ now < ms_stale_after m.
Proof.
  unfold rtt_ms. intros H. rguard H as Hd. rguard H as Hok. rbind H as r' Hr.
  rguard H as Hs. rguard H as Ht. injection H as ->.
  repeat split; try done; lia.
Qed.

Lemma compensate_latency_Ok ab ba rtt policy c :
  compensate_latency ab ba rtt policy = Ok c →
  lk_substrate_rtt_ms c = rtt ∧ flt rtt f_0 = false ∧
  lk_netem_a_to_b_ms c = fsub ab (fdiv rtt f_2) ∧ flt (lk_netem_a_to_b_ms c) f_0 = false ∧
  lk_netem_b_to_a_ms c = fsub ba (fdiv rtt f_2) ∧ flt (lk_netem_b_to_a_ms c) f_0 = false.
Proof.
  unfold compensate_latency. intros H. rguard H as H1. rguard H as H2. rguard H as H3.
  rguard H as H4. rguard H as H5. rguard H as H6. injection H as <-. done.
Qed.

Section Gate.
Context (session_id wiring_generation : string) (documents : gmap string SubstrateStatusDocument)
        (now : datetime).
Abbreviation index := (index_required session_id wiring_generation documents now).

(** The measurement the documents hold for a required direction. *)
Definition measured (r : RequiredSubstratePair) (m : SubstrateMeasurement) : Prop :=
  ∃ d v, documents !! rq_source_node r = Some d ∧ sd_measurements d !! rq_target_node r = Some m ∧
    rtt_ms m now (required_direction session_id wiring_generation r) = Ok v.

Lemma index_missing l acc : acc.2 = true → (fold_left index l acc).2 = true.
Proof.
  revert acc. induction l as [|r l IH]; intros acc H; [done|]. apply IH. unfold index_required.
  by repeat (case_match; simpl; [..|]; try done).
Qed.

(** A gate that passes indexed every required direction. *)
Lemma index_complete l m0 indexed :
  NoDup (map rq_directional_key l) → fold_left index l (m0, false) = (indexed, false) →
  (∀ r, r ∈ l → ∃ m, measured r m ∧ indexed !! rq_directional_key r = Some m) ∧
  (∀ k, k ∉ map rq_directional_key l → indexed !! k = m0 !! k).
Proof.
  revert m0. induction l as [|r l IH]; intros m0 Hnd H.
  { injection H as <-. split; [by intros r ?%elem_of_nil|done]. }
  apply NoDup_cons in Hnd as [Hr Hnd]. simpl in H. unfold index_required in H at 2.
  destruct (documents !! rq_source_node r) as [d|] eqn:Ed;
    [|by apply (f_equal snd) in H; rewrite index_missing in H].
  destruct (sd_measurements d !! rq_target_node r) as [m|] eqn:Em;
    [|by apply (f_equal snd) in H; rewrite index_missing in H].
  destruct (rtt_ms _ _ _) as [v|] eqn:Ev;
    [|by apply (f_equal snd) in H; rewrite index_missing in H].
  destruct (IH _ Hnd H) as [IH1 IH2]. split.
  - intros r' [->|Hr']%elem_of_cons; [|by apply IH1]. exists m. split; [by exists d, v|].
    rewrite IH2 by done. by rewrite lookup_insert_eq.
  - intros k Hk. rewrite IH2 by set_solver. rewrite lookup_insert_ne; [done|set_solver].
Qed.
End Gate.

(** A reload either fails or leaves, for every required direction, a measurement
    of exactly that direction. *)
Lemma reload_indexes session_id generation s documents now s' r :
  NoDup (map rq_directional_key (ss_required_pairs s)) → r ∈ ss_required_pairs s →
  reload_substrate_status session_id generation s documents now = Ok s' →
  ss_last_reload s' = Some now ∧ ss_required_pairs s' = ss_required_pairs s ∧
  ∃ m v, ss_by_direction s' !! rq_directional_key r = Some m ∧
    rtt_ms m now (required_direction session_id generation r) = Ok v.
Proof.
  intros Hnd Hr. unfold reload_substrate_status. case_bool_decide as E.
  { apply nil_length_inv in E. rewrite E in Hr. by apply elem_of_nil in Hr. }
  unfold validate_required_substrate_measurements.
  set (l := sorted _ (ss_required_pairs s)).
  destruct (fold_left _ l _) as [indexed [|]] eqn:El; [done|]. intros [= <-]. simpl.
  split; [done|]. split; [done|].
  assert (NoDup (map rq_directional_key l)) as Hnd'.
  { unfold l. rewrite sorted_perm. exact Hnd. }
  destruct (index_complete _ _ _ _ _ _ _ Hnd' El) as [H _].
  destruct (H r) as (m & (d & v & _ & _ & Hv) & Hm); [by apply elem_of_sorted|]. eauto.
Qed.

(** ** Theorems *)

(** no link is dispatched on an unknown or stale substrate.  An accepted
    compensation subtracts, in both directions, half of one round trip and never
    goes below zero; the round trip is zero for pods on one Kubernetes node, and
    otherwise the median of a successful measurement of this session, wiring
    generation and direction that is still valid now. *)
Theorem compensation_is_measured session_id generation loc s now policy a b orbital c :
  latency_compensation session_id generation loc s now policy a b orbital = Ok c →
  let rtt := lk_substrate_rtt_ms c in
  lk_netem_a_to_b_ms c = fsub orbital.1 (fdiv rtt f_2) ∧
  lk_netem_b_to_a_ms c = fsub orbital.2 (fdiv rtt f_2) ∧
  flt (lk_netem_a_to_b_ms c) f_0 = false ∧ flt (lk_netem_b_to_a_ms c) f_0 = false ∧
  ∃ ka kb, node_of loc !! a = Some ka ∧ node_of loc !! b = Some kb ∧
    (ka = kb ∧ rtt = f_0 ∨
     ka ≠ kb ∧ ∃ m ip_a ip_b,
       node_ips loc !! ka = Some ip_a ∧ node_ips loc !! kb = Some ip_b ∧
       ss_by_direction s !! (ka +:+ "->" +:+ kb) = Some m ∧
       measured_direction m =
         {| di_session_id := session_id; di_wiring_generation := generation;
            di_source_node := ka; di_source_ip := ip_a; di_target_node := kb;
            di_target_ip := ip_b |} ∧
       ms_ok m = true ∧ ms_median_rtt_ms m = Some rtt ∧ now < ms_stale_after m).
Proof.
  unfold latency_compensation. intros H. rbind H as rtt Hrtt.
  destruct (compensate_latency _ _ _ _) as [c'|[]] eqn:Ec; try done. injection H as ->.
  apply compensate_latency_Ok in Ec as (-> & _ & Hab & Hab0 & Hba & Hba0). simpl.
  repeat (split; [done|]).
  unfold get_substrate_rtt_ms in Hrtt. rguard Hrtt as Hfresh.
  unfold resolve_substrate_rtt_ms, k3s_node, node_ip in Hrtt.
  rbind Hrtt as ka Ea. rbind Hrtt as kb Eb. exists ka, kb. repeat (split; [done|]).
  case_bool_decide as Hk; [injection Hrtt as <-; by left|].
  right. split; [done|]. rguard Hrtt as Hid. rbind Hrtt as ip_a Ha. rbind Hrtt as ip_b Hb.
  rbind Hrtt as key Hkey. rbind Hrtt as m Hm. unfold substrate_directional_key in Hkey.
  rguard Hkey as Hne. injection Hkey as <-.
  apply rtt_ms_Ok in Hrtt as (Hd & Hok & Hmed & _ & Hst). exists m, ip_a, ip_b. done.
Qed.

(** a passed measurement gate serves every required direction.  After a
    reload at [t0], a required direction between two located nodes resolves, for
    the next 45 seconds and while its measurement is valid, to the round trip
    measured; one microsecond past the 45 seconds it is refused. *)
Theorem gate_serves_required session_id generation loc s documents t0 s' r a b now :
  NoDup (map rq_directional_key (ss_required_pairs s)) → r ∈ ss_required_pairs s →
  keys_match_nodes r = Ok r → session_id ≠ "" → generation ≠ "" →
  node_of loc !! a = Some (rq_source_node r) → node_of loc !! b = Some (rq_target_node r) →
  node_ips loc !! rq_source_node r = Some (rq_source_ip r) →
  node_ips loc !! rq_target_node r = Some (rq_target_ip r) →
  reload_substrate_status session_id generation s documents t0 = Ok s' →
  ∃ m rtt, ss_by_direction s' !! rq_directional_key r = Some m ∧ ms_median_rtt_ms m = Some rtt ∧
    get_substrate_rtt_ms session_id generation loc s' now a b =
      if SUBSTRATE_STALE_US <? now - t0 then Raise (RuntimeError "substrate measurements stale")
      else if ms_stale_after m <=? now then Raise (ValueError "stale") else Ok rtt.
Proof.
  intros Hnd Hr Hkeys Hs Hg Ha Hb Hia Hib Hload.
  destruct (reload_indexes _ _ _ _ _ _ r Hnd Hr Hload) as (Hl & Hreq & m & v & Hm & Hv).
  apply rtt_ms_Ok in Hv as (Hd & Hok & Hmed & Hsucc & _). exists m, v. split; [done|]. split; [done|].
  unfold keys_match_nodes in Hkeys. rbind Hkeys as pk Hpk. rbind Hkeys as dk Hdk.
  rguard Hkeys as Hne. rguard Hkeys as H1. rguard Hkeys as H2. clear Hkeys.
  unfold get_substrate_rtt_ms. rewrite Hl, Hreq.
  assert (bool_decide (length (ss_required_pairs s) = 0%nat) = false) as ->.
  { apply bool_decide_eq_false. by destruct (ss_required_pairs s); [apply elem_of_nil in Hr|]. }
  simpl. case_test E; [done|].
  unfold resolve_substrate_rtt_ms, k3s_node, node_ip. rewrite Ha, Hb. simpl.
  rewrite !bool_decide_eq_false_2 by done. simpl. rewrite Hia, Hib. simpl.
  rewrite Hdk. simpl. rewrite <- H2, Hm. simpl.
  unfold rtt_ms. rewrite Hd. unfold required_direction. rewrite bool_decide_eq_true_2 by done.
  rewrite Hok, Hmed. simpl. rewrite (proj2 (Z.leb_gt _ 0)) by lia. done.
Qed.

(** The two-node cluster, with one measurement of four milliseconds. *)
Definition cluster_direction : Direction :=
  {| di_session_id := "run-7"; di_wiring_generation := "sha256:ab";
     di_source_node := "k3s-1"; di_source_ip := "10.0.0.1"; di_target_node := "k3s-2";
     di_target_ip := "10.0.0.2" |}.
Definition four_ms : SubstrateMeasurement :=
  {| ms_session_id := "run-7"; ms_wiring_generation := "sha256:ab"; ms_source_node := "k3s-1";
     ms_source_ip := "10.0.0.1"; ms_target_node := "k3s-2"; ms_target_ip := "10.0.0.2";
     ms_measured_at := 0; ms_stale_after := 60000000; ms_ok := true; ms_sample_count := 5;
     ms_success_count := 5; ms_median_rtt_ms := Some (float_of_Z 4) |}.
Definition cluster_required : RequiredSubstratePair :=
  {| rq_source_node := "k3s-1"; rq_source_ip := "10.0.0.1"; rq_target_node := "k3s-2";
     rq_target_ip := "10.0.0.2"; rq_pair_key := "k3s-1<->k3s-2";
     rq_directional_key := "k3s-1->k3s-2" |}.
Definition cluster_unmeasured : SubstrateState :=
  {| ss_required_pairs := [cluster_required]; ss_by_direction := ∅; ss_last_reload := None |}.
Definition cluster_documents : list SubstrateStatusDocument :=
  [{| sd_session_id := "run-7"; sd_wiring_generation := "sha256:ab"; sd_source_node := "k3s-1";
      sd_measurements := {["k3s-2" := four_ms]} |}].
Definition cluster_measured : SubstrateState :=
  {| ss_required_pairs := [cluster_required]; ss_by_direction := {["k3s-1->k3s-2" := four_ms]};
     ss_last_reload := Some 1000000 |}.
Definition cluster_compensation : LatencyCompensation :=
  {| lk_orbital_a_to_b_ms := float_of_Z 12; lk_orbital_b_to_a_ms := float_of_Z 13;
     lk_substrate_rtt_ms := float_of_Z 4; lk_substrate_one_way_ms := float_of_Z 2;
     lk_netem_a_to_b_ms := float_of_Z 10; lk_netem_b_to_a_ms := float_of_Z 11;
     lk_policy := "half-rtt" |}.

Lemma compensation_is_measured_witness :
  latency_compensation "run-7" "sha256:ab" Cluster.located cluster_measured 2000000 "half-rtt"
    "sat-1" "gs-A" (float_of_Z 12, float_of_Z 13) = Ok cluster_compensation ∧
  flt (lk_netem_a_to_b_ms cluster_compensation) f_0 = false.
Proof.
  assert (latency_compensation "run-7" "sha256:ab" Cluster.located cluster_measured 2000000 "half-rtt"
    "sat-1" "gs-A" (float_of_Z 12, float_of_Z 13) = Ok cluster_compensation) as H
    by (vm_compute; reflexivity).
  split; [exact H|]. apply (compensation_is_measured _ _ _ _ _ _ _ _ _ _ H).
Defined.

Lemma gate_serves_required_witness :
  ∃ m rtt, ss_by_direction cluster_measured !! "k3s-1->k3s-2" = Some m ∧
    ms_median_rtt_ms m = Some rtt ∧
    get_substrate_rtt_ms "run-7" "sha256:ab" Cluster.located cluster_measured 2000000 "sat-1" "gs-A" =
      if SUBSTRATE_STALE_US <? 2000000 - 1000000
      then Raise (RuntimeError "substrate measurements stale")
      else if ms_stale_after m <=? 2000000 then Raise (ValueError "stale") else Ok rtt.
Proof.
  apply (gate_serves_required "run-7" "sha256:ab" Cluster.located cluster_unmeasured
    cluster_documents 1000000 cluster_measured cluster_required "sat-1" "gs-A" 2000000);
    first [done | by apply list_elem_of_singleton | evaluated].
Defined.
