(* ===== verification/NodeAgentBatches.v ===== *)
(** * Node Agent batches ([services/scheduler/node_agent_batches.py])

    The translation of link records into the interface operations each Node
    Agent receives, and the acknowledgements that prove a pair.

    A batch names its messages by agent in the order they were added ([dict]);
    the source builds one message at a time and appends it to its agent's list,
    the model builds a pair's messages and appends them in the same order.  A
    record's [commanded_netem_ms], which the source writes while it builds a
    LinkUp, is returned with the batch; a call that raises returns neither. *)

From S2P Require Import Prelude.
From S2P Require Import PyFloat.
From S2P Require Import PyData.
From S2P Require Import PyTime.
From S2P Require Import GroundTypes.
From S2P Require Import EventDiff.
From S2P Require Import DesiredState.
From S2P Require Import Authority.
From S2P Require Import Actuation.
From S2P Require Import DispatchPlanner.
From S2P Require Import Placement.
From S2P Require Import Substrate.
From stdpp Require Import base list strings gmap.
Local Open Scope Z_scope.

(** ** Messages ([lib/nodalarc/proto/node_agent.proto]) *)

Definition LINK_DOWN_STAGE_STOP_ADMISSION : Z := 1.
Definition LINK_DOWN_STAGE_CLOSE : Z := 2.
Definition LINK_UP_STAGE_PREPARE : Z := 1.
Definition LINK_UP_STAGE_OPEN : Z := 2.

(** [InterfaceRates] and the message that carries it. *)
Record InterfaceRates := { transmit_mbps : float; receive_mbps : float }.

Record InterfaceDown := {
  dn_iface : Iface;
  dn_peer : Iface;
  dn_link_type : LinkType;
  dn_gs_id : string;
  dn_sat_id : string;
  dn_locality : Locality;
  dn_remote_node_ip : string;
  dn_vni : Z;
  dn_stage : Z;
  dn_contact_id : string;
}.

Record InterfaceUp := {
  up_iface : Iface;
  up_peer : Iface;
  up_link_type : LinkType;
  up_latency_ms : float;
  up_peer_latency_ms : float;
  up_rates : option InterfaceRates;
  up_peer_rates : option InterfaceRates;
  up_gs_id : string;
  up_sat_id : string;
  up_locality : Locality;
  up_remote_node_ip : string;
  up_vni : Z;
  up_stage : Z;
  up_contact_id : string;
  up_receive_latency_ms : float;
}.

(** ** Plans *)

(** A batch of messages: by agent, and the acknowledgements each pair needs. *)
Record BatchPlan (M : Type) := {
  agent_ifaces : dict string (list M);
  pair_agent_ifaces : gmap node_pair (gset InterfaceAck);
}.
Arguments agent_ifaces {M}.
Arguments pair_agent_ifaces {M}.
Arguments Build_BatchPlan {M}.

Definition LinkDownBatchPlan : Type := BatchPlan InterfaceDown.

Record LinkUpBatchPlan := {
  up_batch : BatchPlan InterfaceUp;
  pair_compensation : gmap node_pair LatencyCompensation;
}.

Section Batch.
Context {M : Type} (key : M → Iface).

Definition empty_batch : BatchPlan M := {| agent_ifaces := []; pair_agent_ifaces := ∅ |}.

(** [_ack_key]. *)
Definition ack_key (agent : string) (m : M) : InterfaceAck := (agent, key m).

(** [agent_ifaces.setdefault(agent, []).append(m)]. *)
Definition append_to (agent : string) (m : M) (d : dict string (list M)) : dict string (list M) :=
  dict_set agent (default [] (dict_get agent d) ++ [m]) d.

(** The same, with [pair_agent_ifaces.setdefault(pair, set()).add(_ack_key(...))]. *)
Definition add_message (p : node_pair) (plan : BatchPlan M) (am : string * M) : BatchPlan M :=
  {| agent_ifaces := append_to am.1 am.2 (agent_ifaces plan);
     pair_agent_ifaces := <[p := {[ack_key am.1 am.2]} ∪ default ∅ (pair_agent_ifaces plan !! p)]>
       (pair_agent_ifaces plan) |}.

Definition add_messages (p : node_pair) (plan : BatchPlan M) (msgs : list (string * M)) :
    BatchPlan M := fold_left (add_message p) msgs plan.
End Batch.

Section Build.
Context (loc : PodLocationMap) (gs_capacities : gmap string Z).

(** [required_ground_endpoints]. *)
Definition required_ground_endpoints (p : node_pair) (info : ActiveLinkInfo) :
    result GroundEndpoints :=
  or_raise (ground_endpoints gs_capacities p info)
    (RuntimeError "ground link has no ground station endpoint").

Definition is_cross (l : Locality) : bool := bool_decide (l = LOCALITY_CROSS_NODE).

(** The peer's host address, of a link that crosses nodes. *)
Definition remote_ip (l : Locality) (peer : string) : result string :=
  if is_cross l then host_ip loc peer else Ok "".

Definition ground_vni (l : Locality) (e : GroundEndpoints) : Z :=
  if is_cross l then compute_vni (ge_gs_id e) (ge_sat_id e) (ge_gs_iface e) (ge_sat_iface e) else 0.
Definition isl_vni (l : Locality) (p : node_pair) (info : ActiveLinkInfo) : Z :=
  if is_cross l then compute_vni p.1 p.2 (interface_a info) (interface_b info) else 0.

(** [gs_iface if nid == gs_id else sat_iface]. *)
Definition iface_at (e : GroundEndpoints) (nid : string) : string :=
  if bool_decide (nid = ge_gs_id e) then ge_gs_iface e else ge_sat_iface e.
Definition peer_iface_at (e : GroundEndpoints) (nid : string) : string :=
  if bool_decide (nid = ge_gs_id e) then ge_sat_iface e else ge_gs_iface e.

(** The two ends of a fixed link: node, interface, peer node, peer interface. *)
Definition isl_ends (p : node_pair) (info : ActiveLinkInfo) : list (Iface * Iface) :=
  [((p.1, interface_a info), (p.2, interface_b info));
   ((p.2, interface_b info), (p.1, interface_a info))].

(** ** LinkDown *)

Section Down.
Context (stage : Z) (ends : option (gmap node_pair (gset string)))
        (contact_ids : option (gmap Iface string)).

(** The ends of a pair the stage reaches: [None] when it reaches both. *)
Definition closing (p : node_pair) : option (gset string) := ends ≫= (.!! p).

Definition reached (p : node_pair) (nid : string) : bool :=
  match closing p with Some named => bool_decide (nid ∈ named) | None => true end.

(** [(contact_ids or {}).get((nid, iface)) or info.end_contact_id(nid)]. *)
Definition down_contact_id (info : ActiveLinkInfo) (i : Iface) : result string :=
  match truthy (contact_ids ≫= (.!! i)) with
  | Some cid => Ok cid
  | None => end_contact_id info i.1
  end.

Definition ground_down (e : GroundEndpoints) (l : Locality) (i peer : Iface) (ip cid : string) :
    InterfaceDown :=
  {| dn_iface := i; dn_peer := peer; dn_link_type := ground_link; dn_gs_id := ge_gs_id e;
     dn_sat_id := ge_sat_id e; dn_locality := l; dn_remote_node_ip := ip;
     dn_vni := ground_vni l e; dn_stage := stage; dn_contact_id := cid |}.

(** The guards of a pair. *)
Definition check_down (p : node_pair) (info : ActiveLinkInfo) : result unit :=
  raise_if is_none (contact info) && negb (stage =? LINK_DOWN_STAGE_CLOSE)
    with ValueError "local link closes at once; it has no admission stage" ;;
  raise_if is_none (contact info) && negb (is_none (closing p))
    with ValueError "local link closes both ends at once" ;;
  raise_if negb (is_none (contact info)) && (stage =? LINK_DOWN_STAGE_CLOSE) && is_none (closing p)
    with ValueError "long-delay link closes end by end; the close names no end of it" ;;
  Ok tt.

(** The messages of one pair: agent and operation. *)
Definition link_down_messages (p : node_pair) (info : ActiveLinkInfo) :
    result (list (string * InterfaceDown)) :=
  let! l := link_locality loc p.1 p.2 in
  let! _ := check_down p info in
  match link_type info with
  | ground_link =>
      let! e := required_ground_endpoints p info in
      match contact info with
      | Some _ =>
          mapM_r (λ '(nid, peer),
              let! agent := agent_addr loc nid in
              let! ip := remote_ip l peer in
              let! cid := down_contact_id info (nid, iface_at e nid) in
              Ok (agent, ground_down e l (nid, iface_at e nid) (peer, peer_iface_at e nid) ip cid))
            (List.filter (λ x, reached p x.1)
               [(ge_gs_id e, ge_sat_id e); (ge_sat_id e, ge_gs_id e)])
      | None =>
          match l with
          | LOCALITY_LOCAL =>
              let! agent := agent_addr loc (ge_sat_id e) in
              Ok [(agent, ground_down e l (ge_gs_id e, ge_gs_iface e) (ge_sat_id e, ge_sat_iface e)
                            "" "")]
          | LOCALITY_CROSS_NODE =>
              let! sat_agent := agent_addr loc (ge_sat_id e) in
              let! gs_agent := agent_addr loc (ge_gs_id e) in
              mapM_r (λ '(nid, agent),
                  let peer := if bool_decide (nid = ge_gs_id e) then ge_sat_id e else ge_gs_id e in
                  let! ip := host_ip loc peer in
                  Ok (agent, ground_down e l (nid, iface_at e nid) (peer, peer_iface_at e nid) ip ""))
                [(ge_sat_id e, sat_agent); (ge_gs_id e, gs_agent)]
          end
      end
  | isl_link =>
      mapM_r (λ '(i, peer),
          let! agent := agent_addr loc i.1 in
          let! ip := remote_ip l peer.1 in
          let! cid := match contact info with None => Ok "" | Some _ => down_contact_id info i end in
          Ok (agent, {| dn_iface := i; dn_peer := peer; dn_link_type := isl_link; dn_gs_id := "";
                        dn_sat_id := ""; dn_locality := l; dn_remote_node_ip := ip;
                        dn_vni := isl_vni l p info; dn_stage := stage; dn_contact_id := cid |}))
        (List.filter (λ x, reached p x.1.1) (isl_ends p info))
  end.

(** [build_link_down_batch_plan]. *)
Definition build_link_down_batch_plan (pairs : list node_pair) (actual : Links) :
    result LinkDownBatchPlan :=
  foldM (λ plan p,
      match actual !! p with
      | None => Ok plan
      | Some info =>
          let! msgs := link_down_messages p info in
          Ok (add_messages dn_iface p plan msgs)
      end)
    empty_batch pairs.
End Down.

(** ** LinkUp *)

Section Up.
Context (interface_rates : gmap Iface InterfaceRates)
        (compensation_for_pair : string → string → float * float → result LatencyCompensation)
        (stage : Z).

(** [interface_terminal_rates] and [terminal_rates_message]. *)
Definition interface_terminal_rates (i : Iface) : result InterfaceRates :=
  or_raise (interface_rates !! i) (RuntimeError "no terminal rates").
Definition terminal_rates_message (i : Iface) : result InterfaceRates :=
  let! r := interface_terminal_rates i in
  Ok {| transmit_mbps := transmit_mbps r; receive_mbps := receive_mbps r |}.

(** A LinkUp with the fields every branch sets; the others are protobuf
    defaults. *)
Definition plain_up (i peer : Iface) (type : LinkType) (latency : float) (rates : InterfaceRates)
    (gs_id sat_id : string) (l : Locality) (ip : string) (vni : Z) : InterfaceUp :=
  {| up_iface := i; up_peer := peer; up_link_type := type; up_latency_ms := latency;
     up_peer_latency_ms := f_0; up_rates := Some rates; up_peer_rates := None; up_gs_id := gs_id;
     up_sat_id := sat_id; up_locality := l; up_remote_node_ip := ip; up_vni := vni;
     up_stage := stage; up_contact_id := ""; up_receive_latency_ms := f_0 |}.

(** The fields of a long-delay end: its contact, and the delay and rate of the
    direction its peer transmits. *)
Definition with_contact (u : InterfaceUp) (cid : string) (receive : float)
    (peer_rates : InterfaceRates) : InterfaceUp :=
  {| up_iface := up_iface u; up_peer := up_peer u; up_link_type := up_link_type u;
     up_latency_ms := up_latency_ms u; up_peer_latency_ms := up_peer_latency_ms u;
     up_rates := up_rates u; up_peer_rates := Some peer_rates; up_gs_id := up_gs_id u;
     up_sat_id := up_sat_id u; up_locality := up_locality u;
     up_remote_node_ip := up_remote_node_ip u; up_vni := up_vni u; up_stage := up_stage u;
     up_contact_id := cid; up_receive_latency_ms := receive |}.

(** The fields of a local ground link: one message wires both ends. *)
Definition with_peer (u : InterfaceUp) (peer_latency : float) (peer_rates : InterfaceRates) :
    InterfaceUp :=
  {| up_iface := up_iface u; up_peer := up_peer u; up_link_type := up_link_type u;
     up_latency_ms := up_latency_ms u; up_peer_latency_ms := peer_latency;
     up_rates := up_rates u; up_peer_rates := Some peer_rates; up_gs_id := up_gs_id u;
     up_sat_id := up_sat_id u; up_locality := up_locality u;
     up_remote_node_ip := up_remote_node_ip u; up_vni := up_vni u; up_stage := up_stage u;
     up_contact_id := up_contact_id u; up_receive_latency_ms := up_receive_latency_ms u |}.

(** The messages of one pair. *)
Definition link_up_messages (p : node_pair) (info : ActiveLinkInfo) (l : Locality)
    (netem : float * float) : result (list (string * InterfaceUp)) :=
  match link_type info with
  | ground_link =>
      let! e := required_ground_endpoints p info in
      match contact info with
      | Some c =>
          mapM_r (λ '(nid, peer),
              let i := (nid, iface_at e nid) in
              let peer_i := (peer, peer_iface_at e nid) in
              let! agent := agent_addr loc nid in
              let! latency := egress_ms p nid netem in
              let! rates := terminal_rates_message i in
              let! ip := remote_ip l peer in
              let! receive := egress_ms p peer netem in
              let! peer_rates := terminal_rates_message peer_i in
              Ok (agent, with_contact
                    (plain_up i peer_i ground_link latency rates (ge_gs_id e) (ge_sat_id e) l ip
                       (ground_vni l e)) (Contact_contact_id c) receive peer_rates))
            [(ge_gs_id e, ge_sat_id e); (ge_sat_id e, ge_gs_id e)]
      | None =>
          match l with
          | LOCALITY_LOCAL =>
              let i := (ge_gs_id e, ge_gs_iface e) in
              let peer_i := (ge_sat_id e, ge_sat_iface e) in
              let! agent := agent_addr loc (ge_sat_id e) in
              let! latency := egress_ms p (ge_gs_id e) netem in
              let! peer_latency := egress_ms p (ge_sat_id e) netem in
              let! rates := terminal_rates_message i in
              let! peer_rates := terminal_rates_message peer_i in
              Ok [(agent, with_peer
                     (plain_up i peer_i ground_link latency rates (ge_gs_id e) (ge_sat_id e) l ""
                        (ground_vni l e)) peer_latency peer_rates)]
          | LOCALITY_CROSS_NODE =>
              mapM_r (λ '(nid, peer),
                  let i := (nid, iface_at e nid) in
                  let! ip := host_ip loc peer in
                  let! agent := agent_addr loc nid in
                  let! latency := egress_ms p nid netem in
                  let! rates := terminal_rates_message i in
                  Ok (agent, plain_up i (peer, peer_iface_at e nid) ground_link latency rates
                               (ge_gs_id e) (ge_sat_id e) l ip (ground_vni l e)))
                [(ge_sat_id e, ge_gs_id e); (ge_gs_id e, ge_sat_id e)]
          end
      end
  | isl_link =>
      mapM_r (λ '(i, peer),
          let! agent := agent_addr loc i.1 in
          let! ip := remote_ip l peer.1 in
          let! latency := egress_ms p i.1 netem in
          let! rates := terminal_rates_message i in
          let plain := plain_up i peer isl_link latency rates "" "" l ip (isl_vni l p info) in
          match contact info with
          | None => Ok (agent, plain)
          | Some c =>
              let! receive := egress_ms p peer.1 netem in
              let! peer_rates := terminal_rates_message peer in
              Ok (agent, with_contact plain (Contact_contact_id c) receive peer_rates)
          end)
        (isl_ends p info)
  end.

Definition with_netem (info : ActiveLinkInfo) (netem : float * float) : ActiveLinkInfo :=
  {| interface_a := interface_a info; interface_b := interface_b info;
     latency_a_to_b_ms := latency_a_to_b_ms info; latency_b_to_a_ms := latency_b_to_a_ms info;
     commanded_netem_ms := Some netem; link_type := link_type info; range_km := range_km info;
     authority_sim_time := authority_sim_time info; authority_source := authority_source info;
     authority_sequence := authority_sequence info; contact := contact info; drain := drain info;
     stage_losses := stage_losses info |}.

Definition netem_of (c : LatencyCompensation) : float * float :=
  (lk_netem_a_to_b_ms c, lk_netem_b_to_a_ms c).

(** One pass of the loop: the plan, and the records with what was commanded. *)
Definition link_up_pair (acc : LinkUpBatchPlan * Links) (p : node_pair) :
    result (LinkUpBatchPlan * Links) :=
  let! info := or_raise (acc.2 !! p)
    (RuntimeError "Dispatch planner requested LinkUp for missing desired pair") in
  raise_if is_none (contact info) && negb (stage =? LINK_UP_STAGE_OPEN)
    with ValueError "local link opens at once and has no PREPARE" ;;
  let! l := link_locality loc p.1 p.2 in
  let! c := compensation_for_pair p.1 p.2 (latency_a_to_b_ms info, latency_b_to_a_ms info) in
  let! msgs := link_up_messages p info l (netem_of c) in
  Ok ({| up_batch := add_messages up_iface p (up_batch acc.1) msgs;
         pair_compensation := <[p := c]> (pair_compensation acc.1) |},
      <[p := with_netem info (netem_of c)]> acc.2).

(** [build_link_up_batch_plan]: the plan and the updated [desired]. *)
Definition build_link_up_batch_plan (pairs : list node_pair) (desired : Links) :
    result (LinkUpBatchPlan * Links) :=
  raise_if negb (bool_decide (stage ∈ [LINK_UP_STAGE_PREPARE; LINK_UP_STAGE_OPEN]))
    with ValueError "a LinkUp is built for PREPARE or OPEN" ;;
  foldM link_up_pair ({| up_batch := empty_batch; pair_compensation := ∅ |}, desired) pairs.
End Up.
End Build.

(** ** Restaging *)

Definition with_stage (u : InterfaceUp) (stage : Z) : InterfaceUp :=
  {| up_iface := up_iface u; up_peer := up_peer u; up_link_type := up_link_type u;
     up_latency_ms := up_latency_ms u; up_peer_latency_ms := up_peer_latency_ms u;
     up_rates := up_rates u; up_peer_rates := up_peer_rates u; up_gs_id := up_gs_id u;
     up_sat_id := up_sat_id u; up_locality := up_locality u;
     up_remote_node_ip := up_remote_node_ip u; up_vni := up_vni u; up_stage := stage;
     up_contact_id := up_contact_id u; up_receive_latency_ms := up_receive_latency_ms u |}.

(** [{pair: d[pair] for pair in pairs}]. *)
Definition select {A} (what : string) (d : gmap node_pair A) (pairs : list node_pair) :
    result (gmap node_pair A) :=
  foldM (λ acc p, let! a := or_raise (d !! p) (KeyError what) in Ok (<[p := a]> acc)) ∅ pairs.

(** [restage_link_up_plan]. *)
Definition restage_link_up_plan (plan : LinkUpBatchPlan) (pairs : list node_pair) (stage : Z) :
    result LinkUpBatchPlan :=
  let! chosen := select "pair_agent_ifaces" (pair_agent_ifaces (up_batch plan)) pairs in
  let acks : gset InterfaceAck := ⋃ (map snd (map_to_list chosen)) in
  let restaged := fold_left (λ d x, fold_left (λ d u,
      if bool_decide (ack_key up_iface x.1 u ∈ acks) then append_to x.1 (with_stage u stage) d else d)
    x.2 d) (agent_ifaces (up_batch plan)) [] in
  let! compensation := select "pair_compensation" (pair_compensation plan) pairs in
  Ok {| up_batch := {| agent_ifaces := restaged; pair_agent_ifaces := chosen |};
        pair_compensation := compensation |}.

(** ** What a batch holds *)

Section BatchLemmas.
Context {M : Type} (key : M → Iface).
Implicit Types (plan : BatchPlan M) (msgs : list (string * M)).

(** The messages one agent gets. *)
Definition to_agent plan (a : string) : list M := default [] (dict_get a (agent_ifaces plan)).

(** The acknowledgements a pair needs. *)
Definition acks_of plan (p : node_pair) : gset InterfaceAck :=
  default ∅ (pair_agent_ifaces plan !! p).

Definition addressed (a : string) msgs : list M :=
  map snd (List.filter (λ x, bool_decide (x.1 = a)) msgs).
Definition ack_set msgs : gset InterfaceAck := list_to_set (map (λ x, ack_key key x.1 x.2) msgs).

Lemma elem_of_addressed a m msgs : m ∈ addressed a msgs ↔ (a, m) ∈ msgs.
Proof.
  unfold addressed. rewrite list_elem_of_fmap. split.
  - intros ([a' m'] & -> & [Hin Ha]%list_elem_of_In%filter_In).
    apply bool_decide_eq_true in Ha as <-. by apply list_elem_of_In.
  - intros H. exists (a, m). split; [done|]. apply list_elem_of_In, filter_In.
    by rewrite <- list_elem_of_In, bool_decide_eq_true_2.
Qed.

Lemma elem_of_ack_set a i msgs :
  (a, i) ∈ ack_set msgs ↔ ∃ m, (a, m) ∈ msgs ∧ key m = i.
Proof.
  unfold ack_set, ack_key. rewrite elem_of_list_to_set, list_elem_of_fmap. split.
  - intros ([a' m'] & [= -> ->] & H). eauto.
  - intros (m & H & <-). by exists (a, m).
Qed.

Lemma to_agent_append a a' (m : M) (d : dict string (list M)) :
  default [] (dict_get a' (append_to a m d)) =
  default [] (dict_get a' d) ++ (if bool_decide (a = a') then [m] else []).
Proof.
  unfold append_to. rewrite dict_get_set. destruct (decide (a' = a)) as [->|].
  - by rewrite bool_decide_eq_true_2.
  - by rewrite bool_decide_eq_false_2, app_nil_r.
Qed.

Lemma to_agent_add p plan msgs a :
  to_agent (add_messages key p plan msgs) a = to_agent plan a ++ addressed a msgs.
Proof.
  unfold add_messages. revert plan. induction msgs as [|[a' m] msgs IH]; intros plan; simpl.
  { by rewrite app_nil_r. }
  rewrite IH. unfold to_agent at 1, addressed. simpl. rewrite to_agent_append, <- app_assoc.
  by case_bool_decide.
Qed.

Lemma acks_add p plan msgs q :
  acks_of (add_messages key p plan msgs) q =
  if decide (q = p) then ack_set msgs ∪ acks_of plan q else acks_of plan q.
Proof.
  unfold add_messages. revert plan. induction msgs as [|[a m] msgs IH]; intros plan; simpl.
  { destruct (decide (q = p)); set_solver. }
  rewrite IH. unfold acks_of, ack_set. simpl. destruct (decide (q = p)) as [->|].
  - rewrite lookup_insert_eq. simpl. set_solver.
  - by rewrite lookup_insert_ne.
Qed.

Lemma in_plan_add p plan msgs q :
  is_Some (pair_agent_ifaces (add_messages key p plan msgs) !! q) ↔
  is_Some (pair_agent_ifaces plan !! q) ∨ q = p ∧ msgs ≠ [].
Proof.
  unfold add_messages. revert plan. induction msgs as [|am msgs IH]; intros plan; simpl.
  { naive_solver. }
  rewrite IH. simpl. rewrite lookup_insert_is_Some'. naive_solver.
Qed.

(** A batch built pair by pair. *)
Definition batch_of (batches : list (node_pair * list (string * M))) : BatchPlan M :=
  fold_left (λ plan b, add_messages key b.1 plan b.2) batches empty_batch.

Lemma batch_of_snoc batches b :
  batch_of (batches ++ [b]) = add_messages key b.1 (batch_of batches) b.2.
Proof. unfold batch_of. by rewrite fold_left_app. Qed.

Lemma to_agent_batch batches a :
  to_agent (batch_of batches) a = batches ≫= λ b, addressed a b.2.
Proof.
  induction batches as [|b batches IH] using rev_ind; [done|].
  rewrite batch_of_snoc, to_agent_add, IH, bind_app. simpl. by rewrite app_nil_r.
Qed.

Lemma acks_batch batches p ack :
  ack ∈ acks_of (batch_of batches) p ↔ ∃ msgs, (p, msgs) ∈ batches ∧ ack ∈ ack_set msgs.
Proof.
  induction batches as [|b batches IH] using rev_ind.
  { split; [set_solver|]. intros (? & ?%elem_of_nil & _). done. }
  rewrite batch_of_snoc, acks_add. setoid_rewrite elem_of_app.
  setoid_rewrite list_elem_of_singleton. destruct b as [q msgs]. simpl.
  destruct (decide (p = q)) as [->|Hne]; [rewrite elem_of_union|]; rewrite IH; naive_solver.
Qed.

Lemma in_plan_batch batches p :
  is_Some (pair_agent_ifaces (batch_of batches) !! p) ↔ ∃ msgs, (p, msgs) ∈ batches ∧ msgs ≠ [].
Proof.
  induction batches as [|b batches IH] using rev_ind.
  { split; [by intros [? ?]|]. intros (? & ?%elem_of_nil & _). done. }
  rewrite batch_of_snoc, in_plan_add, IH. setoid_rewrite elem_of_app.
  setoid_rewrite list_elem_of_singleton. destruct b as [q msgs]. naive_solver.
Qed.

(** Every message is acknowledged for its pair, and only messages are. *)
Lemma batch_accounted batches a i :
  (∃ p, (a, i) ∈ acks_of (batch_of batches) p) ↔
  ∃ m, m ∈ to_agent (batch_of batches) a ∧ key m = i.
Proof.
  setoid_rewrite acks_batch. setoid_rewrite elem_of_ack_set. rewrite to_agent_batch.
  setoid_rewrite list_elem_of_bind. setoid_rewrite elem_of_addressed. split.
  - intros (p & msgs & Hb & m & Hm & Hi). exists m. split; [|done]. by exists (p, msgs).
  - intros (m & ([p msgs] & Hm & Hb) & Hi). exists p, msgs. eauto.
Qed.
End BatchLemmas.
