(* ===== verification/BatchTheorems.v ===== *)
(** * What the Node Agents are told

    Theorems about the batches of [NodeAgentBatches]: both ends of a link are
    wired to each other with the delay each transmits, a teardown reaches exactly
    what the setup built, the open of a prepared contact is what it would have
    been if built anew with the same delays, and every message is accounted for by
    the acknowledgements of its pair. *)

From S2P Require Import Prelude.
From S2P Require Import PyFloat.
From S2P Require Import PyData.
From S2P Require Import PyTime.
From S2P Require Import GroundTypes.
From S2P Require Import EventDiff.
From S2P Require Import DesiredState.
From S2P Require Import Authority.
From S2P Require Import Actuation.
From S2P Require Import DispatchPlanner.
From S2P Require Import Placement.
From S2P Require Import Substrate.
From S2P Require Import NodeAgentBatches.
From stdpp Require Import base list strings gmap.
Local Open Scope Z_scope.

Section Up.
Context (loc : PodLocationMap) (gs_capacities : gmap string Z)
        (rates : gmap Iface InterfaceRates)
        (comp : string → string → float * float → result LatencyCompensation) (stage : Z).
Abbreviation messages := (link_up_messages loc gs_capacities rates stage).
Abbreviation build := (build_link_up_batch_plan loc gs_capacities rates comp stage).

(** What one pass of the loop plans for its pair. *)
Definition pair_planned (desired : Links) (p : node_pair) (msgs : list (string * InterfaceUp))
    (c : LatencyCompensation) : Prop :=
  ∃ info l, desired !! p = Some info ∧ link_locality loc p.1 p.2 = Ok l ∧
    (is_none (contact info) = true → stage = LINK_UP_STAGE_OPEN) ∧
    comp p.1 p.2 (latency_a_to_b_ms info, latency_b_to_a_ms info) = Ok c ∧
    messages p info l (netem_of c) = Ok msgs.

(** The loop, pair by pair. *)
Lemma link_up_pairs desired pairs plan desired' :
  NoDup pairs → build pairs desired = Ok (plan, desired') →
  ∃ batches, map fst batches = pairs ∧ up_batch plan = batch_of up_iface batches ∧
    (∀ p msgs, (p, msgs) ∈ batches → ∃ c info,
      pair_planned desired p msgs c ∧ pair_compensation plan !! p = Some c ∧
      desired !! p = Some info ∧ desired' !! p = Some (with_netem info (netem_of c))) ∧
    (∀ p, p ∉ pairs → desired' !! p = desired !! p).
Proof.
  intros Hnd H. unfold build_link_up_batch_plan in H. rguard H as Hst.
  set (I := λ pre (acc : LinkUpBatchPlan * Links),
    ∃ batches, map fst batches = pre ∧ up_batch acc.1 = batch_of up_iface batches ∧
    (∀ p msgs, (p, msgs) ∈ batches → ∃ c info,
      pair_planned desired p msgs c ∧ pair_compensation acc.1 !! p = Some c ∧
      desired !! p = Some info ∧ acc.2 !! p = Some (with_netem info (netem_of c))) ∧
    (∀ p, p ∉ pre → acc.2 !! p = desired !! p)).
  change (I pairs (plan, desired')). refine (foldM_prefix I _ _ _ _ _ _ H).
  2: { exists []. split; [done|]. split; [done|]. split; [by intros ? ? ?%elem_of_nil|done]. }
  clear H. intros pre p post acc acc' Hl (batches & Hpre & Hup & Hb & Hd) Hx. unfold link_up_pair in Hx.
  rbind Hx as info Hi. rguard Hx as Hs. rbind Hx as l Hloc. rbind Hx as c Hc. rbind Hx as msgs Hm.
  injection Hx as <-. assert (p ∉ pre) as Hp.
  { rewrite Hl in Hnd. apply NoDup_app in Hnd as (_ & Hnd & _). set_solver. }
  rewrite Hd in Hi by done. exists (batches ++ [(p, msgs)]). simpl. split; [by rewrite map_app, Hpre|].
  split; [by rewrite batch_of_snoc, Hup|]. split.
  - intros q ms [Hq|[= -> ->]%list_elem_of_singleton]%elem_of_app.
    + assert (q ≠ p) as Hne.
      { intros ->. apply Hp. rewrite <- Hpre. apply list_elem_of_fmap. by exists (p, ms). }
      destruct (Hb q ms Hq) as (c' & info' & ? & ? & ? & ?). exists c', info'.
      by rewrite !lookup_insert_ne.
    + exists c, info. rewrite !lookup_insert_eq. repeat split; try done.
      exists info, l. repeat split; try done. intros Hn. rewrite Hn in Hs. simpl in Hs.
      apply negb_false_iff, Z.eqb_eq in Hs. done.
  - intros q Hq. apply not_elem_of_app in Hq as [Hq Hqp]. rewrite lookup_insert_ne by set_solver.
    by apply Hd.
Qed.

(** Both ends of a message pair. *)
Record wired (p : node_pair) (info : ActiveLinkInfo) (l : Locality) (netem : float * float)
    (aa ab : string) (ua ub : InterfaceUp) : Prop := {
  wd_agent_a : agent_addr loc p.1 = Ok aa;
  wd_agent_b : agent_addr loc p.2 = Ok ab;
  wd_iface_a : up_iface ua = (p.1, interface_a info);
  wd_iface_b : up_iface ub = (p.2, interface_b info);
  wd_peer_a : up_peer ua = up_iface ub;
  wd_peer_b : up_peer ub = up_iface ua;
  wd_latency_a : up_latency_ms ua = netem.1;
  wd_latency_b : up_latency_ms ub = netem.2;
  wd_rates_a : up_rates ua = rates !! up_iface ua;
  wd_rates_b : up_rates ub = rates !! up_iface ub;
  wd_vni : up_vni ua = up_vni ub;
  wd_tunnel : l = LOCALITY_CROSS_NODE → VNI_MIN ≤ up_vni ua ≤ VNI_MAX ∧
    host_ip loc p.2 = Ok (up_remote_node_ip ua) ∧ host_ip loc p.1 = Ok (up_remote_node_ip ub);
  wd_contact : ∀ c, contact info = Some c →
    up_contact_id ua = Contact_contact_id c ∧ up_contact_id ub = Contact_contact_id c ∧
    up_receive_latency_ms ua = up_latency_ms ub ∧ up_receive_latency_ms ub = up_latency_ms ua ∧
    up_peer_rates ua = up_rates ub ∧ up_peer_rates ub = up_rates ua;
}.

(** One message that wires both ends of a ground link within a node. *)
Record wired_locally (p : node_pair) (info : ActiveLinkInfo) (netem : float * float)
    (e : GroundEndpoints) (agent : string) (u : InterfaceUp) : Prop := {
  wl_agent : agent_addr loc (ge_sat_id e) = Ok agent;
  wl_iface : up_iface u = (ge_gs_id e, ge_gs_iface e);
  wl_peer : up_peer u = (ge_sat_id e, ge_sat_iface e);
  wl_latency : egress_ms p (ge_gs_id e) netem = Ok (up_latency_ms u);
  wl_peer_latency : egress_ms p (ge_sat_id e) netem = Ok (up_peer_latency_ms u);
  wl_rates : up_rates u = rates !! up_iface u;
  wl_peer_rates : up_peer_rates u = rates !! up_peer u;
}.

Lemma egress_a p netem : egress_ms p p.1 netem = Ok netem.1.
Proof. unfold egress_ms. by rewrite bool_decide_eq_true_2. Qed.
Lemma egress_b p netem : p.1 ≠ p.2 → egress_ms p p.2 netem = Ok netem.2.
Proof. intros H. unfold egress_ms. by rewrite bool_decide_eq_false_2, bool_decide_eq_true_2. Qed.

Lemma terminal_rates_Ok i r : terminal_rates_message rates i = Ok r → rates !! i = Some r.
Proof.
  unfold terminal_rates_message, interface_terminal_rates. intros H. rbind H as r' Hr.
  injection H as <-. rewrite Hr. by destruct r'.
Qed.

Lemma remote_ip_Ok l n ip :
  remote_ip loc l n = Ok ip → l = LOCALITY_CROSS_NODE → host_ip loc n = Ok ip.
Proof. intros H ->. exact H. Qed.

Lemma mapM_pair {A B} (f : A → result B) x y r :
  mapM_r f [x; y] = Ok r → ∃ bx by_, r = [bx; by_] ∧ f x = Ok bx ∧ f y = Ok by_.
Proof.
  simpl. intros H. rbind H as bx Hx. rbind H as ys Hys. injection H as <-.
  rbind Hys as by_ Hy. injection Hys as <-. eauto.
Qed.

Lemma isl_vni_bounds l p info : l = LOCALITY_CROSS_NODE → VNI_MIN ≤ isl_vni l p info ≤ VNI_MAX.
Proof. intros ->. apply compute_vni_bounds. Qed.
Lemma ground_vni_bounds l e : l = LOCALITY_CROSS_NODE → VNI_MIN ≤ ground_vni l e ≤ VNI_MAX.
Proof. intros ->. apply compute_vni_bounds. Qed.

Lemma isl_wired p info l netem msgs :
  p.1 ≠ p.2 → link_type info = isl_link → messages p info l netem = Ok msgs →
  ∃ aa ab ua ub, msgs = [(aa, ua); (ab, ub)] ∧ wired p info l netem aa ab ua ub.
Proof.
  intros Hne Ht H. unfold link_up_messages in H. rewrite Ht in H.
  apply mapM_pair in H as ([aa ua] & [ab ub] & -> & Ha & Hb). simpl in Ha, Hb.
  exists aa, ab, ua, ub. split; [done|].
  rbind Ha as a' Ea. rbind Ha as ipa Ia. rbind Ha as la La. rbind Ha as ra Ra.
  rbind Hb as b' Eb. rbind Hb as ipb Ib. rbind Hb as lb Lb. rbind Hb as rb Rb.
  rewrite egress_a in La. rewrite egress_b in Lb by done. injection La as <-. injection Lb as <-.
  apply terminal_rates_Ok in Ra. apply terminal_rates_Ok in Rb.
  destruct (contact info) as [c|] eqn:Ec.
  - rbind Ha as va Va. rbind Ha as qa Qa. rbind Hb as vb Vb. rbind Hb as qb Qb.
    rewrite egress_a in Vb. rewrite egress_b in Va by done. injection Va as <-. injection Vb as <-.
    apply terminal_rates_Ok in Qa. apply terminal_rates_Ok in Qb.
    injection Ha as <- <-. injection Hb as <- <-. split; simpl; try done.
    + intros Hl. split; [by apply isl_vni_bounds|]. by split; eapply remote_ip_Ok.
    + rewrite Ec. intros c' [= <-]. rewrite <- Ra, <- Rb, Qa, Qb. done.
  - injection Ha as <- <-. injection Hb as <- <-. split; simpl; try done.
    + intros Hl. split; [by apply isl_vni_bounds|]. by split; eapply remote_ip_Ok.
    + by rewrite Ec.
Qed.
(** The endpoints of a ground link are the pair's, one way round or the other. *)
Lemma endpoints_cases p info e :
  ground_endpoints gs_capacities p info = Some e →
  e = {| ge_gs_id := p.1; ge_sat_id := p.2; ge_gs_iface := interface_a info;
         ge_sat_iface := interface_b info |} ∨
  e = {| ge_gs_id := p.2; ge_sat_id := p.1; ge_gs_iface := interface_b info;
         ge_sat_iface := interface_a info |}.
Proof.
  unfold ground_endpoints. intros H.
  destruct (planner_ground_side gs_capacities p) as [[]|]; simpl in H; [| |done];
    injection H as <-; auto.
Qed.

Lemma iface_at_gs e : iface_at e (ge_gs_id e) = ge_gs_iface e.
Proof. unfold iface_at. by rewrite bool_decide_eq_true_2. Qed.
Lemma iface_at_sat e : ge_gs_id e ≠ ge_sat_id e → iface_at e (ge_sat_id e) = ge_sat_iface e.
Proof. intros H. unfold iface_at. by rewrite bool_decide_eq_false_2. Qed.
Lemma peer_iface_at_gs e : peer_iface_at e (ge_gs_id e) = ge_sat_iface e.
Proof. unfold peer_iface_at. by rewrite bool_decide_eq_true_2. Qed.
Lemma peer_iface_at_sat e :
  ge_gs_id e ≠ ge_sat_id e → peer_iface_at e (ge_sat_id e) = ge_gs_iface e.
Proof. intros H. unfold peer_iface_at. by rewrite bool_decide_eq_false_2. Qed.

(** A long-delay ground pass. *)
Lemma contact_wired p info l netem msgs c :
  p.1 ≠ p.2 → link_type info = ground_link → contact info = Some c →
  messages p info l netem = Ok msgs →
  ∃ aa ab ua ub, msgs ≡ₚ [(aa, ua); (ab, ub)] ∧ wired p info l netem aa ab ua ub.
Proof.
  intros Hne Ht Hc H. unfold link_up_messages in H. rewrite Ht, Hc in H. rbind H as e He.
  apply mapM_pair in H as ([ag ug] & [as_ us] & -> & Hg & Hs).
  rbind Hg as ag' Eg. rbind Hg as lg Lg. rbind Hg as rg Rg. rbind Hg as ig Ig.
  rbind Hg as vg Vg. rbind Hg as qg Qg.
  rbind Hs as as' Es. rbind Hs as ls Ls. rbind Hs as rs Rs. rbind Hs as is_ Is.
  rbind Hs as vs Vs. rbind Hs as qs Qs.
  apply terminal_rates_Ok in Rg, Qg, Rs, Qs.
  assert (ge_gs_id e ≠ ge_sat_id e) as Hge by (destruct (endpoints_cases _ _ _ He) as [->| ->]; simpl; congruence).
  rewrite iface_at_gs in *. rewrite peer_iface_at_gs in *. rewrite iface_at_sat in * by done.
  rewrite peer_iface_at_sat in * by done. injection Hg as <- <-. injection Hs as <- <-.
  destruct (endpoints_cases _ _ _ He) as [->| ->]; simpl in *;
    rewrite ?egress_a, ?egress_b in * by done; simplify_eq.
  - eexists _, _, _, _. split; [reflexivity|]. split; simpl; try done.
    + intros Hl. split; [by apply ground_vni_bounds|]. by split; eapply remote_ip_Ok.
    + intros c' Hc'. rewrite Hc in Hc'. injection Hc' as <-. repeat split; done || congruence.
  - eexists _, _, _, _. split; [apply perm_swap|]. split; simpl; try done.
    + intros Hl. split; [by apply ground_vni_bounds|]. by split; eapply remote_ip_Ok.
    + intros c' Hc'. rewrite Hc in Hc'. injection Hc' as <-. repeat split; done || congruence.
Qed.

(** A ground link between two nodes. *)
Lemma cross_wired p info netem msgs :
  p.1 ≠ p.2 → link_type info = ground_link → contact info = None →
  messages p info LOCALITY_CROSS_NODE netem = Ok msgs →
  ∃ aa ab ua ub, msgs ≡ₚ [(aa, ua); (ab, ub)] ∧
    wired p info LOCALITY_CROSS_NODE netem aa ab ua ub.
Proof.
  intros Hne Ht Hc H. unfold link_up_messages in H. rewrite Ht, Hc in H. rbind H as e He.
  apply mapM_pair in H as ([as_ us] & [ag ug] & -> & Hs & Hg).
  rbind Hg as ig Ig. rbind Hg as ag' Eg. rbind Hg as lg Lg. rbind Hg as rg Rg.
  rbind Hs as is_ Is. rbind Hs as as' Es. rbind Hs as ls Ls. rbind Hs as rs Rs.
  apply terminal_rates_Ok in Rg, Rs.
  assert (ge_gs_id e ≠ ge_sat_id e) as Hge by (destruct (endpoints_cases _ _ _ He) as [->| ->]; simpl; congruence).
  rewrite iface_at_gs in *. rewrite peer_iface_at_gs in *. rewrite iface_at_sat in * by done.
  rewrite peer_iface_at_sat in * by done. injection Hg as <- <-. injection Hs as <- <-.
  destruct (endpoints_cases _ _ _ He) as [->| ->]; simpl in *;
    rewrite ?egress_a, ?egress_b in * by done; simplify_eq.
  - eexists _, _, _, _. split; [apply perm_swap|]. split; simpl; try done.
    + intros Hl. split; [by apply ground_vni_bounds|done].
    + by rewrite Hc.
  - eexists _, _, _, _. split; [reflexivity|]. split; simpl; try done.
    + intros Hl. split; [by apply ground_vni_bounds|done].
    + by rewrite Hc.
Qed.

(** A ground link within one node. *)
Lemma local_wired p info netem msgs :
  link_type info = ground_link → contact info = None →
  messages p info LOCALITY_LOCAL netem = Ok msgs →
  ∃ e agent u, ground_endpoints gs_capacities p info = Some e ∧ msgs = [(agent, u)] ∧
    wired_locally p info netem e agent u.
Proof.
  intros Ht Hc H. unfold link_up_messages in H. rewrite Ht, Hc in H. rbind H as e He.
  rbind H as agent Ea. rbind H as la La. rbind H as lb Lb. rbind H as ra Ra. rbind H as rb Rb.
  apply terminal_rates_Ok in Ra, Rb. injection H as <-. eexists e, _, _. split; [done|].
  split; [reflexivity|]. by split.
Qed.
End Up.

(** ** Setup and teardown *)

(** Where an operation goes and what it is about: everything of a message but its
    stage, its contact and its shaping. *)
Definition up_target (am : string * InterfaceUp) :=
  let '(agent, u) := am in
  (agent, up_iface u, up_peer u, up_link_type u, up_gs_id u, up_sat_id u, up_locality u,
   up_remote_node_ip u, up_vni u).
Definition down_target (am : string * InterfaceDown) :=
  let '(agent, d) := am in
  (agent, dn_iface d, dn_peer d, dn_link_type d, dn_gs_id d, dn_sat_id d, dn_locality d,
   dn_remote_node_ip d, dn_vni d).

(** The ends a close of the whole link names. *)
Definition whole_link (p : node_pair) (info : ActiveLinkInfo) : option (gmap node_pair (gset string)) :=
  if long_delay info then Some {[p := {[p.1; p.2]}]} else None.

Lemma whole_reaches p info n : n = p.1 ∨ n = p.2 → reached (whole_link p info) p n = true.
Proof.
  intros H. unfold reached, closing, whole_link. destruct (long_delay info); [|done]. simpl.
  rewrite lookup_singleton_eq. apply bool_decide_eq_true_2. set_solver.
Qed.

Lemma whole_check p info : check_down LINK_DOWN_STAGE_CLOSE (whole_link p info) p info = Ok tt.
Proof.
  unfold check_down, whole_link, long_delay, closing. destruct (contact info); simpl; [|done].
  by rewrite lookup_singleton_eq.
Qed.

Lemma contact_id_total info c cids i :
  contact info = Some c → ∃ cid, down_contact_id cids info i = Ok cid.
Proof.
  intros H. unfold down_contact_id, end_contact_id. rewrite H.
  destruct (truthy _); [by eauto|]. case_match; eauto.
Qed.

(** Two maps over the same list whose results agree on what [f] and [g] see. *)
Lemma mapM_target {A B C T} (m : A → result B) (m' : A → result C) (f : B → T) (g : C → T) l r :
  (∀ x y, x ∈ l → m x = Ok y → ∃ z, m' x = Ok z ∧ g z = f y) → mapM_r m l = Ok r →
  ∃ r', mapM_r m' l = Ok r' ∧ map g r' = map f r.
Proof.
  revert r. induction l as [|x l IH]; intros r Hm H; simpl in *; [injection H as <-; by exists []|].
  rbind H as y Hy. rbind H as ys Hys. injection H as <-.
  destruct (Hm x y) as (z & -> & Hz); [set_solver|done|].
  destruct (IH ys) as (r' & -> & Hr'); [set_solver|done|]. simpl. exists (z :: r'). simpl. by rewrite Hz, Hr'.
Qed.

Lemma filter_all {A} (f : A → bool) l : (∀ x, x ∈ l → f x = true) → List.filter f l = l.
Proof.
  induction l as [|x l IH]; intros H; simpl; [done|]. rewrite H by set_solver. f_equal.
  apply IH. set_solver.
Qed.

(** a teardown reaches what the setup built.  Whenever the LinkUp of a
    record can be planned, so can its close, and the close addresses exactly the
    same operations: the same agents, interfaces, peers, station and satellite,
    locality, remote address and VXLAN identifier, in the same order. *)
Theorem teardown_reaches_setup loc gs_capacities rates stage p info l netem cids ups :
  p.1 ≠ p.2 → link_locality loc p.1 p.2 = Ok l →
  link_up_messages loc gs_capacities rates stage p info l netem = Ok ups →
  ∃ downs, link_down_messages loc gs_capacities LINK_DOWN_STAGE_CLOSE (whole_link p info) cids p info
             = Ok downs ∧ map down_target downs = map up_target ups.
Proof.
  intros Hne Hl H. unfold link_down_messages. rewrite Hl, whole_check. cbn [rbind].
  unfold link_up_messages in H. destruct (link_type info) eqn:Ht.
  - rewrite filter_all.
    2: { intros x Hx. apply whole_reaches. unfold isl_ends in Hx. set_solver. }
    revert H. apply mapM_target. intros [i peer] [agent u] _ Hx.
    rbind Hx as agent' Ea. rbind Hx as ip Ip. rbind Hx as lat Elat. rbind Hx as r Er.
    rewrite Ea. simpl. rewrite Ip. simpl. destruct (contact info) as [c|] eqn:Ec.
    + rbind Hx as lat' Elat'. rbind Hx as r' Er'. injection Hx as <- <-.
      destruct (contact_id_total info c cids i Ec) as [cid ->]. by eexists.
    + injection Hx as <- <-. by eexists.
  - rbind H as e He. unfold required_ground_endpoints. rewrite He. cbn [rbind or_raise].
    pose proof (endpoints_cases _ _ _ _ He) as Hcases.
    destruct (contact info) as [c|] eqn:Ec; [|destruct l].
    + rewrite filter_all.
      2: { intros x Hx. apply whole_reaches. destruct Hcases as [-> | ->]; set_solver. }
      revert H. apply mapM_target. intros [nid peer] [agent u] _ Hx.
      rbind Hx as agent' Ea. rbind Hx as lat Elat. rbind Hx as r Er. rbind Hx as ip Ip.
      rbind Hx as lat' Elat'. rbind Hx as r' Er'. injection Hx as <- <-.
      rewrite Ea. simpl. rewrite Ip. simpl.
      destruct (contact_id_total info c cids (nid, iface_at e nid) Ec) as [cid ->]. by eexists.
    + rbind H as agent Ea. rbind H as la La. rbind H as lb Lb. rbind H as ra Ra. rbind H as rb Rb.
      injection H as <-. rewrite Ea. by eexists.
    + apply mapM_pair in H as ([sa su] & [ga gu] & -> & Hs & Hg).
      rbind Hs as ips Is. rbind Hs as as_ Es. rbind Hs as ls Ls. rbind Hs as rs Rs.
      rbind Hg as ipg Ig. rbind Hg as ag Eg. rbind Hg as lg Lg. rbind Hg as rg Rg.
      injection Hs as <- <-. injection Hg as <- <-. rewrite Es, Eg. simpl.
      rewrite (bool_decide_eq_true_2 (ge_gs_id e = ge_gs_id e)) by done.
      rewrite bool_decide_eq_false_2 by (destruct Hcases as [-> | ->]; simpl; congruence).
      rewrite Is. simpl. rewrite Ig. simpl. by eexists.
Qed.

(** ** Plans *)

(** every link comes up the same at both ends.  In a LinkUp plan, a pair's
    record gets the delays commanded for it, and its two ends get one message each,
    at the agent of their own node: each names the other as peer, transmits with
    the delay of its own direction and its own terminal's rates, and shares the
    VXLAN identifier (in the 24-bit space, with the peer's host address) when the
    link crosses nodes; a long-delay end names the contact and receives with the
    delay and the rates the other end transmits.  Only a local ground link within
    one node is wired by a single message.  The pair's acknowledgements are exactly
    its messages'. *)
Theorem up_plan_wires_both_ends loc gs_capacities rates comp stage pairs desired plan desired' p info :
  NoDup pairs → p ∈ pairs → p.1 ≠ p.2 → desired !! p = Some info →
  build_link_up_batch_plan loc gs_capacities rates comp stage pairs desired = Ok (plan, desired') →
  ∃ l netem, link_locality loc p.1 p.2 = Ok l ∧ desired' !! p = Some (with_netem info netem) ∧
    if bool_decide (link_type info = ground_link) && is_none (contact info) && negb (is_cross l) then
      ∃ e agent u, ground_endpoints gs_capacities p info = Some e ∧
        u ∈ to_agent (up_batch plan) agent ∧ wired_locally loc rates p info netem e agent u ∧
        acks_of (up_batch plan) p = {[(agent, up_iface u)]}
    else
      ∃ aa ab ua ub, ua ∈ to_agent (up_batch plan) aa ∧ ub ∈ to_agent (up_batch plan) ab ∧
        wired loc rates p info l netem aa ab ua ub ∧
        acks_of (up_batch plan) p = {[(aa, up_iface ua); (ab, up_iface ub)]}.
Proof.
  intros Hnd Hp Hne Hinfo H.
  destruct (link_up_pairs _ _ _ _ _ _ _ _ _ Hnd H) as (batches & Hfst & Hup & Hb & _).
  assert (∃ msgs, (p, msgs) ∈ batches) as [msgs Hm].
  { rewrite <- Hfst in Hp. apply list_elem_of_fmap in Hp as ([q ms] & -> & ?). eauto. }
  destruct (Hb p msgs Hm) as (c & info' & (i & l & Hi & Hl & _ & _ & Hmsgs) & _ & Hd & Hd').
  simplify_eq. exists l, (netem_of c). split; [done|]. split; [done|].
  assert (∀ a u, (a, u) ∈ msgs → u ∈ to_agent (up_batch plan) a) as Hsent.
  { intros a u Hu. rewrite Hup, to_agent_batch. apply list_elem_of_bind. exists (p, msgs).
    split; [by apply elem_of_addressed|done]. }
  assert (acks_of (up_batch plan) p = ack_set up_iface msgs) as ->.
  { apply set_eq. intros ack. rewrite Hup, acks_batch. split; [|by eauto].
    intros (ms & Hms & Hack). pose proof (dict_in_get _ _ _ Hnd Hm) as E.
    rewrite (dict_in_get _ _ _ Hnd Hms) in E. by injection E as ->. }
  destruct (bool_decide _ && _ && _) eqn:E.
  - apply andb_true_iff in E as [[Ht%bool_decide_eq_true Hc]%andb_true_iff El].
    destruct l; [|done]. destruct (contact info) eqn:Ec; [done|].
    destruct (local_wired _ _ _ _ _ _ _ _ Ht Ec Hmsgs) as (e & agent & u & He & -> & Hw).
    exists e, agent, u. split; [done|]. split; [apply Hsent; set_solver|]. split; [done|].
    unfold ack_set, ack_key. simpl. set_solver.
  - assert (∃ aa ab ua ub, msgs ≡ₚ [(aa, ua); (ab, ub)] ∧
              wired loc rates p info l (netem_of c) aa ab ua ub) as (aa & ab & ua & ub & Hperm & Hw).
    { destruct (link_type info) eqn:Ht.
      - destruct (isl_wired _ _ _ _ _ _ _ _ _ Hne Ht Hmsgs) as (aa & ab & ua & ub & -> & Hw).
        by exists aa, ab, ua, ub.
      - destruct (contact info) as [ct|] eqn:Ec; [by eapply contact_wired|].
        destruct l; [done|]. by eapply cross_wired. }
    exists aa, ab, ua, ub. split; [apply Hsent; rewrite Hperm; set_solver|].
    split; [apply Hsent; rewrite Hperm; set_solver|]. split; [done|].
    apply set_eq. intros [a i]. rewrite elem_of_ack_set. setoid_rewrite Hperm.
    setoid_rewrite elem_of_cons. setoid_rewrite list_elem_of_singleton. set_solver.
Qed.

Lemma elem_of_mapM_r {A B} (f : A → result B) l r :
  mapM_r f l = Ok r → ∀ y, y ∈ r ↔ ∃ x, x ∈ l ∧ f x = Ok y.
Proof.
  revert r. induction l as [|x l IH]; intros r H y; simpl in H.
  { injection H as <-. rewrite elem_of_nil. setoid_rewrite elem_of_nil. naive_solver. }
  rbind H as z Hz. rbind H as zs Hzs. injection H as <-. rewrite elem_of_cons, (IH zs Hzs).
  split.
  - intros [->|(x' & ? & ?)]; [exists x|exists x']; rewrite elem_of_cons; auto.
  - intros (x' & [->|?]%elem_of_cons & E); [left; congruence|right; eauto].
Qed.

Lemma mapM_Ok_in {A B} (f : A → result B) l r x : mapM_r f l = Ok r → x ∈ l → ∃ y, f x = Ok y.
Proof.
  revert r. induction l as [|z l IH]; intros r H Hx; simpl in H; [by apply elem_of_nil in Hx|].
  rbind H as y Hy. rbind H as ys Hys. apply elem_of_cons in Hx as [->|Hx]; eauto.
Qed.

Section Down.
Context (loc : PodLocationMap) (gs_capacities : gmap string Z) (stage : Z)
        (ends : option (gmap node_pair (gset string))) (cids : option (gmap Iface string)).
Abbreviation messages := (link_down_messages loc gs_capacities stage ends cids).

(** The loop, pair by pair. *)
Lemma link_down_pairs pairs actual plan :
  build_link_down_batch_plan loc gs_capacities stage ends cids pairs actual = Ok plan →
  ∃ batches, plan = batch_of dn_iface batches ∧
    map fst batches = List.filter (λ p, negb (is_none (actual !! p))) pairs ∧
    ∀ p msgs, (p, msgs) ∈ batches → ∃ info, actual !! p = Some info ∧ messages p info = Ok msgs.
Proof.
  intros H. refine (foldM_prefix (λ pre plan, ∃ batches, plan = batch_of dn_iface batches ∧
    map fst batches = List.filter (λ p, negb (is_none (actual !! p))) pre ∧
    ∀ p msgs, (p, msgs) ∈ batches → ∃ info, actual !! p = Some info ∧ messages p info = Ok msgs)
    _ _ _ _ _ _ H).
  2: { exists []. split; [done|]. split; [done|]. by intros ? ? ?%elem_of_nil. }
  intros pre p post acc acc' _ (batches & -> & Hfst & Hb) Hx. rewrite List.filter_app. simpl.
  destruct (actual !! p) as [info|] eqn:Ei; simpl; [|injection Hx as <-; exists batches; by rewrite app_nil_r].
  rbind Hx as msgs Hm. injection Hx as <-. exists (batches ++ [(p, msgs)]).
  split; [by rewrite batch_of_snoc|]. split; [by rewrite map_app, Hfst|].
  intros q ms [Hq|[= -> ->]%list_elem_of_singleton]%elem_of_app; [by apply Hb|eauto].
Qed.

(** The interface of a node's end. *)
Definition end_of (p : node_pair) (info : ActiveLinkInfo) (i : Iface) : Prop :=
  i = (p.1, interface_a info) ∨ i = (p.2, interface_b info).

Lemma end_of_endpoints p info e nid :
  p.1 ≠ p.2 → ground_endpoints gs_capacities p info = Some e →
  nid = ge_gs_id e ∨ nid = ge_sat_id e → end_of p info (nid, iface_at e nid).
Proof.
  intros Hne He [->| ->]; [rewrite iface_at_gs|rewrite iface_at_sat];
    destruct (endpoints_cases _ _ _ _ He) as [->| ->]; simpl; try congruence;
    by (left + right).
Qed.

(** The messages of a long-delay link are its named ends'. *)
Lemma contact_downs p info c msgs :
  p.1 ≠ p.2 → contact info = Some c → messages p info = Ok msgs →
  (∀ a m, (a, m) ∈ msgs → end_of p info (dn_iface m) ∧ agent_addr loc (dn_iface m).1 = Ok a ∧
     reached ends p (dn_iface m).1 = true ∧ dn_stage m = stage ∧
     down_contact_id cids info (dn_iface m) = Ok (dn_contact_id m)) ∧
  (∀ i, end_of p info i → reached ends p i.1 = true → ∃ a m, (a, m) ∈ msgs ∧ dn_iface m = i).
Proof.
  intros Hne Hc H. unfold link_down_messages in H. rbind H as l Hl. rbind H as u Hu.
  rewrite Hc in H. destruct (link_type info) eqn:Ht; [|rbind H as e He]; split.
  - intros a m Hm. apply (elem_of_mapM_r _ _ _ H) in Hm as ([i peer] & Hin & Hx).
    rbind Hx as a' Ea. rbind Hx as ip Ip. rbind Hx as cid Ecid. injection Hx as <- <-. simpl.
    apply list_elem_of_In, filter_In in Hin as [Hin Hr]. simpl in Hr.
    apply list_elem_of_In in Hin. unfold isl_ends in Hin. repeat split; try done.
    unfold end_of. set_solver.
  - intros i Hi Hr. assert (∃ peer, (i, peer) ∈ isl_ends p info) as [peer Hin].
    { destruct Hi as [-> | ->]; eexists; [left|right; left]. }
    assert ((i, peer) ∈ List.filter (λ x, reached ends p x.1.1) (isl_ends p info)) as Hf.
    { apply list_elem_of_In, filter_In. by rewrite <- list_elem_of_In. }
    destruct (mapM_Ok_in _ _ _ _ H Hf) as [[a m] Hm]. exists a, m.
    split; [by apply (elem_of_mapM_r _ _ _ H); eauto|].
    rbind Hm as a' Ea. rbind Hm as ip Ip. rbind Hm as cid Ecid. by injection Hm as <- <-.
  - intros a m Hm. apply (elem_of_mapM_r _ _ _ H) in Hm as ([nid peer] & Hin & Hx).
    rbind Hx as a' Ea. rbind Hx as ip Ip. rbind Hx as cid Ecid. injection Hx as <- <-. simpl.
    apply list_elem_of_In, filter_In in Hin as [Hin Hr]. simpl in Hr.
    apply list_elem_of_In in Hin. repeat split; try done.
    eapply end_of_endpoints; [done..|]. set_solver.
  - intros i Hi Hr. assert (∃ nid peer, (nid, peer) ∈ [(ge_gs_id e, ge_sat_id e); (ge_sat_id e, ge_gs_id e)]
      ∧ i = (nid, iface_at e nid)) as (nid & peer & Hin & ->).
    { destruct (decide (i.1 = ge_gs_id e)) as [Hg|Hg].
      - exists (ge_gs_id e), (ge_sat_id e). split; [set_solver|]. rewrite iface_at_gs.
        destruct (endpoints_cases _ _ _ _ He) as [->| ->], Hi as [->| ->]; simpl in *; congruence.
      - exists (ge_sat_id e), (ge_gs_id e). split; [set_solver|].
        rewrite iface_at_sat by (destruct (endpoints_cases _ _ _ _ He) as [->| ->]; simpl; congruence).
        destruct (endpoints_cases _ _ _ _ He) as [->| ->], Hi as [->| ->]; simpl in *; congruence. }
    assert ((nid, peer) ∈ List.filter (λ x, reached ends p x.1)
      [(ge_gs_id e, ge_sat_id e); (ge_sat_id e, ge_gs_id e)]) as Hf.
    { apply list_elem_of_In, filter_In. by rewrite <- list_elem_of_In. }
    destruct (mapM_Ok_in _ _ _ _ H Hf) as [[a m] Hm]. exists a, m.
    split; [by apply (elem_of_mapM_r _ _ _ H); eauto|].
    rbind Hm as a' Ea. rbind Hm as ip Ip. rbind Hm as cid Ecid. by injection Hm as <- <-.
Qed.
End Down.

(** a stage of a long-delay link reaches exactly the ends it names.  In a
    LinkDown plan, a long-delay pair is acknowledged by precisely its named ends
    (both when none is named), each at the agent of its own node, and every
    message of the plan carries the stage and, on a long-delay pair, the contact
    its end carries, so it cannot reach a newer contact on the terminal. *)
Theorem stage_reaches_named_ends loc gs_capacities stage ends cids pairs actual plan p info c :
  NoDup pairs → p ∈ pairs → p.1 ≠ p.2 → actual !! p = Some info → contact info = Some c →
  build_link_down_batch_plan loc gs_capacities stage ends cids pairs actual = Ok plan →
  (∀ a i, (a, i) ∈ acks_of plan p ↔
     end_of p info i ∧ reached ends p i.1 = true ∧ agent_addr loc i.1 = Ok a) ∧
  (∀ a i, (a, i) ∈ acks_of plan p → ∃ m, m ∈ to_agent plan a ∧ dn_iface m = i ∧ dn_stage m = stage ∧
     down_contact_id cids info i = Ok (dn_contact_id m)).
Proof.
  intros Hnd Hp Hne Hi Hc H. destruct (link_down_pairs _ _ _ _ _ _ _ _ H) as (batches & -> & Hfst & Hb).
  assert (p ∈ map fst batches) as Hin.
  { rewrite Hfst. apply list_elem_of_In, filter_In. rewrite <- list_elem_of_In. by rewrite Hi. }
  apply list_elem_of_fmap in Hin as ([p' msgs] & -> & Hin). simpl in *.
  destruct (Hb _ _ Hin) as (info' & Hi' & Hm). simplify_eq.
  destruct (contact_downs _ _ _ _ _ _ _ _ _ Hne Hc Hm) as [H1 H2].
  assert (∀ ack, ack ∈ acks_of (batch_of dn_iface batches) p' ↔ ack ∈ ack_set dn_iface msgs) as Hack.
  { intros ack. rewrite acks_batch. split; [|by eauto]. intros (ms & Hms & Ha).
    assert (NoDup (map fst batches)) as Hnd'.
    { rewrite Hfst. refine (sublist_NoDup _ _ Hnd _).
      clear. induction pairs as [|x l IH]; simpl; [done|]. destruct (negb _); by constructor. }
    pose proof (dict_in_get _ _ _ Hnd' Hin) as E. rewrite (dict_in_get _ _ _ Hnd' Hms) in E.
    by injection E as ->. }
  split.
  - intros a i. rewrite Hack, elem_of_ack_set. split.
    + intros (m & Hin' & <-). destruct (H1 a m Hin') as (? & ? & ? & _). done.
    + intros (He & Hr & Ha). destruct (H2 i He Hr) as (a' & m & Hin' & <-). exists m. split; [|done].
      destruct (H1 a' m Hin') as (_ & Ha' & _). rewrite Ha in Ha'. by injection Ha' as ->.
  - intros a i. rewrite Hack, elem_of_ack_set. intros (m & Hin' & <-).
    destruct (H1 a m Hin') as (_ & _ & _ & ? & ?). exists m. repeat split; try done.
    rewrite to_agent_batch. apply list_elem_of_bind. exists (p', msgs).
    split; [by apply elem_of_addressed|done].
Qed.

(** ** Restaging *)

Definition rmap {A B} (f : A → B) (r : result A) : result B := let! a := r in Ok (f a).

Lemma rmap_bind {A B C} (f : B → C) (c : result A) (k : A → result B) :
  rmap f (rbind c k) = rbind c (λ a, rmap f (k a)).
Proof. by destruct c. Qed.

Lemma rbind_ext {A B} (c : result A) (k k' : A → result B) :
  (∀ a, k a = k' a) → rbind c k = rbind c k'.
Proof. intros H. destruct c; simpl; auto. Qed.

Lemma mapM_rmap {A B C} (f : A → result B) (g : A → result C) (h : B → C) l :
  (∀ x, g x = rmap h (f x)) → mapM_r g l = rmap (map h) (mapM_r f l).
Proof.
  intros H. induction l as [|x l IH]; simpl; [done|]. rewrite H, IH. unfold rmap.
  destruct (f x); simpl; [|done]. by destruct (mapM_r f l).
Qed.

Definition restaged (stage : Z) (am : string * InterfaceUp) : string * InterfaceUp :=
  (am.1, with_stage am.2 stage).

(** [stage_moves] pushes [rmap] through the binds of a message. *)
Ltac stage_moves :=
  repeat first [rewrite rmap_bind; apply rbind_ext; intros ?; cbn beta | done].

(** Only the stage of a message depends on the stage planned. *)
Lemma messages_restaged loc gs_capacities rates s s' p info l netem :
  link_up_messages loc gs_capacities rates s' p info l netem =
  rmap (map (restaged s')) (link_up_messages loc gs_capacities rates s p info l netem).
Proof.
  unfold link_up_messages. destruct (link_type info).
  - apply mapM_rmap. intros [i peer]. stage_moves. destruct (contact info); stage_moves.
  - stage_moves. destruct (contact info); [|destruct l].
    + apply mapM_rmap. intros [nid peer]. stage_moves.
    + stage_moves.
    + apply mapM_rmap. intros [nid peer]. stage_moves.
Qed.

(** A plan of pairs that can be planned one by one. *)
Lemma build_total loc gs_capacities rates comp stage pairs desired :
  stage ∈ [LINK_UP_STAGE_PREPARE; LINK_UP_STAGE_OPEN] → NoDup pairs →
  (∀ p, p ∈ pairs → ∃ msgs c, pair_planned loc gs_capacities rates comp stage desired p msgs c) →
  ∃ plan desired',
    build_link_up_batch_plan loc gs_capacities rates comp stage pairs desired = Ok (plan, desired').
Proof.
  intros Hs Hnd Hp. unfold build_link_up_batch_plan. rewrite bool_decide_eq_true_2 by done. simpl.
  assert (∀ pairs acc, NoDup pairs → (∀ p, p ∈ pairs → acc.2 !! p = desired !! p) →
    (∀ p, p ∈ pairs → ∃ msgs c, pair_planned loc gs_capacities rates comp stage desired p msgs c) →
    ∃ plan desired', foldM (link_up_pair loc gs_capacities rates comp stage) acc pairs =
      Ok (plan, desired')) as H; [|by apply H].
  clear. induction pairs as [|p pairs IH]; intros acc Hnd Hd Hp; [by destruct acc; eauto|].
  apply NoDup_cons in Hnd as [Hin Hnd].
  destruct (Hp p) as (msgs & c & info & l & Hi & Hl & Hs & Hc & Hm); [set_solver|].
  cbn [foldM]. unfold link_up_pair at 1. rewrite Hd by set_solver. rewrite Hi. cbn [or_raise rbind].
  assert (is_none (contact info) && negb (stage =? LINK_UP_STAGE_OPEN) = false) as ->.
  { destruct (is_none (contact info)); [|done]. rewrite Hs by done. by vm_compute. }
  rewrite Hl. cbn [rbind]. rewrite Hc. cbn [rbind]. rewrite Hm. cbn [rbind].
  apply IH; [done| |set_solver]. intros q Hq. simpl.
  rewrite lookup_insert_ne by set_solver. apply Hd. set_solver.
Qed.

(** The messages an agent gets again, in order, are the acknowledged ones. *)
Lemma to_agent_restaged (stage : Z) (acks : gset InterfaceAck)
    (d d0 : dict string (list InterfaceUp)) (a : string) :
  dict_wf d →
  default [] (dict_get a (fold_left (λ d x, fold_left (λ d u,
      if bool_decide (ack_key up_iface x.1 u ∈ acks) then append_to x.1 (with_stage u stage) d else d)
    x.2 d) d d0)) =
  default [] (dict_get a d0) ++
  map (λ u, with_stage u stage)
    (List.filter (λ u, bool_decide (ack_key up_iface a u ∈ acks)) (default [] (dict_get a d))).
Proof.
  assert (∀ a' us d0, default [] (dict_get a (fold_left (λ d u,
      if bool_decide (ack_key up_iface a' u ∈ acks) then append_to a' (with_stage u stage) d else d)
      us d0)) = default [] (dict_get a d0) ++ (if bool_decide (a' = a) then
        map (λ u, with_stage u stage) (List.filter (λ u, bool_decide (ack_key up_iface a u ∈ acks)) us)
        else [])) as Hone.
  { intros a' us. induction us as [|u us IH]; intros d1; simpl.
    { by destruct (bool_decide (a' = a)); rewrite app_nil_r. }
    rewrite IH. destruct (decide (a' = a)) as [->|Hne].
    - rewrite (bool_decide_eq_true_2 (a = a)) by done.
      destruct (bool_decide (ack_key up_iface a u ∈ acks)); [|done].
      rewrite to_agent_append, bool_decide_eq_true_2 by done. by rewrite <- app_assoc.
    - rewrite (bool_decide_eq_false_2 (a' = a)) by done. rewrite !app_nil_r.
      destruct (bool_decide (ack_key up_iface a' u ∈ acks)); [|done].
      by rewrite to_agent_append, bool_decide_eq_false_2, app_nil_r. }
  revert d0. induction d as [|[a' us] d IH]; intros d0 Hwf; simpl; [by rewrite app_nil_r|].
  apply NoDup_cons in Hwf as [Hin Hwf]. rewrite IH by done. rewrite Hone, <- app_assoc. f_equal.
  destruct (decide (a = a')) as [->|Hne].
  - rewrite (bool_decide_eq_true_2 (a' = a')) by done. rewrite (proj2 (dict_get_None _ _)) by done. simpl.
    by rewrite app_nil_r.
  - by rewrite (bool_decide_eq_false_2 (a' = a)) by congruence.
Qed.

Lemma batch_of_wf {M} (key : M → Iface) batches : dict_wf (agent_ifaces (batch_of key batches)).
Proof.
  induction batches as [|b batches IH] using rev_ind; [constructor|]. rewrite batch_of_snoc.
  revert IH. generalize (batch_of key batches). unfold add_messages.
  induction (b.2) as [|am msgs IH]; intros plan Hwf; [done|]. apply IH. by apply dict_set_wf.
Qed.

Lemma select_spec {A} (what : string) (d : gmap node_pair A) (pairs : list node_pair) :
  (∀ p, p ∈ pairs → is_Some (d !! p)) →
  ∃ m, select what d pairs = Ok m ∧ ∀ p, m !! p = if decide (p ∈ pairs) then d !! p else None.
Proof.
  intros H. unfold select.
  assert (∀ acc : gmap node_pair A, ∃ m, foldM (λ acc p, let! a := or_raise (d !! p) (KeyError what) in
      Ok (<[p := a]> acc)) acc pairs = Ok m ∧
      ∀ p, m !! p = if decide (p ∈ pairs) then d !! p else acc !! p) as Hf.
  2: { destruct (Hf ∅) as (m & Hm & Hl). exists m. split; [done|]. intros p. rewrite Hl.
       by rewrite lookup_empty. }
  induction pairs as [|q pairs IH]; intros acc; cbn [foldM].
  { eexists. split; [done|]. intros p. by rewrite decide_False by set_solver. }
  destruct (H q) as [a Ha]; [set_solver|]. rewrite Ha. cbn [or_raise rbind].
  destruct (IH ltac:(set_solver) (<[q := a]> acc)) as (m & Hm & Hl). exists m. split; [done|].
  intros p. rewrite Hl. destruct (decide (p = q)) as [->|Hne].
  - rewrite lookup_insert_eq, (decide_True _ _ (P := q ∈ q :: pairs)) by set_solver.
    destruct (decide _); done.
  - rewrite lookup_insert_ne by done. by repeat destruct (decide _); set_solver.
Qed.

(** A selection that succeeds found every key. *)
Lemma select_dom {A} (what : string) (d : gmap node_pair A) (pairs : list node_pair) m :
  select what d pairs = Ok m → ∀ p, p ∈ pairs → is_Some (d !! p).
Proof.
  unfold select. generalize (∅ : gmap node_pair A) as acc.
  induction pairs as [|q pairs IH]; intros acc H p Hp; [by apply elem_of_nil in Hp|].
  cbn [foldM] in H. rbind H as m1 H1. rbind H1 as a Ha. apply elem_of_cons in Hp as [->|Hp]; eauto.
Qed.

(** The pairs of a batch as their messages. *)
Lemma planned_determines loc gs_capacities rates comp s s' desired p msgs msgs' c c' :
  pair_planned loc gs_capacities rates comp s desired p msgs c →
  pair_planned loc gs_capacities rates comp s' desired p msgs' c' →
  c' = c ∧ msgs' = map (restaged s') msgs.
Proof.
  intros (info & l & Hi & Hl & _ & Hc & Hm) (info' & l' & Hi' & Hl' & _ & Hc' & Hm').
  rewrite Hi in Hi'. injection Hi' as <-. rewrite Hl in Hl'. injection Hl' as <-.
  rewrite Hc in Hc'. injection Hc' as <-. split; [done|].
  rewrite (messages_restaged _ _ _ s s'), Hm in Hm'.
  simpl in Hm'. by injection Hm' as <-.
Qed.

Lemma addressed_restaged s a msgs :
  addressed a (map (restaged s) msgs) = map (λ u, with_stage u s) (addressed a msgs).
Proof.
  unfold addressed. induction msgs as [|[a' u] msgs IH]; simpl; [done|].
  case_bool_decide; simpl; by rewrite IH.
Qed.

Lemma ack_set_restaged s msgs : ack_set up_iface (map (restaged s) msgs) = ack_set up_iface msgs.
Proof. unfold ack_set. rewrite map_map. done. Qed.

Lemma planned_nonempty loc gs_capacities rates comp s desired p msgs c :
  pair_planned loc gs_capacities rates comp s desired p msgs c → msgs ≠ [].
Proof.
  intros (info & l & _ & _ & _ & _ & Hm). unfold link_up_messages in Hm.
  destruct (link_type info); [|rbind Hm as e He; destruct (contact info); [|destruct l]];
    try (apply mapM_pair in Hm as (? & ? & -> & _); done).
  rbind Hm as agent Ea. rbind Hm as la La. rbind Hm as lb Lb. rbind Hm as ra Ra. rbind Hm as rb Rb.
  by injection Hm as <-.
Qed.

(** Two association lists with the same distinct keys and values. *)
Lemma assoc_eq {A B} (l1 l2 : list (A * B)) :
  map fst l1 = map fst l2 → NoDup (map fst l1) →
  (∀ k v1 v2, (k, v1) ∈ l1 → (k, v2) ∈ l2 → v1 = v2) → l1 = l2.
Proof.
  revert l2. induction l1 as [|[k v] l1 IH]; intros [|[k' v'] l2] Hk Hnd Hv; try done.
  simpl in Hk. injection Hk as -> Hk. simpl in Hnd. apply NoDup_cons in Hnd as [Hin Hnd].
  rewrite (Hv k' v v') by set_solver. f_equal. apply IH; [done..|]. intros k v1 v2 H1 H2.
  apply (Hv k); set_solver.
Qed.

Lemma filter_bind {A B} (P : B → bool) (f : A → list B) l :
  List.filter P (l ≫= f) = l ≫= λ x, List.filter P (f x).
Proof. induction l as [|x l IH]; csimpl; [done|]. by rewrite List.filter_app, IH. Qed.

Lemma bind_filtered {A B} (P : A → bool) (f g : A → list B) l :
  (∀ x, x ∈ l → g x = if P x then f x else []) → l ≫= g = List.filter P l ≫= f.
Proof.
  induction l as [|x l IH]; intros H; csimpl; [done|]. rewrite H by set_solver.
  rewrite IH by set_solver. by destruct (P x).
Qed.

Lemma filter_none {A} (P : A → bool) l : (∀ x, x ∈ l → P x = false) → List.filter P l = [].
Proof. induction l as [|x l IH]; intros H; simpl; [done|]. rewrite H by set_solver. apply IH. set_solver. Qed.

Lemma map_filter_fst {A B} (P : A → bool) (l : list (A * B)) :
  map fst (List.filter (λ x, P x.1) l) = List.filter P (map fst l).
Proof. induction l as [|[a b] l IH]; simpl; [done|]. destruct (P a); simpl; by rewrite IH. Qed.

Lemma map_bind {A B C} (f : A → list B) (h : B → C) l : map h (l ≫= f) = l ≫= λ x, map h (f x).
Proof. induction l as [|x l IH]; csimpl; [done|]. by rewrite map_app, IH. Qed.

Section Restage.
Context (loc : PodLocationMap) (gs_capacities : gmap string Z)
        (rates : gmap Iface InterfaceRates)
        (comp : string → string → float * float → result LatencyCompensation).
Abbreviation build := (build_link_up_batch_plan loc gs_capacities rates comp).
Context (pairs : list node_pair) (desired : Links) (plan : LinkUpBatchPlan) (desired' : Links)
        (chosen : node_pair → bool).
Hypothesis Hnd : NoDup pairs.
Hypothesis Hbuild : build LINK_UP_STAGE_PREPARE pairs desired = Ok (plan, desired').
Hypothesis Hdisj : ∀ p q, p ∈ pairs → q ∈ pairs → p ≠ q →
  acks_of (up_batch plan) p ## acks_of (up_batch plan) q.
Abbreviation opened := (List.filter chosen pairs).

Lemma opened_in p : p ∈ opened ↔ p ∈ pairs ∧ chosen p = true.
Proof. by rewrite list_elem_of_In, filter_In, <- list_elem_of_In. Qed.

Lemma opened_nodup : NoDup opened.
Proof.
  refine (sublist_NoDup _ _ Hnd _). clear. induction pairs as [|x l IH]; simpl; [done|].
  destruct (chosen x); by constructor.
Qed.

Lemma restage_total :
  ∃ open_plan rebuilt desired'', restage_link_up_plan plan opened LINK_UP_STAGE_OPEN = Ok open_plan ∧
    build LINK_UP_STAGE_OPEN opened desired = Ok (rebuilt, desired'').
Proof.
  destruct (link_up_pairs _ _ _ _ _ _ _ _ _ Hnd Hbuild) as (batches & Hfst & Hup & Hb & _).
  assert (∀ p, p ∈ pairs → ∃ msgs, (p, msgs) ∈ batches) as Hmsgs.
  { intros p Hp. rewrite <- Hfst in Hp. apply list_elem_of_fmap in Hp as ([q ms] & -> & ?). eauto. }
  destruct (build_total loc gs_capacities rates comp LINK_UP_STAGE_OPEN opened desired)
    as (rebuilt & desired'' & Hre); [by right; left|apply opened_nodup| |].
  { intros p [Hp _]%opened_in. destruct (Hmsgs p Hp) as [msgs Hm].
    destruct (Hb _ _ Hm) as (c & _ & (info & l & Hi & Hl & _ & Hc & Hms) & _).
    exists (map (restaged LINK_UP_STAGE_OPEN) msgs), c, info, l.
    rewrite (messages_restaged _ _ _ LINK_UP_STAGE_PREPARE), Hms. done. }
  unfold restage_link_up_plan.
  destruct (select_spec "pair_agent_ifaces" (pair_agent_ifaces (up_batch plan)) opened)
    as (acks & -> & _).
  { intros p [Hp _]%opened_in. destruct (Hmsgs p Hp) as [msgs Hm]. rewrite Hup, in_plan_batch.
    exists msgs. split; [done|]. destruct (Hb _ _ Hm) as (c & _ & Hpl & _).
    by eapply planned_nonempty. }
  destruct (select_spec "pair_compensation" (pair_compensation plan) opened) as (cs & Hcs & _).
  { intros p [Hp _]%opened_in. destruct (Hmsgs p Hp) as [msgs Hm].
    destruct (Hb _ _ Hm) as (c & _ & _ & Hc & _). eauto. }
  cbn [rbind]. rewrite Hcs. cbn [rbind]. eauto 6.
Qed.
(** The rebuilt pairs are the prepared ones, restaged. *)
Lemma rebuilt_batches rebuilt desired'' :
  build LINK_UP_STAGE_OPEN opened desired = Ok (rebuilt, desired'') →
  ∃ batches, map fst batches = pairs ∧ up_batch plan = batch_of up_iface batches ∧
    up_batch rebuilt = batch_of up_iface
      (map (λ b, (b.1, map (restaged LINK_UP_STAGE_OPEN) b.2)) (List.filter (λ b, chosen b.1) batches)) ∧
    ∀ p, p ∈ opened → pair_compensation rebuilt !! p = pair_compensation plan !! p.
Proof.
  intros Hre. pose proof opened_nodup as Hnd'.
  destruct (link_up_pairs _ _ _ _ _ _ _ _ _ Hnd Hbuild) as (batches & Hfst & Hup & Hb & _).
  destruct (link_up_pairs _ _ _ _ _ _ _ _ _ Hnd' Hre) as (batches' & Hfst' & Hup' & Hb' & _).
  exists batches. split; [done|]. split; [done|]. split.
  - rewrite Hup'. f_equal. apply assoc_eq.
    + rewrite map_map, Hfst', <- Hfst. by rewrite <- map_filter_fst.
    + by rewrite Hfst'.
    + intros p m1 m2 H1 H2. apply list_elem_of_fmap in H2 as ([q ms] & [= -> ->] & H2).
      apply list_elem_of_In, filter_In in H2 as [H2%list_elem_of_In _].
      destruct (Hb _ _ H2) as (c & _ & Hp & _), (Hb' _ _ H1) as (c' & _ & Hp' & _).
      by destruct (planned_determines _ _ _ _ _ _ _ _ _ _ _ _ Hp Hp').
  - intros p Hp. assert (∃ m, (p, m) ∈ batches') as [m' Hm'].
    { rewrite <- Hfst' in Hp. apply list_elem_of_fmap in Hp as ([q ms] & -> & ?). eauto. }
    assert (∃ m, (p, m) ∈ batches) as [m Hm].
    { apply opened_in in Hp as [Hp _]. rewrite <- Hfst in Hp.
      apply list_elem_of_fmap in Hp as ([q ms] & -> & ?). eauto. }
    destruct (Hb _ _ Hm) as (c & _ & H1 & -> & _), (Hb' _ _ Hm') as (c' & _ & H2 & -> & _).
    by destruct (planned_determines _ _ _ _ _ _ _ _ _ _ _ _ H1 H2) as [-> _].
Qed.

(** An acknowledgement belongs to an opened pair exactly when its message does. *)
Lemma chosen_acks (batches : list (node_pair * list (string * InterfaceUp))) (p : node_pair) (msgs : list (string * InterfaceUp)) (a : string)
    (u : InterfaceUp) (acks : gmap node_pair (gset InterfaceAck)) :
  map fst batches = pairs → up_batch plan = batch_of up_iface batches →
  (∀ q, acks !! q = if decide (q ∈ opened) then pair_agent_ifaces (up_batch plan) !! q else None) →
  (p, msgs) ∈ batches → (a, u) ∈ msgs →
  bool_decide (ack_key up_iface a u ∈ ⋃ (map snd (map_to_list acks))) = chosen p.
Proof.
  intros Hfst Hup Hacks Hp Hu.
  assert (∀ q ms, (q, ms) ∈ batches → q ∈ pairs) as Hin.
  { intros q ms Hq. rewrite <- Hfst. apply list_elem_of_fmap. by exists (q, ms). }
  assert (ack_key up_iface a u ∈ acks_of (up_batch plan) p) as Hack.
  { rewrite Hup, acks_batch. exists msgs. split; [done|]. apply elem_of_ack_set. eauto. }
  destruct (chosen p) eqn:Ec.
  - apply bool_decide_eq_true_2, elem_of_union_list. exists (acks_of (up_batch plan) p).
    split; [|done]. apply list_elem_of_fmap.
    destruct (pair_agent_ifaces (up_batch plan) !! p) as [S|] eqn:ES;
      [|unfold acks_of in Hack; rewrite ES in Hack; set_solver].
    exists (p, S). split; [unfold acks_of; by rewrite ES|]. apply elem_of_map_to_list.
    rewrite Hacks, decide_True; [done|]. apply opened_in. eauto.
  - apply bool_decide_eq_false_2. intros (S & HS & Ha)%elem_of_union_list.
    apply list_elem_of_fmap in HS as ([q S'] & -> & HS%elem_of_map_to_list). simpl in Ha.
    rewrite Hacks in HS. destruct (decide (q ∈ opened)) as [Hq|]; [|done].
    apply opened_in in Hq as [Hq Hc]. assert (p ≠ q) as Hne by (intros ->; congruence).
    apply (Hdisj p q) in Hne; [|by eapply Hin|done]. apply (Hne (ack_key up_iface a u)); [done|].
    unfold acks_of. by rewrite HS.
Qed.
End Restage.

(** opening a prepared contact changes nothing but its stage.  Take the
    PREPARE plan of some contacts whose terminals are distinct, and any of them:
    restaging always succeeds, and sends every agent exactly the messages, and
    expects exactly the acknowledgements, of an OPEN plan built anew for those
    contacts with the same delays. *)
Theorem open_is_what_was_prepared loc gs_capacities rates comp pairs desired plan desired' chosen :
  NoDup pairs →
  build_link_up_batch_plan loc gs_capacities rates comp LINK_UP_STAGE_PREPARE pairs desired
    = Ok (plan, desired') →
  (∀ p q, p ∈ pairs → q ∈ pairs → p ≠ q →
     acks_of (up_batch plan) p ## acks_of (up_batch plan) q) →
  let opened := List.filter chosen pairs in
  ∃ open_plan rebuilt desired'',
    restage_link_up_plan plan opened LINK_UP_STAGE_OPEN = Ok open_plan ∧
    build_link_up_batch_plan loc gs_capacities rates comp LINK_UP_STAGE_OPEN opened desired
      = Ok (rebuilt, desired'') ∧
    (∀ a, to_agent (up_batch open_plan) a = to_agent (up_batch rebuilt) a) ∧
    (∀ p, p ∈ opened → acks_of (up_batch open_plan) p = acks_of (up_batch rebuilt) p ∧
       pair_compensation open_plan !! p = pair_compensation rebuilt !! p).
Proof.
  intros Hnd Hbuild Hdisj opened.
  destruct (restage_total _ _ _ _ _ _ _ _ chosen Hnd Hbuild) as (op & re & d'' & Hop & Hre).
  exists op, re, d''. split; [done|]. split; [done|].
  destruct (rebuilt_batches _ _ _ _ _ _ _ _ chosen Hnd Hbuild _ _ Hre)
    as (batches & Hfst & Hup & Hup' & Hcomp).
  unfold restage_link_up_plan in Hop. rbind Hop as acks Hacks. rbind Hop as cs Hcs.
  injection Hop as <-. simpl.
  destruct (select_spec "pair_agent_ifaces" (pair_agent_ifaces (up_batch plan)) opened)
    as (acks' & Hacks' & Hlook); [by eapply select_dom|]. fold opened in Hacks.
  rewrite Hacks in Hacks'. injection Hacks' as <-.
  destruct (select_spec "pair_compensation" (pair_compensation plan) opened) as (cs' & Hcs' & Hcl);
    [by eapply select_dom|]. fold opened in Hcs. rewrite Hcs in Hcs'. injection Hcs' as <-. split.
  - intros a. unfold to_agent at 1. simpl. rewrite to_agent_restaged by (rewrite Hup; apply batch_of_wf).
    simpl. change (default [] (dict_get a (agent_ifaces (up_batch plan))))
      with (to_agent (up_batch plan) a). rewrite Hup, Hup', !to_agent_batch, filter_bind.
    rewrite (bind_filtered (λ b, chosen b.1) (λ b, addressed a b.2)).
    { rewrite map_bind. generalize (List.filter (λ b, chosen b.1) batches) as l. clear.
      induction l as [|b l IH]; csimpl; [done|]. by rewrite IH, addressed_restaged. }
    intros [p msgs] Hin. simpl. destruct (chosen p) eqn:Ec.
    + apply filter_all. intros u Hu%elem_of_addressed.
      by erewrite chosen_acks.
    + apply filter_none. intros u Hu%elem_of_addressed.
      by erewrite chosen_acks.
  - intros p Hp. rewrite Hcl, decide_True, Hcomp by done. split; [|done].
    unfold acks_of at 1. simpl. rewrite Hlook, decide_True by done.
    change (default ∅ (pair_agent_ifaces (up_batch plan) !! p)) with (acks_of (up_batch plan) p).
    apply set_eq. intros ack. rewrite Hup, Hup', !acks_batch.
    unfold opened in Hp. apply opened_in in Hp as [Hp Hc]. split.
    + intros (msgs & Hin & Ha). exists (map (restaged LINK_UP_STAGE_OPEN) msgs).
      rewrite ack_set_restaged. split; [|done]. apply list_elem_of_fmap. exists (p, msgs).
      split; [done|]. apply list_elem_of_In, filter_In. by rewrite <- list_elem_of_In.
    + intros (msgs' & Hin & Ha). apply list_elem_of_fmap in Hin as ([q msgs] & [= -> ->] & Hin).
      apply list_elem_of_In, filter_In in Hin as [Hin%list_elem_of_In _].
      rewrite ack_set_restaged in Ha. eauto.
Qed.

(** ** A long-delay pass between the two nodes of the cluster *)

Module Pass.

Definition p : node_pair := ("sat-1", "gs-A").
Definition info : ActiveLinkInfo :=
  {| interface_a := "gnd0"; interface_b := "term0"; latency_a_to_b_ms := float_of_Z 12;
     latency_b_to_a_ms := float_of_Z 13; commanded_netem_ms := None; link_type := ground_link;
     range_km := Some (float_of_Z 3600); authority_sim_time := Some 0;
     authority_source := Some "link_state_snapshot"; authority_sequence := Some 1;
     contact := Some {| ct_epoch_id := 3; ct_opened_at := 0 |}; drain := None; stage_losses := ∅ |}.
Definition capacities : gmap string Z := {["gs-A" := 1]}.
Definition rates : gmap Iface InterfaceRates :=
  {[("sat-1", "gnd0") := {| transmit_mbps := float_of_Z 200; receive_mbps := float_of_Z 50 |};
    ("gs-A", "term0") := {| transmit_mbps := float_of_Z 50; receive_mbps := float_of_Z 200 |}]}.
Definition comp : string → string → float * float → result LatencyCompensation :=
  latency_compensation "run-7" "sha256:ab" Cluster.located cluster_measured 2000000 "half-rtt".
Definition links : Links := {[p := info]}.

Definition prepared : result (LinkUpBatchPlan * Links) :=
  build_link_up_batch_plan Cluster.located capacities rates comp LINK_UP_STAGE_PREPARE [p] links.
Definition stopped : result LinkDownBatchPlan :=
  build_link_down_batch_plan Cluster.located capacities LINK_DOWN_STAGE_CLOSE
    (Some {[p := {["gs-A"]}]}) None [p] links.

Lemma prepared_ok : ∃ plan desired', prepared = Ok (plan, desired').
Proof.
  assert (is_Ok prepared = true) as H by (vm_compute; reflexivity).
  destruct prepared as [[plan d]|]; [by exists plan, d|discriminate H].
Qed.
Lemma stopped_ok : ∃ plan, stopped = Ok plan.
Proof.
  assert (is_Ok stopped = true) as H by (vm_compute; reflexivity).
  destruct stopped as [plan|]; [by exists plan|discriminate H].
Qed.

End Pass.

Lemma up_plan_wires_both_ends_witness :
  ∃ plan desired' netem aa ab ua ub, Pass.prepared = Ok (plan, desired') ∧
    wired Cluster.located Pass.rates Pass.p Pass.info LOCALITY_CROSS_NODE netem aa ab ua ub.
Proof.
  destruct Pass.prepared_ok as (plan & d' & H).
  destruct (up_plan_wires_both_ends Cluster.located Pass.capacities Pass.rates Pass.comp
    LINK_UP_STAGE_PREPARE [Pass.p] Pass.links plan d' Pass.p Pass.info) as (l & netem & Hl & _ & Hw).
  - apply NoDup_singleton.
  - by apply list_elem_of_singleton.
  - done.
  - reflexivity.
  - exact H.
  - assert (l = LOCALITY_CROSS_NODE) as -> by (vm_compute in Hl; congruence).
    simpl in Hw. destruct Hw as (aa & ab & ua & ub & _ & _ & Hw & _).
    exists plan, d', netem, aa, ab, ua, ub. split; [exact H|exact Hw].
Defined.

Lemma stage_reaches_named_ends_witness :
  ∃ plan, Pass.stopped = Ok plan ∧
    ("k3s-2", ("gs-A", "term0")) ∈ acks_of plan Pass.p ∧
    ("k3s-1", ("sat-1", "gnd0")) ∉ acks_of plan Pass.p.
Proof.
  destruct Pass.stopped_ok as (plan & H). exists plan. split; [exact H|].
  destruct (stage_reaches_named_ends Cluster.located Pass.capacities LINK_DOWN_STAGE_CLOSE
    (Some {[Pass.p := {["gs-A"]}]}) None [Pass.p] Pass.links plan Pass.p Pass.info
    {| ct_epoch_id := 3; ct_opened_at := 0 |}) as [Hacks _].
  - apply NoDup_singleton.
  - by apply list_elem_of_singleton.
  - done.
  - reflexivity.
  - reflexivity.
  - exact H.
  - split; rewrite Hacks.
    + split; [by right|]. split; reflexivity.
    + intros (_ & Hr & _). vm_compute in Hr. done.
Defined.

Lemma teardown_reaches_setup_witness :
  ∃ ups downs, link_up_messages Cluster.located Pass.capacities Pass.rates LINK_UP_STAGE_OPEN Pass.p
      Pass.info LOCALITY_CROSS_NODE (float_of_Z 10, float_of_Z 11) = Ok ups ∧
    link_down_messages Cluster.located Pass.capacities LINK_DOWN_STAGE_CLOSE
      (whole_link Pass.p Pass.info) None Pass.p Pass.info = Ok downs ∧
    map down_target downs = map up_target ups.
Proof.
  destruct (link_up_messages Cluster.located Pass.capacities Pass.rates LINK_UP_STAGE_OPEN Pass.p
      Pass.info LOCALITY_CROSS_NODE (float_of_Z 10, float_of_Z 11)) as [ups|] eqn:E.
  - destruct (teardown_reaches_setup Cluster.located Pass.capacities Pass.rates LINK_UP_STAGE_OPEN
      Pass.p Pass.info LOCALITY_CROSS_NODE (float_of_Z 10, float_of_Z 11) None ups)
      as (downs & Hd & Ht); [done|reflexivity|exact E|]. exists ups, downs.
    split; [reflexivity|]. split; [exact Hd|exact Ht].
  - vm_compute in E. discriminate E.
Defined.

Lemma open_is_what_was_prepared_witness :
  ∃ plan desired' open_plan, Pass.prepared = Ok (plan, desired') ∧
    restage_link_up_plan plan [Pass.p] LINK_UP_STAGE_OPEN = Ok open_plan.
Proof.
  destruct Pass.prepared_ok as (plan & d' & H).
  destruct (open_is_what_was_prepared Cluster.located Pass.capacities Pass.rates Pass.comp
    [Pass.p] Pass.links plan d' (λ _, true)) as (op & re & d'' & Hop & _).
  - apply NoDup_singleton.
  - exact H.
  - intros q q' ->%list_elem_of_singleton ->%list_elem_of_singleton Hne. destruct (Hne eq_refl).
  - exists plan, d', op. split; [exact H|exact Hop].
Defined.
