(* ===== verification/DispatchActuator.v ===== *)
(** * The dispatch actuator ([services/scheduler/dispatch_actuator.py])

    Every operation of the Scheduler on the Node Agents: LinkDown and LinkUp
    batches, the two stages of a long-delay contact, latency updates, and the
    read-only kernel inventories and surveys.  Each builds its requests, sends
    them in chunks, and judges every pair on the acknowledgements.

    The Node Agents are the environment: [transport] gives the reply to a request
    at an agent.  The requests of one operation are all different (their
    [operation_id] names the operation, the agent and the chunk), so within one
    operation a function of the request is as general as any behaviour; an
    operation repeated later is a new [transport].  Events are returned in the
    order they are published; wall-clock stamps, latency logs and publish failures
    are not modelled. *)

From S2P Require Import Prelude.
From S2P Require Import PyFloat.
From S2P Require Import PyData.
From S2P Require Import PyTime.
From S2P Require Import GroundTypes.
From S2P Require Import EventDiff.
From S2P Require Import DesiredState.
From S2P Require Import Authority.
From S2P Require Import Actuation.
From S2P Require Import DispatchPlanner.
From S2P Require Import ContactDrain.
From S2P Require Import Placement.
From S2P Require Import Substrate.
From S2P Require Import NodeAgentBatches.
From stdpp Require Import base list strings gmap pretty.
Local Open Scope Z_scope.

(** ** Requests *)

Record CommandEnvelope := {
  env_operation_id : string;
  env_session_id : string;
  env_wiring_generation : string;
  env_operation_kind : string;
  env_writer_epoch : Z;
}.

Record LatencyEntry := {
  le_iface : Iface;
  le_latency_ms : float;
  le_link_type : LinkType;
  le_gs_id : string;
  le_sat_id : string;
  le_rates : InterfaceRates;
  le_contact_id : string;
  le_receive_latency_ms : float;
  le_peer_rates : option InterfaceRates;
}.

Record KernelInventoryEntry := {
  ki_iface : Iface;
  ki_link_type : LinkType;
  ki_gs_id : string;
  ki_sat_id : string;
  ki_peer : Iface;
  ki_locality : Locality;
  ki_vni : Z;
  ki_latency_ms : float;
  ki_expected_admin_up : bool;
  ki_remote_node_ip : string;
  ki_rates : option InterfaceRates;
  ki_peer_rates : option InterfaceRates;
  ki_peer_latency_ms : float;
  ki_contact_id : string;
  ki_receive_latency_ms : float;
  ki_expected_admission_stopped : bool;
  ki_survey : bool;
}.

Inductive AgentRequest :=
| BatchLinkDownRequest (env : CommandEnvelope) (target_sim_time : string) (ifaces : list InterfaceDown)
| BatchLinkUpRequest (env : CommandEnvelope) (target_sim_time : string) (ifaces : list InterfaceUp)
| SetLatencyRequest (env : CommandEnvelope) (entries : list LatencyEntry)
| KernelInventoryRequest (env : CommandEnvelope) (target_sim_time gs_id : string)
    (entries : list KernelInventoryEntry).

(** [f"{n:03d}"] of a number that is not negative. *)
Definition digits3 (n : nat) : string :=
  if (n <? 10)%nat then "00" +:+ pretty n else if (n <? 100)%nat then "0" +:+ pretty n else pretty n.

(** [_chunked_operation_id]. *)
Definition chunked_operation_id (base : string) (chunk_index chunk_count : nat) : string :=
  if (chunk_count =? 1)%nat then base
  else base +:+ "-part" +:+ digits3 (S chunk_index) +:+ "of" +:+ digits3 chunk_count.

(** The epoch of the writer, the session and its wiring: what fences a command. *)
Record Fence := { fence_session_id : string; fence_wiring_generation : string;
                  fence_writer_epoch : Z }.

(** [_gs_id_for_pair]. *)
Definition link_gs_id (gs_capacities : gmap string Z) (p : node_pair) (type : LinkType) :
    option string :=
  match type with ground_link => gs_id_for_pair gs_capacities p | isl_link => None end.

(** [datetime.isoformat] of a simulation time. *)
Abbreviation isoformat := iso_text.

(** ** Freshness and provenance *)

(** [Dispatcher._validate_authority_freshness]. *)
Definition f_neg_1e_9 : float := fopp f_1e_9.
Definition total_seconds (us : Z) : float := fdiv (float_of_Z us) (float_of_Z 1000000).

Definition validate_authority_freshness (max_latency_age_s : float) (info : ActiveLinkInfo)
    (dispatch_sim_time : datetime) : result unit :=
  let! t := or_raise (authority_sim_time info) (ValueError "no OME authority sim_time") in
  let! _ := or_raise (authority_source info) (ValueError "no OME authority source") in
  let age_s := total_seconds (dispatch_sim_time - t) in
  raise_if flt age_s f_neg_1e_9 with ValueError "uses future OME geometry" ;;
  raise_if flt f_1e_9 (fsub age_s max_latency_age_s) with ValueError "uses stale OME geometry" ;;
  Ok tt.

(** [LinkDecisionProvenance] of [lib/nodalarc/models/link_events.py]. *)
Record LinkDecisionProvenance := {
  pv_authority_source : string;
  pv_authority_sim_time : datetime;
  pv_authority_sequence : option Z;
  pv_authority_age_ms : float;
  pv_range_km : float;
  pv_orbital_ms : float * float;
  pv_substrate_rtt_ms : float;
  pv_substrate_one_way_ms : float;
  pv_netem_ms : float * float;
  pv_policy : string;
}.

(** [Dispatcher._link_provenance]. *)
Definition link_provenance (info : ActiveLinkInfo) (c : LatencyCompensation)
    (applied_sim_time : datetime) : result LinkDecisionProvenance :=
  let! range := or_raise (range_km info) (ValueError "provenance without range_km") in
  let! t := or_raise (authority_sim_time info) (ValueError "provenance without sim_time") in
  let! source := or_raise (authority_source info) (ValueError "provenance without source") in
  Ok {| pv_authority_source := source; pv_authority_sim_time := t;
        pv_authority_sequence := authority_sequence info;
        pv_authority_age_ms := fmul (total_seconds (applied_sim_time - t)) f_1000;
        pv_range_km := range; pv_orbital_ms := (latency_a_to_b_ms info, latency_b_to_a_ms info);
        pv_substrate_rtt_ms := lk_substrate_rtt_ms c;
        pv_substrate_one_way_ms := lk_substrate_one_way_ms c;
        pv_netem_ms := netem_of c; pv_policy := lk_policy c |}.

(** ** Events *)

Record LinkUp := {
  lu_sim_time : datetime;
  lu_pair : node_pair;
  lu_interfaces : string * string;
  lu_latencies_ms : float * float;
  lu_range_km : float;
  lu_link_type : LinkType;
  lu_provenance : LinkDecisionProvenance;
  lu_contact_id : option string;
}.
Record LinkDown := {
  ld_sim_time : datetime;
  ld_pair : node_pair;
  ld_interfaces : string * string;
  ld_reason : string;
  ld_link_type : LinkType;
  ld_contact_id : option string;
  ld_losses : list LinkEndLoss;
}.
Record LatencyUpdate := {
  lt_sim_time : datetime;
  lt_pair : node_pair;
  lt_latencies_ms : float * float;
  lt_range_km : float;
  lt_provenance : LinkDecisionProvenance;
}.

Definition record_contact_id (info : ActiveLinkInfo) : option string :=
  Contact_contact_id <$> contact info.

(** [publish_link_down]: the event it publishes. *)
Definition link_down_event (p : node_pair) (info : ActiveLinkInfo) (sim_time : datetime)
    (reason : string) (losses : list LinkEndLoss) : LinkDown :=
  {| ld_sim_time := sim_time; ld_pair := p; ld_interfaces := (interface_a info, interface_b info);
     ld_reason := reason; ld_link_type := link_type info; ld_contact_id := record_contact_id info;
     ld_losses := losses |}.

(** ** Losses *)

(** The [end_losses] and [surveys] properties: the results in order, a later
    report of an end replacing an earlier one. *)
Definition end_losses (r : ActuationResult) : gmap Iface EndLossCounts :=
  fold_left (λ m a, ar_end_losses a ∪ m) (agent_results r) ∅.
Definition surveys (r : ActuationResult) : gmap Iface EndSurvey :=
  fold_left (λ m a, ar_surveys a ∪ m) (agent_results r) ∅.

Definition nonzero (n : Z) : bool := negb (n =? 0).

(** The stages share numbers between the two enumerations; [_stage_loss] tests
    OPEN first, then STOP_ADMISSION. *)
Definition stage_loss (c : EndLossCounts) (stage : Z) : result StageLoss :=
  if stage =? LINK_UP_STAGE_OPEN then
    raise_if nonzero (lc_queue_dropped c) || nonzero (lc_discarded_at_close c) ||
             nonzero (lc_untransmitted_at_stop c) || nonzero (lc_transmit_dropped c)
      with ValueError "reported counts its stage does not produce" ;;
    Ok {| st_refused_before_open := lc_admission_taken c; st_untransmitted_at_stop := 0;
          st_transmit_dropped := 0 |}
  else if stage =? LINK_DOWN_STAGE_STOP_ADMISSION then
    raise_if nonzero (lc_admission_taken c) || nonzero (lc_queue_dropped c) ||
             nonzero (lc_discarded_at_close c)
      with ValueError "reported counts its stage does not produce" ;;
    Ok {| st_refused_before_open := 0; st_untransmitted_at_stop := lc_untransmitted_at_stop c;
          st_transmit_dropped := lc_transmit_dropped c |}
  else Raise (ValueError "stage is not one whose loss waits for the end's close").

Definition with_stage_losses (info : ActiveLinkInfo) (losses : gmap string StageLoss) :
    ActiveLinkInfo :=
  {| interface_a := interface_a info; interface_b := interface_b info;
     latency_a_to_b_ms := latency_a_to_b_ms info; latency_b_to_a_ms := latency_b_to_a_ms info;
     commanded_netem_ms := commanded_netem_ms info; link_type := link_type info;
     range_km := range_km info; authority_sim_time := authority_sim_time info;
     authority_source := authority_source info; authority_sequence := authority_sequence info;
     contact := contact info; drain := drain info; stage_losses := losses |}.

(** The reports of a pair's own ends, in order. *)
Definition pair_losses (r : ActuationResult) (p : node_pair) (info : ActiveLinkInfo) :
    list (Iface * EndLossCounts) :=
  List.filter (λ x, bool_decide (x.1 ∈ ends_of p info)) (sorted_items iface_lt (end_losses r)).

Definition held_stage (info : ActiveLinkInfo) (node_id : string) : StageLoss :=
  default no_loss (stage_losses info !! node_id).

(** [record_stage_losses]: the record with what its ends reported added. *)
Definition record_stage_losses (r : ActuationResult) (p : node_pair) (info : ActiveLinkInfo)
    (stage : Z) : result ActiveLinkInfo :=
  foldM (λ info x,
      let! reported := stage_loss x.2 stage in
      Ok (with_stage_losses info
            (<[x.1.1 := DesiredState.plus (held_stage info x.1.1) reported]> (stage_losses info))))
    info (pair_losses r p info).

(** [end_loss_records]. *)
Definition end_loss_record (info : ActiveLinkInfo) (cause : LinkEndCloseCause)
    (x : Iface * EndLossCounts) : LinkEndLoss :=
  let '((node_id, interface), c) := x in
  let stage := held_stage info node_id in
  {| el_node_id := node_id; el_interface := interface; el_cause := cause;
     el_refused_before_open := st_refused_before_open stage;
     el_untransmitted_at_stop := st_untransmitted_at_stop stage + lc_untransmitted_at_stop c;
     el_admission_taken := lc_admission_taken c;
     el_transmit_dropped := st_transmit_dropped stage + lc_transmit_dropped c;
     el_queue_dropped := lc_queue_dropped c; el_discarded_at_close := lc_discarded_at_close c;
     el_discarded_exact := lc_discarded_exact c |}.
Definition end_loss_records (r : ActuationResult) (p : node_pair) (info : ActiveLinkInfo)
    (cause : LinkEndCloseCause) : list LinkEndLoss :=
  map (end_loss_record info cause) (pair_losses r p info).

(** [stage_only_records]: a stage loss of a node that is no end of the pair is a
    [KeyError]. *)
Definition stage_only_records (p : node_pair) (info : ActiveLinkInfo) (reported : gset string)
    (cause : LinkEndCloseCause) : result (list LinkEndLoss) :=
  mapM_r (λ '(node_id, stage),
      let! interface := or_raise (end_terminals p info !! node_id) (KeyError "interfaces") in
      Ok {| el_node_id := node_id; el_interface := interface; el_cause := cause;
            el_refused_before_open := st_refused_before_open stage;
            el_untransmitted_at_stop := st_untransmitted_at_stop stage; el_admission_taken := 0;
            el_transmit_dropped := st_transmit_dropped stage; el_queue_dropped := 0;
            el_discarded_at_close := 0; el_discarded_exact := true |})
    (List.filter (λ x, negb (bool_decide (x.1 ∈ reported)))
       (sorted_items str_lt (stage_losses info))).

(** ** Operations *)

Section Actuator.
Context (loc : PodLocationMap) (gs_capacities : gmap string Z) (rates : gmap Iface InterfaceRates)
        (max_latency_age_s : float) (fence : Fence)
        (transport : string → AgentRequest → AgentReply).

(** [_send_chunked_command], for messages of any kind. *)
Definition send_messages {M} (key : M → Iface) (operation base : string)
    (request : CommandEnvelope → list M → AgentRequest) (addr : string) (items : list M) :
    result AgentCommandResult :=
  let runs := chunks MAX_NODE_AGENT_INTERFACES_PER_COMMAND items in
  send_call {|
    cl_addr := addr; cl_items := map key items;
    cl_reply := λ n _, transport addr (request
      {| env_operation_id := chunked_operation_id (base +:+ addr) n (length runs);
         env_session_id := fence_session_id fence;
         env_wiring_generation := fence_wiring_generation fence;
         env_operation_kind := operation; env_writer_epoch := fence_writer_epoch fence |}
      (nth n runs [])) |}.

(** [_send_batch_down_to_agent], [_send_batch_up_to_agent],
    [_send_latency_to_agent] and [_send_kernel_inventory_to_agent]. *)
Definition send_batch_down_to_agent (sim_iso : string) : string → list InterfaceDown → _ :=
  send_messages dn_iface "BatchLinkDown" (sim_iso +:+ "-down-")
    (λ env chunk, BatchLinkDownRequest env sim_iso chunk).
Definition send_batch_up_to_agent (sim_iso label : string) : string → list InterfaceUp → _ :=
  send_messages up_iface "BatchLinkUp" (sim_iso +:+ "-" +:+ label +:+ "-")
    (λ env chunk, BatchLinkUpRequest env sim_iso chunk).
Definition send_latency_to_agent (sim_time : datetime) : string → list LatencyEntry → _ :=
  send_messages le_iface "SetLatency" (isoformat sim_time +:+ "-latency-")
    (λ env chunk, SetLatencyRequest env chunk).
Definition send_kernel_inventory_to_agent (sim_iso gs_id : string) :
    string → list KernelInventoryEntry → _ :=
  send_messages ki_iface "KernelInventory"
    (sim_iso +:+ "-kernel-inventory-" +:+
     (if bool_decide (gs_id = "") then "long-delay" else gs_id) +:+ "-")
    (λ env chunk, KernelInventoryRequest env sim_iso gs_id chunk).

(** The agents of a batch, gathered. *)
Definition gather {M} (send : string → list M → result AgentCommandResult)
    (by_agent : dict string (list M)) : result (list AgentCommandResult) :=
  mapM_r (λ x, send x.1 x.2) by_agent.

(** Sorted by agent. *)
Definition sorted_agents {M} (d : dict string (list M)) : dict string (list M) :=
  sorted (λ x y, str_lt x.1 y.1) d.

(** The link types and stations of the pairs of a batch. *)
Definition types_of (links : Links) (pairs : list node_pair) : gmap node_pair LinkType :=
  list_to_map (omap (λ p, info ← links !! p; Some (p, link_type info)) pairs).
Definition stations_in (types : gmap node_pair LinkType) (pairs : list node_pair) :
    gmap node_pair string :=
  list_to_map (omap (λ p, type ← types !! p; gs ← link_gs_id gs_capacities p type; Some (p, gs)) pairs).

(** Sends a batch and judges its pairs. *)
Definition judge {M} (send : string → list M → result AgentCommandResult)
    (by_agent : dict string (list M)) (ifaces : gmap node_pair (gset InterfaceAck)) (links : Links)
    (pairs : list node_pair) : result ActuationResult :=
  let! results := gather send by_agent in
  let types := types_of links pairs in
  Ok (build_actuation_result ifaces types (stations_in types pairs) results (list_to_set pairs)).

(** *** LinkDown *)

Definition is_up_to_date (info : ActiveLinkInfo) (sim_time : datetime) : result unit :=
  validate_authority_freshness max_latency_age_s info sim_time.

(** The LinkDown of a local link that closed. *)
Definition local_down_events (r : ActuationResult) (actual : Links) (sim_time : datetime)
    (down_reasons : gmap node_pair string) : list LinkDown :=
  omap (λ p,
      info ← actual !! p;
      if is_none (contact info) then
        Some (link_down_event p info sim_time (default "vis_lost" (down_reasons !! p))
          (end_loss_records r p info
             (if is_none (down_reasons !! p) then end_of_contact else scenario)))
      else None)
    (sorted_set npair_lt (succeeded_pairs r)).

(** [send_batch_down]. *)
Definition send_batch_down (pairs : gset node_pair) (actual : Links) (sim_iso : string)
    (sim_time : datetime) (down_reasons : gmap node_pair string) (stage : Z)
    (ends : option (gmap node_pair (gset string))) (contact_ids : option (gmap Iface string)) :
    result (ActuationResult * list LinkDown) :=
  let sorted_pairs := sorted_set npair_lt pairs in
  let! plan := build_link_down_batch_plan loc gs_capacities stage ends contact_ids sorted_pairs actual in
  let! r := judge (send_batch_down_to_agent sim_iso) (agent_ifaces plan) (pair_agent_ifaces plan)
    actual sorted_pairs in
  Ok (r, local_down_events r actual sim_time down_reasons).

(** *** LinkUp *)

Section Up.
Context (compensation : string → string → float * float → result LatencyCompensation).

(** [_dispatch_link_up_plan]. *)
Definition dispatch_link_up_plan (plan : LinkUpBatchPlan) (pairs : list node_pair) (desired : Links)
    (sim_iso label : string) : result ActuationResult :=
  let! results := gather (send_batch_up_to_agent sim_iso label) (agent_ifaces (up_batch plan)) in
  let! types := foldM (λ (m : gmap node_pair LinkType) p,
      let! info := or_raise (desired !! p) (KeyError "desired") in
      Ok (<[p := link_type info]> m)) ∅ pairs in
  Ok (build_actuation_result (pair_agent_ifaces (up_batch plan)) types (stations_in types pairs)
        results (list_to_set pairs)).

(** [_publish_link_ups]. *)
Definition link_up_event (plan : LinkUpBatchPlan) (desired : Links) (sim_time : datetime)
    (p : node_pair) : result LinkUp :=
  let! info := or_raise (desired !! p) (KeyError "desired") in
  let! _ := is_up_to_date info sim_time in
  let! range := or_raise (range_km info) (ValueError "missing OME-authoritative range_km") in
  let! c := or_raise (pair_compensation plan !! p) (KeyError "pair_compensation") in
  let! provenance := link_provenance info c sim_time in
  Ok {| lu_sim_time := sim_time; lu_pair := p; lu_interfaces := (interface_a info, interface_b info);
        lu_latencies_ms := (latency_a_to_b_ms info, latency_b_to_a_ms info); lu_range_km := range;
        lu_link_type := link_type info; lu_provenance := provenance;
        lu_contact_id := record_contact_id info |}.
Definition publish_link_ups (r : ActuationResult) (plan : LinkUpBatchPlan) (desired : Links)
    (sim_time : datetime) : result (list LinkUp) :=
  mapM_r (link_up_event plan desired sim_time) (sorted_set npair_lt (succeeded_pairs r)).

(** [send_batch_up]: the result, the records with what was commanded, and the
    LinkUps published. *)
Definition send_batch_up (pairs : gset node_pair) (desired : Links) (sim_iso : string)
    (sim_time : datetime) : result (ActuationResult * Links * list LinkUp) :=
  let sorted_pairs := sorted_set npair_lt pairs in
  let! _ := foldM (λ _ p,
      let! info := or_raise (desired !! p)
        (RuntimeError "Dispatch planner requested LinkUp for missing desired pair") in
      is_up_to_date info sim_time) tt sorted_pairs in
  let! '(plan, desired) := build_link_up_batch_plan loc gs_capacities rates compensation
    LINK_UP_STAGE_OPEN sorted_pairs desired in
  let! r := dispatch_link_up_plan plan sorted_pairs desired sim_iso "up" in
  let! ups := publish_link_ups r plan desired sim_time in
  Ok (r, desired, ups).

(** [prepare_long_delay_contacts]. *)
Definition prepare_long_delay_contacts (pairs : gset node_pair) (desired : Links) (sim_iso : string)
    (sim_time : datetime) : result (LinkUpBatchPlan * Links * ActuationResult) :=
  let sorted_pairs := sorted_set npair_lt pairs in
  let! _ := foldM (λ _ p,
      let! info := match desired !! p with
        | Some info => if is_none (contact info)
                       then Raise (RuntimeError "PREPARE requested for no desired contact")
                       else Ok info
        | None => Raise (RuntimeError "PREPARE requested for no desired contact")
        end in
      is_up_to_date info sim_time) tt sorted_pairs in
  let! '(plan, desired) := build_link_up_batch_plan loc gs_capacities rates compensation
    LINK_UP_STAGE_PREPARE sorted_pairs desired in
  let! r := dispatch_link_up_plan plan sorted_pairs desired sim_iso "prepare" in
  Ok (plan, desired, r).

(** [open_prepared_contacts]. *)
Definition open_prepared_contacts (plan : LinkUpBatchPlan) (pairs : gset node_pair) (desired : Links)
    (sim_iso : string) (sim_time : datetime) : result (ActuationResult * list LinkUp) :=
  let sorted_pairs := sorted_set npair_lt pairs in
  let! open_plan := restage_link_up_plan plan sorted_pairs LINK_UP_STAGE_OPEN in
  let! r := dispatch_link_up_plan open_plan sorted_pairs desired sim_iso "open" in
  let! ups := publish_link_ups r open_plan desired sim_time in
  Ok (r, ups).

(** *** Latency *)

(** The entries of one pair. *)
Definition latency_entries (p : node_pair) (info : ActiveLinkInfo) (netem : float * float) :
    result (list (string * LatencyEntry)) :=
  let entry (i peer : Iface) (type : LinkType) (gs_id sat_id : string) : result LatencyEntry :=
    let! latency := egress_ms p i.1 netem in
    let! r := terminal_rates_message rates i in
    match contact info with
    | None => Ok {| le_iface := i; le_latency_ms := latency; le_link_type := type;
                    le_gs_id := gs_id; le_sat_id := sat_id; le_rates := r; le_contact_id := "";
                    le_receive_latency_ms := f_0; le_peer_rates := None |}
    | Some c =>
        let! receive := egress_ms p peer.1 netem in
        let! peer_rates := terminal_rates_message rates peer in
        Ok {| le_iface := i; le_latency_ms := latency; le_link_type := type; le_gs_id := gs_id;
              le_sat_id := sat_id; le_rates := r; le_contact_id := Contact_contact_id c;
              le_receive_latency_ms := receive; le_peer_rates := Some peer_rates |}
    end in
  match link_type info with
  | ground_link =>
      let! e := required_ground_endpoints gs_capacities p info in
      let! l := link_locality loc p.1 p.2 in
      let! sat_agent := agent_addr loc (ge_sat_id e) in
      let! gs_agent := match l with LOCALITY_LOCAL => agent_addr loc (ge_sat_id e)
                                  | LOCALITY_CROSS_NODE => agent_addr loc (ge_gs_id e) end in
      mapM_r (λ '(nid, iface, agent),
          let peer := if bool_decide (nid = ge_gs_id e) then ge_sat_id e else ge_gs_id e in
          let! x := entry (nid, iface) (peer, peer_iface_at e nid) ground_link (ge_gs_id e)
            (ge_sat_id e) in
          Ok (agent, x))
        [(ge_sat_id e, ge_sat_iface e, sat_agent); (ge_gs_id e, ge_gs_iface e, gs_agent)]
  | isl_link =>
      mapM_r (λ '(i, peer),
          let! x := entry i peer isl_link "" "" in
          let! agent := agent_addr loc i.1 in
          Ok (agent, x))
        (isl_ends p info)
  end.

Definition latency_pair (sim_time : datetime)
    (acc : BatchPlan LatencyEntry * gmap node_pair LatencyCompensation * Links) (p : node_pair) :
    result (BatchPlan LatencyEntry * gmap node_pair LatencyCompensation * Links) :=
  let '(plan, compensations, desired) := acc in
  let! info := or_raise (desired !! p) (KeyError "desired") in
  let! _ := is_up_to_date info sim_time in
  let! c := compensation p.1 p.2 (latency_a_to_b_ms info, latency_b_to_a_ms info) in
  let! entries := latency_entries p info (netem_of c) in
  Ok (add_messages le_iface p plan entries, <[p := c]> compensations,
      <[p := with_netem info (netem_of c)]> desired).

(** [send_authoritative_latency_updates]. *)
Definition send_authoritative_latency_updates (pairs : gset node_pair) (desired : Links)
    (sim_time : datetime) : result (ActuationResult * Links * list LatencyUpdate) :=
  let sorted_pairs := sorted_set npair_lt pairs in
  let! '(plan, compensations, desired) :=
    foldM (latency_pair sim_time) (empty_batch, ∅, desired) sorted_pairs in
  let! r := judge (send_latency_to_agent sim_time) (agent_ifaces plan) (pair_agent_ifaces plan)
    desired sorted_pairs in
  let! events := mapM_r (λ p,
      let! info := or_raise (desired !! p) (KeyError "desired") in
      let! range := or_raise (range_km info)
        (ValueError "Desired latency update has no range_km") in
      let! c := or_raise (compensations !! p) (KeyError "pair_compensation") in
      let! provenance := link_provenance info c sim_time in
      Ok {| lt_sim_time := sim_time; lt_pair := p;
            lt_latencies_ms := (latency_a_to_b_ms info, latency_b_to_a_ms info);
            lt_range_km := range; lt_provenance := provenance |})
    (sorted_set npair_lt (succeeded_pairs r)) in
  Ok (r, desired, events).
End Up.

(** *** Kernel inventories *)

(** [_ground_inventory_entries_for_pair]: entries and their agents, in order. *)
Definition ground_inventory_entries_for_pair (p : node_pair) (info : ActiveLinkInfo)
    (expected_admin_up : bool) : result (list (string * KernelInventoryEntry)) :=
  raise_if bool_decide (link_type info = isl_link) with ValueError "KernelInventory is ground-only" ;;
  let! e := required_ground_endpoints gs_capacities p info in
  let! l := link_locality loc p.1 p.2 in
  let! commanded :=
    if expected_admin_up then
      or_raise (commanded_netem_ms info)
        (ValueError "ground link is proven up with no commanded delay")
    else Ok (f_0, f_0) in
  let local := negb (is_cross l) in
  let add (agent_node : string) (i peer : Iface) : result (string * KernelInventoryEntry) :=
    let! agent := agent_addr loc agent_node in
    let! ip := remote_ip loc l peer.1 in
    let! latency := egress_ms p i.1 commanded in
    let! peer_latency := if local then egress_ms p peer.1 commanded else Ok f_0 in
    let! own := if expected_admin_up then (let! x := terminal_rates_message rates i in Ok (Some x)) else Ok None in
    let! peers := if expected_admin_up && local then (let! x := terminal_rates_message rates peer in Ok (Some x))
                  else Ok None in
    Ok (agent, {| ki_iface := i; ki_link_type := ground_link; ki_gs_id := ge_gs_id e;
                  ki_sat_id := ge_sat_id e; ki_peer := peer; ki_locality := l;
                  ki_vni := ground_vni l e; ki_latency_ms := latency;
                  ki_expected_admin_up := expected_admin_up; ki_remote_node_ip := ip;
                  ki_rates := own; ki_peer_rates := peers; ki_peer_latency_ms := peer_latency;
                  ki_contact_id := ""; ki_receive_latency_ms := f_0;
                  ki_expected_admission_stopped := false; ki_survey := false |}) in
  let gs := (ge_gs_id e, ge_gs_iface e) in
  let sat := (ge_sat_id e, ge_sat_iface e) in
  if local then
    let! x := add (ge_sat_id e) gs sat in Ok [x]
  else
    let! x := add (ge_sat_id e) sat gs in
    let! y := add (ge_gs_id e) gs sat in
    Ok [x; y].

(** [long_delay_inventory_entries]. *)
Definition long_delay_inventory_entries (p : node_pair) (info : ActiveLinkInfo)
    (node_ids : gset string) : result (list (string * KernelInventoryEntry)) :=
  raise_if is_none (contact info) with ValueError "local link; its ends have no contact stage" ;;
  let! commanded := or_raise (commanded_netem_ms info)
    (ValueError "long-delay link has no commanded delay to prove") in
  let! l := link_locality loc p.1 p.2 in
  let! '(gs_id, sat_id, vni) := match link_type info with
    | ground_link =>
        let! e := required_ground_endpoints gs_capacities p info in
        Ok (ge_gs_id e, ge_sat_id e, ground_vni l e)
    | isl_link => Ok ("", "", isl_vni l p info)
    end in
  mapM_r (λ '(i, peer),
      let! agent := agent_addr loc i.1 in
      let! ip := remote_ip loc l peer.1 in
      let! cid := end_contact_id info i.1 in
      let! receive := egress_ms p peer.1 commanded in
      let! own := terminal_rates_message rates i in
      let! peers := terminal_rates_message rates peer in
      Ok (agent, {| ki_iface := i; ki_link_type := link_type info; ki_gs_id := gs_id;
                    ki_sat_id := sat_id; ki_peer := peer; ki_locality := l; ki_vni := vni;
                    ki_latency_ms := f_0; ki_expected_admin_up := true; ki_remote_node_ip := ip;
                    ki_rates := Some own; ki_peer_rates := Some peers; ki_peer_latency_ms := f_0;
                    ki_contact_id := cid; ki_receive_latency_ms := receive;
                    ki_expected_admission_stopped := negb (is_none (drain info));
                    ki_survey := false |}))
    (List.filter (λ x, bool_decide (x.1.1 ∈ node_ids)) (isl_ends p info)).

(** [ground_inventory_requests]: the local and the long-delay entries by agent,
    and the acknowledgements of each pair. *)
Record GroundInventory := {
  gi_local : dict string (list KernelInventoryEntry);
  gi_long_delay : dict string (list KernelInventoryEntry);
  gi_ifaces : gmap node_pair (gset InterfaceAck);
}.

Definition append_all {M} (d : dict string (list M)) (entries : list (string * M)) :
    dict string (list M) := fold_left (λ d x, append_to x.1 x.2 d) entries d.

Definition inventory_pair (gs_id : string) (expected_admin_up : bool) (acc : GroundInventory)
    (x : node_pair * ActiveLinkInfo) : result GroundInventory :=
  let '(p, info) := x in
  if negb (bool_decide (link_gs_id gs_capacities p (link_type info) = Some gs_id)) then Ok acc else
  let staged := expected_admin_up && negb (is_none (contact info)) in
  let! entries := if staged then long_delay_inventory_entries p info (remaining_ends p info)
                  else ground_inventory_entries_for_pair p info expected_admin_up in
  Ok {| gi_local := if staged then gi_local acc else append_all (gi_local acc) entries;
        gi_long_delay := if staged then append_all (gi_long_delay acc) entries else gi_long_delay acc;
        gi_ifaces := <[p := ack_set ki_iface entries ∪ default ∅ (gi_ifaces acc !! p)]>
                       (gi_ifaces acc) |}.

Definition ground_inventory_requests (gs_id : string)
    (expected_up expected_down : list (node_pair * ActiveLinkInfo)) : result GroundInventory :=
  let! acc := foldM (inventory_pair gs_id true)
    {| gi_local := []; gi_long_delay := []; gi_ifaces := ∅ |} expected_up in
  foldM (inventory_pair gs_id false) acc expected_down.

(** [verify_ground_kernel_inventory]. *)
Definition verify_ground_kernel_inventory (gs_id : string)
    (expected_up expected_down : list (node_pair * ActiveLinkInfo)) (sim_iso : string) :
    result ActuationResult :=
  let! planned := ground_inventory_requests gs_id expected_up expected_down in
  let! local := gather (send_kernel_inventory_to_agent sim_iso gs_id) (sorted_agents (gi_local planned)) in
  let! long := gather (send_kernel_inventory_to_agent sim_iso "") (sorted_agents (gi_long_delay planned)) in
  Ok (build_actuation_result (gi_ifaces planned) ((λ _, ground_link) <$> gi_ifaces planned)
        ((λ _, gs_id) <$> gi_ifaces planned) (local ++ long)
        (list_to_set (map fst expected_up ++ map fst expected_down))).

(** [verify_long_delay_ends]. *)
Definition verify_pair (actual : Links) (acc : BatchPlan KernelInventoryEntry)
    (x : node_pair * gset string) : result (BatchPlan KernelInventoryEntry) :=
  let! info := or_raise (actual !! x.1) (KeyError "actual_links") in
  let! entries := long_delay_inventory_entries x.1 info x.2 in
  Ok {| agent_ifaces := append_all (agent_ifaces acc) entries;
        pair_agent_ifaces := <[x.1 := ack_set ki_iface entries]> (pair_agent_ifaces acc) |}.

Definition verify_long_delay_ends (ends : gmap node_pair (gset string)) (actual : Links)
    (sim_iso : string) : result ActuationResult :=
  let! plan := foldM (verify_pair actual) empty_batch (sorted_items npair_lt ends) in
  judge (send_kernel_inventory_to_agent sim_iso "") (sorted_agents (agent_ifaces plan))
    (pair_agent_ifaces plan) actual (sorted_set npair_lt (dom ends)).

(** *** Surveys *)

Definition survey_entry (i peer : Iface) (type : LinkType) (gs_id sat_id : string) (l : Locality)
    (vni : Z) (ip : string) : KernelInventoryEntry :=
  {| ki_iface := i; ki_link_type := type; ki_gs_id := gs_id; ki_sat_id := sat_id; ki_peer := peer;
     ki_locality := l; ki_vni := vni; ki_latency_ms := f_0; ki_expected_admin_up := false;
     ki_remote_node_ip := ip; ki_rates := None; ki_peer_rates := None; ki_peer_latency_ms := f_0;
     ki_contact_id := ""; ki_receive_latency_ms := f_0; ki_expected_admission_stopped := false;
     ki_survey := true |}.

(** [survey_long_delay_ends]. *)
Definition survey_pair (interface_map : gmap node_pair (string * string))
    (acc : BatchPlan KernelInventoryEntry) (p : node_pair) : result (BatchPlan KernelInventoryEntry) :=
  let! '(ia, ib) := or_raise (interface_map !! p) (KeyError "interface_map") in
  let! l := link_locality loc p.1 p.2 in
  let vni := if is_cross l then compute_vni p.1 p.2 ia ib else 0 in
  let! entries := mapM_r (λ '(i, peer),
      let! agent := agent_addr loc i.1 in
      let! ip := remote_ip loc l peer.1 in
      Ok (agent, survey_entry i peer isl_link "" "" l vni ip))
    [((p.1, ia), (p.2, ib)); ((p.2, ib), (p.1, ia))] in
  Ok (add_messages ki_iface p acc entries).

Definition survey_long_delay_ends (pairs : gset node_pair)
    (interface_map : gmap node_pair (string * string)) (sim_iso : string) : result ActuationResult :=
  let requested := sorted_set npair_lt pairs in
  let! plan := foldM (survey_pair interface_map) empty_batch requested in
  let! results := gather (send_kernel_inventory_to_agent sim_iso "")
    (sorted_agents (agent_ifaces plan)) in
  Ok (build_actuation_result (pair_agent_ifaces plan)
        (list_to_map (map (λ p, (p, isl_link)) requested)) ∅ results pairs).

(** [survey_ground_terminals]; its "pairs" are (node, interface). *)
Definition survey_terminal (acc : BatchPlan KernelInventoryEntry) (i : Iface) :
    result (BatchPlan KernelInventoryEntry) :=
  let! agent := agent_addr loc i.1 in
  let station := negb (is_none (gs_capacities !! i.1)) in
  let entry := survey_entry i ("", "") ground_link (if station then i.1 else "")
    (if station then "" else i.1) LOCALITY_LOCAL 0 "" in
  Ok {| agent_ifaces := append_to agent entry (agent_ifaces acc);
        pair_agent_ifaces := <[i := {[(agent, i)]}]> (pair_agent_ifaces acc) |}.

Definition survey_ground_terminals (terminals : list Iface) (sim_iso : string) :
    result ActuationResult :=
  let! plan := foldM survey_terminal empty_batch (sorted iface_lt terminals) in
  let! results := gather (send_kernel_inventory_to_agent sim_iso "")
    (sorted_agents (agent_ifaces plan)) in
  Ok (build_actuation_result (pair_agent_ifaces plan)
        ((λ _, ground_link) <$> pair_agent_ifaces plan) ∅ results (dom (pair_agent_ifaces plan))).
End Actuator.
