(* ===== verification/ActuatorTheorems.v ===== *)
(** * What the actuator guarantees

    Every packet an end reports lost is published once; a link event is published
    exactly for the pairs the kernel proved; a kernel inventory proves exactly what
    the setup built; and the actuator is an implementation of the interface the
    reconcile pass is proved against ([DispatchPlanner.Agents]). *)

From S2P Require Import Prelude.
From S2P Require Import PyFloat.
From S2P Require Import PyData.
From S2P Require Import PyTime.
From S2P Require Import GroundTypes.
From S2P Require Import EventDiff.
From S2P Require Import DesiredState.
From S2P Require Import Authority.
From S2P Require Import Actuation.
From S2P Require Import DispatchPlanner.
From S2P Require Import ContactDrain.
From S2P Require Import Placement.
From S2P Require Import Substrate.
From S2P Require Import NodeAgentBatches.
From S2P Require Import BatchTheorems.
From S2P Require Import DispatchActuator.
From stdpp Require Import base list strings gmap.
Local Open Scope Z_scope.

(** ** Losses *)

(** The packets a report counts. *)
Definition stage_total (s : StageLoss) : Z :=
  st_refused_before_open s + st_untransmitted_at_stop s + st_transmit_dropped s.
Definition counts_total (c : EndLossCounts) : Z :=
  lc_admission_taken c + lc_queue_dropped c + lc_discarded_at_close c +
  lc_untransmitted_at_stop c + lc_transmit_dropped c.
Definition record_total (l : LinkEndLoss) : Z :=
  el_refused_before_open l + el_untransmitted_at_stop l + el_admission_taken l +
  el_transmit_dropped l + el_queue_dropped l + el_discarded_at_close l.
Definition reported_at (r : ActuationResult) (i : Iface) : Z :=
  match end_losses r !! i with Some c => counts_total c | None => 0 end.

(** A stage keeps everything it is told or refuses the report. *)
Lemma stage_loss_total c stage s : stage_loss c stage = Ok s → stage_total s = counts_total c.
Proof.
  unfold stage_loss, nonzero, stage_total, counts_total. intros H.
  destruct (stage =? LINK_UP_STAGE_OPEN).
  - rguard H as E. injection H as <-. simpl. rewrite !orb_false_iff, !negb_false_iff, !Z.eqb_eq in E. lia.
  - destruct (stage =? LINK_DOWN_STAGE_STOP_ADMISSION); [|done]. rguard H as E. injection H as <-.
    simpl. rewrite !orb_false_iff, !negb_false_iff, !Z.eqb_eq in E. lia.
Qed.

Lemma plus_total a b : stage_total (DesiredState.plus a b) = stage_total a + stage_total b.
Proof. unfold stage_total. simpl. lia. Qed.

Lemma pair_losses_spec r p info i c :
  (i, c) ∈ pair_losses r p info ↔ end_losses r !! i = Some c ∧ i ∈ ends_of p info.
Proof.
  unfold pair_losses. rewrite list_elem_of_In, filter_In, <- list_elem_of_In. simpl.
  by rewrite bool_decide_eq_true, elem_of_sorted_items.
Qed.

Lemma pair_losses_NoDup r p info : NoDup (map fst (pair_losses r p info)).
Proof.
  unfold pair_losses. apply NoDup_map_filter. unfold sorted_items. rewrite sorted_perm.
  apply NoDup_fst_map_to_list.
Qed.

(** The interface of an end is determined by its node. *)
Lemma ends_of_unique p info n f g :
  p.1 ≠ p.2 → (n, f) ∈ ends_of p info → (n, g) ∈ ends_of p info → f = g.
Proof. unfold ends_of. set_solver. Qed.

Lemma ends_with_stage_losses p info losses : ends_of p (with_stage_losses info losses) = ends_of p info.
Proof. done. Qed.

(** Recording a stage adds what the end reported to what the record holds. *)
Lemma record_stage_total r p info stage info' n f :
  p.1 ≠ p.2 → (n, f) ∈ ends_of p info → record_stage_losses r p info stage = Ok info' →
  ends_of p info' = ends_of p info ∧
  stage_total (held_stage info' n) = stage_total (held_stage info n) + reported_at r (n, f).
Proof.
  intros Hne Hnf H. unfold record_stage_losses in H.
  set (I := λ (pre : list (Iface * EndLossCounts)) i', ends_of p i' = ends_of p info ∧
    stage_total (held_stage i' n) = stage_total (held_stage info n) +
      (if decide ((n, f) ∈ map fst pre) then reported_at r (n, f) else 0)).
  assert (I (pair_losses r p info) info') as [He Ht].
  { refine (foldM_prefix I _ _ _ _ _ _ H).
    2: { split; [done|]. rewrite decide_False by apply not_elem_of_nil. lia. }
    intros pre [[n' f'] c] post i1 i2 Hl [He Ht] Hx. rbind Hx as s Hs. injection Hx as <-.
    split; [done|]. apply stage_loss_total in Hs. cbn [fst snd] in *.
    assert ((n', f', c) ∈ pair_losses r p info) as Hin by (rewrite Hl; set_solver).
    apply pair_losses_spec in Hin as [Hc Hin].
    unfold held_stage, with_stage_losses at 1. cbn [stage_losses]. rewrite map_app.
    destruct (decide (n' = n)) as [->|Hn].
    - assert (f' = f) as -> by by apply (ends_of_unique p info n).
      rewrite lookup_insert_eq. simpl.
      rewrite plus_total, Hs. fold (held_stage i1 n). rewrite Ht.
      destruct (decide ((n, f) ∈ map fst pre)) as [Hp|Hp].
      { pose proof (pair_losses_NoDup r p info) as Hnd. rewrite Hl, map_app in Hnd.
        apply NoDup_app in Hnd as (_ & Hnd & _). by destruct (Hnd (n, f) Hp); left. }
      rewrite decide_True by (simpl; set_solver). unfold reported_at. rewrite Hc.
      fold (held_stage info n). lia.
    - rewrite lookup_insert_ne by done. fold (held_stage i1 n). rewrite Ht.
      fold (held_stage info n). f_equal.
      repeat destruct (decide _) as [?|?]; try done; set_solver. }
  split; [done|]. rewrite Ht. f_equal. destruct (decide _) as [|Hd]; [done|].
  unfold reported_at. destruct (end_losses r !! (n, f)) as [c|] eqn:Ec; [|done].
  destruct Hd. apply list_elem_of_fmap. exists ((n, f), c). split; [done|].
  by apply pair_losses_spec.
Qed.

(** no packet a long-delay end reports lost is dropped from the account or
    counted twice.  For a contact opened, stopped and closed, the record published
    for an end counts exactly the packets the end reported at its open, its stop
    and its close, and there is exactly one such record. *)
Theorem losses_conserved opened stopped closed p info info1 info2 cause n f c :
  p.1 ≠ p.2 → (n, f) ∈ ends_of p info → stage_losses info = ∅ →
  record_stage_losses opened p info LINK_UP_STAGE_OPEN = Ok info1 →
  record_stage_losses stopped p info1 LINK_DOWN_STAGE_STOP_ADMISSION = Ok info2 →
  end_losses closed !! (n, f) = Some c →
  ∃ l, filter (λ l, el_node_id l = n) (end_loss_records closed p info2 cause) = [l] ∧
    el_interface l = f ∧ el_cause l = cause ∧
    record_total l = reported_at opened (n, f) + reported_at stopped (n, f) + counts_total c.
Proof.
  intros Hne Hnf H0 H1 H2 Hc.
  destruct (record_stage_total _ _ _ _ _ n f Hne Hnf H1) as [He1 Ht1].
  destruct (record_stage_total _ _ _ _ _ n f Hne ltac:(by rewrite He1) H2) as [He2 Ht2].
  unfold held_stage at 2 in Ht1. rewrite H0, lookup_empty in Ht1. simpl in Ht1.
  exists (end_loss_record info2 cause ((n, f), c)). repeat split.
  - unfold end_loss_records.
    assert (((n, f), c) ∈ pair_losses closed p info2) as Hin.
    { apply pair_losses_spec. split; [done|]. by rewrite He2, He1. }
    assert (∀ i c', (i, c') ∈ pair_losses closed p info2 → i.1 = n → i = (n, f)) as Huniq.
    { intros [n' g] c' [_ Hi]%pair_losses_spec Hn. simpl in Hn. subst n'. f_equal.
      apply (ends_of_unique p info2 n); [done|done|]. by rewrite He2, He1. }
    pose proof (pair_losses_NoDup closed p info2) as Hnd. revert Hin Huniq Hnd.
    generalize (pair_losses closed p info2) as l. clear.
    induction l as [|[[n' g] c'] l IH]; intros Hin Huniq Hnd; [by apply elem_of_nil in Hin|].
    apply NoDup_cons in Hnd as [Hx Hnd]. simpl. rewrite filter_cons. simpl.
    destruct (decide (n' = n)) as [->|Hn].
    + assert (g = f) as -> by (injection (Huniq (n, g) c' ltac:(left) eq_refl); done).
      assert (c' = c) as ->.
      { apply elem_of_cons in Hin as [[= ->]|Hin]; [done|]. destruct Hx.
        apply list_elem_of_fmap. by exists ((n, f), c). }
      f_equal. destruct (filter _ _) as [|y ys] eqn:E; [done|exfalso].
      assert (y ∈ filter (λ l, el_node_id l = n) (map (end_loss_record info2 cause) l)) as Hy
        by (rewrite E; left).
      apply list_elem_of_filter in Hy as [Hy (([n2 g2] & c2) & -> & Hin2)%list_elem_of_fmap].
      simpl in Hy. subst n2. destruct Hx. apply list_elem_of_fmap. exists ((n, g2), c2).
      split; [|done]. simpl. symmetry. apply (Huniq (n, g2) c2); [by right|done].
    + apply IH; [|by intros i c2 Hi; apply (Huniq i c2); right|done].
      apply elem_of_cons in Hin as [[= -> -> ->]|Hin]; [done|done].
  - unfold end_loss_record, record_total, counts_total. simpl.
    fold (held_stage info2 n). unfold stage_total in Ht1, Ht2. simpl in Ht1. lia.
Qed.

(** ** What a success proves *)

(** An agent answered, to a request of this writer, that the interface is as asked
    in the kernel. *)
Definition proven_by (transport : string → AgentRequest → AgentReply) (fence : Fence)
    (asked : CommandEnvelope → AgentRequest → Prop) (ack : InterfaceAck) : Prop :=
  ∃ env request reply e,
    asked env request ∧ transport ack.1 request = Answered reply ∧
    env_session_id env = fence_session_id fence ∧
    env_wiring_generation env = fence_wiring_generation fence ∧
    env_writer_epoch env = fence_writer_epoch fence ∧
    e ∈ rs_entries reply ∧ en_iface e = ack.2 ∧
    en_success e = true ∧ en_verified e = true ∧ en_dirty_kernel e = false.

Section Proof.
Context (loc : PodLocationMap) (gs_capacities : gmap string Z) (rates : gmap Iface InterfaceRates)
        (max_latency_age_s : float) (fence : Fence)
        (transport : string → AgentRequest → AgentReply).

Lemma sent_acks {M} (key : M → Iface) operation base request addr items r ack :
  send_messages fence transport key operation base request addr items = Ok r →
  ack ∈ ar_success_acks r →
  proven_by transport fence (λ env req, ∃ chunk, req = request env chunk) ack.
Proof.
  intros H Ha. destruct (call_acks _ _ _ H Ha) as [Haddr (n & run & reply & e & Hrun & Hreply & He)].
  cbn [cl_addr cl_reply] in *. eexists _, _, reply, e. split; [by eexists|]. rewrite Haddr.
  split; [exact Hreply|]. repeat split; apply He.
Qed.

(** A batch judged: every acknowledgement of a succeeded pair is proven. *)
Lemma gathered_acks {M} (key : M → Iface) operation base request (by_agent : dict string (list M))
    results ifaces types stations requested p :
  gather (send_messages fence transport key operation base request) by_agent = Ok results →
  p ∈ succeeded_pairs (build_actuation_result ifaces types stations results requested) →
  p ∈ requested ∧ default ∅ (ifaces !! p) ≠ ∅ ∧
  ∀ ack, ack ∈ default ∅ (ifaces !! p) →
    proven_by transport fence (λ env req, ∃ chunk, req = request env chunk) ack.
Proof.
  intros Hg Hp. apply succeeded_acks in Hp as (Hr & Hne & Hacks). split; [done|]. split; [done|].
  intros ack Hack. destruct (Hacks ack Hack) as (a & Ha & Hin).
  unfold gather in Hg. apply (elem_of_mapM_r _ _ _ Hg) in Ha as (x & _ & Hx). by eapply sent_acks.
Qed.

Lemma mapM_map {A B C} (f : A → result B) (g : B → C) (h : A → C) l r :
  (∀ x y, f x = Ok y → g y = h x) → mapM_r f l = Ok r → map g r = map h l.
Proof.
  intros Hf. revert r. induction l as [|x l IH]; intros r H; simpl in H; [by injection H as <-|].
  rbind H as y Hy. rbind H as ys Hys. injection H as <-. simpl. f_equal; [by apply Hf|by apply IH].
Qed.

Lemma dispatched_acks plan pairs desired sim_iso label r p :
  dispatch_link_up_plan gs_capacities fence transport plan pairs desired sim_iso label = Ok r →
  p ∈ succeeded_pairs r →
  p ∈ pairs ∧ acks_of (up_batch plan) p ≠ ∅ ∧
  ∀ ack, ack ∈ acks_of (up_batch plan) p →
    proven_by transport fence (λ env req, ∃ chunk, req = BatchLinkUpRequest env sim_iso chunk) ack.
Proof.
  unfold dispatch_link_up_plan. intros H. rbind H as results Hg. rbind H as types Ht.
  injection H as <-. intros Hp.
  destruct (gathered_acks _ _ _ _ _ _ _ _ _ _ _ Hg Hp) as (Hin & Hne & Hacks).
  split; [by apply elem_of_list_to_set in Hin|]. done.
Qed.
End Proof.

(** a LinkUp is published exactly for the pairs whose every message the
    kernel proved.  The published LinkUps are the succeeded pairs, in order; each
    was asked for, had messages, and for every one of them an agent answered a
    request of this writer, session and wiring generation that the interface is
    as asked, verified and not dirty. *)
Theorem link_ups_are_proven loc gs_capacities rates max_age fence transport comp pairs desired
    sim_iso sim_time r desired' ups :
  send_batch_up loc gs_capacities rates max_age fence transport comp pairs desired sim_iso sim_time
    = Ok (r, desired', ups) →
  map lu_pair ups = sorted_set npair_lt (succeeded_pairs r) ∧
  ∃ plan, build_link_up_batch_plan loc gs_capacities rates comp LINK_UP_STAGE_OPEN
      (sorted_set npair_lt pairs) desired = Ok (plan, desired') ∧
    ∀ p, p ∈ succeeded_pairs r →
      p ∈ pairs ∧ acks_of (up_batch plan) p ≠ ∅ ∧
      ∀ ack, ack ∈ acks_of (up_batch plan) p →
        proven_by transport fence
          (λ env req, ∃ chunk, req = BatchLinkUpRequest env sim_iso chunk) ack.
Proof.
  unfold send_batch_up. intros H. rbind H as u Hu. rbind H as [plan d'] Hplan. rbind H as r' Hr.
  rbind H as ups' Hups. injection H as -> -> ->. split.
  - rewrite <- (map_id (sorted_set npair_lt (succeeded_pairs r))).
    refine (mapM_map _ _ id _ _ _ Hups). intros p up Hp. unfold link_up_event in Hp.
    rbind Hp as info Hi. rbind Hp as v Hv. rbind Hp as range Hr'. rbind Hp as c Hc.
    rbind Hp as pv Hpv. by injection Hp as <-.
  - exists plan. split; [done|]. intros p Hp.
    destruct (dispatched_acks _ _ _ _ _ _ _ _ _ _ Hr Hp) as (Hin & Hne & Hacks).
    apply elem_of_sorted_set in Hin. done.
Qed.

(** ** Inventories *)

(** What an inventory entry asserts, and what a LinkUp set. *)
Definition asserted (x : string * KernelInventoryEntry) :=
  let '(agent, k) := x in
  (agent, ki_iface k, ki_peer k, ki_link_type k, ki_gs_id k, ki_sat_id k, ki_locality k,
   ki_remote_node_ip k, ki_vni k, ki_rates k, ki_peer_rates k).
Definition set_up (x : string * InterfaceUp) :=
  let '(agent, u) := x in
  (agent, up_iface u, up_peer u, up_link_type u, up_gs_id u, up_sat_id u, up_locality u,
   up_remote_node_ip u, up_vni u, up_rates u, up_peer_rates u).
(** The shaping of a local link, and of a long-delay end. *)
Definition asserted_delays (x : string * KernelInventoryEntry) : float * float :=
  (ki_latency_ms x.2, ki_peer_latency_ms x.2).
Definition set_delays (x : string * InterfaceUp) : float * float :=
  (up_latency_ms x.2, up_peer_latency_ms x.2).
Definition asserted_contact (x : string * KernelInventoryEntry) : string * float :=
  (ki_contact_id x.2, ki_receive_latency_ms x.2).
Definition set_contact (x : string * InterfaceUp) : string * float :=
  (up_contact_id x.2, up_receive_latency_ms x.2).

Lemma mapM_target_perm {A B C T} (m : A → result B) (m' : A → result C) (f : B → T) (g : C → T) l r :
  (∀ x y, x ∈ l → m x = Ok y → ∃ z, m' x = Ok z ∧ g z = f y) → mapM_r m l = Ok r →
  ∃ r', mapM_r m' l = Ok r' ∧ map g r' ≡ₚ map f r.
Proof.
  intros Hm H. destruct (mapM_target m m' f g l r Hm H) as (r' & Hr & Ht). exists r'. by rewrite Ht.
Qed.

Section Inventory.
Context (loc : PodLocationMap) (gs_capacities : gmap string Z) (rates : gmap Iface InterfaceRates)
        (stage : Z) (p : node_pair) (info : ActiveLinkInfo) (l : Locality) (netem : float * float)
        (ups : list (string * InterfaceUp)).
Hypothesis Hne : p.1 ≠ p.2.
Hypothesis Hl : link_locality loc p.1 p.2 = Ok l.
Hypothesis Hups : link_up_messages loc gs_capacities rates stage p info l netem = Ok ups.
Abbreviation commanded := (with_netem info netem).

Lemma inventory_local :
  link_type info = ground_link → contact info = None →
  ∃ entries, ground_inventory_entries_for_pair loc gs_capacities rates p commanded true = Ok entries ∧
    map (λ x, (asserted x, asserted_delays x)) entries = map (λ x, (set_up x, set_delays x)) ups.
Proof.
  intros Ht Hc. unfold link_up_messages in Hups. rewrite Ht, Hc in Hups.
  unfold ground_inventory_entries_for_pair. cbn [link_type with_netem commanded_netem_ms]. rewrite Ht.
  cbn [bool_decide]. rbind Hups as e He.
  unfold required_ground_endpoints. change (ground_endpoints gs_capacities p commanded)
    with (ground_endpoints gs_capacities p info). rewrite He. cbn [or_raise rbind].
  rewrite Hl. cbn [rbind]. destruct l; cbn [is_cross bool_decide negb andb].
  - rbind Hups as agent Ea. rbind Hups as la La. rbind Hups as lb Lb. rbind Hups as ra Ra.
    rbind Hups as rb Rb. injection Hups as <-. rewrite Ea. simpl. rewrite La. simpl. rewrite Lb. simpl.
    rewrite Ra. simpl. rewrite Rb. simpl. by eexists.
  - apply mapM_pair in Hups as ([sa su] & [ga gu] & -> & Hs & Hg).
    rbind Hs as ips Is. rbind Hs as as_ Es. rbind Hs as ls Ls. rbind Hs as rs Rs.
    rbind Hg as ipg Ig. rbind Hg as ag Eg. rbind Hg as lg Lg. rbind Hg as rg Rg.
    assert (ge_gs_id e ≠ ge_sat_id e) as Hge
      by (destruct (endpoints_cases _ _ _ _ He) as [->| ->]; simpl; congruence).
    rewrite iface_at_gs, peer_iface_at_gs in *. rewrite iface_at_sat, peer_iface_at_sat in * by done.
    injection Hs as <- <-. injection Hg as <- <-.
    rewrite Es. simpl. unfold remote_ip. simpl. rewrite Is. simpl. rewrite Ls. simpl. rewrite Rs. simpl.
    rewrite Eg. simpl. rewrite Ig. simpl. rewrite Lg. simpl. rewrite Rg. simpl. by eexists.
Qed.

Lemma inventory_contact c :
  contact info = Some c → drain info = None →
  ∃ entries, long_delay_inventory_entries loc gs_capacities rates p commanded {[p.1; p.2]} = Ok entries ∧
    map (λ x, (asserted x, asserted_contact x)) entries ≡ₚ map (λ x, (set_up x, set_contact x)) ups.
Proof.
  intros Hc Hd. unfold link_up_messages in Hups. rewrite Hc in Hups.
  unfold long_delay_inventory_entries. cbn [contact with_netem commanded_netem_ms]. rewrite Hc.
  cbn [is_none or_raise rbind]. rewrite Hl. cbn [rbind].
  rewrite filter_all.
  2: { intros x Hx. apply bool_decide_eq_true. unfold isl_ends in Hx. set_solver. }
  assert (∀ n, end_contact_id commanded n = Ok (Contact_contact_id c)) as Hid.
  { intros n. unfold end_contact_id. cbn [contact drain with_netem]. by rewrite Hc, Hd. }
  change (isl_ends p commanded) with (isl_ends p info).
  cbn [link_type with_netem]. destruct (link_type info) eqn:Ht.
  - cbn [rbind]. revert Hups. apply mapM_target_perm.
    intros [i peer] [agent u] _ Hx. rbind Hx as a Ea. rbind Hx as ip Ip. rbind Hx as la La.
      rbind Hx as ra Ra. rbind Hx as re Re. rbind Hx as pr Pr. injection Hx as <- <-.
      rewrite Ea. simpl. rewrite Ip. simpl. rewrite Hid. simpl. rewrite Re. simpl. rewrite Ra. simpl.
      rewrite Pr. simpl. by eexists.
  - rbind Hups as e He. unfold required_ground_endpoints.
    change (ground_endpoints gs_capacities p commanded) with (ground_endpoints gs_capacities p info).
    rewrite He. cbn [or_raise rbind].
    apply mapM_pair in Hups as ([ga gu] & [sa su] & -> & Hg & Hs).
    rbind Hg as ag Eg. rbind Hg as lg Lg. rbind Hg as rg Rg. rbind Hg as ig Ig. rbind Hg as vg Vg.
    rbind Hg as qg Qg. rbind Hs as as_ Es. rbind Hs as ls Ls. rbind Hs as rs Rs. rbind Hs as is_ Is.
    rbind Hs as vs Vs. rbind Hs as qs Qs.
    assert (ge_gs_id e ≠ ge_sat_id e) as Hge
      by (destruct (endpoints_cases _ _ _ _ He) as [->| ->]; simpl; congruence).
    rewrite iface_at_gs, peer_iface_at_gs in *. rewrite iface_at_sat, peer_iface_at_sat in * by done.
    injection Hg as <- <-. injection Hs as <- <-.
    destruct (endpoints_cases _ _ _ _ He) as [->| ->]; simpl in *.
    + rewrite Qg in Rs. injection Rs as <-. rewrite Rg in Qs. injection Qs as <-.
      repeat first [rewrite Eg|rewrite Ig|rewrite Hid|rewrite Vg|rewrite Rg|rewrite Qg|rewrite Es
        |rewrite Is|rewrite Vs|progress simpl]. by eexists.
    + rewrite Qg in Rs. injection Rs as <-. rewrite Rg in Qs. injection Qs as <-.
      repeat first [rewrite Eg|rewrite Ig|rewrite Hid|rewrite Vg|rewrite Rg|rewrite Qg|rewrite Es
        |rewrite Is|rewrite Vs|progress simpl]. eexists. split; [done|]. apply perm_swap.
Qed.
End Inventory.

(** an audit asserts exactly what the setup commanded.  Whenever the LinkUp
    of a ground record can be planned, the inventory of that record can be too, and
    asserts at the same agents the same interfaces, peers, tunnel and rates with
    the delays commanded: for a local link the delays of both ends, for a
    long-delay contact each end's contact and receive delay. *)
Theorem inventory_asserts_setup loc gs_capacities rates stage p info l netem ups :
  p.1 ≠ p.2 → link_locality loc p.1 p.2 = Ok l → link_type info = ground_link → drain info = None →
  link_up_messages loc gs_capacities rates stage p info l netem = Ok ups →
  let record := with_netem info netem in
  if long_delay info then
    ∃ entries, long_delay_inventory_entries loc gs_capacities rates p record (remaining_ends p record)
        = Ok entries ∧
      map (λ x, (asserted x, asserted_contact x)) entries ≡ₚ map (λ x, (set_up x, set_contact x)) ups
  else
    ∃ entries, ground_inventory_entries_for_pair loc gs_capacities rates p record true = Ok entries ∧
      map (λ x, (asserted x, asserted_delays x)) entries = map (λ x, (set_up x, set_delays x)) ups.
Proof.
  intros Hne Hl Ht Hd Hups record. unfold long_delay. destruct (contact info) as [c|] eqn:Hc; simpl.
  - assert (remaining_ends p record = {[p.1; p.2]}) as ->.
    { unfold remaining_ends, record. cbn [drain with_netem]. by rewrite Hd. }
    by eapply inventory_contact.
  - by eapply inventory_local.
Qed.

Lemma inventory_asserts_setup_witness :
  ∃ ups entries,
    link_up_messages Cluster.located Pass.capacities Pass.rates LINK_UP_STAGE_OPEN Pass.p Pass.info
      LOCALITY_CROSS_NODE (float_of_Z 10, float_of_Z 11) = Ok ups ∧
    long_delay_inventory_entries Cluster.located Pass.capacities Pass.rates Pass.p
      (with_netem Pass.info (float_of_Z 10, float_of_Z 11))
      (remaining_ends Pass.p (with_netem Pass.info (float_of_Z 10, float_of_Z 11))) = Ok entries ∧
    map (λ x, (asserted x, asserted_contact x)) entries ≡ₚ map (λ x, (set_up x, set_contact x)) ups.
Proof.
  destruct (link_up_messages Cluster.located Pass.capacities Pass.rates LINK_UP_STAGE_OPEN Pass.p
      Pass.info LOCALITY_CROSS_NODE (float_of_Z 10, float_of_Z 11)) as [ups|] eqn:E.
  - destruct (inventory_asserts_setup Cluster.located Pass.capacities Pass.rates LINK_UP_STAGE_OPEN
      Pass.p Pass.info LOCALITY_CROSS_NODE (float_of_Z 10, float_of_Z 11) ups)
      as (entries & He & Hm); [done|reflexivity|reflexivity|reflexivity|exact E|].
    exists ups, entries. split; [reflexivity|]. split; [exact He|exact Hm].
  - vm_compute in E. discriminate E.
Defined.

(** A contact whose station end refused three packets before its open, left two
    untransmitted at its stop and dropped one at its close. *)
Definition end_report (taken dropped untransmitted : Z) : ActuationResult :=
  {| requested_pairs := ∅; succeeded_pairs := ∅; failed_pairs := ∅; pair_results := ∅;
     agent_results := [{| ar_agent_addr := "k3s-2"; ar_requested := []; ar_success_acks := ∅;
       ar_failure_class := fc_none; ar_dirty_kernel := false; ar_unknown_outcome := false;
       ar_fence_failure := false; ar_writer_fenced := false;
       ar_end_losses := {[("gs-A", "term0") :=
         {| lc_admission_taken := taken; lc_queue_dropped := dropped; lc_discarded_at_close := 0;
            lc_discarded_exact := true; lc_untransmitted_at_stop := untransmitted;
            lc_transmit_dropped := 0 |}]};
       ar_surveys := ∅ |}] |}.
Definition one_dropped : EndLossCounts :=
  {| lc_admission_taken := 0; lc_queue_dropped := 1; lc_discarded_at_close := 0;
     lc_discarded_exact := true; lc_untransmitted_at_stop := 0; lc_transmit_dropped := 0 |}.

Lemma losses_conserved_witness :
  ∃ info1 info2 l,
    record_stage_losses (end_report 3 0 0) Pass.p Pass.info LINK_UP_STAGE_OPEN = Ok info1 ∧
    record_stage_losses (end_report 0 0 2) Pass.p info1 LINK_DOWN_STAGE_STOP_ADMISSION = Ok info2 ∧
    filter (λ l, el_node_id l = "gs-A")
      (end_loss_records (end_report 0 1 0) Pass.p info2 drain_deadline) = [l] ∧ record_total l = 6.
Proof.
  destruct (record_stage_losses (end_report 3 0 0) Pass.p Pass.info LINK_UP_STAGE_OPEN)
    as [info1|] eqn:E1; [|vm_compute in E1; discriminate E1].
  destruct (record_stage_losses (end_report 0 0 2) Pass.p info1 LINK_DOWN_STAGE_STOP_ADMISSION)
    as [info2|] eqn:E2; [|vm_compute in E1; injection E1 as <-; vm_compute in E2; discriminate E2].
  destruct (losses_conserved (end_report 3 0 0) (end_report 0 0 2) (end_report 0 1 0) Pass.p Pass.info
    info1 info2 drain_deadline "gs-A" "term0" one_dropped) as (l & Hl & _ & _ & Ht).
  - done.
  - unfold ends_of. simpl. set_solver.
  - reflexivity.
  - exact E1.
  - exact E2.
  - reflexivity.
  - exists info1, info2, l. split; [reflexivity|]. split; [exact E2|]. split; [exact Hl|].
    rewrite Ht. reflexivity.
Defined.

(** An agent that does everything it is asked and verifies it. *)
Definition requested_ifaces (request : AgentRequest) : list Iface :=
  match request with
  | BatchLinkDownRequest _ _ ifaces => map dn_iface ifaces
  | BatchLinkUpRequest _ _ ifaces => map up_iface ifaces
  | SetLatencyRequest _ entries => map le_iface entries
  | KernelInventoryRequest _ _ _ entries => map ki_iface entries
  end.
Definition obedient (_ : string) (request : AgentRequest) : AgentReply :=
  ok_reply 0 (requested_ifaces request).

Definition seven : Fence :=
  {| fence_session_id := "run-7"; fence_wiring_generation := "sha256:ab"; fence_writer_epoch := 7 |}.
Definition local_pass : Links :=
  {[Pass.p := {| interface_a := "gnd0"; interface_b := "term0"; latency_a_to_b_ms := float_of_Z 12;
     latency_b_to_a_ms := float_of_Z 13; commanded_netem_ms := None; link_type := ground_link;
     range_km := Some (float_of_Z 3600); authority_sim_time := Some 0;
     authority_source := Some "link_state_snapshot"; authority_sequence := Some 1; contact := None;
     drain := None; stage_losses := ∅ |}]}.
Definition sent_up : result (ActuationResult * Links * list LinkUp) :=
  send_batch_up Cluster.located Pass.capacities Pass.rates (float_of_Z 10) seven obedient Pass.comp
    {[Pass.p]} local_pass "1970-01-01T00:00:00+00:00" 0.

Lemma sent_up_ok :
  ∃ r desired' ups, sent_up = Ok (r, desired', ups) ∧ succeeded_pairs r = {[Pass.p]}.
Proof.
  assert (match sent_up with Ok (r, _, _) => bool_decide (succeeded_pairs r = {[Pass.p]})
                           | Raise _ => false end = true) as H by (vm_compute; reflexivity).
  destruct sent_up as [[[r d] ups]|]; [|discriminate H]. apply bool_decide_eq_true in H.
  exists r, d, ups. split; [reflexivity|exact H].
Qed.

Lemma link_ups_are_proven_witness :
  ∃ r desired' ups, sent_up = Ok (r, desired', ups) ∧ map lu_pair ups = [Pass.p].
Proof.
  destruct sent_up_ok as (r & d & ups & H & Hs).
  exists r, d, ups. split; [exact H|].
  destruct (link_ups_are_proven Cluster.located Pass.capacities Pass.rates (float_of_Z 10) seven
    obedient Pass.comp {[Pass.p]} local_pass "1970-01-01T00:00:00+00:00" 0 r d ups H) as [Hm _].
  rewrite Hm, Hs. reflexivity.
Defined.

(** ** The actuator implements the reconcile pass's interface *)

Definition actuator_answer (loc : PodLocationMap) (cfg : SchedulerConfig)
    (rates : gmap Iface InterfaceRates) (max_age : float) (fence : Fence)
    (transport : Tracked → Command → string → AgentRequest → AgentReply)
    (comp : string → string → float * float → result LatencyCompensation)
    (down_reasons : gmap node_pair string) (sim_time : datetime) (st : Tracked) (cmd : Command) :
    result (ActuationResult * Links) :=
  match cmd with
  | DownBatch pairs =>
      let! '(r, _) := send_batch_down loc (cfg_gs_capacities cfg) fence (transport st cmd) pairs
        (actual_links st) (isoformat sim_time) sim_time down_reasons LINK_DOWN_STAGE_CLOSE None None in
      Ok (r, ∅)
  | UpBatch pairs desired =>
      let! '(r, desired, _) := send_batch_up loc (cfg_gs_capacities cfg) rates max_age fence
        (transport st cmd) comp pairs desired (isoformat sim_time) sim_time in
      Ok (r, desired)
  end.

#[global] Instance actuator_agents (loc : PodLocationMap) (cfg : SchedulerConfig)
    (rates : gmap Iface InterfaceRates) (max_age : float) (fence : Fence)
    (transport : Tracked → Command → string → AgentRequest → AgentReply)
    (comp : string → string → float * float → result LatencyCompensation)
    (down_reasons : gmap node_pair string) (sim_time : datetime) : Agents.
Proof.
  refine {| answer :=
    actuator_answer loc cfg rates max_age fence transport comp down_reasons sim_time |}.
  intros st [pairs|pairs desired] r d p H Hp; unfold actuator_answer in H.
  - rbind H as [r' downs] Hs. injection H as -> _. unfold send_batch_down in Hs.
    rbind Hs as plan Hplan. rbind Hs as r' Hj. injection Hs as -> _. unfold judge in Hj.
    rbind Hj as results Hg. injection Hj as <-. apply succeeded_acks in Hp as [Hp _].
    rewrite elem_of_list_to_set, elem_of_sorted_set in Hp. exact Hp.
  - rbind H as [[r' d'] ups] Hs. injection H as -> _. unfold send_batch_up in Hs.
    rbind Hs as u Hu. rbind Hs as [plan d1] Hplan. rbind Hs as r1 Hr. rbind Hs as ups' Hups.
    injection Hs as -> -> ->. apply (dispatched_acks _ _ _ _ _ _ _ _ _ _ Hr) in Hp as [Hp _].
    by apply elem_of_sorted_set in Hp.
Defined.
