(* ===== verification/LongDelayStages.v ===== *)
(** * The stages of long-delay contacts

    [Dispatcher._reconcile_long_delay] and what it calls
    ([services/scheduler/dispatcher.py]): forced closes, stops, relocations, due
    closes, opens and delay changes, each sent through [DispatchActuator] and
    judged by [Actuation.handle_actuation_result].

    The Node Agents, the clocks and the substrate measurements are the
    environment, a function of what was sent before ([Env]); [site] tells apart
    two readings of a clock with nothing sent in between.  A step that raises stops
    the dispatcher, and the state it leaves is not modelled.  A record is found
    again by its key: [Current] for a pair's contact in [_actual_links], [Earlier]
    for one still draining in [_overlapping].  The desired records the pass was
    given are values here; the source shares them with [_desired_links]. *)

From S2P Require Import Prelude.
From S2P Require Import PyFloat.
From S2P Require Import PyData.
From S2P Require Import PyTime.
From S2P Require Import GroundTypes.
From S2P Require Import EventDiff.
From S2P Require Import DesiredState.
From S2P Require Import Authority.
From S2P Require Import Actuation.
From S2P Require Import DispatchPlanner.
From S2P Require Import ContactDrain.
From S2P Require Import Placement.
From S2P Require Import Substrate.
From S2P Require Import NodeAgentBatches.
From S2P Require Import DispatchActuator.
From stdpp Require Import base list strings gmap.
Local Open Scope Z_scope.

(** ** State *)

Abbreviation Overlapping := (gmap (node_pair * string) ActiveLinkInfo).

Inductive StageCommand :=
| CmdStop (pairs : gset node_pair)
| CmdProve (ends : gmap node_pair (gset string)) (links : Links)
| CmdClose (ends : gmap node_pair (gset string)) (links : Links)
| CmdPrepare (pairs : gset node_pair)
| CmdOpen (pairs : gset node_pair)
| CmdLatency (pairs : gset node_pair)
| CmdSurvey (pairs : gset node_pair)
| CmdSurveyTerminals (terminals : list Iface)
| CmdRecover (ends : gmap node_pair (gset string)) (contact_ids : gmap Iface string) (links : Links)
| CmdInventory (gs_id : string) (expected_up expected_down : Links)
| CmdBatch.

Abbreviation Trace := (list (StageCommand * ActuationResult)).

Inductive StageEvent := EvUp (e : LinkUp) | EvDown (e : LinkDown) | EvLatency (e : LatencyUpdate).

Record Stages := {
  sg_tracked : Tracked;
  sg_overlapping : Overlapping;
  sg_desired : Links;
  sg_log : Log;
  sg_trace : Trace;
  sg_events : list StageEvent;
}.

Definition with_tracked (st : Stages) (t : Tracked) : Stages :=
  {| sg_tracked := t; sg_overlapping := sg_overlapping st; sg_desired := sg_desired st;
     sg_log := sg_log st; sg_trace := sg_trace st; sg_events := sg_events st |}.
Definition with_overlapping (st : Stages) (o : Overlapping) : Stages :=
  {| sg_tracked := sg_tracked st; sg_overlapping := o; sg_desired := sg_desired st;
     sg_log := sg_log st; sg_trace := sg_trace st; sg_events := sg_events st |}.
Definition with_desired (st : Stages) (d : Links) : Stages :=
  {| sg_tracked := sg_tracked st; sg_overlapping := sg_overlapping st; sg_desired := d;
     sg_log := sg_log st; sg_trace := sg_trace st; sg_events := sg_events st |}.
Definition with_log (st : Stages) (l : Log) : Stages :=
  {| sg_tracked := sg_tracked st; sg_overlapping := sg_overlapping st; sg_desired := sg_desired st;
     sg_log := l; sg_trace := sg_trace st; sg_events := sg_events st |}.
Definition sent (st : Stages) (cmd : StageCommand) (r : ActuationResult) : Stages :=
  {| sg_tracked := sg_tracked st; sg_overlapping := sg_overlapping st; sg_desired := sg_desired st;
     sg_log := sg_log st; sg_trace := sg_trace st ++ [(cmd, r)];
     sg_events := sg_events st |}.
Definition publish (st : Stages) (events : list StageEvent) : Stages :=
  {| sg_tracked := sg_tracked st; sg_overlapping := sg_overlapping st; sg_desired := sg_desired st;
     sg_log := sg_log st; sg_trace := sg_trace st; sg_events := sg_events st ++ events |}.

Definition sg_actual (st : Stages) : Links := actual_links (sg_tracked st).
Definition with_actual (t : Tracked) (links : Links) : Tracked :=
  {| actual_links := links; last_latencies := last_latencies t; gs_active := gs_active t;
     sat_active := sat_active t |}.
Definition with_drain (info : ActiveLinkInfo) (d : option Drain) : ActiveLinkInfo :=
  {| interface_a := interface_a info; interface_b := interface_b info;
     latency_a_to_b_ms := latency_a_to_b_ms info; latency_b_to_a_ms := latency_b_to_a_ms info;
     commanded_netem_ms := commanded_netem_ms info; link_type := link_type info;
     range_km := range_km info; authority_sim_time := authority_sim_time info;
     authority_source := authority_source info; authority_sequence := authority_sequence info;
     contact := contact info; drain := d; stage_losses := stage_losses info |}.

(** ** Records *)

Inductive RecordKey := Current (p : node_pair) | Earlier (p : node_pair) (contact_id : string).
Definition key_pair (k : RecordKey) : node_pair := match k with Current p | Earlier p _ => p end.

Definition record (st : Stages) (k : RecordKey) : option ActiveLinkInfo :=
  match k with
  | Current p => sg_actual st !! p
  | Earlier p cid => sg_overlapping st !! (p, cid)
  end.
Definition put_record (st : Stages) (k : RecordKey) (info : ActiveLinkInfo) : Stages :=
  match k with
  | Current p => with_tracked st (with_actual (sg_tracked st) (<[p := info]> (sg_actual st)))
  | Earlier p cid => with_overlapping st (<[(p, cid) := info]> (sg_overlapping st))
  end.
Definition the_record (st : Stages) (k : RecordKey) : result ActiveLinkInfo :=
  or_raise (record st k) (KeyError "record").

(** A record to close: its key, its ends and why. *)
Record CloseRecord := { cr_key : RecordKey; cr_ends : gset string; cr_cause : LinkEndCloseCause }.
Definition cr_pair (c : CloseRecord) : node_pair := key_pair (cr_key c).

(** The text of a key, by which records are ordered: [str] of the tuple, of names
    without quotes or backslashes. *)
Definition quoted (s : string) : string := "'" +:+ s +:+ "'".
Definition pair_text (p : node_pair) : string := "(" +:+ quoted p.1 +:+ ", " +:+ quoted p.2 +:+ ")".
Definition key_text (k : RecordKey) : string :=
  match k with
  | Current p => pair_text p
  | Earlier p cid => "(" +:+ pair_text p +:+ ", " +:+ quoted cid +:+ ")"
  end.

(** Records of one pair go in separate commands: the first of each pair now, the
    others later. *)
Section Rounds.
Context {A : Type} (pair_of : A → node_pair).

Fixpoint split_batch (seen : gset node_pair) (l : list A) : list A * list A :=
  match l with
  | [] => ([], [])
  | c :: l =>
      let '(batch, later) := split_batch ({[pair_of c]} ∪ seen) l in
      if bool_decide (pair_of c ∈ seen) then (batch, c :: later) else (c :: batch, later)
  end.

(** [while remaining]: every round takes at least one record, so as many rounds as
    records are enough. *)
Fixpoint rounds_from (fuel : nat) (remaining : list A) : list (list A) :=
  match fuel, remaining with
  | O, _ | _, [] => []
  | S fuel, _ => let '(batch, later) := split_batch ∅ remaining in batch :: rounds_from fuel later
  end.
Definition rounds (records : list A) : list (list A) := rounds_from (length records) records.
End Rounds.

(** ** The environment *)

Record Env := {
  se_transport : Trace → string → AgentRequest → AgentReply;
  se_monotonic : Trace → nat → float;
  se_now : Trace → datetime;
  se_compensation : Trace → string → string → float * float → result LatencyCompensation;
}.

(** What the Dispatcher is set up with. *)
Record Deployment := {
  dp_locator : PodLocationMap;
  dp_config : SchedulerConfig;
  dp_rates : gmap Iface InterfaceRates;
  dp_max_latency_age_s : float;
  dp_fence : Fence;
}.

Section Stages.
Context (dp : Deployment) (env : Env) (sim_time : datetime) (down_reasons : gmap node_pair string)
        (last_snapshot_epoch_id : Z).
Abbreviation loc := (dp_locator dp).
Abbreviation cfg := (dp_config dp).
Abbreviation gs_capacities := (cfg_gs_capacities (dp_config dp)).
Abbreviation sim_iso := (isoformat sim_time).
Abbreviation transport := (λ st, se_transport env (sg_trace st)).

(** [_handle_actuation_result]. *)
Definition handle (st : Stages) (r : ActuationResult) : result Stages :=
  match handle_actuation_result r with
  | VerdictStop _ => Raise (RuntimeError "Fatal actuation failure")
  | VerdictContinue _ =>
      Ok (with_log st (sg_log st ++ [{| hd_tracked := sg_tracked st; hd_result := r |}]))
  end.

(** [_send_long_delay_stage]. *)
Definition send_stop (st : Stages) (pairs : gset node_pair) : result (Stages * ActuationResult) :=
  let! '(r, downs) := send_batch_down loc gs_capacities (dp_fence dp) (transport st) pairs
    (sg_actual st) sim_iso sim_time ∅ LINK_DOWN_STAGE_STOP_ADMISSION None None in
  Ok (publish (sent st (CmdStop pairs) r) (map EvDown downs), r).
Definition send_close (st : Stages) (ends : gmap node_pair (gset string)) (links : Links) :
    result (Stages * ActuationResult) :=
  let! '(r, downs) := send_batch_down loc gs_capacities (dp_fence dp) (transport st) (dom ends)
    links sim_iso sim_time ∅ LINK_DOWN_STAGE_CLOSE (Some ends) None in
  Ok (publish (sent st (CmdClose ends links) r) (map EvDown downs), r).
Definition send_proof (st : Stages) (ends : gmap node_pair (gset string)) (links : Links) :
    result (Stages * ActuationResult) :=
  let! r := verify_long_delay_ends loc gs_capacities (dp_rates dp) (dp_fence dp) (transport st) ends
    links sim_iso in
  Ok (sent st (CmdProve ends links) r, r).

(** [_prepare_long_delay], [_open_prepared] and
    [_send_authoritative_latency_updates]. *)
Definition send_prepare (st : Stages) (pairs : gset node_pair) :
    result (Stages * LinkUpBatchPlan * ActuationResult) :=
  let! '(plan, desired, r) := prepare_long_delay_contacts loc gs_capacities (dp_rates dp)
    (dp_max_latency_age_s dp) (dp_fence dp) (transport st) (se_compensation env (sg_trace st)) pairs
    (sg_desired st) sim_iso sim_time in
  Ok (with_desired (sent st (CmdPrepare pairs) r) desired, plan, r).
Definition send_open (st : Stages) (plan : LinkUpBatchPlan) (pairs : gset node_pair) :
    result (Stages * ActuationResult) :=
  let! '(r, ups) := open_prepared_contacts gs_capacities (dp_max_latency_age_s dp) (dp_fence dp)
    (transport st) plan pairs (sg_desired st) sim_iso sim_time in
  Ok (publish (sent st (CmdOpen pairs) r) (map EvUp ups), r).
Definition latencies_ms (info : ActiveLinkInfo) : float * float :=
  (latency_a_to_b_ms info, latency_b_to_a_ms info).
Definition send_latency (st : Stages) (pairs : gset node_pair) : result (Stages * ActuationResult) :=
  let! '(r, desired, events) := send_authoritative_latency_updates loc gs_capacities (dp_rates dp)
    (dp_max_latency_age_s dp) (dp_fence dp) (transport st) (se_compensation env (sg_trace st)) pairs
    (sg_desired st) sim_time in
  let st := publish (with_desired (sent st (CmdLatency pairs) r) desired) (map EvLatency events) in
  let! st := foldM (λ st p,
      let! info := or_raise (sg_desired st !! p) (KeyError "desired") in
      let t := sg_tracked st in
      Ok (with_tracked st
            {| actual_links := <[p := info]> (actual_links t);
               last_latencies := <[p := latencies_ms info]> (last_latencies t);
               gs_active := gs_active t; sat_active := sat_active t |}))
    st (elements (succeeded_pairs r)) in
  Ok (st, r).

(** ** Teardown *)

Definition discount (t : Tracked) (p : node_pair) (info : ActiveLinkInfo) : Tracked :=
  let '(g, s) := count_link gs_capacities (cfg_sat_capacities cfg) decrement
    (gs_active t, sat_active t) p info in
  {| actual_links := actual_links t; last_latencies := last_latencies t; gs_active := g;
     sat_active := s |}.

(** [self._actual_links.pop(pair, None)] and [self._last_latencies.pop(pair, None)]. *)
Definition forget (t : Tracked) (p : node_pair) : Tracked :=
  {| actual_links := delete p (actual_links t); last_latencies := delete p (last_latencies t);
     gs_active := gs_active t; sat_active := sat_active t |}.

Definition drop_record (st : Stages) (k : RecordKey) : Stages :=
  match k with
  | Current p => with_tracked st (forget (sg_tracked st) p)
  | Earlier p cid => with_overlapping st (delete (p, cid) (sg_overlapping st))
  end.

(** [_tear_down_long_delay_record]. *)
Definition tear_down (st : Stages) (k : RecordKey) (info : ActiveLinkInfo) (reason : string)
    (losses : list LinkEndLoss) : Stages :=
  let st := drop_record st k in
  let st := with_tracked st (discount (sg_tracked st) (key_pair k) info) in
  publish st [EvDown (link_down_event (key_pair k) info sim_time reason losses)].

(** ** Closing *)

(** The ends of a drain other than [closed]. *)
Definition keep_ends (closed : gset string) (ends : list DrainingEnd) : list DrainingEnd :=
  List.filter (λ e, negb (bool_decide (de_node_id e ∈ closed))) ends.
Definition less_ends (d : Drain) (closed : gset string) (losses : list LinkEndLoss) : Drain :=
  {| dr_stopped_at := dr_stopped_at d; dr_reason := dr_reason d;
     dr_ends := keep_ends closed (dr_ends d); dr_closed := dr_closed d ++ losses |}.

Definition teardown_reason (cause : LinkEndCloseCause) (p : node_pair) (reason : string) :
    result string :=
  match cause with
  | seek => Ok "seek"
  | scenario => or_raise (down_reasons !! p) (KeyError "down_reasons")
  | _ => Ok reason
  end.

(** One record of a batch the agents closed. *)
Definition close_record (closed : ActuationResult) (st : Stages) (c : CloseRecord) : result Stages :=
  if negb (bool_decide (cr_pair c ∈ succeeded_pairs closed)) then Ok st else
  let! info := the_record st (cr_key c) in
  let records_now := end_loss_records closed (cr_pair c) info (cr_cause c) in
  match drain info with
  | Some d =>
      let d := less_ends d (cr_ends c) records_now in
      let info := with_drain info (Some d) in
      let st := put_record st (cr_key c) info in
      match dr_ends d with
      | _ :: _ => Ok st
      | [] =>
          let! reason := teardown_reason (cr_cause c) (cr_pair c) (dr_reason d) in
          Ok (tear_down st (cr_key c) info reason (dr_closed d))
      end
  | None =>
      let! reason := teardown_reason (cr_cause c) (cr_pair c) "vis_lost" in
      Ok (tear_down st (cr_key c) info reason records_now)
  end.

Definition batch_ends (batch : list CloseRecord) : gmap node_pair (gset string) :=
  fold_left (λ m c, <[cr_pair c := cr_ends c]> m) batch ∅.
Definition batch_links (st : Stages) (batch : list CloseRecord) : result Links :=
  foldM (λ (m : Links) c,
      let! info := the_record st (cr_key c) in Ok (<[cr_pair c := info]> m)) ∅ batch.

Definition close_batch (prove : bool) (st : Stages) (batch : list CloseRecord) : result Stages :=
  let! links := batch_links st batch in
  let ends := batch_ends batch in
  let! st := if prove then
      let! '(st, proven) := send_proof st ends links in handle st proven
    else Ok st in
  let! '(st, closed) := send_close st ends links in
  let! st := handle st closed in
  foldM (close_record closed) st batch.

(** [_close_long_delay_ends]. *)
Definition close_long_delay_ends (prove : bool) (st : Stages) (records : list CloseRecord) :
    result Stages :=
  foldM (close_batch prove) st (rounds cr_pair records).

(** ** Terminals *)

(** [wanted]: the pair that wants each terminal. *)
Definition wanted_terminals (opening : gset node_pair) (desired : Links) :
    result (gmap Iface node_pair) :=
  foldM (λ (m : gmap Iface node_pair) p,
      let! info := or_raise (desired !! p) (KeyError "desired") in
      Ok (fold_left (λ m i, <[i := p]> m) (sorted_items str_lt (end_terminals p info)) m))
    ∅ (sorted_set npair_lt opening).

Definition all_records (st : Stages) : list (RecordKey * ActiveLinkInfo) :=
  map (λ x, (Current x.1, x.2)) (map_to_list (sg_actual st)) ++
  map (λ x, (Earlier x.1.1 x.1.2, x.2)) (map_to_list (sg_overlapping st)).

(** Whether a terminal is wanted by another pair. *)
Definition taken_from (wanted : gmap Iface node_pair) (p : node_pair) (i : Iface) : bool :=
  match wanted !! i with Some q => negb (bool_decide (q = p)) | None => false end.

(** What one record has to give up. *)
Definition retarget (wanted : gmap Iface node_pair) (x : RecordKey * ActiveLinkInfo) :
    result (option CloseRecord) :=
  let p := key_pair x.1 in
  match drain x.2 with
  | None =>
      raise_if existsb (taken_from wanted p) (map_to_list (end_terminals p x.2))
        with RuntimeError "terminals of open contact are wanted by another pair" ;;
      Ok None
  | Some d =>
      let ends : gset string := list_to_set (map de_node_id
        (List.filter (λ e, taken_from wanted p (de_node_id e, de_interface e)) (dr_ends d))) in
      Ok (if bool_decide (ends = ∅) then None
          else Some {| cr_key := x.1; cr_ends := ends; cr_cause := retargeted_end |})
  end.

(** [_retarget_terminals]. *)
Definition retarget_terminals (st : Stages) (opening : gset node_pair) : result Stages :=
  let! wanted := wanted_terminals opening (sg_desired st) in
  let! retargets := mapM_r (retarget wanted)
    (sorted (λ x y, str_lt (key_text x.1) (key_text y.1)) (all_records st)) in
  match omap id retargets with
  | [] => Ok st
  | records => close_long_delay_ends false st records
  end.

(** One earlier contact of [_reopen_overlapping_ends]. *)
Definition reopen_earlier (p : node_pair) (new : ActiveLinkInfo) (prepared : ActuationResult)
    (st : Stages) (key : node_pair * string) : result Stages :=
  match sg_overlapping st !! key with
  | Some info =>
      match drain info with
      | Some d =>
          let ends := ends_on info (list_to_set (map_to_list (end_terminals p new))) in
          if bool_decide (key.1 = p) && negb (bool_decide (ends = ∅)) then
            let reopened := List.filter (λ l, bool_decide (el_node_id l ∈ ends))
              (end_loss_records prepared p info reopened) in
            let d := less_ends d ends reopened in
            let info := with_drain info (Some d) in
            let k := Earlier key.1 key.2 in
            let st := put_record st k info in
            Ok (match dr_ends d with
                | [] => tear_down st k info (dr_reason d) (dr_closed d)
                | _ => st
                end)
          else Ok st
      | None => Ok st
      end
  | None => Ok st
  end.
Definition reopen_overlapping_ends (st : Stages) (p : node_pair) (new : ActiveLinkInfo)
    (prepared : ActuationResult) : result Stages :=
  foldM (reopen_earlier p new prepared) st
    (sorted (λ x y, str_lt (key_text (Earlier x.1 x.2)) (key_text (Earlier y.1 y.2)))
       (elements (dom (sg_overlapping st)))).

(** ** The steps of one pass *)

Section Pass.
Context (plan : LongDelayPlan) (due : gmap node_pair (gset string)).

Definition close_cause (c : ForcedCause) : LinkEndCloseCause :=
  match c with forced_seek => seek | forced_scenario => scenario end.

(** [forced_overlap]: why an earlier contact must end now. *)
Definition forced_earlier (x : (node_pair * string) * ActiveLinkInfo) : option LinkEndCloseCause :=
  c ← contact x.2;
  if ct_epoch_id c <? last_snapshot_epoch_id then Some seek
  else if negb (is_none (down_reasons !! x.1.1)) then Some scenario
  else None.

Definition key2_lt : node_pair * string → node_pair * string → bool := pair_lt npair_lt str_lt.

Definition forced_records (st : Stages) : result (list CloseRecord) :=
  let! current := mapM_r (λ '(p, cause),
      let! info := the_record st (Current p) in
      Ok {| cr_key := Current p; cr_ends := remaining_ends p info; cr_cause := close_cause cause |})
    (sorted_items npair_lt (lp_forced plan)) in
  Ok (current ++ omap (λ x, cause ← forced_earlier x;
        Some {| cr_key := Earlier x.1.1 x.1.2; cr_ends := remaining_ends x.1.1 x.2;
                cr_cause := cause |})
      (sorted_items key2_lt (sg_overlapping st))).

(** Keeps what each stopped pair's ends reported. *)
Definition keep_stop_losses (stopped : ActuationResult) (st : Stages) (p : node_pair) : result Stages :=
  let! info := the_record st (Current p) in
  let! info := record_stage_losses stopped p info LINK_DOWN_STAGE_STOP_ADMISSION in
  Ok (put_record st (Current p) info).

Definition still_open (st : Stages) (p : node_pair) : result bool :=
  let! info := the_record st (Current p) in Ok (is_none (drain info)).

Definition forced_step (st : Stages) : result Stages :=
  if bool_decide (lp_forced plan = ∅) &&
     bool_decide (length (omap forced_earlier (map_to_list (sg_overlapping st))) = 0%nat)
  then Ok st else
  let! opened := foldM (λ (acc : gset node_pair) p,
      let! o := still_open st p in Ok (if (o : bool) then {[p]} ∪ acc else acc))
    ∅ (elements (dom (lp_forced plan))) in
  let! st := if bool_decide (opened = ∅) then Ok st else
      let! '(st, stopped) := send_stop st opened in
      let! st := handle st stopped in
      foldM (keep_stop_losses stopped) st (sorted_set npair_lt (succeeded_pairs stopped)) in
  let! records := forced_records st in
  close_long_delay_ends false st records.

(** A contact whose stop was proven drains from that moment. *)
Definition start_pair_drain (stopped : ActuationResult) (mono : float) (wall : datetime)
    (st : Stages) (p : node_pair) : result Stages :=
  let! info := the_record st (Current p) in
  raise_if is_none (contact info) with RuntimeError "stopped long-delay link has no contact" ;;
  let! info := record_stage_losses stopped p info LINK_DOWN_STAGE_STOP_ADMISSION in
  let! d := start_drain p info mono wall "vis_lost" in
  Ok (put_record st (Current p) (with_drain info (Some d))).

Definition stop_step (st : Stages) : result Stages :=
  if bool_decide (lp_stop plan = ∅) then Ok st else
  let! '(st, stopped) := send_stop st (lp_stop plan) in
  let! st := handle st stopped in
  let mono := se_monotonic env (sg_trace st) 0 in
  let wall := se_now env (sg_trace st) in
  foldM (start_pair_drain stopped mono wall) st (sorted_set npair_lt (succeeded_pairs stopped)).

(** A draining contact whose pair opens elsewhere keeps its own terminals. *)
Definition relocate_pair (st : Stages) (p : node_pair) : Stages :=
  match sg_actual st !! p with
  | Some held =>
      match drain held, contact held with
      | Some _, Some c =>
          with_tracked (with_overlapping st
            (<[(p, Contact_contact_id c) := held]> (sg_overlapping st)))
            (forget (sg_tracked st) p)
      | _, _ => st
      end
  | None => st
  end.
Definition relocate_step (st : Stages) : Stages :=
  fold_left relocate_pair (sorted_set npair_lt (lp_relocate plan)) st.

(** The ends due now, of the pairs' contacts and of the earlier ones. *)
Definition overlap_due (st : Stages) (now : float) : gmap (node_pair * string) (gset string) :=
  omap (λ info, d ← drain info;
    let ready := ready_ends now d in if bool_decide (ready = ∅) then None else Some ready)
    (sg_overlapping st).
Definition due_records (st : Stages) (now : float) : list CloseRecord :=
  omap (λ x, if negb (is_none (sg_actual st !! x.1)) && negb (bool_decide (x.1 ∈ lp_relocate plan))
             then Some {| cr_key := Current x.1; cr_ends := x.2; cr_cause := drain_deadline |}
             else None)
    (sorted_items npair_lt due) ++
  map (λ x, {| cr_key := Earlier x.1.1 x.1.2; cr_ends := x.2; cr_cause := drain_deadline |})
    (sorted_items key2_lt (overlap_due st now)).
Definition due_step (st : Stages) : result Stages :=
  match due_records st (se_monotonic env (sg_trace st) 1) with
  | [] => Ok st
  | records => close_long_delay_ends true st records
  end.

(** A prepared pair: what its terminals still held of earlier contacts is
    recorded, and the contact it replaces goes. *)
Definition end_replaced (ended : Links) (prepared : ActuationResult) (st : Stages) (p : node_pair) :
    result Stages :=
  let! new := or_raise (sg_desired st !! p) (KeyError "desired") in
  let! st := reopen_overlapping_ends st p new prepared in
  match ended !! p with
  | None => Ok st
  | Some old =>
      let reopened_now := end_loss_records prepared p old reopened in
      let closed_before := match drain old with Some d => dr_closed d | None => [] end in
      let! staged := stage_only_records p old
        (list_to_set (map el_node_id (closed_before ++ reopened_now))) reopened in
      let st := with_tracked st (discount (forget (sg_tracked st) p) p old) in
      let reason := match drain old with Some d => dr_reason d | None => "vis_lost" end in
      Ok (publish st [EvDown (link_down_event p old sim_time reason
                                (closed_before ++ reopened_now ++ staged))])
  end.

(** An opened pair's contact becomes its record. *)
Definition adopt_opened (opened : ActuationResult) (st : Stages) (p : node_pair) : result Stages :=
  let! info := or_raise (sg_desired st !! p) (KeyError "desired") in
  let! info := record_stage_losses opened p info LINK_UP_STAGE_OPEN in
  let! t := acquire gs_capacities (cfg_sat_capacities cfg) {[p := info]} (sg_tracked st) p in
  Ok (with_tracked (with_desired st (<[p := info]> (sg_desired st))) t).

Definition open_step (st : Stages) : result Stages :=
  if bool_decide (lp_open plan = ∅) then Ok st else
  let! st := retarget_terminals st (lp_open plan) in
  let ended := filter (λ x, x.1 ∈ lp_open plan) (sg_actual st) in
  let! '(st, up_plan, prepared) := send_prepare st (lp_open plan) in
  let! st := handle st prepared in
  let! st := foldM (end_replaced ended prepared) st (sorted_set npair_lt (succeeded_pairs prepared)) in
  if bool_decide (succeeded_pairs prepared = ∅) then Ok st else
  let! '(st, opened) := send_open st up_plan (succeeded_pairs prepared) in
  let! st := handle st opened in
  foldM (adopt_opened opened) st (sorted_set npair_lt (succeeded_pairs opened)).

Definition latency_step (st : Stages) : result Stages :=
  if bool_decide (lp_latency plan = ∅) then Ok st else
  let! '(st, changed) := send_latency st (lp_latency plan) in
  handle st changed.

(** [_reconcile_long_delay]. *)
Definition reconcile_long_delay (st : Stages) : result Stages :=
  let! st := forced_step st in
  let! st := stop_step st in
  let st := relocate_step st in
  let! st := due_step st in
  let! st := open_step st in
  latency_step st.
End Pass.
End Stages.
