(* ===== verification/LongDelayTheorems.v ===== *)
(** * What the long-delay stages guarantee

    Properties of [LongDelayStages.reconcile_long_delay] over every behaviour of
    the Node Agents and the clocks: the order of the stages, the records it keeps,
    the rounds of its closes, and two ways a contact's account goes wrong. *)

From S2P Require Import Prelude.
From S2P Require Import PyFloat.
From S2P Require Import PyData.
From S2P Require Import PyTime.
From S2P Require Import GroundTypes.
From S2P Require Import EventDiff.
From S2P Require Import DesiredState.
From S2P Require Import Authority.
From S2P Require Import Actuation.
From S2P Require Import DispatchPlanner.
From S2P Require Import ContactDrain.
From S2P Require Import Placement.
From S2P Require Import Substrate.
From S2P Require Import NodeAgentBatches.
From S2P Require Import BatchTheorems.
From S2P Require Import DispatchActuator.
From S2P Require Import ActuatorTheorems.
From S2P Require Import LongDelayStages.
From stdpp Require Import base list strings gmap.
From Stdlib Require Import RelationClasses.
Local Open Scope Z_scope.

(** ** Rounds *)

Section Rounds.
Context {A : Type} (pair_of : A → node_pair).
Implicit Types (l batch later : list A).

Lemma split_batch_perm seen l batch later :
  split_batch pair_of seen l = (batch, later) → batch ++ later ≡ₚ l.
Proof.
  revert seen batch later. induction l as [|c l IH]; intros seen batch later H; simpl in H.
  { by injection H as <- <-. }
  destruct (split_batch pair_of ({[pair_of c]} ∪ seen) l) as [b lt] eqn:E. specialize (IH _ _ _ E).
  case_bool_decide; injection H as <- <-.
  - by rewrite <- Permutation_middle, IH.
  - simpl. by rewrite IH.
Qed.

Lemma split_batch_nodup seen l batch later :
  split_batch pair_of seen l = (batch, later) →
  NoDup (map pair_of batch) ∧ ∀ c, c ∈ batch → pair_of c ∉ seen.
Proof.
  revert seen batch later. induction l as [|c l IH]; intros seen batch later H; simpl in H.
  { injection H as <- <-. split; [constructor|by intros ? ?%elem_of_nil]. }
  destruct (split_batch pair_of ({[pair_of c]} ∪ seen) l) as [b lt] eqn:E.
  destruct (IH _ _ _ E) as [Hnd Hs]. case_bool_decide as Hc; injection H as <- <-.
  - split; [done|]. intros c' Hc'. specialize (Hs c' Hc'). set_solver.
  - split.
    + simpl. apply NoDup_cons. split; [|done]. intros (c' & Hp & Hc')%list_elem_of_fmap.
      apply (Hs c' Hc'). set_solver.
    + intros c' [->|Hc']%elem_of_cons; [done|]. specialize (Hs c' Hc'). set_solver.
Qed.

Lemma rounds_from_all fuel l : (length l ≤ fuel)%nat → concat (rounds_from pair_of fuel l) ≡ₚ l.
Proof.
  revert l. induction fuel as [|fuel IH]; intros l Hf; [by destruct l; simpl in *; [|lia]|].
  destruct l as [|c l]; [done|]. cbn [rounds_from].
  destruct (split_batch pair_of ∅ (c :: l)) as [batch later] eqn:E.
  pose proof (split_batch_perm _ _ _ _ E) as Hp. cbn [concat]. rewrite IH; [done|].
  cbn [split_batch] in E. destruct (split_batch _ _ l) as [b lt] eqn:E'.
  rewrite bool_decide_eq_false_2 in E by set_solver. injection E as <- <-.
  apply Permutation_length in Hp. rewrite length_app in Hp. simpl in *. lia.
Qed.

Lemma rounds_from_nodup fuel l batch : batch ∈ rounds_from pair_of fuel l → NoDup (map pair_of batch).
Proof.
  revert l. induction fuel as [|fuel IH]; intros l; [by intros ?%elem_of_nil|].
  destruct l as [|c l]; [by intros ?%elem_of_nil|]. cbn [rounds_from].
  destruct (split_batch pair_of ∅ (c :: l)) as [b later] eqn:E.
  intros [->|H]%elem_of_cons; [|by eapply IH]. by destruct (split_batch_nodup _ _ _ _ E).
Qed.

Lemma rounds_elem l batch c : batch ∈ rounds pair_of l → c ∈ batch → c ∈ l.
Proof.
  intros Hb Hc. rewrite <- (rounds_from_all (length l) l) by done.
  apply list_elem_of_In, in_concat. exists batch. by rewrite <- !list_elem_of_In.
Qed.
End Rounds.

(** the close loop ends, reaches every record once, and never names two
    contacts of one pair in one command: its rounds are together a permutation of
    the records it was given, and the records of a round are of different pairs. *)
Theorem close_rounds_complete (records : list CloseRecord) :
  concat (rounds cr_pair records) ≡ₚ records ∧
  ∀ batch, batch ∈ rounds cr_pair records → NoDup (map cr_pair batch).
Proof. split; [by apply rounds_from_all|intros batch; apply rounds_from_nodup]. Qed.

(** ** The order of the stages *)

Definition is_open (x : StageCommand * ActuationResult) : bool :=
  match x.1 with CmdOpen _ => true | _ => false end.

(** Nothing was opened between two states. *)
Definition quiet (st st' : Stages) : Prop :=
  ∃ t, sg_trace st' = sg_trace st ++ t ∧ Forall (λ x, is_open x = false) t.

#[global] Instance quiet_preorder : PreOrder quiet.
Proof.
  split.
  - intros st. exists []. by rewrite app_nil_r.
  - intros s1 s2 s3 (t1 & H1 & F1) (t2 & H2 & F2). exists (t1 ++ t2).
    rewrite H2, H1, <- app_assoc. split; [done|]. by apply Forall_app.
Qed.

Lemma foldM_preorder {A S} (R : S → S → Prop) `{!PreOrder R} (f : S → A → result S) l :
  (∀ s x s', f s x = Ok s' → R s s') → ∀ s s', foldM f s l = Ok s' → R s s'.
Proof.
  intros Hf. induction l as [|x l IH]; intros s s' H; simpl in H; [by injection H as <-|].
  rbind H as s1 H1. etrans; [by eapply Hf|by apply IH].
Qed.

Lemma quiet_same st st' : sg_trace st' = sg_trace st → quiet st st'.
Proof. intros H. exists []. by rewrite H, app_nil_r. Qed.

Lemma quiet_sent st st' cmd r :
  sg_trace st' = sg_trace st ++ [(cmd, r)] → is_open (cmd, r) = false → quiet st st'.
Proof. intros H Ho. exists [(cmd, r)]. by split; [|constructor]. Qed.

Section Quiet.
Context (dp : Deployment) (env : Env) (sim_time : datetime) (down_reasons : gmap node_pair string)
        (epoch_id : Z) (plan : LongDelayPlan) (due : gmap node_pair (gset string)).

Lemma handle_quiet st r st' : handle st r = Ok st' → quiet st st'.
Proof. unfold handle. destruct (handle_actuation_result r); [done|]. intros [= <-]. by apply quiet_same. Qed.

Lemma send_stop_quiet st pairs st' r :
  send_stop dp env sim_time st pairs = Ok (st', r) → quiet st st'.
Proof.
  unfold send_stop. intros H. rbind H as [r' downs] Hr. injection H as <- <-.
  by eapply quiet_sent.
Qed.
Lemma send_close_quiet st ends links st' r :
  send_close dp env sim_time st ends links = Ok (st', r) → quiet st st'.
Proof.
  unfold send_close. intros H. rbind H as [r' downs] Hr. injection H as <- <-.
  by eapply quiet_sent.
Qed.
Lemma send_proof_quiet st ends links st' r :
  send_proof dp env sim_time st ends links = Ok (st', r) → quiet st st'.
Proof. unfold send_proof. intros H. rbind H as r' Hr. injection H as <- <-. by eapply quiet_sent. Qed.
Lemma send_prepare_quiet st pairs st' up_plan r :
  send_prepare dp env sim_time st pairs = Ok (st', up_plan, r) → quiet st st'.
Proof.
  unfold send_prepare. intros H. rbind H as [[pl d] r'] Hr. injection H as <- <- <-.
  by eapply quiet_sent.
Qed.
Lemma send_latency_quiet st pairs st' r :
  send_latency dp env sim_time st pairs = Ok (st', r) → quiet st st'.
Proof.
  unfold send_latency. intros H. rbind H as [[r' d] events] Hr. rbind H as st1 H1.
  injection H as <- <-. etrans; [|eapply (foldM_preorder quiet); [|exact H1]].
  - by eapply quiet_sent.
  - intros s p s' Hs. rbind Hs as info Hi. injection Hs as <-. by apply quiet_same.
Qed.

Lemma put_record_trace st k info : sg_trace (put_record st k info) = sg_trace st.
Proof. by destruct k. Qed.
Lemma tear_down_trace st k info reason losses :
  sg_trace (tear_down dp sim_time st k info reason losses) = sg_trace st.
Proof. by destruct k. Qed.

Lemma close_record_quiet closed st c st' :
  close_record dp sim_time down_reasons closed st c = Ok st' → quiet st st'.
Proof.
  unfold close_record. destruct (negb _); [by intros [= <-]|]. intros H. rbind H as info Hi.
  apply quiet_same. destruct (drain info) as [d|].
  - destruct (dr_ends _); [rbind H as reason Hr|]; injection H as <-;
      by rewrite ?tear_down_trace, ?put_record_trace.
  - rbind H as reason Hr. injection H as <-. by rewrite tear_down_trace.
Qed.

Lemma close_ends_quiet prove st records st' :
  close_long_delay_ends dp env sim_time down_reasons prove st records = Ok st' → quiet st st'.
Proof.
  unfold close_long_delay_ends. apply (foldM_preorder quiet). clear. intros st batch st' H.
  unfold close_batch in H. rbind H as links Hl. rbind H as st1 H1.
  assert (quiet st st1) as ->.
  { destruct prove; [|by injection H1 as <-]. rbind H1 as [st0 r] H0.
    etrans; [by eapply send_proof_quiet|by eapply handle_quiet]. }
  rbind H as [st2 r] H2. rbind H as st3 H3. etrans; [by eapply send_close_quiet|].
  etrans; [by eapply handle_quiet|]. eapply (foldM_preorder quiet); [|exact H].
  intros s x s'. apply close_record_quiet.
Qed.

Lemma forced_quiet st st' :
  forced_step dp env sim_time down_reasons epoch_id plan st = Ok st' → quiet st st'.
Proof.
  unfold forced_step. destruct (_ && _); [by intros [= <-]|]. intros H. rbind H as opened Ho.
  rbind H as st1 H1. rbind H as records Hr. etrans; [|by eapply close_ends_quiet].
  case_bool_decide; [by injection H1 as <-|]. rbind H1 as [st2 stopped] H2. rbind H1 as st3 H3.
  etrans; [by eapply send_stop_quiet|]. etrans; [by eapply handle_quiet|].
  eapply (foldM_preorder quiet); [|exact H1]. intros s p s' Hs. unfold keep_stop_losses in Hs.
  rbind Hs as info Hi. rbind Hs as info' Hi'. injection Hs as <-. by apply quiet_same.
Qed.

Lemma stop_quiet st st' : stop_step dp env sim_time plan st = Ok st' → quiet st st'.
Proof.
  unfold stop_step. case_bool_decide as He; [by intros [= <-]|]. intros H. rbind H as [st1 stopped] H1.
  rbind H as st2 H2. etrans; [by eapply send_stop_quiet|]. etrans; [by eapply handle_quiet|].
  eapply (foldM_preorder quiet); [|exact H]. intros s p s' Hs. unfold start_pair_drain in Hs.
  rbind Hs as info Hi. rguard Hs as Hc. rbind Hs as info' Hi'. rbind Hs as d Hd. injection Hs as <-.
  by apply quiet_same.
Qed.

Lemma relocate_trace st : sg_trace (relocate_step plan st) = sg_trace st.
Proof.
  unfold relocate_step. revert st. induction (sorted_set npair_lt (lp_relocate plan)) as [|p l IH];
    intros st; [done|]. simpl. rewrite IH. unfold relocate_pair. by repeat case_match.
Qed.

Lemma due_quiet st st' : due_step dp env sim_time down_reasons plan due st = Ok st' → quiet st st'.
Proof.
  unfold due_step. case_match; [by intros [= <-]|]. apply close_ends_quiet.
Qed.

Lemma retarget_quiet st opening st' :
  retarget_terminals dp env sim_time down_reasons st opening = Ok st' → quiet st st'.
Proof.
  unfold retarget_terminals. intros H. rbind H as wanted Hw. rbind H as rs Hr.
  destruct (omap id rs); [by injection H as <-|]. by eapply close_ends_quiet.
Qed.

Lemma reopen_quiet st p new prepared st' :
  reopen_overlapping_ends dp sim_time st p new prepared = Ok st' → quiet st st'.
Proof.
  unfold reopen_overlapping_ends. apply (foldM_preorder quiet). clear. intros st key st' H.
  unfold reopen_earlier in H. apply quiet_same.
  destruct (sg_overlapping st !! key) as [info|]; [|by injection H as <-].
  destruct (drain info) as [d|]; [|by injection H as <-].
  destruct (_ && _); injection H as <-; [|done]. by case_match.
Qed.

Lemma end_replaced_quiet ended prepared st p st' :
  end_replaced dp sim_time ended prepared st p = Ok st' → quiet st st'.
Proof.
  unfold end_replaced. intros H. rbind H as new Hn. rbind H as st1 H1.
  etrans; [by eapply reopen_quiet|]. destruct (ended !! p); [|by injection H as <-].
  rbind H as staged Hs. injection H as <-. by apply quiet_same.
Qed.

Lemma adopt_opened_quiet opened st p st' : adopt_opened dp opened st p = Ok st' → quiet st st'.
Proof.
  unfold adopt_opened. intros H. rbind H as info Hi. rbind H as info' Hi'. rbind H as t Ht.
  injection H as <-. by apply quiet_same.
Qed.
End Quiet.

(** Every open follows a prepare that proved both ends of what it opens. *)
Definition opens_prepared (t : Trace) : Prop :=
  ∀ i pairs r, t !! i = Some (CmdOpen pairs, r) →
    ∃ j pairs' r', (j < i)%nat ∧ t !! j = Some (CmdPrepare pairs', r') ∧ pairs ⊆ succeeded_pairs r'.

Lemma opens_prepared_quiet st st' :
  quiet st st' → opens_prepared (sg_trace st) → opens_prepared (sg_trace st').
Proof.
  intros (t & -> & Hq) H i pairs r Hi.
  assert ((i < length (sg_trace st))%nat) as Hlt.
  { destruct (decide (i < length (sg_trace st))%nat) as [|Hge]; [done|].
    rewrite lookup_app_r in Hi by lia. apply list_elem_of_lookup_2 in Hi.
    rewrite Forall_forall in Hq. by specialize (Hq _ Hi). }
  rewrite lookup_app_l in Hi by done. destruct (H i pairs r Hi) as (j & p' & r' & Hj & Hl & Hs).
  exists j, p', r'. split; [done|]. split; [|done]. rewrite lookup_app_l by lia. done.
Qed.

Lemma opens_prepared_snoc t pairs r pairs' r' :
  opens_prepared t → (CmdPrepare pairs', r') ∈ t → pairs ⊆ succeeded_pairs r' →
  opens_prepared (t ++ [(CmdOpen pairs, r)]).
Proof.
  intros H [j Hj]%list_elem_of_lookup Hs i ps rs Hi.
  destruct (decide (i < length t)%nat) as [Hlt|Hge].
  - rewrite lookup_app_l in Hi by done. destruct (H i ps rs Hi) as (k & p2 & r2 & Hk & Hl & Hs2).
    exists k, p2, r2. split; [done|]. split; [|done]. by rewrite lookup_app_l by lia.
  - rewrite lookup_app_r in Hi by lia. apply list_lookup_singleton_Some in Hi as [Hz [= <- <-]].
    exists j, pairs', r'. apply lookup_lt_Some in Hj as Hlt. split; [lia|]. split; [|done].
    by rewrite lookup_app_l.
Qed.

(** a long-delay contact is opened only after both its ends were prepared.
    Whatever the agents answer, in the sequence of commands a pass sends, every
    OPEN names only pairs that an earlier PREPARE of the pass proved. *)
Theorem opens_follow_prepare dp env sim_time down_reasons epoch_id plan due st st' :
  opens_prepared (sg_trace st) →
  reconcile_long_delay dp env sim_time down_reasons epoch_id plan due st = Ok st' →
  opens_prepared (sg_trace st').
Proof.
  intros H0 H. unfold reconcile_long_delay in H. rbind H as st1 H1. rbind H as st2 H2.
  rbind H as st3 H3. rbind H as st4 H4.
  assert (opens_prepared (sg_trace st3)) as Hst3.
  { eapply opens_prepared_quiet; [|exact H0]. etrans; [by eapply forced_quiet|].
    etrans; [by eapply stop_quiet|]. etrans; [eapply quiet_same, relocate_trace|by eapply due_quiet]. }
  eapply opens_prepared_quiet.
  { unfold latency_step in H. case_bool_decide as He; [injection H as <-; reflexivity|].
    rbind H as [st5 r5] H5. etrans; [by eapply send_latency_quiet|by eapply handle_quiet]. }
  clear H st'. unfold open_step in H4. case_bool_decide as He; [by injection H4 as <-|].
  rbind H4 as st5 H5. rbind H4 as [[st6 up_plan] prepared] H6. rbind H4 as st7 H7. rbind H4 as st8 H8.
  assert (opens_prepared (sg_trace st5)) as Hst5 by (eapply opens_prepared_quiet; [by eapply retarget_quiet|done]).
  assert (quiet st6 st8) as Hq68.
  { etrans; [by eapply handle_quiet|]. eapply (foldM_preorder quiet); [|exact H8].
    intros s p s'. apply end_replaced_quiet. }
  assert (opens_prepared (sg_trace st8)) as Hst8.
  { eapply opens_prepared_quiet; [|exact Hst5]. etrans; [by eapply send_prepare_quiet|done]. }
  case_bool_decide as He2; [by injection H4 as <-|].
  rbind H4 as [st9 opened] H9. rbind H4 as st10 H10.
  eapply opens_prepared_quiet.
  { etrans; [by eapply handle_quiet|]. eapply (foldM_preorder quiet); [|exact H4].
    intros s p s'. apply adopt_opened_quiet. }
  unfold send_open in H9. rbind H9 as [r' ups] Hr. injection H9 as <- <-. cbn [sg_trace publish sent].
  eapply opens_prepared_snoc; [done| |reflexivity].
  destruct Hq68 as (t & -> & _). unfold send_prepare in H6. rbind H6 as [[pl d] r6] Hr6.
  injection H6 as <- <- <-. cbn [sg_trace with_desired sent].
  rewrite !elem_of_app, list_elem_of_singleton. left. right. reflexivity.
Qed.

(** ** The records *)

(** A record that drains belongs to a contact and still has ends to close. *)
Definition draining_ok (info : ActiveLinkInfo) : Prop :=
  ∀ d, drain info = Some d → is_Some (contact info) ∧ dr_ends d ≠ [].

Record records_ok (st : Stages) : Prop := {
  ro_current : ∀ p info, sg_actual st !! p = Some info → draining_ok info;
  ro_earlier : ∀ p cid info, sg_overlapping st !! (p, cid) = Some info →
    record_contact_id info = Some cid ∧ is_Some (drain info) ∧ draining_ok info;
  ro_desired : ∀ p info, sg_desired st !! p = Some info → drain info = None;
}.

Lemma not_draining info : drain info = None → draining_ok info.
Proof. intros H d. by rewrite H. Qed.

(** What is not a change of the records. *)
Definition same_records (st st' : Stages) : Prop :=
  sg_actual st' = sg_actual st ∧ sg_overlapping st' = sg_overlapping st ∧
  sg_desired st' = sg_desired st.

Lemma records_ok_same st st' : same_records st st' → records_ok st → records_ok st'.
Proof. intros (Ha & Ho & Hd) [H1 H2 H3]. split; [rewrite Ha|rewrite Ho|rewrite Hd]; done. Qed.

Lemma handle_same st r st' : handle st r = Ok st' → same_records st st'.
Proof. unfold handle. destruct (handle_actuation_result r); [done|]. by intros [= <-]. Qed.

Lemma stage_losses_keep r p info stage info' :
  record_stage_losses r p info stage = Ok info' →
  contact info' = contact info ∧ drain info' = drain info.
Proof.
  unfold record_stage_losses. generalize (pair_losses r p info) as l. intros l H.
  refine (foldM_inv (λ i, contact i = contact info ∧ drain i = drain info) _ l _ _ _ _ H); [|done].
  intros i x i' _ Hi Hx. rbind Hx as s Hs. injection Hx as <-. exact Hi.
Qed.

Lemma draining_ok_keep info info' :
  contact info' = contact info → drain info' = drain info → draining_ok info → draining_ok info'.
Proof. intros Hc Hd H d. rewrite Hd, Hc. apply H. Qed.

(** A record put back under its key. *)
Definition key_ok (k : RecordKey) (info : ActiveLinkInfo) : Prop :=
  match k with
  | Current _ => draining_ok info
  | Earlier _ cid => record_contact_id info = Some cid ∧ is_Some (drain info) ∧ draining_ok info
  end.

Lemma record_key_ok st k info : records_ok st → record st k = Some info → key_ok k info.
Proof. intros [H1 H2 _]. destruct k; simpl; [apply H1|apply H2]. Qed.

Lemma put_record_ok st k info : records_ok st → key_ok k info → records_ok (put_record st k info).
Proof.
  intros [H1 H2 H3] Hk. destruct k as [p|p cid]; split; try done.
  - intros q i. cbn. destruct (decide (p = q)) as [->|Hne];
      [rewrite lookup_insert_eq; by intros [= <-]|rewrite lookup_insert_ne by done; apply H1].
  - intros q c i. cbn. destruct (decide ((p, cid) = (q, c))) as [[= -> ->]|Hne];
      [rewrite lookup_insert_eq; by intros [= <-]|rewrite lookup_insert_ne by done; apply H2].
Qed.

Lemma drop_record_ok dp sim_time st k info reason losses :
  records_ok st → records_ok (tear_down dp sim_time st k info reason losses).
Proof.
  intros [H1 H2 H3]. destruct k as [p|p cid]; split; unfold tear_down, sg_actual; simpl.
  - intros q i Hq. unfold discount in Hq. destruct (count_link _ _ _ _ _ _). simpl in Hq.
    apply lookup_delete_Some in Hq as [_ Hq]. by apply (H1 q).
  - exact H2.
  - exact H3.
  - intros q i Hq. unfold discount in Hq. destruct (count_link _ _ _ _ _ _). by apply (H1 q).
  - intros q c i [_ Hq]%lookup_delete_Some. by apply (H2 q).
  - exact H3.
Qed.

(** A record after some of its ends closed: it stays only if ends remain. *)
Lemma shrink_ok dp sim_time st k info d d' reason losses :
  records_ok st → key_ok k info → drain info = Some d →
  records_ok (let st := put_record st k (with_drain info (Some d')) in
              match dr_ends d' with
              | [] => tear_down dp sim_time st k (with_drain info (Some d')) reason losses
              | _ => st
              end).
Proof.
  intros Hok Hk Hd. destruct (dr_ends d') as [|e es] eqn:E.
  - destruct k as [p|p cid]; destruct Hok as [H1 H2 H3]; split; unfold tear_down, sg_actual; simpl.
    + intros q i Hq. unfold discount in Hq. destruct (count_link _ _ _ _ _ _). simpl in Hq.
      apply lookup_delete_Some in Hq as [Hne Hq]. rewrite lookup_insert_ne in Hq by done.
      by apply (H1 q).
    + exact H2.
    + exact H3.
    + intros q i Hq. unfold discount in Hq. destruct (count_link _ _ _ _ _ _). by apply (H1 q).
    + intros q c i [Hne Hq]%lookup_delete_Some. rewrite lookup_insert_ne in Hq by done. by apply (H2 q).
    + exact H3.
  - apply put_record_ok; [done|].
    assert (draining_ok (with_drain info (Some d'))) as Hdr.
    { intros d1 [= <-]. split; [|by rewrite E]. cbn.
      destruct k; [by eapply Hk|by destruct Hk as (_ & _ & Hk); eapply Hk]. }
    destruct k; [exact Hdr|]. destruct Hk as (Hc & _ & _). split; [exact Hc|]. split; [by eexists|done].
Qed.

Lemma close_record_ok dp sim_time down_reasons closed st c st' :
  records_ok st → close_record dp sim_time down_reasons closed st c = Ok st' → records_ok st'.
Proof.
  intros Hok. unfold close_record. destruct (negb _); [by intros [= <-]|]. intros H. rbind H as info Hi.
  pose proof (record_key_ok _ _ _ Hok Hi) as Hk. destruct (drain info) as [d|] eqn:Ed.
  - pose proof (shrink_ok dp sim_time st (cr_key c) info d
      (less_ends d (cr_ends c) (end_loss_records closed (cr_pair c) info (cr_cause c)))) as Hs.
    cbn zeta in Hs. destruct (dr_ends (less_ends _ _ _)) eqn:E.
    + rbind H as reason Hr. injection H as <-. by apply Hs.
    + injection H as <-. by apply (Hs "" []).
  - rbind H as reason Hr. injection H as <-. by apply drop_record_ok.
Qed.

Section Records.
Context (dp : Deployment) (env : Env) (sim_time : datetime) (down_reasons : gmap node_pair string)
        (epoch_id : Z) (plan : LongDelayPlan) (due : gmap node_pair (gset string)).

Lemma send_stop_same st pairs st' r :
  send_stop dp env sim_time st pairs = Ok (st', r) → same_records st st'.
Proof. unfold send_stop. intros H. rbind H as [r' downs] Hr. by injection H as <- <-. Qed.

Lemma close_ends_ok prove st records st' :
  records_ok st → close_long_delay_ends dp env sim_time down_reasons prove st records = Ok st' →
  records_ok st'.
Proof.
  intros Hok H. unfold close_long_delay_ends in H.
  refine (foldM_inv records_ok _ _ _ _ _ Hok H). clear. intros st batch st' _ Hok H.
  unfold close_batch in H. rbind H as links Hl. rbind H as st1 H1. rbind H as [st2 r] H2.
  rbind H as st3 H3. refine (foldM_inv records_ok _ _ _ _ _ _ H).
  { intros s c s' _. apply close_record_ok. }
  eapply records_ok_same; [by eapply handle_same|].
  unfold send_close in H2. rbind H2 as [r2 downs] Hr2. injection H2 as <- <-.
  apply (records_ok_same st1); [done|]. destruct prove; [|by injection H1 as <-].
  rbind H1 as [st0 r0] H0. eapply records_ok_same; [by eapply handle_same|].
  unfold send_proof in H0. rbind H0 as r1 Hr1. injection H0 as <- <-. by apply (records_ok_same st).
Qed.

Lemma forced_ok st st' :
  records_ok st → forced_step dp env sim_time down_reasons epoch_id plan st = Ok st' → records_ok st'.
Proof.
  intros Hok. unfold forced_step. destruct (_ && _); [by intros [= <-]|]. intros H.
  rbind H as opened Ho. rbind H as st1 H1. rbind H as records Hr. eapply close_ends_ok; [|exact H].
  case_bool_decide as He; [by injection H1 as <-|]. rbind H1 as [st2 stopped] H2. rbind H1 as st3 H3.
  refine (foldM_inv records_ok _ _ _ _ _ _ H1).
  - intros s p s' _ Hs Hx. unfold keep_stop_losses in Hx. rbind Hx as info Hi. rbind Hx as info' Hi'.
    injection Hx as <-. apply (put_record_ok s (Current p)); [done|]. apply stage_losses_keep in Hi' as [Hc Hd].
    eapply draining_ok_keep; [exact Hc|exact Hd|]. by eapply (ro_current s).
  - eapply records_ok_same; [by eapply handle_same|]. by eapply records_ok_same; [by eapply send_stop_same|].
Qed.

Lemma stop_ok st st' : records_ok st → stop_step dp env sim_time plan st = Ok st' → records_ok st'.
Proof.
  intros Hok. unfold stop_step. case_bool_decide as He; [by intros [= <-]|]. intros H.
  rbind H as [st1 stopped] H1. rbind H as st2 H2. refine (foldM_inv records_ok _ _ _ _ _ _ H).
  - intros s p s' _ Hs Hx. unfold start_pair_drain in Hx. rbind Hx as info Hi. rguard Hx as Hc.
    rbind Hx as info' Hi'. rbind Hx as d Hd. injection Hx as <-. apply (put_record_ok s (Current p)); [done|].
    intros d' [= <-]. cbn. split.
    + apply stage_losses_keep in Hi' as [-> _]. by destruct (contact info).
    + unfold start_drain in Hd. rbind Hd as a Ha. rbind Hd as b Hb. by injection Hd as <-.
  - eapply records_ok_same; [by eapply handle_same|]. by eapply records_ok_same; [by eapply send_stop_same|].
Qed.

Lemma relocate_ok st : records_ok st → records_ok (relocate_step plan st).
Proof.
  unfold relocate_step. generalize (sorted_set npair_lt (lp_relocate plan)) as l. intros l. revert st.
  induction l as [|p l IH]; intros st Hok; [done|]. simpl. apply IH. unfold relocate_pair.
  destruct (sg_actual st !! p) as [held|] eqn:Eh; [|done]. destruct (drain held) as [d|] eqn:Ed; [|done].
  destruct (contact held) as [c|] eqn:Ec; [|done]. destruct Hok as [H1 H2 H3]. split; cbn.
  - intros q i [_ Hq]%lookup_delete_Some. by apply (H1 q).
  - intros q cid i. destruct (decide ((p, Contact_contact_id c) = (q, cid))) as [[= -> <-]|Hne].
    + rewrite lookup_insert_eq. intros [= <-]. unfold record_contact_id. rewrite Ec.
      split; [done|]. split; [by eexists|]. by apply (H1 q).
    + rewrite lookup_insert_ne by done. apply H2.
  - exact H3.
Qed.

Lemma due_ok st st' :
  records_ok st → due_step dp env sim_time down_reasons plan due st = Ok st' → records_ok st'.
Proof. intros Hok. unfold due_step. case_match; [by intros [= <-]|]. by apply close_ends_ok. Qed.

(** Records that only wait to be opened. *)
Definition undrained (links : Links) : Prop := ∀ p info, links !! p = Some info → drain info = None.

Lemma undrained_insert links p info : undrained links → drain info = None → undrained (<[p := info]> links).
Proof.
  intros H Hd q i. destruct (decide (p = q)) as [->|Hne];
    [rewrite lookup_insert_eq; by intros [= <-]|rewrite lookup_insert_ne by done; apply H].
Qed.

Lemma prepare_undrained loc caps rates age fence transport comp pairs desired iso t up_plan desired' r :
  undrained desired →
  prepare_long_delay_contacts loc caps rates age fence transport comp pairs desired iso t
    = Ok (up_plan, desired', r) → undrained desired'.
Proof.
  intros Hu H. unfold prepare_long_delay_contacts in H. rbind H as u Hv. rbind H as [pl d] Hb.
  rbind H as r' Hr. injection H as <- <- <-. unfold build_link_up_batch_plan in Hb. rguard Hb as Hs.
  refine (foldM_inv (λ acc, undrained acc.2) _ _ _ _ (pl, d) _ Hb); [|exact Hu].
  intros acc p acc' _ Ha Hx. unfold link_up_pair in Hx. rbind Hx as info Hi. rguard Hx as Hg.
  rbind Hx as l Hl. rbind Hx as c Hc. rbind Hx as msgs Hm. injection Hx as <-. cbn.
  apply undrained_insert; [done|]. exact (Ha p info Hi).
Qed.

Lemma latency_undrained loc caps rates age fence transport comp pairs desired t r desired' events :
  undrained desired →
  send_authoritative_latency_updates loc caps rates age fence transport comp pairs desired t
    = Ok (r, desired', events) → undrained desired'.
Proof.
  intros Hu H. unfold send_authoritative_latency_updates in H. rbind H as [[pl cs] d] Hb.
  rbind H as r' Hr. rbind H as evs Hev. injection H as <- <- <-.
  refine (foldM_inv (λ acc, undrained acc.2) _ _ _ _ (pl, cs, d) _ Hb); [|exact Hu].
  intros [[pl1 cs1] d1] p acc' _ Ha Hx. unfold latency_pair in Hx. rbind Hx as info Hi.
  rbind Hx as v Hv. rbind Hx as c Hc. rbind Hx as es Hes. injection Hx as <-. cbn.
  apply undrained_insert; [done|]. exact (Ha p info Hi).
Qed.

Lemma reopen_ok st p new prepared st' :
  records_ok st → reopen_overlapping_ends dp sim_time st p new prepared = Ok st' → records_ok st'.
Proof.
  intros Hok H. unfold reopen_overlapping_ends in H. refine (foldM_inv records_ok _ _ _ _ _ Hok H).
  intros s [q cid] s' _ Hs Hx. unfold reopen_earlier in Hx.
  destruct (sg_overlapping s !! (q, cid)) as [info|] eqn:Ei; [|by injection Hx as <-].
  destruct (drain info) as [d|] eqn:Ed; [|by injection Hx as <-].
  destruct (_ && _); injection Hx as <-; [|done].
  refine (shrink_ok dp sim_time s (Earlier q cid) info d _ _ _ Hs _ Ed).
  by apply (record_key_ok s (Earlier q cid)).
Qed.

Lemma open_ok st st' :
  records_ok st → open_step dp env sim_time down_reasons plan st = Ok st' → records_ok st'.
Proof.
  intros Hok. unfold open_step. case_bool_decide as He; [by intros [= <-]|]. intros H.
  rbind H as st1 H1. rbind H as [[st2 up_plan] prepared] H2. rbind H as st3 H3. rbind H as st4 H4.
  assert (records_ok st1) as Hok1.
  { unfold retarget_terminals in H1. rbind H1 as wanted Hw. rbind H1 as rs Hr.
    destruct (omap id rs); [by injection H1 as <-|]. by eapply close_ends_ok. }
  assert (records_ok st2) as Hok2.
  { unfold send_prepare in H2. rbind H2 as [[pl d] r] Hp. injection H2 as <- <- <-.
    destruct Hok1 as [R1 R2 R3]. split; [exact R1|exact R2|]. exact (prepare_undrained _ _ _ _ _ _ _ _ _ _ _ _ _ _ R3 Hp). }
  assert (records_ok st4) as Hok4.
  { refine (foldM_inv records_ok _ _ _ _ _ _ H4); [|by eapply records_ok_same; [eapply handle_same|]].
    intros s p s' _ Hs Hx. unfold end_replaced in Hx. rbind Hx as new Hn. rbind Hx as s1 Hs1.
    apply reopen_ok in Hs1; [|done]. destruct (filter _ _ !! p) as [old|]; [|by injection Hx as <-].
    rbind Hx as staged Hst. injection Hx as <-. destruct Hs1 as [R1 R2 R3]. split; [|exact R2|exact R3].
    intros q i. unfold sg_actual, discount. cbn. destruct (count_link _ _ _ _ _ _). cbn.
    intros [_ Hq]%lookup_delete_Some. by apply (R1 q). }
  case_bool_decide as He2; [by injection H as <-|]. rbind H as [st5 opened] H5. rbind H as st6 H6.
  refine (foldM_inv records_ok _ _ _ _ _ _ H).
  - intros s p s' _ Hs Hx. unfold adopt_opened in Hx. rbind Hx as info Hi. rbind Hx as info' Hi'.
    apply stage_losses_keep in Hi' as [_ Hd]. rewrite (ro_desired _ Hs _ _ Hi) in Hd.
    rbind Hx as t Ht. injection Hx as <-. unfold acquire in Ht. rewrite lookup_singleton_eq in Ht.
    cbn in Ht. destruct (count_link _ _ _ _ _ _). injection Ht as <-. destruct Hs as [R1 R2 R3].
    split; cbn; [|exact R2|by apply undrained_insert].
    intros q i. destruct (decide (p = q)) as [->|Hne];
      [rewrite lookup_insert_eq; intros [= <-]; by apply not_draining|
       rewrite lookup_insert_ne by done; apply R1].
  - eapply records_ok_same; [by eapply handle_same|]. unfold send_open in H5.
    rbind H5 as [r ups] Hr. injection H5 as <- <-. by apply (records_ok_same st4).
Qed.

Lemma latency_ok st st' : records_ok st → latency_step dp env sim_time plan st = Ok st' → records_ok st'.
Proof.
  intros Hok. unfold latency_step. case_bool_decide as He; [by intros [= <-]|]. intros H.
  rbind H as [st1 r] H1. eapply records_ok_same; [by eapply handle_same|]. unfold send_latency in H1.
  rbind H1 as [[r' d] events] Hr. rbind H1 as st2 H2. injection H1 as <- <-.
  refine (foldM_inv records_ok _ _ _ _ _ _ H2).
  - intros s p s' _ [R1 R2 R3] Hx. rbind Hx as info Hi. injection Hx as <-. split; cbn; [|done..].
    intros q i. destruct (decide (p = q)) as [->|Hne];
      [rewrite lookup_insert_eq; intros [= <-]; apply not_draining; by apply (R3 q)|
       rewrite lookup_insert_ne by done; apply R1].
  - destruct Hok as [R1 R2 R3]. split; [exact R1|exact R2|].
    exact (latency_undrained _ _ _ _ _ _ _ _ _ _ _ _ _ R3 Hr).
Qed.
End Records.

(** the records stay sound through a pass, whatever the agents answer.  A
    pair's record that drains belongs to a contact and has ends left to close; an
    earlier contact still held is filed under its own name, drains, and has ends
    left to close; so a contact whose last end closed is never kept. *)
Theorem records_stay_sound dp env sim_time down_reasons epoch_id plan due st st' :
  records_ok st → reconcile_long_delay dp env sim_time down_reasons epoch_id plan due st = Ok st' →
  records_ok st'.
Proof.
  intros Hok H. unfold reconcile_long_delay in H. rbind H as st1 H1. rbind H as st2 H2.
  rbind H as st3 H3. rbind H as st4 H4. eapply latency_ok; [|exact H]. eapply open_ok; [|exact H4].
  eapply due_ok; [|exact H3]. apply relocate_ok. eapply stop_ok; [|exact H2].
  by eapply forced_ok; [|exact H1].
Qed.

(** ** Two faults of the account *)

Lemma latency_keeps_losses loc caps rates age fence transport comp pairs desired t r desired' events p :
  send_authoritative_latency_updates loc caps rates age fence transport comp pairs desired t
    = Ok (r, desired', events) →
  stage_losses <$> desired' !! p = stage_losses <$> desired !! p.
Proof.
  intros H. unfold send_authoritative_latency_updates in H. rbind H as [[pl cs] d] Hb.
  rbind H as r' Hr. rbind H as evs Hev. injection H as <- <- <-.
  refine (foldM_inv (λ acc, stage_losses <$> acc.2 !! p = stage_losses <$> desired !! p)
    _ _ _ _ (pl, cs, d) _ Hb); [|done].
  intros [[pl1 cs1] d1] q acc' _ Ha Hx. unfold latency_pair in Hx. rbind Hx as info Hi.
  rbind Hx as v Hv. rbind Hx as c Hc. rbind Hx as es Hes. injection Hx as <-. cbn in *.
  rewrite <- Ha. destruct (decide (q = p)) as [->|Hne].
  - by rewrite lookup_insert_eq, Hi.
  - by rewrite lookup_insert_ne.
Qed.

(** a delay change erases what a contact's ends lost before it.  When the
    update of a long-delay pair succeeds, the desired record, which OME built and
    which holds no losses, becomes the pair's record, whatever losses the record
    held until then. *)
Theorem latency_update_forgets_losses dp env sim_time st pairs st' r p wanted :
  send_latency dp env sim_time st pairs = Ok (st', r) → p ∈ succeeded_pairs r →
  sg_desired st !! p = Some wanted → stage_losses wanted = ∅ →
  ∃ info', sg_actual st' !! p = Some info' ∧ stage_losses info' = ∅.
Proof.
  intros H Hp Hw Hl. unfold send_latency in H. rbind H as [[r' d] events] Hr. rbind H as st1 H1.
  injection H as <- <-. pose proof (latency_keeps_losses _ _ _ _ _ _ _ _ _ _ _ _ _ p Hr) as Hk.
  rewrite Hw in Hk. cbn in Hk. rewrite Hl in Hk.
  assert (∃ w', d !! p = Some w' ∧ stage_losses w' = ∅) as (w' & Hw' & Hl').
  { destruct (d !! p) as [w'|]; [|done]. exists w'. by injection Hk as ->. }
  assert (sg_desired st1 = d ∧ (p ∈ elements (succeeded_pairs r') → sg_actual st1 !! p = Some w'))
    as [_ Ha].
  { refine (foldM_prefix (λ pre s, sg_desired s = d ∧ (p ∈ pre → sg_actual s !! p = Some w'))
      _ _ _ _ _ _ H1); [|split; [done|by intros ?%elem_of_nil]].
    intros pre q post s s' _ [Hd Hs] Hx. rbind Hx as info Hi. injection Hx as <-. split; [done|].
    cbn in *. rewrite Hd in Hi. intros [Hin|Hin]%elem_of_app.
    - destruct (decide (q = p)) as [->|Hne]; [rewrite lookup_insert_eq; congruence|].
      rewrite lookup_insert_ne by done. by apply Hs.
    - apply list_elem_of_singleton in Hin as <-. rewrite lookup_insert_eq. congruence. }
  exists w'. split; [|done]. apply Ha. by apply elem_of_elements.
Qed.

(** The cluster's pass, with a second terminal at each end. *)
Module Handover.

Definition on (gnd term : string) (opened_at : datetime) (losses : gmap string StageLoss) :
    ActiveLinkInfo :=
  {| interface_a := gnd; interface_b := term; latency_a_to_b_ms := float_of_Z 12;
     latency_b_to_a_ms := float_of_Z 13; commanded_netem_ms := Some (float_of_Z 10, float_of_Z 11);
     link_type := ground_link; range_km := Some (float_of_Z 3600); authority_sim_time := Some 0;
     authority_source := Some "link_state_snapshot"; authority_sequence := Some 1;
     contact := Some {| ct_epoch_id := 3; ct_opened_at := opened_at |}; drain := None;
     stage_losses := losses |}.
Definition terminal : InterfaceRates :=
  {| transmit_mbps := float_of_Z 100; receive_mbps := float_of_Z 100 |}.
Definition dp : Deployment :=
  {| dp_locator := Cluster.located;
     dp_config := {| cfg_interface_map := ∅; cfg_gs_capacities := {["gs-A" := 2]};
                     cfg_sat_capacities := {["sat-1" := 2]}; cfg_long_delay_pairs := {[Pass.p]} |};
     dp_rates := {[("sat-1", "gnd0") := terminal; ("sat-1", "gnd1") := terminal;
                   ("gs-A", "term0") := terminal; ("gs-A", "term1") := terminal]};
     dp_max_latency_age_s := float_of_Z 10; dp_fence := seven |}.

(** Agents that obey, except that no LinkDown reaches them when [deaf]. *)
Definition env (deaf : bool) : Env :=
  {| se_transport _ addr request :=
       match request with
       | BatchLinkDownRequest _ _ _ => if deaf then Unreachable else obedient addr request
       | _ => obedient addr request
       end;
     se_monotonic _ _ := float_of_Z 100; se_now _ := 0; se_compensation _ := Pass.comp |}.

Definition start (held wanted : ActiveLinkInfo) : Stages :=
  {| sg_tracked := {| actual_links := {[Pass.p := held]}; last_latencies := ∅;
                      gs_active := {["gs-A" := 1]}; sat_active := {["sat-1" := 1]} |};
     sg_overlapping := ∅; sg_desired := {[Pass.p := wanted]}; sg_log := []; sg_trace := [];
     sg_events := [] |}.

(** The station's end refused three packets before the contact opened. *)
Definition refused_three : gmap string StageLoss :=
  {["gs-A" := {| st_refused_before_open := 3; st_untransmitted_at_stop := 0;
                 st_transmit_dropped := 0 |}]}.
Definition retimed : result (Stages * ActuationResult) :=
  send_latency dp (env false) 0 (start (on "gnd0" "term0" 0 refused_three) (on "gnd0" "term0" 0 ∅))
    {[Pass.p]}.

Lemma retimed_ok : ∃ st r, retimed = Ok (st, r) ∧ Pass.p ∈ succeeded_pairs r.
Proof.
  assert (match retimed with Ok (_, r) => bool_decide (Pass.p ∈ succeeded_pairs r)
                           | Raise _ => false end = true) as H by (vm_compute; reflexivity).
  destruct retimed as [[st r]|]; [|discriminate H]. exists st, r. split; [reflexivity|].
  by apply bool_decide_eq_true in H.
Qed.

(** The next pass of the pair moves to the second terminals: the plan, and the
    pass against agents that miss the stop. *)
Definition first_pass : ActiveLinkInfo := on "gnd0" "term0" 0 ∅.
Definition second_pass : ActiveLinkInfo := on "gnd1" "term1" 60000000 ∅.
Definition moved : result (LongDelayPlan * Stages) :=
  let! plan := plan_long_delay_contacts 3 ∅ f_1e_9 {[Pass.p := first_pass]} {[Pass.p := second_pass]} in
  let! st := reconcile_long_delay dp (env true) 0 ∅ 3 plan ∅ (start first_pass second_pass) in
  Ok (plan, st).

(** What that pass leaves, as a test. *)
Definition is_close (x : StageCommand * ActuationResult) : bool :=
  match x.1 with CmdClose _ _ => true | _ => false end.
Definition down_of (cid : option string) (e : StageEvent) : bool :=
  match e with EvDown d => bool_decide (ld_contact_id d = cid) | _ => false end.
Definition dropped (st : Stages) : bool :=
  bool_decide (record_contact_id <$> sg_actual st !! Pass.p = Some (record_contact_id second_pass)) &&
  bool_decide (dom (sg_overlapping st) = ∅) &&
  existsb (down_of (record_contact_id first_pass)) (sg_events st) &&
  negb (existsb is_close (sg_trace st)).

End Handover.

Lemma latency_update_forgets_losses_witness :
  ∃ st r info', Handover.retimed = Ok (st, r) ∧ sg_actual st !! Pass.p = Some info' ∧
    stage_losses info' = ∅.
Proof.
  destruct Handover.retimed_ok as (st & r & H & Hp).
  destruct (latency_update_forgets_losses Handover.dp (Handover.env false) 0
    (Handover.start (Handover.on "gnd0" "term0" 0 Handover.refused_three)
       (Handover.on "gnd0" "term0" 0 ∅)) {[Pass.p]} st r Pass.p (Handover.on "gnd0" "term0" 0 ∅))
    as (info' & Ha & Hl).
  - exact H.
  - exact Hp.
  - reflexivity.
  - reflexivity.
  - exists st, r, info'. split; [exact H|]. split; [exact Ha|exact Hl].
Defined.

(** a contact whose stop was missed is dropped while it still carries
    packets.  A pair's next pass moves to other terminals, and the agents miss the
    stop of the pass that ends (a failure at a station does not stop the pass).
    The new contact still opens: the old one leaves the records and is published
    down, and no close of its ends is ever sent. *)
Theorem missed_stop_drops_contact :
  ∃ plan st, Handover.moved = Ok (plan, st) ∧ Pass.p ∈ lp_stop plan ∧ Pass.p ∈ lp_relocate plan ∧
    record_contact_id <$> sg_actual st !! Pass.p = Some (record_contact_id Handover.second_pass) ∧
    dom (sg_overlapping st) = ∅ ∧
    (∃ e, EvDown e ∈ sg_events st ∧ ld_contact_id e = record_contact_id Handover.first_pass) ∧
    ∀ ends links r, (CmdClose ends links, r) ∉ sg_trace st.
Proof.
  assert (match Handover.moved with
          | Ok (plan, st) => bool_decide (Pass.p ∈ lp_stop plan) && bool_decide (Pass.p ∈ lp_relocate plan)
                             && Handover.dropped st
          | Raise _ => false end = true) as H by (vm_compute; reflexivity).
  destruct Handover.moved as [[plan st]|]; [|discriminate H]. exists plan, st.
  unfold Handover.dropped in H.
  apply andb_true_iff in H as [[Hs%bool_decide_eq_true Hr%bool_decide_eq_true]%andb_true_iff H].
  apply andb_true_iff in H as [[[Ha%bool_decide_eq_true Ho%bool_decide_eq_true]%andb_true_iff He]%andb_true_iff
    Hc%negb_true_iff].
  split; [done|]. split; [done|]. split; [done|]. split; [done|]. split; [done|]. split.
  - apply existsb_exists in He as (e & Hin%list_elem_of_In & Hd). destruct e as [|e|]; try done.
    exists e. split; [done|]. by apply bool_decide_eq_true in Hd.
  - intros ends links r Hin. apply not_true_iff_false in Hc. apply Hc, existsb_exists.
    exists (CmdClose ends links, r). split; [by apply list_elem_of_In|done].
Qed.

(** The same move against agents that obey. *)
Definition moved_well : result (LongDelayPlan * Stages) :=
  let! plan := plan_long_delay_contacts 3 ∅ f_1e_9 {[Pass.p := Handover.first_pass]}
    {[Pass.p := Handover.second_pass]} in
  let! st := reconcile_long_delay Handover.dp (Handover.env false) 0 ∅ 3 plan ∅
    (Handover.start Handover.first_pass Handover.second_pass) in
  Ok (plan, st).

Lemma moved_well_ok :
  ∃ plan st, reconcile_long_delay Handover.dp (Handover.env false) 0 ∅ 3 plan ∅
      (Handover.start Handover.first_pass Handover.second_pass) = Ok st ∧
    existsb is_open (sg_trace st) = true ∧ dom (sg_overlapping st) ≠ ∅.
Proof.
  assert (match moved_well with
          | Ok (_, st) => existsb is_open (sg_trace st) && negb (bool_decide (dom (sg_overlapping st) = ∅))
          | Raise _ => false end = true) as H by (vm_compute; reflexivity).
  unfold moved_well in H. destruct (plan_long_delay_contacts _ _ _ _ _) as [plan|]; [|discriminate H].
  cbn [rbind] in H. exists plan.
  destruct (reconcile_long_delay _ _ _ _ _ _ _ _) as [st|]; [|discriminate H]. exists st.
  apply andb_true_iff in H as [Ho Hd%negb_true_iff%bool_decide_eq_false]. done.
Qed.

Lemma start_prepared : opens_prepared (sg_trace (Handover.start Handover.first_pass Handover.second_pass)).
Proof. intros i pairs r H. cbn in H. rewrite lookup_nil in H. discriminate H. Qed.

Lemma start_sound : records_ok (Handover.start Handover.first_pass Handover.second_pass).
Proof.
  split.
  - intros q i H. cbn in H. apply lookup_singleton_Some in H as [<- <-]. by apply not_draining.
  - intros q cid i H. cbn in H. rewrite lookup_empty in H. discriminate H.
  - intros q i H. cbn in H. by apply lookup_singleton_Some in H as [<- <-].
Qed.

Lemma opens_follow_prepare_witness :
  ∃ st, existsb is_open (sg_trace st) = true ∧ opens_prepared (sg_trace st).
Proof.
  destruct moved_well_ok as (plan & st & H & Ho & _). exists st. split; [exact Ho|].
  exact (opens_follow_prepare Handover.dp (Handover.env false) 0 ∅ 3 plan ∅ _ st start_prepared H).
Defined.

Lemma records_stay_sound_witness : ∃ st, dom (sg_overlapping st) ≠ ∅ ∧ records_ok st.
Proof.
  destruct moved_well_ok as (plan & st & H & _ & Hd). exists st. split; [exact Hd|].
  exact (records_stay_sound Handover.dp (Handover.env false) 0 ∅ 3 plan ∅ _ st start_sound H).
Defined.
