(* ===== verification/Adoption.v ===== *)
(** * What a restarted Scheduler adopts

    [services/scheduler/long_delay_adoption.py] and its caller, the
    [_adopt_long_delay_state], [_recover_long_delay_contacts],
    [_arm_drain_wakeup] and [_wake_for_drain] of [dispatcher.py].  Before its first
    baseline the Scheduler surveys both ends of every long-delay link.  A contact
    both ends carry with admission open is adopted as it stands; every other
    carried contact is stopped and drains.

    A survey or a stop that fails refuses the start (a [Raise]).  The environment
    and the state are those of [LongDelayStages]: a survey and a recovering stop are
    commands of its trace. *)

From S2P Require Import Prelude.
From S2P Require Import PyFloat.
From S2P Require Import PyData.
From S2P Require Import PyTime.
From S2P Require Import GroundTypes.
From S2P Require Import EventDiff.
From S2P Require Import DesiredState.
From S2P Require Import Authority.
From S2P Require Import Actuation.
From S2P Require Import DispatchPlanner.
From S2P Require Import ContactDrain.
From S2P Require Import Placement.
From S2P Require Import Substrate.
From S2P Require Import NodeAgentBatches.
From S2P Require Import DispatchActuator.
From S2P Require Import LongDelayStages.
From stdpp Require Import base list strings gmap.
From Stdlib Require Import Ascii.
Local Open Scope Z_scope.

(** ** Classification *)

(** [AdoptedOpen] and [RecoveredContact]. *)
Inductive Found :=
| AdoptedOpen (found_contact : Contact) (receive_ms : gmap string float)
| RecoveredContact (found_contact : Contact) (carried : gmap string string)
    (receive_ms : gmap string float).

Definition found_contact (f : Found) : Contact :=
  match f with AdoptedOpen c _ | RecoveredContact c _ _ => c end.
Definition found_receive_ms (f : Found) : gmap string float :=
  match f with AdoptedOpen _ r | RecoveredContact _ _ r => r end.
Definition is_adopted_open (f : Found) : bool :=
  match f with AdoptedOpen _ _ => true | RecoveredContact _ _ _ => false end.

(** The sort key of contacts, [(contact.epoch_id, contact.opened_at)]. *)
Definition contact_lt (c1 c2 : Contact) : bool :=
  pair_lt Z.ltb Z.ltb (ct_epoch_id c1, ct_opened_at c1) (ct_epoch_id c2, ct_opened_at c2).

(** The ends of a pair that carry a contact, with its name. *)
Definition carried_contacts (p : node_pair) (surveys : gmap string EndSurvey) : gmap string string :=
  omap (λ s, if bool_decide (sv_carried_contact_id s = "") then None
             else Some (sv_carried_contact_id s))
    (filter (λ x, x.1 ∈ ({[p.1; p.2]} : gset string)) surveys).

Definition admission_stopped (surveys : gmap string EndSurvey) (node_id : string) : bool :=
  match surveys !! node_id with Some s => sv_admission_stopped s | None => false end.

(** [classify_surveyed_pair]. *)
Definition classify_surveyed_pair (p : node_pair) (surveys : gmap string EndSurvey) :
    result (option Found) :=
  raise_if negb (bool_decide ({[p.1; p.2]} ⊆ dom surveys))
    with ValueError "long-delay link has no survey" ;;
  let carried := carried_contacts p surveys in
  if bool_decide (carried = ∅) then Ok None else
  let receive_ms := map_imap (λ n _, sv_receive_latency_ms <$> surveys !! n) carried in
  let names : gset string := map_img carried in
  if bool_decide (size carried = 2%nat) && bool_decide (size names = 1%nat) &&
     negb (existsb (admission_stopped surveys) [p.1; p.2])
  then
    let! name := or_raise (head (elements names)) (KeyError "names") in
    let! c := from_contact_id name in
    Ok (Some (AdoptedOpen c receive_ms))
  else
    let! contacts := mapM_r from_contact_id (elements names) in
    let! oldest := or_raise (head (sorted contact_lt contacts)) (Raised "IndexError" "contacts") in
    Ok (Some (RecoveredContact oldest carried receive_ms)).

(** [text.partition("/")], [None] when there is no separator. *)
Fixpoint partition_slash (text : string) : option (string * string) :=
  match text with
  | EmptyString => None
  | String c rest =>
      if bool_decide (c = "/"%char) then Some ("", rest)
      else '(l, r) ← partition_slash rest; Some (String c l, r)
  end.

(** The peer end a carried contact names. *)
Definition carried_peer (s : EndSurvey) : result Iface :=
  let refuse := ValueError "carries a contact with no peer end" in
  let! '(peer_node, peer_interface) := or_raise (partition_slash (sv_carried_peer s)) refuse in
  raise_if bool_decide (peer_node = "") || bool_decide (peer_interface = "") with refuse ;;
  Ok (peer_node, peer_interface).

(** A ground pass: its interfaces by node, and the surveys of the ends that carry
    it. *)
Record GroundPass := { gp_interfaces : gmap string string; gp_surveys : gmap string EndSurvey }.
Definition no_ends : GroundPass := {| gp_interfaces := ∅; gp_surveys := ∅ |}.
Abbreviation Passes := (dict (node_pair * string) GroundPass).

(** One carrying end joins its pass. *)
Definition join_pass (passes : Passes) (x : Iface * EndSurvey) : result Passes :=
  let '((node_id, interface), survey) := x in
  if bool_decide (sv_carried_contact_id survey = "") then Ok passes else
  let! '(peer_node, peer_interface) := carried_peer survey in
  let key := (ordered_pair node_id peer_node, sv_carried_contact_id survey) in
  let pass := default no_ends (dict_get key passes) in
  raise_if negb (bool_decide (default interface (gp_interfaces pass !! node_id) = interface))
    with ValueError "contact names two interfaces of a node" ;;
  let interfaces := <[node_id := interface]> (gp_interfaces pass) in
  Ok (dict_set key
        {| gp_interfaces := match interfaces !! peer_node with
                            | Some _ => interfaces
                            | None => <[peer_node := peer_interface]> interfaces
                            end;
           gp_surveys := <[node_id := survey]> (gp_surveys pass) |} passes).

(** [ground_contacts]. *)
Definition ground_contacts (reports : gmap Iface EndSurvey) : result Passes :=
  foldM join_pass [] (sorted_items iface_lt reports).

(** [adopted_link_info]. *)
Definition adopted_link_info (p : node_pair) (interfaces : string * string) (found : Found)
    (type : LinkType) : ActiveLinkInfo :=
  let a_to_b := default f_0 (found_receive_ms found !! p.2) in
  let b_to_a := default f_0 (found_receive_ms found !! p.1) in
  {| interface_a := interfaces.1; interface_b := interfaces.2; latency_a_to_b_ms := a_to_b;
     latency_b_to_a_ms := b_to_a; commanded_netem_ms := Some (a_to_b, b_to_a); link_type := type;
     range_km := None; authority_sim_time := None; authority_source := None;
     authority_sequence := None; contact := Some (found_contact found); drain := None;
     stage_losses := ∅ |}.

(** ** Adoption *)

Record Adopted := { ad_key : RecordKey; ad_info : ActiveLinkInfo; ad_found : Found }.
Definition ad_pair (a : Adopted) : node_pair := key_pair (ad_key a).

(** The ends of a recovered contact, and the contact each carries. *)
Definition ad_carried (a : Adopted) : gmap string string :=
  match ad_found a with RecoveredContact _ carried _ => carried | AdoptedOpen _ _ => ∅ end.

Section Adoption.
Context (dp : Deployment) (env : Env) (bounds_s : gmap node_pair float).
Abbreviation loc := (dp_locator dp).
Abbreviation interface_map := (cfg_interface_map (dp_config dp)).
Abbreviation gs_capacities := (cfg_gs_capacities (dp_config dp)).
Abbreviation transport := (λ st, se_transport env (sg_trace st)).

(** *** Fixed links *)

Definition fixed_pairs : gset node_pair := filter (λ p, is_Some (interface_map !! p)) (dom bounds_s).
Definition ground_pairs : gset node_pair := filter (λ p, interface_map !! p = None) (dom bounds_s).

Definition survey_of (reports : gmap Iface EndSurvey) (i : Iface) : result EndSurvey :=
  or_raise (reports !! i) (KeyError "reports").

Definition adopt_fixed_pair (reports : gmap Iface EndSurvey) (p : node_pair) : result (option Adopted) :=
  let! interfaces := or_raise (interface_map !! p) (KeyError "interface_map") in
  let! a := survey_of reports (p.1, interfaces.1) in
  let! b := survey_of reports (p.2, interfaces.2) in
  let! found := classify_surveyed_pair p (<[p.2 := b]> {[p.1 := a]}) in
  Ok (match found with
      | Some f => Some {| ad_key := Current p; ad_info := adopted_link_info p interfaces f isl_link;
                          ad_found := f |}
      | None => None
      end).

Definition adopt_fixed (sim_iso : string) (st : Stages) : result (Stages * list Adopted) :=
  if bool_decide (fixed_pairs = ∅) then Ok (st, []) else
  let! surveyed := survey_long_delay_ends loc (dp_fence dp) (transport st) fixed_pairs interface_map
    sim_iso in
  raise_if negb (bool_decide (fixed_pairs ⊆ succeeded_pairs surveyed))
    with RuntimeError "long-delay survey failed; refusing to start" ;;
  let! adopted := mapM_r (adopt_fixed_pair (surveys surveyed)) (sorted_set npair_lt fixed_pairs) in
  Ok (sent st (CmdSurvey fixed_pairs) surveyed, omap id adopted).

(** *** Ground passes *)

Definition is_access (interface : string) : bool :=
  String.prefix "term" interface || String.prefix "gnd" interface.

(** The access terminals of the nodes with long-delay ground peers. *)
Definition ground_terminals : list Iface :=
  sorted iface_lt (List.filter
    (λ i, existsb (λ p, bool_decide (i.1 = p.1) || bool_decide (i.1 = p.2)) (elements ground_pairs) &&
          is_access i.2)
    (elements (dom (dp_rates dp)))).

Definition no_contact : EndSurvey :=
  {| sv_carried_contact_id := ""; sv_admission_stopped := false; sv_receive_latency_ms := f_0;
     sv_carried_peer := "" |}.

(** One pass is classified; [found] is used as a value, and a pass with a carrying
    end always has one. *)
Definition classify_pass (x : (node_pair * string) * GroundPass) :
    result (node_pair * (ActiveLinkInfo * Found)) :=
  let '((p, name), pass) := x in
  raise_if negb (bool_decide (p ∈ ground_pairs))
    with RuntimeError "a terminal carries a contact of a pair the session does not class long-delay" ;;
  let survey n := default no_contact (gp_surveys pass !! n) in
  let! found := classify_surveyed_pair p (<[p.2 := survey p.2]> {[p.1 := survey p.1]}) in
  let! ia := or_raise (gp_interfaces pass !! p.1) (KeyError "interfaces") in
  let! ib := or_raise (gp_interfaces pass !! p.2) (KeyError "interfaces") in
  let! f := or_raise found (Raised "AttributeError" "receive_ms") in
  Ok (p, (adopted_link_info p (ia, ib) f ground_link, f)).

(** [by_pair.setdefault(pair, []).append(item)]. *)
Definition group_passes (items : list (node_pair * (ActiveLinkInfo * Found))) :
    gmap node_pair (list (ActiveLinkInfo * Found)) :=
  fold_left (λ m x, <[x.1 := default [] (m !! x.1) ++ [x.2]]> m) items ∅.

(** The passes of one pair: the newest is its record, the others overlap it. *)
Definition adopt_passes (x : node_pair * list (ActiveLinkInfo * Found)) : result (list Adopted) :=
  let passes := sorted (λ a b, contact_lt (found_contact a.2) (found_contact b.2)) x.2 in
  let! '(info, found) := or_raise (last passes) (Raised "IndexError" "passes") in
  let! earlier := mapM_r (λ '(info, found),
      raise_if is_adopted_open found with RuntimeError "an open contact older than another" ;;
      Ok {| ad_key := Earlier x.1 (Contact_contact_id (found_contact found)); ad_info := info;
            ad_found := found |}) (removelast passes) in
  Ok ({| ad_key := Current x.1; ad_info := info; ad_found := found |} :: earlier).

Definition adopt_ground (sim_iso : string) (st : Stages) : result (Stages * list Adopted) :=
  if bool_decide (ground_pairs = ∅) then Ok (st, []) else
  let! surveyed := survey_ground_terminals loc gs_capacities (dp_fence dp) (transport st)
    ground_terminals sim_iso in
  raise_if negb (bool_decide (list_to_set ground_terminals ⊆ succeeded_pairs surveyed))
    with RuntimeError "ground terminal survey failed; refusing to start" ;;
  let! passes := ground_contacts (surveys surveyed) in
  let! items := mapM_r classify_pass passes in
  let! adopted := mapM_r adopt_passes (sorted_items npair_lt (group_passes items)) in
  Ok (sent st (CmdSurveyTerminals ground_terminals) surveyed, concat adopted).

(** *** Recovery *)

(** An adopted contact becomes a record. *)
Definition keep_adopted (st : Stages) (a : Adopted) : Stages :=
  match ad_key a with
  | Current p =>
      let t := sg_tracked st in
      with_tracked st {| actual_links := <[p := ad_info a]> (actual_links t);
                         last_latencies := <[p := latencies_ms (ad_info a)]> (last_latencies t);
                         gs_active := gs_active t; sat_active := sat_active t |}
  | Earlier p cid => with_overlapping st (<[(p, cid) := ad_info a]> (sg_overlapping st))
  end.

Definition recover_ends (batch : list Adopted) : gmap node_pair (gset string) :=
  fold_left (λ m a, <[ad_pair a := dom (ad_carried a)]> m) batch ∅.
Definition recover_links (st : Stages) (batch : list Adopted) : result Links :=
  foldM (λ (m : Links) a,
      let! info := the_record st (ad_key a) in Ok (<[ad_pair a := info]> m)) ∅ batch.

(** The contact each stopped end carries, by its terminal. *)
Definition end_names (a : Adopted) : result (list (Iface * string)) :=
  mapM_r (λ '(node_id, name),
      let! interface := or_raise (end_terminals (ad_pair a) (ad_info a) !! node_id)
        (KeyError "end_terminals") in
      Ok ((node_id, interface), name)) (map_to_list (ad_carried a)).
Definition recover_names (batch : list Adopted) : result (gmap Iface string) :=
  let! names := mapM_r end_names batch in
  Ok (list_to_map (concat names)).

Definition start_recovery (stopped : ActuationResult) (mono : float) (wall : datetime) (st : Stages)
    (a : Adopted) : result Stages :=
  let! info := the_record st (ad_key a) in
  let! info := record_stage_losses stopped (ad_pair a) info LINK_DOWN_STAGE_STOP_ADMISSION in
  let! bound := or_raise (bounds_s !! ad_pair a) (KeyError "long_delay_bounds_s") in
  let! d := recover_drain (ad_pair a) info (ad_carried a) mono wall bound in
  Ok (put_record st (ad_key a) (with_drain info (Some d))).

(** One round of [_recover_long_delay_contacts]. *)
Definition recover_batch (sim_iso : string) (when : datetime) (st : Stages) (batch : list Adopted) :
    result Stages :=
  let! links := recover_links st batch in
  let! names := recover_names batch in
  let ends := recover_ends batch in
  let! '(stopped, downs) := send_batch_down loc gs_capacities (dp_fence dp) (transport st) (dom links)
    links sim_iso when ∅ LINK_DOWN_STAGE_STOP_ADMISSION (Some ends) (Some names) in
  let st := publish (sent st (CmdRecover ends names links) stopped) (map EvDown downs) in
  raise_if negb (bool_decide (dom links ⊆ succeeded_pairs stopped))
    with RuntimeError "stop of recovered long-delay contacts failed; refusing to start" ;;
  let mono := se_monotonic env (sg_trace st) 0 in
  let wall := se_now env (sg_trace st) in
  foldM (start_recovery stopped mono wall) st batch.

(** [_recover_long_delay_contacts]. *)
Definition recover_long_delay_contacts (sim_iso : string) (when : datetime) (st : Stages)
    (recovered : list Adopted) : result Stages :=
  foldM (recover_batch sim_iso when) st (rounds ad_pair recovered).

Definition rebaseline (st : Stages) : Stages :=
  let held := map_to_list (sg_actual st) ++
              map (λ x, (x.1.1, x.2)) (map_to_list (sg_overlapping st)) in
  let '(g, s) := rebaseline_active_counts gs_capacities (cfg_sat_capacities (dp_config dp)) held in
  with_tracked st {| actual_links := sg_actual st; last_latencies := last_latencies (sg_tracked st);
                     gs_active := g; sat_active := s |}.

(** [_adopt_long_delay_state]. *)
Definition adopt_long_delay_state (current_sim_time : option datetime) (st : Stages) : result Stages :=
  let when := default (se_now env (sg_trace st)) current_sim_time in
  let sim_iso := isoformat when in
  let! '(st, fixed) := adopt_fixed sim_iso st in
  let! '(st, ground) := adopt_ground sim_iso st in
  let adopted := fixed ++ ground in
  let st := fold_left keep_adopted adopted st in
  let! st := recover_long_delay_contacts sim_iso when st
    (List.filter (λ a, negb (is_adopted_open (ad_found a))) adopted) in
  Ok (rebaseline st).
End Adoption.

(** ** The wake-up *)

(** [_arm_drain_wakeup]: when the worker is woken, on the monotonic clock. *)
Definition arm_drain_wakeup (running : bool) (st : Stages) : option float :=
  let due := match next_close_due (sg_actual st), next_close_due (sg_overlapping st) with
             | Some x, Some y => Some (fmin x y)
             | Some x, None | None, Some x => Some x
             | None, None => None
             end in
  if running then due else None.

(** [_wake_for_drain]: the sleep, and what it does then. *)
Inductive Wake := StopDispatch | QueueDrainIntent (sim_time : datetime).
Definition wake_for_drain (due monotonic : float) (current_sim_time : option datetime) : float * Wake :=
  let wait := fsub due monotonic in
  (if flt f_0 wait then wait else f_0,
   match current_sim_time with None => StopDispatch | Some t => QueueDrainIntent t end).
