(* ===== verification/AdoptionTheorems.v ===== *)
(** * What adoption guarantees

    A restarted Scheduler leaves no contact behind: every contact a surveyed end
    carries is in a record, as it stands when both ends carry it open, else stopped
    under the name that end carries and draining for the link's longest delay.  The
    records it starts from satisfy the invariant of the long-delay stages, so they
    are sound in every state a session reaches. *)

From S2P Require Import Prelude.
From S2P Require Import PyFloat.
From S2P Require Import PyData.
From S2P Require Import PyTime.
From S2P Require Import GroundTypes.
From S2P Require Import EventDiff.
From S2P Require Import DesiredState.
From S2P Require Import Authority.
From S2P Require Import Actuation.
From S2P Require Import DispatchPlanner.
From S2P Require Import ContactDrain.
From S2P Require Import Placement.
From S2P Require Import Substrate.
From S2P Require Import NodeAgentBatches.
From S2P Require Import BatchTheorems.
From S2P Require Import DispatchActuator.
From S2P Require Import ActuatorTheorems.
From S2P Require Import LongDelayStages.
From S2P Require Import LongDelayTheorems.
From S2P Require Import Adoption.
From stdpp Require Import base list strings gmap pretty.
Local Open Scope Z_scope.

(** ** Classification *)

Lemma from_contact_id_text name c : from_contact_id name = Ok c → Contact_contact_id c = name.
Proof.
  unfold from_contact_id. intros H. rbind H as [e o] H1. rguard H as H2. rbind H as z H3.
  rbind H as t H4. rguard H as H5. by injection H as <-.
Qed.

#[global] Instance contact_lt_total : StrictTotal contact_lt.
Proof.
  assert (StrictTotal Z.ltb) as HZ.
  { split.
    - apply Z.ltb_irrefl.
    - intros x y z. rewrite !Z.ltb_lt. lia.
    - intros x y. rewrite !Z.ltb_ge. lia. }
  destruct (pair_lt_total Z.ltb Z.ltb) as [I T C]. split; unfold contact_lt.
  - intros x. apply I.
  - intros x y z. apply T.
  - intros [e1 t1] [e2 t2] H1 H2. specialize (C _ _ H1 H2) as C. simpl in C. congruence.
Qed.

Lemma carried_lookup p surveys n name :
  carried_contacts p surveys !! n = Some name ↔
  (n = p.1 ∨ n = p.2) ∧ name ≠ "" ∧ ∃ s, surveys !! n = Some s ∧ sv_carried_contact_id s = name.
Proof.
  unfold carried_contacts. rewrite lookup_omap. rewrite bind_Some. setoid_rewrite map_lookup_filter_Some.
  simpl. split.
  - intros (s & [Hs Hn] & Hc). case_bool_decide; [done|]. injection Hc as <-. split; [set_solver|eauto].
  - intros (Hn & Hne & s & Hs & <-). exists s. split; [split; [done|set_solver]|].
    by rewrite bool_decide_false.
Qed.

Lemma elem_of_img (m : gmap string string) name :
  name ∈ (map_img m : gset string) ↔ ∃ n, m !! n = Some name.
Proof. apply elem_of_map_img. Qed.


Lemma sorted_head_least {A} (lt : A → A → bool) `{!StrictTotal lt} l x :
  head (sorted lt l) = Some x → x ∈ l ∧ ∀ y, y ∈ l → lt y x = false.
Proof.
  intros H. pose proof (sorted_sorted lt (λ _, True) l) as Hs. specialize (Hs (Forall_true _ _ (λ _, I))).
  destruct (sorted lt l) as [|x' r] eqn:E; [done|]. injection H as ->. split.
  - rewrite <- (elem_of_sorted lt), E. by left.
  - intros y Hy. rewrite <- (elem_of_sorted lt), E in Hy. apply elem_of_cons in Hy as [->|Hy].
    + apply st_irrefl.
    + inversion Hs as [|? ? _ Hf]; subst. rewrite Forall_forall in Hf. by apply Hf.
Qed.

(** The surveys of a pair's two ends. *)
Definition two_surveys (p : node_pair) (a b : EndSurvey) : gmap string EndSurvey :=
  <[p.2 := b]> {[p.1 := a]}.

Definition carried_open (a b : EndSurvey) : Prop :=
  sv_carried_contact_id a = sv_carried_contact_id b ∧ sv_carried_contact_id a ≠ "" ∧
  sv_admission_stopped a = false ∧ sv_admission_stopped b = false.

(** What a classification says of the two surveys. *)
Definition classified (p : node_pair) (a b : EndSurvey) (o : option Found) : Prop :=
  match o with
  | None => sv_carried_contact_id a = "" ∧ sv_carried_contact_id b = ""
  | Some (AdoptedOpen c _) => carried_open a b ∧ sv_carried_contact_id a = Contact_contact_id c
  | Some (RecoveredContact c carried _) =>
      carried = carried_contacts p (two_surveys p a b) ∧ ¬ carried_open a b ∧
      (∃ n, carried !! n = Some (Contact_contact_id c)) ∧
      ∀ n name c', carried !! n = Some name → from_contact_id name = Ok c' → contact_lt c' c = false
  end.

Section Classify.
Context (p : node_pair) (a b : EndSurvey) (Hne : p.1 ≠ p.2).

Lemma two_surveys_1 : two_surveys p a b !! p.1 = Some a.
Proof. unfold two_surveys. rewrite lookup_insert_ne by done. apply lookup_singleton_eq. Qed.
Lemma two_surveys_2 : two_surveys p a b !! p.2 = Some b.
Proof. apply lookup_insert_eq. Qed.

Lemma carried_1 : carried_contacts p (two_surveys p a b) !! p.1 =
  if bool_decide (sv_carried_contact_id a = "") then None else Some (sv_carried_contact_id a).
Proof.
  apply option_eq. intros name. rewrite carried_lookup, two_surveys_1. case_bool_decide; naive_solver.
Qed.
Lemma carried_2 : carried_contacts p (two_surveys p a b) !! p.2 =
  if bool_decide (sv_carried_contact_id b = "") then None else Some (sv_carried_contact_id b).
Proof.
  apply option_eq. intros name. rewrite carried_lookup, two_surveys_2. case_bool_decide; naive_solver.
Qed.
Lemma carried_eq : carried_contacts p (two_surveys p a b) =
  (if bool_decide (sv_carried_contact_id b = "") then id else insert p.2 (sv_carried_contact_id b))
  (if bool_decide (sv_carried_contact_id a = "") then ∅ else {[p.1 := sv_carried_contact_id a]}).
Proof.
  apply map_eq. intros n. destruct (decide (n = p.1)) as [->|N1]; [|destruct (decide (n = p.2)) as [->|N2]].
  - rewrite carried_1. repeat case_bool_decide; simpl; rewrite ?lookup_insert_ne by done;
      by rewrite ?lookup_empty, ?lookup_singleton_eq.
  - rewrite carried_2. repeat case_bool_decide; simpl; rewrite ?lookup_insert_eq; try done.
    by rewrite lookup_singleton_ne.
  - apply option_eq. intros name. rewrite carried_lookup.
    repeat case_bool_decide; simpl; rewrite ?lookup_insert_ne, ?lookup_empty, ?lookup_singleton_ne by done;
      naive_solver.
Qed.

Lemma open_test : let carried := carried_contacts p (two_surveys p a b) in
  bool_decide (size carried = 2%nat) && bool_decide (size (map_img carried : gset string) = 1%nat) &&
  negb (existsb (admission_stopped (two_surveys p a b)) [p.1; p.2]) = true ↔ carried_open a b.
Proof using Hne.
  cbv zeta. rewrite !andb_true_iff, !bool_decide_eq_true, negb_true_iff. simpl.
  unfold admission_stopped. rewrite two_surveys_1, two_surveys_2 by done. rewrite orb_false_r, orb_false_iff.
  unfold carried_open. rewrite carried_eq.
  destruct (bool_decide_reflect (sv_carried_contact_id b = "")) as [Eb|Eb];
    destruct (bool_decide_reflect (sv_carried_contact_id a = "")) as [Ea|Ea]; cbn [id].
  - rewrite map_size_empty. (split; [intros [[? _] _]; lia|naive_solver congruence]).
  - rewrite map_size_singleton. (split; [intros [[? _] _]; lia|naive_solver congruence]).
  - rewrite map_size_insert_None, map_size_empty by apply lookup_empty. (split; [intros [[? _] _]; lia|naive_solver congruence]).
  - rewrite map_size_insert_None, map_size_singleton by by apply lookup_singleton_ne.
    rewrite map_img_insert_notin_L by by apply lookup_singleton_ne. rewrite map_img_singleton_L.
    assert (size ({[sv_carried_contact_id b]} ∪ {[sv_carried_contact_id a]} : gset string) = 1%nat ↔
            sv_carried_contact_id a = sv_carried_contact_id b) as ->; [|tauto].
    split; [|intros ->; by rewrite union_idemp_L, size_singleton].
    intros [x Hx]%size_1_elem_of. apply leibniz_equiv in Hx.
    assert (sv_carried_contact_id a = x) by (apply (elem_of_singleton (C := gset string)); rewrite <- Hx; set_solver).
    assert (sv_carried_contact_id b = x) by (apply (elem_of_singleton (C := gset string)); rewrite <- Hx; set_solver). congruence.
Qed.

Lemma carried_empty : carried_contacts p (two_surveys p a b) = ∅ ↔
  sv_carried_contact_id a = "" ∧ sv_carried_contact_id b = "".
Proof using Hne.
  split.
  - intros H. pose proof carried_1 as H1. pose proof carried_2 as H2. rewrite H, lookup_empty in H1, H2.
    by repeat case_bool_decide.
  - intros [Ha Hb]. rewrite carried_eq. by rewrite !bool_decide_true.
Qed.

Lemma classify_classified o :
  classify_surveyed_pair p (two_surveys p a b) = Ok o → classified p a b o.
Proof using Hne.
  unfold classify_surveyed_pair. intros H. rguard H as Hd. clear Hd.
  destruct (bool_decide_reflect (carried_contacts p (two_surveys p a b) = ∅)) as [He|He].
  { injection H as <-. by apply carried_empty. }
  set (carried := carried_contacts p (two_surveys p a b)) in *.
  pose proof open_test as Ho. cbv zeta in Ho. fold carried in Ho.
  destruct (_ && _ && _).
  - rbind H as name Hn. rbind H as c Hc. injection H as <-. simpl.
    destruct (proj1 Ho eq_refl) as (Hab & Ha & Hs). split; [done|].
    apply from_contact_id_text in Hc as ->.
    assert (name ∈ (map_img carried : gset string)) as Hin.
    { apply elem_of_elements. destruct (elements _); [done|]. injection Hn as ->. by left. }
    apply elem_of_img in Hin as (n & (Hn' & _ & s & Hs' & <-)%carried_lookup).
    destruct Hn' as [-> | ->]; [rewrite two_surveys_1 in Hs'|rewrite two_surveys_2 in Hs']; congruence.
  - rbind H as cs Hcs. rbind H as c Hc. injection H as <-. simpl. split; [done|].
    split; [intros E; by apply Ho in E|]. apply mapM_r_Forall2 in Hcs.
    apply sorted_head_least in Hc as [Hin Hleast]; [|apply _]. split.
    + apply list_elem_of_lookup in Hin as [i Hi]. eapply Forall2_lookup_r in Hcs as (name & Hl & Hp); [|exact Hi].
      apply from_contact_id_text in Hp as ->. apply elem_of_img, elem_of_elements.
      by eapply list_elem_of_lookup_2.
    + intros n name c' Hname Hc'. apply Hleast.
      assert (name ∈ elements (map_img carried : gset string)) as Hel by (apply elem_of_elements, elem_of_img; eauto).
      apply list_elem_of_lookup in Hel as [i Hi]. eapply Forall2_lookup_l in Hcs as (c2 & Hl & Hp); [|exact Hi].
      rewrite Hc' in Hp. injection Hp as <-. by eapply list_elem_of_lookup_2.
Qed.
End Classify.

(** Whether a classification accounts for what an end carries. *)
Definition accounts (f : Found) (n : string) (s : EndSurvey) : Prop :=
  match f with
  | AdoptedOpen c _ => sv_carried_contact_id s = Contact_contact_id c ∧ sv_admission_stopped s = false
  | RecoveredContact _ carried _ => carried !! n = Some (sv_carried_contact_id s)
  end.

Section Classified.
Context (p : node_pair) (a b : EndSurvey) (Hne : p.1 ≠ p.2).

Lemma classified_accounts o n s :
  classified p a b o → (n = p.1 ∧ s = a) ∨ (n = p.2 ∧ s = b) → sv_carried_contact_id s ≠ "" →
  ∃ f, o = Some f ∧ accounts f n s.
Proof using Hne.
  intros H Hn Hs. destruct o as [[c ms|c carried ms]|]; [| |by destruct H, Hn as [[_ ->]|[_ ->]]].
  - exists (AdoptedOpen c ms). split; [done|]. destruct H as [(Hab & Ha & H1 & H2) Hc].
    destruct Hn as [[_ ->]|[_ ->]]; split; congruence.
  - exists (RecoveredContact c carried ms). split; [done|]. destruct H as [-> _]. simpl.
    destruct Hn as [[-> ->]|[-> ->]]; rewrite ?carried_1, ?carried_2 by done; by rewrite bool_decide_false.
Qed.

Lemma classified_origin c carried ms n name :
  classified p a b (Some (RecoveredContact c carried ms)) → carried !! n = Some name →
  name ≠ "" ∧ ∃ s, ((n = p.1 ∧ s = a) ∨ (n = p.2 ∧ s = b)) ∧ sv_carried_contact_id s = name.
Proof using Hne.
  intros [-> _] (Hn & Hname & s & Hs & Hc)%carried_lookup. split; [done|]. exists s. split; [|done].
  destruct Hn as [-> | ->]; rewrite ?two_surveys_1, ?two_surveys_2 in Hs by done; injection Hs as ->; auto.
Qed.

Lemma classified_name f :
  classified p a b (Some f) → ∃ s, (s = a ∨ s = b) ∧ sv_carried_contact_id s = Contact_contact_id (found_contact f)
    ∧ sv_carried_contact_id s ≠ "".
Proof using Hne.
  destruct f as [c ms|c carried ms]; simpl.
  - intros [(_ & Ha & _) Hc]. exists a. auto.
  - intros (-> & _ & (n & (Hn & Hname & s & Hs & Hc)%carried_lookup) & _). exists s. rewrite Hc.
    destruct Hn as [-> | ->]; rewrite ?two_surveys_1, ?two_surveys_2 in Hs by done; injection Hs as ->; auto.
Qed.
End Classified.

(** ** What was reported *)

Section Adoption.
Context (dp : Deployment) (env : Env) (bounds_s : gmap node_pair float).
Abbreviation interface_map := (cfg_interface_map (dp_config dp)).

(** The ends a survey asked for and what it read of them. *)
Definition asked (cmd : StageCommand) (i : Iface) : Prop :=
  match cmd with
  | CmdSurvey pairs => ∃ p ia ib, p ∈ pairs ∧ interface_map !! p = Some (ia, ib) ∧
      (i = (p.1, ia) ∨ i = (p.2, ib))
  | CmdSurveyTerminals _ => True
  | _ => False
  end.
Definition reports (t : Trace) (i : Iface) (s : EndSurvey) : Prop :=
  ∃ cmd r, (cmd, r) ∈ t ∧ asked cmd i ∧ surveys r !! i = Some s.

Lemma reports_app t t' i s : reports t i s → reports (t ++ t') i s.
Proof. intros (cmd & r & Hin & H). exists cmd, r. split; [set_solver|done]. Qed.

(** An adopted contact, whose carried ends were all reported. *)
Record adopted_ok (t : Trace) (a : Adopted) : Prop := {
  ao_contact : contact (ad_info a) = Some (found_contact (ad_found a));
  ao_drain : drain (ad_info a) = None;
  ao_bound : ad_pair a ∈ dom bounds_s;
  ao_earlier : ∀ p cid, ad_key a = Earlier p cid →
    cid = Contact_contact_id (found_contact (ad_found a)) ∧ is_adopted_open (ad_found a) = false;
  ao_carried : ∀ n name, ad_carried a !! n = Some name → ∃ i s,
    end_terminals (ad_pair a) (ad_info a) !! n = Some i ∧ reports t (n, i) s ∧
    sv_carried_contact_id s = name;
}.

(** An adopted contact that accounts for a reported end. *)
Definition covers (a : Adopted) (i : Iface) (s : EndSurvey) : Prop :=
  end_terminals (ad_pair a) (ad_info a) !! i.1 = Some i.2 ∧ accounts (ad_found a) i.1 s.

Lemma adopted_ok_app t t' a : adopted_ok t a → adopted_ok (t ++ t') a.
Proof.
  intros [H1 H2 H3 H4 H5]. split; try done. intros n name Hn. destruct (H5 n name Hn) as (i & s & Hi & Hr & Hs).
  exists i, s. split; [done|]. split; [by apply reports_app|done].
Qed.

Context (Hne : ∀ p, p ∈ dom bounds_s → p.1 ≠ p.2).

Lemma end_terminals_1 p info : p.1 ≠ p.2 → end_terminals p info !! p.1 = Some (interface_a info).
Proof. intros H. unfold end_terminals. rewrite lookup_insert_ne by done. apply lookup_singleton_eq. Qed.
Lemma end_terminals_2 p info : end_terminals p info !! p.2 = Some (interface_b info).
Proof. apply lookup_insert_eq. Qed.

(** One classified pair, whatever its kind. *)
Lemma classified_adopted t k ia ib type f sa sb :
  key_pair k ∈ dom bounds_s → classified (key_pair k) sa sb (Some f) →
  (∀ p cid, k = Earlier p cid → cid = Contact_contact_id (found_contact f) ∧ is_adopted_open f = false) →
  (sv_carried_contact_id sa ≠ "" → reports t ((key_pair k).1, ia) sa) →
  (sv_carried_contact_id sb ≠ "" → reports t ((key_pair k).2, ib) sb) →
  adopted_ok t {| ad_key := k; ad_info := adopted_link_info (key_pair k) (ia, ib) f type; ad_found := f |}.
Proof using Hne.
  intros Hb Hc Hk Ha Hsb. pose proof (Hne _ Hb) as Hp. split; try done.
  intros n name. unfold ad_carried. simpl. destruct f as [|c carried ms]; [by rewrite lookup_empty|].
  intros Hn. destruct (classified_origin _ _ _ Hp _ _ _ _ _ Hc Hn) as (Hname & s & Hs & Hsn).
  destruct Hs as [[-> ->]|[-> ->]].
  - exists ia, sa. rewrite end_terminals_1 by done. simpl. split_and!; [done|apply Ha; by rewrite Hsn|done].
  - exists ib, sb. rewrite end_terminals_2. simpl. split_and!; [done|apply Hsb; by rewrite Hsn|done].
Qed.

Lemma classified_covers p o ia ib sa sb i s :
  p.1 ≠ p.2 → classified p sa sb o → (i = (p.1, ia) ∧ s = sa) ∨ (i = (p.2, ib) ∧ s = sb) →
  sv_carried_contact_id s ≠ "" → ∃ f, o = Some f ∧ ∀ k type, key_pair k = p →
  covers {| ad_key := k; ad_info := adopted_link_info p (ia, ib) f type; ad_found := f |} i s.
Proof using Type.
  intros Hp Hc Hi Hs. destruct (classified_accounts p sa sb Hp o i.1 s Hc) as (f & -> & Hacc); [|done|].
  { destruct Hi as [[-> ->]|[-> ->]]; auto. }
  exists f. split; [done|]. intros k type Hk. split; [|done]. unfold ad_pair. cbn. rewrite Hk.
  destruct Hi as [[-> _]|[-> _]]; [by apply (end_terminals_1 p)|apply (end_terminals_2 p)].
Qed.

(** What one survey adds: contacts of pairs in [pairs], one per key, that account
    for everything the survey reported. *)
Definition adopts (pairs : gset node_pair) (st st' : Stages) (l : list Adopted) : Prop :=
  same_records st st' ∧ ∃ t, sg_trace st' = sg_trace st ++ t ∧
  NoDup (map ad_key l) ∧ (∀ a, a ∈ l → adopted_ok t a ∧ ad_pair a ∈ pairs) ∧
  ∀ i s, reports t i s → sv_carried_contact_id s ≠ "" → ∃ a, a ∈ l ∧ covers a i s.

Lemma adopts_nothing pairs st : adopts pairs st st [].
Proof.
  split; [done|]. exists []. rewrite app_nil_r. split_and!; [done|constructor|by intros ? ?%elem_of_nil|].
  intros i s (cmd & r & []%elem_of_nil & _).
Qed.

Lemma mapM_r_elem {A B} (f : A → result B) l l' y :
  mapM_r f l = Ok l' → y ∈ l' → ∃ x, x ∈ l ∧ f x = Ok y.
Proof.
  intros H%mapM_r_Forall2 [i Hi]%list_elem_of_lookup.
  destruct (Forall2_lookup_r _ _ _ _ _ H Hi) as (x & Hx & Hf). exists x. split; [|done].
  by eapply list_elem_of_lookup_2.
Qed.
Lemma mapM_r_elem_fwd {A B} (f : A → result B) l l' x :
  mapM_r f l = Ok l' → x ∈ l → ∃ y, y ∈ l' ∧ f x = Ok y.
Proof.
  intros H%mapM_r_Forall2 [i Hi]%list_elem_of_lookup.
  destruct (Forall2_lookup_l _ _ _ _ _ H Hi) as (y & Hy & Hf). exists y. split; [|done].
  by eapply list_elem_of_lookup_2.
Qed.

Lemma adopt_fixed_pair_spec reports p o :
  p.1 ≠ p.2 → adopt_fixed_pair dp reports p = Ok o →
  ∃ ia ib sa sb, interface_map !! p = Some (ia, ib) ∧ reports !! (p.1, ia) = Some sa ∧
    reports !! (p.2, ib) = Some sb ∧ ∃ o', classified p sa sb o' ∧
    o = (λ f, {| ad_key := Current p; ad_info := adopted_link_info p (ia, ib) f isl_link;
                 ad_found := f |}) <$> o'.
Proof using Type.
  intros Hp H. unfold adopt_fixed_pair, survey_of in H. rbind H as [ia ib] Hi. rbind H as sa Ha.
  rbind H as sb Hb. rbind H as o' Ho. injection H as <-. exists ia, ib, sa, sb. split_and!; try done.
  exists o'. split; [by apply classify_classified|]. by destruct o'.
Qed.

Lemma NoDup_map_omap {A B K} (f : A → result (option B)) (key : A → K) (key' : B → K) l l' :
  (∀ x y, x ∈ l → f x = Ok (Some y) → key' y = key x) → NoDup (map key l) →
  mapM_r f l = Ok l' → NoDup (map key' (omap id l')).
Proof.
  intros Hf Hnd H%mapM_r_Forall2. revert Hf Hnd. induction H as [|x y l l' Hx H IH]; intros Hf Hnd; [constructor|].
  inversion Hnd as [|? ? Hnx Hndl]; subst. specialize (IH (λ x y Hx, Hf x y (list_elem_of_further _ _ _ Hx)) Hndl).
  destruct y as [y|]; simpl; [|done]. constructor; [|done].
  intros (y' & Hy & Hin)%list_elem_of_fmap. apply Hnx.
  apply list_elem_of_omap in Hin as ([y2|] & Hin & E); [|done]. injection E as ->.
  apply list_elem_of_lookup in Hin as [i Hi]. destruct (Forall2_lookup_r _ _ _ _ _ H Hi) as (x' & Hx' & Hf').
  apply list_elem_of_lookup_2 in Hx'. apply list_elem_of_fmap. exists x'. split; [|done].
  rewrite <- (Hf x y) by (done || by left). rewrite Hy. apply Hf; [by right|done].
Qed.

Lemma adopt_fixed_adopts sim_iso st st' l :
  adopt_fixed dp env bounds_s sim_iso st = Ok (st', l) → adopts (fixed_pairs dp bounds_s) st st' l.
Proof using Hne.
  unfold adopt_fixed. case_bool_decide as He; [intros [= <- <-]; apply adopts_nothing|]. intros H.
  rbind H as r Hr. rguard H as Hs. rbind H as os Hos. injection H as <- <-. split; [done|].
  eexists. split; [done|].
  assert (∀ p, p ∈ fixed_pairs dp bounds_s → p.1 ≠ p.2 ∧ p ∈ dom bounds_s) as Hfix.
  { intros p [_ Hp]%elem_of_filter. auto. }
  assert (∀ p, p ∈ sorted_set npair_lt (fixed_pairs dp bounds_s) → p.1 ≠ p.2) as Hsort.
  { intros p Hp%elem_of_sorted_set. by apply Hfix. }
  split_and!.
  - eapply (NoDup_map_omap _ Current); [| |exact Hos].
    + intros p a Hp Ha. apply adopt_fixed_pair_spec in Ha as (ia & ib & sa & sb & _ & _ & _ & [f|] & _ & [= ->]);
        auto.
    + apply NoDup_fmap_2, NoDup_sorted_set. by intros ? ? [= ->].
  - intros a ([a'|] & Ha & E)%list_elem_of_omap; [|done]. injection E as ->.
    eapply mapM_r_elem in Ha as (p & Hp & Ha); [|exact Hos]. specialize (Hsort _ Hp). apply elem_of_sorted_set in Hp.
    apply adopt_fixed_pair_spec in Ha as (ia & ib & sa & sb & Hi & Hsa & Hsb & [f|] & Hc & [= ->]); [|done].
    split; [|done]. destruct (Hfix _ Hp) as [_ Hb].
    apply (classified_adopted _ (Current p) ia ib isl_link f sa sb); [done|exact Hc|done|..]; intros _;
      (eexists _, _; split; [by left|]; split; [exists p, ia, ib; auto|done]).
  - intros i s (cmd & r' & Hin%list_elem_of_singleton & Hask & Hrep) Hname. injection Hin as -> ->.
    destruct Hask as (p & ia & ib & Hp & Hi & Hend). destruct (Hfix _ Hp) as [Hpne Hb].
    eapply (mapM_r_elem_fwd _ _ _ p) in Hos as (o & Ho & Ha); [|by apply elem_of_sorted_set].
    apply adopt_fixed_pair_spec in Ha as (ia' & ib' & sa & sb & Hi' & Hsa & Hsb & o' & Hc & ->); [|done].
    rewrite Hi in Hi'. injection Hi' as <- <-.
    destruct (classified_covers p o' ia ib sa sb i s) as (f & -> & Hcov); [done..| |done|].
    { destruct Hend as [-> | ->]; [left|right]; split; congruence. }
    eexists. split; [apply list_elem_of_omap; by eexists|]. by apply Hcov.
Qed.

(** *** Ground passes *)

(** The passes built of the ends seen so far: each carrying end is in the pass of
    its contact, and a pass holds nothing else. *)
Record passes_ok (pre : list (Iface * EndSurvey)) (passes : Passes) : Prop := {
  po_wf : dict_wf passes;
  po_all : ∀ i s, (i, s) ∈ pre → sv_carried_contact_id s ≠ "" → ∃ p pass,
    dict_get (p, sv_carried_contact_id s) passes = Some pass ∧ (i.1 = p.1 ∨ i.1 = p.2) ∧
    gp_interfaces pass !! i.1 = Some i.2 ∧ gp_surveys pass !! i.1 = Some s;
  po_only : ∀ p name pass n s, dict_get (p, name) passes = Some pass → gp_surveys pass !! n = Some s →
    sv_carried_contact_id s = name ∧ name ≠ "" ∧
    ∃ i, gp_interfaces pass !! n = Some i ∧ ((n, i), s) ∈ pre;
}.

Lemma ordered_pair_mem (n m : string) : n = (ordered_pair n m).1 ∨ n = (ordered_pair n m).2.
Proof using Type. unfold ordered_pair. destruct (str_lt m n); auto. Qed.

Lemma join_interfaces (old : gmap string string) n i peer j :
  default i (old !! n) = i →
  let joined := <[n := i]> old in
  let joined := match joined !! peer with Some _ => joined | None => <[peer := j]> joined end in
  joined !! n = Some i ∧ ∀ m x, old !! m = Some x → joined !! m = Some x.
Proof using Type.
  intros Hd joined. subst joined. cbv zeta.
  assert (∀ m x, old !! m = Some x → <[n := i]> old !! m = Some x) as Hold.
  { intros m x Hm. destruct (decide (n = m)) as [->|Hn]; [|by rewrite lookup_insert_ne].
    rewrite Hm in Hd. simpl in Hd. by rewrite Hd, lookup_insert_eq. }
  destruct (<[n := i]> old !! peer) eqn:E; [split; [apply lookup_insert_eq|done]|].
  assert (∀ m x, <[n := i]> old !! m = Some x → <[peer := j]> (<[n := i]> old) !! m = Some x) as Hpeer.
  { intros m x Hm. rewrite lookup_insert_ne; [done|]. congruence. }
  split; [apply Hpeer, lookup_insert_eq|auto].
Qed.

Lemma join_pass_ok pre x passes passes' :
  (∀ s, (x.1, s) ∉ pre) → passes_ok pre passes → join_pass passes x = Ok passes' →
  passes_ok (pre ++ [x]) passes'.
Proof using Type.
  clear Hne. destruct x as [[n i] s]. cbn [fst]. intros Hnew [Hwf Hall Honly] H. unfold join_pass in H.
  destruct (bool_decide_reflect (sv_carried_contact_id s = "")) as [He|He].
  { injection H as <-. split; [done| |].
    - intros i' s' [Hin|Hin]%elem_of_app Hs'; [by apply Hall|]. apply list_elem_of_singleton in Hin. naive_solver.
    - intros p name pass m s' Hp Hm. destruct (Honly p name pass m s' Hp Hm) as (? & ? & j & ? & ?).
      split_and!; [done..|]. exists j. split; [done|set_solver]. }
  rbind H as [peer pi] Hpeer. rguard H as Hd. injection H as <-.
  set (key := (ordered_pair n peer, sv_carried_contact_id s)) in *.
  set (pass := default no_ends (dict_get key passes)) in *.
  destruct (join_interfaces (gp_interfaces pass) n i peer pi Hd) as [Hn Hold]. cbv zeta in Hn, Hold.
  set (joined := match _ with Some _ => _ | None => _ end) in *.
  assert (∀ q name pass0, dict_get (q, name) passes = Some pass0 → (q, name) = key → pass = pass0) as Hkey.
  { intros q name pass0 Hq E. rewrite E in Hq. unfold pass. by rewrite Hq. }
  assert (gp_surveys pass !! n = None) as Hfresh.
  { destruct (gp_surveys pass !! n) as [s0|] eqn:E; [|done]. exfalso. unfold pass in E, Hd.
    destruct (dict_get key passes) as [pass0|] eqn:Ek; [|done]. simpl in E, Hd.
    destruct (Honly _ _ _ _ _ Ek E) as (_ & _ & j & Hj & Hin). rewrite Hj in Hd. simpl in Hd. subst j.
    by apply (Hnew s0). }
  split; [by apply dict_set_wf| |].
  - intros i' s' Hin Hs'. apply elem_of_app in Hin as [Hin|Hin].
    + destruct (Hall i' s' Hin Hs') as (q & pass0 & Hq & Hm & Hi & Hsv). exists q.
      rewrite dict_get_set. destruct (decide _) as [E|E]; [|eauto 10]. eexists. split; [done|]. simpl.
      rewrite (Hkey q _ pass0 Hq E) in *. split; [done|]. split; [by apply Hold|].
      rewrite lookup_insert_ne; [done|]. intros ->. congruence.
    + apply list_elem_of_singleton in Hin. injection Hin as -> ->. exists (ordered_pair n peer).
      fold key. rewrite dict_get_set, decide_True by done. eexists. split; [done|]. simpl.
      split; [apply ordered_pair_mem|]. split; [done|apply lookup_insert_eq].
  - intros q name pass0 m s' Hq Hm. rewrite dict_get_set in Hq. destruct (decide _) as [E|E].
    + injection Hq as <-. simpl in *. destruct (decide (n = m)) as [<-|Hnm].
      * rewrite lookup_insert_eq in Hm. injection Hm as <-. injection E as -> ->. split_and!; [done..|].
        exists i. split; [done|set_solver].
      * rewrite lookup_insert_ne in Hm by done. unfold pass in Hm, Hold.
        destruct (dict_get key passes) as [pass0|] eqn:Ek; [|done]. simpl in *.
        destruct (Honly _ _ _ _ _ Ek Hm) as (? & ? & j & Hj & Hin). injection E as -> ->.
        split_and!; [done..|]. exists j. split; [by apply Hold|set_solver].
    + destruct (Honly _ _ _ _ _ Hq Hm) as (? & ? & j & Hj & Hin). split_and!; [done..|].
      exists j. split; [done|set_solver].
Qed.

Lemma ground_contacts_ok reports passes :
  ground_contacts reports = Ok passes → passes_ok (sorted_items iface_lt reports) passes.
Proof using Type.
  unfold ground_contacts. intros H. refine (foldM_prefix passes_ok _ _ _ _ _ _ H).
  - intros pre x post s s' Hl Hs Hx. eapply join_pass_ok; [|exact Hs|exact Hx].
    intros sv Hin. destruct x as [i sx].
    assert (NoDup (map fst (sorted_items iface_lt reports))) as Hnd.
    { unfold sorted_items. rewrite sorted_perm. apply NoDup_fst_map_to_list. }
    rewrite Hl, map_app in Hnd. apply NoDup_app in Hnd as (_ & Hnd & _). apply (Hnd i); [|by left].
    apply list_elem_of_fmap. by exists (i, sv).
  - split; [apply dict_wf_nil|by intros ? ? ?%elem_of_nil|done].
Qed.

(** A classified pass, as the adopted contact it becomes under a key of its pair. *)
Abbreviation Item := (node_pair * (ActiveLinkInfo * Found))%type.
Definition as_adopted (k : RecordKey) (v : ActiveLinkInfo * Found) : Adopted :=
  {| ad_key := k; ad_info := v.1; ad_found := v.2 |}.
Definition item_cid (v : ActiveLinkInfo * Found) : string := Contact_contact_id (found_contact v.2).
Definition fits (y : Item) (k : RecordKey) : Prop :=
  key_pair k = y.1 ∧ ∀ p cid, k = Earlier p cid → cid = item_cid y.2 ∧ is_adopted_open y.2.2 = false.

Lemma classify_pass_spec t reps passes p name pass y :
  passes_ok (sorted_items iface_lt reps) passes → dict_get (p, name) passes = Some pass →
  (∀ i s, reps !! i = Some s → reports t i s) →
  classify_pass dp bounds_s ((p, name), pass) = Ok y →
  y.1 = p ∧ p ∈ ground_pairs dp bounds_s ∧ item_cid y.2 = name ∧
  (∀ k, fits y k → adopted_ok t (as_adopted k y.2)) ∧
  ∀ i s, (i.1 = p.1 ∨ i.1 = p.2) → gp_interfaces pass !! i.1 = Some i.2 → gp_surveys pass !! i.1 = Some s →
    sv_carried_contact_id s ≠ "" → ∀ k, key_pair k = p → covers (as_adopted k y.2) i s.
Proof using Hne.
  intros [_ _ Honly] Hg Hrep H. unfold classify_pass in H. rguard H as Hp. rbind H as o Ho. rbind H as ia Hia.
  rbind H as ib Hib. rbind H as f Hf. injection H as <-. subst o. cbn [fst snd].
  assert (p ∈ dom bounds_s) as Hb by (unfold ground_pairs in Hp; set_solver). pose proof (Hne _ Hb) as Hpne.
  apply classify_classified in Ho; [|done].
  assert (∀ n s, default no_contact (gp_surveys pass !! n) = s → sv_carried_contact_id s ≠ "" →
    gp_surveys pass !! n = Some s) as Hdef.
  { intros n s <- Hs. by destruct (gp_surveys pass !! n). }
  assert (∀ n i, gp_interfaces pass !! n = Some i →
    sv_carried_contact_id (default no_contact (gp_surveys pass !! n)) ≠ "" →
    reports t (n, i) (default no_contact (gp_surveys pass !! n))) as Hend.
  { intros n i Hi Hs. apply Hrep. apply (Hdef n _ eq_refl) in Hs.
    destruct (Honly _ _ _ _ _ Hg Hs) as (_ & _ & i' & Hi' & Hin). rewrite Hi in Hi'. injection Hi' as <-.
    by apply elem_of_sorted_items in Hin. }
  split_and!; [done|done| | |].
  - destruct (classified_name _ _ _ Hpne _ Ho) as (s & Hs & Hid & Hn). unfold item_cid. cbn [snd]. rewrite <- Hid.
    assert (∃ n, gp_surveys pass !! n = Some s) as [n Hsn].
    { destruct Hs as [-> | ->]; eexists; by apply Hdef. }
    by destruct (Honly _ _ _ _ _ Hg Hsn).
  - intros k [Hk He]. cbn [fst] in Hk. unfold as_adopted. cbn. rewrite <- Hk.
    eapply classified_adopted; [by rewrite Hk|rewrite Hk; exact Ho|done|..]; rewrite Hk; by apply Hend.
  - intros i s Hi Hif Hsv Hname k Hk.
    destruct (classified_covers p (Some f) ia ib _ _ i s Hpne Ho) as (f' & [= <-] & Hcov); [|done|by apply Hcov].
    destruct i as [n j]. cbn [fst snd] in *.
    destruct Hi as [-> | ->]; [left|right]; (split; [congruence|by rewrite Hsv]).
Qed.

(** Grouping keeps each pair's passes. *)
Lemma group_passes_from (items : list Item) m p :
  default [] (fold_left (λ (m : gmap node_pair _) x, <[x.1 := default [] (m !! x.1) ++ [x.2]]> m) items m !! p) =
  default [] (m !! p) ++ map snd (List.filter (λ x, bool_decide (x.1 = p)) items).
Proof using Type.
  clear Hne. revert m. induction items as [|x items IH]; intros m; simpl; [by rewrite app_nil_r|].
  rewrite IH. case_bool_decide as E.
  - subst p. rewrite lookup_insert_eq. simpl. by rewrite <- app_assoc.
  - by rewrite lookup_insert_ne.
Qed.

Lemma group_passes_spec items p l :
  (p, l) ∈ sorted_items npair_lt (group_passes items) →
  l = map snd (List.filter (λ x, bool_decide (x.1 = p)) items).
Proof using Type.
  clear Hne. rewrite elem_of_sorted_items. intros H. pose proof (group_passes_from items ∅ p) as Hg.
  fold (group_passes items) in Hg. by rewrite H, lookup_empty in Hg.
Qed.

Lemma group_passes_elem items p v :
  (p, v) ∈ items → ∃ l, (p, l) ∈ sorted_items npair_lt (group_passes items) ∧ v ∈ l.
Proof using Type.
  clear Hne. intros Hin. setoid_rewrite elem_of_sorted_items.
  pose proof (group_passes_from items ∅ p) as Hg. fold (group_passes items) in Hg. rewrite lookup_empty in Hg.
  simpl in Hg. assert (v ∈ map snd (List.filter (λ x : Item, bool_decide (x.1 = p)) items)) as Hv.
  { apply list_elem_of_fmap. exists (p, v). split; [done|]. apply in_filter_bool. split; [done|].
    by apply bool_decide_eq_true. }
  rewrite <- Hg in Hv. destruct (group_passes items !! p) as [l|]; [by exists l|by apply elem_of_nil in Hv].
Qed.

Lemma adopt_passes_spec p l ads :
  adopt_passes (p, l) = Ok ads → NoDup (map item_cid l) →
  NoDup (map ad_key ads) ∧
  (∀ a, a ∈ ads → ∃ v, v ∈ l ∧ a = as_adopted (ad_key a) v ∧ fits (p, v) (ad_key a)) ∧
  (∀ v, v ∈ l → ∃ k, key_pair k = p ∧ as_adopted k v ∈ ads).
Proof using Type.
  clear Hne. unfold adopt_passes. cbn [fst snd]. intros H Hnd. rbind H as [info found] Hl. rbind H as earlier He.
  injection H as <-. apply last_Some in Hl as [l' Hl].
  assert (∀ v, v ∈ l ↔ v ∈ l' ∨ v = (info, found)) as Hin.
  { intros v. rewrite <- (elem_of_sorted (λ a b, contact_lt (found_contact a.2) (found_contact b.2))), Hl.
    rewrite elem_of_app, list_elem_of_singleton. done. }
  assert (NoDup (map item_cid l')) as Hnd'.
  { rewrite <- (sorted_perm (λ a b, contact_lt (found_contact a.2) (found_contact b.2)) l), Hl, map_app in Hnd.
    by apply NoDup_app in Hnd as [Hnd _]. }
  rewrite Hl, removelast_last in He. clear Hl Hnd.
  assert (Forall2 (λ v a, is_adopted_open v.2 = false ∧ a = as_adopted (Earlier p (item_cid v)) v) l' earlier) as HF.
  { apply mapM_r_Forall2 in He. eapply Forall2_impl; [exact He|]. intros [i f] a Ha. simpl in Ha.
    rguard Ha as Hop. by injection Ha as <-. }
  clear He. split_and!.
  - simpl. constructor.
    + intros (a & Hk & Ha)%list_elem_of_fmap. apply list_elem_of_lookup in Ha as [i Hi].
      destruct (Forall2_lookup_r _ _ _ _ _ HF Hi) as (v & _ & _ & ->). done.
    + assert (map ad_key earlier = map (λ v, Earlier p (item_cid v)) l') as ->.
      { clear -HF. induction HF as [|v a l' e [_ ->] HF IH]; [done|]. simpl. by rewrite IH. }
      rewrite <- (map_map item_cid (Earlier p)). apply NoDup_fmap_2; [by intros ? ? [= ->]|done].
  - intros a [->|Ha]%elem_of_cons.
    + exists (info, found). split; [apply Hin; auto|]. split; [done|]. by split.
    + apply list_elem_of_lookup in Ha as [i Hi]. destruct (Forall2_lookup_r _ _ _ _ _ HF Hi) as (v & Hv & Ho & ->).
      exists v. split; [apply Hin; left; by eapply list_elem_of_lookup_2|]. split; [done|].
      split; [done|]. by intros q cid [= <- <-].
  - intros v [Hv| ->]%Hin.
    + apply list_elem_of_lookup in Hv as [i Hi]. destruct (Forall2_lookup_l _ _ _ _ _ HF Hi) as (a & Ha & _ & ->).
      exists (Earlier p (item_cid v)). split; [done|]. right. by eapply list_elem_of_lookup_2.
    + exists (Current p). split; [done|]. by left.
Qed.

Lemma Forall2_impl_elem {A B} (P Q : A → B → Prop) l l' :
  Forall2 P l l' → (∀ x y, x ∈ l → P x y → Q x y) → Forall2 Q l l'.
Proof using Type.
  clear Hne. induction 1 as [|x y l l' Hp HF IH]; intros HQ; constructor; [by apply HQ; [left|]|].
  apply IH. intros x' y' Hx. apply HQ. by right.
Qed.

Lemma NoDup_concat_keys {X} (xs : list (node_pair * X)) (ls : list (list Adopted)) :
  Forall2 (λ x l, NoDup (map ad_key l) ∧ ∀ a, a ∈ l → ad_pair a = x.1) xs ls → NoDup (map fst xs) →
  NoDup (map ad_key (concat ls)).
Proof using Type.
  clear Hne. induction 1 as [|x l xs ls [Hl Hk] HF IH]; intros Hnd; simpl; [constructor|].
  inversion Hnd as [|? ? Hx Hnd']; subst. rewrite map_app. apply NoDup_app. split_and!; [done| |by apply IH].
  intros k (a & -> & Ha)%list_elem_of_fmap (b & Hb & (l' & Hl' & Hin)%list_elem_of_In%in_concat)%list_elem_of_fmap.
  apply Hx. apply list_elem_of_In, list_elem_of_lookup in Hl' as [i Hi].
  destruct (Forall2_lookup_r _ _ _ _ _ HF Hi) as (y & Hy & _ & Hky).
  apply list_elem_of_fmap. exists y. split; [|by eapply list_elem_of_lookup_2].
  rewrite <- (Hky b) by by apply list_elem_of_In. rewrite <- (Hk a Ha). unfold ad_pair. by rewrite Hb.
Qed.

Lemma items_NoDup (passes : Passes) (items : list Item) p :
  dict_wf passes → Forall2 (λ x y, y.1 = x.1.1 ∧ item_cid y.2 = x.1.2) passes items →
  NoDup (map item_cid (map snd (List.filter (λ x, bool_decide (x.1 = p)) items))).
Proof using Type.
  clear Hne. intros Hwf HF.
  assert (map (λ y : Item, (y.1, item_cid y.2)) items = dict_keys passes) as Hk.
  { clear Hwf. unfold dict_keys. induction HF as [|[[q n] x] y passes items [H1 H2] HF IH]; [done|]. simpl in *.
    by rewrite H1, H2, IH. }
  unfold dict_wf in Hwf. rewrite <- Hk in Hwf. apply (NoDup_map_filter _ (λ x, bool_decide (x.1 = p))) in Hwf.
  apply (NoDup_fmap_1 (pair p)).
  assert (map (pair p) (map item_cid (map snd (List.filter (λ x : Item, bool_decide (x.1 = p)) items))) =
          map (λ y : Item, (y.1, item_cid y.2)) (List.filter (λ x, bool_decide (x.1 = p)) items)) as E;
    [|by rewrite <- E in Hwf].
  clear. induction items as [|y items IH]; [done|]. simpl. case_bool_decide as E; [|done]. simpl. by rewrite IH, E.
Qed.

Lemma adopt_ground_adopts sim_iso st st' l :
  adopt_ground dp env bounds_s sim_iso st = Ok (st', l) → adopts (ground_pairs dp bounds_s) st st' l.
Proof using Hne.
  unfold adopt_ground. case_bool_decide as He; [intros [= <- <-]; apply adopts_nothing|]. intros H.
  rbind H as r Hr. rguard H as Hs. rbind H as passes Hp. rbind H as items Hi. rbind H as ads Ha.
  injection H as <- <-. split; [done|]. eexists. split; [done|].
  set (t := [(CmdSurveyTerminals _, r)]). apply ground_contacts_ok in Hp as Hok.
  assert (∀ i s, surveys r !! i = Some s → reports t i s) as Hrep.
  { intros i s Hsv. eexists _, _. split; [by left|done]. }
  assert (∀ x y, x ∈ passes → classify_pass dp bounds_s x = Ok y → y.1 = x.1.1 ∧ y.1 ∈ ground_pairs dp bounds_s ∧
    item_cid y.2 = x.1.2 ∧ ∀ k, fits y k → adopted_ok t (as_adopted k y.2)) as Hpass.
  { intros [[p name] pass] y Hx Hy. pose proof (dict_in_get _ _ _ (po_wf _ _ Hok) Hx) as Hg.
    destruct (classify_pass_spec t _ _ _ _ _ _ Hok Hg Hrep Hy) as (-> & ? & ? & ? & _). auto. }
  apply mapM_r_Forall2 in Hi as HFi. apply mapM_r_Forall2 in Ha as HFa.
  assert (∀ p l, (p, l) ∈ sorted_items npair_lt (group_passes items) → NoDup (map item_cid l)) as Hnd.
  { intros p l' ->%group_passes_spec. eapply (items_NoDup passes); [apply (po_wf _ _ Hok)|].
    eapply Forall2_impl_elem; [exact HFi|]. intros x y Hx Hy. destruct (Hpass x y Hx Hy) as (? & _ & ? & _). auto. }
  assert (∀ p l v, (p, l) ∈ sorted_items npair_lt (group_passes items) → v ∈ l → (p, v) ∈ items) as Hback.
  { intros p l' v ->%group_passes_spec ([q v'] & -> & [Hin Hq]%in_filter_bool)%list_elem_of_fmap.
    by apply bool_decide_eq_true in Hq as <-. }
  split_and!.
  - eapply NoDup_concat_keys.
    + eapply Forall2_impl_elem; [exact HFa|]. intros [p l'] ads' Hx Hads.
      destruct (adopt_passes_spec p l' ads' Hads (Hnd p l' Hx)) as (H1 & H2 & _). split; [done|].
      intros a Hin. by destruct (H2 a Hin) as (v & _ & _ & [Hk _]).
    + unfold sorted_items. rewrite sorted_perm. apply NoDup_fst_map_to_list.
  - intros a (ads' & Hads & Hin)%list_elem_of_In%in_concat. apply list_elem_of_In in Hads, Hin.
    destruct (mapM_r_elem _ _ _ _ Ha Hads) as ([p l'] & Hx & Hap).
    destruct (adopt_passes_spec p l' ads' Hap (Hnd p l' Hx)) as (_ & H2 & _).
    destruct (H2 a Hin) as (v & Hv & -> & Hfit). specialize (Hback _ _ _ Hx Hv).
    destruct (mapM_r_elem _ _ _ _ Hi Hback) as (x & Hxp & Hy).
    destruct (Hpass x _ Hxp Hy) as (_ & Hg & _ & Hall). split; [by apply Hall|].
    destruct Hfit as [Hk _]. unfold ad_pair. simpl in *. by rewrite Hk.
  - intros i s (cmd & r' & Hin%list_elem_of_singleton & _ & Hsv) Hname. injection Hin as -> ->.
    destruct (po_all _ _ Hok i s) as (p & pass & Hg & Hm & Hif & Hss); [by apply elem_of_sorted_items|done|].
    pose proof (dict_get_in _ _ _ Hg) as Hin. destruct (mapM_r_elem_fwd _ _ _ _ Hi Hin) as (y & Hy & Hc).
    destruct (classify_pass_spec t _ _ _ _ _ _ Hok Hg Hrep Hc) as (Hyp & _ & _ & _ & Hcov).
    destruct y as [q v]. simpl in Hyp. subst q. apply group_passes_elem in Hy as (l' & Hx & Hv).
    destruct (mapM_r_elem_fwd _ _ _ _ Ha Hx) as (ads' & Hads & Hap).
    destruct (adopt_passes_spec p l' ads' Hap (Hnd p l' Hx)) as (_ & _ & H3).
    destruct (H3 v Hv) as (k & Hk & Hka). exists (as_adopted k v). split; [|by apply Hcov].
    apply list_elem_of_In, in_concat. exists ads'. by rewrite <- !list_elem_of_In.
Qed.
End Adoption.

(** ** Recovery *)

#[global] Instance record_key_eq_dec : EqDecision RecordKey.
Proof. solve_decision. Defined.

Lemma record_put st k info k' :
  record (put_record st k info) k' = if decide (k' = k) then Some info else record st k'.
Proof.
  destruct k as [p|p cid], k' as [q|q c]; case_decide; simplify_eq;
    simpl; unfold sg_actual; simpl; rewrite ?lookup_insert_eq, ?lookup_insert_ne by congruence; done.
Qed.

Lemma record_keep st a k :
  record (keep_adopted st a) k = if decide (k = ad_key a) then Some (ad_info a) else record st k.
Proof.
  unfold keep_adopted. destruct (ad_key a) as [p|p cid], k as [q|q c]; case_decide; simplify_eq;
    simpl; unfold sg_actual; simpl;
    rewrite ?lookup_insert_eq, ?lookup_insert_ne by congruence; done.
Qed.

Lemma keep_all_other l st k :
  k ∉ map ad_key l → record (fold_left keep_adopted l st) k = record st k.
Proof.
  revert st. induction l as [|a l IH]; intros st Hk; simpl; [done|]. apply not_elem_of_cons in Hk as [Hk Hl].
  by rewrite IH, record_keep, decide_False.
Qed.

Lemma keep_all_record l st a :
  NoDup (map ad_key l) → a ∈ l → record (fold_left keep_adopted l st) (ad_key a) = Some (ad_info a).
Proof.
  revert st. induction l as [|b l IH]; intros st Hnd Ha; simpl; [by apply elem_of_nil in Ha|].
  inversion Hnd as [|? ? Hb Hl]; subst. apply elem_of_cons in Ha as [->|Ha]; [|by apply IH].
  by rewrite keep_all_other, record_keep, decide_True.
Qed.

Lemma keep_all_same l st :
  sg_trace (fold_left keep_adopted l st) = sg_trace st ∧ sg_desired (fold_left keep_adopted l st) = sg_desired st.
Proof.
  revert st. induction l as [|a l IH]; intros st; [done|]. simpl. destruct (IH (keep_adopted st a)) as [-> ->].
  unfold keep_adopted. by destruct (ad_key a).
Qed.

(** Two adopted contacts that share a terminal name the same contact there. *)
Definition names_agree (l : list Adopted) : Prop :=
  ∀ a b n i x y, a ∈ l → b ∈ l → ad_carried a !! n = Some x → ad_carried b !! n = Some y →
    end_terminals (ad_pair a) (ad_info a) !! n = Some i →
    end_terminals (ad_pair b) (ad_info b) !! n = Some i → x = y.

Lemma recover_names_lookup batch names a n i name :
  recover_names batch = Ok names → names_agree batch → a ∈ batch → ad_carried a !! n = Some name →
  end_terminals (ad_pair a) (ad_info a) !! n = Some i → names !! (n, i) = Some name.
Proof.
  intros H Hag Ha Hn Hi. unfold recover_names in H. rbind H as ns Hns. injection H as <-.
  assert (∀ b x l, b ∈ batch → end_names b = Ok l → (n, i, x) ∈ l ↔
    ad_carried b !! n = Some x ∧ end_terminals (ad_pair b) (ad_info b) !! n = Some i) as Hend.
  { intros b x l _ Hl. unfold end_names in Hl. split.
    - intros Hin. destruct (mapM_r_elem _ _ _ _ Hl Hin) as ([m y] & Hm & Hy). rbind Hy as j Hj.
      injection Hy as -> -> ->. by apply elem_of_map_to_list in Hm.
    - intros [Hx Hj]. destruct (mapM_r_elem_fwd _ _ _ (n, x) Hl) as (y & Hy & Hf);
        [by apply elem_of_map_to_list|]. rewrite Hj in Hf. by injection Hf as <-. }
  apply elem_of_list_to_map_1'.
  - intros y (l & Hl & Hin)%list_elem_of_In%in_concat. apply list_elem_of_In in Hl, Hin.
    destruct (mapM_r_elem _ _ _ _ Hns Hl) as (b & Hb & Hbl). destruct (proj1 (Hend b y l Hb Hbl) Hin) as [Hby Hbj].
    by apply (Hag a b n i).
  - destruct (mapM_r_elem_fwd _ _ _ a Hns) as (l & Hl & Hal); [done|].
    apply list_elem_of_In, in_concat. exists l. rewrite <- !list_elem_of_In. split; [done|].
    by apply (Hend a name l).
Qed.

Lemma recover_drain_ends p info carried mono wall bound d :
  recover_drain p info carried mono wall bound = Ok d →
  dr_ends d ≠ [] ∧ ∀ n name, carried !! n = Some name → ∃ e i, e ∈ dr_ends d ∧
    end_terminals p info !! n = Some i ∧ (de_node_id e, de_interface e) = (n, i) ∧
    de_contact_id e = name ∧ de_close_due e = fadd mono bound.
Proof.
  unfold recover_drain. intros H. rguard H as Hg. rbind H as ends He. injection H as <-. simpl.
  apply orb_false_iff in Hg as [Hg1 Hg2]. apply bool_decide_eq_false in Hg1.
  apply negb_false_iff, bool_decide_eq_true in Hg2.
  assert (∀ n name, carried !! n = Some name → ∃ e i, e ∈ ends ∧
    end_terminals p info !! n = Some i ∧ (de_node_id e, de_interface e) = (n, i) ∧
    de_contact_id e = name ∧ de_close_due e = fadd mono bound) as Hall.
  { intros n name Hn. destruct (mapM_r_elem_fwd _ _ _ n He) as (e & Hin & Hf).
    - apply in_filter_bool. rewrite Hn. split; [|done]. apply elem_of_dom_2 in Hn. set_solver.
    - rbind Hf as i Hi. rbind Hf as w Hw. rbind Hf as u Hu. rbind Hf as cid Hc. injection Hf as <-.
      exists {| de_node_id := n; de_interface := i; de_close_due := fadd mono bound; de_receives_until := u;
                de_contact_id := cid |}, i. split_and!; try done. simpl. congruence. }
  split; [|done]. apply map_choose in Hg1 as (n & name & Hn).
  destruct (Hall n name Hn) as (e & i & Hin & _). intros ->. by apply elem_of_nil in Hin.
Qed.

Lemma record_stage_losses_eq r p info stage info' :
  record_stage_losses r p info stage = Ok info' → ∃ losses, info' = with_stage_losses info losses.
Proof.
  unfold record_stage_losses. generalize (pair_losses r p info) as l. intros l H.
  refine (foldM_inv (λ i, ∃ losses, i = with_stage_losses info losses) _ l _ _ _ _ H).
  - intros i x i' _ [ls ->] Hx. rbind Hx as s Hs. injection Hx as <-. by eexists.
  - exists (stage_losses info). by destruct info.
Qed.

Lemma recover_ends_lookup batch a :
  NoDup (map ad_pair batch) → a ∈ batch → recover_ends batch !! ad_pair a = Some (dom (ad_carried a)).
Proof.
  unfold recover_ends. generalize (∅ : gmap node_pair (gset string)) as m.
  induction batch as [|b batch IH]; intros m Hnd Ha; [by apply elem_of_nil in Ha|]. simpl.
  inversion Hnd as [|? ? Hb Hnd']; subst. apply elem_of_cons in Ha as [->|Ha]; [|by apply IH].
  assert (∀ m : gmap node_pair (gset string), m !! ad_pair b = Some (dom (ad_carried b)) →
    fold_left (λ m a, <[ad_pair a := dom (ad_carried a)]> m) batch m !! ad_pair b = Some (dom (ad_carried b))) as Hkeep.
  { clear -Hb. induction batch as [|c batch IH]; intros m Hm; [done|]. simpl.
    apply not_elem_of_cons in Hb as [Hc Hb]. apply IH; [done|]. by rewrite lookup_insert_ne. }
  apply Hkeep, lookup_insert_eq.
Qed.

Lemma recover_links_dom st batch links a :
  recover_links st batch = Ok links → a ∈ batch → ad_pair a ∈ dom links.
Proof.
  intros H. refine (foldM_prefix (λ pre (m : Links), a ∈ pre → ad_pair a ∈ dom m) _ _ _ _ _ _ H);
    [|by intros ?%elem_of_nil].
  intros pre b post m m' _ Hm Hb. rbind Hb as info Hi. injection Hb as <-. rewrite dom_insert.
  intros [Ha|Ha]%elem_of_app; [set_solver|]. apply list_elem_of_singleton in Ha as ->. set_solver.
Qed.

Section Recovery.
Context (dp : Deployment) (env : Env) (bounds_s : gmap node_pair float).

(** The stop a recovered contact drains from: acknowledged for its pair, it named
    the contact each carrying end carries, and each such end closes after the
    link's longest delay, counted from the acknowledgement. *)
Definition stop_proven (t : Trace) (a : Adopted) (d : Drain) : Prop :=
  ∃ pre ends names links r bound, let now := pre ++ [(CmdRecover ends names links, r)] in
    now `prefix_of` t ∧ ad_pair a ∈ succeeded_pairs r ∧
    ends !! ad_pair a = Some (dom (ad_carried a)) ∧ bounds_s !! ad_pair a = Some bound ∧
    ∀ n name, ad_carried a !! n = Some name → ∃ e i, e ∈ dr_ends d ∧
      end_terminals (ad_pair a) (ad_info a) !! n = Some i ∧ names !! (n, i) = Some name ∧
      (de_node_id e, de_interface e) = (n, i) ∧ de_contact_id e = name ∧
      de_close_due e = fadd (se_monotonic env now 0) bound.

Definition recovered (t : Trace) (a : Adopted) (info : ActiveLinkInfo) : Prop :=
  contact info = contact (ad_info a) ∧
  end_terminals (ad_pair a) info = end_terminals (ad_pair a) (ad_info a) ∧
  ∃ d, drain info = Some d ∧ dr_ends d ≠ [] ∧ stop_proven t a d.

Lemma recovered_prefix t t' a info : t `prefix_of` t' → recovered t a info → recovered t' a info.
Proof.
  intros Ht (Hc & He & d & Hd & Hne & pre & ends & names & links & r & bound & Hp & H).
  split_and!; [done..|]. exists d. split_and!; [done..|]. exists pre, ends, names, links, r, bound.
  split; [by etrans|done].
Qed.

Lemma recover_batch_spec sim_iso when st batch st' :
  NoDup (map ad_key batch) → NoDup (map ad_pair batch) → names_agree batch →
  (∀ a, a ∈ batch → record st (ad_key a) = Some (ad_info a)) →
  recover_batch dp env bounds_s sim_iso when st batch = Ok st' →
  (∃ ends names links r, sg_trace st' = sg_trace st ++ [(CmdRecover ends names links, r)]) ∧
  sg_desired st' = sg_desired st ∧
  (∀ k, k ∉ map ad_key batch → record st' k = record st k) ∧
  ∀ a, a ∈ batch → ∃ info, record st' (ad_key a) = Some info ∧ recovered (sg_trace st') a info.
Proof.
  intros Hnd Hndp Hag Hrec H. unfold recover_batch in H. rbind H as links Hl. rbind H as names Hn.
  rbind H as [stopped downs] Hs. rguard H as Hok.
  set (st1 := publish (sent st (CmdRecover (recover_ends batch) names links) stopped) (map EvDown downs)) in *.
  set (mono := se_monotonic env (sg_trace st1) 0) in *. set (wall := se_now env (sg_trace st1)) in *.
  set (J := λ pre s, sg_trace s = sg_trace st1 ∧ sg_desired s = sg_desired st ∧
    (∀ k, k ∉ map ad_key pre → record s k = record st k) ∧
    ∀ a, a ∈ pre → ∃ info, record s (ad_key a) = Some info ∧ recovered (sg_trace st1) a info).
  assert (J batch st') as (Ht & Hd & Ho & Hr).
  { refine (foldM_prefix J _ _ _ _ _ _ H); [|split_and!; try done; by intros ? ?%elem_of_nil].
    intros pre a post s s' Hb (Ht & Hd & Ho & Hr) Hx. unfold start_recovery in Hx.
    assert (ad_key a ∉ map ad_key pre) as Hfresh.
    { rewrite Hb, map_app in Hnd. apply NoDup_app in Hnd as (_ & Hdis & _). intros Hin.
      apply (Hdis _ Hin). by left. }
    assert (a ∈ batch) as Hab by (rewrite Hb; set_solver).
    rbind Hx as info Hi. unfold the_record in Hi. rewrite Ho, Hrec in Hi by done. cbn in Hi. injection Hi as <-.
    rbind Hx as info1 Hi1. apply record_stage_losses_eq in Hi1 as [losses ->].
    rbind Hx as bound Hbound. rbind Hx as d Hdr. injection Hx as <-. apply recover_drain_ends in Hdr as [Hne Hends].
    split_and!.
    - by destruct (ad_key a).
    - by destruct (ad_key a).
    - intros k Hk. rewrite map_app in Hk. rewrite record_put. destruct (decide _) as [->|_];
        [|apply Ho; set_solver]. destruct Hk. apply elem_of_app. right. by left.
    - intros b [Hbin|Hbin]%elem_of_app.
      + destruct (Hr b Hbin) as (info & Hinfo & Hreco). exists info. split; [|done]. rewrite record_put.
        destruct (decide _) as [E|_]; [|done]. destruct Hfresh. rewrite <- E. apply list_elem_of_fmap. by exists b.
      + apply list_elem_of_singleton in Hbin as ->. eexists. rewrite record_put, decide_True by done.
        split; [done|]. split; [done|]. split; [done|]. exists d. split; [done|]. split; [done|].
        exists (sg_trace st), (recover_ends batch), names, links, stopped, bound. cbv zeta.
        split_and!; [done| |by apply recover_ends_lookup|done|].
        { apply Hok. by eapply recover_links_dom. }
        intros n name Hname. destruct (Hends n name Hname) as (e & i & He & Hi & Hei & Hc & Hdue).
        exists e, i. split_and!; try done. by eapply recover_names_lookup. }
  rewrite Ht. split; [|done]. by do 4 eexists.
Qed.

Definition is_recover (x : StageCommand * ActuationResult) : Prop :=
  ∃ ends names links, x.1 = CmdRecover ends names links.

Lemma reports_recover t t' i s : Forall is_recover t' → reports dp (t ++ t') i s → reports dp t i s.
Proof.
  intros HF (cmd & r & [Hin|Hin]%elem_of_app & Ha & Hs); [by exists cmd, r|].
  rewrite Forall_forall in HF. destruct (HF _ Hin) as (ends & names & links & E). simpl in E. by subst cmd.
Qed.

Lemma recover_all_spec sim_iso when st l st' :
  NoDup (map ad_key l) → names_agree l →
  (∀ a, a ∈ l → record st (ad_key a) = Some (ad_info a)) →
  recover_long_delay_contacts dp env bounds_s sim_iso when st l = Ok st' →
  (∃ t, sg_trace st' = sg_trace st ++ t ∧ Forall is_recover t) ∧ sg_desired st' = sg_desired st ∧
  (∀ k, k ∉ map ad_key l → record st' k = record st k) ∧
  ∀ a, a ∈ l → ∃ info, record st' (ad_key a) = Some info ∧ recovered (sg_trace st') a info.
Proof.
  intros Hnd Hag Hrec H. unfold recover_long_delay_contacts in H.
  assert (concat (rounds ad_pair l) ≡ₚ l) as Hperm by by apply (rounds_from_all ad_pair).
  set (K := λ (pre : list (list Adopted)) s, (∃ t, sg_trace s = sg_trace st ++ t ∧ Forall is_recover t) ∧
    sg_desired s = sg_desired st ∧ (∀ k, k ∉ map ad_key (concat pre) → record s k = record st k) ∧
    ∀ a, a ∈ concat pre → ∃ info, record s (ad_key a) = Some info ∧ recovered (sg_trace s) a info).
  assert (K (rounds ad_pair l) st') as (Ht & Hd & Ho & Hr).
  { refine (foldM_prefix K _ _ _ _ _ _ H).
    2: { split_and!; [|done..|by intros ? ?%elem_of_nil]. exists []. by rewrite app_nil_r. }
    intros pre batch post s s' Hb ((t & Ht & HF) & Hd & Ho & Hr) Hx.
    assert (batch ∈ rounds ad_pair l) as Hbin by (rewrite Hb; set_solver).
    assert (∀ a, a ∈ batch → a ∈ l) as Hsub by (intros a; by apply (rounds_elem ad_pair)).
    rewrite <- Hperm, Hb, concat_app, map_app in Hnd. apply NoDup_app in Hnd as (_ & Hdis & Hnd).
    simpl in Hdis, Hnd. rewrite map_app in Hdis, Hnd. apply NoDup_app in Hnd as (Hndb & _ & _).
    apply recover_batch_spec in Hx as ((ends & names & links & r & Ht') & Hd' & Ho' & Hr').
    2: done.
    2: by eapply (rounds_from_nodup ad_pair).
    2: { intros a b n i x y Ha Hb'. apply Hag; auto. }
    2: { intros a Ha. rewrite Ho; [by apply Hrec, Hsub|]. intros Hin. apply (Hdis _ Hin), elem_of_app.
         left. apply list_elem_of_fmap. by exists a. }
    split_and!.
    - exists (t ++ [(CmdRecover ends names links, r)]). rewrite Ht', Ht, app_assoc. split; [done|].
      apply Forall_app. split; [done|]. repeat constructor. by exists ends, names, links.
    - congruence.
    - intros k Hk. rewrite concat_app, map_app in Hk. simpl in Hk. rewrite app_nil_r in Hk.
      rewrite Ho', Ho by set_solver. done.
    - intros a Ha. rewrite concat_app in Ha. simpl in Ha. rewrite app_nil_r in Ha.
      apply elem_of_app in Ha as [Ha|Ha]; [|by apply Hr'].
      destruct (Hr a Ha) as (info & Hi & Hreco). exists info. split.
      + rewrite Ho'; [done|]. intros Hin. eapply Hdis; [|by apply elem_of_app; left].
        apply list_elem_of_fmap. by exists a.
      + eapply recovered_prefix; [|done]. rewrite Ht'. by eexists. }
  split_and!; [done..| |].
  - intros k Hk. apply Ho. by rewrite Hperm.
  - intros a Ha. apply Hr. by rewrite Hperm.
Qed.

Lemma recover_trace sim_iso when st l st' :
  recover_long_delay_contacts dp env bounds_s sim_iso when st l = Ok st' →
  ∃ t, sg_trace st' = sg_trace st ++ t.
Proof.
  intros H. refine (foldM_inv (λ s, ∃ t, sg_trace s = sg_trace st ++ t) _ _ _ _ _ _ H);
    [|exists []; by rewrite app_nil_r].
  intros s batch s' _ [t Hs] Hx. unfold recover_batch in Hx. rbind Hx as links Hl. rbind Hx as names Hn.
  rbind Hx as [r downs] Hr. rguard Hx as Hg. refine (foldM_inv (λ s, ∃ t, sg_trace s = sg_trace st ++ t) _ _ _ _ _ _ Hx).
  - intros s1 a s2 _ Hs1 Ha. unfold start_recovery in Ha. rbind Ha as i Hi. rbind Ha as i' Hi'.
    rbind Ha as b Hb. rbind Ha as d Hd. injection Ha as <-. by destruct (ad_key a).
  - cbn. rewrite Hs, <- !app_assoc. by eexists.
Qed.

Lemma NoDup_map_eq {A B} (f : A → B) l a b : NoDup (map f l) → a ∈ l → b ∈ l → f a = f b → a = b.
Proof.
  intros Hnd [x Hx]%list_elem_of_lookup [y Hy]%list_elem_of_lookup Hf.
  assert (x = y) as ->; [|congruence]. change (map f l) with (f <$> l) in Hnd.
  eapply (NoDup_lookup (f <$> l)); [done| |]; rewrite list_lookup_fmap, ?Hx, ?Hy; [done|by rewrite Hf].
Qed.

(** ** The whole adoption *)

(** What an adopted contact's record is in the end. *)
Definition adopted_record (t : Trace) (a : Adopted) (info : ActiveLinkInfo) : Prop :=
  if is_adopted_open (ad_found a) then info = ad_info a else recovered t a info.

Definition surveys_agree (t : Trace) : Prop :=
  ∀ i s1 s2, reports dp t i s1 → reports dp t i s2 → sv_carried_contact_id s1 = sv_carried_contact_id s2.

Lemma rebaseline_record st k : record (rebaseline dp st) k = record st k.
Proof. unfold rebaseline. destruct (rebaseline_active_counts _ _ _). by destruct k. Qed.
Lemma rebaseline_same st :
  sg_trace (rebaseline dp st) = sg_trace st ∧ sg_desired (rebaseline dp st) = sg_desired st.
Proof. unfold rebaseline. by destruct (rebaseline_active_counts _ _ _). Qed.

Lemma adoption_spec now st st' :
  (∀ p, p ∈ dom bounds_s → p.1 ≠ p.2) → sg_trace st = [] → surveys_agree (sg_trace st') →
  adopt_long_delay_state dp env bounds_s now st = Ok st' →
  ∃ l, sg_desired st' = sg_desired st ∧
    (∀ k, k ∉ map ad_key l → record st' k = record st k) ∧
    (∀ a, a ∈ l → adopted_ok dp bounds_s (sg_trace st') a ∧
       ∃ info, record st' (ad_key a) = Some info ∧ adopted_record (sg_trace st') a info) ∧
    ∀ i s, reports dp (sg_trace st') i s → sv_carried_contact_id s ≠ "" → ∃ a, a ∈ l ∧ covers a i s.
Proof.
  intros Hne Ht0 Hag H. unfold adopt_long_delay_state in H. rbind H as [st1 fixed] H1. rbind H as [st2 ground] H2.
  rbind H as st3 H3. injection H as <-. destruct (rebaseline_same st3) as [Ht Hd]. rewrite Ht in *. rewrite Hd.
  apply adopt_fixed_adopts in H1 as ((S1 & S1' & S1'') & t1 & E1 & Hnd1 & Hok1 & Hcov1); [|done].
  apply adopt_ground_adopts in H2 as ((S2 & S2' & S2'') & t2 & E2 & Hnd2 & Hok2 & Hcov2); [|done].
  set (l := fixed ++ ground) in *. destruct (keep_all_same l st2) as [Hkt Hkd].
  assert (NoDup (map ad_key l)) as Hnd.
  { unfold l. rewrite map_app. apply NoDup_app. split_and!; [done| |done].
    intros k (a & -> & Ha)%list_elem_of_fmap (b & Hk & Hb)%list_elem_of_fmap.
    destruct (Hok1 a Ha) as [_ Hpa]. destruct (Hok2 b Hb) as [_ Hpb]. unfold ad_pair in *. rewrite Hk in Hpa.
    apply elem_of_filter in Hpa as [Hpa _], Hpb as [Hpb _]. rewrite Hpb in Hpa. by destruct Hpa. }
  set (rest := List.filter (λ a, negb (is_adopted_open (ad_found a))) l) in *.
  assert (∃ t3, sg_trace st3 = t1 ++ t2 ++ t3) as [t3 Et].
  { apply recover_trace in H3 as [t3 H3]. exists t3. by rewrite H3, Hkt, E2, E1, Ht0, <- app_assoc. }
  assert (∀ a, a ∈ l → adopted_ok dp bounds_s (sg_trace st3) a) as Hokl.
  { intros a [Ha|Ha]%elem_of_app; rewrite Et.
    - apply adopted_ok_app. by apply Hok1.
    - destruct (Hok2 a Ha) as [[A1 A2 A3 A4 A5] _]. split; try done. intros n name Hn.
      destruct (A5 n name Hn) as (i & s & Hi & (cmd & r & Hin & Hr) & Hs). exists i, s. split; [done|].
      split; [|done]. exists cmd, r. split; [set_solver|done]. }
  apply recover_all_spec in H3 as ((t & E3 & HF) & Hd3 & Ho3 & Hr3).
  2: { by apply NoDup_map_filter. }
  2: { intros a b n i x y [Ha _]%in_filter_bool [Hb _]%in_filter_bool Hx Hy Hi Hj.
       destruct (ao_carried _ _ _ _ (Hokl a Ha) n x Hx) as (i1 & s1 & Hi1 & Hr1 & <-).
       destruct (ao_carried _ _ _ _ (Hokl b Hb) n y Hy) as (i2 & s2 & Hi2 & Hr2 & <-).
       apply (Hag (n, i)); congruence. }
  2: { intros a [Ha _]%in_filter_bool. by apply keep_all_record. }
  exists l. split; [congruence|]. split_and!.
  - intros k Hk. rewrite rebaseline_record, Ho3, keep_all_other by
      (done || (intros (a & -> & [Ha _]%in_filter_bool)%list_elem_of_fmap; apply Hk, list_elem_of_fmap; by exists a)).
    unfold record. by rewrite S2, S2', S1, S1'.
  - intros a Ha. split; [by apply Hokl|]. rewrite rebaseline_record. unfold adopted_record.
    destruct (is_adopted_open (ad_found a)) eqn:Eo.
    + exists (ad_info a). split; [|done]. rewrite Ho3; [by apply keep_all_record|].
      intros (b & Hk & [Hb Hob]%in_filter_bool)%list_elem_of_fmap.
      rewrite (NoDup_map_eq ad_key l a b Hnd Ha Hb Hk) in Eo. by rewrite Eo in Hob.
    + apply Hr3. apply in_filter_bool. by rewrite Eo.
  - intros i s Hrep Hs. rewrite E3, Hkt, E2, E1, Ht0 in Hrep. apply reports_recover in Hrep; [|done].
    destruct Hrep as (cmd & r & [Hin|Hin]%elem_of_app & Hr).
    + destruct (Hcov1 i s) as (a & Ha & Hc); [by exists cmd, r|done|]. exists a. split; [set_solver|done].
    + destruct (Hcov2 i s) as (a & Ha & Hc); [by exists cmd, r|done|]. exists a. split; [set_solver|done].
Qed.
End Recovery.

(** An end that a proven stop left draining: the stop was acknowledged for its
    pair, reached it, named the contact it carries, and it closes after the link's
    longest delay, counted from the acknowledgement. *)
Definition end_drains (env : Env) (bounds_s : gmap node_pair float) (t : Trace) (p : node_pair) (i : Iface)
    (name : string) (d : Drain) : Prop :=
  ∃ pre ends names links r closing bound e, let now := pre ++ [(CmdRecover ends names links, r)] in
    now `prefix_of` t ∧ p ∈ succeeded_pairs r ∧ ends !! p = Some closing ∧ i.1 ∈ closing ∧
    names !! i = Some name ∧ bounds_s !! p = Some bound ∧ e ∈ dr_ends d ∧
    (de_node_id e, de_interface e) = i ∧ de_contact_id e = name ∧
    de_close_due e = fadd (se_monotonic env now 0) bound.

(** C18: a restarted Scheduler leaves no contact behind that a survey answer names.  When
    adoption returns, every end that the surveys of a merged answer name and find
    carrying a contact is an end of a record of that contact.  (An end that the answer
    does not name, as when the command was split and its merged answer carries no
    surveys, is the subject of [large_survey_forgets_contacts].)  Either the end was found open and the record holds its contact as it
    stands, or the record drains, and a stop that its agents acknowledged named the
    contact this very end carries, and the end closes after the link's longest
    delay counted from that acknowledgement.  (Two surveys of one end agree: the
    kernel does not change between them.) *)
Theorem no_contact_left_behind dp env bounds_s now st st' i s :
  (∀ p, p ∈ dom bounds_s → p.1 ≠ p.2) → sg_trace st = [] → surveys_agree dp (sg_trace st') →
  adopt_long_delay_state dp env bounds_s now st = Ok st' →
  reports dp (sg_trace st') i s → sv_carried_contact_id s ≠ "" →
  ∃ k info c, record st' k = Some info ∧ end_terminals (key_pair k) info !! i.1 = Some i.2 ∧
    contact info = Some c ∧
    match drain info with
    | None => sv_carried_contact_id s = Contact_contact_id c ∧ sv_admission_stopped s = false
    | Some d => end_drains env bounds_s (sg_trace st') (key_pair k) i (sv_carried_contact_id s) d
    end.
Proof.
  intros Hne Ht Hag H Hrep Hs. destruct (adoption_spec _ _ _ _ _ _ Hne Ht Hag H) as (l & _ & _ & Hl & Hcov).
  destruct (Hcov i s Hrep Hs) as (a & Ha & Hi & Hacc). destruct (Hl a Ha) as (Hok & info & Hr & Hrec).
  exists (ad_key a), info, (found_contact (ad_found a)). split; [done|]. unfold adopted_record in Hrec.
  destruct (ad_found a) as [c ms|c carried ms] eqn:Ef; simpl in Hrec.
  - subst info. split; [done|]. pose proof (ao_contact _ _ _ _ Hok) as Hc. rewrite Ef in Hc. split; [done|].
    by rewrite (ao_drain _ _ _ _ Hok).
  - destruct Hrec as (Hc & He & d & Hd & _ & pre & ends & names & links & r & bound & Hp & Hsu & Hends & Hb & Hall).
    split; [unfold ad_pair in He; by rewrite He|]. split; [by rewrite Hc, (ao_contact _ _ _ _ Hok), Ef|].
    rewrite Hd. assert (ad_carried a !! i.1 = Some (sv_carried_contact_id s)) as Hca
      by (unfold ad_carried; by rewrite Ef). destruct (Hall _ _ Hca) as (e & j & Hin & Hj & Hn & Hei & Hcid & Hdue).
    rewrite Hi in Hj. injection Hj as <-. destruct i as [n i].
    exists pre, ends, names, links, r, (dom (ad_carried a)), bound, e. split_and!; try done.
    by eapply elem_of_dom_2.
Qed.

(** ** The records of a session *)

Record fresh (st : Stages) : Prop := {
  fr_actual : sg_actual st = ∅;
  fr_overlapping : sg_overlapping st = ∅;
  fr_desired : undrained (sg_desired st);
  fr_trace : sg_trace st = [];
}.

(** A session of one Scheduler process: it adopts, then reconciles, each time
    against what OME desires then. *)
Inductive session (dp : Deployment) (env : Env) (bounds_s : gmap node_pair float) : Stages → Prop :=
| session_adopts now st st' :
    fresh st → adopt_long_delay_state dp env bounds_s now st = Ok st' →
    surveys_agree dp (sg_trace st') → session dp env bounds_s st'
| session_reconciles desired sim_time down_reasons epoch_id plan due st st' :
    session dp env bounds_s st → undrained desired →
    reconcile_long_delay dp env sim_time down_reasons epoch_id plan due (with_desired st desired) = Ok st' →
    session dp env bounds_s st'.

Lemma adoption_records_ok dp env bounds_s now st st' :
  (∀ p, p ∈ dom bounds_s → p.1 ≠ p.2) → fresh st → surveys_agree dp (sg_trace st') →
  adopt_long_delay_state dp env bounds_s now st = Ok st' → records_ok st'.
Proof.
  intros Hne [Fa Fo Fd Ft] Hag H.
  destruct (adoption_spec _ _ _ _ _ _ Hne Ft Hag H) as (l & Hd & Hother & Hl & _).
  assert (∀ k info, record st' k = Some info → ∃ a, a ∈ l ∧ k = ad_key a ∧
    adopted_ok dp bounds_s (sg_trace st') a ∧ adopted_record env bounds_s (sg_trace st') a info) as Hall.
  { intros k info Hk. destruct (decide (k ∈ map ad_key l)) as [Hin|Hin].
    - apply list_elem_of_fmap in Hin as (a & -> & Ha). destruct (Hl a Ha) as (Hok & info' & Hr & Hrec).
      rewrite Hk in Hr. injection Hr as <-. eauto.
    - rewrite Hother in Hk by done. exfalso. destruct k as [p|p cid]; simpl in Hk;
        [rewrite Fa in Hk|rewrite Fo in Hk]; by rewrite lookup_empty in Hk. }
  assert (∀ a info, adopted_ok dp bounds_s (sg_trace st') a →
    adopted_record env bounds_s (sg_trace st') a info → draining_ok info ∧
    record_contact_id info = Some (Contact_contact_id (found_contact (ad_found a))) ∧
    (is_adopted_open (ad_found a) = false → is_Some (drain info))) as Hdr.
  { intros a info Hok Hrec. unfold adopted_record in Hrec. unfold record_contact_id.
    destruct (is_adopted_open (ad_found a)).
    - subst info. rewrite (ao_contact _ _ _ _ Hok). split; [|done]. apply not_draining, (ao_drain _ _ _ _ Hok).
    - destruct Hrec as (Hc & _ & d & Hdr & Hends & _). rewrite Hc, (ao_contact _ _ _ _ Hok), Hdr.
      split_and!; [|done|done]. intros d' Hd'. rewrite Hdr in Hd'. injection Hd' as <-.
      rewrite Hc, (ao_contact _ _ _ _ Hok). done. }
  split.
  - intros p info Hp. destruct (Hall (Current p) info Hp) as (a & _ & _ & Hok & Hrec).
    by destruct (Hdr a info Hok Hrec).
  - intros p cid info Hp. destruct (Hall (Earlier p cid) info Hp) as (a & _ & Hk & Hok & Hrec).
    destruct (ao_earlier _ _ _ _ Hok p cid (eq_sym Hk)) as [-> Ho]. destruct (Hdr a info Hok Hrec) as (? & ? & ?).
    auto.
  - intros p info Hp. rewrite Hd in Hp. by apply (Fd p).
Qed.

(** C17: the records of the long-delay contacts are sound in every state a session
    reaches, whatever the Node Agents answer, from the adoption on: a pair's record
    that drains belongs to a contact and has ends left to close; an earlier contact
    still held is filed under its own name, drains, and has ends left to close. *)
Theorem session_records_sound dp env bounds_s st :
  (∀ p, p ∈ dom bounds_s → p.1 ≠ p.2) → session dp env bounds_s st → records_ok st.
Proof.
  intros Hne. induction 1 as [now st st' Hf H Hag|desired sim_time down_reasons epoch_id plan due st st' _ IH Hu H].
  - by eapply adoption_records_ok.
  - eapply records_stay_sound; [|exact H]. destruct IH as [R1 R2 _]. by split.
Qed.

(** ** A restart *)

Module Restart.

(** A station with [n] access terminals and a satellite with [m]. *)
Definition p : node_pair := ("gs-A", "sat-1").
Definition term (k : nat) : Iface := ("gs-A", "term" +:+ pretty k).
Definition gnd (k : nat) : Iface := ("sat-1", "gnd" +:+ pretty k).
Definition dp (n m : nat) : Deployment :=
  {| dp_locator := Cluster.located;
     dp_config := {| cfg_interface_map := ∅; cfg_gs_capacities := {["gs-A" := Z.of_nat n]};
                     cfg_sat_capacities := {["sat-1" := Z.of_nat m]}; cfg_long_delay_pairs := {[p]} |};
     dp_rates := list_to_map (map (λ i, (i, Handover.terminal))
                                (map term (seq 0 n) ++ map gnd (seq 0 m)));
     dp_max_latency_age_s := float_of_Z 10; dp_fence := seven |}.
Definition bounds : gmap node_pair float := {[p := float_of_Z 40]}.

Definition passing (k : nat) : Contact := {| ct_epoch_id := 3; ct_opened_at := Z.of_nat k * 60000000 |}.
Definition name (k : nat) : string := Contact_contact_id (passing k).
Definition carrying (k : nat) (peer : Iface) (stopped : bool) : EndSurvey :=
  {| sv_carried_contact_id := name k; sv_admission_stopped := stopped;
     sv_receive_latency_ms := float_of_Z 30; sv_carried_peer := peer.1 +:+ "/" +:+ peer.2 |}.

(** The kernel: pass [k] on the [k]-th terminals, all stopped at the station but
    the newest. *)
Definition kernel (n : nat) : gmap Iface EndSurvey :=
  list_to_map (flat_map (λ k, [(term k, carrying k (gnd k) (negb (k =? pred n)%nat));
                               (gnd k, carrying k (term k) false)]) (seq 0 n)).

(** Agents that report the kernel, and obey every other command. *)
Definition reported_entry (kernel : gmap Iface EndSurvey) (i : Iface) : Entry :=
  {| en_iface := i; en_success := true; en_error_code := 0; en_verified := true; en_dirty_kernel := false;
     en_loss := None; en_survey := kernel !! i |}.
Definition env (n : nat) : Env :=
  let carried := kernel n in
  {| se_transport _ addr request :=
       match request with
       | KernelInventoryRequest _ _ _ entries =>
           Answered {| rs_success := true; rs_error_code := 0; rs_dirty_kernel := false;
                       rs_entries := map (λ e, reported_entry carried (ki_iface e)) entries |}
       | _ => obedient addr request
       end;
     se_monotonic _ _ := float_of_Z 100; se_now _ := 0; se_compensation _ := Pass.comp |}.

Definition blank : Stages :=
  {| sg_tracked := {| actual_links := ∅; last_latencies := ∅; gs_active := ∅; sat_active := ∅ |};
     sg_overlapping := ∅; sg_desired := ∅; sg_log := []; sg_trace := []; sg_events := [] |}.
Definition restarted (n m : nat) : result Stages :=
  adopt_long_delay_state (dp n m) (env n) bounds None blank.

(** What the restart with two terminals sent: one survey, then one stop. *)
Definition one_survey (t : Trace) : bool :=
  match t with [(CmdSurveyTerminals _, _); (CmdRecover _ _ _, _)] => true | _ => false end.
Definition kept_both (st : Stages) : bool :=
  one_survey (sg_trace st) &&
  match sg_trace st with
  | (_, r) :: _ => bool_decide (sv_carried_contact_id <$> surveys r !! term 0 = Some (name 0))
  | [] => false
  end && bool_decide (dom (sg_overlapping st) = {[(p, name 0)]}).

Lemma restarted_ok : ∃ st, restarted 2 2 = Ok st ∧ kept_both st = true.
Proof.
  assert (match restarted 2 2 with Ok st => kept_both st | Raise _ => false end = true) as H
    by (vm_compute; reflexivity).
  destruct (restarted 2 2) as [st|]; [|discriminate H]. by exists st.
Qed.

Lemma one_survey_agrees n m t : one_survey t = true → surveys_agree (dp n m) t.
Proof.
  unfold one_survey. intros H i s1 s2 (c1 & r1 & H1 & A1 & S1) (c2 & r2 & H2 & A2 & S2).
  repeat case_match; try discriminate H. subst.
  apply elem_of_cons in H1 as [H1|H1]; [|apply list_elem_of_singleton in H1; by simplify_eq].
  apply elem_of_cons in H2 as [H2|H2]; [|apply list_elem_of_singleton in H2; by simplify_eq].
  by simplify_eq.
Qed.

Lemma two_ends q : q ∈ dom bounds → q.1 ≠ q.2.
Proof. unfold bounds. rewrite dom_singleton, elem_of_singleton. by intros ->. Qed.

Lemma named : name 0 ≠ "".
Proof. apply (bool_decide_eq_false_1 _). vm_compute. reflexivity. Qed.

Lemma blank_fresh : fresh blank.
Proof. by split. Qed.

End Restart.

Lemma no_contact_left_behind_witness :
  ∃ st s k info c, Restart.restarted 2 2 = Ok st ∧
    reports (Restart.dp 2 2) (sg_trace st) (Restart.term 0) s ∧ sv_carried_contact_id s = Restart.name 0 ∧
    record st k = Some info ∧ contact info = Some c ∧
    match drain info with
    | None => sv_carried_contact_id s = Contact_contact_id c ∧ sv_admission_stopped s = false
    | Some d => end_drains (Restart.env 2) Restart.bounds (sg_trace st) (key_pair k) (Restart.term 0)
                  (sv_carried_contact_id s) d
    end.
Proof.
  destruct Restart.restarted_ok as (st & H & Hk). unfold Restart.kept_both in Hk.
  apply andb_true_iff in Hk as [[Ho Hs]%andb_true_iff _].
  assert (∃ s, reports (Restart.dp 2 2) (sg_trace st) (Restart.term 0) s ∧
    sv_carried_contact_id s = Restart.name 0) as (s & Hr & Hn).
  { destruct (sg_trace st) as [|[[] r] t]; try discriminate Ho. apply bool_decide_eq_true in Hs.
    apply fmap_Some in Hs as (s & Hs & Hn). exists s. split; [|done].
    eexists _, _. split; [by left|]. split; [exact I|exact Hs]. }
  destruct (no_contact_left_behind (Restart.dp 2 2) (Restart.env 2) Restart.bounds None Restart.blank st
    (Restart.term 0) s) as (k & info & c & Hrec & Hi & Hc & Hdr).
  - exact Restart.two_ends.
  - reflexivity.
  - by apply Restart.one_survey_agrees.
  - exact H.
  - exact Hr.
  - rewrite Hn. exact Restart.named.
  - exists st, s, k, info, c. auto 10.
Defined.

Lemma session_records_sound_witness :
  ∃ st, dom (sg_overlapping st) = {[(Restart.p, Restart.name 0)]} ∧ records_ok st.
Proof.
  destruct Restart.restarted_ok as (st & H & Hk). unfold Restart.kept_both in Hk.
  apply andb_true_iff in Hk as [[Ho _]%andb_true_iff Hd%bool_decide_eq_true]. exists st. split; [exact Hd|].
  apply (session_records_sound (Restart.dp 2 2) (Restart.env 2) Restart.bounds st); [exact Restart.two_ends|].
  exact (session_adopts _ _ _ None Restart.blank st Restart.blank_fresh H (Restart.one_survey_agrees 2 2 _ Ho)).
Defined.

(** a restart forgets the contacts of an agent that hosts more than
    sixty-four long-delay terminals.  Its survey goes in two commands, and the
    merged answer keeps the acknowledgements but not what the ends reported
    ([Actuation.merge_agent_results]).  All 65 terminals of a station carry a
    contact, every survey succeeds and the start is not refused, yet the only
    contact adopted is the one the agent of the satellite, which hosts one
    terminal, reports. *)
Theorem large_survey_forgets_contacts :
  ∃ st, Restart.restarted 65 1 = Ok st ∧ dom (sg_actual st) = {[Restart.p]} ∧ sg_overlapping st = ∅ ∧
    ∀ k, (k < 65)%nat → Restart.term k ∈ ground_terminals (Restart.dp 65 1) Restart.bounds ∧
      ∃ s, Restart.kernel 65 !! Restart.term k = Some s ∧ sv_carried_contact_id s = Restart.name k.
Proof.
  assert (match Restart.restarted 65 1 with
          | Ok st => bool_decide (dom (sg_actual st) = {[Restart.p]}) && bool_decide (dom (sg_overlapping st) = ∅)
          | Raise _ => false end = true) as H by (vm_compute; reflexivity).
  destruct (Restart.restarted 65 1) as [st|]; [|discriminate H]. exists st.
  apply andb_true_iff in H as [Ha%bool_decide_eq_true Ho%bool_decide_eq_true%dom_empty_inv_L].
  split; [done|]. split; [exact Ha|]. split; [exact Ho|].
  assert (let kernel := Restart.kernel 65 in
    let asked := ground_terminals (Restart.dp 65 1) Restart.bounds in
    forallb (λ k, bool_decide (Restart.term k ∈ asked) &&
                  bool_decide (sv_carried_contact_id <$> kernel !! Restart.term k = Some (Restart.name k)))
      (seq 0 65) = true) as H by (vm_compute; reflexivity).
  cbv zeta in H. rewrite forallb_forall in H. intros k Hk.
  specialize (H k ltac:(apply in_seq; lia)) as [Hin%bool_decide_eq_true Hs%bool_decide_eq_true]%andb_true_iff.
  split; [done|]. apply fmap_Some in Hs as (s & Hs & Hn).
  exists s. split; [exact Hs|exact (eq_sym Hn)].
Qed.
