(* ===== verification/StationState.v ===== *)
(** * The actuation state of the ground stations

    What the Scheduler knows of each station's kernel and how it regains it
    ([services/scheduler/dispatcher.py], [services/scheduler/actuation.py]): the
    states [clean], [actuation_blocked] and [kernel_dirty], the records of links
    that may still be wired, the read-only verifications with their backoff, the
    audits of clean stations, the operator's repair, and the filters that keep
    automatic commands away from stations that are not clean.

    An operation is an [Effect]: it changes the state and returns a value or
    raises, and what it did before raising stays done.  The Node Agents are the
    environment of [LongDelayStages]; [de_batch] answers the plain batches, and
    [de_wall] gives the readings of the wall clock, in order.  Fields that are only
    reported ([reason_code], [since], [node_agent_results]) and the published
    events are left out.  The states are read in the order of the startup roster,
    which is sorted; the links of one inventory are in no particular order. *)

From S2P Require Import Prelude.
From S2P Require Import PyFloat.
From S2P Require Import PyData.
From S2P Require Import PyTime.
From S2P Require Import GroundTypes.
From S2P Require Import EventDiff.
From S2P Require Import AgentHealth.
From S2P Require Import EpochSync.
From S2P Require Import DesiredState.
From S2P Require Import Authority.
From S2P Require Import Actuation.
From S2P Require Import DispatchPlanner.
From S2P Require Import ContactDrain.
From S2P Require Import Placement.
From S2P Require Import Substrate.
From S2P Require Import NodeAgentBatches.
From S2P Require Import DispatchActuator.
From S2P Require Import ActuatorTheorems.
From S2P Require Import LongDelayStages.
From stdpp Require Import base list strings gmap.
Local Open Scope Z_scope.

(** ** State *)

Record RecoveryStatus := {
  verify_attempt_count : Z;
  last_verify_result : option string;
  next_verify_after : option datetime;
  verify_exhausted : bool;
  operator_action_required : bool;
  active_intervention_id : option string;
}.

Record GroundActuationState := {
  ga_state : ActuationState;
  ga_affected_pairs : gset node_pair;
  ga_stale_pairs : gset node_pair;
  ga_recovery : RecoveryStatus;
}.

Definition no_recovery : RecoveryStatus :=
  {| verify_attempt_count := 0; last_verify_result := None; next_verify_after := None;
     verify_exhausted := false; operator_action_required := false; active_intervention_id := None |}.
Definition clean_state : GroundActuationState :=
  {| ga_state := st_clean; ga_affected_pairs := ∅; ga_stale_pairs := ∅; ga_recovery := no_recovery |}.

(** [blocking_new_ground_link_up]. *)
Definition blocking_new_ground_link_up (g : GroundActuationState) : bool :=
  negb (bool_decide (ga_state g = st_clean)).

Record OperatorRepairCommand := {
  rc_session_id : string;
  rc_wiring_generation : string;
  rc_scheduler_instance_id : string;
  rc_gs_id : string;
  rc_intervention_id : string;
}.

(** [_gs_actuation], [_gs_stale_link_infos], [_repair_original_states],
    [_agent_health], [_last_clean_kernel_audit_at], the repairs accepted and not
    yet run, and how many times the wall clock was read. *)
Record Stations := {
  gs_actuation : gmap string GroundActuationState;
  gs_stale_link_infos : Links;
  repair_original_states : gmap string GroundActuationState;
  agent_health : gmap string AgentWindow;
  last_clean_kernel_audit_at : datetime;
  pending_repairs : list OperatorRepairCommand;
  wall_readings : nat;
}.

Definition with_states (s : Stations) (m : gmap string GroundActuationState) : Stations :=
  {| gs_actuation := m; gs_stale_link_infos := gs_stale_link_infos s;
     repair_original_states := repair_original_states s; agent_health := agent_health s;
     last_clean_kernel_audit_at := last_clean_kernel_audit_at s;
     pending_repairs := pending_repairs s; wall_readings := wall_readings s |}.
Definition with_stale (s : Stations) (m : Links) : Stations :=
  {| gs_actuation := gs_actuation s; gs_stale_link_infos := m;
     repair_original_states := repair_original_states s; agent_health := agent_health s;
     last_clean_kernel_audit_at := last_clean_kernel_audit_at s;
     pending_repairs := pending_repairs s; wall_readings := wall_readings s |}.
Definition with_repairs (s : Stations) (originals : gmap string GroundActuationState)
    (pending : list OperatorRepairCommand) : Stations :=
  {| gs_actuation := gs_actuation s; gs_stale_link_infos := gs_stale_link_infos s;
     repair_original_states := originals; agent_health := agent_health s;
     last_clean_kernel_audit_at := last_clean_kernel_audit_at s;
     pending_repairs := pending; wall_readings := wall_readings s |}.
Definition with_health (s : Stations) (h : gmap string AgentWindow) : Stations :=
  {| gs_actuation := gs_actuation s; gs_stale_link_infos := gs_stale_link_infos s;
     repair_original_states := repair_original_states s; agent_health := h;
     last_clean_kernel_audit_at := last_clean_kernel_audit_at s;
     pending_repairs := pending_repairs s; wall_readings := wall_readings s |}.
Definition with_audit_at (s : Stations) (t : datetime) : Stations :=
  {| gs_actuation := gs_actuation s; gs_stale_link_infos := gs_stale_link_infos s;
     repair_original_states := repair_original_states s; agent_health := agent_health s;
     last_clean_kernel_audit_at := t; pending_repairs := pending_repairs s;
     wall_readings := wall_readings s |}.
Definition clock_read (s : Stations) : Stations :=
  {| gs_actuation := gs_actuation s; gs_stale_link_infos := gs_stale_link_infos s;
     repair_original_states := repair_original_states s; agent_health := agent_health s;
     last_clean_kernel_audit_at := last_clean_kernel_audit_at s;
     pending_repairs := pending_repairs s; wall_readings := S (wall_readings s) |}.

(** [_ground_state]. *)
Definition ground_state (s : Stations) (gs_id : string) : GroundActuationState :=
  default clean_state (gs_actuation s !! gs_id).
Definition put_state (s : Stations) (gs_id : string) (g : GroundActuationState) : Stations :=
  with_states s (<[gs_id := g]> (gs_actuation s)).

(** [next_verify_time]. *)
Definition next_verify_time (attempt_count : Z) (now : datetime) : datetime :=
  now + Z.min 300 (5 * 2 ^ Z.max 0 (attempt_count - 1)) * 1000000.

(** ** The links of a station *)

Section Footprint.
Context (gs_capacities : gmap string Z).

Definition at_station (gs_id : string) (x : node_pair * ActiveLinkInfo) : Prop :=
  link_type x.2 = ground_link ∧ gs_id_for_pair gs_capacities x.1 = Some gs_id.
#[global] Instance at_station_dec gs_id x : Decision (at_station gs_id x).
Proof. unfold at_station. apply _. Defined.

(** [_actual_ground_pairs_for_gs] and [_desired_ground_pairs_for_gs]. *)
Definition ground_pairs_for_gs (gs_id : string) (links : Links) : Links :=
  filter (at_station gs_id) links.

(** [_record_stale_infos_for_gs]. *)
Definition record_stale_infos_for_gs (actual desired stale : Links) (gs_id : string)
    (pairs : gset node_pair) : Links :=
  filter (λ x, x.1 ∈ pairs ∧ at_station gs_id x) (actual ∪ desired) ∪ stale.

(** [_kernel_expected_down_for_gs]. *)
Definition kernel_expected_down_for_gs (actual stale : Links) (gs_id : string) (expected_up : Links) :
    Links :=
  filter (λ x, expected_up !! x.1 = None ∧ gs_id_for_pair gs_capacities x.1 = Some gs_id) stale ∪
  filter (λ x, expected_up !! x.1 = None) (ground_pairs_for_gs gs_id actual).

(** ** Marks *)

Context (policy : AgentHealthPolicy) (wall : nat → datetime).

Definition now_of (s : Stations) : datetime := wall (wall_readings s).

(** [_record_agent_health]; the reason of a failure is only reported. *)
Definition record_agent_result (s : Stations) (a : AgentCommandResult) : Stations :=
  let ok := negb (bool_decide (ar_failure_class a = fc_agent_unreachable)) in
  clock_read (with_health s
    (record_call policy (agent_health s) (ar_agent_addr a) ok None (Some (now_of s))).1).
Definition record_agent_health (s : Stations) (r : ActuationResult) : Stations :=
  fold_left record_agent_result (agent_results r) s.

(** [_mark_gs_clean]. *)
Definition mark_gs_clean (s : Stations) (gs_id : string) : Stations :=
  with_stale (put_state s gs_id clean_state)
    (filter (λ x, gs_id_for_pair gs_capacities x.1 ≠ Some gs_id) (gs_stale_link_infos s)).

(** [_publish_startup_actuation_roster]. *)
Definition startup_roster (s : Stations) : Stations :=
  fold_left mark_gs_clean (sorted_set str_lt (dom gs_capacities)) s.

(** [_set_gs_nonclean]. *)
Definition set_gs_nonclean (au : Authority) (actual : Links) (s : Stations) (gs_id : string)
    (state_name : ActuationState) (affected : gset node_pair) (intervention : option string) :
    Stations :=
  let before := ga_recovery (ground_state s gs_id) in
  let s := with_stale s (record_stale_infos_for_gs actual (desired_links (au_view au))
    (gs_stale_link_infos s) gs_id (affected ∪ dom (ground_pairs_for_gs gs_id actual))) in
  let recovery :=
    {| verify_attempt_count := verify_attempt_count before;
       last_verify_result := last_verify_result before;
       next_verify_after :=
         Some (next_verify_time (Z.max 1 (verify_attempt_count before + 1)) (now_of s));
       verify_exhausted := false; operator_action_required := false;
       active_intervention_id := intervention |} in
  let stale := dom (kernel_expected_down_for_gs actual (gs_stale_link_infos s) gs_id
    (ground_pairs_for_gs gs_id (effective_desired_links au))) in
  clock_read (put_state s gs_id
    {| ga_state := state_name; ga_affected_pairs := affected; ga_stale_pairs := stale;
       ga_recovery := recovery |}).

(** What [_handle_actuation_result] marks when it does not stop the dispatcher. *)
Definition mark_failures (au : Authority) (actual : Links) (intervention : option string)
    (r : ActuationResult) (s : Stations)
    (nonclean : gmap string (ActuationState * ActuationFailureClass)) : Stations :=
  fold_left (λ s x, set_gs_nonclean au actual s x.1 x.2.1 (failed_at r x.1) intervention)
    (map_to_list nonclean) s.

(** The results a pass handled, on the stations: nothing a pass sends depends on
    the marks of the pass itself. *)
Definition absorb (au : Authority) (s : Stations) (h : Handled) : Stations :=
  let s := record_agent_health s (hd_result h) in
  match handle_actuation_result (hd_result h) with
  | VerdictStop _ => s
  | VerdictContinue nonclean =>
      mark_failures au (actual_links (hd_tracked h)) None (hd_result h) s nonclean
  end.

(** ** Filters *)

(** [_filter_blocked_ground_mutations]. *)
Definition may_mutate (s : Stations) (p : node_pair) : bool :=
  match gs_id_for_pair gs_capacities p with
  | None => true
  | Some gs_id => negb (blocking_new_ground_link_up (ground_state s gs_id))
  end.
Definition filter_blocked_ground_mutations (s : Stations) (pairs : gset node_pair) :
    gset node_pair :=
  filter (λ p, may_mutate s p = true) pairs.

(** [_filter_ground_down_mutations]. *)
Definition may_release (s : Stations) (p : node_pair) : bool :=
  match gs_id_for_pair gs_capacities p with
  | None => true
  | Some gs_id =>
      let g := ground_state s gs_id in
      is_none (truthy (active_intervention_id (ga_recovery g))) &&
      negb (bool_decide (ga_state g = st_kernel_dirty))
  end.

Definition filter_ground_down_mutations (s : Stations) (pairs : gset node_pair) : gset node_pair :=
  filter (λ p, may_release s p = true) pairs.
End Footprint.
