(* ===== verification/Recovery.v ===== *)
(** * Verification, audit and repair of ground stations

    The operations of [services/scheduler/dispatcher.py] that regain trust in a
    station's kernel: [_verify_gs_against_current_authority] with its backoff and
    exhaustion, [_audit_clean_ground_kernel_state] and [_audit_long_delay_ends],
    [_run_due_kernel_verifications], and the operator's repair, from the command's
    checks to its teardown, rewiring and proofs. *)

From S2P Require Import Prelude.
From S2P Require Import PyFloat.
From S2P Require Import PyData.
From S2P Require Import PyTime.
From S2P Require Import GroundTypes.
From S2P Require Import EventDiff.
From S2P Require Import AgentHealth.
From S2P Require Import EpochSync.
From S2P Require Import DesiredState.
From S2P Require Import Authority.
From S2P Require Import Actuation.
From S2P Require Import DispatchPlanner.
From S2P Require Import ContactDrain.
From S2P Require Import Placement.
From S2P Require Import Substrate.
From S2P Require Import NodeAgentBatches.
From S2P Require Import DispatchActuator.
From S2P Require Import ActuatorTheorems.
From S2P Require Import LongDelayStages.
From S2P Require Import StationState.
From stdpp Require Import base list strings gmap.
Local Open Scope Z_scope.

(** ** The dispatcher *)

(** The decision state of [Authority], the links and what was sent, the stations,
    the dispatch queue, and whether the dispatcher was told to stop. *)
Record Dispatcher := {
  d_authority : Authority;
  d_stages : Stages;
  d_stations : Stations;
  d_queue : list (option DispatchIntent);
  d_stopped : bool;
}.

Definition with_stages (d : Dispatcher) (st : Stages) : Dispatcher :=
  {| d_authority := d_authority d; d_stages := st; d_stations := d_stations d; d_queue := d_queue d;
     d_stopped := d_stopped d |}.
Definition with_stations (d : Dispatcher) (s : Stations) : Dispatcher :=
  {| d_authority := d_authority d; d_stages := d_stages d; d_stations := s; d_queue := d_queue d;
     d_stopped := d_stopped d |}.
Definition with_authority (d : Dispatcher) (au : Authority) : Dispatcher :=
  {| d_authority := au; d_stages := d_stages d; d_stations := d_stations d; d_queue := d_queue d;
     d_stopped := d_stopped d |}.
Definition with_queue (d : Dispatcher) (q : list (option DispatchIntent)) : Dispatcher :=
  {| d_authority := d_authority d; d_stages := d_stages d; d_stations := d_stations d; d_queue := q;
     d_stopped := d_stopped d |}.
Definition stop (d : Dispatcher) : Dispatcher :=
  {| d_authority := d_authority d; d_stages := d_stages d; d_stations := d_stations d;
     d_queue := d_queue d; d_stopped := true |}.

Definition d_actual (d : Dispatcher) : Links := sg_actual (d_stages d).
Definition d_trace (d : Dispatcher) : Trace := sg_trace (d_stages d).
Definition d_state (d : Dispatcher) (gs_id : string) : GroundActuationState :=
  ground_state (d_stations d) gs_id.

(** A computation that changes the dispatcher and returns or raises; what it did
    before raising stays done. *)
Definition Effect (A : Type) : Type := Dispatcher → Dispatcher * result A.
Definition done {A} (a : A) : Effect A := λ d, (d, Ok a).
Definition throw {A} (e : exn) : Effect A := λ d, (d, Raise e).
Definition ebind {A B} (c : Effect A) (k : A → Effect B) : Effect B :=
  λ d, match c d with (d', Ok a) => k a d' | (d', Raise e) => (d', Raise e) end.
Definition read {A} (f : Dispatcher → A) : Effect A := λ d, (d, Ok (f d)).
Definition change (f : Dispatcher → Dispatcher) : Effect unit := λ d, (f d, Ok tt).
Definition change_stations (f : Stations → Stations) : Effect unit :=
  change (λ d, with_stations d (f (d_stations d))).

Notation "'do!' x ':=' c 'in' k" := (ebind c (λ x, k))
  (at level 10, x binder, c at level 200, k at level 200) : py_scope.

Fixpoint for_each {A} (f : A → Effect unit) (l : list A) : Effect unit :=
  match l with
  | [] => done tt
  | x :: l => do! _ := f x in for_each f l
  end.

(** ** The environment and the settings *)

Record DispatchEnv := {
  de_stage : Env;
  de_batch : Trace → Tracked → Command → string → AgentRequest → AgentReply;
  de_wall : nat → datetime;
}.

Record Settings := {
  ds_deployment : Deployment;
  ds_scheduler_instance_id : string;
  ds_health_policy : AgentHealthPolicy;
  ds_clean_kernel_audit_interval : option Z;
  ds_mbb_dispatch : bool;
  ds_gs_handover_modes : gmap string string;
}.

(** The constants of the constructor; delays in microseconds. *)
Definition max_kernel_verify_attempts : Z := 5.
Definition transport_retry_delay : Z := 10 * 1000000.
Definition degraded_transport_retry_delay : Z := 60 * 1000000.

Section Dispatch.
Context (ds : Settings) (env : DispatchEnv).
Abbreviation dp := (ds_deployment ds).
Abbreviation caps := (cfg_gs_capacities (dp_config (ds_deployment ds))).
Abbreviation sat_caps := (cfg_sat_capacities (dp_config (ds_deployment ds))).
Abbreviation wall := (de_wall env).

Definition actual_at (d : Dispatcher) (gs_id : string) : Links :=
  ground_pairs_for_gs caps gs_id (d_actual d).
Definition desired_at (d : Dispatcher) (gs_id : string) : Links :=
  ground_pairs_for_gs caps gs_id (effective_desired_links (d_authority d)).
Definition expected_down_at (d : Dispatcher) (gs_id : string) (expected_up : Links) : Links :=
  kernel_expected_down_for_gs caps (d_actual d) (gs_stale_link_infos (d_stations d)) gs_id expected_up.
Definition reading (d : Dispatcher) : datetime := now_of wall (d_stations d).

Definition health (r : ActuationResult) : Effect unit :=
  change_stations (λ s, record_agent_health (ds_health_policy ds) wall s r).
Definition mark_clean (gs_id : string) : Effect unit :=
  change_stations (λ s, mark_gs_clean caps s gs_id).
Definition mark_nonclean (gs_id : string) (state_name : ActuationState) (affected : gset node_pair)
    (intervention : option string) : Effect unit :=
  change (λ d, with_stations d (set_gs_nonclean caps wall (d_authority d) (d_actual d)
    (d_stations d) gs_id state_name affected intervention)).

(** [_send_kernel_inventory]. *)
Definition send_kernel_inventory (gs_id : string) (expected_up expected_down : Links)
    (sim_time : datetime) : Effect ActuationResult := λ d,
  match verify_ground_kernel_inventory (dp_locator dp) caps (dp_rates dp) (dp_fence dp)
          (se_transport (de_stage env) (d_trace d)) gs_id (map_to_list expected_up)
          (map_to_list expected_down) (isoformat sim_time) with
  | Ok r => (with_stages d (sent (d_stages d) (CmdInventory gs_id expected_up expected_down) r), Ok r)
  | Raise e => (d, Raise e)
  end.

(** [_handle_actuation_result], after the health windows: a fatal failure stops the
    dispatcher and raises, as a superseded or fenced writer or as a halt. *)
Definition judge_result (r : ActuationResult) (intervention : option string) : Effect unit :=
  match handle_actuation_result r with
  | VerdictStop _ =>
      do! _ := change stop in throw (RuntimeError "Fatal actuation failure")
  | VerdictContinue nonclean =>
      change (λ d, with_stations d (mark_failures caps wall (d_authority d) (d_actual d) intervention r
        (d_stations d) nonclean))
  end.
Definition handle_result (r : ActuationResult) (intervention : option string) : Effect unit :=
  do! _ := health r in judge_result r intervention.

(** ** Verification *)

(** The recovery after a verification whose prover did not answer. *)
Definition unreachable_recovery (s : Stations) (before : RecoveryStatus) (r : ActuationResult)
    (intervention : option string) : RecoveryStatus :=
  let delay := if existsb (λ a, is_degraded (agent_health s) (ar_agent_addr a)) (agent_results r)
               then degraded_transport_retry_delay else transport_retry_delay in
  {| verify_attempt_count := verify_attempt_count before;
     last_verify_result := Some "agent_unreachable";
     next_verify_after := Some (now_of wall s + delay);
     verify_exhausted := false; operator_action_required := false;
     active_intervention_id := intervention |}.

(** The recovery after an observed mismatch. *)
Definition failed_recovery (s : Stations) (before : RecoveryStatus) (intervention : option string) :
    RecoveryStatus :=
  let attempts := verify_attempt_count before + 1 in
  let exhausted := max_kernel_verify_attempts <=? attempts in
  {| verify_attempt_count := attempts; last_verify_result := Some "failed";
     next_verify_after :=
       if exhausted then None else Some (next_verify_time (attempts + 1) (now_of wall s));
     verify_exhausted := exhausted; operator_action_required := exhausted;
     active_intervention_id := intervention |}.

(** [_verify_gs_against_current_authority]. *)
Definition verify_gs (gs_id : string) (sim_time : datetime) (intervention : option string) :
    Effect bool :=
  do! d := read id in
  let expected_up := actual_at d gs_id in
  let expected_down := expected_down_at d gs_id expected_up in
  let before := d_state d gs_id in
  if bool_decide (expected_up = ∅ ∧ expected_down = ∅) then
    do! _ := mark_clean gs_id in done true
  else
    do! r := send_kernel_inventory gs_id expected_up expected_down sim_time in
    do! _ := health r in
    if transport_only_failure r then
      do! _ := change_stations (λ s, clock_read (put_state s gs_id
        {| ga_state := ga_state before; ga_affected_pairs := ga_affected_pairs before;
           ga_stale_pairs := ga_stale_pairs before;
           ga_recovery := unreachable_recovery s (ga_recovery before) r intervention |})) in
      done false
    else if negb (has_failures r) then
      do! _ := mark_clean gs_id in done true
    else
      do! _ := change_stations (λ s, clock_read (put_state s gs_id
        {| ga_state := st_kernel_dirty; ga_affected_pairs := failed_pairs r;
           ga_stale_pairs := ga_stale_pairs before;
           ga_recovery := failed_recovery s (ga_recovery before) intervention |})) in
      done false.

(** One station of [_run_due_kernel_verifications]; the state is the one the loop
    was entered with. *)
Definition verify_if_due (sim_time : datetime) (x : string * GroundActuationState) : Effect unit :=
  do! d := read id in
  let recovery := ga_recovery x.2 in
  if d_stopped d || bool_decide (ga_state x.2 = st_clean) || verify_exhausted recovery ||
     operator_action_required recovery then done tt
  else match next_verify_after recovery with
       | None => done tt
       | Some next_time =>
           do! _ := change_stations clock_read in
           if next_time <=? reading d then
             do! _ := verify_gs x.1 sim_time None in done tt
           else done tt
       end.

(** [_run_due_kernel_verifications], without the audit and the heartbeat. *)
Definition run_due_kernel_verifications (sim_time : datetime) : Effect unit :=
  do! d := read id in
  for_each (verify_if_due sim_time) (sorted_items str_lt (gs_actuation (d_stations d))).

(** ** Audits *)

(** One station of [_audit_clean_ground_kernel_state]. *)
Definition audit_station (sim_time : datetime) (gs_id : string) : Effect unit :=
  do! d := read id in
  if d_stopped d || negb (bool_decide (ga_state (d_state d gs_id) = st_clean)) then done tt
  else
    let expected_up := actual_at d gs_id in
    let expected_down := expected_down_at d gs_id expected_up in
    if bool_decide (expected_up = ∅ ∧ expected_down = ∅) then done tt
    else
      do! r := send_kernel_inventory gs_id expected_up expected_down sim_time in
      do! _ := health r in
      if transport_only_failure r then done tt
      else if has_failures r then mark_nonclean gs_id st_kernel_dirty (failed_pairs r) None
      else done tt.

Definition audit_clean_ground_kernel_state (sim_time : datetime) : Effect unit :=
  for_each (audit_station sim_time) (sorted_set str_lt (dom caps)).

(** [_audit_long_delay_ends]. *)
Definition audit_long_delay_ends (sim_time : datetime) : Effect unit :=
  do! d := read id in
  let ends := map_imap (λ p info, match contact info with
                                  | Some _ => Some (remaining_ends p info) | None => None end)
                (d_actual d) in
  if bool_decide (ends = ∅) then done tt
  else
    do! r := λ d, match send_proof dp (de_stage env) sim_time (d_stages d) ends (d_actual d) with
                  | Ok (st, r) => (with_stages d st, Ok r)
                  | Raise e => (d, Raise e)
                  end in
    handle_result r None.

(** [_run_due_clean_kernel_audit]. *)
Definition run_due_clean_kernel_audit (sim_time : datetime) : Effect unit :=
  do! d := read id in
  do! _ := change_stations clock_read in
  match ds_clean_kernel_audit_interval ds with
  | None => done tt
  | Some interval =>
      if interval <=? reading d - last_clean_kernel_audit_at (d_stations d) then
        do! _ := change_stations (λ s, with_audit_at s (reading d)) in
        do! _ := audit_clean_ground_kernel_state sim_time in
        audit_long_delay_ends sim_time
      else done tt
  end.

(** ** Repair *)

(** What is announced of a repair: that it was accepted (the event and the answer),
    that it starts, what its batches and their results show, how it ends.  An
    announcement that cannot be published raises; [announced] says which went out. *)
Inductive RepairEvent :=
| Requested
| Started
| TeardownHealth
| TeardownJudged
| RewireHealth
| RewireJudged
| Succeeded
| RepairFailed.

Definition PublishFailure : exn := Raised "NatsError" "publish failed".
Definition announce (announced : RepairEvent → bool) (event : RepairEvent) : Effect unit :=
  if announced event then done tt else throw PublishFailure.

Inductive RepairReply := RepairAccepted | RepairRejected (why : string) | RepairUnanswered.

Definition active_recovery (before : RecoveryStatus) (intervention : string) : RecoveryStatus :=
  {| verify_attempt_count := 0; last_verify_result := last_verify_result before;
     next_verify_after := None; verify_exhausted := false; operator_action_required := false;
     active_intervention_id := Some intervention |}.
Definition with_recovery (g : GroundActuationState) (r : RecoveryStatus) : GroundActuationState :=
  {| ga_state := ga_state g; ga_affected_pairs := ga_affected_pairs g;
     ga_stale_pairs := ga_stale_pairs g; ga_recovery := r |}.

(** Why [_on_operator_repair_command] refuses a command. *)
Definition repair_refusal (d : Dispatcher) (cmd : OperatorRepairCommand) : option string :=
  let g := d_state d (rc_gs_id cmd) in
  if negb (bool_decide (rc_session_id cmd = fence_session_id (dp_fence dp)))
  then Some "Repair command session_id does not match this Scheduler"
  else if negb (bool_decide (rc_wiring_generation cmd = fence_wiring_generation (dp_fence dp)))
  then Some "Repair command wiring_generation is stale"
  else if negb (bool_decide (rc_scheduler_instance_id cmd = ds_scheduler_instance_id ds))
  then Some "Repair command targets a different Scheduler instance"
  else if is_none (caps !! rc_gs_id cmd) then Some "Unknown ground station"
  else if suspended (au_sync (d_authority d)) then Some "Scheduler is seek-suspended"
  else if bool_decide (ga_state g = st_clean) then Some "Ground station is already clean"
  else if negb (is_none (truthy (active_intervention_id (ga_recovery g))))
  then Some "Ground station already has active intervention"
  else None.

(** [_on_operator_repair_command], from the parsed command.  The station is reserved
    before the acceptance is announced, the task of the repair made after it. *)
Definition on_operator_repair_command (announced : RepairEvent → bool) (d : Dispatcher)
    (cmd : OperatorRepairCommand) : Dispatcher * RepairReply :=
  match repair_refusal d cmd with
  | Some why => (d, RepairRejected why)
  | None =>
      let s := d_stations d in
      let g := d_state d (rc_gs_id cmd) in
      let s := with_repairs s (<[rc_intervention_id cmd := g]> (repair_original_states s))
                 (pending_repairs s ++ if announced Requested then [cmd] else []) in
      (with_stations d (put_state s (rc_gs_id cmd)
         (with_recovery g (active_recovery (ga_recovery g) (rc_intervention_id cmd)))),
       if announced Requested then RepairAccepted else RepairUnanswered)
  end.

(** A plain batch of the dispatcher. *)
Definition send_command (cmd : Command) (down_reasons : gmap node_pair string) (sim_time : datetime) :
    Effect (ActuationResult * Links) := λ d,
  match actuator_answer (dp_locator dp) (dp_config dp) (dp_rates dp) (dp_max_latency_age_s dp)
          (dp_fence dp) (de_batch env (d_trace d)) (se_compensation (de_stage env) (d_trace d))
          down_reasons sim_time (sg_tracked (d_stages d)) cmd with
  | Ok (r, desired) => (with_stages d (sent (d_stages d) CmdBatch r), Ok (r, desired))
  | Raise e => (d, Raise e)
  end.

Definition change_tracked (f : Tracked → result Tracked) : Effect unit := λ d,
  match f (sg_tracked (d_stages d)) with
  | Ok t => (with_stages d (with_tracked (d_stages d) t), Ok tt)
  | Raise e => (d, Raise e)
  end.

Section Repair.
Context (announced : RepairEvent → bool) (gs_id intervention : string) (sim_time : datetime).

(** A proof of the repair: a mismatch marks the station and raises. *)
Definition repair_proof (expected_up expected_down : Links) (what : string) : Effect unit :=
  do! r := send_kernel_inventory gs_id expected_up expected_down sim_time in
  if has_failures r then
    do! _ := mark_nonclean gs_id st_kernel_dirty (failed_pairs r) (Some intervention) in
    throw (RuntimeError what)
  else done tt.

(** [_handle_actuation_result] of the repair, with what it publishes. *)
Definition repair_result (r : ActuationResult) (health_event judged_event : RepairEvent) : Effect unit :=
  do! _ := health r in
  do! _ := announce announced health_event in
  do! _ := judge_result r (Some intervention) in
  announce announced judged_event.

Definition repair_teardown (teardown : Links) : Effect unit :=
  if bool_decide (teardown = ∅) then done tt
  else
    do! '(r, _) := send_command (DownBatch (dom teardown))
      (gset_to_gmap "operator_repair" (dom teardown)) sim_time in
    do! _ := repair_result r TeardownHealth TeardownJudged in
    do! _ := change_tracked (λ t, Ok (release_all (dp_config dp) t (succeeded_pairs r))) in
    if bool_decide (dom teardown ⊆ succeeded_pairs r) then
      repair_proof ∅ teardown "Repair teardown proof failed"
    else throw (RuntimeError "Repair teardown failed").

Definition repair_rewire (authority : Links) : Effect unit :=
  if bool_decide (authority = ∅) then done tt
  else
    do! '(r, desired) := send_command (UpBatch (dom authority) authority) ∅ sim_time in
    do! _ := repair_result r RewireHealth RewireJudged in
    do! _ := change_tracked (λ t,
      foldM (acquire caps sat_caps desired) t (sorted_set npair_lt (succeeded_pairs r))) in
    if bool_decide (dom authority ⊆ succeeded_pairs r) then done tt
    else throw (RuntimeError "Repair rewire failed").

Definition repair_final (authority : Links) : Effect unit :=
  do! d := read id in
  let final_down := expected_down_at d gs_id authority in
  if bool_decide (authority = ∅ ∧ final_down = ∅) then done tt
  else repair_proof authority final_down "Repair final proof failed".

(** The links the repair takes down: those held, and those that may still be
    wired. *)
Definition teardown_links (d : Dispatcher) (before : GroundActuationState) : Links :=
  actual_at d gs_id ∪
  filter (λ x, x.1 ∈ ga_stale_pairs before ∧ gs_id_for_pair caps x.1 = Some gs_id)
    (gs_stale_link_infos (d_stations d)).

(** The [try] block. *)
Definition repair_body (authority teardown : Links) : Effect unit :=
  do! _ := repair_teardown teardown in
  do! _ := repair_rewire authority in
  do! _ := repair_final authority in
  do! _ := mark_clean gs_id in
  announce announced Succeeded.

Definition repair_failed_state (s : Stations) (current : GroundActuationState) :
    GroundActuationState :=
  {| ga_state := st_kernel_dirty; ga_affected_pairs := ga_affected_pairs current;
     ga_stale_pairs := ga_stale_pairs current;
     ga_recovery :=
       {| verify_attempt_count := 0; last_verify_result := Some "operator_repair_failed";
          next_verify_after := Some (next_verify_time 1 (now_of wall s)); verify_exhausted := false;
          operator_action_required := false; active_intervention_id := None |} |}.
End Repair.

(** The state a repair starts from: the one its command was accepted in. *)
Definition repair_original (s : Stations) (cmd : OperatorRepairCommand) : GroundActuationState :=
  default (ground_state s (rc_gs_id cmd)) (repair_original_states s !! rc_intervention_id cmd).

(** The pairs that carry traffic: all but the draining contacts ([_open_pairs]). *)
Definition open_pairs (actual : Links) : gset node_pair :=
  dom (filter (λ x, is_none (drain x.2) = true) actual).

(** [_update_pending_since] on the dispatcher. *)
Definition update_pending (desired : gset node_pair) (d : Dispatcher) : Dispatcher :=
  let au := d_authority d in
  let pending := update_pending_since au desired (open_pairs (d_actual d)) (reading d) in
  let au := {| au_view := au_view au; au_marks := au_marks au; au_sync := au_sync au;
               au_overrides := au_overrides au;
               pending_visibility_events := pending_visibility_events au;
               last_visibility_sim_time := last_visibility_sim_time au;
               current_sim_time := current_sim_time au;
               latest_decision_snapshot := latest_decision_snapshot au;
               pending_since := pending; fold_diagnostics := fold_diagnostics au |} in
  with_stations (with_authority d au) (clock_read (d_stations d)).

(** [_run_operator_repair_locked].  It raises when its start or its failure cannot be
    announced; the start is announced outside of the [try]. *)
Definition run_operator_repair (announced : RepairEvent → bool) (d : Dispatcher)
    (cmd : OperatorRepairCommand) : Dispatcher :=
  let gs_id := rc_gs_id cmd in
  let sim_time := default (reading d) (current_sim_time (d_authority d)) in
  let s := d_stations d in
  let before := repair_original s cmd in
  let s := with_repairs s (delete (rc_intervention_id cmd) (repair_original_states s))
             (pending_repairs s) in
  let d := with_stations d (put_state s gs_id
    (with_recovery before (active_recovery (ga_recovery before) (rc_intervention_id cmd)))) in
  if negb (announced Started) then d else
  let authority := desired_at d gs_id in
  let teardown := teardown_links gs_id d before in
  let '(d, outcome) :=
    repair_body announced gs_id (rc_intervention_id cmd) sim_time authority teardown d in
  let end_repair d := update_pending (dom (effective_desired_links (d_authority d))) d in
  match outcome with
  | Ok _ => end_repair d
  | Raise _ =>
      let s := d_stations d in
      let d := with_stations d (clock_read (put_state s gs_id (repair_failed_state s (d_state d gs_id)))) in
      if announced RepairFailed then end_repair d else d
  end.
End Dispatch.
