(* ===== verification/DispatchLoop.v ===== *)
(** * The dispatch loop

    [Dispatcher._reconcile_links] whole, the worker that runs it
    ([_dispatch_worker]), and the Scheduler as a transition system: messages from
    OME and the operator change the decision state and queue intents, the worker
    takes the newest intent and reconciles, drains come due, repairs are accepted
    and run.  The actuation lock lets one reconcile or repair run at a time; a
    message that arrives in between is taken before or after it.

    Not modelled: the publishing of the link set and of events.  A long-delay pass
    or a staged dispatch that raises stops the dispatcher, and what it had changed
    by then is not kept. *)

From S2P Require Import Prelude.
From S2P Require Import PyFloat.
From S2P Require Import PyData.
From S2P Require Import PyTime.
From S2P Require Import GroundTypes.
From S2P Require Import EventDiff.
From S2P Require Import AgentHealth.
From S2P Require Import EpochSync.
From S2P Require Import DesiredState.
From S2P Require Import Authority.
From S2P Require Import Actuation.
From S2P Require Import DispatchPlanner.
From S2P Require Import ContactDrain.
From S2P Require Import Placement.
From S2P Require Import Substrate.
From S2P Require Import NodeAgentBatches.
From S2P Require Import DispatchActuator.
From S2P Require Import ActuatorTheorems.
From S2P Require Import LongDelayStages.
From S2P Require Import Adoption.
From S2P Require Import StationState.
From S2P Require Import Recovery.
From stdpp Require Import base list strings gmap.
Local Open Scope Z_scope.

(** ** What a pass changes *)

Record Changes := {
  ch_long_delay : LongDelayPlan;
  ch_due : gmap node_pair (gset string);
  ch_remove : gset node_pair;
  ch_add : gset node_pair;
  ch_latency : gset node_pair;
}.

Definition with_open (plan : LongDelayPlan) (open : gset node_pair) : LongDelayPlan :=
  {| lp_forced := lp_forced plan; lp_stop := lp_stop plan; lp_open := open;
     lp_latency := lp_latency plan; lp_relocate := lp_relocate plan |}.

Definition nothing_to_do (ch : Changes) : bool :=
  bool_decide (ch_remove ch = ∅) && bool_decide (ch_add ch = ∅) &&
  bool_decide (ch_latency ch = ∅) && bool_decide (ch_due ch = ∅) && lp_empty (ch_long_delay ch).

(** The refresh of a link's provenance: never backwards in time. *)
Definition refreshed (desired : Links) (p : node_pair) (held : ActiveLinkInfo) : ActiveLinkInfo :=
  match desired !! p with
  | None => held
  | Some wanted =>
      match authority_sim_time wanted with
      | None => held
      | Some t =>
          if match authority_sim_time held with Some t0 => t <? t0 | None => false end then held
          else {| interface_a := interface_a held; interface_b := interface_b held;
                  latency_a_to_b_ms := latency_a_to_b_ms held;
                  latency_b_to_a_ms := latency_b_to_a_ms held;
                  commanded_netem_ms := commanded_netem_ms held; link_type := link_type held;
                  range_km := range_km held; authority_sim_time := Some t;
                  authority_source := authority_source wanted;
                  authority_sequence := authority_sequence wanted; contact := contact held;
                  drain := drain held; stage_losses := stage_losses held |}
      end
  end.
Definition refresh_provenance (desired actual : Links) : Links :=
  map_imap (λ p held, Some (refreshed desired p held)) actual.

(** Releases, then acquires: the dispatch without make-before-break. *)
Definition reconcile_two_phase (cfg : SchedulerConfig) {agents : Agents} (t : Tracked) (log : Log)
    (removes adds : gset node_pair) (desired : Links) : result (Tracked * Log) :=
  let! '(released, _, log) := send_batch t log (DownBatch removes) in
  let! '(t, log, _) := acquire_stage cfg (release_all cfg t released) log desired adds in
  Ok (t, log).

Section Loop.
Context (ds : Settings) (env : DispatchEnv).
Abbreviation dp := (ds_deployment ds).
Abbreviation cfg := (dp_config (ds_deployment ds)).
Abbreviation caps := (cfg_gs_capacities (dp_config (ds_deployment ds))).
Abbreviation wall := (de_wall env).

(** What one reconcile is about to do. *)
Definition plan_changes (d : Dispatcher) (intent : DispatchIntent) : result Changes :=
  let long (x : node_pair * ActiveLinkInfo) := x.1 ∈ cfg_long_delay_pairs cfg in
  let plain (x : node_pair * ActiveLinkInfo) := x.1 ∉ cfg_long_delay_pairs cfg in
  let actual := d_actual d in
  let desired := in_desired intent in
  let s := d_stations d in
  let! plan := plan_long_delay_contacts (last_snapshot_epoch_id (au_marks (d_authority d)))
    (in_down_reasons intent) f_1e_9 (filter long actual) (filter long desired) in
  let plan := with_open plan (filter_blocked_ground_mutations caps s (lp_open plan)) in
  let due := filter (λ x, lp_forced plan !! x.1 = None ∧ x.1 ∉ lp_open plan)
    (due_ends actual (se_monotonic (de_stage env) (d_trace d) 2)) in
  let diff := diff_link_state (filter plain actual) (filter plain desired) f_1e_9 in
  Ok {| ch_long_delay := plan; ch_due := due;
        ch_remove := filter_ground_down_mutations caps s (to_remove diff);
        ch_add := filter_blocked_ground_mutations caps s (to_add diff);
        ch_latency := filter_blocked_ground_mutations caps s (to_update_latency diff) |}.

(** ** The parts of a pass *)

Definition change_actual (f : Links → Links) : Effect unit :=
  change (λ d, with_stages d (with_tracked (d_stages d)
    (with_actual (sg_tracked (d_stages d)) (f (d_actual d))))).

(** The results a part of the pass handled, on the stations. *)
Definition absorb_all (log : Log) (d : Dispatcher) : Dispatcher :=
  with_stations d (fold_left (absorb caps (ds_health_policy ds) wall (d_authority d)) log
    (d_stations d)).

Section Pass.
Context (intent : DispatchIntent).
Abbreviation sim_time := (in_sim_time intent).

(** The long-delay contacts. *)
Definition long_delay_pass (ch : Changes) : Effect unit := λ d,
  match reconcile_long_delay dp (de_stage env) sim_time (in_down_reasons intent)
          (last_snapshot_epoch_id (au_marks (d_authority d))) (ch_long_delay ch) (ch_due ch)
          (with_log (d_stages d) []) with
  | Raise e => (d, Raise e)
  | Ok st => (with_stages (absorb_all (sg_log st) d) (with_log st []), Ok tt)
  end.

(** The agents that answer the plain batches of a pass. *)
Definition batch_agents (d : Dispatcher) : Agents :=
  actuator_agents (dp_locator dp) cfg (dp_rates dp) (dp_max_latency_age_s dp) (dp_fence dp)
    (de_batch env (d_trace d)) (se_compensation (de_stage env) (d_trace d)) (in_down_reasons intent)
    sim_time.

(** The links that are not long-delay. *)
Definition plain_pass (ch : Changes) : Effect unit := λ d,
  let st := d_stages d in
  match (if ds_mbb_dispatch ds then
           reconcile_mbb cfg (ds_gs_handover_modes ds) (agents := batch_agents d) (sg_tracked st) []
             (ch_remove ch) (ch_add ch) (sg_desired st) (in_forced_bbm_pairs intent)
         else
           reconcile_two_phase cfg (agents := batch_agents d) (sg_tracked st) [] (ch_remove ch) (ch_add ch)
             (sg_desired st)) with
  | Raise e => (d, Raise e)
  | Ok (t, log) =>
      (with_stages (absorb_all log d)
         (fold_left (λ st h, sent st CmdBatch (hd_result h)) log (with_tracked st t)), Ok tt)
  end.

Definition latency_pass (ch : Changes) : Effect unit :=
  if bool_decide (ch_latency ch = ∅) then done tt
  else
    do! r := λ d, match send_latency dp (de_stage env) sim_time (d_stages d) (ch_latency ch) with
                  | Ok (st, r) => (with_stages d st, Ok r)
                  | Raise e => (d, Raise e)
                  end in
    handle_result ds env r None.

Definition reconcile_body : Effect unit :=
  do! _ := run_due_kernel_verifications ds env sim_time in
  do! ch := λ d, (d, plan_changes d intent) in
  do! _ := change (λ d, with_stages d (with_desired (d_stages d) (in_desired intent))) in
  do! _ := change_actual (refresh_provenance (in_desired intent)) in
  if nothing_to_do ch then run_due_clean_kernel_audit ds env sim_time
  else
    do! _ := change (update_pending env (dom (in_desired intent))) in
    do! _ := if bool_decide (ch_due ch = ∅) && lp_empty (ch_long_delay ch) then done tt
             else long_delay_pass ch in
    do! _ := plain_pass ch in
    do! _ := latency_pass ch in
    run_due_clean_kernel_audit ds env sim_time.

(** [_reconcile_links]: the clock of the pending pairs is kept on every exit. *)
Definition reconcile_links : Effect unit := λ d,
  let '(d, outcome) := reconcile_body d in
  (update_pending env (dom (in_desired intent)) d, outcome).
End Pass.

(** ** The worker *)

(** Drains the queue to the newest intent, keeping every request for a
    rebaseline; [None] ends the worker. *)
Fixpoint drain_to_latest (intent : DispatchIntent) (rebaseline : bool)
    (queue : list (option DispatchIntent)) :
    option (DispatchIntent * bool) * list (option DispatchIntent) :=
  match queue with
  | [] => (Some (intent, rebaseline), [])
  | None :: queue => (None, queue)
  | Some next :: queue => drain_to_latest next (rebaseline || in_rebaseline_counts next) queue
  end.

Inductive Turn :=
| Waits
| Drops (d : Dispatcher)
| Ends (d : Dispatcher)
| Reconciles (intent : DispatchIntent) (d : Dispatcher).

(** One iteration of [_dispatch_worker]. *)
Definition worker_turn (d : Dispatcher) : Turn :=
  match d_queue d with
  | [] => Waits
  | None :: queue => Ends (with_queue d queue)
  | Some intent :: queue =>
      if d_stopped d then Ends (with_queue d queue)
      else if suspended (au_sync (d_authority d)) && negb (bool_decide (in_source intent = src_resume))
      then Drops (with_queue d queue)
      else match drain_to_latest intent (in_rebaseline_counts intent) queue with
           | (None, queue) => Ends (with_queue d queue)
           | (Some (intent, rebase), queue) =>
               let d := with_queue d queue in
               let d := if (rebase : bool) then with_stages d (rebaseline dp (d_stages d)) else d in
               let '(d, outcome) := reconcile_links intent d in
               match outcome with Ok _ => Reconciles intent d | Raise _ => Ends (stop d) end
           end
  end.

(** ** The Scheduler *)

Definition take_repair (cmd : OperatorRepairCommand) (d : Dispatcher) (rest : list OperatorRepairCommand) :
    Dispatcher :=
  with_stations d (with_repairs (d_stations d) (repair_original_states (d_stations d)) rest).

(** [_discard_pending_dispatch_intents]: a request to stop stays. *)
Fixpoint discard_pending (queue : list (option DispatchIntent)) : list (option DispatchIntent) :=
  match queue with
  | [] => []
  | None :: queue => queue ++ [None]
  | Some _ :: queue => discard_pending queue
  end.

(** What a message leaves of the queue: nothing of the old epoch, when it begins a
    seek. *)
Definition queue_after (au au' : Authority) (queue : list (option DispatchIntent)) :
    list (option DispatchIntent) :=
  if bool_decide (expected_epoch_id (au_sync au') = expected_epoch_id (au_sync au)) then queue
  else discard_pending queue.

(** What can happen next: a message from OME or the operator, a turn of the
    worker, an end due to close, a repair asked for or run.  The step names the repair
    it lost: the one whose acceptance or start could not be announced. *)
Definition lost_repair (announced : bool) (cmd : OperatorRepairCommand) : list OperatorRepairCommand :=
  if announced then [] else [cmd].

Inductive step (epsilon_ms : float) (d : Dispatcher) : list OperatorRepairCommand → Dispatcher → Prop :=
| step_message msg au intents err stopped :
    Authority.handle cfg epsilon_ms (dom (d_actual d)) (d_authority d) msg = (au, intents, err) →
    step epsilon_ms d []
      {| d_authority := au; d_stages := d_stages d; d_stations := d_stations d;
         d_queue := queue_after (d_authority d) au (d_queue d) ++ map Some intents;
         d_stopped := d_stopped d || stopped |}
| step_drain t :
    current_sim_time (d_authority d) = Some t →
    step epsilon_ms d [] (with_queue d (d_queue d ++
      [Some (build_dispatch_intent (d_authority d) (dom (d_actual d)) t src_drain false)]))
| step_turn d' :
    worker_turn d = Drops d' ∨ worker_turn d = Ends d' ∨
    (∃ intent, worker_turn d = Reconciles intent d') →
    step epsilon_ms d [] d'
| step_repair_command announced cmd :
    step epsilon_ms d (lost_repair (announced Requested) cmd) (on_operator_repair_command ds announced d cmd).1
| step_repair announced before cmd after :
    pending_repairs (d_stations d) = before ++ cmd :: after →
    step epsilon_ms d (lost_repair (announced Started) cmd)
      (run_operator_repair ds env announced (take_repair cmd d (before ++ after)) cmd)
| step_stop :
    step epsilon_ms d [] (with_queue (stop d) (d_queue d ++ [None])).

(** A session: links adopted at startup, every station of the roster clean. *)
Definition started (au : Authority) (st : Stages) (s : Stations) : Dispatcher :=
  {| d_authority := au; d_stages := st; d_stations := startup_roster caps s; d_queue := [];
     d_stopped := false |}.
End Loop.

(** The states of a session, with the repairs it lost. *)
Inductive reachable (ds : Settings) (env : DispatchEnv) (epsilon_ms : float) :
    list OperatorRepairCommand → Dispatcher → Prop :=
| reachable_start au st s :
    gs_actuation s = ∅ → pending_repairs s = [] →
    reachable ds env epsilon_ms [] (started ds au st s)
| reachable_step lost new d d' :
    reachable ds env epsilon_ms lost d → step ds env epsilon_ms d new d' →
    reachable ds env epsilon_ms (lost ++ new) d'.
