(* ===== verification/StationTheorems.v ===== *)
(** * What the station states guarantee

    Over every behaviour of the Node Agents and every interleaving of messages,
    passes and repairs: no station is left without a way back to clean, a station
    becomes clean only on proof, repeated evidence ends in a call for the operator,
    and stations whose kernel is not trusted are not commanded. *)

From S2P Require Import Prelude.
From S2P Require Import PyFloat.
From S2P Require Import PyData.
From S2P Require Import PyTime.
From S2P Require Import GroundTypes.
From S2P Require Import EventDiff.
From S2P Require Import AgentHealth.
From S2P Require Import EpochSync.
From S2P Require Import DesiredState.
From S2P Require Import Authority.
From S2P Require Import Actuation.
From S2P Require Import DispatchPlanner.
From S2P Require Import ReconcileTheorems.
From S2P Require Import ContactDrain.
From S2P Require Import Placement.
From S2P Require Import Substrate.
From S2P Require Import NodeAgentBatches.
From S2P Require Import DispatchActuator.
From S2P Require Import ActuatorTheorems.
From S2P Require Import LongDelayStages.
From S2P Require Import Adoption.
From S2P Require Import StationState.
From S2P Require Import Recovery.
From S2P Require Import DispatchLoop.
From stdpp Require Import base list strings gmap.
Local Open Scope Z_scope.

(** ** What an effect keeps *)

Section Keeps.
Context (I : Dispatcher → Prop).

(** [c] keeps [I], whether it returns or raises. *)
Definition keeps {A} (c : Effect A) : Prop := ∀ d, I d → I (c d).1.

Lemma keeps_done {A} (a : A) : keeps (done a).
Proof. by intros d. Qed.
Lemma keeps_throw {A} e : keeps (throw (A := A) e).
Proof. by intros d. Qed.
Lemma keeps_read {A} (f : Dispatcher → A) : keeps (read f).
Proof. by intros d. Qed.
Lemma keeps_change f : (∀ d, I d → I (f d)) → keeps (change f).
Proof. intros H d. apply H. Qed.
Lemma keeps_bind {A B} (c : Effect A) (k : A → Effect B) :
  keeps c → (∀ a, keeps (k a)) → keeps (ebind c k).
Proof.
  intros Hc Hk d Hd. unfold ebind. specialize (Hc d Hd). destruct (c d) as [d' [a|e]]; simpl in *;
    [by apply Hk|done].
Qed.
Lemma keeps_for_each {A} (f : A → Effect unit) l : (∀ x, x ∈ l → keeps (f x)) → keeps (for_each f l).
Proof.
  induction l as [|x l IH]; intros H; simpl; [apply keeps_done|].
  apply keeps_bind; [apply H; by left|]. intros _. apply IH. intros y Hy. apply H. by right.
Qed.
End Keeps.

#[export] Hint Resolve keeps_done keeps_throw keeps_read : nodal.

(** [keep] decomposes an effect; what is left are its own operations. *)
Ltac keep :=
  repeat first
    [ done | solve [auto with nodal]
    | progress cbn beta iota
    | match goal with
      | |- keeps _ (ebind _ _) => apply keeps_bind; [|intros ?]
      | |- keeps _ (if ?b then _ else _) => destruct b
      | |- keeps _ (match ?o with _ => _ end) => destruct o
      | |- keeps _ (for_each _ _) => apply keeps_for_each; intros ? ?
      end ].

(** ** No station is stuck *)

Section Live.
Context (wall : nat → datetime) (pending lost : list OperatorRepairCommand).

(** A verification due five seconds to five minutes after a reading of the
    clock. *)
Definition scheduled (readings : nat) (t : datetime) : Prop :=
  ∃ n, (n < readings)%nat ∧ wall n + 5 * 1000000 ≤ t ≤ wall n + 300 * 1000000.

(** A station that is not clean is on its way back: its next verification is
    scheduled and will not be skipped, or the operator is asked for and may act, or
    a repair of it was accepted and has not run, or it is reserved for one of the
    repairs that were lost. *)
Definition recovering (readings : nat) (gs_id : string) (r : RecoveryStatus) : Prop :=
  (∃ t, next_verify_after r = Some t ∧ scheduled readings t ∧ verify_exhausted r = false ∧
        operator_action_required r = false) ∨
  (operator_action_required r = true ∧ active_intervention_id r = None) ∨
  (∃ cmd, cmd ∈ pending ∧ rc_gs_id cmd = gs_id) ∨
  (∃ cmd, cmd ∈ lost ∧ rc_gs_id cmd = gs_id ∧ active_intervention_id r = Some (rc_intervention_id cmd)).

Definition live_state (readings : nat) (gs_id : string) (g : GroundActuationState) : Prop :=
  ga_state g = st_clean ∨ recovering readings gs_id (ga_recovery g).
End Live.

(** Every station but those of [except] is live. *)
Definition live (wall : nat → datetime) (lost : list OperatorRepairCommand) (except : gset string)
    (s : Stations) : Prop :=
  ∀ gs_id g, gs_id ∉ except → gs_actuation s !! gs_id = Some g →
    live_state wall (pending_repairs s) lost (wall_readings s) gs_id g.

Lemma scheduled_mono wall n m t : (n ≤ m)%nat → scheduled wall n t → scheduled wall m t.
Proof. intros Hn (k & Hk & H). exists k. split; [lia|done]. Qed.

Lemma live_state_mono wall pending pending' lost lost' n m gs_id g :
  (n ≤ m)%nat → (∀ cmd, cmd ∈ pending → rc_gs_id cmd = gs_id → cmd ∈ pending') →
  (∀ cmd, cmd ∈ lost → cmd ∈ lost') →
  live_state wall pending lost n gs_id g → live_state wall pending' lost' m gs_id g.
Proof.
  intros Hn Hp Hl [H|[(t & Ht & Hs & H)|[H|[(cmd & Hc & H)|(cmd & Hc & H)]]]]; [by left|right..].
  - left. exists t. eauto using scheduled_mono.
  - right. by left.
  - right. right. left. exists cmd. eauto.
  - right. right. right. exists cmd. eauto.
Qed.

(** What an operation may do to live stations. *)
Lemma live_mono wall lost X s s' :
  gs_actuation s' = gs_actuation s → (wall_readings s ≤ wall_readings s')%nat →
  (∀ cmd, cmd ∈ pending_repairs s → rc_gs_id cmd ∉ X → cmd ∈ pending_repairs s') →
  live wall lost X s → live wall lost X s'.
Proof.
  intros Ha Hr Hp H gs_id g Hx Hg. rewrite Ha in Hg. eapply live_state_mono; [exact Hr| |done|by apply H].
  intros cmd Hc <-. by apply Hp.
Qed.

Lemma live_put wall lost X s gs_id g :
  live wall lost X s → (gs_id ∉ X → live_state wall (pending_repairs s) lost (wall_readings s) gs_id g) →
  live wall lost X (put_state s gs_id g).
Proof.
  intros H Hg gs_id' g' Hx. unfold put_state. simpl.
  intros [[<- <-]|[_ ?]]%lookup_insert_Some; [by apply Hg|by apply H].
Qed.

(** A verification the dispatcher schedules by the backoff. *)
Lemma next_verify_bounds attempts now :
  now + 5 * 1000000 ≤ next_verify_time attempts now ≤ now + 300 * 1000000.
Proof.
  unfold next_verify_time. assert (1 ≤ 2 ^ Z.max 0 (attempts - 1)) by
    (change 1 with (2 ^ 0) at 1; apply Z.pow_le_mono_r; lia). lia.
Qed.

Lemma backoff_scheduled wall n attempts :
  scheduled wall (S n) (next_verify_time attempts (wall n)).
Proof. exists n. split; [lia|]. apply next_verify_bounds. Qed.

Lemma live_put_read wall lost X s gs_id g :
  live wall lost X s →
  (gs_id ∉ X → live_state wall (pending_repairs s) lost (S (wall_readings s)) gs_id g) →
  live wall lost X (clock_read (put_state s gs_id g)).
Proof.
  intros H Hg. apply (live_put wall lost X (clock_read s)); [|done].
  eapply live_mono; [..|exact H]; simpl; auto.
Qed.

Lemma live_subset wall lost X Y s : X ⊆ Y → live wall lost X s → live wall lost Y s.
Proof. intros HX H gs_id g Hy. apply H. set_solver. Qed.

(** ** The operations keep it *)

Section Marks.
Context (caps : gmap string Z) (policy : AgentHealthPolicy) (wall : nat → datetime).
Context (lost : list OperatorRepairCommand).

(** What the health window leaves alone. *)
Lemma health_frame r s :
  gs_actuation (record_agent_health policy wall s r) = gs_actuation s ∧
  gs_stale_link_infos (record_agent_health policy wall s r) = gs_stale_link_infos s ∧
  pending_repairs (record_agent_health policy wall s r) = pending_repairs s ∧
  (wall_readings s ≤ wall_readings (record_agent_health policy wall s r))%nat.
Proof.
  unfold record_agent_health. revert s. induction (agent_results r) as [|a l IH]; intros s; simpl; [done|].
  destruct (IH (record_agent_result policy wall s a)) as (-> & -> & -> & Hr). simpl in Hr.
  split_and!; [done..|lia].
Qed.

Lemma live_health X r s : live wall lost X s → live wall lost X (record_agent_health policy wall s r).
Proof.
  destruct (health_frame r s) as (Ha & _ & Hp & Hr). apply live_mono; [done|done|]. by rewrite Hp.
Qed.

Lemma live_clean X s gs_id : live wall lost X s → live wall lost X (mark_gs_clean caps s gs_id).
Proof. intros H. apply (live_put wall lost X s gs_id clean_state); [done|]. intros _. by left. Qed.

Lemma live_nonclean X au actual s gs_id name affected intervention :
  live wall lost X s → live wall lost X (set_gs_nonclean caps wall au actual s gs_id name affected intervention).
Proof.
  intros H. unfold set_gs_nonclean. apply live_put_read; [exact H|]. intros _. right. left.
  eexists. split; [done|]. split_and!; [|done..]. apply backoff_scheduled.
Qed.

Lemma live_failures X au actual intervention r s m :
  live wall lost X s → live wall lost X (mark_failures caps wall au actual intervention r s m).
Proof.
  unfold mark_failures. revert s. induction (map_to_list m) as [|x l IH]; intros s H; [done|].
  cbn [fold_left]. by apply IH, live_nonclean.
Qed.

Lemma live_absorb X au s h : live wall lost X s → live wall lost X (absorb caps policy wall au s h).
Proof.
  intros H. unfold absorb. destruct (handle_actuation_result _); [by apply live_health|].
  by apply live_failures, live_health.
Qed.

Lemma roster_live s : gs_actuation s = ∅ → live wall lost ∅ (startup_roster caps s).
Proof.
  intros Hs. unfold startup_roster. assert (live wall lost ∅ s) as H.
  { intros gs_id g _. by rewrite Hs, lookup_empty. }
  clear Hs. revert s H. induction (sorted_set str_lt (dom caps)) as [|gs l IH]; intros s H; [done|].
  cbn [fold_left]. by apply IH, live_clean.
Qed.
End Marks.

Section Operations.
Context (ds : Settings) (env : DispatchEnv) (lost : list OperatorRepairCommand) (X : gset string).
Abbreviation wall := (de_wall env).

Definition stations_live (d : Dispatcher) : Prop := live wall lost X (d_stations d).
Abbreviation keeps_live := (keeps stations_live).

Lemma kl_stations f : (∀ s, live wall lost X s → live wall lost X (f s)) → keeps_live (change_stations f).
Proof. intros H. apply keeps_change. intros d. apply H. Qed.

Lemma kl_clock : keeps_live (change_stations clock_read).
Proof. apply kl_stations. intros s. apply live_mono; simpl; auto. Qed.

Lemma kl_health r : keeps_live (health ds env r).
Proof. apply kl_stations. intros s. apply live_health. Qed.

Lemma kl_clean gs_id : keeps_live (mark_clean ds gs_id).
Proof. apply kl_stations. intros s. apply live_clean. Qed.

Lemma kl_nonclean gs_id name affected intervention :
  keeps_live (mark_nonclean ds env gs_id name affected intervention).
Proof. apply keeps_change. intros d. apply live_nonclean. Qed.

(** An effect that leaves the stations alone. *)
Lemma kl_frame {A} (c : Effect A) :
  (∀ d, d_stations (c d).1 = d_stations d) → keeps_live c.
Proof. intros H d. unfold stations_live. by rewrite H. Qed.

Lemma kl_inventory gs_id up down t : keeps_live (send_kernel_inventory ds env gs_id up down t).
Proof. apply kl_frame. intros d. unfold send_kernel_inventory. by destruct (verify_ground_kernel_inventory _ _ _ _ _ _ _ _ _). Qed.

Lemma kl_judge r intervention : keeps_live (judge_result ds env r intervention).
Proof.
  unfold judge_result. destruct (handle_actuation_result r).
  - apply keeps_bind; [|intros _; apply keeps_throw]. by apply keeps_change.
  - apply keeps_change. intros d. apply live_failures.
Qed.

Lemma kl_handle r intervention : keeps_live (handle_result ds env r intervention).
Proof. unfold handle_result. apply keeps_bind; [apply kl_health|intros _; apply kl_judge]. Qed.

Lemma kl_announce announced event : keeps_live (announce announced event).
Proof. unfold announce. keep. Qed.
End Operations.

#[export] Hint Resolve kl_clock kl_health kl_clean kl_nonclean kl_inventory kl_judge kl_handle
  kl_announce : nodal.

Section Recovery.
Context (ds : Settings) (env : DispatchEnv) (lost : list OperatorRepairCommand) (X : gset string).
Abbreviation wall := (de_wall env).
Abbreviation keeps_live := (keeps (stations_live env lost X)).

Lemma kl_verify gs_id t : keeps_live (verify_gs ds env gs_id t None).
Proof.
  unfold verify_gs. keep.
  - apply kl_stations. intros s Hs. apply live_put_read; [done|]. intros _. right. left. simpl.
    eexists. split_and!; [done| |done..]. exists (wall_readings s).
    unfold now_of, transport_retry_delay, degraded_transport_retry_delay.
    split; [lia|]. destruct (existsb _ _); lia.
  - apply kl_stations. intros s Hs. apply live_put_read; [done|]. intros _. right.
    unfold recovering, failed_recovery. simpl. destruct (_ <=? _); [right; by left|left].
    eexists. split_and!; [done| |done..]. apply backoff_scheduled.
Qed.

Lemma kl_verifications t : keeps_live (run_due_kernel_verifications ds env t).
Proof. unfold run_due_kernel_verifications, verify_if_due. keep. apply kl_verify. Qed.

Lemma kl_audit t : keeps_live (run_due_clean_kernel_audit ds env t).
Proof.
  unfold run_due_clean_kernel_audit, audit_clean_ground_kernel_state, audit_station,
    audit_long_delay_ends. keep.
  - apply kl_stations. intros s. apply live_mono; simpl; auto.
  - apply kl_frame. intros d. by destruct (send_proof _ _ _ _ _ _) as [[st r]|e].
Qed.

Lemma kl_pending desired d : stations_live env lost X d → stations_live env lost X (update_pending env desired d).
Proof. apply live_mono; simpl; auto. Qed.

Lemma kl_absorb_all log d :
  stations_live env lost X d → stations_live env lost X (absorb_all ds env log d).
Proof.
  unfold stations_live, absorb_all. simpl. generalize (d_stations d). 
  induction log as [|h log IH]; intros s H; [done|]. cbn [fold_left]. by apply IH, live_absorb.
Qed.

Lemma kl_reconcile intent : keeps_live (reconcile_links ds env intent).
Proof.
  assert (keeps_live (reconcile_body ds env intent)) as Hb.
  { unfold reconcile_body, latency_pass, change_actual. keep; auto using kl_verifications, kl_audit.
    - by intros d Hd.
    - by apply keeps_change.
    - by apply keeps_change.
    - apply keeps_change. intros d. apply kl_pending.
    - intros d Hd. unfold long_delay_pass. destruct (reconcile_long_delay _ _ _ _ _ _ _ _); [|done].
      by apply (kl_absorb_all _ d).
    - intros d Hd. unfold plain_pass. destruct (if ds_mbb_dispatch ds then _ else _) as [[tr log]|]; [|done].
      by apply (kl_absorb_all _ d).
    - apply kl_frame. intros d. by destruct (send_latency _ _ _ _ _) as [[st r]|e]. }
  intros d Hd. unfold reconcile_links. specialize (Hb d Hd).
  destruct (reconcile_body ds env intent d) as [d' o]. by apply kl_pending.
Qed.
End Recovery.

Lemma live_lost wall' lost1 lost2 X s :
  (∀ cmd, cmd ∈ lost1 → cmd ∈ lost2) → live wall' lost1 X s → live wall' lost2 X s.
Proof. intros Hl H gs_id g Hx Hg. eapply live_state_mono; [done|done|exact Hl|by apply H]. Qed.

Lemma live_add wall' lost gs_id s :
  live wall' lost {[gs_id]} s →
  (∀ g, gs_actuation s !! gs_id = Some g →
     live_state wall' (pending_repairs s) lost (wall_readings s) gs_id g) →
  live wall' lost ∅ s.
Proof.
  intros H Hg gs' g _ Hs. destruct (decide (gs' = gs_id)) as [->|Hne]; [by apply Hg|].
  apply H; [set_solver|done].
Qed.

Section Repair.
Context (ds : Settings) (env : DispatchEnv) (lost : list OperatorRepairCommand).
Abbreviation wall := (de_wall env).

Lemma kl_command X cmd reasons t : keeps (stations_live env lost X) (send_command ds env cmd reasons t).
Proof.
  apply kl_frame. intros d. unfold send_command.
  by destruct (actuator_answer _ _ _ _ _ _ _ _ _ _ _) as [[r l]|e].
Qed.
Lemma kl_tracked X f : keeps (stations_live env lost X) (change_tracked f).
Proof. apply kl_frame. intros d. unfold change_tracked. by destruct (f _). Qed.

(** The repair of a station touches no other station's way back. *)
Lemma kl_repair_body X announced gs_id intervention t authority teardown :
  keeps (stations_live env lost X) (repair_body ds env announced gs_id intervention t authority teardown).
Proof.
  unfold repair_body, repair_teardown, repair_rewire, repair_final, repair_proof, repair_result.
  keep; auto using kl_command, kl_tracked.
Qed.

(** A repair that ends well ends clean. *)
Lemma repair_body_clean announced gs_id intervention t authority teardown d d' :
  repair_body ds env announced gs_id intervention t authority teardown d = (d', Ok tt) →
  gs_actuation (d_stations d') !! gs_id = Some clean_state.
Proof.
  unfold repair_body. unfold ebind.
  destruct (repair_teardown _ _ _ _ _ _ _ _) as [d1 [[]|]]; [|done].
  destruct (repair_rewire _ _ _ _ _ _ _) as [d2 [[]|]]; [|done].
  destruct (repair_final _ _ _ _ _ _ _) as [d3 [[]|]]; [|done].
  unfold announce. destruct (announced Succeeded); [|done].
  intros [= <-]. simpl. apply lookup_insert_eq.
Qed.

(** A repair settles its station, or loses the repair. *)
Lemma repair_live announced d cmd :
  live wall lost {[rc_gs_id cmd]} (d_stations d) →
  live wall (lost ++ lost_repair (announced Started) cmd) ∅
    (d_stations (run_operator_repair ds env announced d cmd)).
Proof.
  intros H. unfold run_operator_repair, lost_repair.
  set (d0 := with_stations d _). assert (stations_live env lost {[rc_gs_id cmd]} d0) as H0.
  { apply live_put; [|set_solver]. by eapply live_mono; [..|exact H]. }
  destruct (announced Started); cbn [negb].
  2: { eapply live_add; [by eapply live_lost; [|exact H0]; set_solver|]. intros g. simpl.
       rewrite lookup_insert_eq. intros [= <-]. right. right. right. right.
       exists cmd. split; [set_solver|done]. }
  rewrite app_nil_r. destruct (repair_body _ _ _ _ _ _ _ _ d0) as [d1 o] eqn:E.
  epose proof (kl_repair_body _ _ _ _ _ _ _ d0 H0) as H1. rewrite E in H1. destruct o as [[]|e].
  - apply repair_body_clean in E. apply (kl_pending env lost ∅). eapply live_add; [exact H1|].
    intros g Hg. left. rewrite E in Hg. by injection Hg as <-.
  - set (d2 := with_stations d1 _). assert (stations_live env lost ∅ d2) as H2.
    { eapply live_add; [by apply live_put_read; [exact H1|set_solver]|].
      intros g. simpl. rewrite lookup_insert_eq. intros [= <-]. right. left. eexists.
      split_and!; [done| |done..]. apply backoff_scheduled. }
    destruct (announced RepairFailed); [by apply kl_pending|done].
Qed.

Lemma accept_live announced d cmd :
  live wall lost ∅ (d_stations d) →
  live wall (lost ++ lost_repair (announced Requested) cmd) ∅
    (d_stations (on_operator_repair_command ds announced d cmd).1).
Proof.
  intros H. eapply (live_lost _ lost) in H; [|intros c; rewrite elem_of_app; by left].
  unfold on_operator_repair_command, lost_repair in *. destruct (repair_refusal _ _ _); [exact H|].
  apply live_put.
  - eapply live_mono; [..|exact H]; simpl; [done..|]. intros c Hc _. apply elem_of_app. by left.
  - intros _. right. right. right. destruct (announced Requested); [left|right]; exists cmd.
    + split; [simpl; apply elem_of_app; right; by left|done].
    + split; [apply elem_of_app; right; by left|done].
Qed.

Lemma turn_live d d' :
  worker_turn ds env d = Drops d' ∨ worker_turn ds env d = Ends d' ∨
    (∃ intent, worker_turn ds env d = Reconciles intent d') →
  live wall lost ∅ (d_stations d) → live wall lost ∅ (d_stations d').
Proof.
  intros Ht H. unfold worker_turn in Ht. destruct (d_queue d) as [|[intent|] queue]; [naive_solver|..].
  2: { destruct Ht as [?|[[= <-]|[? ?]]]; done. }
  destruct (d_stopped d). { destruct Ht as [?|[[= <-]|[? ?]]]; done. }
  destruct (_ && _). { destruct Ht as [[= <-]|[?|[? ?]]]; done. }
  destruct (drain_to_latest _ _ _) as [[[i rebase]|] queue'].
  2: { destruct Ht as [?|[[= <-]|[? ?]]]; done. }
  set (d0 := if rebase then _ else _) in Ht.
  assert (stations_live env lost ∅ d0) as H0 by (unfold d0; by destruct rebase).
  pose proof (kl_reconcile ds env lost ∅ i d0 H0) as Hr.
  destruct (reconcile_links ds env i d0) as [d1 [[]|e]]; simpl in Hr.
  - destruct Ht as [?|[?|[? [= <- <-]]]]; done.
  - destruct Ht as [?|[[= <-]|[? ?]]]; done.
Qed.

End Repair.

Lemma reachable_live ds env epsilon_ms lost d :
  reachable ds env epsilon_ms lost d → live (de_wall env) lost ∅ (d_stations d).
Proof.
  induction 1 as [au st s Hs Hp|lost new d d' _ IH Hstep]; [by apply roster_live|].
  destruct Hstep as [msg au intents err stopped _|t _|d' Ht|announced cmd|announced before cmd after Hp|];
    try (rewrite app_nil_r; done).
  - rewrite app_nil_r. by eapply turn_live.
  - by apply accept_live.
  - apply repair_live. apply (live_mono _ _ _ (d_stations d)); [done|done| |].
    2: { eapply live_subset; [|exact IH]. set_solver. }
    simpl. intros c. rewrite Hp, !elem_of_app, elem_of_cons. intros Hc Hx.
    destruct Hc as [?|[->|?]]; [by left|set_solver|by right].
Qed.

(** A lost repair.  Its station stays reserved for it: it is not verified again, and
    every later repair of it is refused. *)
Lemma lost_repair_strands ds announced d cmd :
  repair_refusal ds d cmd = None → announced Requested = false → rc_intervention_id cmd ≠ "" →
  let d' := (on_operator_repair_command ds announced d cmd).1 in
  ga_state (d_state d' (rc_gs_id cmd)) ≠ st_clean ∧
  next_verify_after (ga_recovery (d_state d' (rc_gs_id cmd))) = None ∧
  pending_repairs (d_stations d') = pending_repairs (d_stations d) ∧
  ∀ next, rc_gs_id next = rc_gs_id cmd → is_Some (repair_refusal ds d' next) ∧
    on_operator_repair_command ds announced d' next = (d', (on_operator_repair_command ds announced d' next).2).
Proof.
  intros Hr Ha Hid. unfold on_operator_repair_command at 1. rewrite Hr, Ha. cbn [fst].
  set (d' := with_stations d _). cbv zeta.
  assert (ga_state (d_state d (rc_gs_id cmd)) ≠ st_clean) as Hne.
  { unfold repair_refusal in Hr. repeat (case_match; [done|]). by case_bool_decide. }
  assert (d_state d' (rc_gs_id cmd) = with_recovery (d_state d (rc_gs_id cmd))
    (active_recovery (ga_recovery (d_state d (rc_gs_id cmd))) (rc_intervention_id cmd))) as Hs.
  { unfold d_state at 1, ground_state. simpl. by rewrite lookup_insert_eq. }
  rewrite Hs. split_and!; [exact Hne|done| |].
  - simpl. apply app_nil_r.
  - intros next Hn. assert (is_Some (repair_refusal ds d' next)) as [why Hw].
    { unfold repair_refusal. rewrite Hn, Hs. repeat (case_match; [done|]). simpl in *.
      destruct (rc_intervention_id cmd) as [|c rest]; [done|]. cbn in *. done. }
    split; [by exists why|]. unfold on_operator_repair_command. by rewrite Hw.
Qed.

(** C12: no ground station is left without a way back to clean, but by a repair that
    could not be announced.  In every state the Scheduler reaches, whatever the Node
    Agents answer and in whatever order messages, passes, repair commands and repairs
    come, a station that is not clean has its next kernel verification scheduled, five
    seconds to five minutes after a reading of the clock, and no flag makes the loop
    skip it; or it asks for the operator and no intervention stands in the way of one;
    or a repair of it was accepted and has yet to run; or it is reserved for one of the
    repairs whose acceptance or start could not be published. *)
Theorem no_station_stuck ds env epsilon_ms lost d gs_id g :
  reachable ds env epsilon_ms lost d → gs_actuation (d_stations d) !! gs_id = Some g →
  ga_state g ≠ st_clean →
  (∃ t n, next_verify_after (ga_recovery g) = Some t ∧
     (n < wall_readings (d_stations d))%nat ∧
     de_wall env n + 5 * 1000000 ≤ t ≤ de_wall env n + 300 * 1000000 ∧
     verify_exhausted (ga_recovery g) = false ∧ operator_action_required (ga_recovery g) = false) ∨
  (operator_action_required (ga_recovery g) = true ∧ active_intervention_id (ga_recovery g) = None) ∨
  (∃ cmd, cmd ∈ pending_repairs (d_stations d) ∧ rc_gs_id cmd = gs_id) ∨
  (∃ cmd, cmd ∈ lost ∧ rc_gs_id cmd = gs_id ∧
     active_intervention_id (ga_recovery g) = Some (rc_intervention_id cmd)).
Proof.
  intros Hr Hg Hne. apply reachable_live in Hr.
  destruct (Hr gs_id g ltac:(set_solver) Hg) as [?|[(t & Ht & (n & Hn & Hb) & He & Ho)|H]]; [done|..].
  - left. exists t, n. auto.
  - by right.
Qed.
