(* ===== verification/RecoveryTheorems.v ===== *)
(** * What verification, repair and the dispatch loop establish

    A verification clears a station only on proof and counts only evidence; a
    repair that succeeds leaves the station with exactly the links the authority
    wants, proven; a pass whose commands succeed leaves exactly the desired links;
    stations that are not trusted are not commanded; the worker acts on the newest
    intent. *)

From S2P Require Import Prelude.
From S2P Require Import PyFloat.
From S2P Require Import PyData.
From S2P Require Import PyTime.
From S2P Require Import GroundTypes.
From S2P Require Import EventDiff.
From S2P Require Import AgentHealth.
From S2P Require Import EpochSync.
From S2P Require Import DesiredState.
From S2P Require Import Authority.
From S2P Require Import Actuation.
From S2P Require Import DispatchPlanner.
From S2P Require Import ReconcileTheorems.
From S2P Require Import ContactDrain.
From S2P Require Import Placement.
From S2P Require Import Substrate.
From S2P Require Import NodeAgentBatches.
From S2P Require Import BatchTheorems.
From S2P Require Import DispatchActuator.
From S2P Require Import ActuatorTheorems.
From S2P Require Import LongDelayStages.
From S2P Require Import Adoption.
From S2P Require Import StationState.
From S2P Require Import Recovery.
From S2P Require Import DispatchLoop.
From S2P Require Import StationTheorems.
From stdpp Require Import base list strings gmap.
Local Open Scope Z_scope.

(** ** Effects that return *)

Lemma ebind_Ok {A B} (c : Effect A) (k : A → Effect B) d d' b :
  ebind c k d = (d', Ok b) ↔ ∃ d1 a, c d = (d1, Ok a) ∧ k a d1 = (d', Ok b).
Proof.
  unfold ebind. destruct (c d) as [d1 [a|e]]; split.
  - intros H. by exists d1, a.
  - by intros (? & ? & [= <- <-] & ?).
  - done.
  - by intros (? & ? & ? & ?).
Qed.

(** [estep H as d a E] opens the first operation of [H : ebind c k d' = (_, Ok _)]
    into [E : c d' = (d, Ok a)]. *)
Tactic Notation "estep" hyp(H) "as" simple_intropattern(d) simple_intropattern(a) simple_intropattern(E) :=
  apply ebind_Ok in H; destruct H as (d & a & E & H); cbn beta iota in H.

(** ** Acquires *)

Lemma acquire_lookup gcap scap desired st p st' q :
  acquire gcap scap desired st p = Ok st' →
  is_Some (desired !! p) ∧
  actual_links st' !! q = if bool_decide (q = p) then desired !! p else actual_links st !! q.
Proof.
  unfold acquire. intros H. rbind H as info Hi. destruct (count_link _ _ _ _ _ _) as [g s].
  injection H as <-. simpl. rewrite Hi. split; [by eexists|].
  case_bool_decide as E; [subst; apply lookup_insert_eq|by apply lookup_insert_ne].
Qed.

Lemma acquires_lookup gcap scap desired l st st' q :
  foldM (acquire gcap scap desired) st l = Ok st' →
  (q ∈ l → is_Some (desired !! q)) ∧
  actual_links st' !! q = if bool_decide (q ∈ l) then desired !! q else actual_links st !! q.
Proof.
  revert st. induction l as [|p l IH]; intros st H; simpl in H.
  { injection H as <-. split; [by intros ?%elem_of_nil|]. rewrite bool_decide_false; [done|].
    by intros ?%elem_of_nil. }
  rbind H as st1 H1. destruct (IH st1 H) as [Hs ->]. destruct (acquire_lookup _ _ _ _ _ _ q H1) as [Hp ->].
  split; [intros [->|?]%elem_of_cons; auto|].
  repeat case_bool_decide; subst; try done; set_solver.
Qed.

(** ** Batches *)

(** The records an acquire was sent with keep their links' types. *)
Lemma up_records loc caps rates comp stage pairs desired plan desired' p info' :
  NoDup pairs → build_link_up_batch_plan loc caps rates comp stage pairs desired = Ok (plan, desired') →
  desired' !! p = Some info' → ∃ info, desired !! p = Some info ∧ link_type info' = link_type info.
Proof.
  intros Hnd H Hp. destruct (link_up_pairs _ _ _ _ _ _ _ _ _ Hnd H) as (batches & Hm & _ & Hb & Hd).
  destruct (decide (p ∈ pairs)) as [Hin|Hin].
  - rewrite <- Hm in Hin. apply list_elem_of_fmap in Hin as ([q msgs] & -> & Hq).
    destruct (Hb _ _ Hq) as (c & info & _ & _ & Hi & Hd'). simpl in *. rewrite Hd' in Hp.
    injection Hp as <-. by exists info.
  - rewrite Hd in Hp by done. by exists info'.
Qed.

Section Commands.
Context (ds : Settings) (env : DispatchEnv).
Abbreviation caps := (cfg_gs_capacities (dp_config (ds_deployment ds))).

(** A batch of the dispatcher: what it answers for was asked, nothing else of the
    dispatcher changes, and an acquire's records keep their types. *)
Lemma send_command_spec cmd reasons t d d' r desired' :
  send_command ds env cmd reasons t d = (d', Ok (r, desired')) →
  d' = with_stages d (sent (d_stages d) CmdBatch r) ∧ succeeded_pairs r ⊆ command_pairs cmd ∧
  ∀ pairs desired p info', cmd = UpBatch pairs desired → desired' !! p = Some info' →
    ∃ info, desired !! p = Some info ∧ link_type info' = link_type info.
Proof.
  unfold send_command. destruct (actuator_answer _ _ _ _ _ _ _ _ _ _ _) as [[r' l]|e] eqn:E; [|done].
  intros [= <- <- <-]. split; [done|]. split.
  - intros p. apply (answer_requested (Agents := actuator_agents _ _ _ _ _ _ _ _ _) _ _ _ _ p E).
  - intros pairs desired p info' -> Hp. unfold actuator_answer in E. rbind E as [[r1 d1] ups] Hs.
    injection E as <- <-. unfold send_batch_up in Hs. rbind Hs as u Hu. rbind Hs as [plan d2] Hb.
    rbind Hs as r2 Hr. rbind Hs as ups' Hups. injection Hs as <- <- <-.
    eapply up_records; [|exact Hb|exact Hp]. apply NoDup_sorted_set.
Qed.

Lemma inventory_spec gs_id up down t d d' r :
  send_kernel_inventory ds env gs_id up down t d = (d', Ok r) →
  d' = with_stages d (sent (d_stages d) (CmdInventory gs_id up down) r) ∧
  (has_failures r = false → dom up ∪ dom down ⊆ succeeded_pairs r ∧
     Forall (λ a, ar_failure_class a = fc_none) (agent_results r)).
Proof.
  unfold send_kernel_inventory.
  destruct (verify_ground_kernel_inventory _ _ _ _ _ _ _ _ _) as [r'|e] eqn:E; [|done].
  intros [= <- <-]. split; [done|]. intros Hf. apply orb_false_iff in Hf as [Hf Ha].
  apply negb_false_iff, bool_decide_eq_true in Hf. split.
  - intros p Hp. unfold verify_ground_kernel_inventory in E. rbind E as planned Hpl. rbind E as l1 H1.
    rbind E as l2 H2. injection E as <-. simpl in *. apply elem_of_filter. split.
    + destruct (pr_success _) eqn:Es; [done|]. exfalso. apply (not_elem_of_empty p (C := gset node_pair)).
      rewrite <- Hf. apply elem_of_filter. split; [done|]. rewrite elem_of_list_to_set, elem_of_app.
      rewrite !list_elem_of_fmap. apply elem_of_union in Hp as [Hp|Hp];
        apply elem_of_dom in Hp as [info Hi]; [left|right]; exists (p, info);
        by rewrite elem_of_map_to_list.
    + rewrite elem_of_list_to_set, elem_of_app, !list_elem_of_fmap.
      apply elem_of_union in Hp as [Hp|Hp]; apply elem_of_dom in Hp as [info Hi]; [left|right];
        exists (p, info); by rewrite elem_of_map_to_list.
  - apply Forall_forall. intros a Hin%list_elem_of_In. destruct (decide (ar_failure_class a = fc_none)); [done|].
    exfalso. assert (existsb failing (agent_results r') = true) as Hc; [|congruence].
    apply existsb_exists. exists a. split; [done|]. unfold failing. by rewrite bool_decide_false.
Qed.
End Commands.

(** ** Verification *)

Section Verification.
Context (ds : Settings) (env : DispatchEnv).

(** The last thing sent was an inventory of the station, answered by [r]. *)
Definition inventoried (gs_id : string) (up down : Links) (r : ActuationResult) (d d' : Dispatcher) : Prop :=
  d_trace d' = d_trace d ++ [(CmdInventory gs_id up down, r)].

(** What one verification comes to, case by case. *)
Inductive verified (gs_id : string) (d d' : Dispatcher) : bool → Prop :=
| verified_nothing :
    actual_at ds d gs_id = ∅ → expected_down_at ds d gs_id (actual_at ds d gs_id) = ∅ →
    d_trace d' = d_trace d → gs_actuation (d_stations d') !! gs_id = Some clean_state →
    verified gs_id d d' true
| verified_proven r up down :
    up = actual_at ds d gs_id → down = expected_down_at ds d gs_id up →
    inventoried gs_id up down r d d' → dom up ∪ dom down ⊆ succeeded_pairs r →
    Forall (λ a, ar_failure_class a = fc_none) (agent_results r) →
    gs_actuation (d_stations d') !! gs_id = Some clean_state →
    verified gs_id d d' true
| verified_unreachable r up down g :
    inventoried gs_id up down r d d' → transport_only_failure r = true →
    gs_actuation (d_stations d') !! gs_id = Some g → ga_state g = ga_state (d_state d gs_id) →
    verify_attempt_count (ga_recovery g) = verify_attempt_count (ga_recovery (d_state d gs_id)) →
    is_Some (next_verify_after (ga_recovery g)) → operator_action_required (ga_recovery g) = false →
    verified gs_id d d' false
| verified_mismatch r up down g :
    inventoried gs_id up down r d d' → has_failures r = true → transport_only_failure r = false →
    gs_actuation (d_stations d') !! gs_id = Some g → ga_state g = st_kernel_dirty →
    verify_attempt_count (ga_recovery g) = verify_attempt_count (ga_recovery (d_state d gs_id)) + 1 →
    operator_action_required (ga_recovery g) =
      (max_kernel_verify_attempts <=? verify_attempt_count (ga_recovery g)) →
    is_none (next_verify_after (ga_recovery g)) = operator_action_required (ga_recovery g) →
    verified gs_id d d' false.

Lemma verify_cases gs_id t d d' b :
  verify_gs ds env gs_id t None d = (d', Ok b) → d_actual d' = d_actual d ∧ verified gs_id d d' b.
Proof.
  unfold verify_gs. intros H. estep H as d0 x E0. injection E0 as <- <-.
  case_bool_decide as Hempty.
  { estep H as d1 x E1. injection E1 as <-. injection H as <- <-. destruct Hempty as [Hu Hd].
    split; [done|]. apply verified_nothing; [done..|]. simpl. apply lookup_insert_eq. }
  estep H as d1 r E1. apply inventory_spec in E1 as [-> Hr]. estep H as d2 x E2. injection E2 as <-.
  destruct (transport_only_failure r) eqn:Ht.
  { estep H as d3 x' E3. injection E3 as <-. injection H as <- <-. split; [done|].
    eapply (verified_unreachable _ _ _ r); [done|done|simpl; apply lookup_insert_eq|done..|].
    by eexists. }
  destruct (has_failures r) eqn:Hf; simpl in H.
  - estep H as d3 x' E3. injection E3 as <-. injection H as <- <-. split; [done|].
    eapply (verified_mismatch _ _ _ r); [done|done|done|simpl; apply lookup_insert_eq|done..|].
    simpl. by destruct (_ <=? _).
  - estep H as d3 x' E3. injection E3 as <-. injection H as <- <-. split; [done|].
    destruct (Hr eq_refl). eapply (verified_proven _ _ _ r); [done..|]. simpl. apply lookup_insert_eq.
Qed.
End Verification.

(** C13: a verification clears a station only on proof and counts only evidence.  It
    changes no link.  When it returns true the station is clean and either the
    Scheduler holds and fears no link there, or every link it holds was proven up
    and every link that may still be wired proven down, no agent reporting a failure.
    When it returns false either no agent could be reached, and state and attempt
    count stay, or a mismatch was observed, which makes the station kernel-dirty,
    counts one attempt, and at the fifth asks for the operator instead of
    scheduling another. *)
Theorem verification_needs_proof ds env gs_id t d d' b :
  verify_gs ds env gs_id t None d = (d', Ok b) →
  d_actual d' = d_actual d ∧ verified ds gs_id d d' b.
Proof. apply verify_cases. Qed.

(** A run of verifications of one station, each finding a mismatch; in between
    anything may happen that keeps the station's recovery. *)
Inductive mismatches (ds : Settings) (env : DispatchEnv) (gs_id : string) :
    nat → Dispatcher → Dispatcher → Prop :=
| mismatches_none d : mismatches ds env gs_id 0 d d
| mismatches_more n t r up down d d1 d2 d3 :
    mismatches ds env gs_id n d d1 → d_state d2 gs_id = d_state d1 gs_id →
    verify_gs ds env gs_id t None d2 = (d3, Ok false) →
    inventoried gs_id up down r d2 d3 → transport_only_failure r = false →
    mismatches ds env gs_id (S n) d d3.

Lemma mismatches_count ds env gs_id n d d' :
  mismatches ds env gs_id n d d' →
  verify_attempt_count (ga_recovery (d_state d' gs_id)) =
    verify_attempt_count (ga_recovery (d_state d gs_id)) + Z.of_nat n ∧
  ((0 < n)%nat → ga_state (d_state d' gs_id) = st_kernel_dirty ∧
     operator_action_required (ga_recovery (d_state d' gs_id)) =
       (max_kernel_verify_attempts <=? verify_attempt_count (ga_recovery (d_state d' gs_id)))).
Proof.
  induction 1 as [d|n t r up down d d1 d2 d3 _ [IH _] Hs Hv Ht Hr]; [split; [lia|lia]|].
  apply verify_cases in Hv as [_ Hv].
  inversion Hv as [| |r' up' down' g Ht' Hr' Hg Hst Hc _ _|r' up' down' g Ht' Hf' Hr' Hg Hst Hc Ho _]; subst.
  - unfold inventoried in Ht, Ht'. rewrite Ht in Ht'. apply app_inv_head in Ht'. injection Ht' as -> -> ->.
    congruence.
  - unfold d_state at 1 3 4 5, ground_state. rewrite Hg. simpl. rewrite Hc, Hs, IH. split; [lia|].
    intros _. split; [done|]. rewrite Ho, Hc, Hs, IH. f_equal.
Qed.

(** repeated evidence ends in a call for the operator, after exactly five
    mismatches.  Starting with no attempt counted, after [n] verifications that
    found a mismatch the station is kernel-dirty and asks for the operator exactly
    when [n] is at least five; unreachable agents do not bring it there. *)
Theorem evidence_calls_operator ds env gs_id n d d' :
  mismatches ds env gs_id n d d' → (0 < n)%nat →
  verify_attempt_count (ga_recovery (d_state d gs_id)) = 0 →
  ga_state (d_state d' gs_id) = st_kernel_dirty ∧
  (operator_action_required (ga_recovery (d_state d' gs_id)) = true ↔ (5 ≤ n)%nat).
Proof.
  intros H Hn H0. apply mismatches_count in H as [Hc H]. destruct (H Hn) as [Hs Ho].
  split; [done|]. rewrite Ho, Hc, H0. unfold max_kernel_verify_attempts. lia.
Qed.

(** ** Repair *)

Section Repair.
Context (ds : Settings) (env : DispatchEnv) (announced : RepairEvent → bool).
Context (gs_id intervention : string) (t : datetime).
Abbreviation caps := (cfg_gs_capacities (dp_config (ds_deployment ds))).

(** The links the repair found or made, outside [touched]. *)
Definition same_links (touched : gset node_pair) (d d' : Dispatcher) : Prop :=
  ∀ p, p ∉ touched → d_actual d' !! p = d_actual d !! p.

Lemma judge_actual r i d d' x : judge_result ds env r i d = (d', Ok x) →
  d_actual d' = d_actual d ∧ d_trace d' = d_trace d ∧ d_authority d' = d_authority d.
Proof.
  unfold judge_result. intros H. destruct (handle_actuation_result r).
  - estep H as d2 u' E2. injection E2 as <- <-. done.
  - injection H as <- <-. done.
Qed.

Lemma handle_actual r i d d' x : handle_result ds env r i d = (d', Ok x) →
  d_actual d' = d_actual d ∧ d_trace d' = d_trace d ∧ d_authority d' = d_authority d.
Proof.
  unfold handle_result. intros H. estep H as d1 u E. injection E as <- <-. by apply judge_actual in H.
Qed.

Lemma announce_same event d d' x : announce announced event d = (d', Ok x) → d' = d.
Proof. unfold announce. destruct (announced event); [by intros [= <- _]|done]. Qed.

(** A result of the repair that was judged and announced. *)
Lemma result_actual r e1 e2 d d' x : repair_result ds env announced intervention r e1 e2 d = (d', Ok x) →
  d_actual d' = d_actual d ∧ d_trace d' = d_trace d ∧ d_authority d' = d_authority d.
Proof.
  unfold repair_result. intros H. estep H as d1 u1 E1. injection E1 as <- <-. estep H as d2 u2 E2.
  apply announce_same in E2 as ->. estep H as d3 u3 E3. apply announce_same in H as ->.
  by apply judge_actual in E3.
Qed.

(** A proof that passed. *)
Lemma repair_proof_spec up down what d d' :
  repair_proof ds env gs_id intervention t up down what d = (d', Ok tt) →
  ∃ r, d' = with_stages d (sent (d_stages d) (CmdInventory gs_id up down) r) ∧
    dom up ∪ dom down ⊆ succeeded_pairs r ∧
    Forall (λ a, ar_failure_class a = fc_none) (agent_results r).
Proof.
  unfold repair_proof. intros H. estep H as d1 r E. apply inventory_spec in E as [-> Hr].
  destruct (has_failures r).
  - estep H as d2 u E2. done.
  - injection H as <-. exists r. by destruct (Hr eq_refl).
Qed.

Lemma repair_teardown_spec teardown d d' :
  repair_teardown ds env announced gs_id intervention t teardown d = (d', Ok tt) →
  d_authority d' = d_authority d ∧ (∀ p, p ∈ dom teardown → d_actual d' !! p = None) ∧
  same_links (dom teardown) d d'.
Proof.
  unfold repair_teardown. case_bool_decide as Ht.
  { intros [= <-]. rewrite Ht. split_and!; [done|set_solver|done]. }
  intros H. estep H as d1 [r l] E1. apply send_command_spec in E1 as (-> & Hsub & _).
  estep H as d2 u E2. apply result_actual in E2 as (Ha & _ & Hau).
  estep H as d3 u' E3. unfold change_tracked in E3. injection E3 as <- <-.
  case_bool_decide as Hall; [|done]. apply repair_proof_spec in H as (r' & -> & _).
  assert (∀ p, d_actual (with_stages d2 (with_tracked (d_stages d2)
    (release_all (dp_config (ds_deployment ds)) (sg_tracked (d_stages d2)) (succeeded_pairs r)))) !! p =
    if bool_decide (p ∈ succeeded_pairs r) then None else d_actual d !! p) as Hl.
  { intros p. unfold d_actual at 1, sg_actual. simpl. rewrite release_all_lookup.
    case_bool_decide; [done|]. change (actual_links (sg_tracked (d_stages d2))) with (d_actual d2).
    by rewrite Ha. }
  simpl in Hsub. split; [exact Hau|]. split.
  - intros p Hp. etrans; [apply Hl|]. rewrite bool_decide_true; [done|]. by apply Hall.
  - intros p Hp. etrans; [apply Hl|]. rewrite bool_decide_false; [done|]. set_solver.
Qed.

Lemma repair_rewire_spec authority d d' :
  repair_rewire ds env announced intervention t authority d = (d', Ok tt) →
  (∀ p info', p ∈ dom authority → d_actual d' !! p = Some info' →
     ∃ info, authority !! p = Some info ∧ link_type info' = link_type info) ∧
  dom authority ⊆ dom (d_actual d') ∧ same_links (dom authority) d d'.
Proof.
  unfold repair_rewire. case_bool_decide as Ht.
  { intros [= <-]. rewrite Ht. split_and!; [set_solver|set_solver|done]. }
  intros H. estep H as d1 [r desired] E1. apply send_command_spec in E1 as (-> & Hsub & Hty).
  estep H as d2 u E2. apply result_actual in E2 as (Ha & _ & _).
  estep H as d3 u' E3. unfold change_tracked in E3. destruct (foldM _ _ _) as [tr|] eqn:Ef; [|done].
  injection E3 as <- <-. case_bool_decide as Hall; [|done]. injection H as <-. simpl in Hsub.
  assert (∀ p, p ∈ dom authority → is_Some (desired !! p) ∧ actual_links tr !! p = desired !! p) as Hin.
  { intros p Hp. apply Hall in Hp as Hs. destruct (acquires_lookup _ _ _ _ _ _ p Ef) as [Hd ->].
    rewrite bool_decide_true by (by apply elem_of_sorted_set). split; [|done].
    by apply Hd, elem_of_sorted_set. }
  split_and!.
  - intros p info' Hp Hi. destruct (Hin p Hp) as [_ Hl].
    change (actual_links tr !! p = Some info') in Hi. rewrite Hl in Hi. by eapply Hty.
  - intros p Hp. apply elem_of_dom. destruct (Hin p Hp) as [[info Hd] Hl]. exists info.
    change (actual_links tr !! p = Some info). by rewrite Hl.
  - intros p Hp. change (actual_links tr !! p = d_actual d !! p).
    destruct (acquires_lookup _ _ _ _ _ _ p Ef) as [_ ->]. rewrite bool_decide_false.
    + change (d_actual d2 !! p = d_actual d !! p). by rewrite Ha.
    + rewrite elem_of_sorted_set. set_solver.
Qed.

Lemma repair_final_spec authority d d' :
  repair_final ds env gs_id intervention t authority d = (d', Ok tt) →
  d_actual d' = d_actual d ∧
  ((authority = ∅ ∧ d_trace d' = d_trace d) ∨
   ∃ down r, d_trace d' = d_trace d ++ [(CmdInventory gs_id authority down, r)] ∧
     down = expected_down_at ds d gs_id authority ∧ dom authority ∪ dom down ⊆ succeeded_pairs r ∧
     Forall (λ a, ar_failure_class a = fc_none) (agent_results r)).
Proof.
  unfold repair_final. intros H. estep H as d1 x E. injection E as <- <-. case_bool_decide as Hc.
  - injection H as <-. split; [done|]. left. by destruct Hc.
  - apply repair_proof_spec in H as (r & -> & Hp & Hf). split; [done|]. right. eauto 6.
Qed.
End Repair.

Lemma elem_of_ground_pairs caps gs_id links p :
  p ∈ dom (ground_pairs_for_gs caps gs_id links) ↔
  ∃ info, links !! p = Some info ∧ at_station caps gs_id (p, info).
Proof.
  unfold ground_pairs_for_gs. rewrite elem_of_dom. unfold is_Some.
  by setoid_rewrite map_lookup_filter_Some.
Qed.

(** What a repair that leaves its station clean has done. *)
Lemma repair_clean_spec ds env announced d cmd :
  let gs_id := rc_gs_id cmd in
  let d' := run_operator_repair ds env announced d cmd in
  let caps := cfg_gs_capacities (dp_config (ds_deployment ds)) in
  let authority := desired_at ds d gs_id in
  announced Started = true ∨ ga_state (repair_original (d_stations d) cmd) ≠ st_clean →
  ga_state (d_state d' gs_id) = st_clean →
  dom (actual_at ds d' gs_id) = dom authority ∧
  (∀ p, gs_id_for_pair caps p ≠ Some gs_id → d_actual d' !! p = d_actual d !! p) ∧
  (authority = ∅ ∨
   ∃ trace down r, d_trace d' = trace ++ [(CmdInventory gs_id authority down, r)] ∧
     dom authority ∪ dom down ⊆ succeeded_pairs r ∧
     Forall (λ a, ar_failure_class a = fc_none) (agent_results r)).
Proof.
  intros gs_id d' caps authority Hstart Hclean. unfold d', run_operator_repair in Hclean |- *.
  fold gs_id in Hclean |- *. set (before := repair_original (d_stations d) cmd) in *.
  set (d0 := with_stations d _) in *. change (desired_at ds d0 gs_id) with authority in *.
  set (teardown := teardown_links ds gs_id d0 before) in *.
  destruct (announced Started); cbn [negb] in *.
  2: { exfalso. destruct Hstart as [?|Hne]; [done|]. apply Hne. unfold d_state, ground_state in Hclean.
       simpl in Hclean. by rewrite lookup_insert_eq in Hclean. }
  destruct (repair_body _ _ _ _ _ _ _ _ d0) as [d1 [[]|e]] eqn:E.
  2: { exfalso. unfold d_state, ground_state in Hclean.
       destruct (announced RepairFailed); simpl in Hclean; by rewrite lookup_insert_eq in Hclean. }
  clear Hclean. unfold repair_body in E. estep E as e1 [] E1. estep E as e2 [] E2. estep E as e3 [] E3.
  estep E as e4 [] E4. injection E4 as <-. apply announce_same in E as ->. apply repair_teardown_spec in E1 as (_ & Hdown & Hs1).
  apply repair_rewire_spec in E2 as (Hty & Hup & Hs2). apply repair_final_spec in E3 as [Ha3 Hfinal].
  change (d_actual (update_pending env _ _)) with (d_actual e3).
  change (d_trace (update_pending env _ _)) with (d_trace e3).
  assert (∀ p, p ∈ dom teardown → gs_id_for_pair caps p = Some gs_id) as Htd.
  { intros p. unfold teardown, teardown_links. rewrite dom_union, elem_of_union.
    intros [(info & _ & [_ ?])%elem_of_ground_pairs|Hp]; [done|].
    apply elem_of_dom in Hp as [info [_ [_ ?]]%map_lookup_filter_Some]. done. }
  assert (∀ p, p ∈ dom authority → gs_id_for_pair caps p = Some gs_id) as Hau.
  { by intros p (info & _ & [_ ?])%elem_of_ground_pairs. }
  split_and!.
  - apply set_eq. intros p. unfold actual_at. change (d_actual (update_pending env _ _)) with (d_actual e3).
    rewrite Ha3, elem_of_ground_pairs. split.
    + intros (info & Hi & Hat). destruct (decide (p ∈ dom authority)) as [|Hn]; [done|exfalso].
      rewrite (Hs2 p Hn) in Hi. destruct (decide (p ∈ dom teardown)) as [Hd|Hd].
      * rewrite (Hdown p Hd) in Hi. done.
      * rewrite (Hs1 p Hd) in Hi. apply Hd. unfold teardown, teardown_links. rewrite dom_union.
        apply elem_of_union_l, elem_of_ground_pairs. by exists info.
    + intros Hp. apply Hup in Hp as Hs. apply elem_of_dom in Hs as [info' Hi]. exists info'.
      split; [done|]. destruct (Hty p info' Hp Hi) as (info & Hau' & Hl).
      apply map_lookup_filter_Some in Hau' as [_ [Hg Hat]]. split; simpl in *; [by rewrite Hl|done].
  - intros p Hp. rewrite Ha3, (Hs2 p), (Hs1 p); [done|..]; intros Hin; apply Hp; auto.
  - destruct Hfinal as [[? _]|(down & r & Ht & _ & Hp & Hf)]; [by left|right].
    exists (d_trace e2), down, r. auto.
Qed.

(** C14: a repair that leaves its station clean has made the station's links those of
    the authority, and proven them.  When a repair that started, or one of a station that
    was not clean, ends with the station clean, whatever could not be announced, the
    station's ground links in the record are exactly those the Scheduler desires for
    it, no link of another station or between satellites has changed, and the last
    thing sent was an inventory, answered without a failure, that expects exactly
    the desired links up and every other link the station may still have down
    (unless none is desired and none feared). *)
Theorem repair_reaches_authority ds env announced d cmd :
  let gs_id := rc_gs_id cmd in
  let d' := run_operator_repair ds env announced d cmd in
  let caps := cfg_gs_capacities (dp_config (ds_deployment ds)) in
  let authority := desired_at ds d gs_id in
  announced Started = true ∨ ga_state (repair_original (d_stations d) cmd) ≠ st_clean →
  ga_state (d_state d' gs_id) = st_clean →
  dom (actual_at ds d' gs_id) = dom authority ∧
  (∀ p, gs_id_for_pair caps p ≠ Some gs_id → d_actual d' !! p = d_actual d !! p) ∧
  (authority = ∅ ∨
   ∃ trace down r, d_trace d' = trace ++ [(CmdInventory gs_id authority down, r)] ∧
     dom authority ∪ dom down ⊆ succeeded_pairs r ∧
     Forall (λ a, ar_failure_class a = fc_none) (agent_results r)).
Proof. apply repair_clean_spec. Qed.

(** A repair accepted before a seek may run during it, when the desired links of the
    old epoch are gone and those of the new one not yet known: if it ends clean it has
    taken down every link of its station. *)
Theorem repair_during_seek_clears ds env announced d cmd :
  desired_links (au_view (d_authority d)) = ∅ → announced Started = true →
  ga_state (d_state (run_operator_repair ds env announced d cmd) (rc_gs_id cmd)) = st_clean →
  actual_at ds (run_operator_repair ds env announced d cmd) (rc_gs_id cmd) = ∅.
Proof.
  intros Hd Hst Hc. apply repair_clean_spec in Hc as [Ha _]; [|by left]. apply dom_empty_iff_L. rewrite Ha.
  unfold desired_at, effective_desired_links. by rewrite Hd.
Qed.

(** ** Repairs that cannot succeed *)

(** Every iteration of a loop that returned returned. *)
Lemma foldM_each {A S} (f : S → A → result S) l x s s' :
  foldM f s l = Ok s' → x ∈ l → ∃ s1 s2, f s1 x = Ok s2.
Proof.
  revert s. induction l as [|y l IH]; intros s H Hx; [by apply elem_of_nil in Hx|].
  simpl in H. rbind H as s1 H1. apply elem_of_cons in Hx as [->|Hx]; [eauto|by eapply IH].
Qed.

Section Broken.
Context (ds : Settings) (env : DispatchEnv) (d : Dispatcher) (cmd : OperatorRepairCommand).
Context (announced : RepairEvent → bool) (Hstarted : announced Started = true).
Abbreviation caps := (cfg_gs_capacities (dp_config (ds_deployment ds))).
Abbreviation gs_id := (rc_gs_id cmd).

(** The dispatcher as the repair starts, and the links it takes down. *)
Definition repairing : Dispatcher :=
  let before := repair_original (d_stations d) cmd in
  with_stations d (put_state (with_repairs (d_stations d)
    (delete (rc_intervention_id cmd) (repair_original_states (d_stations d)))
    (pending_repairs (d_stations d))) gs_id
    (with_recovery before (active_recovery (ga_recovery before) (rc_intervention_id cmd)))).
Definition repair_downs : Links :=
  teardown_links ds gs_id repairing (repair_original (d_stations d) cmd).
Definition repair_time : datetime := default (reading env d) (current_sim_time (d_authority d)).
Definition repair_batch : Effect (ActuationResult * Links) :=
  send_command ds env (DownBatch (dom repair_downs))
    (gset_to_gmap "operator_repair" (dom repair_downs)) repair_time.

(** A teardown that raises ends the repair: the station is kernel-dirty, and
    nothing after the teardown was done. *)
Lemma repair_teardown_raises e x :
  repair_teardown ds env announced gs_id (rc_intervention_id cmd) repair_time repair_downs repairing = (e, Raise x) →
  let d' := run_operator_repair ds env announced d cmd in
  ga_state (d_state d' gs_id) = st_kernel_dirty ∧ d_actual d' = d_actual e ∧ d_stopped d' = d_stopped e.
Proof.
  intros H. unfold run_operator_repair, repair_body, ebind.
  rewrite Hstarted. cbn [negb]. fold repairing repair_downs repair_time. unfold repairing in H |- *.
  rewrite H. destruct (announced RepairFailed);
    (split_and!; [|done|done]; unfold d_state, ground_state; simpl; by rewrite lookup_insert_eq).
Qed.

(** A repair of a station that holds a long-delay pass always fails before anything
    is sent: the teardown closes its links by one plain batch, and a long-delay link
    may only be closed end by end.  The pass stays held, the station kernel-dirty. *)
Theorem repair_of_pass_fails p info :
  actual_at ds d gs_id !! p = Some info → is_Some (contact info) →
  let d' := run_operator_repair ds env announced d cmd in
  ga_state (d_state d' gs_id) = st_kernel_dirty ∧ d_actual d' = d_actual d ∧ d_trace d' = d_trace d.
Proof.
  intros Hp [c Hc]. assert (p ∈ dom repair_downs) as Hd.
  { unfold repair_downs, teardown_links. rewrite dom_union. apply elem_of_union_l, elem_of_dom. by exists info. }
  apply map_lookup_filter_Some in Hp as [Ha Hat].
  assert (∃ x, repair_batch repairing = (repairing, Raise x)) as [x Hx].
  { unfold repair_batch, send_command, actuator_answer, send_batch_down.
    destruct (build_link_down_batch_plan _ _ _ _ _ _ _) as [plan|x] eqn:E; [exfalso|by exists x].
    unfold build_link_down_batch_plan in E. eapply foldM_each in E as (s1 & s2 & E); [|by apply elem_of_sorted_set].
    change (actual_links (sg_tracked (d_stages repairing)) !! p) with (d_actual d !! p) in E. rewrite Ha in E.
    rbind E as msgs Em. unfold link_down_messages in Em. rbind Em as l Hl. rbind Em as u Hu.
    unfold check_down in Hu. rewrite Hc in Hu. done. }
  assert (repair_teardown ds env announced gs_id (rc_intervention_id cmd) repair_time repair_downs repairing =
    (repairing, Raise x)) as Ht.
  { unfold repair_teardown. rewrite bool_decide_false by (intros He; rewrite He in Hd; set_solver).
    unfold ebind. fold repair_batch. by rewrite Hx. }
  destruct (repair_teardown_raises _ _ Ht) as (Hs & Hact & _). split_and!; [done|done|].
  unfold run_operator_repair, repair_body, ebind. rewrite Hstarted. cbn [negb].
  fold repairing repair_downs repair_time. unfold repairing in Ht |- *. rewrite Ht.
  by destruct (announced RepairFailed).
Qed.

(** The plan of a teardown has nothing for a link that is not held. *)
Lemma down_plan_skips loc caps' stage ends ids pairs actual plan p :
  build_link_down_batch_plan loc caps' stage ends ids pairs actual = Ok plan → actual !! p = None →
  pair_agent_ifaces plan !! p = None.
Proof.
  intros H Hp. refine (foldM_inv (λ plan, pair_agent_ifaces plan !! p = None) _ _ _ _ _ _ H); [|done].
  intros s q s' _ Hs Hx. destruct (actual !! q) as [info|] eqn:Eq; [|by injection Hx as <-].
  rbind Hx as msgs Hm. injection Hx as <-. assert (q ≠ p) by congruence. unfold add_messages.
  clear Hm. revert s Hs. induction msgs as [|m msgs IH]; intros s Hs; [done|]. cbn [fold_left].
  apply IH. unfold add_message. simpl. by rewrite lookup_insert_ne.
Qed.

(** A failed pair that is not a known ground link stops the dispatcher. *)
Lemma untyped_failure_stops r p pr :
  p ∈ failed_pairs r → pair_results r !! p = Some pr → pr_link_type pr = None →
  ∃ fenced, handle_actuation_result r = VerdictStop fenced.
Proof.
  intros Hp Hr Ht. unfold handle_actuation_result. assert (has_failures r = true) as ->.
  { unfold has_failures. rewrite bool_decide_false by set_solver. done. }
  cbn [negb]. destruct (writer_fenced r); [by eexists|].
  rewrite (bool_decide_false (fatal_pairs r = ∅)).
  - rewrite orb_true_r. by eexists.
  - intros He. apply (not_elem_of_empty (C := gset node_pair) p). rewrite <- He. apply elem_of_filter.
    split; [|done]. rewrite Hr, Ht. by rewrite orb_true_r.
Qed.

(** A repair whose teardown names a link that is not held stops the whole
    Scheduler: the batch plan skips the link, its result counts it as failed with no
    link type, and a failure that is not a ground link's is fatal. *)
Theorem stale_repair_halts p info r l e :
  p ∈ ga_stale_pairs (repair_original (d_stations d) cmd) →
  gs_stale_link_infos (d_stations d) !! p = Some info → gs_id_for_pair caps p = Some gs_id →
  d_actual d !! p = None → repair_batch repairing = (e, Ok (r, l)) → announced TeardownHealth = true →
  let d' := run_operator_repair ds env announced d cmd in
  d_stopped d' = true ∧ ga_state (d_state d' gs_id) = st_kernel_dirty.
Proof.
  intros Hst Hi Hgs Hna Hb Hhealth. assert (p ∈ dom repair_downs) as Hd.
  { unfold repair_downs, teardown_links. rewrite dom_union. apply elem_of_union_r, elem_of_dom. exists info.
    by apply map_lookup_filter_Some. }
  assert (∃ fenced, handle_actuation_result r = VerdictStop fenced) as [fenced Hf].
  { unfold repair_batch, send_command, actuator_answer, send_batch_down in Hb.
    destruct (build_link_down_batch_plan _ _ _ _ _ _ _) as [plan|x] eqn:E; [|done]. simpl in Hb.
    apply (down_plan_skips _ _ _ _ _ _ _ _ p) in E; [|exact Hna].
    unfold judge in Hb. destruct (gather _ _) as [results|x]; [|done]. simpl in Hb. injection Hb as _ <- _.
    set (types := types_of _ _). set (pairs := sorted_set npair_lt _).
    assert (p ∈ (list_to_set pairs : gset node_pair)) as Hin.
    { unfold pairs. by rewrite elem_of_list_to_set, elem_of_sorted_set. }
    assert (types !! p = None) as Hty.
    { unfold types, types_of. apply not_elem_of_list_to_map. intros ([q t] & -> & Hq)%list_elem_of_fmap.
      apply list_elem_of_omap in Hq as (q' & _ & Hq').
      apply bind_Some in Hq' as (info' & Hq' & [= -> _]).
      change (d_actual d !! q = Some info') in Hq'. simpl in Hna. congruence. }
    eapply (untyped_failure_stops _ p).
    - simpl. apply elem_of_filter. split; [|done]. unfold pr_success, pair_result. cbn [pr_expected_ifaces].
      rewrite E. simpl. by rewrite bool_decide_true.
    - simpl. by apply lookup_set_to_map; [intros ? ? _ _|eexists].
    - exact Hty. }
  assert (∃ e' x, repair_teardown ds env announced gs_id (rc_intervention_id cmd) repair_time repair_downs repairing =
    (e', Raise x) ∧ d_stopped e' = true) as (e' & x & Ht & Hs).
  { unfold repair_teardown. rewrite bool_decide_false by (intros He; rewrite He in Hd; set_solver).
    unfold ebind at 1. fold repair_batch. rewrite Hb.
    unfold repair_result, judge_result, announce, ebind. simpl. rewrite Hhealth. simpl.
    rewrite Hf. by eexists _, _. }
  destruct (repair_teardown_raises _ _ Ht) as (Hdirty & _ & Hstop). cbv zeta. split; [congruence|done].
Qed.
End Broken.

(** How such a link comes about: a LinkUp that failed leaves its link on record as
    one that may be wired; once the link is no longer desired, the next failure at
    the station lists it among the stale ones, though it was never held. *)
Lemma failed_up_leaves_footprint caps wall au actual s gs_id name affected intervention p info :
  p ∈ affected → actual !! p = None → desired_links (au_view au) !! p = Some info →
  at_station caps gs_id (p, info) →
  gs_stale_link_infos (set_gs_nonclean caps wall au actual s gs_id name affected intervention) !! p =
    Some info.
Proof.
  intros Hp Ha Hd Hat. simpl. unfold record_stale_infos_for_gs. apply lookup_union_Some_l.
  apply map_lookup_filter_Some. split; [by rewrite lookup_union_r|]. split; [set_solver|done].
Qed.

Theorem leftover_is_listed_stale caps wall au actual s gs_id name affected intervention p info :
  gs_stale_link_infos s !! p = Some info → actual !! p = None → p ∉ affected →
  gs_id_for_pair caps p = Some gs_id → effective_desired_links au !! p = None →
  p ∈ ga_stale_pairs (ground_state
    (set_gs_nonclean caps wall au actual s gs_id name affected intervention) gs_id).
Proof.
  intros Hs Ha Hp Hgs Hd. unfold ground_state. simpl. rewrite lookup_insert_eq. simpl.
  unfold kernel_expected_down_for_gs. rewrite dom_union. apply elem_of_union_l, elem_of_dom. exists info.
  apply map_lookup_filter_Some. split.
  - unfold record_stale_infos_for_gs. rewrite lookup_union_r; [done|]. apply map_lookup_filter_None.
    right. intros i _ [Hx _]. simpl in Hx. apply elem_of_union in Hx as [?|Hx]; [done|].
    apply elem_of_ground_pairs in Hx as (j & Hj & _). congruence.
  - split; [|done]. simpl. unfold ground_pairs_for_gs. apply map_lookup_filter_None. left. done.
Qed.
