(* ===== verification/PassTheorems.v ===== *)
(** * What one pass of the dispatch loop does

    The lookups of [reconcile_two_phase], [reconcile_mbb] and the latency updates,
    the stations a pass leaves alone, convergence when the commands succeed, and
    what the worker takes from its queue. *)

From S2P Require Import Prelude.
From S2P Require Import PyFloat.
From S2P Require Import PyData.
From S2P Require Import PyTime.
From S2P Require Import GroundTypes.
From S2P Require Import EventDiff.
From S2P Require Import AgentHealth.
From S2P Require Import EpochSync.
From S2P Require Import DesiredState.
From S2P Require Import Authority.
From S2P Require Import Actuation.
From S2P Require Import DispatchPlanner.
From S2P Require Import ReconcileTheorems.
From S2P Require Import ContactDrain.
From S2P Require Import Placement.
From S2P Require Import Substrate.
From S2P Require Import NodeAgentBatches.
From S2P Require Import BatchTheorems.
From S2P Require Import DispatchActuator.
From S2P Require Import ActuatorTheorems.
From S2P Require Import LongDelayStages.
From S2P Require Import Adoption.
From S2P Require Import StationState.
From S2P Require Import Recovery.
From S2P Require Import DispatchLoop.
From S2P Require Import StationTheorems.
From S2P Require Import RecoveryTheorems.
From stdpp Require Import base list strings gmap.
Local Open Scope Z_scope.

(** ** Batches *)

(** Every pair the result is about succeeded. *)
Definition all_succeeded (h : Handled) : Prop := failed_pairs (hd_result h) = ∅.

(** Agents that account for every pair of a command. *)
Definition accountable (agents : Agents) : Prop := ∀ st cmd r desired,
  answer st cmd = Ok (r, desired) → failed_pairs r = ∅ → command_pairs cmd ⊆ succeeded_pairs r.

Lemma built_accounts ifaces types stations results requested :
  failed_pairs (build_actuation_result ifaces types stations results requested) = ∅ →
  requested ⊆ succeeded_pairs (build_actuation_result ifaces types stations results requested).
Proof.
  simpl. intros Hf p Hp. apply elem_of_filter. split; [|done]. destruct (pr_success _) eqn:E; [done|].
  exfalso. apply (not_elem_of_empty (C := gset node_pair) p). rewrite <- Hf. by apply elem_of_filter.
Qed.

Lemma actuator_accountable loc cfg rates max_age fence transport comp reasons t :
  accountable (actuator_agents loc cfg rates max_age fence transport comp reasons t).
Proof.
  intros st [pairs|pairs desired] r d' H Hf; cbn [answer actuator_agents] in H; unfold actuator_answer in H.
  - rbind H as [r' downs] Hs. injection H as -> _. unfold send_batch_down in Hs.
    rbind Hs as plan Hplan. rbind Hs as r' Hj. injection Hs as -> _. unfold judge in Hj.
    rbind Hj as results Hg. injection Hj as <-. apply built_accounts in Hf.
    intros p Hp. apply Hf. by rewrite elem_of_list_to_set, elem_of_sorted_set.
  - rbind H as [[r' d1] ups] Hs. injection H as -> _. unfold send_batch_up in Hs.
    rbind Hs as u Hu. rbind Hs as [plan d2] Hplan. rbind Hs as r1 Hr. rbind Hs as ups' Hups.
    injection Hs as -> -> ->. unfold dispatch_link_up_plan in Hr. rbind Hr as results Hg.
    rbind Hr as types Ht. injection Hr as <-. apply built_accounts in Hf.
    intros p Hp. apply Hf. by rewrite elem_of_list_to_set, elem_of_sorted_set.
Qed.

Section Batches.
Context (cfg : SchedulerConfig) {agents : Agents}.
Abbreviation gcap := (cfg_gs_capacities cfg).
Abbreviation scap := (cfg_sat_capacities cfg).

Lemma send_batch_spec t log cmd released l log' :
  send_batch t log cmd = Ok (released, l, log') →
  released ⊆ command_pairs cmd ∧ ∃ new, log' = log ++ new ∧
    (accountable agents → Forall all_succeeded new → released = command_pairs cmd).
Proof.
  unfold send_batch. case_bool_decide as He.
  { intros [= <- <- <-]. split; [set_solver|]. exists []. rewrite app_nil_r. split; [done|]. by rewrite He. }
  unfold dispatch. intros H. rbind H as [r d] Hr. destruct (handle_actuation_result r); [done|].
  injection H as <- <- <-. assert (succeeded_pairs r ⊆ command_pairs cmd) as Hs.
  { intros p. by apply (answer_requested _ _ _ _ _ Hr). }
  split; [done|]. eexists. split; [done|]. intros Hacc [Hf _]%Forall_cons.
  apply set_eq. intros p. split; [apply Hs|]. by apply (Hacc _ _ _ _ Hr Hf).
Qed.

(** An acquiring stage adds links of [adds] and changes no other. *)
Lemma acquire_stage_spec t log desired adds t' log' added :
  acquire_stage cfg t log desired adds = Ok (t', log', added) →
  added ⊆ adds ∧ (∀ p, p ∈ added → is_Some (actual_links t' !! p)) ∧
  (∀ p, p ∉ added → actual_links t' !! p = actual_links t !! p) ∧
  ∃ new, log' = log ++ new ∧ (accountable agents → Forall all_succeeded new → added = adds).
Proof.
  unfold acquire_stage. intros H. rbind H as [[a d] l] Hb. rbind H as t1 H1. injection H as <- <- <-.
  apply send_batch_spec in Hb as [Hsub Hnew]. split; [done|]. split_and!; [..|done]; intros p Hp;
    destruct (acquires_lookup _ _ _ _ _ _ p H1) as [Hs ->].
  - rewrite bool_decide_true by (by apply elem_of_sorted_set). by apply Hs, elem_of_sorted_set.
  - rewrite bool_decide_false; [done|]. by rewrite elem_of_sorted_set.
Qed.

(** What a dispatch of removals and additions may do to the record, and what it
    has done when every command succeeded. *)
Record dispatched (removes adds : gset node_pair) (t t' : Tracked) (new : Log) : Prop := {
  dis_others : ∀ p, p ∉ removes → p ∉ adds → actual_links t' !! p = actual_links t !! p;
  dis_kept : ∀ p, p ∉ removes → is_Some (actual_links t !! p) → is_Some (actual_links t' !! p);
  dis_added : ∀ p, p ∉ adds → is_Some (actual_links t' !! p) → is_Some (actual_links t !! p);
  dis_removed : accountable agents → Forall all_succeeded new →
    ∀ p, p ∈ removes → p ∉ adds → actual_links t' !! p = None;
}.

Lemma two_phase_spec t log removes adds desired t' log' :
  reconcile_two_phase cfg t log removes adds desired = Ok (t', log') →
  ∃ new, log' = log ++ new ∧ dispatched removes adds t t' new ∧
    (accountable agents → Forall all_succeeded new → ∀ p, p ∈ adds → is_Some (actual_links t' !! p)).
Proof.
  unfold reconcile_two_phase. intros H. rbind H as [[released l] log1] Hb.
  rbind H as [[t1 log2] added] Ha. injection H as <- <-.
  apply send_batch_spec in Hb as (Hrel & new1 & -> & Hall1). cbn [command_pairs] in *.
  apply acquire_stage_spec in Ha as (Hadd & Hin & Hout & new2 & -> & Hall2).
  exists (new1 ++ new2). rewrite app_assoc. split; [done|].
  assert (∀ p, p ∉ added → actual_links t1 !! p =
    if bool_decide (p ∈ released) then None else actual_links t !! p) as Hl.
  { intros p Hp. by rewrite (Hout p Hp), release_all_lookup. }
  split; [split|].
  - intros p Hr Hp. rewrite Hl, bool_decide_false by set_solver. done.
  - intros p Hr Hs. destruct (decide (p ∈ added)); [by apply Hin|].
    by rewrite Hl, bool_decide_false by set_solver.
  - intros p Hp. rewrite Hl by set_solver. by case_bool_decide; [intros [? ?]|].
  - intros Hacc [F1 F2]%Forall_app p Hr Hp. rewrite Hl by set_solver.
    rewrite bool_decide_true; [done|]. by rewrite (Hall1 Hacc F1).
  - intros Hacc [F1 F2]%Forall_app p Hp. apply Hin. by rewrite (Hall2 Hacc F2).
Qed.

(** The make-before-break acquires are all sent. *)
Lemma acquire_ups_base st c failed ups :
  acquire_ups cfg st c failed = Ok ups → segment_pairs (gs_ups c) (mbb_segments c) ⊆ ups.
Proof.
  intros H. unfold acquire_ups in H. set (base := segment_pairs _ _) in *.
  refine (foldM_inv (λ acc, base ⊆ acc) _ _ _ _ _ _ H); [|set_solver].
  intros acc gs acc' _ Hacc Hf. case_bool_decide; [by injection Hf as <-|].
  refine (foldM_inv (λ acc, base ⊆ acc) _ _ _ _ _ Hacc Hf).
  intros a p a' _ Ha Hr. rbind Hr as room Hroom. injection Hr as <-. destruct room; set_solver.
Qed.

(** The releases of a pass are among its removals, and together are all of them
    when every make-before-break acquire succeeded. *)
Lemma releases_sub gact sact forced removes adds c segments :
  classified gcap gact scap sact forced removes adds c →
  isl_downs c ∪ segment_pairs (gs_downs c) segments ⊆ removes.
Proof.
  intros Hc p [Hp|(gs & _ & Hp)%elem_of_segment_pairs]%elem_of_union.
  - rewrite (cl_isl_downs _ _ _ _ _ _ _ _ Hc) in Hp. by apply elem_of_filter in Hp as [_ ?].
  - rewrite (cl_gs_downs _ _ _ _ _ _ _ _ Hc), by_station_default, elem_of_segment in Hp. by destruct Hp.
Qed.

Lemma releases_all gact sact forced removes adds c added :
  classified gcap gact scap sact forced removes adds c →
  segment_pairs (gs_ups c) (mbb_segments c) ⊆ added →
  removes ⊆ pre_release_downs c ∪ final_release_downs c added.
Proof.
  intros Hc Hadd p Hp. unfold pre_release_downs, final_release_downs.
  destruct (classified_cases _ _ _ _ _ _ _ _ _ Hc Hp) as [Hi|(gs & Hgs & Hd & Hst)]; [set_solver|].
  destruct (cl_total _ _ _ _ _ _ _ _ Hc gs Hst) as [Hm|Hb].
  - apply elem_of_union_r, elem_of_segment_pairs. exists gs. split; [|done].
    apply elem_of_filter. split; [|done].
    apply (cl_mbb _ _ _ _ _ _ _ _ Hc) in Hm as Hm'. destruct Hm' as [_ Hm']. unfold segment_is_mbb in Hm'.
    case_bool_decide; [done|]. case_bool_decide as Hempty; [done|].
    rewrite (cl_gs_ups _ _ _ _ _ _ _ _ Hc), by_station_default.
    apply set_choose_L in Hempty as [q Hq]. intros He. apply (not_elem_of_empty (C := gset node_pair) q).
    rewrite <- He. apply elem_of_intersection. split; [done|]. apply Hadd, elem_of_segment_pairs.
    exists gs. split; [done|]. by rewrite (cl_gs_ups _ _ _ _ _ _ _ _ Hc), by_station_default.
  - apply elem_of_union_l, elem_of_union_r, elem_of_segment_pairs. eauto.
Qed.

Lemma mbb_spec modes t log removes adds desired forced t' log' :
  removes ## adds → reconcile_mbb cfg modes t log removes adds desired forced = Ok (t', log') →
  ∃ new, log' = log ++ new ∧ dispatched removes adds t t' new.
Proof.
  intros Hdisj. unfold reconcile_mbb. intros H. rbind H as c Hplan.
  rbind H as [[t1 log1] failed] Hpre. rbind H as ups Hups. rbind H as [[t2 log2] added] Hacq.
  assert (∃ gact sact f, classified gcap gact scap sact f removes adds c) as Hc.
  { unfold plan in Hplan. rbind Hplan as f' Hf. rbind Hplan as coll Hcoll. eexists _, _, _.
    by apply classify_spec. }
  destruct Hc as (gact & sact & f & Hc).
  pose proof (acquire_ups_sub _ _ _ _ _ _ _ _ _ _ _ Hc Hups) as Hsub.
  apply acquire_ups_base in Hups. unfold pre_release_stage in Hpre.
  rbind Hpre as [[done1 l1] lg1] Hb1. injection Hpre as <- <- <-.
  apply send_batch_spec in Hb1 as (Hd1 & new1 & -> & Hall1).
  apply acquire_stage_spec in Hacq as (Hadd & Hin & Hout & new2 & -> & Hall2).
  unfold final_stage in H. rbind H as [[done3 l3] lg3] Hb3. injection H as <- <-.
  apply send_batch_spec in Hb3 as (Hd3 & new3 & -> & Hall3). cbn [command_pairs] in *.
  pose proof (releases_sub _ _ _ _ _ _ (bbm_segments c) Hc) as Hr1.
  pose proof (releases_sub _ _ _ _ _ _
    (filter (λ gs_id, default ∅ (gs_ups c !! gs_id) ∩ added ≠ ∅) (mbb_segments c)) Hc) as Hr3.
  unfold pre_release_downs in *. unfold final_release_downs in *.
  exists (new1 ++ new2 ++ new3). rewrite !app_assoc. split; [done|].
  assert (∀ p, actual_links (release_all cfg t2 done3) !! p =
    if bool_decide (p ∈ done3) then None else if bool_decide (p ∈ added) then actual_links t2 !! p
    else if bool_decide (p ∈ (isl_downs c ∪ segment_pairs (gs_downs c) (bbm_segments c)) ∩ done1)
    then None else actual_links t !! p) as Hl.
  { intros p. rewrite release_all_lookup. case_bool_decide; [done|]. case_bool_decide; [done|].
    by rewrite (Hout p), release_all_lookup. }
  split.
  - intros p Hr Hp. rewrite Hl, !bool_decide_false by set_solver. done.
  - intros p Hr Hs. rewrite Hl, bool_decide_false by set_solver. case_bool_decide; [by apply Hin|].
    by rewrite bool_decide_false by set_solver.
  - intros p Hp. rewrite Hl. case_bool_decide; [by intros [? ?]|].
    rewrite bool_decide_false by set_solver. case_bool_decide; [by intros [? ?]|done].
  - intros Hacc [[F1 F2]%Forall_app F3]%Forall_app p Hr Hp.
    specialize (Hall1 Hacc F1). specialize (Hall2 Hacc F2). specialize (Hall3 Hacc F3). rewrite Hl.
    rewrite <- Hall2 in Hups. pose proof (releases_all _ _ _ _ _ _ _ Hc Hups p Hr) as Hx.
    unfold pre_release_downs, final_release_downs in Hx. rewrite <- Hall3 in Hx.
    apply elem_of_union in Hx as [Hx|Hx].
    + case_bool_decide; [done|]. rewrite bool_decide_false by set_solver.
      rewrite bool_decide_true; [done|]. set_solver.
    + by rewrite bool_decide_true.
Qed.
End Batches.

(** ** The parts of a pass *)

Lemma sent_fold log st :
  let st' := fold_left (λ st h, sent st CmdBatch (hd_result h)) log st in
  sg_trace st' = sg_trace st ++ map (λ h, (CmdBatch, hd_result h)) log ∧
  sg_tracked st' = sg_tracked st ∧ sg_desired st' = sg_desired st.
Proof.
  revert st. induction log as [|h log IH]; intros st; simpl; [by rewrite app_nil_r|].
  destruct (IH (sent st CmdBatch (hd_result h))) as (-> & -> & ->). simpl. by rewrite <- app_assoc.
Qed.

Section Parts.
Context (ds : Settings) (env : DispatchEnv) (intent : DispatchIntent).
Abbreviation caps := (cfg_gs_capacities (dp_config (ds_deployment ds))).

Lemma plain_pass_spec ch d d' :
  ch_remove ch ## ch_add ch → plain_pass ds env intent ch d = (d', Ok tt) →
  ∃ new, dispatched (agents := batch_agents ds env intent d) (ch_remove ch) (ch_add ch)
    (sg_tracked (d_stages d)) (sg_tracked (d_stages d')) new ∧
    d_trace d' = d_trace d ++ map (λ h, (CmdBatch, hd_result h)) new ∧
    sg_desired (d_stages d') = sg_desired (d_stages d) ∧
    (ds_mbb_dispatch ds = false → Forall all_succeeded new →
       ∀ p, p ∈ ch_add ch → is_Some (d_actual d' !! p)).
Proof.
  intros Hdisj. unfold plain_pass. destruct (ds_mbb_dispatch ds) eqn:Emode.
  - destruct (reconcile_mbb _ _ _ _ _ _ _ _) as [[t log]|] eqn:E; [|done]. intros [= <-].
    apply mbb_spec in E as (new & -> & Hd); [|done]. exists new. unfold d_trace. cbn [d_stages with_stages].
    destruct (sent_fold ([] ++ new) (with_tracked (d_stages d) t)) as (-> & -> & ->).
    split_and!; [done..|by intros].
  - destruct (reconcile_two_phase _ _ _ _ _ _) as [[t log]|] eqn:E; [|done]. intros [= <-].
    apply two_phase_spec in E as (new & -> & Hd & Hadd). exists new. unfold d_trace, d_actual, sg_actual.
    cbn [d_stages with_stages].
    destruct (sent_fold ([] ++ new) (with_tracked (d_stages d) t)) as (-> & -> & ->).
    split_and!; [done..|]. intros _ Hall. apply Hadd; [|done]. apply actuator_accountable.
Qed.

(** A latency update touches the links it names and loses none. *)
Lemma send_latency_lookup t st pairs st' r p :
  send_latency (ds_deployment ds) (de_stage env) t st pairs = Ok (st', r) →
  (p ∉ pairs → sg_actual st' !! p = sg_actual st !! p) ∧
  (is_Some (sg_actual st !! p) → is_Some (sg_actual st' !! p)) ∧
  (∃ x, sg_trace st' = sg_trace st ++ [(CmdLatency pairs, x)]).
Proof.
  unfold send_latency. intros H. rbind H as [[r' desired] events] Hs. rbind H as st1 H1.
  injection H as <- <-. assert (∀ q, q ∈ succeeded_pairs r' → q ∈ pairs) as Hsub.
  { intros q Hq. unfold send_authoritative_latency_updates in Hs. rbind Hs as [[plan comps] d1] Hp.
    rbind Hs as r1 Hj. rbind Hs as ev He. injection Hs as <- <- <-. unfold judge in Hj.
    rbind Hj as results Hg. injection Hj as <-. apply succeeded_acks in Hq as [Hq _].
    by rewrite elem_of_list_to_set, elem_of_sorted_set in Hq. }
  set (st0 := publish _ _) in H1. change (sg_actual st) with (sg_actual st0).
  refine (foldM_inv (λ s, (p ∉ pairs → sg_actual s !! p = sg_actual st0 !! p) ∧
    (is_Some (sg_actual st0 !! p) → is_Some (sg_actual s !! p)) ∧
    (∃ x, sg_trace s = sg_trace st ++ [(CmdLatency pairs, x)])) _ _ _ _ _ _ H1).
  - intros s q s' Hq%elem_of_elements%Hsub (IH1 & IH2 & IH3) Hx. rbind Hx as info Hi. injection Hx as <-.
    unfold sg_actual in *. simpl. split_and!; [|intros Hsome|done].
    + intros Hp. rewrite lookup_insert_ne by (intros ->; done). by apply IH1.
    + destruct (decide (q = p)) as [->|]; [rewrite lookup_insert_eq; by eexists|].
      rewrite lookup_insert_ne by done. by apply IH2.
  - split_and!; [done..|]. by eexists.
Qed.

Lemma latency_pass_spec ch d d' :
  latency_pass ds env intent ch d = (d', Ok tt) →
  (∀ p, p ∉ ch_latency ch → d_actual d' !! p = d_actual d !! p) ∧
  (∀ p, is_Some (d_actual d !! p) → is_Some (d_actual d' !! p)) ∧
  d_trace d `prefix_of` d_trace d'.
Proof.
  unfold latency_pass. case_bool_decide as He.
  { intros [= <-]. split_and!; [done..|]. done. }
  intros H. estep H as d1 r E. destruct (send_latency _ _ _ _ _) as [[st r1]|] eqn:Es; [|done].
  injection E as <- <-. apply handle_actual in H as (Ha & Ht & _). rewrite Ha, Ht. split_and!.
  - intros p Hp. destruct (send_latency_lookup _ _ _ _ _ p Es) as [H _]. by apply H.
  - intros p Hp. destruct (send_latency_lookup _ _ _ _ _ p Es) as (_ & H & _). by apply H.
  - destruct (send_latency_lookup _ _ _ _ _ ("", "") Es) as (_ & _ & x & H).
    eexists. exact H.
Qed.
End Parts.

(** ** Stations that are not trusted *)

(** C15: automatic commands stay away from stations that are not trusted.  Of what a
    pass plans, nothing opens or retunes a link, plain or long-delay, at a station that
    is not clean, and no plain release takes one down at a station that is kernel-dirty
    or under repair; so, whatever the Node Agents answer, the plain and latency parts of
    the pass leave every link record of a kernel-dirty station as it was, and give a
    blocked one no link it did not have.  (The stops and closes of long-delay contacts
    go on at such a station, as the code means them to: the theorem is not about
    those.) *)
Theorem untrusted_station_untouched ds env intent d ch gs_id p :
  let caps := cfg_gs_capacities (dp_config (ds_deployment ds)) in
  let g := d_state d gs_id in
  plan_changes ds env d intent = Ok ch → gs_id_for_pair caps p = Some gs_id →
  ga_state g ≠ st_clean →
  (p ∉ ch_add ch ∪ ch_latency ch ∪ lp_open (ch_long_delay ch)) ∧
  (ga_state g = st_kernel_dirty ∨ is_Some (truthy (active_intervention_id (ga_recovery g))) →
     p ∉ ch_remove ch) ∧
  ∀ e1 e2 e3, plain_pass ds env intent ch e1 = (e2, Ok tt) →
    latency_pass ds env intent ch e2 = (e3, Ok tt) →
    (is_Some (d_actual e3 !! p) → is_Some (d_actual e1 !! p)) ∧
    (ga_state g = st_kernel_dirty → d_actual e3 !! p = d_actual e1 !! p).
Proof.
  intros caps g H Hgs Hne. unfold plan_changes in H. rbind H as plan Hplan. injection H as <-.
  cbn [ch_add ch_remove ch_latency ch_long_delay lp_open with_open].
  assert (may_mutate caps (d_stations d) p = false) as Hm.
  { unfold may_mutate. rewrite Hgs. unfold blocking_new_ground_link_up. rewrite bool_decide_false; done. }
  assert (∀ pairs, p ∉ filter_blocked_ground_mutations caps (d_stations d) pairs) as Hblocked.
  { intros pairs [Hx _]%elem_of_filter. congruence. }
  assert (ga_state g = st_kernel_dirty ∨ is_Some (truthy (active_intervention_id (ga_recovery g))) →
    ∀ pairs, p ∉ filter_ground_down_mutations caps (d_stations d) pairs) as Hdown.
  { intros Hd pairs [Hx _]%elem_of_filter. unfold may_release in Hx. rewrite Hgs in Hx.
    apply andb_true_iff in Hx as [H1 H2%negb_true_iff%bool_decide_eq_false].
    destruct Hd as [Hd|[i Hi]]; [done|]. unfold g, d_state in Hi. by rewrite Hi in H1. }
  split; [set_solver|]. split; [intros Hd; by apply Hdown|].
  intros e1 e2 e3 H1 H2. apply plain_pass_spec in H1 as (new & Hdis & _); cbn [ch_remove ch_add] in *.
  2: { intros q [_ Hq1]%elem_of_filter [_ Hq2]%elem_of_filter. simpl in *. set_solver. }
  apply latency_pass_spec in H2 as (Hl & _ & _). cbn [ch_latency] in Hl.
  rewrite (Hl p (Hblocked _)). split.
  - apply (dis_added _ _ _ _ _ Hdis). apply Hblocked.
  - intros Hd. apply (dis_others _ _ _ _ _ Hdis); [apply Hdown; by left|apply Hblocked].
Qed.

(** ** Convergence *)

Section Audit.
Context (ds : Settings) (env : DispatchEnv) (links : Links) (trace : Trace).

(** The links are [links] and what was sent begins with [trace]. *)
Definition settled (d : Dispatcher) : Prop := d_actual d = links ∧ trace `prefix_of` d_trace d.

Lemma settled_change f :
  (∀ d, d_stages (f d) = d_stages d) → keeps settled (change f).
Proof. intros H. apply keeps_change. intros d. unfold settled, d_actual, d_trace. by rewrite H. Qed.

Lemma settled_handle r i : keeps settled (handle_result ds env r i).
Proof.
  unfold handle_result, judge_result. keep; [by apply settled_change|..].
  - by apply settled_change.
  - by apply settled_change.
Qed.

Lemma settled_inventory gs_id up down t : keeps settled (send_kernel_inventory ds env gs_id up down t).
Proof.
  intros d [Ha Ht]. unfold send_kernel_inventory.
  destruct (verify_ground_kernel_inventory _ _ _ _ _ _ _ _ _); [|done]. split; [done|].
  etrans; [exact Ht|]. by eexists.
Qed.

Lemma settled_audit t : keeps settled (run_due_clean_kernel_audit ds env t).
Proof.
  unfold run_due_clean_kernel_audit, audit_clean_ground_kernel_state, audit_station,
    audit_long_delay_ends, health, mark_nonclean, change_stations.
  keep; auto using settled_inventory, settled_handle, settled_change.
  intros d [Ha Ht]. unfold send_proof.
  destruct (verify_long_delay_ends _ _ _ _ _ _ _ _); [|done]. split; [done|].
  etrans; [exact Ht|]. by eexists.
Qed.
End Audit.

(** A dispatcher of local links only, every station clean. *)
Record settled_session (ds : Settings) (d : Dispatcher) : Prop := {
  ss_local : cfg_long_delay_pairs (dp_config (ds_deployment ds)) = ∅;
  ss_open : ∀ p info, d_actual d !! p = Some info → drain info = None;
  ss_clean : ∀ gs_id g, gs_actuation (d_stations d) !! gs_id = Some g → g = clean_state;
}.

Section Converge.
Context (ds : Settings) (env : DispatchEnv) (intent : DispatchIntent) (d : Dispatcher).
Context (Hss : settled_session ds d).

Lemma clean_station gs_id : d_state d gs_id = clean_state.
Proof.
  unfold d_state, ground_state. destruct (_ !! gs_id) as [g|] eqn:E; [|done].
  by rewrite (ss_clean _ _ Hss gs_id g E).
Qed.

(** Nothing is due to be verified. *)
Lemma verifications_idle t : run_due_kernel_verifications ds env t d = (d, Ok tt).
Proof.
  unfold run_due_kernel_verifications. unfold ebind, read, id.
  assert (∀ x, x ∈ sorted_items str_lt (gs_actuation (d_stations d)) → ga_state x.2 = st_clean) as Hall.
  { intros [gs g] Hx%elem_of_sorted_items. by rewrite (ss_clean _ _ Hss gs g Hx). }
  induction (sorted_items _ _) as [|x l IH]; [done|]. cbn [for_each]. unfold ebind at 1.
  assert (verify_if_due ds env t x d = (d, Ok tt)) as ->.
  { unfold verify_if_due, ebind, read, id. rewrite (bool_decide_true (ga_state x.2 = st_clean)).
    - by rewrite orb_true_r.
    - apply Hall. by left. }
  apply IH. intros y Hy. apply Hall. by right.
Qed.

(** No filter holds a pair back, and nothing is long-delay. *)
Lemma plan_settled ch :
  plan_changes ds env d intent = Ok ch →
  ch_due ch = ∅ ∧ lp_empty (ch_long_delay ch) = true ∧
  ch_remove ch = dom (d_actual d) ∖ dom (in_desired intent) ∧
  ch_add ch = dom (in_desired intent) ∖ dom (d_actual d) ∧
  ch_latency ch ⊆ dom (d_actual d) ∩ dom (in_desired intent).
Proof.
  unfold plan_changes. cbv zeta. intros H. pose proof (ss_local _ _ Hss) as Hlocal.
  assert (∀ links : Links, filter (λ x, x.1 ∈ cfg_long_delay_pairs (dp_config (ds_deployment ds))) links = ∅)
    as Hlong.
  { intros links. apply map_empty_filter_2. intros q i _ Hq. rewrite Hlocal in Hq. set_solver. }
  assert (∀ links : Links, filter (λ x, x.1 ∉ cfg_long_delay_pairs (dp_config (ds_deployment ds))) links = links)
    as Hplain.
  { intros links. apply map_filter_id. intros q i _. simpl. rewrite Hlocal. set_solver. }
  rewrite !Hlong, !Hplain in H. rbind H as plan Hplan. injection H as <-.
  vm_compute in Hplan. injection Hplan as <-.
  assert (∀ X, filter_blocked_ground_mutations (cfg_gs_capacities (dp_config (ds_deployment ds)))
    (d_stations d) X = X) as Hb.
  { intros X. apply set_eq. intros q. unfold filter_blocked_ground_mutations. rewrite elem_of_filter.
    split; [by intros [_ ?]|]. intros Hq. split; [|done]. unfold may_mutate.
    destruct (gs_id_for_pair _ q) as [gs|]; [|done].
    change (ground_state (d_stations d) gs) with (d_state d gs). by rewrite clean_station. }
  assert (∀ X, filter_ground_down_mutations (cfg_gs_capacities (dp_config (ds_deployment ds)))
    (d_stations d) X = X) as Hd.
  { intros X. apply set_eq. intros q. unfold filter_ground_down_mutations. rewrite elem_of_filter.
    split; [by intros [_ ?]|]. intros Hq. split; [|done]. unfold may_release.
    destruct (gs_id_for_pair _ q) as [gs|]; [|done].
    change (ground_state (d_stations d) gs) with (d_state d gs). by rewrite clean_station. }
  cbn [ch_due ch_long_delay ch_remove ch_add ch_latency]. rewrite !Hb, Hd. split_and!.
  - apply map_empty_filter_2. intros q ends Hq. exfalso. unfold due_ends in Hq.
    apply lookup_omap_Some in Hq as (info & Hi & Hq). by rewrite (ss_open _ _ Hss q info Hq) in Hi.
  - done.
  - done.
  - done.
  - simpl. intros q [_ ?]%elem_of_filter. done.
Qed.
End Converge.

Lemma refresh_dom desired actual : dom (refresh_provenance desired actual) = dom actual.
Proof.
  unfold refresh_provenance. apply set_eq. intros p. rewrite !elem_of_dom, map_lookup_imap.
  destruct (actual !! p); simpl; split; intros [? ?]; by eexists.
Qed.

(** What the audit at the end of a pass leaves. *)
Lemma audit_end ds env t d d' :
  run_due_clean_kernel_audit ds env t d = (d', Ok tt) →
  d_actual d' = d_actual d ∧ d_trace d `prefix_of` d_trace d'.
Proof.
  intros H. assert (settled (d_actual d) (d_trace d) d') as [? ?]; [|done].
  pose proof (settled_audit ds env (d_actual d) (d_trace d) t d) as Hk. rewrite H in Hk. by apply Hk.
Qed.

(** The links after the commands of a pass all succeeded. *)
Lemma converged_dom (mbb : bool) (actual desired final : gset node_pair) :
  (∀ p, p ∈ actual ∖ desired → p ∉ final) → (∀ p, p ∈ final → p ∈ actual ∨ p ∈ desired) →
  (∀ p, p ∈ actual ∩ desired → p ∈ final) →
  (mbb = false → ∀ p, p ∈ desired ∖ actual → p ∈ final) →
  final ⊆ desired ∧ (mbb = false → final = desired).
Proof.
  intros H1 H2 H3 H4. assert (final ⊆ desired) as Hs.
  { intros p Hp. destruct (decide (p ∈ desired)); [done|]. destruct (H2 p Hp); [|done].
    destruct (H1 p); set_solver. }
  split; [done|]. intros Hm. apply set_eq. intros p. split; [apply Hs|]. intros Hp.
  destruct (decide (p ∈ actual)); [apply H3|apply H4]; set_solver.
Qed.

(** The commands of a pass that is to remove what is held and not desired and to
    add what is desired and not held, when all of them succeed. *)
Lemma commands_converge ds env intent ch e1 e2 e3 :
  let actual := dom (d_actual e1) in
  let desired := dom (in_desired intent) in
  ch_remove ch = actual ∖ desired → ch_add ch = desired ∖ actual → ch_latency ch ⊆ actual ∩ desired →
  plain_pass ds env intent ch e1 = (e2, Ok tt) → latency_pass ds env intent ch e2 = (e3, Ok tt) →
  (∀ r, (CmdBatch, r) ∈ drop (length (d_trace e1)) (d_trace e2) → failed_pairs r = ∅) →
  dom (d_actual e3) ⊆ desired ∧ (ds_mbb_dispatch ds = false → dom (d_actual e3) = desired).
Proof.
  intros actual desired Hrem Hadd Hlat Hplain Hlate Hok.
  apply plain_pass_spec in Hplain as (new & Hdis & Ht & _ & Hall); [|rewrite Hrem, Hadd; set_solver].
  rewrite Ht, drop_app_length in Hok. apply latency_pass_spec in Hlate as (Hl & Hs & _).
  assert (Forall all_succeeded new) as Hgood.
  { apply Forall_forall. intros h Hh. apply Hok, list_elem_of_fmap. by exists h. }
  assert (∀ p, p ∈ actual ↔ is_Some (d_actual e1 !! p)) as Hin by (intros p; apply elem_of_dom).
  apply (converged_dom (ds_mbb_dispatch ds) actual desired).
  - intros p Hp. rewrite elem_of_dom, (Hl p) by set_solver.
    change (d_actual e2) with (actual_links (sg_tracked (d_stages e2))).
    rewrite (dis_removed _ _ _ _ _ Hdis); [by intros [? ?]|apply actuator_accountable|done|set_solver|set_solver].
  - intros p Hp. destruct (decide (p ∈ desired)) as [|Hnd]; [by right|left].
    apply elem_of_dom in Hp. rewrite (Hl p) in Hp by set_solver. apply Hin.
    apply (dis_added _ _ _ _ _ Hdis); [set_solver|done].
  - intros p [Hp1 Hp2]%elem_of_intersection. apply elem_of_dom, Hs.
    apply (dis_kept _ _ _ _ _ Hdis); [set_solver|by apply Hin].
  - intros Hm p Hp. apply elem_of_dom, Hs, Hall; [done|done|by rewrite Hadd].
Qed.

(** C16: a pass whose batches succeed leaves exactly the desired links.  In a session
    of local links, with every station clean and no record draining, when the pass
    returns and no pair of the batches it sent failed, no link is held that is not
    desired; and without make-before-break every desired link is held too. *)
Theorem pass_converges ds env intent d d' :
  settled_session ds d → reconcile_links ds env intent d = (d', Ok tt) →
  (∀ r, (CmdBatch, r) ∈ drop (length (d_trace d)) (d_trace d') → failed_pairs r = ∅) →
  dom (d_actual d') ⊆ dom (in_desired intent) ∧
  (ds_mbb_dispatch ds = false → dom (d_actual d') = dom (in_desired intent)).
Proof.
  intros Hss H Hok. unfold reconcile_links in H.
  destruct (reconcile_body ds env intent d) as [d1 o] eqn:Hb. injection H as <- ->.
  change (d_actual (update_pending env _ d1)) with (d_actual d1).
  change (d_trace (update_pending env _ d1)) with (d_trace d1) in Hok. unfold reconcile_body in Hb.
  estep Hb as e0 u0 E0. rewrite (verifications_idle ds env d Hss) in E0. injection E0 as <- <-.
  estep Hb as e1 ch E1. injection E1 as <- Hch. estep Hb as e2 u2 E2. injection E2 as <- <-.
  estep Hb as e3 u3 E3. unfold change_actual in E3. injection E3 as <- <-.
  apply (plan_settled ds env intent d Hss) in Hch as (Hdue & Hempty & Hrem & Hadd & Hlat).
  set (e := with_stages _ _) in Hb. assert (dom (d_actual e) = dom (d_actual d)) as He by apply refresh_dom.
  assert (d_trace e = d_trace d) as Ht by done. rewrite <- He in Hrem, Hadd, Hlat. clearbody e.
  destruct (nothing_to_do ch) eqn:Hn.
  - apply audit_end in Hb as [Ha _]. rewrite Ha.
    unfold nothing_to_do in Hn. rewrite !andb_true_iff, !bool_decide_eq_true in Hn.
    destruct Hn as [[[[Hr Ha'] _] _] _]. rewrite Hrem in Hr. rewrite Hadd in Ha'.
    apply (converged_dom (ds_mbb_dispatch ds) (dom (d_actual e)) (dom (in_desired intent))); set_solver.
  - estep Hb as e4 u4 E4. injection E4 as <- <-. rewrite Hdue, Hempty, bool_decide_true in Hb by done.
    cbn [andb] in Hb. estep Hb as e5 u5 E5. injection E5 as <- <-.
    estep Hb as e6 [] E6. estep Hb as e7 [] E7. apply audit_end in Hb as [Ha8 [k8 Ht8]]. rewrite Ha8.
    apply (commands_converge ds env intent ch (update_pending env (dom (in_desired intent)) e) e6 e7); [exact Hrem|exact Hadd|exact Hlat|exact E6|exact E7|].
    apply latency_pass_spec in E7 as (_ & _ & [k7 Ht7]). intros r Hr. apply Hok.
    change (d_trace (update_pending env _ e)) with (d_trace e) in Hr. rewrite Ht in Hr.
    rewrite Ht8, Ht7, <- app_assoc, drop_app. apply elem_of_app. by left.
Qed.

(** ** The worker *)

Lemma drain_spec intent rebase queue i b queue' :
  drain_to_latest intent rebase queue = (Some (i, b), queue') →
  queue' = [] ∧ ∃ l, queue = map Some l ∧ last (intent :: l) = Some i ∧
    b = rebase || existsb in_rebaseline_counts l.
Proof.
  revert intent rebase. induction queue as [|[next|] queue IH]; intros intent rebase H; simpl in H.
  - injection H as <- <- <-. split; [done|]. exists []. by rewrite orb_false_r.
  - apply IH in H as (-> & l & -> & Hl & ->). split; [done|]. exists (next :: l).
    split_and!; [done|by rewrite last_cons_cons|]. simpl. by rewrite orb_assoc.
  - done.
Qed.

(** the worker acts on the newest intent only, and loses no request to rebaseline.
    When a turn reconciles, it has emptied the queue, none of whose entries was a
    request to stop; the intent it acts on is the last one queued; and the link
    counts were rebuilt first exactly when some intent of the queue asked for it. *)
Theorem worker_takes_newest ds env d intent d' :
  worker_turn ds env d = Reconciles intent d' →
  ∃ l e, d_queue d = map Some l ∧ last l = Some intent ∧ d_stopped d = false ∧
    e = with_queue d [] ∧
    reconcile_links ds env intent
      (if existsb in_rebaseline_counts l then with_stages e (rebaseline (ds_deployment ds) (d_stages e))
       else e) = (d', Ok tt).
Proof.
  unfold worker_turn. destruct (d_queue d) as [|[first|] queue]; [done| |done].
  destruct (d_stopped d); [done|]. destruct (_ && _); [done|].
  destruct (drain_to_latest _ _ _) as [[[i b]|] q] eqn:E; [|done].
  apply drain_spec in E as (-> & l & -> & Hl & ->). intros H. exists (first :: l), (with_queue d []).
  cbn [existsb]. destruct (reconcile_links _ _ _ _) as [d1 [[]|]] eqn:Er; [|done].
  injection H as <- <-. auto.
Qed.

(** ** Seeks *)

Section Frame.
Context (ds : Settings) (env : DispatchEnv) (d0 : Dispatcher).

(** Neither the epoch state nor the queue differ from [d0]'s, and a stopped
    dispatcher stays stopped. *)
Definition framed (d : Dispatcher) : Prop :=
  au_sync (d_authority d) = au_sync (d_authority d0) ∧ d_queue d = d_queue d0 ∧
  (d_stopped d0 = true → d_stopped d = true).

Lemma framed_effect {A} (c : Effect A) :
  (∀ d, au_sync (d_authority (c d).1) = au_sync (d_authority d) ∧ d_queue (c d).1 = d_queue d ∧
        (d_stopped d = true → d_stopped (c d).1 = true)) →
  keeps framed c.
Proof. intros H d (H1 & H2 & H3). destruct (H d) as (H4 & H5 & H6). split_and!; [congruence..|auto]. Qed.

Lemma framed_inventory gs_id up down t : keeps framed (send_kernel_inventory ds env gs_id up down t).
Proof.
  apply framed_effect. intros d. unfold send_kernel_inventory.
  by destruct (verify_ground_kernel_inventory _ _ _ _ _ _ _ _ _).
Qed.
Lemma framed_handle r i : keeps framed (handle_result ds env r i).
Proof. unfold handle_result, judge_result. keep; by apply framed_effect. Qed.
Lemma framed_command cmd reasons t : keeps framed (send_command ds env cmd reasons t).
Proof.
  apply framed_effect. intros d. unfold send_command.
  by destruct (actuator_answer _ _ _ _ _ _ _ _ _ _ _) as [[r l]|e].
Qed.
Lemma framed_tracked f : keeps framed (change_tracked f).
Proof. apply framed_effect. intros d. unfold change_tracked. by destruct (f _). Qed.
#[local] Hint Resolve framed_inventory framed_handle framed_command framed_tracked : nodal.

Lemma framed_reconcile intent : keeps framed (reconcile_links ds env intent).
Proof.
  assert (keeps framed (reconcile_body ds env intent)) as Hb.
  { unfold reconcile_body, run_due_kernel_verifications, verify_if_due, verify_gs,
      run_due_clean_kernel_audit, audit_clean_ground_kernel_state, audit_station,
      audit_long_delay_ends, latency_pass, change_actual, health, mark_nonclean, mark_clean,
      change_stations.
    keep; try by apply framed_effect.
    - apply framed_effect. intros d. by destruct (send_proof _ _ _ _ _ _) as [[st r]|e].
    - apply framed_effect. intros d. unfold long_delay_pass. by destruct (reconcile_long_delay _ _ _ _ _ _ _ _).
    - apply framed_effect. intros d. unfold plain_pass.
      by destruct (if ds_mbb_dispatch ds then _ else _) as [[tr log]|].
    - apply framed_effect. intros d. by destruct (send_latency _ _ _ _ _) as [[st r]|e].
    - apply framed_effect. intros d. by destruct (send_proof _ _ _ _ _ _) as [[st r]|e]. }
  intros d Hd. unfold reconcile_links. specialize (Hb d Hd). by destruct (reconcile_body ds env intent d).
Qed.

Lemma framed_repair announced d cmd : framed d → framed (run_operator_repair ds env announced d cmd).
Proof.
  intros Hd. unfold run_operator_repair. set (e := with_stations d _).
  destruct (announced Started); cbn [negb]; [|exact Hd].
  assert (∀ gs i t authority teardown,
    keeps framed (repair_body ds env announced gs i t authority teardown)) as Hb.
  { intros gs i t authority teardown.
    unfold repair_body, repair_teardown, repair_rewire, repair_final, repair_proof, repair_result,
      judge_result, announce, mark_nonclean, mark_clean, change_stations, health. keep; by apply framed_effect. }
  assert (framed e) as He by exact Hd.
  destruct (repair_body _ _ _ _ _ _ _ _ e) as [d1 o] eqn:E. epose proof (Hb _ _ _ _ _ e He) as Hr.
  rewrite E in Hr. destruct o as [[]|x]; [done|]. by destruct (announced RepairFailed).
Qed.
End Frame.

(** A message that leaves the Scheduler suspended queues nothing; and only the
    beginning of a seek suspends it. *)
Lemma message_suspended cfg epsilon_ms actual st msg st' out e :
  Authority.handle cfg epsilon_ms actual st msg = (st', out, e) → suspended (au_sync st') = true →
  out = [] ∧ (suspended (au_sync st) = true ∨
              expected_epoch_id (au_sync st') ≠ expected_epoch_id (au_sync st)).
Proof.
  destruct (suspended (au_sync st)) eqn:Hs; intros H Hs'.
  - split; [|by left]. destruct msg as [vis|epoch t|n|d|epoch|phase epoch|cmd|epoch];
      simpl in H; try by injection H as _ <- _.
    + unfold handle_visibility_event in H. rewrite Hs in H. by injection H as _ <- _.
    + unfold handle_clock_tick in H. destruct epoch as [epoch|]; [|by injection H as _ <- _].
      rewrite Hs in H. destruct (_ =? _); [|by injection H as _ <- _].
      unfold try_resume_on_clock_tick in H. case_match eqn:Er; [by injection H as _ <- _|].
      unfold resume in H. rewrite Er in H. destruct t as [t|]; [|by injection H as _ <- _].
      destruct (buffered_snapshot _) as [n|]; [|by injection H as _ <- _].
      unfold apply_snapshot in H. cbn [set_current with_batch with_sync au_view au_marks] in H.
      destruct (build_desired_from_snapshot _ _ _ _) as [[v m] [[]|x]];
        [|by injection H as _ <- _..].
      destruct (assert_authority_subset v); [by injection H as _ <- _|]. injection H as <- _ _. done.
    + unfold handle_link_state_snapshot in H. rewrite Hs in H. by injection H as _ <- _.
    + destruct phase; by injection H as _ <- _.
    + unfold on_scenario_command in H. rewrite Hs in H. destruct (existsb _ _);
        [by injection H as _ <- _|]. destruct (current_sim_time st); by injection H as _ <- _.
  - enough (out = [] ∧ expected_epoch_id (au_sync st') ≠ expected_epoch_id (au_sync st)) by tauto.
    assert (suspended (au_sync st') = suspended (au_sync st) → out = [] ∧
      expected_epoch_id (au_sync st') ≠ expected_epoch_id (au_sync st)) as Hsame by congruence.
    destruct msg as [vis|epoch t|n|d|epoch|phase epoch|cmd|epoch]; simpl in H.
    + apply Hsame. revert H. unfold handle_visibility_event, flush_batch. intros H; repeat case_match; simplify_eq/=; done.
    + apply Hsame. revert H. unfold handle_clock_tick, flush_batch. rewrite Hs.
      intros H; repeat case_match; simplify_eq/=; done.
    + apply Hsame. revert H. unfold handle_link_state_snapshot. rewrite Hs. unfold apply_snapshot.
      intros H; repeat case_match; simplify_eq/=; done.
    + apply Hsame. by injection H as <- _ _.
    + apply Hsame. injection H as <- _ _. simpl. unfold mark_ephemeris. by case_match.
    + destruct phase.
      * apply Hsame. injection H as <- _ _. simpl. unfold mark_playing. by case_match.
      * apply Hsame. by injection H as <- _ _.
      * injection H as <- <- _. split; [done|]. revert Hs'. unfold begin_seek_epoch, begin_seek.
        destruct (Z.leb_spec epoch (expected_epoch_id (au_sync st))); simpl; [congruence|lia].
    + apply Hsame. revert H. unfold on_scenario_command. rewrite Hs. intros H; repeat case_match; simplify_eq/=; done.
    + apply Hsame. injection H as <- _ _. simpl. unfold mark_watchdog_timeout. by rewrite Hs.
Qed.

(** While a seek is in progress no intent queued passes the worker's guard, and a
    request to stop is queued only once the dispatcher is stopped. *)
Definition seek_guarded (d : Dispatcher) : Prop :=
  d_stopped d = true ∨
  ((None ∉ d_queue d) ∧
   (suspended (au_sync (d_authority d)) = true →
    ∀ intent, Some intent ∈ d_queue d → in_source intent ≠ src_resume)).

Lemma discard_all queue : None ∉ queue → discard_pending queue = [].
Proof.
  induction queue as [|[i|] queue IH]; intros H; simpl; [done|apply IH; set_solver|set_solver].
Qed.

Lemma guarded_suffix d d' l :
  seek_guarded d → (d_stopped d = true → d_stopped d' = true) → d_queue d = l ++ d_queue d' →
  au_sync (d_authority d') = au_sync (d_authority d) → seek_guarded d'.
Proof.
  intros [H|[H1 H2]] Hs Hq Ha; [left; auto|right]. rewrite Hq in H1, H2. rewrite Ha.
  split; [set_solver|]. intros Hs' i Hi. apply H2; set_solver.
Qed.

Lemma guarded_turn ds env d d' :
  worker_turn ds env d = Drops d' ∨ worker_turn ds env d = Ends d' ∨
    (∃ intent, worker_turn ds env d = Reconciles intent d') →
  seek_guarded d → seek_guarded d'.
Proof.
  intros Ht H. unfold worker_turn in Ht. destruct (d_queue d) as [|[intent|] queue] eqn:Eq; [naive_solver|..].
  2: { destruct Ht as [?|[[= <-]|[? ?]]]; [done| |done]. by eapply (guarded_suffix d _ [None]). }
  destruct (d_stopped d) eqn:Ed.
  { destruct Ht as [?|[[= <-]|[? ?]]]; [done| |done]. by eapply (guarded_suffix d _ [Some intent]). }
  destruct (_ && _). { destruct Ht as [[= <-]|[?|[? ?]]]; [|done..]. by eapply (guarded_suffix d _ [Some intent]). }
  destruct H as [H|[Hn _]]; [congruence|]. destruct (drain_to_latest _ _ _) as [[[i rebase]|] queue'] eqn:E.
  2: { exfalso. rewrite Eq in Hn. revert E Hn. clear. generalize (in_rebaseline_counts intent).
       revert intent. induction queue as [|[i|] queue IH]; simpl; intros intent b H Hn; [done| |set_solver].
       eapply IH; [exact H|set_solver]. }
  apply drain_spec in E as (-> & _). set (d0 := if rebase then _ else _) in Ht.
  assert (d_queue d0 = []) as Hq0 by (unfold d0; by destruct rebase).
  assert (framed d0 d0) as Hf by done. apply (framed_reconcile ds env d0 i) in Hf.
  destruct (reconcile_links ds env i d0) as [d1 [[]|e]]; destruct Hf as (_ & Hq & _); simpl in Hq;
    rewrite Hq0 in Hq.
  - destruct Ht as [?|[?|[? [= <- <-]]]]; [done..|]. right. rewrite Hq. split; [set_solver|set_solver].
  - destruct Ht as [?|[[= <-]|[? ?]]]; [done| |done]. by left.
Qed.

Lemma reachable_guarded ds env epsilon_ms lost d : reachable ds env epsilon_ms lost d → seek_guarded d.
Proof.
  induction 1 as [au st s Hs Hp|lost new d d' _ IH Hstep]; [right; set_solver|].
  destruct Hstep as [msg au intents err stopped Hm|t _|d' Ht|announced cmd|announced before cmd after Hp|].
  - destruct IH as [IH|[H1 H2]]; [left; simpl; by rewrite IH|]. destruct stopped eqn:Es.
    { left. apply orb_true_r. }
    right. simpl. assert (None ∉ queue_after (d_authority d) au (d_queue d)) as Hq.
    { unfold queue_after. case_bool_decide; [done|]. rewrite discard_all by done. set_solver. }
    split.
    { intros [?|(x & ? & _)%list_elem_of_fmap]%elem_of_app; done. }
    intros Hs. destruct (message_suspended _ _ _ _ _ _ _ _ Hm Hs) as [-> Hc]. rewrite app_nil_r.
    unfold queue_after. case_bool_decide; [|rewrite discard_all by done; set_solver].
    apply H2. by destruct Hc.
  - destruct IH as [IH|[H1 H2]]; [by left|right]. simpl. split; [set_solver|]. intros Hs i.
    intros [Hi|[= ->]%list_elem_of_singleton]%elem_of_app; [by apply H2|done].
  - by eapply guarded_turn.
  - unfold on_operator_repair_command. by destruct (repair_refusal _ _ _).
  - set (d0 := take_repair _ _ _). assert (framed d d0) as H0 by done.
    apply (framed_repair ds env d announced d0 cmd) in H0 as (Ha & Hq & Hs).
    by apply (guarded_suffix d _ []); [..|rewrite Hq|].
  - by left.
Qed.

(** while a seek is in progress the worker does not reconcile.  In every state
    the Scheduler reaches in which it is suspended, a turn of the worker waits,
    drops what it took, or ends: no intent, of the old epoch or of an end that came
    due meanwhile, reaches the actuator. *)
Theorem no_reconcile_during_seek ds env epsilon_ms lost d intent d' :
  reachable ds env epsilon_ms lost d → suspended (au_sync (d_authority d)) = true →
  worker_turn ds env d ≠ Reconciles intent d'.
Proof.
  intros Hr%reachable_guarded Hs H. unfold worker_turn in H.
  destruct (d_queue d) as [|[first|] queue] eqn:Eq; [done| |done].
  destruct (d_stopped d) eqn:Ed; [done|]. destruct Hr as [?|[_ Hg]]; [congruence|].
  rewrite Hs, bool_decide_false in H; [done|]. apply Hg; [done|]. rewrite Eq. by left.
Qed.
