(* ===== verification/DispatchScenario.v ===== *)
(** * One station, evaluated

    A Scheduler with one ground station and one satellite on one host, against
    agents that obey, refuse, or report a kernel that differs: the states and runs at
    which the theorems on stations, repairs and the dispatch loop are applied. *)

From S2P Require Import Prelude.
From S2P Require Import PyFloat.
From S2P Require Import PyData.
From S2P Require Import PyTime.
From S2P Require Import GroundTypes.
From S2P Require Import EventDiff.
From S2P Require Import AgentHealth.
From S2P Require Import EpochSync.
From S2P Require Import DesiredState.
From S2P Require Import Authority.
From S2P Require Import Actuation.
From S2P Require Import DispatchPlanner.
From S2P Require Import ReconcileTheorems.
From S2P Require Import ContactDrain.
From S2P Require Import Placement.
From S2P Require Import Substrate.
From S2P Require Import NodeAgentBatches.
From S2P Require Import BatchTheorems.
From S2P Require Import DispatchActuator.
From S2P Require Import ActuatorTheorems.
From S2P Require Import LongDelayStages.
From S2P Require Import Adoption.
From S2P Require Import StationState.
From S2P Require Import Recovery.
From S2P Require Import DispatchLoop.
From S2P Require Import StationTheorems.
From S2P Require Import RecoveryTheorems.
From S2P Require Import PassTheorems.
From stdpp Require Import base list strings gmap.
Local Open Scope Z_scope.

Module Station.

Definition gs : string := "gs-A".
Definition link : node_pair := Pass.p.
Definition record_of (c : option Contact) : ActiveLinkInfo :=
  {| interface_a := "gnd0"; interface_b := "term0"; latency_a_to_b_ms := float_of_Z 12;
     latency_b_to_a_ms := float_of_Z 13; commanded_netem_ms := Some (float_of_Z 10, float_of_Z 11);
     link_type := ground_link; range_km := Some (float_of_Z 3600); authority_sim_time := Some 0;
     authority_source := Some "link_state_snapshot"; authority_sequence := Some 1; contact := c;
     drain := None; stage_losses := ∅ |}.
Definition wanted : Links := {[link := record_of None]}.

(** Both on one host. *)
Definition located : PodLocationMap :=
  {| node_of := {["sat-1" := "k3s-1"; "gs-A" := "k3s-1"]}; node_ips := {["k3s-1" := "10.0.0.1"]};
     agent_addrs := {["k3s-1" := "k3s-1"]} |}.
Definition comp : string → string → float * float → result LatencyCompensation :=
  latency_compensation "run-7" "sha256:ab" located cluster_measured 2000000 "half-rtt".

Definition settings : Settings :=
  {| ds_deployment :=
       {| dp_locator := located;
          dp_config := {| cfg_interface_map := {[link := ("gnd0", "term0")]};
                          cfg_gs_capacities := Pass.capacities;
                          cfg_sat_capacities := {["sat-1" := 1]}; cfg_long_delay_pairs := ∅ |};
          dp_rates := Pass.rates; dp_max_latency_age_s := float_of_Z 10; dp_fence := seven |};
     ds_scheduler_instance_id := "scheduler-1"; ds_health_policy := default_policy;
     ds_clean_kernel_audit_interval := Some (30 * 1000000); ds_mbb_dispatch := false;
     ds_gs_handover_modes := {[gs := "bbm"]} |}.

(** Agents that refuse, leaving the kernel as it was. *)
Definition refused_entry (i : Iface) : Entry :=
  {| en_iface := i; en_success := false; en_error_code := 10; en_verified := false;
     en_dirty_kernel := false; en_loss := None; en_survey := None |}.
Definition refuse (_ : string) (request : AgentRequest) : AgentReply :=
  Answered {| rs_success := false; rs_error_code := 10; rs_dirty_kernel := false;
              rs_entries := map refused_entry (requested_ifaces request) |}.

(** An environment by how inventories and batches are answered; the clock reads
    twenty seconds more each time. *)
Definition world (inventory batch : string → AgentRequest → AgentReply) : DispatchEnv :=
  {| de_stage := {| se_transport _ := inventory; se_monotonic _ _ := float_of_Z 100; se_now _ := 0;
                    se_compensation _ := comp |};
     de_batch _ _ _ := batch; de_wall n := Z.of_nat n * 20000000 |}.

Definition authority (links : Links) (sync : EpochSyncState) : Authority :=
  {| au_view := {| desired_links := links; ome_view := (λ _, (true, true, active)) <$> links;
                   teardown_pairs := ∅ |};
     au_marks := {| last_snapshot_seq := 1; last_snapshot_sim_time := Some 0;
                    last_snapshot_epoch_id := 3 |};
     au_sync := sync; au_overrides := {| override_pairs := ∅; override_nodes := ∅ |};
     pending_visibility_events := []; last_visibility_sim_time := None; current_sim_time := Some 0;
     latest_decision_snapshot := None; pending_since := ∅; fold_diagnostics := [] |}.

Definition stages (links : Links) : Stages :=
  {| sg_tracked := {| actual_links := links; last_latencies := ∅; gs_active := ∅; sat_active := ∅ |};
     sg_overlapping := ∅; sg_desired := ∅; sg_log := []; sg_trace := []; sg_events := [] |}.
Definition no_stations : Stations :=
  {| gs_actuation := ∅; gs_stale_link_infos := ∅; repair_original_states := ∅; agent_health := ∅;
     last_clean_kernel_audit_at := 0; pending_repairs := []; wall_readings := 0 |}.

(** Started with [held], desiring [desired]. *)
Definition start (held desired : Links) (sync : EpochSyncState) : Dispatcher :=
  started settings (authority desired sync) (stages held) no_stations.

Definition drain_queued (d : Dispatcher) : Dispatcher :=
  with_queue d (d_queue d ++
    [Some (build_dispatch_intent (d_authority d) (dom (d_actual d)) 0 src_drain false)]).
Definition turned (env : DispatchEnv) (d : Dispatcher) : Dispatcher :=
  match worker_turn settings env d with
  | Reconciles _ d' | Drops d' | Ends d' => d'
  | Waits => d
  end.

Definition did_reconcile (t : Turn) : bool := match t with Reconciles _ _ => true | _ => false end.

Lemma did_reconcile_spec t : did_reconcile t = true → ∃ i d', t = Reconciles i d'.
Proof. destruct t as [| | |i d']; try done. by exists i, d'. Qed.

Lemma turned_step env epsilon_ms d :
  did_reconcile (worker_turn settings env d) = true → step settings env epsilon_ms d [] (turned env d).
Proof.
  intros H. apply step_turn. unfold turned. destruct (worker_turn settings env d) as [| | |i d']; try done.
  right. right. by exists i.
Qed.

(** ** Refused: the station is blocked and will be verified again *)

Definition refusing : DispatchEnv := world refuse refuse.
Definition idle : Dispatcher := drain_queued (start ∅ wanted initial_sync).
Definition blocked : Dispatcher := turned refusing idle.

Lemma blocked_reachable : reachable settings refusing f_0 [] blocked.
Proof.
  eapply (reachable_step _ _ _ [] []); [|apply turned_step; vm_compute; reflexivity].
  apply (reachable_step _ _ _ [] [] (start ∅ wanted initial_sync)); [by apply reachable_start|].
  apply (step_drain _ _ _ _ 0). reflexivity.
Qed.

Definition is_state (s : ActuationState) (d : Dispatcher) : bool :=
  bool_decide (ga_state (d_state d gs) = s).

(** ** Dirty: held and desired, but in doubt *)

Definition obeying : DispatchEnv := world obedient obedient.
(** Inventories find another kernel; batches are obeyed. *)
Definition differing : DispatchEnv := world refuse obedient.
Definition doubted (d : Dispatcher) : Dispatcher :=
  with_stations d (set_gs_nonclean Pass.capacities (λ _, 0) (d_authority d) (d_actual d) (d_stations d)
    gs st_kernel_dirty {[link]} None).
Definition dirty : Dispatcher := doubted (start wanted wanted initial_sync).

Definition verify (env : DispatchEnv) (d : Dispatcher) : Dispatcher * result bool :=
  verify_gs settings env gs 0 None d.
Definition returned (b : bool) (x : Dispatcher * result bool) : bool :=
  match x.2 with Ok b' => Bool.eqb b' b | Raise _ => false end.

Lemma returned_eq b x : returned b x = true → x = (x.1, Ok b).
Proof.
  destruct x as [d [b'|e]]; unfold returned; simpl; [|done]. by intros ->%Bool.eqb_prop.
Qed.

Fixpoint verified_times (n : nat) : Dispatcher :=
  match n with O => dirty | S n => (verify differing (verified_times n)).1 end.

Definition count (d : Dispatcher) : Z := verify_attempt_count (ga_recovery (d_state d gs)).

(** A verification that returned false and was counted found a mismatch. *)
Lemma counted_mismatch env d d' :
  verify env d = (d', Ok false) → count d' ≠ count d →
  ∃ r up down, inventoried gs up down r d d' ∧ transport_only_failure r = false.
Proof.
  intros H Hc. apply verify_cases in H as [_ H].
  inversion H as [| |r up down g Ht _ Hg _ Hn _ _|r up down g Ht _ Hr Hg _ _ _ _]; subst; [|eauto].
  exfalso. apply Hc. unfold count, d_state, ground_state at 1. by rewrite Hg.
Qed.

Lemma mismatch_run n :
  forallb (λ k, returned false (verify differing (verified_times k)) &&
                negb (count (verified_times (S k)) =? count (verified_times k))) (seq 0 n) = true →
  mismatches settings differing gs n dirty (verified_times n).
Proof.
  induction n as [|n IH]; [constructor|]. rewrite seq_S, forallb_app. cbn [forallb Nat.add]. intros H.
  rewrite !andb_true_iff in H. destruct H as [Hn [[H1 H2%negb_true_iff%Z.eqb_neq] _]].
  apply returned_eq in H1.
  destruct (counted_mismatch _ _ _ H1 H2) as (r & up & down & Hi & Hr).
  eapply mismatches_more; [by apply IH|done|exact H1|exact Hi|exact Hr].
Qed.

(** ** Repaired, reconciled, suspended *)

Definition repair : OperatorRepairCommand :=
  {| rc_session_id := "run-7"; rc_wiring_generation := "sha256:ab";
     rc_scheduler_instance_id := "scheduler-1"; rc_gs_id := gs; rc_intervention_id := "fix-1" |}.
Definition all_out (event : RepairEvent) : bool := true.
Definition accepted : Dispatcher := (on_operator_repair_command settings all_out dirty repair).1.
Definition repaired : Dispatcher := run_operator_repair settings obeying all_out accepted repair.

Definition plain_intent (links : Links) : DispatchIntent :=
  {| in_desired := links; in_down_reasons := ∅; in_forced_bbm_pairs := ∅; in_sim_time := 0;
     in_source := src_snapshot; in_rebaseline_counts := true |}.
Definition released : Dispatcher * result unit :=
  reconcile_links settings obeying (plain_intent ∅) (start wanted ∅ initial_sync).
Definition returns (x : Dispatcher * result unit) : bool := is_Ok x.2.
Lemma returns_eq x : returns x = true → x = (x.1, Ok tt).
Proof. by destruct x as [d [[]|e]]. Qed.

Definition no_batch_failed (t : Trace) : bool :=
  forallb (λ x, match x.1 with CmdBatch => bool_decide (failed_pairs x.2 = ∅) | _ => true end) t.
Lemma no_batch_failed_spec t r : no_batch_failed t = true → (CmdBatch, r) ∈ t → failed_pairs r = ∅.
Proof.
  unfold no_batch_failed. rewrite forallb_forall. intros H Hr%list_elem_of_In. specialize (H _ Hr).
  by apply bool_decide_eq_true in H.
Qed.

Lemma start_settled held desired sync :
  (∀ p info, held !! p = Some info → drain info = None) →
  settled_session settings (start held desired sync).
Proof.
  intros H. split; [done|done|]. intros gs_id g Hg. unfold start, started in Hg. simpl in Hg.
  unfold startup_roster in Hg. vm_compute (sorted_set str_lt _) in Hg. simpl in Hg.
  apply lookup_insert_Some in Hg as [[_ <-]|[_ Hg]]; [done|]. by rewrite lookup_empty in Hg.
Qed.

Definition seeking : EpochSyncState := (begin_seek initial_sync 4).1.
Definition suspended_now : Dispatcher := drain_queued (start wanted ∅ seeking).

Definition two_queued : Dispatcher :=
  with_queue (start ∅ wanted initial_sync) [Some (plain_intent ∅); Some (plain_intent wanted)].

End Station.

Lemma no_station_stuck_witness :
  ga_state (d_state Station.blocked Station.gs) = st_actuation_blocked ∧
  ∃ t, next_verify_after (ga_recovery (d_state Station.blocked Station.gs)) = Some t.
Proof.
  assert (gs_actuation (d_stations Station.blocked) !! Station.gs =
    Some (d_state Station.blocked Station.gs)) as Hg by (vm_compute; reflexivity).
  assert (ga_state (d_state Station.blocked Station.gs) = st_actuation_blocked) as Hs
    by (vm_compute; reflexivity).
  split; [exact Hs|].
  destruct (no_station_stuck Station.settings Station.refusing f_0 [] Station.blocked Station.gs _
    Station.blocked_reachable Hg) as [(t & n & Ht & _)|[[Ho _]|[(cmd & Hc & _)|(cmd & Hc & _)]]].
  - rewrite Hs. discriminate.
  - exists t. exact Ht.
  - exfalso. vm_compute in Ho. discriminate Ho.
  - exfalso. assert (pending_repairs (d_stations Station.blocked) = []) as E by (vm_compute; reflexivity).
    rewrite E in Hc. by apply elem_of_nil in Hc.
  - exfalso. by apply elem_of_nil in Hc.
Defined.

Lemma verification_needs_proof_witness :
  Station.returned true (Station.verify Station.obeying Station.dirty) = true ∧
  verified Station.settings Station.gs Station.dirty (Station.verify Station.obeying Station.dirty).1 true.
Proof.
  assert (Station.returned true (Station.verify Station.obeying Station.dirty) = true) as H
    by (vm_compute; reflexivity).
  split; [exact H|]. apply Station.returned_eq in H.
  exact (proj2 (verification_needs_proof Station.settings Station.obeying Station.gs 0 _ _ _ H)).
Defined.

Lemma evidence_calls_operator_witness :
  operator_action_required (ga_recovery (d_state (Station.verified_times 5) Station.gs)) = true.
Proof.
  assert (mismatches Station.settings Station.differing Station.gs 5 Station.dirty (Station.verified_times 5))
    as H by (apply Station.mismatch_run; vm_compute; reflexivity).
  apply (evidence_calls_operator Station.settings Station.differing Station.gs 5 _ _ H);
    [lia|vm_compute; reflexivity|lia].
Defined.

Lemma repair_reaches_authority_witness :
  ga_state (d_state Station.repaired Station.gs) = st_clean ∧
  dom (actual_at Station.settings Station.repaired Station.gs) = {[Station.link]}.
Proof.
  assert (ga_state (d_state Station.repaired Station.gs) = st_clean) as H by (vm_compute; reflexivity).
  split; [exact H|].
  destruct (repair_reaches_authority Station.settings Station.obeying Station.all_out Station.accepted Station.repair
    (or_introl eq_refl) H)
    as [Hd _]. etrans; [exact Hd|]. apply (bool_decide_unpack _). vm_compute. exact I.
Defined.

Lemma untrusted_station_untouched_witness :
  ∃ ch, plan_changes Station.settings Station.obeying Station.dirty (Station.plain_intent ∅) = Ok ch ∧
    Station.link ∉ ch_remove ch.
Proof.
  destruct (plan_changes Station.settings Station.obeying Station.dirty (Station.plain_intent ∅))
    as [ch|e] eqn:E; [|vm_compute in E; discriminate E].
  exists ch. split; [reflexivity|].
  apply (untrusted_station_untouched Station.settings Station.obeying (Station.plain_intent ∅) Station.dirty
    ch Station.gs Station.link E); [vm_compute; reflexivity|vm_compute; discriminate|].
  left. vm_compute. reflexivity.
Defined.

Lemma pass_converges_witness :
  Station.returns Station.released = true ∧ dom (d_actual Station.released.1) = ∅.
Proof.
  assert (Station.returns Station.released = true) as H by (vm_compute; reflexivity).
  split; [exact H|]. apply Station.returns_eq in H.
  destruct (pass_converges Station.settings Station.obeying (Station.plain_intent ∅)
    (Station.start Station.wanted ∅ initial_sync) Station.released.1) as [_ Hd].
  - apply Station.start_settled. unfold Station.wanted.
    intros p info [_ <-]%lookup_singleton_Some. reflexivity.
  - exact H.
  - intros r. apply Station.no_batch_failed_spec. vm_compute. reflexivity.
  - rewrite (Hd eq_refl). apply dom_empty_L.
Defined.

Lemma worker_takes_newest_witness :
  ∃ d', worker_turn Station.settings Station.obeying Station.two_queued =
    Reconciles (Station.plain_intent Station.wanted) d'.
Proof.
  assert (Station.did_reconcile (worker_turn Station.settings Station.obeying Station.two_queued) = true)
    as H by (vm_compute; reflexivity).
  apply Station.did_reconcile_spec in H as (i & d' & E).
  destruct (worker_takes_newest Station.settings Station.obeying Station.two_queued i d' E)
    as (l & e & Hq & Hl & _).
  exists d'. assert (l = [Station.plain_intent ∅; Station.plain_intent Station.wanted]) as ->.
  { unfold Station.two_queued in Hq. simpl in Hq. destruct l as [|a [|b [|c l]]]; try discriminate Hq.
    injection Hq as <- <-. reflexivity. }
  injection Hl as <-. exact E.
Defined.

Lemma no_reconcile_during_seek_witness :
  suspended (au_sync (d_authority Station.suspended_now)) = true ∧
  ∀ intent d', worker_turn Station.settings Station.obeying Station.suspended_now ≠ Reconciles intent d'.
Proof.
  split; [vm_compute; reflexivity|]. intros intent d'.
  apply (no_reconcile_during_seek Station.settings Station.obeying f_0 [] Station.suspended_now intent d');
    [|vm_compute; reflexivity].
  apply (reachable_step _ _ _ [] [] (Station.start Station.wanted ∅ Station.seeking)); [by apply reachable_start|].
  apply (step_drain _ _ _ _ 0). reflexivity.
Defined.

(** ** Repairs that go wrong *)

(** A link whose LinkUp failed and which is no longer desired: the next failure
    lists it as stale, and repairing the station stops the Scheduler. *)
Example leftover_repair_stops :
  let failed := Station.doubted (Station.start ∅ Station.wanted initial_sync) in
  let left := Station.doubted (with_authority failed (Station.authority ∅ initial_sync)) in
  let d := run_operator_repair Station.settings Station.obeying Station.all_out left Station.repair in
  (d_stopped left, d_stopped d) = (false, true).
Proof. vm_compute. reflexivity. Qed.

(** The acceptance of a repair cannot be published: the station stays reserved and
    dirty, and the next command for it is refused. *)
Example unannounced_repair_strands :
  let lost := on_operator_repair_command Station.settings (λ _, false) Station.dirty Station.repair in
  let again := on_operator_repair_command Station.settings Station.all_out lost.1 Station.repair in
  (lost.2, again.2, next_verify_after (ga_recovery (d_state again.1 Station.gs)),
   pending_repairs (d_stations again.1)) =
  (RepairUnanswered, RepairRejected "Ground station already has active intervention", None, []).
Proof. vm_compute. reflexivity. Qed.

(** A station that holds a long-delay pass stays kernel-dirty after its repair. *)
Example pass_repair_fails :
  let held := {[Station.link := Station.record_of (Some {| ct_epoch_id := 3; ct_opened_at := 0 |})]} in
  let d := Station.doubted (Station.start held held initial_sync) in
  let d' := run_operator_repair Station.settings Station.obeying Station.all_out d Station.repair in
  (ga_state (d_state d' Station.gs), d_trace d') = (st_kernel_dirty, []).
Proof. vm_compute. reflexivity. Qed.

(** The guard of the worker alone does not keep old-epoch intents from the actuator:
    a resume of an earlier epoch, left in the queue when another seek begins, passes
    it.  That nothing is left there is the work of [discard_pending]. *)
Example guard_admits_old_resume :
  let resume := {| in_desired := Station.wanted; in_down_reasons := ∅; in_forced_bbm_pairs := ∅;
                   in_sim_time := 0; in_source := src_resume; in_rebaseline_counts := true |} in
  let d := with_queue (Station.start ∅ ∅ Station.seeking) [Some resume] in
  (suspended (au_sync (d_authority d)),
   Station.did_reconcile (worker_turn Station.settings Station.obeying d)) = (true, true).
Proof. vm_compute. reflexivity. Qed.
