(* ===== verification/WriterLease.v ===== *)
(** * The session writer lease ([services/scheduler/writer_lease.py])

    One Scheduler commands the kernel state of a session: the one that holds a
    Lease object of the cluster.  Every write of that object is a compare-and-swap
    on its resource version, and every change of holder raises its transition
    count, which is the writer epoch the commands carry.

    A method of [WriterLease] is a program of calls to the API server and reads of
    the clock; between two of its calls any other Scheduler may act, and the Lease may
    be deleted.  The API server is a class, [LeaseServer]: what it answers and what
    its answer says about the stored object.  A write that fails for another reason
    than a conflict may have been applied.  A Lease that is created again is another
    object: it has a new uid, a later version than any before, and its count starts
    again.

    [safe] is the rely-guarantee triple of such a program: whatever the others do
    to the Lease between its calls ([evolves]), each of its calls moves the Lease as
    its method may: an acquire ([take_step]), a renewal or a release
    ([keep_step]). *)

From S2P Require Import Prelude.
From S2P Require Import PyFloat.
From S2P Require Import PyTime.
From Stdlib Require Import Ascii.
From stdpp Require Import base list strings gmap pretty.
Local Open Scope Z_scope.

(** ** The Lease object and the API server *)

Record LeaseSpec := {
  holder_identity : option string;
  lease_duration_seconds : option Z;
  acquire_time : option datetime;
  renew_time : option datetime;
  lease_transitions : option Z;
}.

Record Lease := { lease_uid : string; resource_version : Z; lease_spec : LeaseSpec }.

Inductive ApiCall := ReadLease | CreateLease (spec : LeaseSpec) | ReplaceLease (lease : Lease).

(** The object, the status of an [ApiException], or a connection that broke. *)
Inductive ApiAnswer := Answered (lease : Lease) | Refused (status : Z) | Broken.

(** What the API server keeps of the Lease: the object under its name, if it exists,
    the latest version and the uids it gave to objects of that name. *)
Record LeaseState := {
  ls_lease : option Lease;
  ls_latest : Z;
  ls_uids : gset string;
}.

Definition lease_created (o : LeaseState) (l : Lease) : LeaseState :=
  {| ls_lease := Some l; ls_latest := resource_version l; ls_uids := {[lease_uid l]} ∪ ls_uids o |}.
Definition lease_replaced (o : LeaseState) (l : Lease) : LeaseState :=
  {| ls_lease := Some l; ls_latest := resource_version l; ls_uids := ls_uids o |}.
Definition lease_deleted (o : LeaseState) : LeaseState :=
  {| ls_lease := None; ls_latest := ls_latest o; ls_uids := ls_uids o |}.

Class LeaseServer := {
  Store : Type;
  known : Store → LeaseState;
  perform : Store → ApiCall → ApiAnswer → Store → Prop;
  (** The Lease is deleted, by whoever may. *)
  deletion : Store → Store → Prop;
  (** A read changes nothing and answers what is stored; 404 is its absence. *)
  perform_read s a s' : perform s ReadLease a s' →
    known s' = known s ∧
    (∀ l, a = Answered l → ls_lease (known s) = Some l) ∧ (a = Refused 404 → ls_lease (known s) = None);
  (** A create stores a new object where there was none, with a uid of its own and a
      later version than any Lease before it, or nothing. *)
  perform_create s spec a s' : perform s (CreateLease spec) a s' →
    (known s' = known s ∧ ∀ l, a ≠ Answered l) ∨
    (ls_lease (known s) = None ∧ a ≠ Refused 409 ∧ ∃ uid rv,
       (uid ∉ ls_uids (known s)) ∧ ls_latest (known s) < rv ∧
       known s' = lease_created (known s)
                    {| lease_uid := uid; resource_version := rv; lease_spec := spec |});
  (** A replace swaps the object its version names, under a later version, or
      does nothing. *)
  perform_replace s l a s' : perform s (ReplaceLease l) a s' →
    (known s' = known s ∧ ∀ l', a ≠ Answered l') ∨
    (a ≠ Refused 409 ∧ ∃ cur rv, ls_lease (known s) = Some cur ∧
       resource_version cur = resource_version l ∧ ls_latest (known s) < rv ∧
       known s' = lease_replaced (known s)
                    {| lease_uid := lease_uid cur; resource_version := rv; lease_spec := lease_spec l |});
  (** A deletion forgets the object; its uid and its versions are not given again. *)
  deletion_forgets s s' : deletion s s' → known s' = lease_deleted (known s);
}.

(** ** Programs *)

Inductive Prog (A : Type) : Type :=
| Ret (x : A)
| Throw (e : exn)
| Now (k : datetime → Prog A)
| Call (c : ApiCall) (k : ApiAnswer → Prog A).
Arguments Ret {A} x.
Arguments Throw {A} e.
Arguments Now {A} k.
Arguments Call {A} c k.

Definition ApiException (status : Z) : exn := Raised "ApiException" (pretty status).
Definition ConnectionFailure : exn := Raised "HTTPError" "connection failed".
Definition WriterLeaseConflict (what : string) : exn := Raised "WriterLeaseConflict" what.

(** The exception an answer that is not the object raises. *)
Definition failure {A} (a : ApiAnswer) : Prog A :=
  match a with
  | Refused status => Throw (ApiException status)
  | _ => Throw ConnectionFailure
  end.

(** The answer to a write: done, lost to another writer, or an exception. *)
Definition written {A} (a : ApiAnswer) (wrote lost : Prog A) : Prog A :=
  match a with
  | Answered _ => wrote
  | Refused status => if status =? 409 then lost else failure a
  | Broken => failure a
  end.

(** ** WriterLease *)

Definition LEASE_DURATION_S : Z := 15.
Definition RENEW_DEADLINE_S : float := Eval vm_compute in float_of_Z 10.
Definition WRITE_ATTEMPTS : nat := 3.

Record WriterLease := {
  wl_session_id : string;
  wl_holder : string;
  wl_epoch : option Z;
}.

(** [text.split("/", 1)[0]]. *)
Fixpoint before_slash (text : string) : string :=
  match text with
  | EmptyString => ""
  | String c rest => if bool_decide (c = "/"%char) then "" else String c (before_slash rest)
  end.

Fixpoint has_slash (text : string) : bool :=
  match text with
  | EmptyString => false
  | String c rest => bool_decide (c = "/"%char) || has_slash rest
  end.

(** [WriterLease.__init__]. *)
Definition new_writer_lease (session_id instance : string) : result WriterLease :=
  raise_if bool_decide (session_id = "") || has_slash session_id
    with ValueError "invalid session id for the writer lease" ;;
  Ok {| wl_session_id := session_id; wl_holder := session_id +:+ "/" +:+ instance;
        wl_epoch := None |}.

Definition with_epoch (self : WriterLease) (epoch : Z) : WriterLease :=
  {| wl_session_id := wl_session_id self; wl_holder := wl_holder self; wl_epoch := Some epoch |}.

(** [_held_spec]. *)
Definition held_spec {A} (self : WriterLease) (epoch : Z) (k : LeaseSpec → Prog A) : Prog A :=
  Now (λ now, k {| holder_identity := Some (wl_holder self);
                   lease_duration_seconds := Some LEASE_DURATION_S;
                   acquire_time := Some now; renew_time := Some now;
                   lease_transitions := Some epoch |}).

(** [x or default] of a number that may be absent. *)
Definition number_or (x : option Z) (d : Z) : Z :=
  match x with Some n => if n =? 0 then d else n | None => d end.

Definition lease_end (spec : LeaseSpec) (renewed : datetime) : result datetime :=
  datetime_add renewed (1000000 * number_or (lease_duration_seconds spec) LEASE_DURATION_S).

(** [_expired]. *)
Definition expired {A} (spec : LeaseSpec) (k : bool → Prog A) : Prog A :=
  match renew_time spec with
  | None => k true
  | Some renewed =>
      match lease_end spec renewed with
      | Ok ends => Now (λ now, k (ends <? now))
      | Raise e => Throw e
      end
  end.

(** The result of a write that takes the Lease at [epoch]. *)
Definition taken (self : WriterLease) (epoch : Z) (a : ApiAnswer) : Prog (WriterLease * option Z) :=
  written a (Ret (with_epoch self epoch, Some epoch)) (Ret (self, None)).

(** [_create]. *)
Definition create (self : WriterLease) : Prog (WriterLease * option Z) :=
  held_spec self 1 (λ spec, Call (CreateLease spec) (taken self 1)).

Definition transitions_of (spec : LeaseSpec) : Z := number_or (lease_transitions spec) 0.

Definition with_spec (lease : Lease) (spec : LeaseSpec) : Lease :=
  {| lease_uid := lease_uid lease; resource_version := resource_version lease;
     lease_spec := spec |}.

(** The write of [try_acquire] over the Lease it read. *)
Definition take_over (self : WriterLease) (lease : Lease) : Prog (WriterLease * option Z) :=
  let epoch := transitions_of (lease_spec lease) + 1 in
  held_spec self epoch (λ spec, Call (ReplaceLease (with_spec lease spec)) (taken self epoch)).

(** Whether a live holder of this session keeps the Lease. *)
Definition holder_keeps {A} (self : WriterLease) (spec : LeaseSpec) (k : bool → Prog A) : Prog A :=
  let holder := default "" (holder_identity spec) in
  if negb (bool_decide (holder = "")) && bool_decide (before_slash holder = wl_session_id self)
  then expired spec (λ e, k (negb e)) else k false.

(** [try_acquire]: the Scheduler's state after it and its epoch, if it took the
    Lease. *)
Definition try_acquire (self : WriterLease) : Prog (WriterLease * option Z) :=
  Call ReadLease (λ a,
    match a with
    | Answered lease =>
        holder_keeps self (lease_spec lease) (λ keeps,
          if keeps : bool then Ret (self, None) else take_over self lease)
    | Refused status => if status =? 404 then create self else failure a
    | Broken => failure a
    end).

(** A spec with another [renew_time] and, for a release, no holder. *)
Definition renewed_spec (spec : LeaseSpec) (holder : option string) (now : datetime) : LeaseSpec :=
  {| holder_identity := holder; lease_duration_seconds := lease_duration_seconds spec;
     acquire_time := acquire_time spec; renew_time := Some now;
     lease_transitions := lease_transitions spec |}.

(** [renew], from its [n] attempts left. *)
Fixpoint renew_attempts (self : WriterLease) (n : nat) : Prog bool :=
  match n with
  | O => Throw (WriterLeaseConflict "renewal lost every write")
  | S n =>
      Call ReadLease (λ a,
        match a with
        | Answered lease =>
            if negb (bool_decide (holder_identity (lease_spec lease) = Some (wl_holder self)))
            then Ret false
            else Now (λ now,
              Call (ReplaceLease (with_spec lease (renewed_spec (lease_spec lease)
                                    (holder_identity (lease_spec lease)) now))) (λ a,
                written a (Ret true) (renew_attempts self n)))
        | a => failure a
        end)
  end.

Definition renew (self : WriterLease) : Prog bool := renew_attempts self WRITE_ATTEMPTS.

(** [release], from its [n] attempts left. *)
Fixpoint release_attempts (self : WriterLease) (n : nat) : Prog unit :=
  match n with
  | O => Throw (WriterLeaseConflict "release lost every write")
  | S n =>
      Call ReadLease (λ a,
        match a with
        | Answered lease =>
            if negb (bool_decide (holder_identity (lease_spec lease) = Some (wl_holder self)))
            then Ret tt
            else Now (λ now,
              Call (ReplaceLease (with_spec lease (renewed_spec (lease_spec lease) None now))) (λ a,
                written a (Ret tt) (release_attempts self n)))
        | a => failure a
        end)
  end.

Definition release (self : WriterLease) : Prog unit :=
  match wl_epoch self with
  | None => Ret tt
  | Some _ => release_attempts self WRITE_ATTEMPTS
  end.

(** [_keep_writer_lease] on the outcome of one renewal: [monotonic] is the clock
    after it, [renewed_at] that of the last renewal that held. *)
Inductive Keeping :=
| Keep (renewed_at : float)
| Supersede
| StopUnproven.

Definition keep_writer_lease (renewed_at monotonic : float) (held : result bool) : Keeping :=
  match held with
  | Raise _ => if flt (fsub monotonic renewed_at) RENEW_DEADLINE_S then Keep renewed_at else StopUnproven
  | Ok false => Supersede
  | Ok true => Keep monotonic
  end.

(** ** What a method does to the Lease while others act *)

(** The transition count of the Lease: the highest epoch it gave out. *)
Definition lease_count (o : LeaseState) : Z :=
  match ls_lease o with Some l => transitions_of (lease_spec l) | None => 0 end.

Definition lease_holder (o : LeaseState) : option string :=
  l ← ls_lease o; holder_identity (lease_spec l).

(** The stored object has a uid and a version that were given out. *)
Definition lease_ok (o : LeaseState) : Prop :=
  ∀ l, ls_lease o = Some l → lease_uid l ∈ ls_uids o ∧ resource_version l ≤ ls_latest o.

(** The same object later: its count and its version do not fall, and a version names
    one state of it. *)
Definition same_object (l l' : Lease) : Prop :=
  lease_uid l' = lease_uid l ∧ resource_version l ≤ resource_version l' ∧
  (resource_version l' = resource_version l → l' = l) ∧
  transitions_of (lease_spec l) ≤ transitions_of (lease_spec l').

(** The Lease only moves on: a later object is the same one, or a new one with a uid
    and versions that were not given before. *)
Definition evolves (o o' : LeaseState) : Prop :=
  ls_uids o ⊆ ls_uids o' ∧ ls_latest o ≤ ls_latest o' ∧
  ∀ l', ls_lease o' = Some l' →
    (∃ l, ls_lease o = Some l ∧ same_object l l') ∨
    ((lease_uid l' ∉ ls_uids o) ∧ ls_latest o < resource_version l').

#[global] Instance evolves_preorder : PreOrder evolves.
Proof.
  split.
  - intros o. split_and!; [done..|]. intros l ->. left. by exists l.
  - intros o1 o2 o3 (Hu1 & Hl1 & H1) (Hu2 & Hl2 & H2). split_and!; [set_solver|lia|].
    intros l3 [(l2 & E2 & U2 & V2 & S2 & C2)|[Hn Hv]]%H2; [|right; split; [set_solver|lia]].
    destruct (H1 l2 E2) as [(l1 & E1 & U1 & V1 & S1 & C1)|[Hn Hv]];
      [left|right; split; [by rewrite U2|lia]].
    exists l1. split; [done|]. split_and!; [congruence|lia| |lia].
    intros Hv. assert (l3 = l2) as -> by (apply S2; lia). apply S1. lia.
Qed.

Lemma deleted_evolves o : evolves o (lease_deleted o).
Proof. by split_and!. Qed.

Lemma deleted_ok o : lease_ok (lease_deleted o).
Proof. by intros l. Qed.

(** An object that was known stays the one it is. *)
Lemma evolves_known o o' l' :
  evolves o o' → ls_lease o' = Some l' → lease_uid l' ∈ ls_uids o →
  ∃ l, ls_lease o = Some l ∧ same_object l l'.
Proof. intros (_ & _ & H) [?|[? _]]%H; done. Qed.

(** One call of the Scheduler that holds as [h], in an acquire: the Lease is as it
    was, or [h] took it at the next count. *)
Definition take_step (h : string) (o o' : LeaseState) : Prop :=
  o' = o ∨ (lease_holder o' = Some h ∧ lease_count o' = lease_count o + 1 ∧ evolves o o').

(** In a renewal or a release: the Lease is as it was, or [h] held it and renewed
    or gave it up. *)
Definition keep_step (h : string) (o o' : LeaseState) : Prop :=
  o' = o ∨ (lease_holder o = Some h ∧ (lease_holder o' = Some h ∨ lease_holder o' = None) ∧
            lease_count o' = lease_count o ∧
            lease_uid <$> ls_lease o' = lease_uid <$> ls_lease o ∧ evolves o o').

#[global] Instance take_step_refl h : Reflexive (take_step h).
Proof. by left. Qed.
#[global] Instance keep_step_refl h : Reflexive (keep_step h).
Proof. by left. Qed.

Lemma take_step_evolves h o o' : take_step h o o' → evolves o o'.
Proof. by intros [->|(_ & _ & ?)]. Qed.
Lemma keep_step_evolves h o o' : keep_step h o o' → evolves o o'.
Proof. by intros [->|(_ & _ & _ & _ & ?)]. Qed.

Section Safe.
Context `{!LeaseServer}.

(** A call of the API server leaves the Lease in order. *)
Lemma perform_ok s c a s' : lease_ok (known s) → perform s c a s' → lease_ok (known s').
Proof.
  intros Hok. destruct c as [|spec|l].
  - by intros (-> & _)%perform_read.
  - intros [[-> _]|(_ & _ & uid & rv & _ & _ & ->)]%perform_create; [done|].
    intros l [= <-]. cbn. split; [set_solver|lia].
  - intros [[-> _]|(_ & cur & rv & Ec & _ & _ & ->)]%perform_replace; [done|].
    intros l' [= <-]. cbn. split; [by apply Hok|lia].
Qed.

(** [safe G Q o0 o p]: the Lease was [o0] before the last call of [p] and [o]
    after it; [Q] relates those two to the value of the program. *)
Fixpoint safe {A} (G : LeaseState → LeaseState → Prop) (Q : LeaseState → LeaseState → A → Prop)
    (o0 o : LeaseState) (p : Prog A) : Prop :=
  match p with
  | Ret x => Q o0 o x
  | Throw _ => True
  | Now k => ∀ t o', evolves o o' → safe G Q o' o' (k t)
  | Call c k => ∀ s1 a s2, lease_ok (known s1) → evolves o (known s1) → perform s1 c a s2 →
      G (known s1) (known s2) ∧ safe G Q (known s1) (known s2) (k a)
  end.

Definition settled {A} (p : Prog A) : bool :=
  match p with Ret _ | Throw _ => true | _ => false end.

Lemma safe_stable {A} G Q o0 o0' o o' (p : Prog A) :
  settled p = false → evolves o o' → safe G Q o0 o p → safe G Q o0' o' p.
Proof.
  intros Hp Hev Hs. destruct p as [x|e|k|c k]; [done..| |]; cbn in *.
  - intros t o1 H1. apply Hs. by etrans.
  - intros s1 a s2 Hok H1. apply Hs; [done|]. by etrans.
Qed.

(** A read: the Lease does not move, and what it answered is stored. *)
Lemma safe_read {A} G `{!Reflexive G} Q o0 o (k : ApiAnswer → Prog A) :
  (∀ o l, lease_ok o → ls_lease o = Some l → safe G Q o o (k (Answered l))) →
  (∀ status o', (status = 404 → ls_lease o' = None) → safe G Q o' o' (k (Refused status))) →
  (∀ o', safe G Q o' o' (k Broken)) →
  safe G Q o0 o (Call ReadLease k).
Proof.
  intros Hl Hr Hb s1 a s2 Hok _ (E & Ha & H4)%perform_read. rewrite E. split; [done|].
  destruct a as [l|st|].
  - by apply Hl, Ha.
  - apply Hr. intros ->. by apply H4.
  - apply Hb.
Qed.

(** The continuation of a write whose outcome is not reported as done. *)
Lemma safe_written_not {A} G Q o0 o (a : ApiAnswer) (wrote lost : Prog A) :
  (∀ l, a ≠ Answered l) → (a = Refused 409 → safe G Q o0 o lost) → safe G Q o0 o (written a wrote lost).
Proof.
  intros Ha Hl. destruct a as [l|st|]; [by destruct (Ha l)| |done]. cbn.
  destruct (Z.eqb_spec st 409) as [->|]; [by apply Hl|done].
Qed.

Lemma safe_written {A} G Q o0 o (a : ApiAnswer) (wrote lost : Prog A) :
  a ≠ Refused 409 → safe G Q o0 o wrote → safe G Q o0 o (written a wrote lost).
Proof.
  intros Ha Hw. destruct a as [l|st|]; [done| |done]. cbn.
  destruct (Z.eqb_spec st 409) as [->|]; [by destruct Ha|done].
Qed.

(** A replace over a Lease that was read: done, it swapped the very Lease that was
    read, also where the Lease was deleted and created again in between. *)
Lemma safe_replace {A} G `{!Reflexive G} Q o0 o1 l spec (wrote lost : Prog A) :
  lease_ok o1 → ls_lease o1 = Some l →
  (∀ o l', lease_ok o → ls_lease o = Some l → lease_spec l' = spec → lease_uid l' = lease_uid l →
     ls_latest o < resource_version l' →
     G o (lease_replaced o l') ∧ safe G Q o (lease_replaced o l') wrote) →
  (∀ o', safe G Q o' o' lost) →
  ∀ o, evolves o1 o →
  safe G Q o0 o (Call (ReplaceLease (with_spec l spec)) (λ a, written a wrote lost)).
Proof.
  intros Hok1 E1 Hw Hl o Ho s1 a s2 Hok He [[E Ha]|(Ha & cur & rv & Ec & Ev & Hrv & E)]%perform_replace.
  - rewrite E. split; [done|]. apply safe_written_not; [done|]. intros _. apply Hl.
  - assert (cur = l) as ->.
    { cbn in Ev. destruct (Hok1 l E1) as [_ Hlatest]. destruct (transitivity Ho He) as (_ & _ & Hcur).
      destruct (Hcur cur Ec) as [(l1 & E2 & _ & _ & Hs & _)|[_ Hnew]]; [|lia].
      rewrite E1 in E2. injection E2 as <-. by apply Hs. }
    cbn in E. rewrite E.
    destruct (Hw (known s1) {| lease_uid := lease_uid l; resource_version := rv; lease_spec := spec |}
                 Hok Ec eq_refl eq_refl Hrv) as [H1 H2].
    split; [exact H1|]. by apply safe_written.
Qed.
End Safe.

(** The value of an acquire: an epoch it returns is the count its own write gave
    the Lease, above the count before. *)
Definition acquired (self : WriterLease) (o0 o : LeaseState) (x : WriterLease * option Z) : Prop :=
  match x.2 with
  | None => x.1 = self
  | Some e => x.1 = with_epoch self e ∧ lease_count o0 < e ∧ lease_count o = e ∧
      lease_holder o = Some (wl_holder self)
  end.

Lemma number_or_0 n : number_or (Some n) 0 = n.
Proof. cbn. by destruct (Z.eqb_spec n 0). Qed.

Lemma evolves_created o l :
  lease_uid l ∉ ls_uids o → ls_latest o < resource_version l → evolves o (lease_created o l).
Proof.
  intros Hu Hv. split_and!; [set_solver|cbn; lia|]. intros l' [= <-]. by right.
Qed.

Lemma evolves_replaced o l l' :
  lease_ok o → ls_lease o = Some l → lease_uid l' = lease_uid l → ls_latest o < resource_version l' →
  lease_count o ≤ lease_count (lease_replaced o l') → evolves o (lease_replaced o l').
Proof.
  intros Hok E Hu Hv Hc. destruct (Hok l E) as [_ Hl]. unfold lease_count in Hc. rewrite E in Hc.
  split_and!; [done|cbn; lia|]. intros ? [= <-]. left. exists l. split; [done|].
  split_and!; [done|lia|lia|done].
Qed.

Section Methods.
Context `{!LeaseServer} (self : WriterLease).
Local Abbreviation h := (wl_holder self).

Lemma safe_create o0 o : safe (take_step h) (acquired self) o0 o (create self).
Proof.
  intros t o' _ s1 a s2 _ _ [[E Ha]|(E0 & Ha & uid & rv & Hu & Hv & E)]%perform_create.
  - rewrite E. split; [by left|]. by apply safe_written_not.
  - rewrite E. assert (lease_count (known s1) = 0) as E1 by (unfold lease_count; by rewrite E0). split.
    + right. split_and!; [done|by rewrite E1|]. by apply evolves_created.
    + apply safe_written; [done|]. split_and!; [done|by rewrite E1|done..].
Qed.

Lemma safe_take_over o0 o1 l o :
  lease_ok o1 → ls_lease o1 = Some l → evolves o1 o →
  safe (take_step h) (acquired self) o0 o (take_over self l).
Proof.
  intros Hok1 E1 Ho t o' Ho'. apply (safe_replace (take_step h) _ _ o1); [done..| |done|by etrans].
  intros o2 l' Hok2 E2 Hs Hu Hv.
  assert (lease_count (lease_replaced o2 l') = lease_count o2 + 1) as Hc
    by (unfold lease_count; rewrite E2; cbn; rewrite Hs; apply number_or_0).
  assert (lease_holder (lease_replaced o2 l') = Some h) as Hh by (cbn; by rewrite Hs).
  assert (lease_count o2 = transitions_of (lease_spec l)) as Hl by (unfold lease_count; by rewrite E2).
  split.
  - right. split_and!; [done..|]. apply (evolves_replaced o2 l); [done..|lia].
  - cbn -[lease_count lease_holder]. split_and!; [done|lia|lia|exact Hh].
Qed.

Lemma safe_try_acquire o0 o : safe (take_step h) (acquired self) o0 o (try_acquire self).
Proof.
  apply (safe_read (take_step h));
    [|intros st o' H4; cbn -[create]; destruct (Z.eqb_spec st 404) as [->|]; [apply safe_create|done]|done].
  intros o1 l Hok E. unfold holder_keeps. case_match; [|by apply (safe_take_over _ o1)].
  unfold expired. destruct (renew_time (lease_spec l)) as [renewed|]; [|by apply (safe_take_over _ o1)].
  destruct (lease_end (lease_spec l) renewed) as [ends|]; [|done].
  intros t o' Ho'. destruct (ends <? t); cbn -[take_over]; [by apply (safe_take_over _ o1)|done].
Qed.

(** What a holder writes without taking the Lease: a renewal or a release. *)
Lemma keep_step_written o l l' holder now :
  lease_ok o → ls_lease o = Some l →
  holder_identity (lease_spec l) = Some h → holder = Some h ∨ holder = None →
  lease_spec l' = renewed_spec (lease_spec l) holder now →
  lease_uid l' = lease_uid l → ls_latest o < resource_version l' →
  keep_step h o (lease_replaced o l').
Proof.
  intros Hok E Hl Hh Hs Hu Hv.
  assert (lease_count (lease_replaced o l') = lease_count o) as Hc
    by (unfold lease_count; rewrite E; cbn; by rewrite Hs).
  right. split_and!.
  - unfold lease_holder. by rewrite E.
  - cbn. by rewrite Hs.
  - exact Hc.
  - rewrite E. cbn. by rewrite Hu.
  - apply (evolves_replaced o l); [done..|lia].
Qed.

Lemma safe_renew_attempts n o0 o : safe (keep_step h) (λ _ _ _, True) o0 o (renew_attempts self n).
Proof.
  revert o0 o. induction n as [|n IH]; intros o0 o; [done|].
  apply (safe_read (keep_step h)); [|done..]. intros o1 l Hok E1. case_bool_decide as E; cbn [negb]; [|done].
  intros now o' Ho'. apply (safe_replace (keep_step h) _ _ o1); [done..| |done|done].
  intros o2 l' Hok2 E2 Hs Hu Hv. split; [|done]. eapply keep_step_written; try done. by left.
Qed.

Lemma safe_release_attempts n o0 o : safe (keep_step h) (λ _ _ _, True) o0 o (release_attempts self n).
Proof.
  revert o0 o. induction n as [|n IH]; intros o0 o; [done|].
  apply (safe_read (keep_step h)); [|done..]. intros o1 l Hok E1. case_bool_decide as E; cbn [negb]; [|done].
  intros now o' Ho'. apply (safe_replace (keep_step h) _ _ o1); [done..| |done|done].
  intros o2 l' Hok2 E2 Hs Hu Hv. split; [|done]. eapply keep_step_written; try done. by right.
Qed.

Lemma safe_renew o0 o : safe (keep_step h) (λ _ _ _, True) o0 o (renew self).
Proof. apply safe_renew_attempts. Qed.

Lemma safe_release o0 o : safe (keep_step h) (λ _ _ _, True) o0 o (release self).
Proof. unfold release. destruct (wl_epoch self); [apply safe_release_attempts|done]. Qed.
End Methods.
