(* ===== verification/CommandContract.v ===== *)
(** * The Node Agent's command contract ([services/node_agent/command_contract.py])

    The fence between request bytes and kernel mutation: the envelope names the
    session, the wiring generation and a writer epoch that is not stale, and every
    entry carries the fields its operation needs.

    The validators read decoded protobuf messages, whose enumerations may hold any
    number and whose sub-messages may be absent; [WireEntry] has every field the
    validators read of the four entry messages, absent fields at their protobuf
    default.  [wire_request] is the decoded form of a request of the Scheduler. *)

From S2P Require Import Prelude.
From S2P Require Import PyFloat.
From S2P Require Import PyData.
From S2P Require Import PyTime.
From S2P Require Import EventDiff.
From S2P Require Import DesiredState.
From S2P Require Import Actuation.
From S2P Require Import DispatchPlanner.
From S2P Require Import Placement.
From S2P Require Import Substrate.
From S2P Require Import NodeAgentBatches.
From S2P Require Import DispatchActuator.
From stdpp Require Import base list strings gmap.
Local Open Scope Z_scope.

(** ** Codes *)

Definition CommandContractError (code what : string) : exn :=
  Raised ("CommandContractError " +:+ code) what.
Definition INVALID_ENVELOPE : string := "NODE_AGENT_INVALID_ENVELOPE".
Definition STALE_SESSION : string := "NODE_AGENT_STALE_SESSION".
Definition STALE_GENERATION : string := "NODE_AGENT_STALE_GENERATION".
Definition STALE_WRITER : string := "NODE_AGENT_STALE_WRITER".
Definition INVALID_FIELD : string := "NODE_AGENT_INVALID_FIELD".

Definition LINK_TYPE_UNSPECIFIED : Z := 0.
Definition LINK_TYPE_ISL : Z := 1.
Definition LINK_TYPE_GROUND : Z := 2.
Definition UNSPECIFIED : Z := 0.
Definition LOCAL : Z := 1.
Definition CROSS_NODE : Z := 2.

(** ** The writer epoch floor *)

(** [LeaseEpoch] of [writer_lease_view.py]: one observation of the writer Lease. *)
Record LeaseEpoch := { le_uid : string; le_transitions : Z }.

(** [WriterEpochFloor]. *)
Record WriterEpochFloor := { fl_lease_uid : option string; fl_accepted : Z }.

Definition no_floor : WriterEpochFloor := {| fl_lease_uid := None; fl_accepted := 0 |}.

(** The floor after the Lease was looked at: a new object starts again. *)
Definition rebase (floor : WriterEpochFloor) (lease : option LeaseEpoch) : WriterEpochFloor :=
  let uid := le_uid <$> lease in
  if bool_decide (uid = fl_lease_uid floor) then floor
  else {| fl_lease_uid := uid; fl_accepted := 0 |}.

Definition lowest (floor : WriterEpochFloor) (lease : option LeaseEpoch) : Z :=
  fl_accepted floor `max` match lease with Some l => le_transitions l | None => 0 end.

(** [WriterEpochFloor.admit], with the floor it leaves, also when it refuses. *)
Definition admit_writer (lease_epoch : result (option LeaseEpoch)) (floor : WriterEpochFloor)
    (writer_epoch : Z) : WriterEpochFloor * result unit :=
  match lease_epoch with
  | Raise e => (floor, Raise e)
  | Ok lease =>
      let floor := rebase floor lease in
      if writer_epoch <? lowest floor lease
      then (floor, Raise (CommandContractError STALE_WRITER "stale writer epoch"))
      else ({| fl_lease_uid := fl_lease_uid floor;
               fl_accepted := fl_accepted floor `max` writer_epoch |}, Ok tt)
  end.

(** ** Messages *)

Record WireEntry := {
  we_node_id : string;
  we_interface_name : string;
  we_link_type : Z;
  we_gs_id : string;
  we_sat_id : string;
  we_peer_node_id : string;
  we_peer_interface_name : string;
  we_locality : Z;
  we_vni : Z;
  we_remote_node_ip : string;
  we_latency_ms : float;
  we_peer_latency_ms : float;
  we_rates : option InterfaceRates;
  we_peer_rates : option InterfaceRates;
  we_contact_id : string;
  we_receive_latency_ms : float;
  we_stage : Z;
  we_expected_admin_up : bool;
  we_survey : bool;
}.

Record WireRequest := {
  wr_envelope : option CommandEnvelope;
  wr_gs_id : string;
  wr_entries : list WireEntry;
}.

(** [RuntimeFence], without the floor, which [validate_envelope] threads. *)
Record RuntimeFence := { rf_session_id : string; rf_wiring_generation : string }.

(** [validate_envelope]: the envelope it accepts passes the floor last. *)
Definition check_envelope (fence : RuntimeFence) (expected_kind : string)
    (envelope : option CommandEnvelope) : result CommandEnvelope :=
  raise_if bool_decide (rf_session_id fence = "")
    with CommandContractError INVALID_ENVELOPE "no current session_id" ;;
  raise_if bool_decide (rf_wiring_generation fence = "")
    with CommandContractError INVALID_ENVELOPE "no current wiring_generation" ;;
  let! env := or_raise envelope (CommandContractError INVALID_ENVELOPE "missing command envelope") in
  raise_if bool_decide (env_operation_id env = "") || bool_decide (env_session_id env = "") ||
      bool_decide (env_wiring_generation env = "") || bool_decide (env_operation_kind env = "") ||
      (env_writer_epoch env =? 0)
    with CommandContractError INVALID_ENVELOPE "missing required field(s)" ;;
  raise_if negb (bool_decide (env_operation_kind env = expected_kind))
    with CommandContractError INVALID_ENVELOPE "envelope kind does not match" ;;
  raise_if negb (bool_decide (env_session_id env = rf_session_id fence))
    with CommandContractError STALE_SESSION "stale session_id" ;;
  raise_if negb (bool_decide (env_wiring_generation env = rf_wiring_generation fence))
    with CommandContractError STALE_GENERATION "stale wiring_generation" ;;
  Ok env.

Definition validate_envelope (fence : RuntimeFence) (lease_epoch : result (option LeaseEpoch))
    (expected_kind : string) (request : WireRequest) (floor : WriterEpochFloor) :
    WriterEpochFloor * result unit :=
  match check_envelope fence expected_kind (wr_envelope request) with
  | Raise e => (floor, Raise e)
  | Ok env => admit_writer lease_epoch floor (env_writer_epoch env)
  end.

(** ** Entries *)

Definition invalid (what : string) : exn := CommandContractError INVALID_FIELD what.

(** A check that passes or raises. *)
Definition refuse_if (b : bool) (what : string) : result unit :=
  if b then Raise (invalid what) else Ok tt.
Notation "c ';!' k" := (rbind c (λ _, k)) (at level 60, right associativity) : py_scope.

(** [_require_nonempty]. *)
Definition require_nonempty (value field : string) : result unit :=
  refuse_if (bool_decide (value = "")) field.

Definition is_ground (e : WireEntry) : bool := we_link_type e =? LINK_TYPE_GROUND.

(** [_validate_link_type] and [_validate_locality]. *)
Definition validate_link_type (value : Z) : result unit :=
  refuse_if (value =? LINK_TYPE_UNSPECIFIED) "link_type must not be LINK_TYPE_UNSPECIFIED".
Definition validate_locality (value : Z) : result unit :=
  refuse_if (value =? UNSPECIFIED) "locality must not be LOCALITY_UNSPECIFIED".

Definition require_peer (e : WireEntry) : result unit :=
  require_nonempty (we_peer_node_id e) "peer_node_id" ;!
  require_nonempty (we_peer_interface_name e) "peer_interface_name".

(** [_validate_common_interface]. *)
Definition validate_common_interface (e : WireEntry) : result unit :=
  require_nonempty (we_node_id e) "node_id" ;!
  require_nonempty (we_interface_name e) "interface_name" ;!
  validate_link_type (we_link_type e) ;!
  validate_locality (we_locality e) ;!
  (if is_ground e
   then require_nonempty (we_gs_id e) "gs_id" ;! require_nonempty (we_sat_id e) "sat_id" ;! require_peer e
   else require_peer e) ;!
  if we_locality e =? CROSS_NODE
  then require_nonempty (we_remote_node_ip e) "remote_node_ip" ;!
       refuse_if (we_vni e <=? 0) "CROSS_NODE entry requires vni > 0"
  else Ok tt.

(** [math.isfinite(rate) and rate > 0]. *)
Definition positive_rate (rate : float) : bool :=
  negb (is_nan rate) && negb (is_inf rate) && flt f_0 rate.

(** [_validate_rates_field]. *)
Definition validate_rates_field (rates : option InterfaceRates) : result unit :=
  let! r := or_raise rates (invalid "entry requires rates") in
  refuse_if (negb (positive_rate (transmit_mbps r)) || negb (positive_rate (receive_mbps r)))
    "transmit_mbps and receive_mbps must be finite and > 0".

(** [_wires_both_ground_ends]. *)
Definition wires_both_ground_ends (e : WireEntry) : bool :=
  is_ground e && (we_locality e =? LOCAL) && bool_decide (we_contact_id e = "").

(** [_validate_peer_rates]. *)
Definition validate_peer_rates (e : WireEntry) (wires_both_ends : bool) : result unit :=
  if wires_both_ends || negb (bool_decide (we_contact_id e = ""))
  then validate_rates_field (we_peer_rates e)
  else refuse_if (match we_peer_rates e with Some _ => true | None => false end)
         "peer_rates apply only to LOCAL ground entries and long-delay ends".

(** [_validate_terminal_rates]. *)
Definition validate_terminal_rates (e : WireEntry) : result unit :=
  validate_rates_field (we_rates e) ;! validate_peer_rates e (wires_both_ground_ends e).

(** [_validate_peer_latency]. *)
Definition validate_peer_latency (e : WireEntry) : result unit :=
  refuse_if (wires_both_ground_ends e && flt (we_peer_latency_ms e) f_0) "peer_latency_ms must be >= 0" ;!
  refuse_if (negb (wires_both_ground_ends e) && negb (feq (we_peer_latency_ms e) f_0))
    "peer_latency_ms applies only to LOCAL ground entries".

Definition one_of (stage a b : Z) : bool := (stage =? a) || (stage =? b).

(** One entry of [validate_batch_link_up_request]. *)
Definition validate_up_entry (e : WireEntry) : result unit :=
  validate_common_interface e ;!
  refuse_if (flt (we_latency_ms e) f_0) "latency_ms must be >= 0" ;!
  validate_peer_latency e ;!
  validate_terminal_rates e ;!
  refuse_if (negb (one_of (we_stage e) LINK_UP_STAGE_PREPARE LINK_UP_STAGE_OPEN))
    "BatchLinkUp entry states no stage".

(** One entry of [validate_batch_link_down_request]. *)
Definition validate_down_entry (e : WireEntry) : result unit :=
  validate_common_interface e ;!
  refuse_if (negb (one_of (we_stage e) LINK_DOWN_STAGE_STOP_ADMISSION LINK_DOWN_STAGE_CLOSE))
    "BatchLinkDown entry states no stage".

(** One entry of [validate_set_latency_request]. *)
Definition validate_latency_entry (e : WireEntry) : result unit :=
  require_nonempty (we_node_id e) "node_id" ;!
  require_nonempty (we_interface_name e) "interface_name" ;!
  validate_link_type (we_link_type e) ;!
  refuse_if (flt (we_latency_ms e) f_0) "latency_ms must be >= 0" ;!
  validate_rates_field (we_rates e) ;!
  validate_peer_rates e false ;!
  if is_ground e
  then require_nonempty (we_gs_id e) "gs_id" ;! require_nonempty (we_sat_id e) "sat_id"
  else Ok tt.

(** One entry of [_validate_long_delay_inventory]. *)
Definition validate_long_delay_entry (e : WireEntry) : result unit :=
  require_nonempty (we_node_id e) "node_id" ;!
  require_nonempty (we_interface_name e) "interface_name" ;!
  validate_locality (we_locality e) ;!
  (if is_ground e && we_survey e
   then refuse_if (negb (bool_decide (we_node_id e = we_gs_id e) || bool_decide (we_node_id e = we_sat_id e)))
          "a ground survey entry names its node as its station or its satellite"
   else if is_ground e
   then require_nonempty (we_gs_id e) "gs_id" ;! require_nonempty (we_sat_id e) "sat_id" ;! require_peer e
   else Ok tt) ;!
  refuse_if ((we_locality e =? CROSS_NODE) && (we_vni e <=? 0))
    "KernelInventory CROSS_NODE entry requires vni > 0" ;!
  if we_survey e then Ok tt else
  require_nonempty (we_contact_id e) "contact_id" ;!
  if we_expected_admin_up e
  then refuse_if (negb (flt f_0 (we_receive_latency_ms e)))
         "an expected-up long-delay end needs receive_latency_ms > 0" ;!
       validate_terminal_rates e
  else Ok tt.

(** One entry of [validate_kernel_inventory_request] for a station. *)
Definition validate_station_entry (gs_id : string) (e : WireEntry) : result unit :=
  require_nonempty (we_node_id e) "node_id" ;!
  require_nonempty (we_interface_name e) "interface_name" ;!
  validate_link_type (we_link_type e) ;!
  validate_locality (we_locality e) ;!
  refuse_if (negb (is_ground e)) "KernelInventory supports ground entries only" ;!
  require_nonempty (we_gs_id e) "gs_id" ;!
  require_nonempty (we_sat_id e) "sat_id" ;!
  require_peer e ;!
  refuse_if (negb (bool_decide (we_gs_id e = gs_id))) "entry gs_id does not match request gs_id" ;!
  (if we_expected_admin_up e
   then refuse_if (flt (we_latency_ms e) f_0) "latency_ms must be >= 0 for expected-up verification" ;!
        validate_terminal_rates e
   else Ok tt) ;!
  validate_peer_latency e ;!
  if we_locality e =? CROSS_NODE
  then refuse_if (we_vni e <=? 0) "KernelInventory CROSS_NODE entry requires vni > 0" ;!
       require_nonempty (we_remote_node_ip e) "remote_node_ip"
  else Ok tt.

Fixpoint each (check : WireEntry → result unit) (entries : list WireEntry) : result unit :=
  match entries with
  | [] => Ok tt
  | e :: entries => check e ;! each check entries
  end.

(** [_validate_long_delay_inventory] and the dispatch on the station. *)
Definition validate_inventory_entries (gs_id : string) (entries : list WireEntry) : result unit :=
  if bool_decide (gs_id = "") then each validate_long_delay_entry entries
  else each (validate_station_entry gs_id) entries.

(** ** The requests of the Scheduler, decoded *)

Definition wire_type (t : LinkType) : Z :=
  match t with isl_link => LINK_TYPE_ISL | ground_link => LINK_TYPE_GROUND end.
Definition wire_locality (l : Locality) : Z :=
  match l with LOCALITY_LOCAL => LOCAL | LOCALITY_CROSS_NODE => CROSS_NODE end.

Definition wire_up (u : InterfaceUp) : WireEntry :=
  {| we_node_id := (up_iface u).1; we_interface_name := (up_iface u).2;
     we_link_type := wire_type (up_link_type u); we_gs_id := up_gs_id u; we_sat_id := up_sat_id u;
     we_peer_node_id := (up_peer u).1; we_peer_interface_name := (up_peer u).2;
     we_locality := wire_locality (up_locality u); we_vni := up_vni u;
     we_remote_node_ip := up_remote_node_ip u; we_latency_ms := up_latency_ms u;
     we_peer_latency_ms := up_peer_latency_ms u; we_rates := up_rates u;
     we_peer_rates := up_peer_rates u; we_contact_id := up_contact_id u;
     we_receive_latency_ms := up_receive_latency_ms u; we_stage := up_stage u;
     we_expected_admin_up := false; we_survey := false |}.

Definition wire_down (d : InterfaceDown) : WireEntry :=
  {| we_node_id := (dn_iface d).1; we_interface_name := (dn_iface d).2;
     we_link_type := wire_type (dn_link_type d); we_gs_id := dn_gs_id d; we_sat_id := dn_sat_id d;
     we_peer_node_id := (dn_peer d).1; we_peer_interface_name := (dn_peer d).2;
     we_locality := wire_locality (dn_locality d); we_vni := dn_vni d;
     we_remote_node_ip := dn_remote_node_ip d; we_latency_ms := f_0; we_peer_latency_ms := f_0;
     we_rates := None; we_peer_rates := None; we_contact_id := dn_contact_id d;
     we_receive_latency_ms := f_0; we_stage := dn_stage d; we_expected_admin_up := false;
     we_survey := false |}.

Definition wire_latency (e : LatencyEntry) : WireEntry :=
  {| we_node_id := (le_iface e).1; we_interface_name := (le_iface e).2;
     we_link_type := wire_type (le_link_type e); we_gs_id := le_gs_id e; we_sat_id := le_sat_id e;
     we_peer_node_id := ""; we_peer_interface_name := ""; we_locality := UNSPECIFIED; we_vni := 0;
     we_remote_node_ip := ""; we_latency_ms := le_latency_ms e; we_peer_latency_ms := f_0;
     we_rates := Some (le_rates e); we_peer_rates := le_peer_rates e;
     we_contact_id := le_contact_id e; we_receive_latency_ms := le_receive_latency_ms e;
     we_stage := 0; we_expected_admin_up := false; we_survey := false |}.

Definition wire_inventory (e : KernelInventoryEntry) : WireEntry :=
  {| we_node_id := (ki_iface e).1; we_interface_name := (ki_iface e).2;
     we_link_type := wire_type (ki_link_type e); we_gs_id := ki_gs_id e; we_sat_id := ki_sat_id e;
     we_peer_node_id := (ki_peer e).1; we_peer_interface_name := (ki_peer e).2;
     we_locality := wire_locality (ki_locality e); we_vni := ki_vni e;
     we_remote_node_ip := ki_remote_node_ip e; we_latency_ms := ki_latency_ms e;
     we_peer_latency_ms := ki_peer_latency_ms e; we_rates := ki_rates e;
     we_peer_rates := ki_peer_rates e; we_contact_id := ki_contact_id e;
     we_receive_latency_ms := ki_receive_latency_ms e; we_stage := 0;
     we_expected_admin_up := ki_expected_admin_up e; we_survey := ki_survey e |}.

Definition wire_request (r : AgentRequest) : string * WireRequest :=
  match r with
  | BatchLinkDownRequest env _ ifaces =>
      ("BatchLinkDown", {| wr_envelope := Some env; wr_gs_id := ""; wr_entries := map wire_down ifaces |})
  | BatchLinkUpRequest env _ ifaces =>
      ("BatchLinkUp", {| wr_envelope := Some env; wr_gs_id := ""; wr_entries := map wire_up ifaces |})
  | SetLatencyRequest env entries =>
      ("SetLatency", {| wr_envelope := Some env; wr_gs_id := ""; wr_entries := map wire_latency entries |})
  | KernelInventoryRequest env _ gs_id entries =>
      ("KernelInventory", {| wr_envelope := Some env; wr_gs_id := gs_id;
                             wr_entries := map wire_inventory entries |})
  end.

(** The entry checks of an operation: [validate_batch_link_up_request],
    [validate_batch_link_down_request], [validate_set_latency_request] and
    [validate_kernel_inventory_request] after the envelope. *)
Definition validate_entries (kind : string) (request : WireRequest) : result unit :=
  if bool_decide (kind = "BatchLinkDown") then each validate_down_entry (wr_entries request)
  else if bool_decide (kind = "BatchLinkUp") then each validate_up_entry (wr_entries request)
  else if bool_decide (kind = "SetLatency") then each validate_latency_entry (wr_entries request)
  else validate_inventory_entries (wr_gs_id request) (wr_entries request).

Definition validate_request (fence : RuntimeFence) (lease_epoch : result (option LeaseEpoch))
    (kind : string) (request : WireRequest) (floor : WriterEpochFloor) :
    WriterEpochFloor * result unit :=
  let '(floor, admitted) := validate_envelope fence lease_epoch kind request floor in
  (floor, admitted ;! validate_entries kind request).

(** [worst_error_code], of the codes that are not OK. *)
Definition NODE_AGENT_OK : Z := 1.
Definition worst_error_code (codes : list Z) : Z :=
  match List.filter (λ c, negb (c =? NODE_AGENT_OK)) codes with
  | [] => NODE_AGENT_OK
  | c :: cs => foldl Z.max c cs
  end.
