(* ===== verification/ContractTheorems.v ===== *)
(** * The Scheduler's commands meet the Node Agent's contract

    The Scheduler builds requests ([NodeAgentBatches], [DispatchActuator]); the Node
    Agent refuses a request whose entries miss a field their operation needs
    ([CommandContract]).  Every entry the Scheduler builds has them: a request is
    refused for its session, its wiring generation or its writer epoch, never for
    its entries. *)

From S2P Require Import Prelude.
From S2P Require Import PyFloat.
From S2P Require Import PyData.
From S2P Require Import PyTime.
From S2P Require Import GroundTypes.
From S2P Require Import EventDiff.
From S2P Require Import DesiredState.
From S2P Require Import Authority.
From S2P Require Import Actuation.
From S2P Require Import DispatchPlanner.
From S2P Require Import ContactDrain.
From S2P Require Import Placement.
From S2P Require Import Substrate.
From S2P Require Import NodeAgentBatches.
From S2P Require Import BatchTheorems.
From S2P Require Import DispatchActuator.
From S2P Require Import ActuatorTheorems.
From S2P Require Import CommandContract.
From stdpp Require Import base list strings gmap pretty.
Local Open Scope Z_scope.

(** ** Checks *)

Lemma require_ok value field : value ≠ "" → require_nonempty value field = Ok tt.
Proof. intros H. unfold require_nonempty, refuse_if. by rewrite bool_decide_eq_false_2. Qed.

Lemma refuse_ok b what : b = false → refuse_if b what = Ok tt.
Proof. by intros ->. Qed.

Lemma then_ok (c k : result unit) : c = Ok tt → k = Ok tt → (c ;! k) = Ok tt.
Proof. by intros -> ->. Qed.

Lemma each_ok check entries : (∀ e, e ∈ entries → check e = Ok tt) → each check entries = Ok tt.
Proof.
  induction entries as [|e entries IH]; intros H; [done|]. cbn. rewrite (H e) by (by left). cbn.
  apply IH. intros x Hx. apply H. by right.
Qed.

(** What [_validate_common_interface] asks for. *)
Record common_ok (e : WireEntry) : Prop := {
  co_node : we_node_id e ≠ "";
  co_iface : we_interface_name e ≠ "";
  co_peer : we_peer_node_id e ≠ "";
  co_peer_iface : we_peer_interface_name e ≠ "";
  co_type : we_link_type e = LINK_TYPE_ISL ∨
            (we_link_type e = LINK_TYPE_GROUND ∧ we_gs_id e ≠ "" ∧ we_sat_id e ≠ "");
  co_locality : we_locality e = LOCAL ∨
                (we_locality e = CROSS_NODE ∧ we_remote_node_ip e ≠ "" ∧ 0 < we_vni e);
}.

Lemma common_valid e : common_ok e → validate_common_interface e = Ok tt.
Proof.
  intros [Hn Hi Hp Hpi Ht Hl]. unfold validate_common_interface, require_peer.
  rewrite (require_ok _ "node_id") by done. rewrite (require_ok _ "interface_name") by done.
  rewrite (require_ok _ "peer_node_id") by done. rewrite (require_ok _ "peer_interface_name") by done.
  assert (validate_link_type (we_link_type e) = Ok tt) as -> by (destruct Ht as [->|[-> _]]; done).
  assert (validate_locality (we_locality e) = Ok tt) as -> by (destruct Hl as [->|[-> _]]; done).
  cbn [rbind]. apply then_ok.
  - unfold is_ground. destruct Ht as [->|(-> & Hg & Hs)]; [done|]. cbn.
    by rewrite (require_ok _ "gs_id"), (require_ok _ "sat_id").
  - destruct Hl as [->|(-> & Hip & Hv)]; [done|]. cbn. rewrite require_ok by done. cbn.
    apply refuse_ok, Z.leb_gt, Hv.
Qed.

Definition good_rates (r : InterfaceRates) : Prop :=
  positive_rate (transmit_mbps r) = true ∧ positive_rate (receive_mbps r) = true.

Lemma rates_valid r : good_rates r → validate_rates_field (Some r) = Ok tt.
Proof. intros [Ht Hr]. unfold validate_rates_field. cbn. by rewrite Ht, Hr. Qed.

(** ** Entries *)

(** A link whose ends have names. *)
Record named (p : node_pair) (info : ActiveLinkInfo) : Prop := {
  nm_a : p.1 ≠ "";
  nm_b : p.2 ≠ "";
  nm_ia : interface_a info ≠ "";
  nm_ib : interface_b info ≠ "";
  nm_ends : p.1 ≠ p.2;
}.

Definition nonnegative (netem : float * float) : Prop :=
  flt netem.1 f_0 = false ∧ flt netem.2 f_0 = false.

Lemma egress_nonneg p n netem x :
  nonnegative netem → egress_ms p n netem = Ok x → flt x f_0 = false.
Proof. intros [Ha Hb]. unfold egress_ms. repeat case_bool_decide; intros [= <-]; done. Qed.

Section Entries.
Context (loc : PodLocationMap) (gs_capacities : gmap string Z) (rates : gmap Iface InterfaceRates)
        (Hips : ∀ n ip, host_ip loc n = Ok ip → ip ≠ "")
        (Hrates : ∀ i r, rates !! i = Some r → good_rates r).

Lemma rates_good i r : terminal_rates_message rates i = Ok r → good_rates r.
Proof. intros H%terminal_rates_Ok. by apply (Hrates i). Qed.

(** The endpoints of a named link have names, and are two. *)
Record ends_named (e : GroundEndpoints) : Prop := {
  en_gs : ge_gs_id e ≠ "";
  en_sat : ge_sat_id e ≠ "";
  en_gs_iface : ge_gs_iface e ≠ "";
  en_sat_iface : ge_sat_iface e ≠ "";
  en_two : ge_gs_id e ≠ ge_sat_id e;
}.

Lemma endpoints_named p info e :
  named p info → ground_endpoints gs_capacities p info = Some e → ends_named e.
Proof.
  intros [Ha Hb Hia Hib Hne] H.
  destruct (endpoints_cases gs_capacities p info e H) as [->| ->]; split; cbn; done.
Qed.

Lemma iface_at_named e n : ends_named e → iface_at e n ≠ "".
Proof. intros []. unfold iface_at. by case_bool_decide. Qed.
Lemma peer_iface_at_named e n : ends_named e → peer_iface_at e n ≠ "".
Proof. intros []. unfold peer_iface_at. by case_bool_decide. Qed.

(** The locality of an entry, its address and its tunnel. *)
Lemma located_ok l peer ip vni (e : WireEntry) :
  remote_ip loc l peer = Ok ip → (l = LOCALITY_CROSS_NODE → VNI_MIN ≤ vni) →
  we_locality e = wire_locality l → we_remote_node_ip e = ip → we_vni e = vni →
  we_locality e = LOCAL ∨ (we_locality e = CROSS_NODE ∧ we_remote_node_ip e ≠ "" ∧ 0 < we_vni e).
Proof.
  intros Hip Hvni -> -> ->. destruct l; [by left|right]. split; [done|]. split.
  - eapply Hips. by eapply remote_ip_Ok.
  - specialize (Hvni eq_refl). unfold VNI_MIN in Hvni. lia.
Qed.

Lemma isl_vni_min l p info : l = LOCALITY_CROSS_NODE → VNI_MIN ≤ isl_vni l p info.
Proof. intros H. by apply isl_vni_bounds. Qed.
Lemma ground_vni_min l e : l = LOCALITY_CROSS_NODE → VNI_MIN ≤ ground_vni l e.
Proof. intros H. by apply ground_vni_bounds. Qed.

(** An entry of a LinkUp that names one end and no contact. *)
Lemma plain_up_valid stage i peer type latency r gs sat l ip vni :
  common_ok (wire_up (plain_up stage i peer type latency r gs sat l ip vni)) →
  one_of stage LINK_UP_STAGE_PREPARE LINK_UP_STAGE_OPEN = true →
  flt latency f_0 = false → good_rates r →
  (type = ground_link → l = LOCALITY_CROSS_NODE) →
  validate_up_entry (wire_up (plain_up stage i peer type latency r gs sat l ip vni)) = Ok tt.
Proof.
  intros Hc Hs Hl Hr Hty. unfold validate_up_entry. rewrite common_valid by done.
  assert (wires_both_ground_ends (wire_up (plain_up stage i peer type latency r gs sat l ip vni)) = false)
    as Hw by (destruct type; [done|]; by rewrite Hty).
  unfold validate_peer_latency, validate_terminal_rates, validate_peer_rates. rewrite Hw.
  cbn -[validate_rates_field]. rewrite rates_valid by done. cbn. by rewrite Hl, Hs.
Qed.

(** An entry of a LinkUp of one end of a long-delay contact. *)
Lemma contact_up_valid u cid receive peer_rates r :
  common_ok (wire_up u) → one_of (up_stage u) LINK_UP_STAGE_PREPARE LINK_UP_STAGE_OPEN = true →
  flt (up_latency_ms u) f_0 = false → up_rates u = Some r → good_rates r → good_rates peer_rates →
  feq (up_peer_latency_ms u) f_0 = true → cid ≠ "" →
  validate_up_entry (wire_up (with_contact u cid receive peer_rates)) = Ok tt.
Proof.
  intros [Hn Hi Hp Hpi Ht Hlo] Hs Hl Hr Hg Hpr Hpl Hcid. unfold validate_up_entry.
  rewrite common_valid by (by split).
  assert (wires_both_ground_ends (wire_up (with_contact u cid receive peer_rates)) = false) as Hw.
  { unfold wires_both_ground_ends. cbn. rewrite (bool_decide_eq_false_2 (cid = "")) by done. apply andb_false_r. }
  unfold validate_peer_latency, validate_terminal_rates, validate_peer_rates. rewrite Hw.
  cbn -[validate_rates_field]. rewrite Hr, (bool_decide_eq_false_2 (cid = "")) by done.
  rewrite rates_valid by done. cbn -[validate_rates_field]. rewrite rates_valid by done. cbn.
  by rewrite Hl, Hs, Hpl.
Qed.

(** The entry of a LinkUp that wires both ends of a local ground link. *)
Lemma both_up_valid u peer_latency peer_rates r :
  common_ok (wire_up u) → one_of (up_stage u) LINK_UP_STAGE_PREPARE LINK_UP_STAGE_OPEN = true →
  up_link_type u = ground_link → up_locality u = LOCALITY_LOCAL → up_contact_id u = "" →
  flt (up_latency_ms u) f_0 = false → flt peer_latency f_0 = false →
  up_rates u = Some r → good_rates r → good_rates peer_rates →
  validate_up_entry (wire_up (with_peer u peer_latency peer_rates)) = Ok tt.
Proof.
  intros [Hn Hi Hp Hpi Ht Hlo] Hs Hty Hloc Hcid Hl Hpl Hr Hg Hpr. unfold validate_up_entry.
  rewrite common_valid by (by split).
  assert (wires_both_ground_ends (wire_up (with_peer u peer_latency peer_rates)) = true) as Hw
    by (unfold wires_both_ground_ends, is_ground; cbn; by rewrite Hty, Hloc, Hcid).
  unfold validate_peer_latency, validate_terminal_rates, validate_peer_rates. rewrite Hw.
  cbn -[validate_rates_field]. rewrite Hr. rewrite rates_valid by done. cbn -[validate_rates_field].
  rewrite rates_valid by done. cbn. by rewrite Hl, Hs, Hpl.
Qed.

Lemma contact_name_nonempty c : Contact_contact_id c ≠ "".
Proof.
  unfold Contact_contact_id, contact_id. destruct (pretty (ct_epoch_id c)); cbn; discriminate.
Qed.

(** The endpoints of a ground entry. *)
Lemma ground_common gs_iface sat_iface (e : GroundEndpoints) (w : WireEntry) :
  ends_named e → gs_iface ≠ "" → sat_iface ≠ "" →
  we_node_id w = ge_gs_id e ∨ we_node_id w = ge_sat_id e →
  we_peer_node_id w = ge_gs_id e ∨ we_peer_node_id w = ge_sat_id e →
  we_interface_name w = gs_iface → we_peer_interface_name w = sat_iface →
  we_link_type w = LINK_TYPE_GROUND → we_gs_id w = ge_gs_id e → we_sat_id w = ge_sat_id e →
  we_locality w = LOCAL ∨ (we_locality w = CROSS_NODE ∧ we_remote_node_ip w ≠ "" ∧ 0 < we_vni w) →
  common_ok w.
Proof.
  intros [Hg Hs _ _ _] Hgi Hsi Hn Hp E1 E2 Ht Eg Es Hl. split; [..|done].
  - by destruct Hn as [-> | ->].
  - by rewrite E1.
  - by destruct Hp as [-> | ->].
  - by rewrite E2.
  - right. by rewrite Eg, Es.
Qed.

(** The two ends of a fixed link. *)
Lemma isl_end_named p info i peer :
  named p info → (i, peer) ∈ isl_ends p info →
  (i.1 ≠ "" ∧ i.2 ≠ "") ∧ peer.1 ≠ "" ∧ peer.2 ≠ "".
Proof.
  intros [Ha Hb Hia Hib _]. unfold isl_ends. rewrite !elem_of_cons.
  intros [[= -> ->]|[[= -> ->]|[]%elem_of_nil]]; done.
Qed.

Lemma up_messages_valid stage p info l netem msgs a u :
  named p info → nonnegative netem → one_of stage LINK_UP_STAGE_PREPARE LINK_UP_STAGE_OPEN = true →
  link_up_messages loc gs_capacities rates stage p info l netem = Ok msgs → (a, u) ∈ msgs →
  validate_up_entry (wire_up u) = Ok tt.
Proof.
  intros Hn Hnn Hst H Hu. unfold link_up_messages in H. destruct (link_type info).
  - apply (elem_of_mapM_r _ _ _ H) in Hu as ([i peer] & Hi & Hx).
    destruct (isl_end_named _ _ _ _ Hn Hi) as ([Hi1 Hi2] & Hp1 & Hp2).
    rbind Hx as ag Ea. rbind Hx as ip Ip. rbind Hx as la La. rbind Hx as ra Ra.
    assert (common_ok (wire_up (plain_up stage i peer isl_link la ra "" "" l ip (isl_vni l p info)))) as Hc.
    { split; try done; [by left|]. eapply located_ok; [exact Ip|apply isl_vni_min|done..]. }
    apply rates_good in Ra. pose proof (egress_nonneg _ _ _ _ Hnn La) as Hla.
    destruct (contact info) as [c|].
    + rbind Hx as rc Rc. rbind Hx as pr Pr. injection Hx as <- <-. apply rates_good in Pr.
      eapply contact_up_valid; [exact Hc|exact Hst|done..|apply contact_name_nonempty].
    + injection Hx as <- <-. by apply plain_up_valid.
  - rbind H as e He. pose proof (endpoints_named _ _ _ Hn He) as Hen.
    destruct (contact info) as [c|]; [|destruct l].
    + apply (elem_of_mapM_r _ _ _ H) in Hu as ([nid peer] & Hi & Hx).
      rbind Hx as ag Ea. rbind Hx as la La. rbind Hx as ra Ra. rbind Hx as ip Ip. rbind Hx as rc Rc.
      rbind Hx as pr Pr. injection Hx as <- <-. apply rates_good in Ra, Pr.
      eapply contact_up_valid; [|exact Hst|by eapply egress_nonneg|done..|apply contact_name_nonempty].
      eapply ground_common; [exact Hen|by apply iface_at_named|by apply (peer_iface_at_named e nid)|..];
        try done; [set_solver|set_solver|]. eapply located_ok; [exact Ip|apply ground_vni_min|done..].
    + rbind H as ag Ea. rbind H as la La. rbind H as lb Lb. rbind H as ra Ra. rbind H as rb Rb.
      injection H as <-. apply list_elem_of_singleton in Hu as [= -> ->]. apply rates_good in Ra, Rb.
      eapply both_up_valid; try done; try (by eapply egress_nonneg).
      destruct Hen. apply (ground_common (ge_gs_iface e) (ge_sat_iface e) e); try done;
        [by left|by right|by left].
    + apply (elem_of_mapM_r _ _ _ H) in Hu as ([nid peer] & Hi & Hx).
      rbind Hx as ip Ip. rbind Hx as ag Ea. rbind Hx as la La. rbind Hx as ra Ra.
      injection Hx as <- <-. apply rates_good in Ra.
      apply plain_up_valid; [|exact Hst|by eapply egress_nonneg|done..].
      eapply ground_common; [exact Hen|by apply iface_at_named|by apply (peer_iface_at_named e nid)|..];
        try done; [set_solver|set_solver|].
      eapply (located_ok LOCALITY_CROSS_NODE); [exact Ip|apply ground_vni_min|done..].
Qed.

Lemma down_messages_valid stage ends cids p info msgs a d :
  named p info → one_of stage LINK_DOWN_STAGE_STOP_ADMISSION LINK_DOWN_STAGE_CLOSE = true →
  link_down_messages loc gs_capacities stage ends cids p info = Ok msgs → (a, d) ∈ msgs →
  validate_down_entry (wire_down d) = Ok tt.
Proof.
  intros Hn Hst H Hd.
  enough (common_ok (wire_down d) ∧ dn_stage d = stage) as [Hc Es].
  { unfold validate_down_entry. rewrite common_valid by done. cbn. by rewrite Es, Hst. }
  unfold link_down_messages in H. rbind H as l Hl. rbind H as t Ht. destruct (link_type info).
  - apply (elem_of_mapM_r _ _ _ H) in Hd as ([i peer] & Hi & Hx).
    apply in_filter_bool in Hi as [Hi _].
    destruct (isl_end_named _ _ _ _ Hn Hi) as ([Hi1 Hi2] & Hp1 & Hp2).
    rbind Hx as ag Ea. rbind Hx as ip Ip. rbind Hx as cid Ec. injection Hx as <- <-. split; [|done].
    split; try done; [by left|]. eapply located_ok; [exact Ip|apply isl_vni_min|done..].
  - rbind H as e He. pose proof (endpoints_named _ _ _ Hn He) as Hen.
    destruct (contact info) as [c|]; [|destruct l].
    + apply (elem_of_mapM_r _ _ _ H) in Hd as ([nid peer] & Hi & Hx).
      apply in_filter_bool in Hi as [Hi _].
      rbind Hx as ag Ea. rbind Hx as ip Ip. rbind Hx as cid Ec. injection Hx as <- <-. split; [|done].
      eapply ground_common; [exact Hen|by apply iface_at_named|by apply (peer_iface_at_named e nid)|..];
        try done; [set_solver|set_solver|]. eapply located_ok; [exact Ip|apply ground_vni_min|done..].
    + rbind H as ag Ea. injection H as <-. apply list_elem_of_singleton in Hd as [= -> ->].
      split; [|done]. destruct Hen. apply (ground_common (ge_gs_iface e) (ge_sat_iface e) e); try done;
        [by left|by right|by left].
    + rbind H as sa Es. rbind H as ga Eg.
      apply (elem_of_mapM_r _ _ _ H) in Hd as ([nid ag] & Hi & Hx).
      rbind Hx as ip Ip. injection Hx as <- <-. split; [|done].
      eapply ground_common; [exact Hen|by apply iface_at_named|by apply (peer_iface_at_named e nid)|..];
        try done; [set_solver|cbn; case_bool_decide; auto|].
      eapply (located_ok LOCALITY_CROSS_NODE); [exact Ip|apply ground_vni_min|done..].
Qed.

(** An entry of a SetLatency. *)
Lemma latency_entry_valid (e : LatencyEntry) :
  (le_iface e).1 ≠ "" → (le_iface e).2 ≠ "" →
  (le_link_type e = ground_link → le_gs_id e ≠ "" ∧ le_sat_id e ≠ "") →
  flt (le_latency_ms e) f_0 = false → good_rates (le_rates e) →
  (le_contact_id e = "" ∧ le_peer_rates e = None) ∨
    (le_contact_id e ≠ "" ∧ ∃ r, le_peer_rates e = Some r ∧ good_rates r) →
  validate_latency_entry (wire_latency e) = Ok tt.
Proof.
  intros Hn Hi Ht Hl Hr Hc. unfold validate_latency_entry. cbn -[validate_rates_field validate_peer_rates].
  rewrite (require_ok _ "node_id"), (require_ok _ "interface_name") by done.
  rewrite rates_valid, (refuse_ok _ "latency_ms must be >= 0" Hl) by done.
  assert (validate_link_type (wire_type (le_link_type e)) = Ok tt) as -> by (by destruct (le_link_type e)).
  assert (validate_peer_rates (wire_latency e) false = Ok tt) as ->.
  { unfold validate_peer_rates. cbn -[validate_rates_field].
    destruct Hc as [[-> ->]|(Hcid & r & -> & Hgr)]; [done|].
    rewrite bool_decide_eq_false_2 by done. by apply rates_valid. }
  cbn [rbind]. unfold is_ground. cbn. destruct (le_link_type e); [done|]. cbn.
  destruct Ht as [Hg Hs]; [done|]. by rewrite (require_ok _ "gs_id"), (require_ok _ "sat_id").
Qed.

Lemma latency_entries_valid p info netem msgs a x :
  named p info → nonnegative netem →
  latency_entries loc gs_capacities rates p info netem = Ok msgs → (a, x) ∈ msgs →
  validate_latency_entry (wire_latency x) = Ok tt.
Proof.
  intros Hn Hnn H Hx. unfold latency_entries in H. destruct (link_type info).
  - apply (elem_of_mapM_r _ _ _ H) in Hx as ([i peer] & Hi & Hx).
    destruct (isl_end_named _ _ _ _ Hn Hi) as ([Hi1 Hi2] & Hp1 & Hp2). rbind Hx as y Hy. rbind Hx as ag Ea.
    injection Hx as <- <-. rbind Hy as la La. rbind Hy as ra Ra. apply rates_good in Ra.
    pose proof (egress_nonneg _ _ _ _ Hnn La). destruct (contact info) as [c|].
    + rbind Hy as rc Rc. rbind Hy as pr Pr. apply rates_good in Pr. injection Hy as <-.
      apply latency_entry_valid; try done. right. split; [apply contact_name_nonempty|by eexists].
    + injection Hy as <-. apply latency_entry_valid; try done. by left.
  - rbind H as e He. pose proof (endpoints_named _ _ _ Hn He) as [Hg Hs Hgi Hsi _].
    rbind H as l Hl. rbind H as sa Es. rbind H as ga Eg.
    apply (elem_of_mapM_r _ _ _ H) in Hx as ([[nid iface] ag] & Hi & Hx). rbind Hx as y Hy.
    injection Hx as <- <-. rbind Hy as la La. rbind Hy as ra Ra. apply rates_good in Ra.
    pose proof (egress_nonneg _ _ _ _ Hnn La).
    assert (nid ≠ "" ∧ iface ≠ "") as [Hni Hif]
      by (rewrite !elem_of_cons in Hi; destruct Hi as [[= -> -> _]|[[= -> -> _]|[]%elem_of_nil]]; done).
    destruct (contact info) as [c|].
    + rbind Hy as rc Rc. rbind Hy as pr Pr. apply rates_good in Pr. injection Hy as <-.
      apply latency_entry_valid; try done. right. split; [apply contact_name_nonempty|by eexists].
    + injection Hy as <-. apply latency_entry_valid; try done. by left.
Qed.

(** A record whose contact can be proven: its drained ends name a contact, and the
    delays commanded are positive. *)
Record provable (info : ActiveLinkInfo) : Prop := {
  pb_ends d e : drain info = Some d → e ∈ dr_ends d → de_contact_id e ≠ "";
  pb_delays netem : commanded_netem_ms info = Some netem →
    flt f_0 netem.1 = true ∧ flt f_0 netem.2 = true;
}.

Lemma end_name_nonempty info n cid : provable info → end_contact_id info n = Ok cid → cid ≠ "".
Proof.
  intros [Hd _]. unfold end_contact_id. destruct (contact info) as [c|]; [|done].
  destruct (drain info) as [d|] eqn:Ed; cbn; [|intros [= <-]; apply contact_name_nonempty].
  destruct (find_first _ (dr_ends d)) as [e|] eqn:E; intros [= <-]; [|apply contact_name_nonempty].
  apply find_first_Some in E as [E _]. by eapply Hd.
Qed.

Lemma long_delay_entries_valid p info node_ids msgs a x :
  named p info → provable info →
  long_delay_inventory_entries loc gs_capacities rates p info node_ids = Ok msgs → (a, x) ∈ msgs →
  validate_long_delay_entry (wire_inventory x) = Ok tt.
Proof.
  intros Hn Hpb H Hx. unfold long_delay_inventory_entries in H. rguard H as Hc.
  rbind H as netem En. rbind H as l Hl. rbind H as [[gs sat] vni] Hv.
  apply (elem_of_mapM_r _ _ _ H) in Hx as ([i peer] & [Hi _]%in_filter_bool & Hx).
  destruct (isl_end_named _ _ _ _ Hn Hi) as ([Hi1 Hi2] & Hp1 & Hp2).
  rbind Hx as ag Ea. rbind Hx as ip Ip. rbind Hx as cid Ec. rbind Hx as rc Rc. rbind Hx as ra Ra.
  rbind Hx as pr Pr. injection Hx as <- <-. apply rates_good in Ra, Pr.
  pose proof (end_name_nonempty _ _ _ Hpb Ec) as Hcid.
  assert (flt f_0 rc = true) as Hrc.
  { destruct (pb_delays _ Hpb _ En). unfold egress_ms in Rc. repeat case_bool_decide; congruence. }
  assert (l = LOCALITY_CROSS_NODE → 0 < vni) as Hvni.
  { intros Hlo. unfold VNI_MIN in *. destruct (link_type info).
    - injection Hv as <- <- <-. pose proof (isl_vni_bounds l p info Hlo). unfold VNI_MIN in *. lia.
    - rbind Hv as e He. injection Hv as <- <- <-. pose proof (ground_vni_bounds l e Hlo). unfold VNI_MIN in *. lia. }
  assert (link_type info = ground_link → gs ≠ "" ∧ sat ≠ "") as Hgs.
  { intros E. rewrite E in Hv. rbind Hv as e He. injection Hv as <- <- _.
    by destruct (endpoints_named _ _ _ Hn He). }
  unfold validate_long_delay_entry, require_peer. cbn -[validate_terminal_rates].
  rewrite (require_ok _ "node_id"), (require_ok _ "interface_name"), (require_ok _ "peer_node_id"),
    (require_ok _ "peer_interface_name"), (require_ok _ "contact_id") by done.
  assert (validate_locality (wire_locality l) = Ok tt) as -> by (by destruct l). cbn [rbind].
  apply then_ok.
  { rewrite andb_false_r. unfold is_ground. cbn. destruct (link_type info); [done|]. cbn.
    destruct Hgs as [Hg Hs]; [done|]. by rewrite (require_ok _ "gs_id"), (require_ok _ "sat_id"). }
  apply then_ok.
  { apply refuse_ok. destruct l; [done|]. cbn. apply Z.leb_gt. by apply Hvni. }
  apply then_ok; [by rewrite Hrc|].
  unfold validate_terminal_rates, validate_peer_rates, wires_both_ground_ends. cbn -[validate_rates_field].
  rewrite rates_valid by done. rewrite (bool_decide_eq_false_2 (cid = "")) by done. rewrite orb_true_r.
  by apply rates_valid.
Qed.

Lemma station_endpoints p info e gs_id :
  link_type info = ground_link → link_gs_id gs_capacities p (link_type info) = Some gs_id →
  ground_endpoints gs_capacities p info = Some e → ge_gs_id e = gs_id.
Proof.
  intros -> H He. unfold link_gs_id, gs_id_for_pair in H. unfold ground_endpoints in He.
  destruct (planner_ground_side gs_capacities p) as [[]|]; simplify_eq/=; done.
Qed.

(** What an entry of a station's proof asks for. *)
Record station_ok (gs_id : string) (x : KernelInventoryEntry) : Prop := {
  so_common : common_ok (wire_inventory x);
  so_type : ki_link_type x = ground_link;
  so_gs : ki_gs_id x = gs_id;
  so_contact : ki_contact_id x = "";
  so_latency : flt (ki_latency_ms x) f_0 = false;
  so_peer_latency : flt (ki_peer_latency_ms x) f_0 = false;
  so_one_end : ki_locality x = LOCALITY_CROSS_NODE → ki_peer_latency_ms x = f_0;
  so_rates : ki_expected_admin_up x = true → ∃ r, ki_rates x = Some r ∧ good_rates r;
  so_peer_rates : ki_expected_admin_up x = true →
    match ki_locality x with
    | LOCALITY_LOCAL => ∃ r, ki_peer_rates x = Some r ∧ good_rates r
    | LOCALITY_CROSS_NODE => ki_peer_rates x = None
    end;
}.

Lemma station_valid gs_id x : station_ok gs_id x → validate_station_entry gs_id (wire_inventory x) = Ok tt.
Proof.
  intros [[Hn Hi Hp Hpi Ht Hl] Hty Hgs Hc Hla Hpl Hone Hr Hpr].
  destruct Ht as [Ht|(_ & Hg & Hs)]; [cbn in Ht; by rewrite Hty in Ht|].
  assert (wires_both_ground_ends (wire_inventory x) = negb (is_cross (ki_locality x))) as Hw.
  { unfold wires_both_ground_ends, is_ground. cbn. rewrite Hty, Hc. by destruct (ki_locality x). }
  unfold validate_station_entry, require_peer, is_ground.
  rewrite (require_ok _ "node_id"), (require_ok _ "interface_name"), (require_ok _ "peer_node_id"),
    (require_ok _ "peer_interface_name"), (require_ok _ "gs_id"), (require_ok _ "sat_id") by done.
  cbn -[validate_terminal_rates validate_peer_latency].
  rewrite Hty, Hgs, (bool_decide_eq_true_2 (gs_id = gs_id)) by done. cbn -[validate_terminal_rates validate_peer_latency].
  assert (validate_locality (wire_locality (ki_locality x)) = Ok tt) as -> by (by destruct (ki_locality x)).
  cbn [rbind]. apply then_ok; [|apply then_ok].
  - destruct (ki_expected_admin_up x) eqn:Eu; [|done]. rewrite Hla. cbn -[validate_terminal_rates].
    unfold validate_terminal_rates, validate_peer_rates. rewrite Hw. cbn -[validate_rates_field].
    destruct (Hr eq_refl) as (r & -> & Hgr). rewrite rates_valid by done. cbn [rbind]. rewrite Hc.
    specialize (Hpr eq_refl). destruct (ki_locality x); cbn -[validate_rates_field].
    + destruct Hpr as (r' & -> & ?). by apply rates_valid.
    + by rewrite Hpr.
  - unfold validate_peer_latency. rewrite Hw. cbn. rewrite Hpl, andb_false_r. cbn.
    destruct (ki_locality x); [done|]. cbn. by rewrite Hone.
  - destruct Hl as [Hl|(Hl & Hip & Hv)]; cbn in Hl; rewrite Hl; [done|]. cbn.
    rewrite (refuse_ok _ _ (proj2 (Z.leb_gt _ _) Hv)). cbn. by apply require_ok.
Qed.

Lemma station_entries_valid p info gs_id expected_admin_up msgs a x :
  named p info → (∀ netem, commanded_netem_ms info = Some netem → nonnegative netem) →
  link_gs_id gs_capacities p (link_type info) = Some gs_id →
  ground_inventory_entries_for_pair loc gs_capacities rates p info expected_admin_up = Ok msgs →
  (a, x) ∈ msgs → validate_station_entry gs_id (wire_inventory x) = Ok tt.
Proof.
  intros Hn Hcm Hgs H Hx. unfold ground_inventory_entries_for_pair in H. rguard H as Hty.
  assert (link_type info = ground_link) as Eg by (by destruct (link_type info)).
  rbind H as e He. pose proof (endpoints_named _ _ _ Hn He) as Hen.
  pose proof (station_endpoints _ _ _ _ Eg Hgs He) as Hgid. rbind H as l Hl. rbind H as netem En.
  assert (nonnegative netem) as Hnn.
  { destruct expected_admin_up; [apply or_raise_Ok in En; by apply Hcm|by injection En as <-]. }
  apply station_valid.
  assert (∀ n i peer m, ends_named e →
    (i = (ge_gs_id e, ge_gs_iface e) ∧ peer = (ge_sat_id e, ge_sat_iface e)) ∨
    (i = (ge_sat_id e, ge_sat_iface e) ∧ peer = (ge_gs_id e, ge_gs_iface e)) →
    (let! agent := agent_addr loc n in
     let! ip := remote_ip loc l peer.1 in
     let! latency := egress_ms p i.1 netem in
     let! peer_latency := if negb (is_cross l) then egress_ms p peer.1 netem else Ok f_0 in
     let! own := if expected_admin_up then (let! x := terminal_rates_message rates i in Ok (Some x)) else Ok None in
     let! peers := if expected_admin_up && negb (is_cross l)
                   then (let! x := terminal_rates_message rates peer in Ok (Some x)) else Ok None in
     Ok (agent, {| ki_iface := i; ki_link_type := ground_link; ki_gs_id := ge_gs_id e;
                   ki_sat_id := ge_sat_id e; ki_peer := peer; ki_locality := l;
                   ki_vni := ground_vni l e; ki_latency_ms := latency;
                   ki_expected_admin_up := expected_admin_up; ki_remote_node_ip := ip;
                   ki_rates := own; ki_peer_rates := peers; ki_peer_latency_ms := peer_latency;
                   ki_contact_id := ""; ki_receive_latency_ms := f_0;
                   ki_expected_admission_stopped := false; ki_survey := false |})) = Ok m →
    station_ok gs_id m.2) as Hadd.
  { clear H Hx. intros n i peer m [Hg Hs Hgi Hsi Htwo] Hends H.
    rbind H as ag Ea. rbind H as ip Ip. rbind H as la La. rbind H as pl Pl. rbind H as own Ow.
    rbind H as peers Pe. injection H as <-.
    split; cbn; try done.
    - split; [destruct Hends as [[-> ->]|[-> ->]]; done..| |].
      + by right.
      + eapply located_ok; [exact Ip|apply ground_vni_min|done..].
    - by eapply egress_nonneg.
    - destruct (is_cross l); cbn in Pl; [by injection Pl as <-|by eapply egress_nonneg].
    - intros ->. cbn in Pl. by injection Pl as <-.
    - intros ->. rbind Ow as r Rr. injection Ow as <-. apply rates_good in Rr. by eexists.
    - intros ->. destruct l; cbn in Pe; [|by injection Pe as <-].
      rbind Pe as r Rr. injection Pe as <-. apply rates_good in Rr. by eexists. }
  destruct (negb (is_cross l)).
  - rbind H as y Hy. injection H as <-. apply list_elem_of_singleton in Hx as <-.
    apply (Hadd _ _ _ (a, x) Hen (or_introl (conj eq_refl eq_refl)) Hy).
  - rbind H as y Hy. rbind H as z Hz. injection H as <-. rewrite !elem_of_cons in Hx.
    destruct Hx as [<-|[<-|[]%elem_of_nil]].
    + apply (Hadd _ _ _ (a, x) Hen (or_intror (conj eq_refl eq_refl)) Hy).
    + apply (Hadd _ _ _ (a, x) Hen (or_introl (conj eq_refl eq_refl)) Hz).
Qed.

(** Surveys name an end and prove nothing. *)
Lemma survey_fixed_valid p ia ib l vni msgs a x :
  p.1 ≠ "" → p.2 ≠ "" → ia ≠ "" → ib ≠ "" → (l = LOCALITY_CROSS_NODE → VNI_MIN ≤ vni) →
  mapM_r (λ '(i, peer),
      let! agent := agent_addr loc i.1 in
      let! ip := remote_ip loc l peer.1 in
      Ok (agent, survey_entry i peer isl_link "" "" l vni ip))
    [((p.1, ia), (p.2, ib)); ((p.2, ib), (p.1, ia))] = Ok msgs → (a, x) ∈ msgs →
  validate_long_delay_entry (wire_inventory x) = Ok tt.
Proof.
  intros Ha Hb Hia Hib Hv H Hx. apply (elem_of_mapM_r _ _ _ H) in Hx as ([i peer] & Hi & Hx).
  rbind Hx as ag Ea. rbind Hx as ip Ip. injection Hx as <- <-.
  assert (i.1 ≠ "" ∧ i.2 ≠ "") as [Hi1 Hi2]
    by (rewrite !elem_of_cons in Hi; destruct Hi as [[= -> _]|[[= -> _]|[]%elem_of_nil]]; done).
  unfold validate_long_delay_entry. cbn. rewrite (require_ok _ "node_id"), (require_ok _ "interface_name") by done.
  destruct l; [done|]. cbn. specialize (Hv eq_refl). unfold VNI_MIN in Hv.
  by rewrite (refuse_ok _ _ (proj2 (Z.leb_gt vni 0) ltac:(lia))).
Qed.

Lemma survey_terminal_valid (i : Iface) (station : bool) :
  i.1 ≠ "" → i.2 ≠ "" →
  validate_long_delay_entry (wire_inventory (survey_entry i ("", "") ground_link
    (if station then i.1 else "") (if station then "" else i.1) LOCALITY_LOCAL 0 "")) = Ok tt.
Proof.
  intros Hn Hi. unfold validate_long_delay_entry. cbn.
  rewrite (require_ok _ "node_id"), (require_ok _ "interface_name") by done.
  destruct station; cbn; rewrite (bool_decide_eq_true_2 (i.1 = i.1)) by done; [done|].
  by rewrite orb_true_r.
Qed.
End Entries.

(** ** Batches *)

(** Every message of a batch, whatever its agent. *)
Definition all_in {M} (P : M → Prop) (d : dict string (list M)) : Prop :=
  ∀ a ms m, (a, ms) ∈ d → m ∈ ms → P m.

Section Batches.
Context {M : Type} (P : M → Prop) (key : M → Iface).

Lemma all_in_nil : all_in P [].
Proof. by intros a ms m ?%elem_of_nil. Qed.

Lemma all_in_append a m d : all_in P d → P m → all_in P (append_to a m d).
Proof.
  intros Hd Hm a' ms m' [[= -> ->]|Hin]%dict_set_in Hm'; [|by eapply Hd].
  apply elem_of_app in Hm' as [Hm'|Em%list_elem_of_singleton]; [|by subst].
  destruct (dict_get a d) as [old|] eqn:E; [|by apply elem_of_nil in Hm'].
  apply dict_get_in in E. by eapply Hd.
Qed.

Lemma all_in_append_all (msgs : list (string * M)) d :
  all_in P d → (∀ a m, (a, m) ∈ msgs → P m) → all_in P (append_all d msgs).
Proof.
  unfold append_all. revert d. induction msgs as [|[a m] msgs IH]; intros d Hd Hm; [done|]. cbn.
  apply IH; [|intros a' m' H'; eapply Hm; by right]. apply all_in_append; [done|]. eapply Hm. by left.
Qed.

Lemma all_in_add p plan (msgs : list (string * M)) :
  all_in P (agent_ifaces plan) → (∀ a m, (a, m) ∈ msgs → P m) →
  all_in P (agent_ifaces (add_messages key p plan msgs)).
Proof.
  intros Hd Hm. enough (agent_ifaces (add_messages key p plan msgs) = append_all (agent_ifaces plan) msgs)
    as -> by (by apply all_in_append_all).
  unfold add_messages, append_all. clear. revert plan. induction msgs as [|am msgs IH]; intros plan; [done|].
  cbn. by rewrite IH.
Qed.

Lemma all_in_sorted d : all_in P d → all_in P (sorted_agents d).
Proof. intros Hd a ms m Hin. unfold sorted_agents in Hin. rewrite elem_of_sorted in Hin. by eapply Hd. Qed.
End Batches.

(** ** Requests *)

Lemma rbind_cong {A B} (c : result A) (k k' : A → result B) :
  (∀ a, c = Ok a → k a = k' a) → rbind c k = rbind c k'.
Proof. intros H. destruct c; [by apply H|done]. Qed.

Lemma mapM_r_ext {A B} (f g : A → result B) l : (∀ x, x ∈ l → f x = g x) → mapM_r f l = mapM_r g l.
Proof.
  induction l as [|x l IH]; intros H; [done|]. cbn. rewrite (H x) by (by left). destruct (g x); [|done]. cbn.
  rewrite IH; [done|]. intros y Hy. apply H. by right.
Qed.

Lemma chunk_within {M} n (items : list M) (m : M) :
  m ∈ nth n (chunks MAX_NODE_AGENT_INTERFACES_PER_COMMAND items) [] → m ∈ items.
Proof.
  intros Hm.
  assert (concat (chunks MAX_NODE_AGENT_INTERFACES_PER_COMMAND items) = items) as <-
    by (by apply chunks_from_concat; [unfold MAX_NODE_AGENT_INTERFACES_PER_COMMAND; lia|]).
  destruct (nth_in_or_default n (chunks MAX_NODE_AGENT_INTERFACES_PER_COMMAND items) []) as [Hin|E].
  - apply list_elem_of_In, in_concat. exists (nth n (chunks MAX_NODE_AGENT_INTERFACES_PER_COMMAND items) []).
    split; [done|]. by apply list_elem_of_In.
  - rewrite E in Hm. by apply elem_of_nil in Hm.
Qed.

Lemma append_nonempty s t : t ≠ "" → s +:+ t ≠ "".
Proof. by destruct s. Qed.
Lemma append_nonempty_l s t : s ≠ "" → s +:+ t ≠ "".
Proof. by destruct s. Qed.

Lemma operation_id_nonempty base n k : base ≠ "" → chunked_operation_id base n k ≠ "".
Proof. intros H. unfold chunked_operation_id. case_match; [done|]. by apply append_nonempty_l. Qed.

(** A Node Agent in the Scheduler's session and wiring generation, whose floor the
    Scheduler's epoch is not below. *)
Record same_session (fence : Fence) (rf : RuntimeFence) (lease : option LeaseEpoch)
    (floor : WriterEpochFloor) : Prop := {
  ss_session : rf_session_id rf = fence_session_id fence;
  ss_generation : rf_wiring_generation rf = fence_wiring_generation fence;
  ss_session_named : fence_session_id fence ≠ "";
  ss_generation_named : fence_wiring_generation fence ≠ "";
  ss_epoch : fence_writer_epoch fence ≠ 0;
  ss_floor : lowest (rebase floor lease) lease ≤ fence_writer_epoch fence;
}.

(** The Node Agent's verdict on a request of the Scheduler. *)
Definition meets_contract (rf : RuntimeFence) (lease : option LeaseEpoch) (floor : WriterEpochFloor)
    (r : AgentRequest) : Prop :=
  (validate_request rf (Ok lease) (wire_request r).1 (wire_request r).2 floor).2 = Ok tt.

Section Requests.
Context (fence : Fence) (rf : RuntimeFence) (lease : option LeaseEpoch) (floor : WriterEpochFloor)
        (Hsame : same_session fence rf lease floor).

Lemma envelope_admitted kind op gs_id entries :
  op ≠ "" → kind ≠ "" →
  (validate_envelope rf (Ok lease) kind
    {| wr_envelope := Some {| env_operation_id := op; env_session_id := fence_session_id fence;
                              env_wiring_generation := fence_wiring_generation fence;
                              env_operation_kind := kind; env_writer_epoch := fence_writer_epoch fence |};
       wr_gs_id := gs_id; wr_entries := entries |} floor).2 = Ok tt.
Proof.
  intros Hop Hk. destruct Hsame as [Es Eg Hs Hg He Hf]. unfold validate_envelope, check_envelope. cbn.
  rewrite Es, Eg. rewrite !(bool_decide_eq_false_2 (_ = "")) by done. cbn.
  rewrite (proj2 (Z.eqb_neq _ _) He). cbn. rewrite !bool_decide_eq_true_2 by done. cbn.
  unfold admit_writer. by rewrite (proj2 (Z.ltb_ge _ _) Hf).
Qed.

(** A transport that answers every acceptable request alike. *)
Context (transport transport' : string → AgentRequest → AgentReply)
        (Hagree : ∀ a r, meets_contract rf lease floor r → transport a r = transport' a r).

Lemma send_messages_agree {M} (key : M → Iface) operation base
    (request : CommandEnvelope → list M → AgentRequest) (P : M → Prop) addr items :
  (∀ op chunk, op ≠ "" → (∀ m, m ∈ chunk → P m) →
     meets_contract rf lease floor (request
       {| env_operation_id := op; env_session_id := fence_session_id fence;
          env_wiring_generation := fence_wiring_generation fence; env_operation_kind := operation;
          env_writer_epoch := fence_writer_epoch fence |} chunk)) →
  base ≠ "" → (∀ m, m ∈ items → P m) →
  send_messages fence transport key operation base request addr items =
  send_messages fence transport' key operation base request addr items.
Proof.
  intros Hreq Hb Hm. unfold send_messages, send_call, send_chunked_command. cbn. f_equal.
  apply imap_ext. intros n c _. f_equal. apply Hagree, Hreq.
  - by apply operation_id_nonempty, append_nonempty_l.
  - intros m Hin%chunk_within. by apply Hm.
Qed.

Lemma gather_agree {M} (send send' : string → list M → result AgentCommandResult) (P : M → Prop) by_agent :
  (∀ a items, (∀ m, m ∈ items → P m) → send a items = send' a items) → all_in P by_agent →
  gather send by_agent = gather send' by_agent.
Proof.
  intros Hs Hd. apply mapM_r_ext. intros [a ms] Hin. apply Hs. intros m Hm. by eapply Hd.
Qed.
End Requests.

(** ** Operations *)

Definition links_named (links : Links) : Prop := ∀ p info, links !! p = Some info → named p info.

Lemma compensation_nonneg session_id generation loc ss now policy a b orbital c :
  latency_compensation session_id generation loc ss now policy a b orbital = Ok c →
  nonnegative (netem_of c).
Proof.
  unfold latency_compensation. intros H. rbind H as rtt Hr.
  destruct (compensate_latency _ _ rtt policy) as [c'|[]] eqn:E; try done. injection H as <-.
  apply compensate_latency_Ok in E as (_ & _ & _ & Ha & _ & Hb). done.
Qed.

Section Operations.
Context (loc : PodLocationMap) (gs_capacities : gmap string Z) (rates : gmap Iface InterfaceRates)
        (Hips : ∀ n ip, host_ip loc n = Ok ip → ip ≠ "")
        (Hrates : ∀ i r, rates !! i = Some r → good_rates r).
Context (fence : Fence) (rf : RuntimeFence) (lease : option LeaseEpoch) (floor : WriterEpochFloor)
        (Hsame : same_session fence rf lease floor).
Context (transport transport' : string → AgentRequest → AgentReply)
        (Hagree : ∀ a r, meets_contract rf lease floor r → transport a r = transport' a r).
Context (compensation : string → string → float * float → result LatencyCompensation)
        (Hcomp : ∀ a b orbital c, compensation a b orbital = Ok c → nonnegative (netem_of c)).

Definition up_ok (u : InterfaceUp) : Prop := validate_up_entry (wire_up u) = Ok tt.
Definition down_ok (d : InterfaceDown) : Prop := validate_down_entry (wire_down d) = Ok tt.
Definition latency_ok (e : LatencyEntry) : Prop := validate_latency_entry (wire_latency e) = Ok tt.
Definition end_ok (e : KernelInventoryEntry) : Prop := validate_long_delay_entry (wire_inventory e) = Ok tt.

Lemma each_map {M} (f : M → WireEntry) check chunk :
  (∀ m, m ∈ chunk → check (f m) = Ok tt) → each check (map f chunk) = Ok tt.
Proof. intros H. apply each_ok. intros e (m & -> & Hm)%list_elem_of_fmap. by apply H. Qed.

Lemma admitted_then kind request :
  (validate_envelope rf (Ok lease) kind request floor).2 = Ok tt → validate_entries kind request = Ok tt →
  (validate_request rf (Ok lease) kind request floor).2 = Ok tt.
Proof.
  intros He Hr. unfold validate_request. destruct (validate_envelope _ _ _ _ _) as [f r]. cbn in *.
  by rewrite He, Hr.
Qed.

Lemma send_up_agree sim_iso label a items :
  (∀ u, u ∈ items → up_ok u) →
  send_batch_up_to_agent fence transport sim_iso label a items =
  send_batch_up_to_agent fence transport' sim_iso label a items.
Proof.
  apply (send_messages_agree fence rf lease floor _ _ Hagree); [|by apply append_nonempty].
  intros op chunk Hop Hm. apply admitted_then; [by apply (envelope_admitted fence)|]. by apply each_map.
Qed.

Lemma send_down_agree sim_iso a items :
  (∀ d, d ∈ items → down_ok d) →
  send_batch_down_to_agent fence transport sim_iso a items =
  send_batch_down_to_agent fence transport' sim_iso a items.
Proof.
  apply (send_messages_agree fence rf lease floor _ _ Hagree); [|by apply append_nonempty].
  intros op chunk Hop Hm. apply admitted_then; [by apply (envelope_admitted fence)|]. by apply each_map.
Qed.

Lemma send_latency_agree sim_time a items :
  (∀ d, d ∈ items → latency_ok d) →
  send_latency_to_agent fence transport sim_time a items =
  send_latency_to_agent fence transport' sim_time a items.
Proof.
  apply (send_messages_agree fence rf lease floor _ _ Hagree); [|by apply append_nonempty].
  intros op chunk Hop Hm. apply admitted_then; [by apply (envelope_admitted fence)|]. by apply each_map.
Qed.

Lemma send_ends_agree sim_iso a items :
  (∀ d, d ∈ items → end_ok d) →
  send_kernel_inventory_to_agent fence transport sim_iso "" a items =
  send_kernel_inventory_to_agent fence transport' sim_iso "" a items.
Proof.
  apply (send_messages_agree fence rf lease floor _ _ Hagree); [|by apply append_nonempty].
  intros op chunk Hop Hm. apply admitted_then; [by apply (envelope_admitted fence)|]. by apply each_map.
Qed.

Lemma send_station_agree sim_iso gs_id a items :
  gs_id ≠ "" →
  (∀ d, d ∈ items → validate_station_entry gs_id (wire_inventory d) = Ok tt) →
  send_kernel_inventory_to_agent fence transport sim_iso gs_id a items =
  send_kernel_inventory_to_agent fence transport' sim_iso gs_id a items.
Proof.
  intros Hgs. apply (send_messages_agree fence rf lease floor _ _ Hagree); [|by apply append_nonempty].
  intros op chunk Hop Hm. apply admitted_then; [by apply (envelope_admitted fence)|].
  change (validate_inventory_entries gs_id (map wire_inventory chunk) = Ok tt).
  unfold validate_inventory_entries. rewrite bool_decide_eq_false_2 by done. by apply each_map.
Qed.

(** *** What the loops build *)

Lemma named_netem p info netem : named p info → named p (with_netem info netem).
Proof. by intros []; split. Qed.

Lemma up_plan_ok stage pairs desired plan desired' :
  links_named desired →
  build_link_up_batch_plan loc gs_capacities rates compensation stage pairs desired = Ok (plan, desired') →
  all_in up_ok (agent_ifaces (up_batch plan)).
Proof.
  intros Hn H. unfold build_link_up_batch_plan in H. rguard H as Hst.
  assert (one_of stage LINK_UP_STAGE_PREPARE LINK_UP_STAGE_OPEN = true) as Hone.
  { unfold one_of. rewrite orb_true_iff, !Z.eqb_eq. set_solver. }
  enough (all_in up_ok (agent_ifaces (up_batch (plan, desired').1)) ∧ links_named (plan, desired').2) by naive_solver.
  refine (foldM_inv (λ acc, all_in up_ok (agent_ifaces (up_batch acc.1)) ∧ links_named acc.2)
            _ _ _ _ _ _ H); [|split; [apply all_in_nil|done]].
  intros [plan0 d0] p [plan1 d1] _ [Ha Hd] Hx. unfold link_up_pair in Hx. cbn in Hx.
  rbind Hx as info Hi. rguard Hx as Hc. rbind Hx as l Hl. rbind Hx as c Hco. rbind Hx as msgs Hm.
  injection Hx as <- <-. cbn. split.
  - apply all_in_add; [done|]. intros a u Hu. eapply up_messages_valid; eauto.
  - intros q qi [[-> <-]|[_ Hq]]%lookup_insert_Some; [|by apply Hd]. by apply named_netem, Hd.
Qed.

Lemma down_plan_ok stage ends cids pairs actual plan :
  links_named actual → one_of stage LINK_DOWN_STAGE_STOP_ADMISSION LINK_DOWN_STAGE_CLOSE = true →
  build_link_down_batch_plan loc gs_capacities stage ends cids pairs actual = Ok plan →
  all_in down_ok (agent_ifaces plan).
Proof.
  intros Hn Hst H. refine (foldM_inv (λ plan, all_in down_ok (agent_ifaces plan)) _ _ _ _ _ _ H);
    [|apply all_in_nil].
  intros plan0 p plan1 _ Ha Hx. destruct (actual !! p) as [info|] eqn:Ei; [|by injection Hx as <-].
  rbind Hx as msgs Hm. injection Hx as <-. apply all_in_add; [done|].
  intros a d Hd. eapply down_messages_valid; eauto.
Qed.

Lemma latency_plan_ok max_age sim_time pairs desired plan comps desired' :
  links_named desired →
  foldM (latency_pair loc gs_capacities rates max_age compensation sim_time) (empty_batch, ∅, desired) pairs
    = Ok (plan, comps, desired') →
  all_in latency_ok (agent_ifaces plan).
Proof.
  intros Hn H.
  enough (all_in latency_ok (agent_ifaces (plan, comps, desired').1.1) ∧ links_named (plan, comps, desired').2)
    by naive_solver.
  refine (foldM_inv (λ acc, all_in latency_ok (agent_ifaces acc.1.1) ∧ links_named acc.2)
            _ _ _ _ _ _ H); [|split; [apply all_in_nil|done]].
  intros [[plan0 c0] d0] p [[plan1 c1] d1] _ [Ha Hd] Hx. unfold latency_pair in Hx. cbn in Ha, Hd.
  rbind Hx as info Hi. rbind Hx as t Ht. rbind Hx as c Hco. rbind Hx as msgs Hm.
  injection Hx as <- <- <-. cbn. split.
  - apply all_in_add; [done|]. intros a u Hu. eapply latency_entries_valid; eauto.
  - intros q qi [[-> <-]|[_ Hq]]%lookup_insert_Some; [|by apply Hd]. by apply named_netem, Hd.
Qed.

Lemma verify_plan_ok actual ends plan :
  links_named actual → (∀ p info, actual !! p = Some info → provable info) →
  foldM (verify_pair loc gs_capacities rates actual) empty_batch ends = Ok plan →
  all_in end_ok (agent_ifaces plan).
Proof.
  intros Hn Hp H. refine (foldM_inv (λ plan, all_in end_ok (agent_ifaces plan)) _ _ _ _ _ _ H);
    [|apply all_in_nil].
  intros plan0 [p ids] plan1 _ Ha Hx. unfold verify_pair in Hx. rbind Hx as info Hi. rbind Hx as msgs Hm.
  injection Hx as <-. apply all_in_append_all; [done|]. intros a x Hin.
  eapply long_delay_entries_valid; eauto.
Qed.

Lemma survey_plan_ok interface_map pairs plan :
  (∀ p ia ib, interface_map !! p = Some (ia, ib) → p.1 ≠ "" ∧ p.2 ≠ "" ∧ ia ≠ "" ∧ ib ≠ "") →
  foldM (survey_pair loc interface_map) empty_batch pairs = Ok plan → all_in end_ok (agent_ifaces plan).
Proof.
  intros Hn H. refine (foldM_inv (λ plan, all_in end_ok (agent_ifaces plan)) _ _ _ _ _ _ H);
    [|apply all_in_nil].
  intros plan0 p plan1 _ Ha Hx. unfold survey_pair in Hx. rbind Hx as [ia ib] Hi. rbind Hx as l Hl.
  rbind Hx as msgs Hm. injection Hx as <-. destruct (Hn p ia ib Hi) as (H1 & H2 & H3 & H4).
  apply all_in_add; [done|]. intros a x Hin.
  eapply (survey_fixed_valid loc p ia ib l); [done..| |exact Hm|exact Hin].
  intros ->. cbn. apply compute_vni_bounds.
Qed.

Lemma terminals_plan_ok terminals plan :
  (∀ i, i ∈ terminals → i.1 ≠ "" ∧ i.2 ≠ "") →
  foldM (survey_terminal loc gs_capacities) empty_batch terminals = Ok plan →
  all_in end_ok (agent_ifaces plan).
Proof.
  intros Hn H. refine (foldM_inv (λ plan, all_in end_ok (agent_ifaces plan)) _ _ _ _ _ _ H);
    [|apply all_in_nil].
  intros plan0 i plan1 Hin Ha Hx. unfold survey_terminal in Hx. rbind Hx as ag Hag. injection Hx as <-.
  apply all_in_append; [done|]. destruct (Hn i Hin). by apply survey_terminal_valid.
Qed.

Lemma inventory_plan_ok gs_id up down planned :
  (∀ p info, (p, info) ∈ up ++ down → named p info) →
  (∀ p info, (p, info) ∈ up → provable info ∧
     ∀ netem, commanded_netem_ms info = Some netem → nonnegative netem) →
  (∀ p info, (p, info) ∈ down → ∀ netem, commanded_netem_ms info = Some netem → nonnegative netem) →
  ground_inventory_requests loc gs_capacities rates gs_id up down = Ok planned →
  all_in (λ x, validate_station_entry gs_id (wire_inventory x) = Ok tt) (gi_local planned) ∧
  all_in end_ok (gi_long_delay planned).
Proof.
  intros Hn Hup Hdn H. unfold ground_inventory_requests in H. rbind H as acc Hacc.
  set (I := λ acc, all_in (λ x, validate_station_entry gs_id (wire_inventory x) = Ok tt) (gi_local acc) ∧
    all_in end_ok (gi_long_delay acc)).
  assert (∀ expected acc acc' p info,
    named p info → (expected = true → provable info) →
    (∀ netem, commanded_netem_ms info = Some netem → nonnegative netem) → I acc →
    inventory_pair loc gs_capacities rates gs_id expected acc (p, info) = Ok acc' → I acc') as Hpair.
  { clear -Hips Hrates. intros expected acc acc' p info. unfold inventory_pair. intros Hn Hpb Hnn [Hl Hd] H.
    case_bool_decide as Hgs; cbn in H; [|by injection H as <-].
    destruct (expected && negb (is_none (contact info))) eqn:Es; rbind H as msgs Hm; injection H as <-; split; try done.
    - apply andb_true_iff in Es as [-> _]. apply all_in_append_all; [done|]. intros a x Hx.
      eapply long_delay_entries_valid; eauto.
    - apply all_in_append_all; [done|]. intros a x Hx. eapply station_entries_valid; eauto. }
  assert (I acc) as HI.
  { refine (foldM_inv I _ _ _ _ _ _ Hacc); [|split; apply all_in_nil].
    intros acc0 [p info] acc1 Hin HI Hx. destruct (Hup p info Hin).
    eapply Hpair; eauto. apply Hn, elem_of_app. by left. }
  refine (foldM_inv I _ _ _ _ _ _ H); [|exact HI].
  intros acc0 [p info] acc1 Hin HI0 Hx. eapply (Hpair false); eauto; [|done].
  apply Hn, elem_of_app. by right.
Qed.
End Operations.

Section Contract.
Context (loc : PodLocationMap) (gs_capacities : gmap string Z) (rates : gmap Iface InterfaceRates)
        (max_age : float) (fence : Fence) (transport transport' : string → AgentRequest → AgentReply).

(** *** What the operations do with a transport *)

Lemma judge_agree {M} (send send' : string → list M → result AgentCommandResult) by_agent ifaces links pairs :
  gather send by_agent = gather send' by_agent →
  judge gs_capacities send by_agent ifaces links pairs = judge gs_capacities send' by_agent ifaces links pairs.
Proof. intros H. unfold judge. by rewrite H. Qed.

Lemma dispatch_agree plan pairs desired sim_iso label :
  gather (send_batch_up_to_agent fence transport sim_iso label) (agent_ifaces (up_batch plan)) =
  gather (send_batch_up_to_agent fence transport' sim_iso label) (agent_ifaces (up_batch plan)) →
  dispatch_link_up_plan gs_capacities fence transport plan pairs desired sim_iso label =
  dispatch_link_up_plan gs_capacities fence transport' plan pairs desired sim_iso label.
Proof. intros H. unfold dispatch_link_up_plan. by rewrite H. Qed.

(** The OPEN of a batch that passes passes. *)
Lemma restaged_ok plan pairs plan' :
  all_in up_ok (agent_ifaces (up_batch plan)) →
  restage_link_up_plan plan pairs LINK_UP_STAGE_OPEN = Ok plan' →
  all_in up_ok (agent_ifaces (up_batch plan')).
Proof.
  intros Ha H. unfold restage_link_up_plan in H. rbind H as chosen Hc. rbind H as comp Hp.
  injection H as <-. cbn. set (acks := ⋃ map snd (map_to_list chosen)). clearbody acks. clear Hc Hp comp chosen.
  assert (∀ u, up_ok u → up_ok (with_stage u LINK_UP_STAGE_OPEN)) as Hst.
  { intros u Hu. unfold up_ok, validate_up_entry in *.
    rbind Hu as t1 H1. rbind Hu as t2 H2. rbind Hu as t3 H3. rbind Hu as t4 H4.
    destruct t1, t2, t3, t4. change (validate_common_interface (wire_up (with_stage u LINK_UP_STAGE_OPEN)))
      with (validate_common_interface (wire_up u)). rewrite H1. cbn [rbind].
    change (we_latency_ms (wire_up (with_stage u LINK_UP_STAGE_OPEN))) with (we_latency_ms (wire_up u)).
    rewrite H2. cbn [rbind].
    change (validate_peer_latency (wire_up (with_stage u LINK_UP_STAGE_OPEN)))
      with (validate_peer_latency (wire_up u)). rewrite H3. cbn [rbind].
    change (validate_terminal_rates (wire_up (with_stage u LINK_UP_STAGE_OPEN)))
      with (validate_terminal_rates (wire_up u)). by rewrite H4. }
  assert (∀ d0 l, all_in up_ok d0 → (∀ a ms u, (a, ms) ∈ l → u ∈ ms → up_ok u) →
    all_in up_ok (fold_left (λ d x, fold_left (λ d u,
      if bool_decide (ack_key up_iface x.1 u ∈ acks) then append_to x.1 (with_stage u LINK_UP_STAGE_OPEN) d else d)
      x.2 d) l d0)) as Hfold; [|apply Hfold; [apply all_in_nil|exact Ha]].
  intros d0 l. revert d0. induction l as [|[a ms] l IH]; intros d0 Hd Hl; [done|]. cbn. apply IH.
  - assert (∀ u, u ∈ ms → up_ok u) as Hms by (intros u; eapply Hl; by left). clear Hl IH.
    revert d0 Hd. induction ms as [|u ms IHms]; intros d0 Hd; [done|]. cbn. apply IHms.
    + intros v Hv. apply Hms. by right.
    + case_bool_decide; [|done]. apply all_in_append; [done|]. apply Hst, Hms. by left.
  - intros a' ms' u Hin. eapply Hl. by right.
Qed.
End Contract.

(** A deployment whose terminals have rates and whose hosts have addresses. *)
Record deployed (loc : PodLocationMap) (rates : gmap Iface InterfaceRates) : Prop := {
  dp_ips n ip : host_ip loc n = Ok ip → ip ≠ "";
  dp_rates i r : rates !! i = Some r → good_rates r;
}.

(** Records whose ends can be proven. *)
Definition links_provable (links : list (node_pair * ActiveLinkInfo)) : Prop :=
  ∀ p info, (p, info) ∈ links → provable info ∧
    ∀ netem, commanded_netem_ms info = Some netem → nonnegative netem.

(** C19: what the Scheduler sends for well-formed records meets the Node Agent's
    contract.  Two transports that answer alike every request the contract accepts give the same
    result of a LinkDown of any stage, a LinkUp, a PREPARE and its OPEN, a latency
    update and a proof or survey of a station or of long-delay ends: no other request
    is ever sent.
    It holds in a deployment whose hosts have addresses and whose terminals have rates,
    at a Node Agent of the same session and generation whose floor the Scheduler's epoch
    is not below, for records whose nodes and interfaces are named and, where ends are to
    be proven, records whose commanded delays are positive and whose draining ends name
    their contacts. *)
Theorem requests_meet_contract loc gs_capacities rates max_age fence rf lease floor transport transport'
    session_id generation ss now policy :
  deployed loc rates → same_session fence rf lease floor →
  (∀ a r, meets_contract rf lease floor r → transport a r = transport' a r) →
  let compensation := latency_compensation session_id generation loc ss now policy in
  (∀ pairs actual sim_iso sim_time reasons stage ends cids,
     links_named actual → one_of stage LINK_DOWN_STAGE_STOP_ADMISSION LINK_DOWN_STAGE_CLOSE = true →
     send_batch_down loc gs_capacities fence transport pairs actual sim_iso sim_time reasons stage ends cids =
     send_batch_down loc gs_capacities fence transport' pairs actual sim_iso sim_time reasons stage ends cids) ∧
  (∀ pairs desired sim_iso sim_time, links_named desired →
     send_batch_up loc gs_capacities rates max_age fence transport compensation pairs desired sim_iso sim_time =
     send_batch_up loc gs_capacities rates max_age fence transport' compensation pairs desired sim_iso sim_time) ∧
  (∀ pairs opened desired sim_iso sim_time, links_named desired →
     prepare_long_delay_contacts loc gs_capacities rates max_age fence transport compensation
       pairs desired sim_iso sim_time =
     prepare_long_delay_contacts loc gs_capacities rates max_age fence transport' compensation
       pairs desired sim_iso sim_time ∧
     ∀ plan desired' r, prepare_long_delay_contacts loc gs_capacities rates max_age fence transport
         compensation pairs desired sim_iso sim_time = Ok (plan, desired', r) →
       open_prepared_contacts gs_capacities max_age fence transport plan opened desired' sim_iso sim_time =
       open_prepared_contacts gs_capacities max_age fence transport' plan opened desired' sim_iso sim_time) ∧
  (∀ pairs desired sim_time, links_named desired →
     send_authoritative_latency_updates loc gs_capacities rates max_age fence transport compensation
       pairs desired sim_time =
     send_authoritative_latency_updates loc gs_capacities rates max_age fence transport' compensation
       pairs desired sim_time) ∧
  (∀ ends actual sim_iso, links_named actual → links_provable (map_to_list actual) →
     verify_long_delay_ends loc gs_capacities rates fence transport ends actual sim_iso =
     verify_long_delay_ends loc gs_capacities rates fence transport' ends actual sim_iso) ∧
  (∀ gs_id up down sim_iso, gs_id ≠ "" → (∀ p info, (p, info) ∈ up ++ down → named p info) →
     links_provable (up ++ down) →
     verify_ground_kernel_inventory loc gs_capacities rates fence transport gs_id up down sim_iso =
     verify_ground_kernel_inventory loc gs_capacities rates fence transport' gs_id up down sim_iso) ∧
  (∀ pairs interface_map sim_iso,
     (∀ p ia ib, interface_map !! p = Some (ia, ib) → p.1 ≠ "" ∧ p.2 ≠ "" ∧ ia ≠ "" ∧ ib ≠ "") →
     survey_long_delay_ends loc fence transport pairs interface_map sim_iso =
     survey_long_delay_ends loc fence transport' pairs interface_map sim_iso) ∧
  (∀ terminals sim_iso, (∀ i, i ∈ terminals → i.1 ≠ "" ∧ i.2 ≠ "") →
     survey_ground_terminals loc gs_capacities fence transport terminals sim_iso =
     survey_ground_terminals loc gs_capacities fence transport' terminals sim_iso).
Proof.
  intros [Hips Hrates] Hsame Hagree comp.
  assert (∀ a b orbital c, comp a b orbital = Ok c → nonnegative (netem_of c)) as Hcomp
    by (intros a b orbital c; apply compensation_nonneg).
  split_and!.
  - intros pairs actual sim_iso sim_time reasons stage ends cids Hn Hst. unfold send_batch_down.
    apply rbind_cong. intros plan Hp. erewrite judge_agree; [done|].
    eapply gather_agree; [|by eapply down_plan_ok]. intros a items. by apply (send_down_agree fence rf lease floor).
  - intros pairs desired sim_iso sim_time Hn. unfold send_batch_up. apply rbind_cong. intros t _.
    apply rbind_cong. intros [plan desired'] Hp. erewrite dispatch_agree; [done|].
    eapply gather_agree; [|by eapply up_plan_ok]. intros a items. by apply (send_up_agree fence rf lease floor).
  - intros pairs opened desired sim_iso sim_time Hn. split.
    + unfold prepare_long_delay_contacts. apply rbind_cong. intros t _. apply rbind_cong.
      intros [plan desired'] Hp. erewrite dispatch_agree; [done|].
      eapply gather_agree; [|by eapply up_plan_ok]. intros a items. by apply (send_up_agree fence rf lease floor).
    + intros plan desired' r H. unfold prepare_long_delay_contacts in H. rbind H as t Ht.
      rbind H as pd Hp. destruct pd as [plan0 desired0]. rbind H as r0 Hr. injection H as <- <- <-.
      assert (all_in up_ok (agent_ifaces (up_batch plan0))) as Hok by (by eapply up_plan_ok).
      unfold open_prepared_contacts. apply rbind_cong. intros plan1 Hp1. erewrite dispatch_agree; [done|].
      eapply gather_agree; [|by eapply restaged_ok]. intros a items. by apply (send_up_agree fence rf lease floor).
  - intros pairs desired sim_time Hn. unfold send_authoritative_latency_updates. apply rbind_cong.
    intros [[plan comps] desired'] Hp. erewrite judge_agree; [done|].
    eapply gather_agree; [|by eapply latency_plan_ok]. intros a items. by apply (send_latency_agree fence rf lease floor).
  - intros ends actual sim_iso Hn Hpb. unfold verify_long_delay_ends. apply rbind_cong. intros plan Hp.
    apply judge_agree. eapply gather_agree; [|apply all_in_sorted; eapply verify_plan_ok; [..|exact Hp]; try done].
    + intros a items. by apply (send_ends_agree fence rf lease floor).
    + intros p info Hi. apply (Hpb p info). by apply elem_of_map_to_list.
  - intros gs_id up down sim_iso Hgs Hn Hpb. unfold verify_ground_kernel_inventory. apply rbind_cong.
    intros planned Hp. destruct (inventory_plan_ok loc gs_capacities rates Hips Hrates gs_id up down planned)
      as [Hl Hd]; try done.
    + intros p info Hin. apply (Hpb p). apply elem_of_app. by left.
    + intros p info Hin. apply (Hpb p). apply elem_of_app. by right.
    + erewrite gather_agree; [|intros a items; by apply (send_station_agree fence rf lease floor)
                              |by apply all_in_sorted].
      apply rbind_cong. intros local _.
      erewrite gather_agree; [done| |by apply all_in_sorted].
      intros a items. by apply (send_ends_agree fence rf lease floor).
  - intros pairs im sim_iso Hn. unfold survey_long_delay_ends. apply rbind_cong. intros plan Hp.
    erewrite gather_agree; [done| |by apply all_in_sorted; eapply survey_plan_ok].
    intros a items. by apply (send_ends_agree fence rf lease floor).
  - intros terminals sim_iso Hn. unfold survey_ground_terminals. apply rbind_cong. intros plan Hp.
    erewrite gather_agree; [done| |apply all_in_sorted; eapply terminals_plan_ok; [|exact Hp]].
    + intros a items. by apply (send_ends_agree fence rf lease floor).
    + intros i. rewrite elem_of_sorted. apply Hn.
Qed.

(** A Node Agent that does what it is asked when the request meets the contract,
    and does not answer otherwise. *)
Definition run_7 : RuntimeFence := {| rf_session_id := "run-7"; rf_wiring_generation := "sha256:ab" |}.
Definition gated (a : string) (r : AgentRequest) : AgentReply :=
  if is_Ok (validate_request run_7 (Ok None) (wire_request r).1 (wire_request r).2 no_floor).2
  then obedient a r else Unreachable.

Lemma cluster_deployed : deployed Cluster.located Pass.rates.
Proof.
  split.
  - intros n ip H. unfold host_ip, k3s_node, node_ip in H. rbind H as k Hk.
    assert (map_Forall (λ _ ip, ip ≠ "") (node_ips Cluster.located)) as Hf
      by (apply (bool_decide_unpack _); vm_compute; exact I).
    apply or_raise_Ok in H. by apply (Hf k).
  - assert (map_Forall (λ _ r, good_rates r) Pass.rates) as Hf; [|intros i r; apply Hf].
    apply map_Forall_insert_2; [by vm_compute|]. apply map_Forall_singleton. by vm_compute.
Qed.

Lemma requests_meet_contract_witness :
  is_Ok sent_up = true ∧
  send_batch_up Cluster.located Pass.capacities Pass.rates (float_of_Z 10) seven gated Pass.comp
    {[Pass.p]} local_pass "1970-01-01T00:00:00+00:00" 0 = sent_up.
Proof.
  split; [vm_compute; reflexivity|].
  destruct (requests_meet_contract Cluster.located Pass.capacities Pass.rates (float_of_Z 10) seven
    run_7 None no_floor gated obedient "run-7" "sha256:ab" cluster_measured 2000000 "half-rtt")
    as (_ & Hup & _).
  - exact cluster_deployed.
  - split; done.
  - intros a r Hr. unfold gated. unfold meets_contract in Hr. by rewrite Hr.
  - apply Hup. intros p info H. unfold local_pass in H. apply lookup_singleton_Some in H as [<- <-]. split; done.
Defined.
