(* ===== verification/WriterFence.v ===== *)
(** * One writer at a time

    The Schedulers of a session compete for the writer Lease ([WriterLease]) and
    command Node Agents, each of which keeps a floor under the epochs it accepts
    ([CommandContract]) and a view of the Lease that may lag behind.

    A state of the system holds the API server, every Scheduler process with the
    calls it has under way, every Node Agent with its view, floor and the epochs it
    accepted, and the successive states of the Lease.  The Lease may be deleted at any
    time and created again by a Scheduler: the new object counts from one, so an epoch
    belongs to the object it was taken from, which a Scheduler and a Node Agent
    remember as ghost state.  The steps are those of
    [services/scheduler/__main__.py] ([_acquire_writer_lease], [_keep_writer_lease],
    [_release_writer_lease], [_serve]) and of [writer_lease_view.py]; they interleave
    freely, and a Scheduler that took the Lease may send a command at any later
    time, also when it was superseded or has stopped. *)

From S2P Require Import Prelude.
From S2P Require Import PyFloat.
From S2P Require Import PyTime.
From S2P Require Import DispatchActuator.
From S2P Require Import WriterLease.
From S2P Require Import CommandContract.
From stdpp Require Import base list strings gmap.
Local Open Scope Z_scope.

(** ** The system *)

(** Where [_serve] is. *)
Inductive Phase :=
| Standby
| Commanding (renewed_at : float)
| Leaving
| Ended.

(** A Scheduler process: its lease, its phase and the calls its threads make.  A
    renewal under way is not stopped by the end of the dispatcher.  Ghost state: the
    uid of the Lease object its epoch is a count of. *)
Record Proc := {
  pr_lease : WriterLease;
  pr_phase : Phase;
  pr_acquiring : option (Prog (WriterLease * option Z));
  pr_renewing : option (Prog bool);
  pr_releasing : option (Prog unit);
  pr_taken : option string;
}.

Definition started (lease : WriterLease) : Proc :=
  {| pr_lease := lease; pr_phase := Standby; pr_acquiring := None; pr_renewing := None;
     pr_releasing := None; pr_taken := None |}.

(** The process after a move of its acquire, which left the Lease object [uid]. *)
Definition after_acquire (pr : Proc) (uid : option string) (monotonic : float)
    (p : Prog (WriterLease * option Z)) : Proc :=
  match p with
  | Ret (lease, Some _) =>
      {| pr_lease := lease; pr_phase := Commanding monotonic; pr_acquiring := None;
         pr_renewing := pr_renewing pr; pr_releasing := pr_releasing pr;
         pr_taken := uid |}
  | Ret (lease, None) =>
      {| pr_lease := lease; pr_phase := Standby; pr_acquiring := None;
         pr_renewing := pr_renewing pr; pr_releasing := pr_releasing pr;
         pr_taken := pr_taken pr |}
  | Throw _ =>
      {| pr_lease := pr_lease pr; pr_phase := Ended; pr_acquiring := None;
         pr_renewing := pr_renewing pr; pr_releasing := pr_releasing pr;
         pr_taken := pr_taken pr |}
  | p =>
      {| pr_lease := pr_lease pr; pr_phase := pr_phase pr; pr_acquiring := Some p;
         pr_renewing := pr_renewing pr; pr_releasing := pr_releasing pr;
         pr_taken := pr_taken pr |}
  end.

Definition with_phase (pr : Proc) (phase : Phase) (renewing : option (Prog bool))
    (releasing : option (Prog unit)) : Proc :=
  {| pr_lease := pr_lease pr; pr_phase := phase; pr_acquiring := pr_acquiring pr;
     pr_renewing := renewing; pr_releasing := releasing; pr_taken := pr_taken pr |}.

(** The phase the outcome of a renewal leads to. *)
Definition kept_phase (phase : Phase) (monotonic : float) (held : result bool) : Phase :=
  match phase with
  | Commanding renewed_at =>
      match keep_writer_lease renewed_at monotonic held with
      | Keep renewed_at => Commanding renewed_at
      | Supersede | StopUnproven => Leaving
      end
  | phase => phase
  end.

Definition after_renew (pr : Proc) (monotonic : float) (p : Prog bool) : Proc :=
  match p with
  | Ret held => with_phase pr (kept_phase (pr_phase pr) monotonic (Ok held)) None (pr_releasing pr)
  | Throw e => with_phase pr (kept_phase (pr_phase pr) monotonic (Raise e)) None (pr_releasing pr)
  | p => with_phase pr (pr_phase pr) (Some p) (pr_releasing pr)
  end.

Definition after_release (pr : Proc) (p : Prog unit) : Proc :=
  match p with
  | Ret _ | Throw _ => with_phase pr Ended (pr_renewing pr) None
  | p => with_phase pr (pr_phase pr) (pr_renewing pr) (Some p)
  end.

(** A command that a Node Agent accepted: the Lease object its view named, the one the
    Scheduler had taken, and the epoch. *)
Record Acceptance := { ac_view : option string; ac_taken : option string; ac_epoch : Z }.

(** A Node Agent: how far it has seen the Lease, its view of it, its floor, and
    ghost state, every command it accepted. *)
Record Agent := {
  ag_seen : nat;
  ag_view : option LeaseEpoch;
  ag_floor : WriterEpochFloor;
  ag_accepted : list Acceptance;
}.

(** [WriterLeaseView._publish]. *)
Definition observation (o : option Lease) : option LeaseEpoch :=
  (λ l, {| le_uid := lease_uid l; le_transitions := transitions_of (lease_spec l) |}) <$> o.

Section System.
Context `{srv : !LeaseServer}.

Record System := {
  sy_store : Store;
  sy_procs : gmap nat Proc;
  sy_agents : gmap string Agent;
  (** Every state of the Lease so far, the oldest first. *)
  sy_history : list (option LeaseEpoch);
}.

(** One call, or one reading of the clock, of a program. *)
Inductive prog_step {A} : Store → Prog A → Store → Prog A → Prop :=
| step_call s c k a s' : perform s c a s' → prog_step s (Call c k) s' (k a)
| step_now s k t : prog_step s (Now k) s (k t).

Inductive proc_step (s : Store) (pr : Proc) : Store → Proc → Prop :=
| begin_acquire :
    pr_phase pr = Standby → pr_acquiring pr = None →
    proc_step s pr s
      {| pr_lease := pr_lease pr; pr_phase := Standby;
         pr_acquiring := Some (try_acquire (pr_lease pr)); pr_renewing := pr_renewing pr;
         pr_releasing := pr_releasing pr; pr_taken := pr_taken pr |}
| acquire p s' p' monotonic :
    pr_acquiring pr = Some p → prog_step s p s' p' →
    proc_step s pr s' (after_acquire pr (lease_uid <$> ls_lease (known s')) monotonic p')
| begin_renew renewed_at :
    pr_phase pr = Commanding renewed_at → pr_renewing pr = None →
    proc_step s pr s (with_phase pr (pr_phase pr) (Some (renew (pr_lease pr))) (pr_releasing pr))
| renewal p s' p' monotonic :
    pr_renewing pr = Some p → prog_step s p s' p' →
    proc_step s pr s' (after_renew pr monotonic p')
| stop_dispatching renewed_at :
    pr_phase pr = Commanding renewed_at →
    proc_step s pr s (with_phase pr Leaving (pr_renewing pr) (pr_releasing pr))
| begin_release :
    pr_phase pr = Leaving → pr_releasing pr = None →
    proc_step s pr s (after_release pr (release (pr_lease pr)))
| releasing p s' p' :
    pr_releasing pr = Some p → prog_step s p s' p' →
    proc_step s pr s' (after_release pr p').

(** The command of a writer at the [epoch] it took of an object, at a Node Agent. *)
Definition commanded (ag : Agent) (taken : option string) (epoch : Z) : Agent :=
  let '(floor, answer) := admit_writer (Ok (ag_view ag)) (ag_floor ag) epoch in
  {| ag_seen := ag_seen ag; ag_view := ag_view ag; ag_floor := floor;
     ag_accepted :=
       if is_Ok answer
       then {| ac_view := fl_lease_uid floor; ac_taken := taken; ac_epoch := epoch |} :: ag_accepted ag
       else ag_accepted ag |}.

Definition with_procs (sy : System) (store : Store) (procs : gmap nat Proc) : System :=
  {| sy_store := store; sy_procs := procs; sy_agents := sy_agents sy;
     sy_history := sy_history sy ++ [observation (ls_lease (known store))] |}.

Definition with_agent (sy : System) (a : string) (ag : Agent) : System :=
  {| sy_store := sy_store sy; sy_procs := sy_procs sy; sy_agents := <[a := ag]> (sy_agents sy);
     sy_history := sy_history sy |}.

(** A Node Agent that starts, or restarts: the first LIST answers what is stored
    before it serves a command. *)
Definition listed (sy : System) (accepted : list Acceptance) : Agent :=
  {| ag_seen := pred (length (sy_history sy)); ag_view := observation (ls_lease (known (sy_store sy)));
     ag_floor := no_floor; ag_accepted := accepted |}.

Inductive step (sy : System) : System → Prop :=
| start_scheduler i session_id instance lease :
    sy_procs sy !! i = None → new_writer_lease session_id instance = Ok lease →
    (∀ j pr, sy_procs sy !! j = Some pr → wl_holder (pr_lease pr) ≠ wl_holder lease) →
    step sy (with_procs sy (sy_store sy) (<[i := started lease]> (sy_procs sy)))
| scheduler i pr store pr' :
    sy_procs sy !! i = Some pr → proc_step (sy_store sy) pr store pr' →
    step sy (with_procs sy store (<[i := pr']> (sy_procs sy)))
| start_agent a :
    step sy (with_agent sy a (listed sy (default [] (ag_accepted <$> sy_agents sy !! a))))
| observe a ag n view :
    sy_agents sy !! a = Some ag → (ag_seen ag ≤ n)%nat → sy_history sy !! n = Some view →
    step sy (with_agent sy a {| ag_seen := n; ag_view := view; ag_floor := ag_floor ag;
                                ag_accepted := ag_accepted ag |})
| command i pr epoch a ag :
    sy_procs sy !! i = Some pr → wl_epoch (pr_lease pr) = Some epoch → sy_agents sy !! a = Some ag →
    step sy (with_agent sy a (commanded ag (pr_taken pr) epoch))
| lease_is_deleted store :
    deletion (sy_store sy) store → step sy (with_procs sy store (sy_procs sy)).

(** A system before any Scheduler ran: the Lease does not exist. *)
Definition initial (s : Store) : System :=
  {| sy_store := s; sy_procs := ∅; sy_agents := ∅; sy_history := [None] |}.

Definition reachable (sy : System) : Prop :=
  ∃ s, ls_lease (known s) = None ∧ rtc step (initial s) sy.

(** ** The invariant *)

Definition sy_known (sy : System) : LeaseState := known (sy_store sy).
Definition sy_lease (sy : System) : option Lease := ls_lease (sy_known sy).
Definition epoch_of (pr : Proc) : option Z := wl_epoch (pr_lease pr).
Definition holder_of (pr : Proc) : string := wl_holder (pr_lease pr).

(** An epoch of the object [u]: given out by it, so not above its count. *)
Definition given (o : LeaseState) (u : string) (e : Z) : Prop :=
  u ∈ ls_uids o ∧ 1 ≤ e ∧
  ∀ l, ls_lease o = Some l → lease_uid l = u → e ≤ transitions_of (lease_spec l).

Lemma given_evolves o o' u e : evolves o o' → given o u e → given o' u e.
Proof.
  intros Hev (Hu & H1 & Hl). split_and!; [by apply Hev|done|]. intros l' E' <-.
  destruct (evolves_known _ _ _ Hev E' Hu) as (l & E & Hsame & _ & _ & Hc).
  specialize (Hl l E (eq_sym Hsame)). lia.
Qed.

(** A call under way is safe, and only a Scheduler with no epoch acquires. *)
Record proc_ok (o : LeaseState) (pr : Proc) : Prop := {
  po_acquiring p : pr_acquiring pr = Some p →
    settled p = false ∧ safe (take_step (holder_of pr)) (acquired (pr_lease pr)) o o p;
  po_renewing p : pr_renewing pr = Some p →
    settled p = false ∧ safe (keep_step (holder_of pr)) (λ _ _ _, True) o o p;
  po_releasing p : pr_releasing pr = Some p →
    settled p = false ∧ safe (keep_step (holder_of pr)) (λ _ _ _, True) o o p;
  po_standby : pr_phase pr = Standby → epoch_of pr = None;
  po_acquirer : pr_acquiring pr ≠ None → pr_phase pr = Standby;
  po_releaser : pr_releasing pr ≠ None → pr_phase pr ≠ Standby;
  po_taken e : epoch_of pr = Some e → ∃ u, pr_taken pr = Some u ∧ given o u e;
  po_holder e : epoch_of pr = Some e → lease_holder o = Some (holder_of pr) →
    lease_uid <$> ls_lease o = pr_taken pr ∧ lease_count o = e;
}.

Record procs_ok (sy : System) : Prop := {
  pi_known : lease_ok (sy_known sy);
  pi_count : 0 ≤ lease_count (sy_known sy);
  pi_proc i pr : sy_procs sy !! i = Some pr → proc_ok (sy_known sy) pr;
  pi_epochs i j pr qr e : sy_procs sy !! i = Some pr → sy_procs sy !! j = Some qr →
    pr_taken pr = pr_taken qr → epoch_of pr = Some e → epoch_of qr = Some e → i = j;
  pi_holders i j pr qr : sy_procs sy !! i = Some pr → sy_procs sy !! j = Some qr →
    holder_of pr = holder_of qr → i = j;
}.

(** ** Schedulers *)

Lemma prog_step_safe {A} G `{!Reflexive G} Q s (p : Prog A) s' p' :
  lease_ok (known s) → safe G Q (known s) (known s) p → prog_step s p s' p' →
  lease_ok (known s') ∧ G (known s) (known s') ∧ safe G Q (known s) (known s') p'.
Proof.
  intros Hok Hs Hst. revert Hs. destruct Hst as [s c k a s' Hp|s k t]; cbn; intros Hs.
  - split; [by eapply perform_ok|]. by apply Hs.
  - split_and!; [done..|]. by apply Hs.
Qed.

Lemma safe_pending {A} G Q o0 o (p : Prog A) :
  settled p = false → safe G Q o0 o p → settled p = false ∧ safe G Q o o p.
Proof. intros Hp Hs. split; [done|]. by eapply safe_stable. Qed.

(** The Lease names [h] only where it named it, as it was. *)
Definition names_as_before (h : string) (o o' : LeaseState) : Prop :=
  lease_holder o' = Some h → lease_holder o = Some h ∧
    lease_uid <$> ls_lease o' = lease_uid <$> ls_lease o ∧ lease_count o' = lease_count o.

Lemma keep_step_names h o o' : keep_step h o o' → names_as_before h o o'.
Proof. by intros [->|(E & _ & Hc & Hu & _)]. Qed.

(** A Lease that moves on leaves a process in order when it does not come to name it. *)
Lemma proc_ok_evolves o o' pr :
  evolves o o' → names_as_before (holder_of pr) o o' → proc_ok o pr → proc_ok o' pr.
Proof.
  intros Hev Hnames [Ha Hr Hl Hst Hac Hre Hb Hh].
  split; [| | |done|done|done| |].
  - intros p [? ?]%Ha. split; [done|]. by eapply safe_stable.
  - intros p [? ?]%Hr. split; [done|]. by eapply safe_stable.
  - intros p [? ?]%Hl. split; [done|]. by eapply safe_stable.
  - intros e (u & ? & ?)%Hb. exists u. split; [done|]. by eapply given_evolves.
  - intros e He (E & -> & ->)%Hnames. by apply Hh.
Qed.

Lemma others_names h h' o o' :
  h' ≠ h → take_step h o o' ∨ keep_step h o o' → names_as_before h' o o'.
Proof.
  intros Hne [[->|(E & _)]|[->|(_ & [E|E] & _)]] E'; [done| |done|..]; rewrite E in E'; congruence.
Qed.

(** A process in order with other calls of its own. *)
Lemma proc_ok_keep o o' pr phase renewing releasing :
  proc_ok o pr → keep_step (holder_of pr) o o' →
  (phase = Standby → pr_phase pr = Standby) → (pr_phase pr = Standby → phase = Standby) →
  (∀ p, renewing = Some p → settled p = false ∧ safe (keep_step (holder_of pr)) (λ _ _ _, True) o' o' p) →
  (∀ p, releasing = Some p → settled p = false ∧ safe (keep_step (holder_of pr)) (λ _ _ _, True) o' o' p) →
  (releasing ≠ None → pr_phase pr ≠ Standby) →
  proc_ok o' (with_phase pr phase renewing releasing).
Proof.
  intros Hok Hk Hp1 Hp2 Hren Hrel Hrp.
  destruct (proc_ok_evolves o o' pr) as [Ha Hr Hl Hst Hac Hre Hb Hh];
    [by eapply keep_step_evolves|by apply keep_step_names|done|].
  split; cbn; [exact Ha|exact Hren|exact Hrel| | | |exact Hb|exact Hh].
  - intros E. apply Hst, Hp1, E.
  - intros E. apply Hp2, Hac, E.
  - intros E Hs. apply (Hrp E), Hp1, Hs.
Qed.

(** What a process did: its Lease moved as its method may, and an epoch it has
    that it did not have is the new count of the stored object. *)
Record proc_moved (o o' : LeaseState) (pr pr' : Proc) : Prop := {
  pm_known : lease_ok o';
  pm_lease : take_step (holder_of pr) o o' ∨ keep_step (holder_of pr) o o';
  pm_holder : holder_of pr' = holder_of pr;
  pm_ok : proc_ok o' pr';
  pm_epoch : (epoch_of pr' = epoch_of pr ∧ pr_taken pr' = pr_taken pr) ∨
    ∃ e l, epoch_of pr' = Some e ∧ ls_lease o' = Some l ∧ pr_taken pr' = Some (lease_uid l) ∧
           lease_count o < e;
}.

Lemma kept_standby phase m held : kept_phase phase m held = Standby ↔ phase = Standby.
Proof. destruct phase; cbn; [done| |done..]. by destruct (keep_writer_lease _ _ _). Qed.

Lemma moved_keep o o' pr phase renewing releasing :
  lease_ok o' → proc_ok o pr → keep_step (holder_of pr) o o' →
  (phase = Standby ↔ pr_phase pr = Standby) →
  (∀ p, renewing = Some p → settled p = false ∧ safe (keep_step (holder_of pr)) (λ _ _ _, True) o' o' p) →
  (∀ p, releasing = Some p → settled p = false ∧ safe (keep_step (holder_of pr)) (λ _ _ _, True) o' o' p) →
  (releasing ≠ None → pr_phase pr ≠ Standby) →
  proc_moved o o' pr (with_phase pr phase renewing releasing).
Proof.
  intros Hkn Hok Hk Hp Hren Hrel Hrp. split; [done|by right|done| |by left].
  apply (proc_ok_keep o); try done; apply Hp.
Qed.

Lemma keep_stable {A} h o o' (c : option (Prog A)) :
  keep_step h o o' →
  (∀ p, c = Some p → settled p = false ∧ safe (keep_step h) (λ _ _ _, True) o o p) →
  ∀ p, c = Some p → settled p = false ∧ safe (keep_step h) (λ _ _ _, True) o' o' p.
Proof.
  intros Hk Hc p [? ?]%Hc. split; [done|]. eapply safe_stable; [done| |done].
  by eapply keep_step_evolves.
Qed.

(** A move of an acquire. *)
Lemma acquire_moved o o' pr p' monotonic :
  0 ≤ lease_count o → lease_ok o' → proc_ok o pr → pr_acquiring pr ≠ None →
  take_step (holder_of pr) o o' →
  safe (take_step (holder_of pr)) (acquired (pr_lease pr)) o o' p' →
  proc_moved o o' pr (after_acquire pr (lease_uid <$> ls_lease o') monotonic p').
Proof.
  intros H0 Hkn [Ha Hr Hl Hst Hac Hre Hb Hh] Hp Ht Hs. pose proof (take_step_evolves _ _ _ Ht) as Hev.
  assert (epoch_of pr = None) as He by (apply Hst, Hac, Hp).
  assert (¬ pr_releasing pr ≠ None) as Hno by (intros E; by apply (Hre E), Hac).
  assert (∀ {A} (c : option (Prog A)),
    (∀ p, c = Some p → settled p = false ∧ safe (keep_step (holder_of pr)) (λ _ _ _, True) o o p) →
    ∀ p, c = Some p → settled p = false ∧ safe (keep_step (holder_of pr)) (λ _ _ _, True) o' o' p)
    as Hc by (intros A c Hc p [? ?]%Hc; split; [done|]; by eapply safe_stable).
  assert (∀ phase acquiring, (acquiring ≠ None → phase = Standby) →
    (∀ p, acquiring = Some p → settled p = false ∧
       safe (take_step (holder_of pr)) (acquired (pr_lease pr)) o' o' p) →
    proc_moved o o' pr {| pr_lease := pr_lease pr; pr_phase := phase; pr_acquiring := acquiring;
                          pr_renewing := pr_renewing pr; pr_releasing := pr_releasing pr;
                          pr_taken := pr_taken pr |}) as Hsame.
  { intros phase acquiring Hph Hacq. split; [done|by left|done| |by left].
    split; cbn; [exact Hacq|by apply Hc|by apply Hc|done|exact Hph|done| |]; unfold epoch_of; cbn;
      fold (epoch_of pr); rewrite He; done. }
  destruct p' as [[l [e|]]|e|k|c k].
  - destruct Hs as (El & Hlt & Hce & Hho). cbn in El. subst l.
    assert (∃ l, ls_lease o' = Some l) as [l E].
    { unfold lease_holder in Hho. destruct (ls_lease o') as [l|]; [by exists l|done]. }
    assert (lease_count o' = transitions_of (lease_spec l)) as El by (unfold lease_count; by rewrite E).
    split; [done|by left|done| |right; exists e, l; cbn; rewrite E; split_and!; done].
    split; cbn; [done|by apply Hc|by apply Hc|done|done|done| |].
    + intros ? [= <-]. exists (lease_uid l). rewrite E. split; [done|].
      split_and!; [by apply Hkn|lia|]. intros l' E' _. rewrite E in E'. injection E' as <-. lia.
    + by intros ? [= <-].
  - cbn in Hs. unfold acquired in Hs. cbn in Hs. subst l. by apply Hsame.
  - by apply Hsame.
  - apply Hsame; [intros _; by apply Hac|]. intros ? [= <-]. by apply (safe_pending _ _ o).
  - apply Hsame; [intros _; by apply Hac|]. intros ? [= <-]. by apply (safe_pending _ _ o).
Qed.

Lemma proc_step_moved s pr s' pr' :
  lease_ok (known s) → 0 ≤ lease_count (known s) → proc_ok (known s) pr → proc_step s pr s' pr' →
  proc_moved (known s) (known s') pr pr'.
Proof.
  intros Hkn H0 Hok Hstep. pose proof Hok as [Ha Hr Hl Hst Hac Hre Hb Hh].
  destruct Hstep as [Hph Hnone|p s' p' m Ep Hp|renewed_at Hph Hnone|p s' p' m Ep Hp|renewed_at Hph
                    |Hph Hnone|p s' p' Ep Hp].
  - split; [done|by left|done| |by left]. split; cbn; try done.
    + intros ? [= <-]. split; [done|]. apply safe_try_acquire.
    + intros _. by apply Hst.
    + intros E _. by apply (Hre E).
  - destruct (Ha p Ep) as [_ Hs]. destruct (prog_step_safe _ _ _ _ _ _ Hkn Hs Hp) as (Hkn' & Hg & Hs').
    apply acquire_moved; try done. by rewrite Ep.
  - apply moved_keep; try done. intros ? [= <-]. split; [done|]. apply safe_renew.
  - destruct (Hr p Ep) as [_ Hs]. destruct (prog_step_safe _ _ _ _ _ _ Hkn Hs Hp) as (Hkn' & Hg & Hs').
    destruct p' as [x|e|k|c k]; (apply moved_keep; [done|done|done| | |by apply (keep_stable _ (known s))|done]);
      try done; try apply kept_standby; intros ? [= <-]; by apply (safe_pending _ _ (known s)).
  - apply moved_keep; try done. rewrite Hph. done.
  - unfold after_release. pose proof (safe_release (pr_lease pr) (known s) (known s)) as Hs.
    destruct (release (pr_lease pr)) as [x|e|k|c k]; (apply moved_keep; [done|done|done| |done| |by rewrite Hph]);
      try done; try (rewrite Hph; done); intros ? [= <-]; by apply (safe_pending _ _ (known s)).
  - destruct (Hl p Ep) as [_ Hs]. destruct (prog_step_safe _ _ _ _ _ _ Hkn Hs Hp) as (Hkn' & Hg & Hs').
    destruct p' as [x|e|k|c k]; (apply moved_keep; [done|done|done| |by apply (keep_stable _ (known s))| |]);
      try done; try (intros _; apply Hre; by rewrite Ep);
      try (split; [done|intros E; by destruct (Hre ltac:(by rewrite Ep))]);
      intros ? [= <-]; by apply (safe_pending _ _ (known s)).
Qed.

Lemma moved_evolves o o' pr pr' : proc_moved o o' pr pr' → evolves o o'.
Proof. intros [_ [H|H] _ _ _]; [by eapply take_step_evolves|by eapply keep_step_evolves]. Qed.

Lemma moved_count o o' pr pr' : 0 ≤ lease_count o → proc_moved o o' pr pr' → 0 ≤ lease_count o'.
Proof. intros H0 [_ [[->|(_ & Hc & _)]|[->|(_ & _ & Hc & _)]] _ _ _]; lia. Qed.

(** An epoch that was just taken is above all that its object gave out before. *)
Lemma moved_fresh o o' pr pr' qr e :
  proc_moved o o' pr pr' → proc_ok o qr → epoch_of qr = Some e → epoch_of pr' = Some e →
  pr_taken pr' = pr_taken qr → epoch_of pr = Some e ∧ pr_taken pr = pr_taken qr.
Proof.
  intros Hm Hq Eq Ep Et. pose proof (moved_evolves _ _ _ _ Hm) as Hev.
  destruct (pm_epoch _ _ _ _ Hm) as [[E Eu]|(e' & l & E & El & Eu & Hlt)]; [split; congruence|].
  destruct (po_taken _ _ Hq e Eq) as (u & Hu & Hin & _ & Hle).
  assert (lease_uid l = u) as Hlu by congruence.
  destruct (evolves_known _ _ l Hev El) as (l0 & E0 & Hsame & _); [by rewrite Hlu|].
  specialize (Hle l0 E0 ltac:(congruence)). unfold lease_count in Hlt. rewrite E0 in Hlt.
  assert (e' = e) as -> by congruence. lia.
Qed.

(** A step of one process among the others. *)
Lemma procs_ok_scheduler sy i pr store pr' :
  procs_ok sy → sy_procs sy !! i = Some pr → proc_moved (sy_known sy) (known store) pr pr' →
  procs_ok (with_procs sy store (<[i := pr']> (sy_procs sy))).
Proof.
  intros [Hkn H0 Hp He Hh] Hi Hm. pose proof (moved_evolves _ _ _ _ Hm) as Hev.
  assert (∀ j qr, i ≠ j → sy_procs sy !! j = Some qr → holder_of qr ≠ holder_of pr) as Hne
    by (intros j qr Hij Hj E; by apply Hij, (Hh i j pr qr)).
  assert (∀ j qr e, i ≠ j → sy_procs sy !! j = Some qr → epoch_of qr = Some e →
    epoch_of pr' = Some e → pr_taken pr' = pr_taken qr → False) as Hnew.
  { intros j qr e Hij Hj Eq Ep Et.
    destruct (moved_fresh _ _ _ _ qr e Hm (Hp j qr Hj) Eq Ep Et) as [E Eu].
    by apply Hij, (He i j pr qr e). }
  split; unfold sy_known; cbn.
  - by destruct Hm.
  - by eapply moved_count.
  - intros j qr [[-> <-]|[Hij Hj]]%lookup_insert_Some; [by destruct Hm|].
    eapply proc_ok_evolves; [exact Hev| |by apply (Hp j)].
    eapply others_names; [by apply (Hne j qr)|]. apply (pm_lease _ _ _ _ Hm).
  - intros j k qr rr e [[-> <-]|[Hij Hj]]%lookup_insert_Some
      [[-> <-]|[Hik Hk]]%lookup_insert_Some Et Ej Ek; [done| | |by eapply He].
    + by destruct (Hnew k rr e).
    + by destruct (Hnew j qr e).
  - pose proof (pm_holder _ _ _ _ Hm) as Hho.
    intros j k qr rr [[-> <-]|[Hij Hj]]%lookup_insert_Some
      [[-> <-]|[Hik Hk]]%lookup_insert_Some E; [done| | |by eapply Hh].
    + destruct (Hne k rr Hik Hk). congruence.
    + destruct (Hne j qr Hij Hj). congruence.
Qed.

Lemma procs_ok_start sy i lease :
  procs_ok sy → sy_procs sy !! i = None → wl_epoch lease = None →
  (∀ j pr, sy_procs sy !! j = Some pr → holder_of pr ≠ wl_holder lease) →
  procs_ok (with_procs sy (sy_store sy) (<[i := started lease]> (sy_procs sy))).
Proof.
  intros [Hkn H0 Hp He Hh] Hi Hnone Hfresh.
  assert (epoch_of (started lease) = None) as Hep by done. split; unfold sy_known; cbn.
  - exact Hkn.
  - exact H0.
  - intros j qr [[-> <-]|[Hij Hj]]%lookup_insert_Some; [|by apply (Hp j)].
    split; try done; intros ?; by rewrite Hep.
  - intros j k qr rr e [[-> <-]|[Hij Hj]]%lookup_insert_Some
      [[-> <-]|[Hik Hk]]%lookup_insert_Some Et Ej Ek; [done|congruence..|by eapply He].
  - intros j k qr rr [[-> <-]|[Hij Hj]]%lookup_insert_Some
      [[-> <-]|[Hik Hk]]%lookup_insert_Some E; [done| | |by eapply Hh].
    + by destruct (Hfresh k rr Hk).
    + by destruct (Hfresh j qr Hj).
Qed.

Lemma procs_ok_deleted sy store :
  procs_ok sy → known store = lease_deleted (sy_known sy) →
  procs_ok (with_procs sy store (sy_procs sy)).
Proof.
  intros [Hkn H0 Hp He Hh] E. split; unfold sy_known; cbn; rewrite ?E; [|done| |exact He|exact Hh].
  - apply deleted_ok.
  - intros i pr Hi. eapply proc_ok_evolves; [apply deleted_evolves|by intros ?|by apply (Hp i)].
Qed.

(** ** Node Agents *)

(** The observation [x] is of the Lease object [u]. *)
Definition of_object (u : string) (x : option LeaseEpoch) : Prop := le_uid <$> x = Some u.

(** The count an observation names. *)
Definition view_count (x : option LeaseEpoch) : Z :=
  match x with Some l => le_transitions l | None => 0 end.

Lemma view_count_observation o : view_count (observation (ls_lease o)) = lease_count o.
Proof. unfold lease_count. by destruct (ls_lease o). Qed.

Lemma of_object_lease u o : of_object u (observation o) ↔ ∃ l, o = Some l ∧ lease_uid l = u.
Proof.
  unfold of_object. destruct o as [l|]; cbn; [|naive_solver]. split; [intros [= <-]; eauto|].
  by intros (? & [= <-] & ->).
Qed.

(** A Lease object is seen in one stretch of the history, at counts that do not
    fall. *)
Definition unbroken (h : list (option LeaseEpoch)) : Prop :=
  ∀ n k m u x z, (n ≤ k ≤ m)%nat → h !! n = Some x → h !! m = Some z →
    of_object u x → of_object u z →
    ∃ y, h !! k = Some y ∧ of_object u y ∧ view_count x ≤ view_count y ≤ view_count z.

(** The lowest epoch a Node Agent accepts now. *)
Definition agent_floor (ag : Agent) : Z := lowest (rebase (ag_floor ag) (ag_view ag)) (ag_view ag).

(** The epoch a Node Agent remembers is one it accepted, and what it accepted from a
    Scheduler that had taken the object it saw still binds it while it sees it. *)
Record agent_ok (o : LeaseState) (h : list (option LeaseEpoch)) (ag : Agent) : Prop := {
  ak_seen : h !! ag_seen ag = Some (ag_view ag);
  ak_given x : x ∈ ag_accepted ag → ∃ u, ac_taken x = Some u ∧ given o u (ac_epoch x);
  ak_floor : fl_accepted (ag_floor ag) = 0 ∨
    ∃ x, x ∈ ag_accepted ag ∧ ac_epoch x = fl_accepted (ag_floor ag);
  ak_fenced x u : x ∈ ag_accepted ag → ac_view x = Some u → ac_taken x = Some u →
    (∃ n y, (n ≤ ag_seen ag)%nat ∧ h !! n = Some y ∧ of_object u y) ∧
    (of_object u (ag_view ag) → ac_epoch x ≤ agent_floor ag);
}.

Record agents_ok (sy : System) : Prop := {
  ai_history : unbroken (sy_history sy);
  ai_last : last (sy_history sy) = Some (observation (sy_lease sy));
  ai_uids n y u : sy_history sy !! n = Some y → of_object u y → u ∈ ls_uids (sy_known sy);
  ai_agent a ag : sy_agents sy !! a = Some ag → agent_ok (sy_known sy) (sy_history sy) ag;
}.

Lemma rebase_uid floor view : fl_lease_uid (rebase floor view) = le_uid <$> view.
Proof. unfold rebase. by case_bool_decide. Qed.

Lemma rebase_same floor view : fl_lease_uid floor = le_uid <$> view → rebase floor view = floor.
Proof. intros E. unfold rebase. by rewrite bool_decide_true. Qed.

Lemma rebase_accepted floor view :
  fl_accepted (rebase floor view) = 0 ∨ rebase floor view = floor.
Proof. unfold rebase. case_bool_decide; [by right|by left]. Qed.

(** A view that moves on within one Lease object does not lower the floor. *)
Lemma floor_view ag view seen :
  le_uid <$> view = le_uid <$> ag_view ag → view_count (ag_view ag) ≤ view_count view →
  agent_floor ag ≤ agent_floor {| ag_seen := seen; ag_view := view; ag_floor := ag_floor ag;
                                  ag_accepted := ag_accepted ag |}.
Proof.
  intros Hu Hv. unfold agent_floor, rebase, lowest. cbn. rewrite Hu.
  fold (view_count (ag_view ag)) (view_count view). lia.
Qed.

Lemma agent_ok_evolves o o' h t ag : evolves o o' → agent_ok o h ag → agent_ok o' (h ++ t) ag.
Proof.
  intros Hev [Hs Hg Hfl Hfe]. split; [by apply lookup_app_l_Some| |done|].
  - intros x (u & ? & ?)%Hg. exists u. split; [done|]. by eapply given_evolves.
  - intros x u Hx E1 E2. destruct (Hfe x u Hx E1 E2) as [(n & y & Hn & Hy & Ho) Hle].
    split; [|done]. exists n, y. split_and!; [done|by apply lookup_app_l_Some|done].
Qed.

Lemma commanded_floor ag taken epoch :
  agent_floor ag ≤ agent_floor (commanded ag taken epoch) ∧
  (is_Ok (admit_writer (Ok (ag_view ag)) (ag_floor ag) epoch).2 = true →
   epoch ≤ agent_floor (commanded ag taken epoch)).
Proof.
  unfold commanded, admit_writer. fold (agent_floor ag).
  pose proof (rebase_uid (ag_floor ag) (ag_view ag)) as Hru.
  destruct (Z.ltb_spec epoch (agent_floor ag)) as [Hlt|Hge]; cbn.
  - split; [|done]. unfold agent_floor. cbn. by rewrite (rebase_same (rebase _ _)).
  - unfold agent_floor in *. cbn. set (f1 := rebase (ag_floor ag) (ag_view ag)) in *.
    rewrite (rebase_same {| fl_lease_uid := fl_lease_uid f1; fl_accepted := fl_accepted f1 `max` epoch |})
      by exact Hru.
    unfold lowest in *. cbn. lia.
Qed.

(** What a command leaves: the view, an epoch more or none, and the epoch remembered. *)
Lemma commanded_shape ag taken epoch :
  let ag' := commanded ag taken epoch in
  ag_seen ag' = ag_seen ag ∧ ag_view ag' = ag_view ag ∧
  ((ag_accepted ag' = ag_accepted ag ∧
    fl_accepted (ag_floor ag') = fl_accepted (rebase (ag_floor ag) (ag_view ag))) ∨
   (ag_accepted ag' = {| ac_view := le_uid <$> ag_view ag; ac_taken := taken; ac_epoch := epoch |}
                        :: ag_accepted ag ∧
    is_Ok (admit_writer (Ok (ag_view ag)) (ag_floor ag) epoch).2 = true ∧
    fl_accepted (ag_floor ag') = fl_accepted (rebase (ag_floor ag) (ag_view ag)) `max` epoch)).
Proof.
  unfold commanded, admit_writer. destruct (epoch <? _); cbn; [by auto|].
  split_and!; [done..|right]. by rewrite rebase_uid.
Qed.

Lemma commanded_ok o h ag u epoch :
  given o u epoch → agent_ok o h ag → agent_ok o h (commanded ag (Some u) epoch).
Proof.
  intros Hgiven [Hs Hg Hfl Hfe].
  destruct (commanded_floor ag (Some u) epoch) as [Hfloor Hnew].
  destruct (commanded_shape ag (Some u) epoch) as (Es & Ev & Hacc).
  assert (fl_accepted (rebase (ag_floor ag) (ag_view ag)) = 0 ∨
    ∃ x, x ∈ ag_accepted ag ∧ ac_epoch x = fl_accepted (rebase (ag_floor ag) (ag_view ag))) as Hre.
  { destruct (rebase_accepted (ag_floor ag) (ag_view ag)) as [E| ->]; [by left|done]. }
  assert (∀ x v, x ∈ ag_accepted ag → ac_view x = Some v → ac_taken x = Some v →
    (∃ n y, (n ≤ ag_seen (commanded ag (Some u) epoch))%nat ∧ h !! n = Some y ∧ of_object v y) ∧
    (of_object v (ag_view (commanded ag (Some u) epoch)) →
     ac_epoch x ≤ agent_floor (commanded ag (Some u) epoch))) as Hold.
  { intros x v Hx E1 E2. destruct (Hfe x v Hx E1 E2) as [Hsaw Hle]. rewrite Es, Ev.
    split; [done|]. intros Hv%Hle. lia. }
  split; [by rewrite Es, Ev|..]; destruct Hacc as [[-> Hf]|(-> & Hok & Hf)]; try done.
  - intros x [->|Hx]%elem_of_cons; [by exists u|by apply Hg].
  - by rewrite Hf.
  - rewrite Hf. destruct Hre as [E|(x & Hx & E)].
    + rewrite E. right. eexists. split; [by left|]. cbn. destruct Hgiven as (_ & ? & _). lia.
    + right. destruct (Z.max_spec (fl_accepted (rebase (ag_floor ag) (ag_view ag))) epoch) as [[_ ->]|[_ ->]];
        [by eexists; split; [left|]|exists x; split; [by right|done]].
  - intros x v [->|Hx]%elem_of_cons; [|by apply Hold]. cbn. intros Eu _. rewrite Es, Ev. split; [|auto].
    by exists (ag_seen ag), (ag_view ag).
Qed.

(** A view that moves on along the history. *)
Lemma observed_ok o h ag n view :
  unbroken h → (ag_seen ag ≤ n)%nat → h !! n = Some view → agent_ok o h ag →
  agent_ok o h {| ag_seen := n; ag_view := view; ag_floor := ag_floor ag;
                  ag_accepted := ag_accepted ag |}.
Proof.
  intros Hh Hn Hv [Hs Hg Hfl Hfe]. split; cbn; [done..|]. intros x u Hx E1 E2.
  destruct (Hfe x u Hx E1 E2) as [(n0 & y0 & Hn0 & Hy0 & Ho0) Hle]. split; [exists n0, y0; split_and!; [lia|done..]|].
  intros Hu. destruct (Hh n0 (ag_seen ag) n u y0 view) as (y & Hy & Hyu & _ & Hc); [lia|done..|].
  rewrite Hs in Hy. injection Hy as <-. etrans; [by apply Hle|]. apply floor_view; [|done].
  unfold of_object in *. congruence.
Qed.

(** A Node Agent that starts, or restarts. *)
Lemma listed_ok sy a :
  agents_ok sy →
  agent_ok (sy_known sy) (sy_history sy)
    (listed sy (default [] (ag_accepted <$> sy_agents sy !! a))).
Proof.
  intros [Hh Hl Hu Ha]. rewrite last_lookup in Hl.
  split; cbn; [exact Hl| |by left|]; destruct (sy_agents sy !! a) as [ag|] eqn:E; cbn;
    try (by intros ? ?%elem_of_nil || (by intros ? ? ?%elem_of_nil)).
  - apply (ak_given _ _ _ (Ha a ag E)).
  - intros x u Hx E1 E2. destruct (ak_fenced _ _ _ (Ha a ag E) x u Hx E1 E2) as [(n & y & Hn & Hy & Ho) _].
    split.
    + exists n, y. split_and!; [|done..]. apply lookup_lt_Some in Hy. lia.
    + intros (l & El & Hlu)%of_object_lease. unfold agent_floor. cbn.
      destruct (ak_given _ _ _ (Ha a ag E) x Hx) as (u' & E2' & _ & _ & Hle).
      assert (u' = u) as -> by congruence. specialize (Hle l El Hlu).
      unfold sy_lease, sy_known in *. rewrite El. cbn. unfold lowest. cbn. lia.
Qed.

Lemma agents_ok_agent sy a ag :
  agents_ok sy → agent_ok (sy_known sy) (sy_history sy) ag → agents_ok (with_agent sy a ag).
Proof.
  intros [Hh Hl Hu Ha] Hag. split; [exact Hh|exact Hl|exact Hu|]; cbn.
  intros b bg [[-> <-]|[Hne Hb]]%lookup_insert_Some; [done|by apply (Ha b)].
Qed.

Lemma lookup_snoc_cases {A} (h : list A) t n x :
  (h ++ [t]) !! n = Some x → h !! n = Some x ∨ n = length h ∧ x = t.
Proof.
  intros [?|[Hn E]]%lookup_app_Some; [by left|right].
  apply list_lookup_singleton_Some in E as [? <-]. split; [lia|done].
Qed.

(** A Lease that moves on extends the history. *)
Lemma unbroken_snoc h o o' :
  unbroken h → last h = Some (observation (ls_lease o)) →
  (∀ n y u, h !! n = Some y → of_object u y → u ∈ ls_uids o) → evolves o o' →
  unbroken (h ++ [observation (ls_lease o')]).
Proof.
  intros Hh Hl Hu Hev n k m u x z Hnkm Hx Hz Hxu Hzu. rewrite last_lookup in Hl.
  pose proof (lookup_lt_Some _ _ _ Hl) as Hlen.
  apply lookup_snoc_cases in Hx as [Hx|[-> ->]], Hz as [Hz|[-> ->]].
  - destruct (Hh n k m u x z) as (y & Hy & ? & ?); [done..|]. exists y. split; [|done].
    by apply lookup_app_l_Some.
  - pose proof (lookup_lt_Some _ _ _ Hx) as Hn.
    pose proof Hzu as (l' & E' & Hu')%of_object_lease.
    destruct (evolves_known _ _ l' Hev E') as (l & E & Hsame & _ & _ & Hc); [rewrite Hu'; by eapply Hu|].
    assert (of_object u (observation (ls_lease o))) as Hlu
      by (apply of_object_lease; exists l; split; [done|congruence]).
    assert (view_count (observation (ls_lease o)) ≤ view_count (observation (ls_lease o'))) as Hv
      by (by rewrite E, E').
    destruct (decide (k = length h)) as [->|Hk].
    + destruct (Hh n (pred (length h)) (pred (length h)) u x _ ltac:(lia) Hx Hl Hxu Hlu)
        as (y & Hy & _ & Hxy & Hyl).
      eexists. split; [by rewrite lookup_app_r, Nat.sub_diag by lia|]. split; [done|]. lia.
    + destruct (Hh n k (pred (length h)) u x _ ltac:(lia) Hx Hl Hxu Hlu) as (y & Hy & ? & ?).
      exists y. split; [by apply lookup_app_l_Some|]. split; [done|]. lia.
  - apply lookup_lt_Some in Hz. lia.
  - assert (k = length h) as -> by lia. eexists.
    split; [by rewrite lookup_app_r, Nat.sub_diag by lia|done].
Qed.

Lemma agents_ok_store sy store procs :
  agents_ok sy → lease_ok (known store) → evolves (sy_known sy) (known store) →
  agents_ok (with_procs sy store procs).
Proof.
  intros [Hh Hl Hu Ha] Hok Hev. split; unfold sy_lease, sy_known; cbn.
  - by apply (unbroken_snoc _ (sy_known sy)).
  - by rewrite last_snoc.
  - intros n y u [Hy|[_ ->]]%lookup_snoc_cases Hy'.
    + apply Hev. by eapply Hu.
    + apply of_object_lease in Hy' as (l & E & <-). by apply Hok.
  - intros a ag Hag. by eapply agent_ok_evolves, Ha.
Qed.

Lemma step_ok sy sy' :
  procs_ok sy → agents_ok sy → step sy sy' → procs_ok sy' ∧ agents_ok sy'.
Proof.
  intros Hp Ha Hstep. pose proof (pi_count _ Hp) as H0. pose proof (pi_known _ Hp) as Hkn.
  destruct Hstep as [i sid inst lease Hi Hl Hf|i pr store pr' Hi Hst|a|a ag n view Hag Hn Hv
                    |i pr epoch a ag Hi He Hag|store Hd%deletion_forgets].
  - unfold new_writer_lease in Hl. rguard Hl as Hok. injection Hl as <-.
    split; [by apply procs_ok_start|by apply agents_ok_store].
  - pose proof (proc_step_moved _ _ _ _ Hkn H0 (pi_proc _ Hp i pr Hi) Hst) as Hm.
    split; [by eapply procs_ok_scheduler|].
    apply agents_ok_store; [done|by destruct Hm|by eapply moved_evolves].
  - split; [by destruct Hp; split|]. by apply agents_ok_agent, listed_ok.
  - split; [by destruct Hp; split|]. apply agents_ok_agent; [done|].
    apply observed_ok; [apply Ha|done..|by apply (ai_agent _ Ha a)].
  - split; [by destruct Hp; split|]. apply agents_ok_agent; [done|].
    destruct (po_taken _ _ (pi_proc _ Hp i pr Hi) epoch He) as (u & -> & Hg).
    apply commanded_ok; [done|by apply (ai_agent _ Ha a)].
  - split; [by apply procs_ok_deleted|]. unfold sy_known in Hd.
    apply agents_ok_store; rewrite ?Hd; [done|apply deleted_ok|apply deleted_evolves].
Qed.

Lemma reachable_ok sy : reachable sy → procs_ok sy ∧ agents_ok sy.
Proof.
  intros (s & Hs & Hr).
  assert (procs_ok (initial s) ∧ agents_ok (initial s)) as Hinit.
  { split; split; unfold sy_lease, sy_known, lease_ok, lease_count; cbn; rewrite ?Hs; try done.
    - intros n k m u x z _ [_ <-]%list_lookup_singleton_Some. done.
    - by intros n y u [_ <-]%list_lookup_singleton_Some. }
  revert Hinit. clear Hs. induction Hr as [|sy1 sy2 sy3 Hstep Hr IH]; [done|].
  intros [Hp Ha]. apply IH. by apply (step_ok sy1).
Qed.
End System.

(** ** Theorems *)

Section Theorems.
Context `{srv : !LeaseServer}.
Implicit Types sy : System.

(** C20: an epoch belongs to one Scheduler.  Whatever the Schedulers and the API server
    do, and whenever the Lease is deleted and created again: no two Schedulers that
    took the same Lease object hold the same writer epoch; an epoch is between 1 and
    the count of its object; and the Scheduler that the stored Lease names took that
    very object, at its present count, which is the highest epoch any Scheduler took
    of it. *)
Theorem writer_epochs_exclusive sy :
  reachable sy →
  (∀ i j pr qr e, sy_procs sy !! i = Some pr → sy_procs sy !! j = Some qr →
     pr_taken pr = pr_taken qr →
     wl_epoch (pr_lease pr) = Some e → wl_epoch (pr_lease qr) = Some e → i = j) ∧
  (∀ i pr e, sy_procs sy !! i = Some pr → wl_epoch (pr_lease pr) = Some e →
     ∃ u, pr_taken pr = Some u ∧ 1 ≤ e ∧
       ∀ l, sy_lease sy = Some l → lease_uid l = u → e ≤ transitions_of (lease_spec l)) ∧
  (∀ i pr e l, sy_procs sy !! i = Some pr → wl_epoch (pr_lease pr) = Some e →
     sy_lease sy = Some l → holder_identity (lease_spec l) = Some (wl_holder (pr_lease pr)) →
     pr_taken pr = Some (lease_uid l) ∧ e = transitions_of (lease_spec l) ∧
     ∀ j qr e', sy_procs sy !! j = Some qr → pr_taken qr = Some (lease_uid l) →
       wl_epoch (pr_lease qr) = Some e' → e' ≤ e).
Proof.
  intros [[_ H0 Hp He _] _]%reachable_ok. split_and!.
  - exact He.
  - intros i pr e Hi Epr. destruct (po_taken _ _ (Hp i pr Hi) e Epr) as (u & Eu & _ & H1 & Hle).
    by exists u.
  - intros i pr e l Hi Epr El Hh. unfold sy_lease in El.
    destruct (po_holder _ _ (Hp i pr Hi) e Epr) as [Ht Hc].
    { unfold lease_holder. by rewrite El. }
    unfold lease_count in Hc. rewrite El in Ht, Hc. split_and!; [done..|].
    intros j qr e' Hj Et Eqr. destruct (po_taken _ _ (Hp j qr Hj) e' Eqr) as (u & Eu & _ & _ & Hle).
    specialize (Hle l El). rewrite Et in Eu. injection Eu as <-. specialize (Hle eq_refl). lia.
Qed.

(** C21: a superseded Scheduler changes nothing: once a Node Agent whose view names a
    Lease object accepted a command of a Scheduler that had taken that object, at some
    epoch, no request with a lower epoch passes its contract while its view names that
    object, whatever the request asks for, also after the Node Agent restarted.  (When
    the Lease is deleted and created again, the epochs start again with the new
    object; [recreated_lease_locks_out] shows what that costs.) *)
Theorem superseded_writer_refused sy a ag x u fence kind request env :
  reachable sy → sy_agents sy !! a = Some ag →
  x ∈ ag_accepted ag → ac_view x = Some u → ac_taken x = Some u →
  le_uid <$> ag_view ag = Some u →
  wr_envelope request = Some env → env_writer_epoch env < ac_epoch x →
  is_Ok (validate_request fence (Ok (ag_view ag)) kind request (ag_floor ag)).2 = false.
Proof.
  intros [_ Ha]%reachable_ok Hag Hx E1 E2 Hu Henv Hlt.
  destruct (ak_fenced _ _ _ (ai_agent _ Ha a ag Hag) x u Hx E1 E2) as [_ Hfl].
  specialize (Hfl Hu). unfold agent_floor in Hfl.
  unfold validate_request, validate_envelope. rewrite Henv.
  destruct (check_envelope fence kind (Some env)) as [env'|ex] eqn:E; [|done].
  assert (env' = env) as ->.
  { unfold check_envelope in E. rguard E as E3. rguard E as E4. rbind E as env1 E5. rguard E as E6.
    rguard E as E7. rguard E as E8. rguard E as E9. injection E as <-. by injection E5. }
  unfold admit_writer. rewrite (proj2 (Z.ltb_lt _ _)) by lia. done.
Qed.

(** the Scheduler the Lease names is never taken for a stale writer: while the Lease is
    not created a second time, every Node Agent, however old its view of the Lease,
    admits its epoch. *)
Theorem holder_never_refused sy i pr e a ag u :
  reachable sy → (∀ v, v ∈ ls_uids (sy_known sy) → v = u) →
  sy_procs sy !! i = Some pr → wl_epoch (pr_lease pr) = Some e →
  lease_holder (sy_known sy) = Some (wl_holder (pr_lease pr)) → sy_agents sy !! a = Some ag →
  (admit_writer (Ok (ag_view ag)) (ag_floor ag) e).2 = Ok tt.
Proof.
  intros [[Hkn H0 Hp _ _] [Hh Hl Hu Ha]]%reachable_ok Hone Hi He Hho Hag.
  destruct (po_holder _ _ (Hp i pr Hi) e He Hho) as [_ Hc].
  assert (∃ l, sy_lease sy = Some l) as [l El].
  { unfold lease_holder in Hho. unfold sy_lease. destruct (ls_lease _) as [l|]; [by exists l|done]. }
  pose proof El as El'. unfold sy_lease in El'.
  assert (lease_uid l = u) as Hlu by (apply Hone, Hkn, El').
  assert (lease_count (sy_known sy) = transitions_of (lease_spec l)) as Hcl
    by (unfold lease_count; by rewrite El').
  destruct (Ha a ag Hag) as [Hs Hg Hfl _].
  assert (fl_accepted (rebase (ag_floor ag) (ag_view ag)) ≤ e) as Hacc.
  { destruct (rebase_accepted (ag_floor ag) (ag_view ag)) as [->| ->]; [lia|].
    destruct Hfl as [->|(x & Hx & <-)]; [lia|].
    destruct (Hg x Hx) as (v & _ & Hin & _ & Hle). rewrite (Hone v Hin) in Hle.
    specialize (Hle l El' Hlu). lia. }
  assert (view_count (ag_view ag) ≤ e) as Hv.
  { destruct (ag_view ag) as [v|] eqn:Ev; [|cbn; lia]. rewrite last_lookup in Hl.
    assert (of_object u (Some v)) as Hvu by (unfold of_object; cbn; f_equal; by eapply Hone, Hu).
    assert (of_object u (observation (sy_lease sy))) as Hlast
      by (apply of_object_lease; by exists l).
    destruct (Hh (ag_seen ag) (ag_seen ag) (pred (length (sy_history sy))) u (Some v)
      (observation (sy_lease sy))) as (y & Hy & _ & _ & Hle); [|done..|].
    { apply lookup_lt_Some in Hs. lia. }
    rewrite Hs in Hy. injection Hy as <-. unfold sy_lease in Hle. rewrite view_count_observation in Hle.
    lia. }
  unfold admit_writer. rewrite (proj2 (Z.ltb_ge _ _)); [done|]. unfold lowest.
  fold (view_count (ag_view ag)). lia.
Qed.
End Theorems.

(** ** A takeover *)

Module Takeover.

Fixpoint tally (n : nat) : string :=
  match n with O => "" | S n => "1" +:+ tally n end.

(** An API server that answers every call: versions and uids are counted. *)
Definition serve (s : LeaseState) (c : ApiCall) : ApiAnswer * LeaseState :=
  let next := ls_latest s + 1 in
  match c, ls_lease s with
  | ReadLease, Some l => (Answered l, s)
  | ReadLease, None => (Refused 404, s)
  | CreateLease _, Some _ => (Refused 409, s)
  | CreateLease spec, None =>
      let l := {| lease_uid := "lease-" +:+ tally (Z.to_nat next); resource_version := next; lease_spec := spec |} in
      if bool_decide (lease_uid l ∈ ls_uids s) then (Refused 500, s)
      else (Answered l, lease_created s l)
  | ReplaceLease _, None => (Refused 404, s)
  | ReplaceLease l, Some cur =>
      if resource_version cur =? resource_version l then
        let l := {| lease_uid := lease_uid cur; resource_version := next; lease_spec := lease_spec l |} in
        (Answered l, lease_replaced s l)
      else (Refused 409, s)
  end.

#[export] Program Instance server : LeaseServer :=
  {| Store := LeaseState; known := id; perform s c a s' := serve s c = (a, s');
     deletion s s' := s' = lease_deleted s |}.
Next Obligation.
  unfold serve. intros s a s'. destruct (ls_lease s) as [l|] eqn:E; intros [= <- <-];
    split_and!; naive_solver.
Qed.
Next Obligation.
  unfold serve. intros s spec a s'. destruct (ls_lease s) as [l|] eqn:E; [intros [= <- <-]; by left|].
  case_bool_decide as Hu; intros [= <- <-]; [by left|]. right. split_and!; [done..|].
  do 2 eexists. split_and!; [exact Hu| |done]. cbn. lia.
Qed.
Next Obligation.
  unfold serve. intros s l a s'. destruct (ls_lease s) as [cur|] eqn:E; [|intros [= <- <-]; by left].
  destruct (Z.eqb_spec (resource_version cur) (resource_version l)) as [Ev|]; intros [= <- <-]; [|by left].
  right. split; [done|]. exists cur, (ls_latest s + 1). split_and!; try done. cbn. lia.
Qed.
Next Obligation. done. Qed.

Inductive Action :=
| Start (i : nat) (session_id instance : string)
| Begin (i : nat)
| Move (i : nat) (now : datetime)
| Listed (a : string)
| Observe (a : string) (n : nat)
| Command (i : nat) (a : string)
| Delete.

(** One call or clock reading of an acquire. *)
Definition moves (s : Store) (now : datetime) (p : Prog (WriterLease * option Z)) :
    option (Store * Prog (WriterLease * option Z)) :=
  match p with
  | Call c k => let '(a, s') := serve s c in Some (s', k a)
  | Now k => Some (s, k now)
  | _ => None
  end.

Definition act (sy : System) (x : Action) : option System :=
  match x with
  | Start i sid inst =>
      match new_writer_lease sid inst, sy_procs sy !! i with
      | Ok lease, None =>
          if bool_decide (map_Forall (λ _ pr, wl_holder (pr_lease pr) ≠ wl_holder lease) (sy_procs sy))
          then Some (with_procs sy (sy_store sy) (<[i := started lease]> (sy_procs sy))) else None
      | _, _ => None
      end
  | Begin i =>
      pr ← sy_procs sy !! i;
      match pr_phase pr, pr_acquiring pr with
      | Standby, None =>
          Some (with_procs sy (sy_store sy) (<[i :=
            {| pr_lease := pr_lease pr; pr_phase := Standby;
               pr_acquiring := Some (try_acquire (pr_lease pr)); pr_renewing := pr_renewing pr;
               pr_releasing := pr_releasing pr; pr_taken := pr_taken pr |}]> (sy_procs sy)))
      | _, _ => None
      end
  | Move i now =>
      pr ← sy_procs sy !! i; p ← pr_acquiring pr; '(s, p') ← moves (sy_store sy) now p;
      Some (with_procs sy s (<[i := after_acquire pr (lease_uid <$> ls_lease s) f_0 p']> (sy_procs sy)))
  | Listed a => Some (with_agent sy a (listed sy (default [] (ag_accepted <$> sy_agents sy !! a))))
  | Observe a n =>
      ag ← sy_agents sy !! a; view ← sy_history sy !! n;
      if (ag_seen ag <=? n)%nat
      then Some (with_agent sy a {| ag_seen := n; ag_view := view; ag_floor := ag_floor ag;
                                    ag_accepted := ag_accepted ag |}) else None
  | Command i a =>
      pr ← sy_procs sy !! i; e ← wl_epoch (pr_lease pr); ag ← sy_agents sy !! a;
      Some (with_agent sy a (commanded ag (pr_taken pr) e))
  | Delete => Some (with_procs sy (lease_deleted (sy_store sy)) (sy_procs sy))
  end.

Lemma act_step sy x sy' : act sy x = Some sy' → step sy sy'.
Proof.
  destruct x as [i sid inst|i|i now|a|a n|i a|]; cbn; intros H.
  - destruct (new_writer_lease sid inst) as [lease|] eqn:El; [|done].
    destruct (sy_procs sy !! i) eqn:Ei; [done|]. case_bool_decide as Hf; [|done].
    injection H as <-. by eapply start_scheduler.
  - apply bind_Some in H as (pr & Hi & H). destruct (pr_phase pr) eqn:Ep; try done.
    destruct (pr_acquiring pr) eqn:Ea; [done|]. injection H as <-. eapply scheduler; [done|].
    by apply begin_acquire.
  - apply bind_Some in H as (pr & Hi & H). apply bind_Some in H as (p & Ep & H).
    apply bind_Some in H as ([s p'] & Em & H). injection H as <-. eapply scheduler; [done|].
    apply (acquire (srv := server) (sy_store sy) pr p s p' f_0); [done|]. destruct p as [x|e|k|c k]; try done; cbn in Em.
    + injection Em as <- <-. apply step_now.
    + destruct (serve (sy_store sy) c) as [ans s'] eqn:Es. injection Em as <- <-. by apply step_call.
  - injection H as <-. apply start_agent.
  - apply bind_Some in H as (ag & Ha & H). apply bind_Some in H as (view & Hv & H).
    destruct (Nat.leb_spec (ag_seen ag) n); [|done]. injection H as <-. by eapply observe.
  - apply bind_Some in H as (pr & Hi & H). apply bind_Some in H as (e & He & H).
    apply bind_Some in H as (ag & Ha & H). injection H as <-. by eapply command.
  - injection H as <-. by apply lease_is_deleted.
Qed.

Fixpoint acts (sy : System) (xs : list Action) : option System :=
  match xs with [] => Some sy | x :: xs => sy ← act sy x; acts sy xs end.

(** The system before any Scheduler ran. *)
Definition no_lease : LeaseState := {| ls_lease := None; ls_latest := 0; ls_uids := ∅ |}.
Definition origin : System := initial (srv := server) no_lease.

Lemma acts_reachable xs sy : acts origin xs = Some sy → reachable sy.
Proof.
  intros H. exists no_lease. split; [done|]. revert H. unfold origin. generalize (initial (srv := server) no_lease).
  induction xs as [|x xs IH]; intros sy0; cbn; [by intros [= ->]|].
  intros (sy1 & H1 & H2)%bind_Some. eapply rtc_l; [by eapply act_step|by apply IH].
Qed.

(** Two Schedulers of one session: the first takes the Lease at 0 s and stops
    renewing, the second finds it expired at 20 s. *)
Definition two_writers : list Action :=
  [Listed "early"; Start 0 "s" "a"; Start 1 "s" "b"; Begin 0; Move 0 0; Move 0 0; Move 0 0;
   Begin 1; Move 1 20000000; Move 1 20000000; Move 1 20000000; Move 1 20000000].

Definition taken_over : list Action := two_writers ++ [Listed "late"; Command 1 "late"].

(** The Node Agent whose view is still empty accepts the second Scheduler, then
    sees the first state of the Lease, and accepts the first Scheduler. *)
Definition lagging_view : list Action :=
  two_writers ++ [Command 1 "early"; Observe "early" 6; Command 0 "early"].

(** The Lease is deleted after the takeover, and a third Scheduler creates it again.
    A Node Agent that sees the new object accepts the second Scheduler, which has not
    yet noticed. *)
Definition recreated_lease : list Action :=
  two_writers ++ [Delete; Start 2 "s" "c"; Begin 2; Move 2 21000000; Move 2 21000000;
                  Move 2 21000000; Listed "late"; Command 1 "late"].
End Takeover.

Import Takeover.

(** ** What a lagging view lets through, and witnesses *)

(** What is computed of the end of a run holds in a reachable state. *)
Lemma run_ends {B} (f : System (srv := server) → B) xs v :
  f <$> acts origin xs = Some v → ∃ sy, acts origin xs = Some sy ∧ reachable sy ∧ f sy = v.
Proof.
  intros (sy & E & ->)%fmap_Some. exists sy. split_and!; [done| |done]. by apply (acts_reachable xs).
Qed.

(** What a Scheduler and a Node Agent of a state know. *)
Definition writer_of (i : nat) (sy : System (srv := server)) : option (option string * option Z * string) :=
  (λ pr, (pr_taken pr, wl_epoch (pr_lease pr), wl_holder (pr_lease pr))) <$> sy_procs sy !! i.
Definition lease_of (sy : System (srv := server)) : option (string * option string * Z) :=
  (λ l, (lease_uid l, holder_identity (lease_spec l), transitions_of (lease_spec l))) <$> sy_lease sy.

Lemma writer_of_Some i sy u e h :
  writer_of i sy = Some (u, e, h) → ∃ pr, sy_procs sy !! i = Some pr ∧ pr_taken pr = u ∧
    wl_epoch (pr_lease pr) = e ∧ wl_holder (pr_lease pr) = h.
Proof. unfold writer_of. intros (pr & E & [= -> -> ->])%fmap_Some. by exists pr. Qed.

Lemma lease_of_Some sy u h c :
  lease_of sy = Some (u, h, c) → ∃ l, sy_lease sy = Some l ∧ lease_uid l = u ∧
    holder_identity (lease_spec l) = h ∧ transitions_of (lease_spec l) = c.
Proof. unfold lease_of. intros (l & E & [= -> -> ->])%fmap_Some. by exists l. Qed.

Lemma lease_of_holder sy u h c : lease_of sy = Some (u, h, c) → lease_holder (sy_known sy) = h.
Proof.
  intros (l & E & _ & <- & _)%lease_of_Some. unfold lease_holder. unfold sy_lease in E. by rewrite E.
Qed.

(** a Node Agent accepts the second writer of a session while its view of
    the Lease is still empty; the first state of the Lease it then sees resets its
    floor, and it accepts a command of the first writer, which was superseded. *)
Theorem first_view_readmits_stale_writer :
  ∃ (sy : System (srv := server)) (ag : Agent) (u : string),
    reachable sy ∧ sy_agents sy !! "early" = Some ag ∧
    ag_accepted ag = [{| ac_view := Some u; ac_taken := Some u; ac_epoch := 1 |};
                      {| ac_view := None; ac_taken := Some u; ac_epoch := 2 |}] ∧
    lease_count (sy_known sy) = 2.
Proof.
  edestruct (run_ends (λ sy, (sy_agents sy !! "early", lease_count (sy_known sy))) lagging_view)
    as (sy & _ & Hr & Hf); [vm_compute; reflexivity|]. injection Hf as Ha Hc.
  exists sy. do 2 eexists. split; [exact Hr|]. split; [exact Ha|]. split; [reflexivity|exact Hc].
Qed.

(** a Lease that is created again locks its holder out: the count starts again, so a
    Scheduler of the deleted Lease can hold a higher epoch than the holder of the new
    one.  A Node Agent that sees the new Lease accepts it, and refuses from then on the
    Scheduler that the Lease names. *)
Theorem recreated_lease_locks_out :
  ∃ (sy : System (srv := server)) (pr : Proc) (ag : Agent) (u v : string),
    reachable sy ∧ sy_procs sy !! 2%nat = Some pr ∧ sy_agents sy !! "late" = Some ag ∧
    lease_holder (sy_known sy) = Some (wl_holder (pr_lease pr)) ∧
    pr_taken pr = Some u ∧ le_uid <$> ag_view ag = Some u ∧ wl_epoch (pr_lease pr) = Some 1 ∧
    ag_accepted ag = [{| ac_view := Some u; ac_taken := Some v; ac_epoch := 2 |}] ∧ v ≠ u ∧
    is_Ok (admit_writer (Ok (ag_view ag)) (ag_floor ag) 1).2 = false.
Proof.
  edestruct (run_ends (λ sy, (sy_agents sy !! "late", writer_of 2 sy, lease_of sy)) recreated_lease)
    as (sy & _ & Hr & Hf); [vm_compute; reflexivity|]. injection Hf as Ha Hw Hl.
  apply writer_of_Some in Hw as (pr & Hi & Ht & He & Hh). apply lease_of_holder in Hl.
  exists sy, pr. do 3 eexists. split; [exact Hr|]. split; [exact Hi|]. split; [exact Ha|].
  split; [by rewrite Hl, Hh|]. split; [exact Ht|]. split_and!; [reflexivity|exact He|reflexivity|done|].
  vm_compute. reflexivity.
Qed.

(** The state after the second writer commanded a Node Agent that sees the Lease. *)
Definition after_takeover : option (System (srv := server)) :=
  acts origin taken_over.

Lemma writer_epochs_exclusive_witness :
  ∃ sy, after_takeover = Some sy ∧
    (∀ j qr e', sy_procs sy !! j = Some qr → pr_taken qr = Some "lease-1" →
       wl_epoch (pr_lease qr) = Some e' → e' ≤ 2).
Proof.
  edestruct (run_ends (λ sy, (writer_of 1 sy, lease_of sy)) taken_over)
    as (sy & E & Hr & Hf); [vm_compute; reflexivity|]. injection Hf as Hw Hl.
  exists sy. split; [exact E|]. destruct (writer_epochs_exclusive sy Hr) as (_ & _ & Hmax).
  apply writer_of_Some in Hw as (pr & Hi & Ht & He & Hh).
  apply lease_of_Some in Hl as (l & El & Eu & Ehl & _).
  destruct (Hmax 1%nat pr 2 l Hi He El) as (_ & _ & Hall); [by rewrite Ehl, Hh|].
  rewrite Eu in Hall. exact Hall.
Defined.

Definition stale_envelope : CommandEnvelope :=
  {| env_operation_id := "op"; env_session_id := "s"; env_wiring_generation := "g";
     env_operation_kind := "SetLatency"; env_writer_epoch := 1 |}.

Lemma superseded_writer_refused_witness :
  ∃ sy ag, after_takeover = Some sy ∧ sy_agents sy !! "late" = Some ag ∧
    is_Ok (validate_request {| rf_session_id := "s"; rf_wiring_generation := "g" |} (Ok (ag_view ag))
      "SetLatency" {| wr_envelope := Some stale_envelope; wr_gs_id := ""; wr_entries := [] |}
      (ag_floor ag)).2 = false.
Proof.
  edestruct (run_ends (λ sy, sy_agents sy !! "late") taken_over)
    as (sy & E & Hr & Ha); [vm_compute; reflexivity|].
  exists sy. eexists. split; [exact E|]. split; [exact Ha|].
  eapply (superseded_writer_refused sy "late" _ _ "lease-1" _ _ _ stale_envelope Hr Ha);
    [by left|reflexivity..].
Defined.

Lemma holder_never_refused_witness :
  ∃ sy ag, after_takeover = Some sy ∧ sy_agents sy !! "early" = Some ag ∧ ag_view ag = None ∧
    (admit_writer (Ok (ag_view ag)) (ag_floor ag) 2).2 = Ok tt.
Proof.
  edestruct (run_ends (λ sy, (sy_agents sy !! "early", writer_of 1 sy, lease_of sy,
    bool_decide (ls_uids (sy_known sy) = {["lease-1"]}))) taken_over)
    as (sy & E & Hr & Hf); [vm_compute; reflexivity|]. injection Hf as Ha Hw Hl Hu.
  apply writer_of_Some in Hw as (pr & Hi & Ht & He & Hh). apply lease_of_holder in Hl.
  apply bool_decide_eq_true in Hu.
  exists sy. eexists. split; [exact E|]. split; [exact Ha|]. split; [reflexivity|].
  eapply (holder_never_refused sy 1%nat pr 2 "early" _ "lease-1" Hr); [|done|done| |exact Ha].
  - intros v Hv. apply (elem_of_singleton (C := gset string)). rewrite <-Hu. exact Hv.
  - by rewrite Hl, Hh.
Defined.
