(* ===== verification/OperationExecutor.v ===== *)
(** * Operation plans of the Node Agent
    ([services/node_agent/operation_plan.py], [operation_executor.py])

    A plan is a sequence of kernel mutations, each with a proof to take after it
    and, where it can be undone, a rollback.  [execute_plan] runs it, and undoes the
    completed steps in reverse when one fails.

    The kernel is a parameter: an action maps a kernel state to the one it leaves,
    also when it raises; a verifier reads it. *)

From S2P Require Import Prelude.
From stdpp Require Import base list strings.

(** [Proof] of [kernel_verifier.py], as far as the executor reads it. *)
Record KernelProof := { pf_verified : bool; pf_summary : string }.

Section Plan.
Context {K : Type}.

Definition StepAction : Type := K → K * result unit.
Definition StepVerifier : Type := K → result KernelProof.

(** [OperationStep]. *)
Record OperationStep := {
  os_name : string;
  os_action : StepAction;
  os_verify : option StepVerifier;
  os_rollback : option StepAction;
  os_rollback_verify : option StepVerifier;
  os_dirty_on_failure : bool;
}.

(** [OperationPlan], and its [__post_init__]. *)
Record OperationPlan := {
  op_operation_id : string;
  op_operation_kind : string;
  op_target : string;
  op_steps : list OperationStep;
}.

Definition checked_plan (plan : OperationPlan) : result OperationPlan :=
  raise_if bool_decide (op_operation_id plan = "") with ValueError "operation plan requires operation_id" ;;
  raise_if bool_decide (op_operation_kind plan = "") with ValueError "operation plan requires operation_kind" ;;
  raise_if bool_decide (op_target plan = "") with ValueError "operation plan requires target" ;;
  raise_if (match op_steps plan with [] => true | _ => false end)
    with ValueError "operation plan requires at least one step" ;;
  Ok plan.

(** [StepExecution] and [OperationExecutionResult]. *)
Record StepExecution := {
  se_step_name : string;
  se_proof : option KernelProof;
  se_failed : bool;
}.

Record OperationExecutionResult := {
  er_success : bool;
  er_dirty_kernel : bool;
  er_proofs : list KernelProof;
  er_executed : list StepExecution;
  er_rollback : list StepExecution;
}.

(** [_verify_step]. *)
Definition verify_step (step : OperationStep) (k : K) : result (option KernelProof) :=
  match os_verify step with
  | None => Ok None
  | Some verify =>
      let! proof := verify k in
      raise_if negb (pf_verified proof) with RuntimeError "proof not verified" ;;
      Ok (Some proof)
  end.

(** A step: its action, then its proof. *)
Definition run_step (step : OperationStep) (k : K) : K * result (option KernelProof) :=
  let '(k, acted) := os_action step k in
  (k, let! _ := acted in verify_step step k).

Definition executed_step (step : OperationStep) (proof : option KernelProof) : StepExecution :=
  {| se_step_name := os_name step; se_proof := proof; se_failed := false |}.

(** The [try] block: the kernel it leaves, the completed steps with their proofs,
    latest first, and the step that failed. *)
Fixpoint run_steps (k : K) (completed : list (OperationStep * option KernelProof))
    (steps : list OperationStep) :
    K * list (OperationStep * option KernelProof) * option OperationStep :=
  match steps with
  | [] => (k, completed, None)
  | step :: steps =>
      match run_step step k with
      | (k, Ok proof) => run_steps k ((step, proof) :: completed) steps
      | (k, Raise _) => (k, completed, Some step)
      end
  end.

(** The proof a rollback left, if it took one. *)
Definition rollback_proof (step : OperationStep) (k : K) : result (option KernelProof) :=
  match os_rollback_verify step with
  | None => Ok None
  | Some verify => let! proof := verify k in Ok (Some proof)
  end.

(** One pass of the rollback loop: the kernel, whether it is dirty, and what is
    recorded. *)
Definition roll_back_step (step : OperationStep) (k : K) (dirty : bool) :
    K * bool * list StepExecution :=
  match os_rollback step with
  | None => (k, dirty || os_dirty_on_failure step, [])
  | Some rollback =>
      let '(k, undone) := rollback k in
      match (let! _ := undone in rollback_proof step k) with
      | Raise _ => (k, true, [{| se_step_name := os_name step; se_proof := None; se_failed := true |}])
      | Ok proof =>
          let bad := match proof with Some p => negb (pf_verified p) | None => false end in
          (k, dirty || bad, [{| se_step_name := os_name step; se_proof := proof; se_failed := bad |}])
      end
  end.

Fixpoint roll_back (steps : list OperationStep) (k : K) (dirty : bool) : K * bool * list StepExecution :=
  match steps with
  | [] => (k, dirty, [])
  | step :: steps =>
      let '(k, dirty, done1) := roll_back_step step k dirty in
      let '(k, dirty, done2) := roll_back steps k dirty in
      (k, dirty, done1 ++ done2)
  end.

(** [execute_plan]. *)
Definition execute_plan (plan : OperationPlan) (k : K) : K * OperationExecutionResult :=
  let '(k, completed, failed) := run_steps k [] (op_steps plan) in
  let executed := map (λ x, executed_step x.1 x.2) (rev completed) in
  let proofs := omap snd (rev completed) in
  match failed with
  | None =>
      (k, {| er_success := true; er_dirty_kernel := false; er_proofs := proofs;
             er_executed := executed; er_rollback := [] |})
  | Some step =>
      let '(k, dirty, undone) := roll_back (map fst completed) k (os_dirty_on_failure step) in
      (k, {| er_success := false; er_dirty_kernel := dirty; er_proofs := proofs;
             er_executed := executed; er_rollback := undone |})
  end.

(** ** What a run does *)

(** The kernel goes through the steps, each acting without an error and proven
    right after it. *)
Inductive proven_run : K → list OperationStep → K → list (option KernelProof) → Prop :=
| proven_nil k : proven_run k [] k []
| proven_step k step k1 proof steps k2 proofs :
    os_action step k = (k1, Ok tt) → verify_step step k1 = Ok proof →
    proven_run k1 steps k2 proofs → proven_run k (step :: steps) k2 (proof :: proofs).

(** A step that failed, after the ones before it were proven. *)
Definition failed_run (k : K) (steps : list OperationStep) (done : list (OperationStep * option KernelProof))
    (k' : K) (step : OperationStep) : Prop :=
  ∃ rest k1 e, steps = map fst done ++ step :: rest ∧ proven_run k (map fst done) k1 (map snd done) ∧
    run_step step k1 = (k', Raise e).

Lemma run_step_Ok step k k1 proof :
  run_step step k = (k1, Ok proof) → os_action step k = (k1, Ok tt) ∧ verify_step step k1 = Ok proof.
Proof.
  unfold run_step. destruct (os_action step k) as [k2 [[]|e]]; cbn; [|done].
  intros [= <- H]. done.
Qed.

Lemma proven_app k s1 k1 p1 s2 k2 p2 :
  proven_run k s1 k1 p1 → proven_run k1 s2 k2 p2 → proven_run k (s1 ++ s2) k2 (p1 ++ p2).
Proof. induction 1; intros H2; cbn; [done|]. econstructor; eauto. Qed.

Lemma run_steps_spec k0 all steps k completed :
  all = map fst (rev completed) ++ steps →
  proven_run k0 (map fst (rev completed)) k (map snd (rev completed)) →
  match run_steps k completed steps with
  | (k', completed', None) =>
      all = map fst (rev completed') ∧ proven_run k0 all k' (map snd (rev completed'))
  | (k', completed', Some step) => failed_run k0 all (rev completed') k' step
  end.
Proof.
  revert k completed. induction steps as [|step steps IH]; intros k completed Hall Hrun; cbn.
  { rewrite app_nil_r in Hall. by rewrite Hall. }
  destruct (run_step step k) as [k1 [proof|e]] eqn:E.
  - apply run_step_Ok in E as [Ha Hv]. apply IH; cbn; rewrite !map_app; cbn.
    + by rewrite <- app_assoc.
    + eapply proven_app; [exact Hrun|]. econstructor; [done..|constructor].
  - exists steps, k, e. done.
Qed.

(** ** Undoing *)

(** A step tells the truth about what it leaves: a rollback that raised nothing
    and whose proof, if any, holds gives back the kernel the action found, and an
    action that is said to leave no dirt leaves the kernel as it was. *)
Record honest (step : OperationStep) : Prop := {
  ho_undo rollback k k1 k2 proof :
    os_rollback step = Some rollback → os_action step k = (k1, Ok tt) →
    rollback k1 = (k2, Ok tt) → rollback_proof step k2 = Ok proof →
    match proof with Some p => pf_verified p = true | None => True end → k2 = k;
  ho_clean k k1 r : os_dirty_on_failure step = false → os_action step k = (k1, r) → k1 = k;
}.

Lemma roll_back_step_clean step k k1 k2 proof dirty done :
  honest step → os_action step k = (k1, Ok tt) → verify_step step k1 = Ok proof →
  roll_back_step step k1 dirty = (k2, false, done) → k2 = k ∧ dirty = false.
Proof.
  intros [Hu Hc] Ha _ H. unfold roll_back_step in H. destruct (os_rollback step) as [rb|] eqn:Erb.
  - destruct (rb k1) as [k3 [[]|e]] eqn:Ek; cbn in H; [|done].
    destruct (rollback_proof step k3) as [p|e] eqn:Ep; [|done].
    injection H as <- Hd _. apply orb_false_iff in Hd as [-> Hbad]. split; [|done].
    eapply Hu; [done..|exact Ep|]. destruct p; [by apply negb_false_iff|done].
  - injection H as <- Hd _. apply orb_false_iff in Hd as [-> Hd]. split; [|done].
    symmetry. by eapply Hc in Ha.
Qed.

(** A rollback that ends clean gives back the kernel the plan found. *)
Lemma roll_back_clean k0 steps k proofs : proven_run k0 steps k proofs →
  Forall honest steps → ∀ k' dirty done,
  roll_back (rev steps) k dirty = (k', false, done) → k' = k0 ∧ dirty = false.
Proof.
  assert (∀ s1 s2 k dirty, roll_back (s1 ++ s2) k dirty =
    let '(k, dirty, d1) := roll_back s1 k dirty in
    let '(k, dirty, d2) := roll_back s2 k dirty in (k, dirty, d1 ++ d2)) as Happ.
  { induction s1 as [|s s1 IH]; intros s2 k1 d; cbn.
    - by destruct (roll_back s2 k1 d) as [[? ?] ?].
    - destruct (roll_back_step s k1 d) as [[k2 d2] e2]. rewrite IH.
      destruct (roll_back s1 k2 d2) as [[k3 d3] e3]. destruct (roll_back s2 k3 d3) as [[k4 d4] e4].
      by rewrite app_assoc. }
  induction 1 as [k|k step k1 proof steps k2 proofs Ha Hv Hrun IH]; intros Hh k' dirty done.
  { cbn. intros [= -> -> _]. done. }
  apply Forall_cons in Hh as [Hs Hh]. cbn [rev]. rewrite Happ.
  destruct (roll_back (rev steps) k2 dirty) as [[k3 d3] e3] eqn:E3. cbn.
  destruct (roll_back_step step k3 d3) as [[k4 d4] e4] eqn:E4. intros [= -> -> _].
  assert (d3 = false) as ->.
  { unfold roll_back_step in E4. destruct (os_rollback step) as [rb|].
    - destruct (rb k3) as [k5 u]. destruct (let! _ := u in rollback_proof step k5); [|done].
      injection E4 as _ Hd _. by apply orb_false_iff in Hd as [-> _].
    - injection E4 as _ Hd _. by apply orb_false_iff in Hd as [-> _]. }
  apply (IH Hh) in E3 as [-> ->]. split; [|done].
  by eapply (roll_back_step_clean step k k1 k' proof false e4) in E4 as [-> _].
Qed.


End Plan.
Arguments OperationStep : clear implicits.
Arguments OperationPlan : clear implicits.





(** a plan that failed and reports a clean kernel left no trace, when its steps are
    honest about what they undo. *)
Theorem clean_failure_leaves_no_trace {K} (plan : OperationPlan K) k k' r :
  Forall honest (op_steps plan) →
  execute_plan plan k = (k', r) → er_success r = false → er_dirty_kernel r = false → k' = k.
Proof.
  intros Hh H Hf Hd. unfold execute_plan in H.
  pose proof (run_steps_spec k (op_steps plan) (op_steps plan) k [] eq_refl (proven_nil k)) as Hrun.
  destruct (run_steps k [] (op_steps plan)) as [[k1 completed] [step|]]; [|injection H as <- <-; done].
  destruct Hrun as (rest & k2 & e & Hs & Hp & Hrs).
  destruct (roll_back (map fst completed) k1 (os_dirty_on_failure step)) as [[k3 d] u] eqn:Erb.
  injection H as <- <-. cbn in Hd. subst d. rewrite Hs in Hh.
  apply Forall_app in Hh as [Hh [Hst _]%Forall_cons].
  replace (map fst completed) with (rev (map fst (rev completed))) in Erb
    by (by rewrite <- map_rev, rev_involutive).
  assert (k1 = k2 ∨ os_dirty_on_failure step = true) as [->|Hdirty].
  { destruct (os_dirty_on_failure step) eqn:Ed; [by right|left]. unfold run_step in Hrs.
    destruct (os_action step k2) as [k4 a] eqn:Ea. injection Hrs as <- _.
    by apply (ho_clean _ Hst k2 k4 a). }
  - by apply (roll_back_clean _ _ _ _ Hp Hh) in Erb as [-> _].
  - exfalso. rewrite Hdirty in Erb. revert Erb. generalize (rev (map fst (rev completed))). clear. intros steps.
    revert k1 u. induction steps as [|s steps IH]; intros k1 u; cbn; [done|].
    assert (∃ k2 d, roll_back_step s k1 true = (k2, true, d)) as (k2 & d & ->).
    { unfold roll_back_step. destruct (os_rollback s) as [rb|]; [|by do 2 eexists].
      destruct (rb k1) as [k2 u2]. destruct (let! _ := u2 in rollback_proof s k2); by do 2 eexists. }
    destruct (roll_back steps k2 true) as [[k4 d4] e4] eqn:E. intros [= -> -> _]. by eapply IH.
Qed.

(** ** Two devices *)

Module Devices.

(** A kernel as the list of its devices: one step adds a device, a second asks for
    one that must be there. *)
Definition add_device (name : string) : OperationStep (list string) :=
  {| os_name := name; os_action := λ k, (name :: k, Ok tt);
     os_verify := Some (λ k, Ok {| pf_verified := bool_decide (name ∈ k); pf_summary := name |});
     os_rollback := Some (λ k, match k with
       | d :: k' => if bool_decide (d = name) then (k', Ok tt) else (k, Raise (RuntimeError "not last"))
       | [] => (k, Raise (RuntimeError "no device")) end);
     os_rollback_verify := None; os_dirty_on_failure := true |}.
Definition need_device (name : string) : OperationStep (list string) :=
  {| os_name := "need"; os_action := λ k,
       (k, if bool_decide (name ∈ k) then Ok tt else Raise (RuntimeError "device missing"));
     os_verify := None; os_rollback := None; os_rollback_verify := None;
     os_dirty_on_failure := false |}.
Definition plan (name : string) : OperationPlan (list string) :=
  {| op_operation_id := "op-1"; op_operation_kind := "SetLatency"; op_target := "sat-1";
     op_steps := [add_device "veth-1"; need_device name] |}.

Lemma plan_honest name : Forall honest (op_steps (plan name)).
Proof.
  repeat constructor; cbn; try done.
  - intros rb k k1 k2 proof [= <-] [= <-]. cbn. rewrite bool_decide_eq_true_2 by done. by intros [= <-].
  - by intros k k1 r _ [= <- _].
Qed.
End Devices.


Lemma clean_failure_leaves_no_trace_witness :
  ∃ k' r, execute_plan (Devices.plan "veth-2") ["eth0"] = (k', r) ∧ er_success r = false ∧ k' = ["eth0"].
Proof.
  destruct (execute_plan (Devices.plan "veth-2") ["eth0"]) as [k' r] eqn:E.
  exists k', r. split; [reflexivity|].
  assert (er_success r = false ∧ er_dirty_kernel r = false) as [Hs Hd]
    by (vm_compute in E; injection E as _ <-; split; reflexivity).
  split; [exact Hs|].
  exact (clean_failure_leaves_no_trace _ _ _ _ (Devices.plan_honest "veth-2") E Hs Hd).
Defined.
