(* ===== verification/CatalogRefs.v ===== *)
(** * Catalog references ([lib/nodalarc/catalog_refs.py])

    A catalog reference is a token such as [nodalarc:sessions/polar.yaml]: a
    namespace, a path of directories whose first one is the family of the document,
    and a YAML file.  [parse_catalog_reference] reads one; the subclasses of
    [CatalogRef] say which families they admit, and publish the same grammar a
    second time as the regular expression of [json_schema_pattern].

    Paths are the lists of their components; [Path(filename).suffix] and [.stem] are
    [os.path.splitext].  Argument types other than [str] are not modelled. *)

From S2P Require Import Prelude.
From S2P Require Import PyData.
From stdpp Require Import base list strings.
From Stdlib Require Import Ascii.

(** ** Text *)

(** [text.split(c)]: never empty. *)
Fixpoint split_on (c : ascii) (text : string) : list string :=
  match text with
  | EmptyString => [""]
  | String x rest =>
      if bool_decide (x = c) then "" :: split_on c rest
      else match split_on c rest with
           | part :: parts => String x part :: parts
           | [] => [String x ""]
           end
  end.

(** [c.join(parts)]. *)
Fixpoint join_with (c : ascii) (parts : list string) : string :=
  match parts with
  | [] => ""
  | [part] => part
  | part :: parts => part +:+ String c (join_with c parts)
  end.

(** [text.split(c, 1)[1]], the text after the first separator. *)
Fixpoint after_first (c : ascii) (text : string) : option string :=
  match text with
  | EmptyString => None
  | String x rest => if bool_decide (x = c) then Some rest else after_first c rest
  end.

Fixpoint all_chars (ok : ascii → bool) (text : string) : bool :=
  match text with
  | EmptyString => true
  | String c rest => ok c && all_chars ok rest
  end.

(** The text before the last dot, and from it on. *)
Fixpoint split_last_dot (text : string) : option (string * string) :=
  match text with
  | EmptyString => None
  | String c rest =>
      match split_last_dot rest with
      | Some (l, r) => Some (String c l, r)
      | None => if bool_decide (c = "."%char) then Some ("", text) else None
      end
  end.

(** [os.path.splitext] of a file name: leading dots start no suffix. *)
Definition splitext (name : string) : string * string :=
  match split_last_dot name with
  | Some (l, r) => if all_chars (λ c, bool_decide (c = "."%char)) l then (name, "") else (l, r)
  | None => (name, "")
  end.

Definition in_range (lo hi c : ascii) : bool :=
  (N_of_ascii lo <=? N_of_ascii c)%N && (N_of_ascii c <=? N_of_ascii hi)%N.
Definition lower_or_digit (c : ascii) : bool := in_range "a" "z" c || in_range "0" "9" c.
Definition name_char (c : ascii) : bool :=
  lower_or_digit c || bool_decide (c = "_"%char) || bool_decide (c = "-"%char).

(** ** Names and references *)

Definition CATALOG_NAMESPACES : list string := ["nodalarc"; "user"].
Definition CATALOG_FAMILIES : list string :=
  ["bodies"; "terminals"; "payloads"; "profiles"; "orbits"; "nodes"; "sites"; "site-sets";
   "constellations"; "space-node-sets"; "sessions"].
Definition YAML_SUFFIXES : list string := [".yaml"; ".yml"].

Definition NOT_A_REFERENCE : exn :=
  Raised "CatalogReferenceError" "catalog_reference.not_a_reference".
Definition PATH_REJECTED : exn := Raised "CatalogReferenceError" "catalog_reference.path_rejected".
Definition FAMILY_MISMATCH : exn :=
  Raised "CatalogReferenceError" "catalog_reference.family_mismatch".

Record ParsedCatalogReference := {
  pr_namespace : string;
  pr_relative_path : list string;
  pr_family : option string;
}.

Definition catalog_reference_namespace (raw : string) : option string :=
  find_first (λ namespace, String.prefix (namespace +:+ ":") raw) CATALOG_NAMESPACES.

Definition is_catalog_name (value : string) : bool :=
  match value with
  | EmptyString => false
  | String c rest => lower_or_digit c && all_chars name_char rest
  end.

Definition has_char (c : ascii) (value : string) : bool :=
  negb (all_chars (λ x, negb (bool_decide (x = c))) value).

Definition validate_catalog_name (value : string) : result string :=
  raise_if has_char "/" value || has_char "\" value with PATH_REJECTED;;
  raise_if bool_decide (value = "..") with PATH_REJECTED;;
  raise_if negb (is_catalog_name value) with PATH_REJECTED;;
  Ok value.

Definition parse_catalog_reference (raw : string) (expected_families : option (list string)) :
    result ParsedCatalogReference :=
  let! namespace := or_raise (catalog_reference_namespace raw) NOT_A_REFERENCE in
  let! relative := or_raise (after_first ":" raw) NOT_A_REFERENCE in
  raise_if bool_decide (relative = "") with PATH_REJECTED;;
  raise_if has_char "\" relative with PATH_REJECTED;;
  let raw_parts := split_on "/" relative in
  raise_if existsb (λ part, bool_decide (part = "")) raw_parts with PATH_REJECTED;;
  raise_if existsb (λ part, bool_decide (part = ".")) raw_parts with PATH_REJECTED;;
  raise_if existsb (λ part, bool_decide (part = "..")) raw_parts with PATH_REJECTED;;
  let filename := List.last raw_parts "" in
  let '(base, suffix) := splitext filename in
  raise_if bool_decide (suffix ∉ YAML_SUFFIXES) with PATH_REJECTED;;
  let! parts := mapM_r validate_catalog_name (removelast raw_parts) in
  let! stem := validate_catalog_name base in
  let family := head parts in
  raise_if match expected_families with
           | None => false
           | Some expected =>
               negb (match family with
                     | Some f => bool_decide (f ∈ expected)
                     | None => false
                     end)
           end with FAMILY_MISMATCH;;
  Ok {| pr_namespace := namespace; pr_relative_path := parts ++ [stem +:+ suffix];
        pr_family := family |}.

(** [CatalogRef] and its subclasses, by their names. *)
Inductive RefClass :=
| CatalogRef | BodyRef | TerminalRef | PayloadRef | ProfileRef | OrbitRef | NodeRef | SiteRef
| SiteSetRef | ConstellationRef | SpaceNodeSetRef | SessionRef | SpaceSourceRef.

Definition allowed_families (cls : RefClass) : list string :=
  match cls with
  | CatalogRef => CATALOG_FAMILIES
  | BodyRef => ["bodies"]
  | TerminalRef => ["terminals"]
  | PayloadRef => ["payloads"]
  | ProfileRef => ["profiles"]
  | OrbitRef => ["orbits"]
  | NodeRef => ["nodes"]
  | SiteRef => ["sites"]
  | SiteSetRef => ["site-sets"]
  | ConstellationRef => ["constellations"]
  | SpaceNodeSetRef => ["space-node-sets"]
  | SessionRef => ["sessions"]
  | SpaceSourceRef => ["constellations"; "space-node-sets"]
  end.

(** [CatalogRef.__new__]: the canonical spelling of the token. *)
Definition new_ref (cls : RefClass) (value : string) : result string :=
  let! parsed := parse_catalog_reference value (Some (allowed_families cls)) in
  Ok (pr_namespace parsed +:+ String ":" (join_with "/" (pr_relative_path parsed))).

(** ** The published grammar *)

Inductive regex :=
| Nothing
| Lit (text : string)
| Class (ok : ascii → bool)
| Seq (r1 r2 : regex)
| Alt (r1 r2 : regex)
| Star (r : regex).

Inductive repeated (P : string → Prop) : string → Prop :=
| repeated_nil : repeated P ""
| repeated_app s1 s2 : P s1 → repeated P s2 → repeated P (s1 +:+ s2).

Fixpoint matches (r : regex) (s : string) : Prop :=
  match r with
  | Nothing => False
  | Lit text => s = text
  | Class ok => ∃ c, s = String c "" ∧ ok c = true
  | Seq r1 r2 => ∃ s1 s2, s = s1 +:+ s2 ∧ matches r1 s1 ∧ matches r2 s2
  | Alt r1 r2 => matches r1 s ∨ matches r2 s
  | Star r => repeated (matches r) s
  end.

Definition one_of (texts : list string) : regex := foldr (λ t r, Alt (Lit t) r) Nothing texts.

(** [json_schema_pattern]; no class leaves the families open. *)
Definition component : regex := Seq (Class lower_or_digit) (Star (Class name_char)).
Definition json_schema_pattern (cls : RefClass) : regex :=
  let path := Seq (one_of (sorted str_lt (allowed_families cls)))
    (Seq (Lit "/") (Seq (Star (Seq component (Lit "/"))) component)) in
  Seq (one_of CATALOG_NAMESPACES)
    (Seq (Lit ":") (Seq path (Seq (Lit ".") (one_of ["yaml"; "yml"])))).

(** ** Lemmas on text *)

#[local] Arguments String.append !_ _ / : simpl nomatch.

Lemma append_nil_r (s : string) : s +:+ "" = s.
Proof. induction s; simpl; congruence. Qed.
Lemma append_assoc (s1 s2 s3 : string) : (s1 +:+ s2) +:+ s3 = s1 +:+ (s2 +:+ s3).
Proof. induction s1; simpl; congruence. Qed.

Lemma all_chars_app ok s1 s2 : all_chars ok (s1 +:+ s2) = all_chars ok s1 && all_chars ok s2.
Proof. induction s1; simpl; [done|]. by rewrite IHs1, andb_assoc. Qed.

Lemma all_chars_impl ok ok' s :
  (∀ c, ok c = true → ok' c = true) → all_chars ok s = true → all_chars ok' s = true.
Proof.
  intros H. induction s as [|c s IH]; simpl; [done|].
  rewrite !andb_true_iff. naive_solver.
Qed.

Lemma join_split c s : join_with c (split_on c s) = s.
Proof.
  induction s as [|x s IH]; simpl; [done|].
  case_bool_decide as Hx.
  - subst x. destruct (split_on c s) as [|p ps] eqn:E; simpl in *; [by subst|]. by rewrite IH.
  - destruct (split_on c s) as [|p ps] eqn:E; simpl in *; [by subst|].
    destruct ps; simpl in *; congruence.
Qed.

Lemma split_on_ne c s : split_on c s ≠ [].
Proof. destruct s; simpl; [done|]. case_bool_decide; [done|]. by destruct (split_on c s). Qed.

Lemma split_on_plain c p : has_char c p = false → split_on c p = [p].
Proof.
  unfold has_char. rewrite negb_false_iff.
  induction p as [|x p IH]; simpl; [done|].
  rewrite andb_true_iff, negb_true_iff, bool_decide_eq_false. intros [Hx Hp].
  rewrite bool_decide_false, IH by done. done.
Qed.

Lemma split_on_cons c p s :
  has_char c p = false → split_on c (p +:+ String c s) = p :: split_on c s.
Proof.
  unfold has_char. rewrite negb_false_iff.
  induction p as [|x p IH]; simpl.
  - intros _. by rewrite bool_decide_true.
  - rewrite andb_true_iff, negb_true_iff, bool_decide_eq_false. intros [Hx Hp].
    rewrite bool_decide_false, IH by done. done.
Qed.

Lemma split_join c parts :
  parts ≠ [] → Forall (λ p, has_char c p = false) parts → split_on c (join_with c parts) = parts.
Proof.
  intros Hne. induction parts as [|p [|q parts] IH]; intros H; [done| |].
  - apply split_on_plain. by inversion H.
  - apply Forall_cons in H as [Hp H]. cbn [join_with].
    rewrite split_on_cons by done. f_equal. by apply IH.
Qed.

(** ** Suffixes *)

Lemma split_last_dot_app s l r : split_last_dot s = Some (l, r) → s = l +:+ r.
Proof.
  revert l r. induction s as [|c s IH]; simpl; intros l r; [done|].
  destruct (split_last_dot s) as [[l' r']|].
  - intros [= <- <-]. simpl. by rewrite (IH l' r').
  - case_bool_decide; [|done]. by intros [= <- <-].
Qed.

Lemma splitext_app name : (splitext name).1 +:+ (splitext name).2 = name.
Proof.
  unfold splitext. destruct (split_last_dot name) as [[l r]|] eqn:E; [|apply append_nil_r].
  destruct (all_chars _ l); [apply append_nil_r|]. symmetry. by apply split_last_dot_app.
Qed.

Lemma split_last_dot_skip s r l r' :
  split_last_dot r = Some (l, r') → split_last_dot (s +:+ r) = Some (s +:+ l, r').
Proof. intros H. induction s; simpl; [done|]. by rewrite IHs. Qed.

(** ** Names *)

Lemma name_has_no c value :
  is_catalog_name value = true → name_char c = false → has_char c value = false.
Proof.
  intros Hn Hc. unfold has_char. rewrite negb_false_iff.
  destruct value as [|x value]; [done|]. simpl in *. apply andb_true_iff in Hn as [Hx Hv].
  assert (∀ y, name_char y = true → negb (bool_decide (y = c)) = true) as Hy.
  { intros y Hy. rewrite negb_true_iff, bool_decide_eq_false. congruence. }
  rewrite andb_true_iff. split; [apply Hy; unfold name_char; by rewrite Hx|].
  eapply all_chars_impl; [|done]. done.
Qed.

Lemma validate_name value v :
  validate_catalog_name value = Ok v ↔ v = value ∧ is_catalog_name value = true.
Proof.
  unfold validate_catalog_name. split.
  - intros H. repeat apply raise_if_Ok in H as [? H]. injection H as <-.
    split; [done|]. by apply negb_false_iff.
  - intros [-> Hn]. rewrite !name_has_no by done. simpl.
    rewrite bool_decide_false; [by rewrite Hn|]. intros ->. done.
Qed.

Lemma validate_names values vs :
  mapM_r validate_catalog_name values = Ok vs ↔
  vs = values ∧ Forall (λ v, is_catalog_name v = true) values.
Proof.
  revert vs. induction values as [|v values IH]; intros vs; simpl.
  - split; [by intros [= <-]|]. by intros [-> _].
  - rewrite rbind_Ok, Forall_cons. setoid_rewrite rbind_Ok.
    setoid_rewrite validate_name. setoid_rewrite IH. split.
    + intros (? & [-> ?] & ? & [-> ?] & [= <-]). done.
    + intros (-> & ? & ?). naive_solver.
Qed.

(** ** What is accepted *)

(** The shape of an accepted reference. *)
Definition shaped (families : list string) (value : string) (r : ParsedCatalogReference) : Prop :=
  ∃ family dirs stem suffix,
    pr_namespace r ∈ CATALOG_NAMESPACES ∧ family ∈ families ∧
    Forall (λ d, is_catalog_name d = true) (family :: dirs) ∧ is_catalog_name stem = true ∧
    suffix ∈ YAML_SUFFIXES ∧ pr_relative_path r = (family :: dirs) ++ [stem +:+ suffix] ∧
    pr_family r = Some family ∧
    value = pr_namespace r +:+ String ":" (join_with "/" (pr_relative_path r)).

Lemma prefix_app p s : String.prefix p s = true → ∃ r, s = p +:+ r.
Proof.
  revert s. induction p as [|c p IH]; intros [|x s]; simpl; try done.
  - by exists "".
  - intros _. by eexists.
  - destruct (Ascii.ascii_dec c x) as [->|]; [|done].
    intros [r ->]%IH. by exists r.
Qed.

Lemma after_first_skip c p s : has_char c p = false → after_first c (p +:+ String c s) = Some s.
Proof.
  unfold has_char. rewrite negb_false_iff.
  induction p as [|x p IH]; simpl.
  - intros _. by rewrite bool_decide_true.
  - rewrite andb_true_iff, negb_true_iff, bool_decide_eq_false. intros [Hx Hp].
    rewrite bool_decide_false by done. by apply IH.
Qed.

Lemma namespace_no_colon ns : ns ∈ CATALOG_NAMESPACES → has_char ":" ns = false.
Proof. intros H. repeat apply elem_of_cons in H as [->|H]; try done. by apply elem_of_nil in H. Qed.

Lemma namespace_of_app ns rest :
  ns ∈ CATALOG_NAMESPACES → catalog_reference_namespace (ns +:+ String ":" rest) = Some ns.
Proof.
  intros H. destruct rest;
    (repeat apply elem_of_cons in H as [->|H]; [reflexivity..|]); by apply elem_of_nil in H.
Qed.

Lemma has_char_join c d parts :
  c ≠ d → Forall (λ p, has_char c p = false) parts → has_char c (join_with d parts) = false.
Proof.
  intros Hc. induction parts as [|p [|q parts] IH]; intros H; [done|by inversion H|].
  apply Forall_cons in H as [Hp H]. specialize (IH H). cbn [join_with].
  unfold has_char in *. rewrite negb_false_iff in *. rewrite all_chars_app, Hp. simpl.
  rewrite bool_decide_false by done. done.
Qed.

Lemma has_char_app c s1 s2 : has_char c (s1 +:+ s2) = has_char c s1 || has_char c s2.
Proof. unfold has_char. by rewrite all_chars_app, negb_andb. Qed.

Definition starts_ok (p : string) : bool :=
  match p with EmptyString => false | String c _ => lower_or_digit c end.

Lemma name_starts p s : is_catalog_name p = true → starts_ok (p +:+ s) = true.
Proof. destruct p as [|c p]; [done|]. simpl. by rewrite andb_true_iff; intros [-> _]. Qed.

Lemma none_special special parts :
  starts_ok special = false → Forall (λ p, starts_ok p = true) parts →
  existsb (λ part, bool_decide (part = special)) parts = false.
Proof.
  intros Hs H. induction H as [|p parts Hp _ IH]; [done|]. simpl. rewrite IH, orb_false_r.
  rewrite bool_decide_eq_false. congruence.
Qed.

Lemma splitext_file stem suffix :
  is_catalog_name stem = true → suffix ∈ YAML_SUFFIXES →
  splitext (stem +:+ suffix) = (stem, suffix).
Proof.
  intros Hs Hx. unfold splitext. rewrite (split_last_dot_skip stem suffix "" suffix).
  2: { repeat apply elem_of_cons in Hx as [->|Hx]; [done..|]. by apply elem_of_nil in Hx. }
  rewrite append_nil_r. destruct stem as [|c stem]; [done|]. simpl in *.
  apply andb_true_iff in Hs as [Hc _]. rewrite bool_decide_false; [done|]. by intros ->.
Qed.

Lemma suffix_plain c suffix :
  suffix ∈ YAML_SUFFIXES → c ∈ ["/"; "\"]%char → has_char c suffix = false.
Proof.
  intros H Hc. repeat apply elem_of_cons in H as [->|H]; [| |by apply elem_of_nil in H];
    repeat apply elem_of_cons in Hc as [->|Hc]; try done; by apply elem_of_nil in Hc.
Qed.

Lemma parts_plain c family dirs stem suffix :
  Forall (λ d, is_catalog_name d = true) (family :: dirs) → is_catalog_name stem = true →
  suffix ∈ YAML_SUFFIXES → c ∈ ["/"; "\"]%char →
  Forall (λ p, has_char c p = false) ((family :: dirs) ++ [stem +:+ suffix]).
Proof.
  intros Hd Hs Hx Hc.
  assert (name_char c = false) as Hn.
  { repeat apply elem_of_cons in Hc as [->|Hc]; try done. by apply elem_of_nil in Hc. }
  apply Forall_app. split.
  - eapply Forall_impl; [exact Hd|]. intros d Hdn. by apply name_has_no.
  - constructor; [|constructor]. rewrite has_char_app, (suffix_plain c suffix) by done.
    by rewrite name_has_no.
Qed.

Lemma parse_accepts families value r :
  shaped families value r → parse_catalog_reference value (Some families) = Ok r.
Proof.
  destruct r as [ns path fam]; unfold shaped; cbn [pr_namespace pr_relative_path pr_family].
  intros (family & dirs & stem & suffix & Hns & Hf & Hd & Hs & Hx & -> & -> & ->).
  assert (Forall (λ p, starts_ok p = true) ((family :: dirs) ++ [stem +:+ suffix])) as Hst.
  { apply Forall_app. split.
    - eapply Forall_impl; [exact Hd|]. intros d Hdn. cbv beta in *. rewrite <-(append_nil_r d). by apply name_starts.
    - constructor; [|constructor]. by apply name_starts. }
  pose proof (parts_plain "/" family dirs stem suffix Hd Hs Hx ltac:(by left)) as Hslash.
  pose proof (parts_plain "\" family dirs stem suffix Hd Hs Hx ltac:(by right; left)) as Hback.
  unfold parse_catalog_reference. rewrite namespace_of_app by done. cbn [or_raise rbind].
  rewrite after_first_skip by by apply namespace_no_colon. cbn [or_raise rbind].
  rewrite bool_decide_false.
  2: { intros E. apply (f_equal (split_on "/")) in E.
       rewrite split_join in E; [|done|done]. inversion Hst; simplify_eq/=. }
  rewrite has_char_join by done. cbv zeta.
  rewrite split_join; [|done|done].
  rewrite !none_special by done. rewrite last_last, splitext_file by done.
  rewrite bool_decide_false by by intros ?. rewrite removelast_last.
  replace (mapM_r validate_catalog_name (family :: dirs)) with (Ok (family :: dirs))
    by (symmetry; by apply validate_names).
  cbn [rbind]. replace (validate_catalog_name stem) with (Ok stem)
    by (symmetry; by apply validate_name).
  cbn [rbind head]. by rewrite bool_decide_true.
Qed.

Lemma parse_shaped families value r :
  parse_catalog_reference value (Some families) = Ok r → shaped families value r.
Proof.
  unfold parse_catalog_reference. intros (ns & Hns & H)%rbind_Ok.
  apply or_raise_Ok, find_first_Some in Hns as [Hns Hp]. apply prefix_app in Hp as [rest ->].
  rewrite append_assoc in *. cbn [String.append] in *.
  rewrite after_first_skip in H by by apply namespace_no_colon. cbn [or_raise rbind] in H.
  repeat apply raise_if_Ok in H as [? H]. cbv zeta in H.
  set (parts := split_on "/" rest) in *.
  destruct (splitext (List.last parts "")) as [base suffix] eqn:Ex.
  apply raise_if_Ok in H as [Hx H]. apply bool_decide_eq_false, dec_stable in Hx.
  apply rbind_Ok in H as (dirs & Hd & H). apply validate_names in Hd as [-> Hd].
  apply rbind_Ok in H as (stem & Hs & H). apply validate_name in Hs as [-> Hs].
  apply raise_if_Ok in H as [Hf H]. injection H as <-.
  pose proof (app_removelast_last "" (split_on_ne "/" rest)) as Hparts.
  fold parts in Hparts.
  pose proof (splitext_app (List.last parts "")) as Hfile. rewrite Ex in Hfile. simpl in Hfile.
  destruct (removelast parts) as [|family dirs]; [done|].
  simpl in Hf. apply negb_false_iff, bool_decide_eq_true in Hf.
  exists family, dirs, base, suffix. cbn [pr_namespace pr_relative_path pr_family].
  rewrite Hfile. split_and!; try done. rewrite <-Hparts. unfold parts. by rewrite join_split.
Qed.

(** ** The grammar *)

Lemma matches_one_of texts s : matches (one_of texts) s ↔ s ∈ texts.
Proof.
  induction texts as [|t texts IH]; simpl; [by rewrite elem_of_nil|].
  by rewrite IH, elem_of_cons.
Qed.

Lemma matches_chars ok s : matches (Star (Class ok)) s ↔ all_chars ok s = true.
Proof.
  simpl. split.
  - induction 1 as [|? s2 (c & -> & Hc) _ IH]; [done|]. simpl. by rewrite Hc.
  - induction s as [|c s IH]; intros H; [constructor|]. simpl in H.
    apply andb_true_iff in H as [Hc Hs].
    apply (repeated_app _ (String c "")); [by exists c|by apply IH].
Qed.

Lemma matches_component s : matches component s ↔ is_catalog_name s = true.
Proof.
  unfold component. cbn [matches]. split.
  - intros (? & s2 & -> & (c & -> & Hc) & Hs%matches_chars). simpl. by rewrite Hc, Hs.
  - destruct s as [|c s]; [done|]. simpl. intros [Hc Hs]%andb_true_iff.
    exists (String c ""), s. split_and!; [done|by exists c|by apply matches_chars].
Qed.

Definition dir_text (dirs : list string) : string :=
  foldr (λ d text, d +:+ String "/" text) "" dirs.

Lemma matches_dirs s :
  matches (Star (Seq component (Lit "/"))) s ↔
  ∃ dirs, s = dir_text dirs ∧ Forall (λ d, is_catalog_name d = true) dirs.
Proof.
  split.
  - cbn [matches]. induction 1 as [|? s2 (d & ? & -> & Hd & ->) _ (dirs & -> & Hdirs)].
    { exists []. by split. }
    exists (d :: dirs). simpl. rewrite append_assoc. split; [done|].
    constructor; [by apply matches_component|done].
  - intros (dirs & -> & Hdirs). induction Hdirs as [|d dirs Hd _ IH]; [constructor|].
    simpl. replace (d +:+ String "/" (dir_text dirs)) with ((d +:+ "/") +:+ dir_text dirs)
      by by rewrite append_assoc.
    constructor; [|done]. exists d, "/". split_and!; [done|by apply matches_component|done].
Qed.

Ltac assoc_text := repeat (progress (simpl; rewrite ?append_assoc)).

Lemma join_path dirs file : join_with "/" (dirs ++ [file]) = dir_text dirs +:+ file.
Proof.
  induction dirs as [|d dirs IH]; [done|]. simpl. rewrite append_assoc. simpl. rewrite <-IH.
  by destruct dirs.
Qed.

Lemma families_named cls : Forall (λ f, is_catalog_name f = true) (allowed_families cls).
Proof. destruct cls; repeat constructor. Qed.

Lemma suffix_of_kind suffix :
  suffix ∈ YAML_SUFFIXES ↔ ∃ kind, suffix = String "." kind ∧ kind ∈ ["yaml"; "yml"].
Proof.
  unfold YAML_SUFFIXES. rewrite !elem_of_cons, elem_of_nil.
  setoid_rewrite elem_of_cons. setoid_rewrite elem_of_cons. setoid_rewrite elem_of_nil.
  naive_solver.
Qed.

Lemma matches_shaped cls value :
  matches (json_schema_pattern cls) value ↔ ∃ r, shaped (allowed_families cls) value r.
Proof.
  unfold json_schema_pattern, shaped. cbn [matches]. split.
  - intros (ns & ? & -> & Hns & ? & ? & -> & -> & path & ? & -> & Hpath & ? & kind & -> & -> & Hk).
    apply matches_one_of in Hns, Hk.
    destruct Hpath as (family & ? & -> & Hf & ? & ? & -> & -> & ? & stem & -> & Hd & Hs).
    apply matches_one_of, elem_of_sorted in Hf. apply matches_component in Hs.
    apply matches_dirs in Hd as (dirs & -> & Hd).
    exists {| pr_namespace := ns; pr_relative_path := (family :: dirs) ++ [stem +:+ String "." kind];
              pr_family := Some family |}.
    exists family, dirs, stem, (String "." kind). cbn [pr_namespace pr_relative_path pr_family].
    rewrite join_path. split_and!; try done.
    + constructor; [|done]. pose proof (families_named cls) as Hn. rewrite Forall_forall in Hn. auto.
    + apply suffix_of_kind. by exists kind.
    + assoc_text. done.
  - intros (r & family & dirs & stem & suffix & Hns & Hf & [Hfn Hd]%Forall_cons & Hs & Hx & Hp & _ & ->).
    apply suffix_of_kind in Hx as (kind & -> & Hk). rewrite Hp, join_path.
    change (dir_text (family :: dirs)) with (family +:+ String "/" (dir_text dirs)).
    exists (pr_namespace r), (":" +:+ (family +:+ String "/" (dir_text dirs)) +:+ (stem +:+ String "." kind)).
    split_and!; [done|by apply matches_one_of|].
    exists ":", ((family +:+ String "/" (dir_text dirs +:+ stem)) +:+ String "." kind).
    split_and!; [by assoc_text|done|].
    exists (family +:+ String "/" (dir_text dirs +:+ stem)), (String "." kind).
    split_and!; [done| |].
    + exists family, (String "/" (dir_text dirs +:+ stem)).
      split_and!; [done|by apply matches_one_of, elem_of_sorted|].
      exists "/", (dir_text dirs +:+ stem). split_and!; [done..|].
      exists (dir_text dirs), stem. split_and!; [done| |by apply matches_component].
      apply matches_dirs. by exists dirs.
    + exists ".", kind. split_and!; [done..|]. by apply matches_one_of.
Qed.

(** C40: The parser and the published pattern are one grammar.  A class accepts exactly
    the texts its JSON schema pattern matches, and the canonical spelling of an
    accepted reference is the text itself. *)
Theorem reference_grammar cls value ref :
  new_ref cls value = Ok ref ↔ ref = value ∧ matches (json_schema_pattern cls) value.
Proof.
  unfold new_ref. rewrite matches_shaped. split.
  - intros (r & Hr & [= <-])%rbind_Ok. apply parse_shaped in Hr. split; [|by exists r].
    by destruct Hr as (? & ? & ? & ? & ? & ? & ? & ? & ? & ? & ? & ->).
  - intros [-> [r Hr]]. rewrite (parse_accepts _ _ _ Hr). cbn [rbind].
    by destruct Hr as (? & ? & ? & ? & ? & ? & ? & ? & ? & ? & ? & ->).
Qed.

Example session_ref_accepts :
  new_ref SessionRef "nodalarc:sessions/leo/polar-2.yaml" = Ok "nodalarc:sessions/leo/polar-2.yaml".
Proof. vm_compute. reflexivity. Qed.
Example traversal_refused :
  new_ref SessionRef "user:sessions/../secrets.yaml" = Raise PATH_REJECTED.
Proof. vm_compute. reflexivity. Qed.
Example other_family_refused :
  new_ref SessionRef "user:bodies/mars.yml" = Raise FAMILY_MISMATCH.
Proof. vm_compute. reflexivity. Qed.
