(* ===== verification/TransitionOperation.v ===== *)
(** * Session transitions: the records ([services/vs_api/transition_operations.py])

    VS-API replaces the running session by an admitted transition.  Each has a
    durable record: what was admitted, a state that only moves forward, the events
    that brought it there, and the evidence of its end.  This file holds the models
    of [lib/nodalarc/models/session_sources.py] and of [transition_operations.py]
    with the validators that run when one is built, and the three functions that
    make a record from another: [_new_record], [_advanced_record] and
    [_patched_provenance].

    A model is a record; its validator is a boolean, and building an invalid one
    raises [ValueError] as pydantic's [ValidationError] does.  A nested model passed
    as an object is not validated again.  Lengths count characters. *)

From S2P Require Import Prelude.
From S2P Require Import PyData.
From S2P Require Import PyTime.
From S2P Require Import CatalogRefs.
From stdpp Require Import base list strings.
From Stdlib Require Import Ascii.
Local Open Scope Z_scope.

(** ** Constraints on fields *)

Definition text_len (s : string) : Z := Z.of_nat (String.length s).
Definition len_within (lo hi : Z) (s : string) : bool := (lo <=? text_len s) && (text_len s <=? hi).
Definition optional {A} (ok : A → bool) (o : option A) : bool :=
  match o with Some a => ok a | None => true end.

Definition upper (c : ascii) : bool := in_range "A" "Z" c.
Definition lower (c : ascii) : bool := in_range "a" "z" c.
Definition decimal (c : ascii) : bool := in_range "0" "9" c.

(** [OPERATION_ID_PATTERN], and the models' own bounds on its length. *)
Definition operation_id_ok (s : string) : bool :=
  match s with
  | EmptyString => false
  | String c rest =>
      (upper c || lower c || decimal c) &&
      all_chars (λ c, upper c || lower c || decimal c || bool_decide (c = "_"%char) ||
                      bool_decide (c = "-"%char)) rest &&
      len_within 15 127 rest
  end.

Fixpoint last_char (s : string) : option ascii :=
  match s with
  | EmptyString => None
  | String c EmptyString => Some c
  | String _ rest => last_char rest
  end.

(** [_KUBERNETES_NAME_PATTERN], at most 253 characters. *)
Definition kubernetes_name (s : string) : bool :=
  len_within 1 253 s &&
  match s with EmptyString => false | String c _ => lower_or_digit c end &&
  match last_char s with Some c => lower_or_digit c | None => false end &&
  all_chars (λ c, lower_or_digit c || bool_decide (c = "-"%char) || bool_decide (c = "."%char)) s.

Definition sha256_digest_ok (s : string) : bool :=
  String.prefix "sha256:" s && bool_decide (String.length s = 71%nat) &&
  all_chars (λ c, decimal c || in_range "a" "f" c) (String.substring 7 64 s).

(** ** The models *)

Inductive TransitionOperationState :=
| RESERVED | COLLECTING | UPLOADING | VERIFYING | SWITCHING | SUCCEEDED | FAILED | CANCELLED.

#[global] Instance transition_state_eq_dec : EqDecision TransitionOperationState.
Proof. solve_decision. Defined.

Definition terminal (s : TransitionOperationState) : bool :=
  match s with SUCCEEDED | FAILED | CANCELLED => true | _ => false end.

(** [kind] has one value, [catalog_session]. *)
Record TransitionOperationSource := { so_logical_id : string }.

Definition source_ok (s : TransitionOperationSource) : bool :=
  len_within 1 512 (so_logical_id s) &&
  match new_ref SessionRef (so_logical_id s) with
  | Ok canonical => bool_decide (canonical = so_logical_id s)
  | Raise _ => false
  end.

Record TransitionOperationFacts := {
  fa_document_digest : option string;
  fa_closure_digest : option string;
  fa_resolved_semantic_digest : option string;
  fa_file_count : option Z;
  fa_total_bytes : option Z;
  fa_release : string;
  fa_build : string;
}.

Definition facts_ok (f : TransitionOperationFacts) : bool :=
  optional sha256_digest_ok (fa_document_digest f) &&
  optional sha256_digest_ok (fa_closure_digest f) &&
  optional sha256_digest_ok (fa_resolved_semantic_digest f) &&
  optional (λ n, 0 <=? n) (fa_file_count f) && optional (λ n, 0 <? n) (fa_total_bytes f) &&
  len_within 1 128 (fa_release f) && len_within 1 128 (fa_build f).

Record TransitionOperationEvent := {
  te_state : TransitionOperationState;
  te_occurred_at : datetime;
  te_detail : option string;
}.

Definition event_ok (e : TransitionOperationEvent) : bool :=
  optional (len_within 1 512) (te_detail e).

Record TransitionOperationFailure := {
  tf_code : string;
  tf_message : string;
  tf_cause_type : option string;
}.

Definition failure_ok (f : TransitionOperationFailure) : bool :=
  len_within 1 128 (tf_code f) && len_within 1 512 (tf_message f) &&
  optional (len_within 1 128) (tf_cause_type f).

Record TransitionRuntimeResult := { rr_session_id : string; rr_generation : Z }.

Definition runtime_ok (r : TransitionRuntimeResult) : bool :=
  len_within 1 128 (rr_session_id r) && (0 <? rr_generation r).

Record TransitionRuntimePlan := { rp_namespace : string; rp_name : string }.

Definition plan_ok (p : TransitionRuntimePlan) : bool :=
  kubernetes_name (rp_namespace p) && kubernetes_name (rp_name p).

Record TransitionRuntimeStatusProof := {
  sp_observed_generation : option Z;
  sp_phase : option string;
  sp_session_id : option string;
  sp_pod_count : option Z;
  sp_ready_pods : option Z;
  sp_wired_pods : option Z;
  sp_document_digest : option string;
  sp_closure_digest : option string;
  sp_resolved_semantic_digest : option string;
  sp_release : option string;
  sp_build : option string;
}.

Definition status_proof_ok (p : TransitionRuntimeStatusProof) : bool :=
  optional (λ n, 0 <? n) (sp_observed_generation p) && optional (len_within 1 64) (sp_phase p) &&
  optional (len_within 1 128) (sp_session_id p) && optional (λ n, 0 <=? n) (sp_pod_count p) &&
  optional (λ n, 0 <=? n) (sp_ready_pods p) && optional (λ n, 0 <=? n) (sp_wired_pods p) &&
  optional sha256_digest_ok (sp_document_digest p) &&
  optional sha256_digest_ok (sp_closure_digest p) &&
  optional sha256_digest_ok (sp_resolved_semantic_digest p) &&
  optional (len_within 1 128) (sp_release p) && optional (len_within 1 128) (sp_build p).

Record TransitionConstellationSpecObservation := {
  co_namespace : string;
  co_name : string;
  co_generation : Z;
  co_status : TransitionRuntimeStatusProof;
}.

Definition observation_ok (o : TransitionConstellationSpecObservation) : bool :=
  kubernetes_name (co_namespace o) && kubernetes_name (co_name o) && (0 <? co_generation o) &&
  status_proof_ok (co_status o).

Record TransitionOperationProvenance := {
  pv_source_revision : option string;
  pv_repository_generation : option string;
  pv_upload_id : option string;
  pv_upload_resource_names : list string;
  pv_runtime_plan : option TransitionRuntimePlan;
  pv_constellation_spec : option TransitionConstellationSpecObservation;
}.

(** The fields, then [_internal_provenance_is_consistent]. *)
Definition provenance_ok (p : TransitionOperationProvenance) : bool :=
  optional sha256_digest_ok (pv_source_revision p) &&
  optional (len_within 1 256) (pv_repository_generation p) &&
  optional (len_within 1 128) (pv_upload_id p) &&
  forallb kubernetes_name (pv_upload_resource_names p) &&
  optional plan_ok (pv_runtime_plan p) && optional observation_ok (pv_constellation_spec p) &&
  bool_decide (NoDup (pv_upload_resource_names p)) &&
  (bool_decide (pv_upload_resource_names p = []) || bool_decide (pv_upload_id p ≠ None)) &&
  match pv_constellation_spec p with
  | None => true
  | Some o =>
      match pv_runtime_plan p with
      | None => false
      | Some plan =>
          bool_decide (co_namespace o = rp_namespace plan) && bool_decide (co_name o = rp_name plan)
      end
  end.

(** A patch holds exactly one of its two fields. *)
Inductive TransitionOperationProvenancePatch :=
| UploadResource (name : string)
| Observed (o : TransitionConstellationSpecObservation).

Definition patch_ok (p : TransitionOperationProvenancePatch) : bool :=
  match p with UploadResource name => kubernetes_name name | Observed o => observation_ok o end.

Record StoredTransitionOperation := {
  op_operation_id : string;
  op_state : TransitionOperationState;
  op_source : TransitionOperationSource;
  op_facts : TransitionOperationFacts;
  op_created_at : datetime;
  op_updated_at : datetime;
  op_events : list TransitionOperationEvent;
  op_failure : option TransitionOperationFailure;
  op_runtime : option TransitionRuntimeResult;
  op_version : Z;
  op_provenance : TransitionOperationProvenance;
}.

#[global] Instance source_eq_dec : EqDecision TransitionOperationSource.
Proof. solve_decision. Defined.
#[global] Instance facts_eq_dec : EqDecision TransitionOperationFacts.
Proof. solve_decision. Defined.
#[global] Instance transition_event_eq_dec : EqDecision TransitionOperationEvent.
Proof. solve_decision. Defined.
#[global] Instance failure_eq_dec : EqDecision TransitionOperationFailure.
Proof. solve_decision. Defined.
#[global] Instance runtime_result_eq_dec : EqDecision TransitionRuntimeResult.
Proof. solve_decision. Defined.
#[global] Instance runtime_plan_eq_dec : EqDecision TransitionRuntimePlan.
Proof. solve_decision. Defined.
#[global] Instance status_proof_eq_dec : EqDecision TransitionRuntimeStatusProof.
Proof. solve_decision. Defined.
#[global] Instance observation_eq_dec : EqDecision TransitionConstellationSpecObservation.
Proof. solve_decision. Defined.
#[global] Instance provenance_eq_dec : EqDecision TransitionOperationProvenance.
Proof. solve_decision. Defined.
#[global] Instance stored_operation_eq_dec : EqDecision StoredTransitionOperation.
Proof. solve_decision. Defined.

(** [_state_matches_evidence], with the constraints on the fields of the record
    itself. *)
Definition evidence_ok (r : StoredTransitionOperation) : bool :=
  operation_id_ok (op_operation_id r) && (0 <? op_version r) &&
  match last (op_events r) with
  | Some e => bool_decide (te_state e = op_state r)
  | None => false
  end &&
  negb (bool_decide (op_state r ∈ [FAILED; CANCELLED]) && bool_decide (op_failure r = None)) &&
  negb (negb (terminal (op_state r)) &&
        (bool_decide (op_failure r ≠ None) || bool_decide (op_runtime r ≠ None))).

(** Everything a record read from text satisfies. *)
Definition stored_ok (r : StoredTransitionOperation) : bool :=
  evidence_ok r && source_ok (op_source r) && facts_ok (op_facts r) &&
  forallb event_ok (op_events r) && optional failure_ok (op_failure r) &&
  optional runtime_ok (op_runtime r) && provenance_ok (op_provenance r).

Definition build_record (r : StoredTransitionOperation) : result StoredTransitionOperation :=
  raise_if negb (evidence_ok r) with ValueError "invalid transition operation record";; Ok r.
Definition build_event (e : TransitionOperationEvent) : result TransitionOperationEvent :=
  raise_if negb (event_ok e) with ValueError "invalid transition event";; Ok e.
Definition build_provenance (p : TransitionOperationProvenance) :
    result TransitionOperationProvenance :=
  raise_if negb (provenance_ok p) with ValueError "invalid transition provenance";; Ok p.

Record TransitionOperationReservation := {
  rs_source : TransitionOperationSource;
  rs_facts : TransitionOperationFacts;
  rs_provenance : TransitionOperationProvenance;
}.

Definition reservation_ok (r : TransitionOperationReservation) : bool :=
  source_ok (rs_source r) && facts_ok (rs_facts r) && provenance_ok (rs_provenance r).

(** ** Making a record *)

Definition StateError (what : string) : exn := Raised "TransitionOperationStateError" what.

Definition state_order (s : TransitionOperationState) : Z :=
  match s with
  | RESERVED => 0 | COLLECTING => 1 | UPLOADING => 2 | VERIFYING => 3 | SWITCHING => 4
  | _ => 5
  end.

Definition validated_operation_id (operation_id : string) : result string :=
  raise_if negb (operation_id_ok operation_id) with ValueError "operation_id must be opaque";;
  Ok operation_id.

Definition new_record (operation_id : string) (reservation : TransitionOperationReservation)
    (now : datetime) : result StoredTransitionOperation :=
  let! operation_id := validated_operation_id operation_id in
  let! event := build_event {| te_state := RESERVED; te_occurred_at := now;
                               te_detail := Some "Transition reserved" |} in
  build_record
    {| op_operation_id := operation_id; op_state := RESERVED; op_source := rs_source reservation;
       op_facts := rs_facts reservation; op_created_at := now; op_updated_at := now;
       op_events := [event]; op_failure := None; op_runtime := None; op_version := 1;
       op_provenance := rs_provenance reservation |}.

(** What [advance] is asked for. *)
Record Advance := {
  ad_state : TransitionOperationState;
  ad_detail : option string;
  ad_failure : option TransitionOperationFailure;
  ad_runtime : option TransitionRuntimeResult;
}.

(** The record after an advance; [None] when the record itself is returned. *)
Definition advanced_record (current : StoredTransitionOperation) (a : Advance) (now : datetime) :
    result (option StoredTransitionOperation) :=
  let state := ad_state a in
  if terminal (op_state current) then
    if bool_decide (op_state current = state) then Ok None
    else Raise (StateError "terminal transition operations are immutable")
  else
  raise_if negb (terminal state) && (state_order state <? state_order (op_state current))
    with StateError "operation state cannot regress";;
  let! _ :=
    match state with
    | SUCCEEDED =>
        raise_if bool_decide (ad_failure a ≠ None)
          with StateError "success cannot carry failure evidence";; Ok tt
    | FAILED | CANCELLED =>
        raise_if bool_decide (ad_failure a = None) || bool_decide (ad_runtime a ≠ None)
          with StateError "failed or cancelled transitions require failure evidence only";; Ok tt
    | _ =>
        raise_if bool_decide (ad_failure a ≠ None) || bool_decide (ad_runtime a ≠ None)
          with StateError "nonterminal transition cannot carry terminal evidence";; Ok tt
    end in
  let! event := build_event {| te_state := state; te_occurred_at := now;
                               te_detail := ad_detail a |} in
  let! r := build_record
    {| op_operation_id := op_operation_id current; op_state := state;
       op_source := op_source current; op_facts := op_facts current;
       op_created_at := op_created_at current; op_updated_at := now;
       op_events := op_events current ++ [event]; op_failure := ad_failure a;
       op_runtime := ad_runtime a; op_version := op_version current + 1;
       op_provenance := op_provenance current |} in
  Ok (Some r).

Definition with_resource (p : TransitionOperationProvenance) (name : string) :
    TransitionOperationProvenance :=
  {| pv_source_revision := pv_source_revision p;
     pv_repository_generation := pv_repository_generation p; pv_upload_id := pv_upload_id p;
     pv_upload_resource_names := pv_upload_resource_names p ++ [name];
     pv_runtime_plan := pv_runtime_plan p; pv_constellation_spec := pv_constellation_spec p |}.
Definition with_observation (p : TransitionOperationProvenance)
    (o : TransitionConstellationSpecObservation) : TransitionOperationProvenance :=
  {| pv_source_revision := pv_source_revision p;
     pv_repository_generation := pv_repository_generation p; pv_upload_id := pv_upload_id p;
     pv_upload_resource_names := pv_upload_resource_names p;
     pv_runtime_plan := pv_runtime_plan p; pv_constellation_spec := Some o |}.

Definition same_identity (o o' : TransitionConstellationSpecObservation) : bool :=
  bool_decide (co_namespace o = co_namespace o') && bool_decide (co_name o = co_name o') &&
  (co_generation o =? co_generation o').

(** The provenance a patch leaves; [None] when it changes nothing. *)
Definition patched (provenance : TransitionOperationProvenance)
    (patch : TransitionOperationProvenancePatch) : result (option TransitionOperationProvenance) :=
  match patch with
  | UploadResource name =>
      raise_if bool_decide (pv_upload_id provenance = None)
        with StateError "upload resource evidence requires an upload id";;
      if bool_decide (name ∈ pv_upload_resource_names provenance) then Ok None
      else let! p := build_provenance (with_resource provenance name) in Ok (Some p)
  | Observed observation =>
      raise_if match pv_constellation_spec provenance with
               | Some existing => negb (same_identity existing observation)
               | None => false
               end
        with StateError "selected ConstellationSpec identity cannot change after observation";;
      if bool_decide (pv_constellation_spec provenance = Some observation) then Ok None
      else let! p := build_provenance (with_observation provenance observation) in Ok (Some p)
  end.

Definition patched_provenance (current : StoredTransitionOperation)
    (patch : TransitionOperationProvenancePatch) (now : datetime) :
    result (option StoredTransitionOperation) :=
  raise_if terminal (op_state current)
    with StateError "terminal transition operations are immutable";;
  let! changed := patched (op_provenance current) patch in
  match changed with
  | None => Ok None
  | Some provenance =>
      let! r := build_record
        {| op_operation_id := op_operation_id current; op_state := op_state current;
           op_source := op_source current; op_facts := op_facts current;
           op_created_at := op_created_at current; op_updated_at := now;
           op_events := op_events current; op_failure := op_failure current;
           op_runtime := op_runtime current; op_version := op_version current + 1;
           op_provenance := provenance |} in
      Ok (Some r)
  end.
