(* ===== verification/TransitionStore.v ===== *)
(** * Session transitions: the stores ([services/vs_api/transition_operations.py])

    Two adapters implement [TransitionOperationStore]: the durable one keeps a file
    per record in a directory of the VS-API volume, the other keeps a dictionary.
    Both answer the same five requests, and at most one record is ever nonterminal.

    The directory is a map from names to entries.  A call on it meets the operating
    system as [Io] describes: which files cannot be read, and where a write fails.
    [_write] stages the text in a temporary file, renames it over the record, reads
    it back and syncs the directory; [write_leaves] lists what a crash in it leaves
    on the disk.  The text of a record is pydantic's: [RecordCodec] is what
    [model_dump_json] and [model_validate_json] promise.  Locks serialise the calls
    of the process, so a call is one step.

    Not modelled: permission bits, and the loss of a rename whose directory sync
    failed. *)

From S2P Require Import Prelude.
From S2P Require Import PyData.
From S2P Require Import PyTime.
From S2P Require Import CatalogRefs.
From S2P Require Import TransitionOperation.
From stdpp Require Import base list strings gmap.
Local Open Scope Z_scope.

(** ** Requests *)

Inductive Request :=
| Reserve (operation_id : string) (reservation : TransitionOperationReservation) (now : datetime)
| GetOperation (operation_id : string)
| Active
| AdvanceTo (operation_id : string) (a : Advance) (now : datetime)
| UpdateProvenance (operation_id : string) (patch : TransitionOperationProvenancePatch)
    (now : datetime).

(** The record asked for, or none for [active]. *)
Abbreviation Answer := (result (option StoredTransitionOperation)).

Definition Conflict (active_operation_id : string) : exn :=
  Raised "TransitionOperationConflictError" active_operation_id.
Definition NotFound : exn := Raised "TransitionOperationNotFoundError" "not found".
Definition StoreError (what : string) : exn := Raised "TransitionOperationStoreError" what.
Definition OSError (what : string) : exn := Raised "OSError" what.

Definition nonterminal (r : StoredTransitionOperation) : bool := negb (terminal (op_state r)).

(** The interface: a state, a context for each call, one function. *)
Class TransitionOperationStore (S C : Type) := {
  store_empty : S;
  serve : C → S → Request → S * Answer;
}.

(** Calls in sequence, with their answers. *)
Fixpoint serve_all {S C} `{!TransitionOperationStore S C} (s : S) (calls : list (C * Request)) :
    S * list Answer :=
  match calls with
  | [] => (s, [])
  | (c, q) :: calls =>
      let '(s, a) := serve c s q in
      let '(s, answers) := serve_all s calls in
      (s, a :: answers)
  end.

(** ** [InMemoryTransitionOperationStore] *)

Abbreviation Table := (dict string StoredTransitionOperation).

Definition first_active (records : list StoredTransitionOperation) :
    option StoredTransitionOperation := find_first nonterminal records.

Definition memory_get (t : Table) (operation_id : string) : result StoredTransitionOperation :=
  let! operation_id := validated_operation_id operation_id in
  or_raise (dict_get operation_id t) NotFound.

(** What a call decides before it writes: the answer, or the record to write and
    return. *)
Inductive StoreAction :=
| Return (answer : option StoredTransitionOperation)
| WriteBack (record : StoredTransitionOperation).

(** The record after a change; an unchanged one is put back as it was. *)
Definition memory_change (t : Table) (operation_id : string)
    (f : StoredTransitionOperation → result (option StoredTransitionOperation)) : result StoreAction :=
  let! current := memory_get t operation_id in
  let! changed := f current in
  Ok (WriteBack (default current changed)).

Definition memory_decide (t : Table) (q : Request) : result StoreAction :=
  match q with
  | Reserve operation_id reservation now =>
      match first_active (map snd t) with
      | Some active => Raise (Conflict (op_operation_id active))
      | None =>
          raise_if dict_mem operation_id t with Conflict operation_id;;
          let! record := new_record operation_id reservation now in
          Ok (WriteBack record)
      end
  | GetOperation operation_id => let! r := memory_get t operation_id in Ok (Return (Some r))
  | Active => Ok (Return (first_active (map snd t)))
  | AdvanceTo operation_id a now =>
      memory_change t operation_id (λ current, advanced_record current a now)
  | UpdateProvenance operation_id patch now =>
      memory_change t operation_id (λ current, patched_provenance current patch now)
  end.

Definition requested_id (q : Request) : string :=
  match q with
  | Reserve operation_id _ _ | GetOperation operation_id | AdvanceTo operation_id _ _
  | UpdateProvenance operation_id _ _ => operation_id
  | Active => ""
  end.

Definition memory_serve (t : Table) (q : Request) : Table * Answer :=
  match memory_decide t q with
  | Raise e => (t, Raise e)
  | Ok (Return answer) => (t, Ok answer)
  | Ok (WriteBack record) => (dict_set (requested_id q) record t, Ok (Some record))
  end.

#[global] Instance in_memory : TransitionOperationStore Table unit := {
  store_empty := [];
  serve := λ _ t q, memory_serve t q;
}.

(** ** [FilesystemTransitionOperationStore] *)

(** The text of records. *)
Class RecordCodec := {
  text : Type;
  text_eq_dec :: EqDecision text;
  dump_json : StoredTransitionOperation → text;
  validate_json : text → option StoredTransitionOperation;
  validate_dump r : stored_ok r = true → validate_json (dump_json r) = Some r;
  validate_ok b r : validate_json b = Some r → stored_ok r = true;
}.

Section Filesystem.
Context `{!RecordCodec}.

(** A link is known by whether it leads to a file. *)
Inductive Entry :=
| File (content : text)
| Symlink (to_file : bool)
| Folder.

Abbreviation Directory := (gmap string Entry).

Inductive WriteFault :=
| NoFault
| MkstempFails
| TempFails (partial : text)
| ReplaceFails
| Torn (found : text)
| ReadBackFails
| DirectorySyncFails.

#[global] Instance write_fault_eq_dec : EqDecision WriteFault.
Proof. solve_decision. Defined.

Record Io := {
  io_readable : string → bool;
  io_random : string;
  io_unlinks : bool;
  io_fault : WriteFault;
}.

Definition file_name (operation_id : string) : string := operation_id +:+ ".json".
Definition path (operation_id : string) : result string :=
  let! operation_id := validated_operation_id operation_id in Ok (file_name operation_id).

(** The names [glob("*.json")] gives. *)
Fixpoint ends_with (suffix name : string) : bool :=
  bool_decide (name = suffix) ||
  match name with EmptyString => false | String _ rest => ends_with suffix rest end.
Definition is_json (name : string) : bool := ends_with ".json" name.

Definition is_file (d : Directory) (name : string) : bool :=
  match d !! name with Some (File _) | Some (Symlink true) => true | _ => false end.

Definition read_path (io : Io) (d : Directory) (name : string) :
    result StoredTransitionOperation :=
  match d !! name with
  | Some (Symlink _) => Raise (StoreError "operation record must not be a symlink")
  | Some (File content) =>
      if io_readable io name then or_raise (validate_json content) (StoreError "could not read record")
      else Raise (StoreError "could not read record")
  | _ => Raise (StoreError "could not read record")
  end.

Definition record_names (d : Directory) : list string :=
  sorted str_lt (List.filter is_json (map fst (map_to_list d))).

Definition read_active (io : Io) (d : Directory) : result (option StoredTransitionOperation) :=
  let! records := mapM_r (read_path io d) (record_names d) in
  match List.filter nonterminal records with
  | [] => Ok None
  | [active] => Ok (Some active)
  | _ => Raise (StoreError "operation store contains multiple nonterminal transition records")
  end.

(** [mkstemp]'s name. *)
Definition temp_name (io : Io) (operation_id : string) : string :=
  "." +:+ operation_id +:+ "." +:+ io_random io +:+ ".tmp".

Definition not_persisted : exn := StoreError "could not persist transition operation record".

(** The directory once the temporary file is removed, or could not be. *)
Definition drop_temp (io : Io) (d : Directory) (temporary : string) (content : text) : Directory :=
  if io_unlinks io then d else <[temporary := File content]> d.

Definition write (io : Io) (d : Directory) (record : StoredTransitionOperation) :
    Directory * result unit :=
  match path (op_operation_id record) with
  | Raise e => (d, Raise e)
  | Ok target =>
      let payload := dump_json record in
      let temporary := temp_name io (op_operation_id record) in
      let replaced := <[target := File payload]> d in
      if bool_decide (io_fault io = MkstempFails) || bool_decide (is_Some (d !! temporary)) then
        (d, Raise (OSError "mkstemp"))
      else
      match io_fault io, d !! target with
      | TempFails partial, _ => (drop_temp io d temporary partial, Raise not_persisted)
      | ReplaceFails, _ | _, Some Folder =>
          (drop_temp io d temporary payload, Raise not_persisted)
      | Torn found, _ =>
          if bool_decide (found = payload) then (replaced, Ok tt)
          else (<[target := File found]> d,
                Raise (StoreError "transition operation exact-byte verification failed"))
      | ReadBackFails, _ | DirectorySyncFails, _ => (replaced, Raise not_persisted)
      | _, _ => (replaced, Ok tt)
      end
  end.

(** [advance] and [update_provenance]: an unchanged record is not written. *)
Definition file_change (io : Io) (d : Directory) (operation_id : string)
    (f : StoredTransitionOperation → result (option StoredTransitionOperation)) : result StoreAction :=
  let! name := path operation_id in
  raise_if negb (is_file d name) with NotFound;;
  let! current := read_path io d name in
  let! changed := f current in
  Ok (match changed with Some updated => WriteBack updated | None => Return (Some current) end).

Definition file_decide (io : Io) (d : Directory) (q : Request) : result StoreAction :=
  match q with
  | Reserve operation_id reservation now =>
      let! active := read_active io d in
      match active with
      | Some active => Raise (Conflict (op_operation_id active))
      | None =>
          let! target := path operation_id in
          raise_if bool_decide (is_Some (d !! target)) with Conflict operation_id;;
          let! record := new_record operation_id reservation now in
          Ok (WriteBack record)
      end
  | GetOperation operation_id =>
      let! name := path operation_id in
      raise_if negb (is_file d name) with NotFound;;
      let! r := read_path io d name in
      Ok (Return (Some r))
  | Active => let! active := read_active io d in Ok (Return active)
  | AdvanceTo operation_id a now =>
      file_change io d operation_id (λ current, advanced_record current a now)
  | UpdateProvenance operation_id patch now =>
      file_change io d operation_id (λ current, patched_provenance current patch now)
  end.

Definition file_serve (io : Io) (d : Directory) (q : Request) : Directory * Answer :=
  match file_decide io d q with
  | Raise e => (d, Raise e)
  | Ok (Return answer) => (d, Ok answer)
  | Ok (WriteBack record) =>
      let '(d, r) := write io d record in (d, let! _ := r in Ok (Some record))
  end.

#[global] Instance filesystem : TransitionOperationStore Directory Io := {
  store_empty := ∅;
  serve := file_serve;
}.

(** What a crash inside [_write] leaves: nothing done, a temporary file half
    written or whole, or the rename done. *)
Definition write_leaves (d : Directory) (record : StoredTransitionOperation) (temporary : string)
    (partial : text) : list Directory :=
  [d; <[temporary := File partial]> d; <[temporary := File (dump_json record)]> d;
   <[file_name (op_operation_id record) := File (dump_json record)]> d].

End Filesystem.
