(* ===== verification/TransitionTheorems.v ===== *)
(** * Session transitions: what the records and the stores promise

    A record's history only moves forward and ends at its terminal state; the
    durable store and the dictionary give the same answers; and whatever fails or
    crashes, the directory holds the records of some dictionary. *)

From S2P Require Import Prelude.
From S2P Require Import PyData.
From S2P Require Import PyTime.
From S2P Require Import CatalogRefs.
From S2P Require Import TransitionOperation.
From S2P Require Import TransitionStore.
From stdpp Require Import base list strings gmap.
From Stdlib Require Import Lia Sorted Ascii.
Local Open Scope Z_scope.

(** ** Records *)

Definition follows (e e' : TransitionOperationEvent) : Prop :=
  terminal (te_state e) = false ∧ state_order (te_state e) ≤ state_order (te_state e').

(** The events start at the reservation and never go back; nothing follows a
    terminal one. *)
Definition history_ok (r : StoredTransitionOperation) : Prop :=
  (∃ e, head (op_events r) = Some e ∧ te_state e = RESERVED) ∧
  StronglySorted follows (op_events r).

(** What the arguments of a request satisfy because they are models. *)
Definition request_ok (q : Request) : bool :=
  match q with
  | Reserve _ reservation _ => reservation_ok reservation
  | AdvanceTo _ a _ => optional failure_ok (ad_failure a) && optional runtime_ok (ad_runtime a)
  | UpdateProvenance _ patch _ => patch_ok patch
  | _ => true
  end.

Definition sound (r : StoredTransitionOperation) : Prop := stored_ok r = true ∧ history_ok r.

(** How a record may change. *)
Definition succeeds (r r' : StoredTransitionOperation) : Prop :=
  sound r' ∧ op_operation_id r' = op_operation_id r ∧ nonterminal r = true ∧
  op_version r' = op_version r + 1 ∧ op_created_at r' = op_created_at r ∧
  op_source r' = op_source r ∧ op_facts r' = op_facts r ∧
  (∃ later, op_events r' = op_events r ++ later).

Ltac split_ok := repeat match goal with H : _ && _ = true |- _ => apply andb_true_iff in H as [? ?] end.

Lemma build_event_Ok e e' : build_event e = Ok e' ↔ e' = e ∧ event_ok e = true.
Proof. unfold build_event. rewrite raise_if_Ok, negb_false_iff. naive_solver. Qed.
Lemma build_record_Ok r r' : build_record r = Ok r' ↔ r' = r ∧ evidence_ok r = true.
Proof. unfold build_record. rewrite raise_if_Ok, negb_false_iff. naive_solver. Qed.
Lemma build_provenance_Ok p p' : build_provenance p = Ok p' ↔ p' = p ∧ provenance_ok p = true.
Proof. unfold build_provenance. rewrite raise_if_Ok, negb_false_iff. naive_solver. Qed.

Lemma new_record_sound id reservation now r :
  reservation_ok reservation = true → new_record id reservation now = Ok r →
  sound r ∧ op_operation_id r = id ∧ nonterminal r = true.
Proof.
  unfold reservation_ok, new_record. intros Hr (id' & Hid & H)%rbind_Ok.
  apply raise_if_Ok in Hid as [_ [= <-]].
  apply rbind_Ok in H as (e & [-> He]%build_event_Ok & [-> Hrec]%build_record_Ok).
  split_ok. split; [|done]. split.
  - unfold stored_ok. rewrite Hrec. simpl. by rewrite !andb_true_iff.
  - split; [by eexists|]. by repeat constructor.
Qed.

Lemma state_order_terminal s : terminal s = true → state_order s = 5.
Proof. by destruct s. Qed.
Lemma state_order_le s : state_order s ≤ 5.
Proof. destruct s; simpl; lia. Qed.

Lemma sorted_snoc l e :
  StronglySorted follows l → (∀ e', last l = Some e' → follows e' e) → StronglySorted follows (l ++ [e]).
Proof.
  intros Hl He. induction Hl as [|x l Hl IH Hx]; simpl; [by repeat constructor|].
  constructor.
  - apply IH. intros e' E. apply He. rewrite last_cons, E. done.
  - apply Forall_app. split; [done|]. constructor; [|done].
    destruct (last l) as [y|] eqn:Ey.
    + destruct (He y) as [_ Hy]; [by rewrite last_cons, Ey|].
      assert (follows x y) as [? ?].
      { rewrite Forall_forall in Hx. apply Hx. apply last_Some in Ey as [l' ->]. set_solver. }
      split; [done|lia].
    + apply He. by rewrite last_cons, Ey.
Qed.

Lemma last_event r : stored_ok r = true → ∃ e, last (op_events r) = Some e ∧ te_state e = op_state r.
Proof.
  unfold stored_ok, evidence_ok. intros H. split_ok.
  destruct (last (op_events r)) as [e|]; [|done]. exists e. split; [done|].
  by match goal with H : bool_decide (te_state e = _) = true |- _ => apply bool_decide_eq_true in H end.
Qed.

Lemma advanced_sound r a now r' :
  sound r → optional failure_ok (ad_failure a) && optional runtime_ok (ad_runtime a) = true →
  advanced_record r a now = Ok (Some r') → succeeds r r'.
Proof.
  intros [Hok [Hhead Hsort]] Ha. unfold advanced_record.
  destruct (terminal (op_state r)) eqn:Ht; [by case_bool_decide|].
  intros [Horder H]%raise_if_Ok. apply rbind_Ok in H as (_ & _ & H).
  apply rbind_Ok in H as (e & [-> He]%build_event_Ok & H).
  apply rbind_Ok in H as (r1 & [-> Hrec]%build_record_Ok & [= <-]).
  destruct (last_event r Hok) as (e0 & Hlast & He0).
  unfold stored_ok in Hok. split_ok.
  split_and!; try done; [|unfold nonterminal; by rewrite Ht|by eexists].
  split.
  - unfold stored_ok. rewrite Hrec. simpl. rewrite forallb_app. simpl. rewrite He.
    rewrite !andb_true_iff. naive_solver.
  - split; simpl.
    + destruct Hhead as (eh & Hh & Hs). exists eh. by destruct (op_events r).
    + apply sorted_snoc; [done|]. intros e' E. rewrite Hlast in E. injection E as <-.
      unfold follows. rewrite He0. split; [done|]. simpl. destruct (terminal (ad_state a)) eqn:Et.
      * rewrite (state_order_terminal (ad_state a)) by done. apply state_order_le.
      * simpl in Horder. lia.
Qed.

Lemma patched_valid p patch p' :
  provenance_ok p = true → patch_ok patch = true → patched p patch = Ok (Some p') →
  provenance_ok p' = true.
Proof.
  intros _ _. destruct patch as [name|o]; simpl.
  - intros [_ H]%raise_if_Ok. case_bool_decide; [done|].
    by apply rbind_Ok in H as (q & [-> ?]%build_provenance_Ok & [= <-]).
  - intros [_ H]%raise_if_Ok. case_bool_decide; [done|].
    by apply rbind_Ok in H as (q & [-> ?]%build_provenance_Ok & [= <-]).
Qed.

Lemma patched_sound r patch now r' :
  sound r → patch_ok patch = true → patched_provenance r patch now = Ok (Some r') → succeeds r r'.
Proof.
  intros [Hok Hh] Hp [Ht H]%raise_if_Ok. apply rbind_Ok in H as ([p|] & Hpatch & H); [|done].
  apply rbind_Ok in H as (r1 & [-> Hrec]%build_record_Ok & [= <-]).
  unfold stored_ok in Hok. split_ok.
  split_and!; try done; [|unfold nonterminal; by rewrite Ht|by exists []; rewrite app_nil_r].
  split; [|done]. unfold stored_ok. rewrite Hrec. simpl.
  rewrite (patched_valid (op_provenance r) patch p) by done. rewrite !andb_true_iff. naive_solver.
Qed.

Lemma default_sound r changed :
  sound r → (∀ r', changed = Some r' → succeeds r r') → sound (default r changed) ∧
  op_operation_id (default r changed) = op_operation_id r.
Proof. intros Hr H. destruct changed as [r'|]; [|done]. destruct (H r') as (? & ? & _); done. Qed.

(** ** Names *)

Lemma length_append_text (s1 s2 : string) :
  String.length (s1 +:+ s2) = (String.length s1 + String.length s2)%nat.
Proof. induction s1 as [|c s1 IH]; [done|]. change (S (String.length (s1 +:+ s2)) = S (String.length s1 + String.length s2)). by rewrite IH. Qed.

Lemma append_inj_r (s s1 s2 : string) : s1 +:+ s = s2 +:+ s → s1 = s2.
Proof.
  revert s2. induction s1 as [|c s1 IH]; intros [|c2 s2] E; try done.
  - apply (f_equal String.length) in E. rewrite !length_append_text in E. simpl in E. lia.
  - apply (f_equal String.length) in E. rewrite !length_append_text in E. simpl in E. lia.
  - injection E as -> E. f_equal. by apply IH.
Qed.

Lemma file_name_inj id1 id2 : file_name id1 = file_name id2 → id1 = id2.
Proof. apply append_inj_r. Qed.

Lemma ends_with_app suffix s : ends_with suffix (s +:+ suffix) = true.
Proof.
  induction s as [|c s IH].
  - change (ends_with suffix suffix = true).
    destruct suffix as [|c s]; [done|]. cbn [ends_with]. by rewrite bool_decide_true.
  - change (bool_decide (String c (s +:+ suffix) = suffix) || ends_with suffix (s +:+ suffix) = true).
    rewrite IH. apply orb_true_r.
Qed.

Lemma file_is_json id : is_json (file_name id) = true.
Proof. apply ends_with_app. Qed.

Lemma last_char_app s c t : last_char (s +:+ String c t) = last_char (String c t).
Proof.
  induction s as [|x s IH]; [done|].
  change (last_char (String x (s +:+ String c t)) = last_char (String c t)).
  rewrite <-IH. destruct s; done.
Qed.

Lemma ends_with_last suffix name :
  suffix ≠ "" → ends_with suffix name = true → last_char name = last_char suffix.
Proof.
  intros Hs. induction name as [|c name IH]; simpl.
  - rewrite orb_false_r, bool_decide_eq_true. by intros <-.
  - intros [H|H]%orb_true_iff.
    + apply bool_decide_eq_true in H. by rewrite <-H.
    + rewrite <-IH by done. destruct name; [|done]. simpl in H.
      rewrite orb_false_r, bool_decide_eq_true in H. congruence.
Qed.

Lemma temp_is_not_json {codec : RecordCodec} io id : is_json (temp_name io id) = false.
Proof.
  apply not_true_is_false. intros H. apply ends_with_last in H; [|done].
  unfold temp_name in H. rewrite <-!append_assoc in H.
  rewrite (last_char_app _ "."%char) in H. done.
Qed.

(** ** Dictionaries *)

Lemma dict_set_same {V} k (v : V) (t : dict string V) : dict_get k t = Some v → dict_set k v t = t.
Proof.
  induction t as [|[k' v'] t IH]; simpl; [done|]. destruct (decide (k = k')) as [->|]; [by intros [= ->]|by intros ->%IH].
Qed.

Lemma filter_omap_single {A B} (l : list A) (f : A → option B) (p : B → bool) x y :
  NoDup l → x ∈ l → f x = Some y → p y = true →
  (∀ x' y', x' ∈ l → f x' = Some y' → p y' = true → x' = x) → List.filter p (omap f l) = [y].
Proof.
  induction 1 as [|z l Hz Hl IH]; intros Hx Hfx Hp Hone; [by apply elem_of_nil in Hx|].
  assert (∀ x' y', x' ∈ l → f x' = Some y' → p y' = true → x' = x) as Hone'.
  { intros x' y' Hx'. apply Hone. by right. }
  cbn [omap list_omap]. apply elem_of_cons in Hx as [->|Hx].
  - rewrite Hfx. simpl. rewrite Hp. f_equal.
    destruct (List.filter p _) as [|w ws] eqn:E; [done|].
    assert (w ∈ w :: ws) as Hw by left. rewrite <-E in Hw.
    apply in_filter_bool in Hw as [(x' & Hx' & Hfx')%list_elem_of_omap Hpw].
    by rewrite (Hone' x' w) in Hx'.
  - destruct (f z) as [w|] eqn:Ez; simpl; [|by apply IH].
    destruct (p w) eqn:Ew; [|by apply IH].
    rewrite (Hone z w) in Hz; [done|by left|done|done].
Qed.

(** ** Directories and dictionaries *)

Section Stores.
Context {codec : RecordCodec}.
Implicit Types (d : gmap string Entry) (t : Table) (io : Io).

(** A dictionary of sound records, at most one of them nonterminal. *)
Record table_ok t : Prop := {
  tk_wf : dict_wf t;
  tk_record id r : dict_get id t = Some r → op_operation_id r = id ∧ sound r;
  tk_one id1 id2 r1 r2 : dict_get id1 t = Some r1 → dict_get id2 t = Some r2 →
    nonterminal r1 = true → nonterminal r2 = true → id1 = id2;
}.

(** The directory holds the records of the dictionary and no other. *)
Record holds d t : Prop := {
  h_table : table_ok t;
  h_file id r : dict_get id t = Some r → d !! file_name id = Some (File (dump_json r));
  h_name name : is_json name = true → is_Some (d !! name) →
    ∃ id r, name = file_name id ∧ dict_get id t = Some r;
}.

Definition same_records d d' : Prop := ∀ name, is_json name = true → d' !! name = d !! name.

Lemma holds_same d d' t : holds d t → same_records d d' → holds d' t.
Proof.
  intros [Ht Hf Hn] Hs. split; [done| |].
  - intros id r Hr. rewrite Hs by apply file_is_json. by apply Hf.
  - intros name Hj. rewrite Hs by done. by apply Hn.
Qed.

Lemma holds_empty : holds ∅ [].
Proof.
  split; [split|done|].
  - apply dict_wf_nil.
  - done.
  - done.
  - intros name _ [e He]. by rewrite lookup_empty in He.
Qed.

Lemma id_of_record d t id r : holds d t → dict_get id t = Some r → operation_id_ok id = true.
Proof.
  intros H Hr. destruct (tk_record t (h_table d t H) id r Hr) as [<- [Hok _]].
  unfold stored_ok, evidence_ok in Hok. by split_ok.
Qed.

(** The record written at an identifier. *)
Definition fits t (id : string) (r : StoredTransitionOperation) : Prop :=
  op_operation_id r = id ∧ sound r ∧
  (nonterminal r = true → ∀ id0 r0, dict_get id0 t = Some r0 → nonterminal r0 = true → id0 = id).

Lemma table_ok_set t id r : table_ok t → fits t id r → table_ok (dict_set id r t).
Proof.
  intros [Hwf Hrec Hone] (Hid & Hr & Hfit). split.
  - by apply dict_set_wf.
  - intros id0 r0. rewrite dict_get_set. destruct (decide _) as [->|]; [|apply Hrec].
    by intros [= <-].
  - intros id1 id2 r1 r2. rewrite !dict_get_set.
    destruct (decide (id1 = id)) as [->|], (decide (id2 = id)) as [->|]; try done.
    + intros [= <-] H2 Hn1 Hn2. symmetry. by apply (Hfit Hn1 id2 r2).
    + intros H1 [= <-] Hn1 Hn2. by apply (Hfit Hn2 id1 r1).
    + by apply Hone.
Qed.

Lemma holds_set d t id r :
  holds d t → fits t id r → holds (<[file_name id := File (dump_json r)]> d) (dict_set id r t).
Proof.
  intros [Ht Hf Hn] Hfit. split; [by apply table_ok_set| |].
  - intros id0 r0. rewrite dict_get_set. destruct (decide _) as [->|Hne].
    + intros [= <-]. apply lookup_insert_eq.
    + intros H0. rewrite lookup_insert_ne; [by apply Hf|]. by intros ->%file_name_inj.
  - intros name Hj. destruct (decide (name = file_name id)) as [->|Hne].
    + intros _. exists id, r. by rewrite dict_get_set_eq.
    + rewrite lookup_insert_ne by done. intros (id0 & r0 & -> & H0)%Hn; [|done].
      exists id0, r0. rewrite dict_get_set_ne; [done|]. by intros ->.
Qed.

(** ** What a dictionary decides *)

Lemma memory_get_Ok t id r :
  memory_get t id = Ok r ↔ operation_id_ok id = true ∧ dict_get id t = Some r.
Proof.
  unfold memory_get, validated_operation_id. rewrite rbind_Ok. setoid_rewrite raise_if_Ok.
  setoid_rewrite or_raise_Ok. setoid_rewrite negb_false_iff. naive_solver.
Qed.

Lemma first_active_None t id r :
  first_active (map snd t) = None → dict_get id t = Some r → nonterminal r = false.
Proof.
  unfold first_active. rewrite find_first_None. intros H Hr. apply H.
  apply dict_get_in in Hr. apply list_elem_of_fmap. by exists (id, r).
Qed.

(** How the record at an identifier may change. *)
Definition changes t (id : string) (r : StoredTransitionOperation) : Prop :=
  match dict_get id t with Some current => r = current ∨ succeeds current r | None => True end.

Lemma memory_change_fits t id f r :
  table_ok t → (∀ cur r', sound cur → f cur = Ok (Some r') → succeeds cur r') →
  memory_change t id f = Ok (WriteBack r) → fits t id r ∧ changes t id r.
Proof.
  intros [_ Hrec Hone] Hf (cur & [Hid Hcur]%memory_get_Ok & H)%rbind_Ok.
  apply rbind_Ok in H as (changed & Hch & [= <-]).
  destruct (Hrec id cur Hcur) as [Hopid Hs].
  destruct (default_sound cur changed Hs) as [Hd Hdid].
  { intros r' ->. by apply Hf. }
  unfold changes. rewrite Hcur. split.
  - split_and!; [by rewrite Hdid|done|]. intros Hn id0 r0 H0 Hn0.
    apply (Hone id0 id r0 cur); [done..|]. destruct changed as [r'|]; [|done].
    by destruct (Hf cur r') as (_ & _ & ? & _).
  - destruct changed as [r'|]; [right; by apply Hf|by left].
Qed.

Lemma decide_fits t q r :
  table_ok t → request_ok q = true → memory_decide t q = Ok (WriteBack r) →
  fits t (requested_id q) r ∧ changes t (requested_id q) r.
Proof.
  intros Ht Hq. destruct q as [id reservation now|id| |id a now|id patch now]; simpl in *; try done.
  - destruct (first_active _) eqn:Ea; [done|]. intros [Hmem H]%raise_if_Ok.
    apply rbind_Ok in H as (r1 & Hnew & [= ->]).
    apply new_record_sound in Hnew as (Hs & Hid & Hn); [|done].
    apply dict_mem_false, dict_get_None in Hmem. unfold changes. rewrite Hmem. split; [|done].
    split_and!; [done..|]. intros _ id0 r0 H0 Hn0.
    rewrite (first_active_None t id0 r0) in Hn0; done.
  - by intros (? & _ & [=])%rbind_Ok.
  - apply memory_change_fits; [done|]. intros cur r' Hs. by apply advanced_sound.
  - apply memory_change_fits; [done|]. intros cur r' Hs. by apply patched_sound.
Qed.

Lemma memory_serve_ok t q : table_ok t → request_ok q = true → table_ok (memory_serve t q).1.
Proof.
  intros Ht Hq. unfold memory_serve.
  destruct (memory_decide t q) as [[answer|record]|e] eqn:E; [done| |done].
  apply table_ok_set; [done|]. by apply (decide_fits t q record).
Qed.

(** ** Reading *)

Definition all_readable io : Prop := ∀ name, io_readable io name = true.

Lemma read_held io d t id r :
  all_readable io → holds d t → dict_get id t = Some r → read_path io d (file_name id) = Ok r.
Proof.
  intros Hio H Hr. unfold read_path. rewrite (h_file d t H id r Hr), Hio.
  destruct (tk_record t (h_table d t H) id r Hr) as [_ [Hok _]]. by rewrite validate_dump.
Qed.

Lemma elem_of_record_names d name :
  name ∈ record_names d ↔ is_json name = true ∧ is_Some (d !! name).
Proof.
  unfold record_names. rewrite elem_of_sorted, in_filter_bool, list_elem_of_fmap.
  setoid_rewrite elem_of_map_to_list'. split.
  - intros [([n e] & -> & He) Hj]. split; [done|by eexists].
  - intros [Hj [e He]]. split; [|done]. by exists (name, e).
Qed.

Lemma NoDup_record_names d : NoDup (record_names d).
Proof.
  unfold record_names. apply NoDup_sorted, NoDup_filter_bool, NoDup_fst_map_to_list.
Qed.

Lemma read_all_held io d t :
  all_readable io → holds d t →
  ∃ ids, record_names d = map file_name ids ∧ NoDup ids ∧
    (∀ id, id ∈ ids ↔ is_Some (dict_get id t)) ∧
    mapM_r (read_path io d) (record_names d) =
      Ok (omap (λ id, dict_get id t) ids).
Proof.
  intros Hio H.
  assert (∃ ids, record_names d = map file_name ids ∧ Forall (λ id, is_Some (dict_get id t)) ids)
    as (ids & Hids & Hall).
  { assert (∀ n, n ∈ record_names d → ∃ id r, n = file_name id ∧ dict_get id t = Some r) as Hn.
    { intros n [Hj Hd]%elem_of_record_names. by apply (h_name d t H). }
    revert Hn. generalize (record_names d). intros names. induction names as [|n names IH]; intros Hn.
    - by exists [].
    - destruct IH as (ids & -> & Hids); [intros m Hm; apply Hn; by right|].
      destruct (Hn n) as (id & r & -> & Hr); [by left|]. exists (id :: ids).
      split; [done|]. constructor; [by eexists|done]. }
  exists ids. split; [done|]. split_and!.
  - pose proof (NoDup_record_names d) as Hnd. rewrite Hids in Hnd. by apply NoDup_fmap_1 in Hnd.
  - intros id. split; [by rewrite Forall_forall in Hall; apply Hall|].
    intros [r Hr]. assert (file_name id ∈ record_names d) as Hin.
    { apply elem_of_record_names. split; [apply file_is_json|].
      rewrite (h_file d t H id r Hr). by eexists. }
    rewrite Hids in Hin. by apply list_elem_of_fmap in Hin as (id' & ->%file_name_inj & ?).
  - rewrite Hids. clear Hids. apply mapM_r_Forall2. induction Hall as [|id ids [r Hr] _ IH]; simpl.
    + constructor.
    + rewrite Hr. constructor; [by apply (read_held io d t)|done].
Qed.

Lemma read_active_held io d t :
  all_readable io → holds d t → read_active io d = Ok (first_active (map snd t)).
Proof.
  intros Hio H. destruct (read_all_held io d t Hio H) as (ids & _ & Hnd & Hids & Hread).
  unfold read_active. rewrite Hread. cbn [rbind].
  assert (∀ r, r ∈ map snd t ↔ ∃ id, dict_get id t = Some r) as Hin.
  { intros r. rewrite list_elem_of_fmap. split.
    - intros ([id r'] & -> & Hr). exists id. by apply dict_in_get; [apply (tk_wf t (h_table d t H))|].
    - intros (id & Hr%dict_get_in). by exists (id, r). }
  destruct (first_active (map snd t)) as [r|] eqn:Ea.
  - apply find_first_Some in Ea as [[id Hr]%Hin Hn].
    rewrite (filter_omap_single ids (λ id, dict_get id t) nonterminal id r); try done.
    + apply Hids. by eexists.
    + intros id' r' _ Hr' Hn'. by apply (tk_one t (h_table d t H) id' id r' r).
  - destruct (List.filter _ _) as [|r rs] eqn:Ef; [done|].
    assert (r ∈ r :: rs) as Hr by left. rewrite <-Ef in Hr.
    apply in_filter_bool in Hr as [(id & _ & Hr)%list_elem_of_omap Hn].
    rewrite (first_active_None t id r) in Hn; done.
Qed.

(** ** The two adapters decide alike *)

(** The same answer; an unchanged record is returned by one and put back by the
    other. *)
Definition alike t (q : Request) (file memory : result StoreAction) : Prop :=
  file = memory ∨
  ∃ current, file = Ok (Return (Some current)) ∧ memory = Ok (WriteBack current) ∧
    dict_get (requested_id q) t = Some current.

Lemma path_Ok id name : path id = Ok name ↔ operation_id_ok id = true ∧ name = file_name id.
Proof.
  unfold path, validated_operation_id. rewrite rbind_Ok. setoid_rewrite raise_if_Ok.
  setoid_rewrite negb_false_iff. naive_solver.
Qed.

Lemma held_or_absent d t id :
  holds d t → dict_get id t = None → d !! file_name id = None.
Proof.
  intros H Hid. destruct (d !! file_name id) as [e|] eqn:E; [|done].
  destruct (h_name d t H (file_name id)) as (id' & r & <-%file_name_inj & Hr);
    [apply file_is_json|by eexists|congruence].
Qed.

Lemma file_get_held io d t id :
  all_readable io → holds d t →
  (let! name := path id in
   raise_if negb (is_file d name) with NotFound;; read_path io d name) = memory_get t id.
Proof.
  intros Hio H. unfold path, memory_get, validated_operation_id.
  destruct (operation_id_ok id) eqn:Hid; simpl; [|done].
  destruct (dict_get id t) as [r|] eqn:Hr; simpl.
  - rewrite (read_held io d t id r) by done. unfold is_file. by rewrite (h_file d t H id r Hr).
  - unfold is_file. by rewrite (held_or_absent d t id).
Qed.

Lemma file_change_alike io d t q id f :
  all_readable io → holds d t → requested_id q = id →
  alike t q (file_change io d id f) (memory_change t id f).
Proof.
  intros Hio H Hq. pose proof (file_get_held io d t id Hio H) as Hget.
  unfold file_change, memory_change.
  destruct (memory_get t id) as [cur|e] eqn:Em.
  - apply rbind_Ok in Hget as (name & Hname & Hread). rewrite Hname. cbn [rbind].
    apply raise_if_Ok in Hread as [Hfile Hread]. rewrite Hfile, Hread. cbn [rbind].
    destruct (f cur) as [[updated|]|e]; cbn [rbind default]; [by left| |by left].
    right. exists cur. apply memory_get_Ok in Em as [_ Hcur]. by rewrite Hq.
  - left. destruct (path id) as [name|e']; cbn [rbind] in *; [|by injection Hget as ->].
    destruct (negb (is_file d name)); [by injection Hget as <-|]. by rewrite Hget.
Qed.

Lemma decide_alike io d t q :
  all_readable io → holds d t → alike t q (file_decide io d q) (memory_decide t q).
Proof.
  intros Hio H. destruct q as [id reservation now|id| |id a now|id patch now]; simpl.
  - left. rewrite (read_active_held io d t) by done. cbn [rbind].
    destruct (first_active (map snd t)) as [active|] eqn:Ea; [done|].
    unfold path, validated_operation_id. destruct (operation_id_ok id) eqn:Hid; cbn [rbind negb].
    + unfold dict_mem. destruct (dict_get id t) as [r|] eqn:Hr.
      * rewrite (h_file d t H id r Hr). by rewrite bool_decide_true by by eexists.
      * rewrite (held_or_absent d t id) by done.
        rewrite bool_decide_false by by intros [? [=]]. done.
    + assert (dict_mem id t = false) as ->.
      { unfold dict_mem. destruct (dict_get id t) as [r|] eqn:Hr; [|done].
        rewrite (id_of_record d t id r) in Hid; done. }
      unfold new_record, validated_operation_id. by rewrite Hid.
  - left. rewrite <-(file_get_held io d t id) by done.
    destruct (path id) as [name|e]; cbn [rbind]; [|done]. by destruct (negb _).
  - left. by rewrite (read_active_held io d t).
  - by apply file_change_alike.
  - by apply file_change_alike.
Qed.

(** A file that cannot be read only ever turns an answer into an error. *)
Definition readable_io io : Io :=
  {| io_readable := λ _, true; io_random := io_random io; io_unlinks := io_unlinks io;
     io_fault := io_fault io |}.

Lemma read_path_more io d name r :
  read_path io d name = Ok r → read_path (readable_io io) d name = Ok r.
Proof. unfold read_path. destruct (d !! name) as [[| |]|]; try done. by destruct (io_readable io name). Qed.

Lemma read_active_more io d r :
  read_active io d = Ok r → read_active (readable_io io) d = Ok r.
Proof.
  unfold read_active. intros (rs & Hrs & H)%rbind_Ok. apply rbind_Ok. exists rs.
  split; [|done]. apply mapM_r_Forall2. apply mapM_r_Forall2 in Hrs.
  eapply Forall2_impl; [exact Hrs|]. intros. by apply read_path_more.
Qed.

Lemma file_decide_more io d q act :
  file_decide io d q = Ok act → file_decide (readable_io io) d q = Ok act.
Proof.
  destruct q as [id reservation now|id| |id a now|id patch now]; simpl.
  - intros (active & Ha%read_active_more & H)%rbind_Ok. rewrite Ha. done.
  - intros (name & Hn & H)%rbind_Ok. rewrite Hn. cbn [rbind].
    apply raise_if_Ok in H as [-> H]. apply rbind_Ok in H as (r & Hr%read_path_more & H).
    by rewrite Hr.
  - intros (active & Ha%read_active_more & H)%rbind_Ok. by rewrite Ha.
  - unfold file_change. intros (name & Hn & H)%rbind_Ok. rewrite Hn. cbn [rbind].
    apply raise_if_Ok in H as [-> H]. apply rbind_Ok in H as (r & Hr%read_path_more & H).
    by rewrite Hr.
  - unfold file_change. intros (name & Hn & H)%rbind_Ok. rewrite Hn. cbn [rbind].
    apply raise_if_Ok in H as [-> H]. apply rbind_Ok in H as (r & Hr%read_path_more & H).
    by rewrite Hr.
Qed.

(** What the directory decides, the dictionary serves. *)
Lemma decided_serves io d t q act :
  holds d t → request_ok q = true → file_decide io d q = Ok act →
  match act with
  | Return answer => memory_serve t q = (t, Ok answer)
  | WriteBack record =>
      memory_serve t q = (dict_set (requested_id q) record t, Ok (Some record)) ∧
      fits t (requested_id q) record ∧ changes t (requested_id q) record
  end.
Proof.
  intros H Hq Hact%file_decide_more.
  destruct (decide_alike (readable_io io) d t q) as [E|(cur & E & Em & Hcur)]; try done.
  - rewrite Hact in E. unfold memory_serve. rewrite <-E. destruct act as [answer|record]; [done|].
    split; [done|]. apply decide_fits; [apply (h_table d t H)|done|done].
  - rewrite Hact in E. injection E as ->. unfold memory_serve. rewrite Em.
    by rewrite dict_set_same.
Qed.

(** ** Writing *)

Definition replaced d (r : StoredTransitionOperation) : gmap string Entry :=
  <[file_name (op_operation_id r) := File (dump_json r)]> d.

Lemma same_records_temp d name content :
  is_json name = false → same_records d (<[name := File content]> d).
Proof. intros Hn n Hj. apply lookup_insert_ne. intros ->. congruence. Qed.

Lemma drop_temp_same io d id content : same_records d (drop_temp io d (temp_name io id) content).
Proof.
  unfold drop_temp. destruct (io_unlinks io); [done|].
  apply same_records_temp, temp_is_not_json.
Qed.

(** The volume gives back what was written. *)
Definition reliable io : Prop := ∀ found, io_fault io ≠ Torn found.

Lemma write_spec io d r d' res :
  reliable io → operation_id_ok (op_operation_id r) = true → write io d r = (d', res) →
  res = Ok tt ∧ d' = replaced d r ∨
  ∃ e, res = Raise e ∧ (same_records d d' ∨ d' = replaced d r).
Proof.
  intros Hio Hid. unfold write, path, validated_operation_id. rewrite Hid. cbn [rbind negb].
  fold (replaced d r). case_match; [intros [= <- <-]; right; eexists; split; [done|by left]|].
  pose proof (drop_temp_same io d (op_operation_id r)) as Hdrop.
  destruct (io_fault io) eqn:Ef; [..|by destruct (Hio found)| |];
    try (intros [= <- <-]; right; eexists; split; [done|auto; fail]);
    destruct (d !! file_name (op_operation_id r)) as [[| |]|];
    intros [= <- <-]; (by left) || (right; eexists; split; [done|auto]).
Qed.

(** A call on the directory, whatever fails in it, is the call on the dictionary or
    no call at all. *)
Lemma serve_spec io d t q d' a :
  holds d t → request_ok q = true → reliable io → file_serve io d q = (d', a) →
  (a = (memory_serve t q).2 ∧ holds d' (memory_serve t q).1) ∨
  (∃ e, a = Raise e) ∧ (holds d' t ∨ holds d' (memory_serve t q).1).
Proof.
  intros H Hq Hio. unfold file_serve.
  destruct (file_decide io d q) as [act|e] eqn:E.
  2: { intros [= <- <-]. right. split; [by eexists|by left]. }
  pose proof (decided_serves io d t q act H Hq E) as Hs. destruct act as [answer|record].
  { intros [= <- <-]. left. by rewrite Hs. }
  destruct Hs as (Hs & Hfit & _). rewrite Hs.
  destruct (write io d record) as [d1 res] eqn:Ew. intros [= <- <-].
  assert (holds (replaced d record) (dict_set (requested_id q) record t)) as Hnew.
  { unfold replaced. destruct Hfit as (Hid & Hrest). rewrite Hid. by apply holds_set. }
  apply write_spec in Ew as [[-> ->]|(e & -> & [Hsame| ->])]; [by left| | |done|].
  - right. split; [by eexists|]. left. by eapply holds_same.
  - right. split; [by eexists|by right].
  - destruct Hfit as (_ & [Hok _] & _). unfold stored_ok, evidence_ok in Hok. by split_ok.
Qed.

(** A crash leaves the directory of before the call or of after it. *)
Lemma crash_spec io d t q record partial d' :
  holds d t → request_ok q = true → file_decide io d q = Ok (WriteBack record) →
  d' ∈ write_leaves d record (temp_name io (op_operation_id record)) partial →
  holds d' t ∨ holds d' (memory_serve t q).1.
Proof.
  intros H Hq E Hd'. pose proof (decided_serves io d t q _ H Hq E) as (Hs & (Hid & Hrest) & _).
  assert (∀ content, holds (<[temp_name io (op_operation_id record) := File content]> d) t) as Htmp.
  { intros content. eapply holds_same; [done|]. apply same_records_temp, temp_is_not_json. }
  unfold write_leaves in Hd'. repeat apply elem_of_cons in Hd' as [->|Hd']; [by left|by left..| |].
  - right. rewrite Hs, Hid. by apply holds_set.
  - by apply elem_of_nil in Hd'.
Qed.

(** ** Sessions of the durable store *)

(** What happens to the directory: calls, with faults, and crashes. *)
Inductive store_step d : gmap string Entry → Prop :=
| step_call io q d' a :
    reliable io → request_ok q = true → file_serve io d q = (d', a) → store_step d d'
| step_crash io q record partial d' :
    request_ok q = true → file_decide io d q = Ok (WriteBack record) →
    d' ∈ write_leaves d record (temp_name io (op_operation_id record)) partial → store_step d d'.

(** A dictionary after a request, or unchanged. *)
Definition table_step t t' : Prop :=
  t' = t ∨ ∃ q, request_ok q = true ∧ t' = (memory_serve t q).1.

Lemma store_step_holds d t d' :
  holds d t → store_step d d' → ∃ t', holds d' t' ∧ table_step t t'.
Proof.
  intros H Hstep. destruct Hstep as [io q d' a Hio Hq Hserve|io q record partial d' Hq Hdec Hin].
  - destruct (serve_spec io d t q d' a H Hq Hio Hserve) as [[_ H']|[_ [H'|H']]];
      eexists; split; try exact H'; [right; eauto|by left|right; eauto].
  - destruct (crash_spec io d t q record partial d' H Hq Hdec Hin) as [H'|H'];
      eexists; split; try exact H'; [by left|right; eauto].
Qed.

Lemma reachable_holds d : rtc store_step ∅ d → ∃ t, holds d t.
Proof.
  intros Hr. apply (rtc_ind_r (λ d, ∃ t, holds d t) ∅) with (3 := Hr).
  - exists []. apply holds_empty.
  - intros d1 d2 _ Hs [t Ht]. destruct (store_step_holds d1 t d2 Ht Hs) as (t' & Ht' & _). eauto.
Qed.

(** A terminal record stays as it is. *)
Lemma table_step_terminal t t' id r :
  table_ok t → table_step t t' → dict_get id t = Some r → nonterminal r = false →
  dict_get id t' = Some r.
Proof.
  intros Ht [->|(q & Hq & ->)] Hr Hn; [done|]. unfold memory_serve.
  destruct (memory_decide t q) as [[answer|record]|e] eqn:E; [done| |done]. simpl.
  destruct (decide_fits t q record Ht Hq E) as [_ Hch].
  rewrite dict_get_set. destruct (decide (id = requested_id q)) as [->|]; [|done].
  unfold changes in Hch. rewrite Hr in Hch. destruct Hch as [->|(_ & _ & Hn' & _)]; congruence.
Qed.

Lemma reachable_terminal d d' t id r :
  holds d t → rtc store_step d d' → dict_get id t = Some r → nonterminal r = false →
  ∃ t', holds d' t' ∧ dict_get id t' = Some r.
Proof.
  intros H Hr. revert t H. induction Hr as [d|d d1 d2 Hs _ IH]; intros t H Hid Hn; [eauto|].
  destruct (store_step_holds d t d1 H Hs) as (t1 & H1 & Ht1).
  apply (IH t1 H1); [|done]. eapply table_step_terminal; [apply (h_table d t H)|done..].
Qed.

Lemma held_entry d t name e :
  holds d t → is_json name = true → d !! name = Some e →
  ∃ r, e = File (dump_json r) ∧ name = file_name (op_operation_id r) ∧
    dict_get (op_operation_id r) t = Some r ∧ sound r.
Proof.
  intros H Hj He. destruct (h_name d t H name Hj) as (id & r & -> & Hr); [by eexists|].
  destruct (tk_record t (h_table d t H) id r Hr) as [<- Hs]. exists r.
  rewrite (h_file d t H _ r Hr) in He. by injection He as <-.
Qed.

(** C23: whatever fails or crashes, at most one session transition is under way.  In
    every directory the calls of VS-API reach from an empty one, with reads that
    fail, writes that fail at any stage and crashes in the middle of a write, each
    record file is whole, is named after the operation it holds, and is a valid
    record whose events start at the reservation and never go back; two records
    that are not terminal are the same one; and a terminal record never changes
    again.  The volume is assumed to keep what was written to it: the write that
    reports success while other bytes read back is left out ([reliable]). *)
Theorem one_transition_at_a_time d d' :
  rtc store_step ∅ d → rtc store_step d d' →
  (∀ name e, is_json name = true → d !! name = Some e →
     ∃ r, e = File (dump_json r) ∧ name = file_name (op_operation_id r) ∧ sound r ∧
          (nonterminal r = false → d' !! name = Some e)) ∧
  (∀ n1 n2 c1 c2 r1 r2, is_json n1 = true → is_json n2 = true →
     d !! n1 = Some (File c1) → validate_json c1 = Some r1 → nonterminal r1 = true →
     d !! n2 = Some (File c2) → validate_json c2 = Some r2 → nonterminal r2 = true → n1 = n2).
Proof.
  intros [t Ht]%reachable_holds Hd'. split.
  - intros name e Hj He. destruct (held_entry d t name e Ht Hj He) as (r & -> & -> & Hr & Hs).
    exists r. split_and!; try done. intros Hn.
    destruct (reachable_terminal d d' t _ r Ht Hd' Hr Hn) as (t' & Ht' & Hr').
    by apply (h_file d' t' Ht').
  - intros n1 n2 c1 c2 r1 r2 Hj1 Hj2 H1 Hv1 Hn1 H2 Hv2 Hn2.
    destruct (held_entry d t n1 _ Ht Hj1 H1) as (r1' & [= ->] & -> & Hr1 & [Hs1 _]).
    destruct (held_entry d t n2 _ Ht Hj2 H2) as (r2' & [= ->] & -> & Hr2 & [Hs2 _]).
    rewrite validate_dump in Hv1, Hv2 by done. injection Hv1 as ->. injection Hv2 as ->.
    f_equal. by apply (tk_one t (h_table d t Ht) _ _ r1 r2).
Qed.

(** ** The two adapters are one *)

(** The operating system does what it is asked. *)
Definition honest io : Prop := all_readable io ∧ io_fault io = NoFault.

(** [mkstemp] finds a name. *)
Definition fresh_names io d : Prop := ∀ id, d !! temp_name io id = None.

Lemma honest_write io d t r :
  honest io → fresh_names io d → holds d t → operation_id_ok (op_operation_id r) = true →
  write io d r = (replaced d r, Ok tt).
Proof.
  intros [_ Hio] Hfresh H Hid. unfold write, path, validated_operation_id. rewrite Hid, Hio.
  cbn [rbind negb]. rewrite bool_decide_false by done.
  rewrite bool_decide_false by by rewrite Hfresh; intros [? [=]].
  cbn [orb]. destruct (d !! file_name (op_operation_id r)) as [e|] eqn:E; [|done].
  apply (held_entry d t _ e H (file_is_json _)) in E as (r' & -> & _). done.
Qed.

Lemma honest_serve io d t q :
  honest io → fresh_names io d → holds d t → request_ok q = true →
  (file_serve io d q).2 = (memory_serve t q).2 ∧
  holds (file_serve io d q).1 (memory_serve t q).1 ∧
  (∀ name, is_json name = false → (file_serve io d q).1 !! name = d !! name).
Proof.
  intros Hio Hfresh H Hq. unfold file_serve.
  destruct (file_decide io d q) as [act|e] eqn:E.
  - pose proof (decided_serves io d t q act H Hq E) as Hs.
    destruct act as [answer|record]; [by rewrite Hs|].
    destruct Hs as (Hs & (Hid & Hsound & Hone) & _).
    rewrite (honest_write io d t record); try done.
    + rewrite Hs. simpl. split_and!; [done| |].
      * unfold replaced. rewrite Hid. by apply holds_set.
      * intros name Hname. unfold replaced. apply lookup_insert_ne. intros <-.
        by rewrite file_is_json in Hname.
    + destruct Hsound as [Hok _]. unfold stored_ok, evidence_ok in Hok. by split_ok.
  - destruct (decide_alike io d t q) as [Ea|(? & Ea & _)]; [apply Hio|done| |congruence].
    rewrite E in Ea. unfold memory_serve. by rewrite <-Ea.
Qed.

Lemma fresh_kept io d d' :
  fresh_names io d → (∀ name, is_json name = false → d' !! name = d !! name) → fresh_names io d'.
Proof. intros Hf Hd id. rewrite Hd by apply temp_is_not_json. apply Hf. Qed.

(** C24: the durable store behaves as the dictionary.  On any sequence of requests,
    with an operating system that does what it is asked, the answers of
    [FilesystemTransitionOperationStore] are those of
    [InMemoryTransitionOperationStore]: every record, every conflict and every
    error. *)
Theorem stores_agree (calls : list (Io * Request)) :
  Forall (λ c, honest c.1 ∧ request_ok c.2 = true) calls →
  (serve_all (S := gmap string Entry) ∅ calls).2 =
  (serve_all (S := Table) [] (map (λ c, (tt, c.2)) calls)).2.
Proof.
  enough (∀ d t, (∀ io, fresh_names io d) → holds d t →
    Forall (λ c, honest c.1 ∧ request_ok c.2 = true) calls →
    (serve_all (S := gmap string Entry) d calls).2 =
    (serve_all (S := Table) t (map (λ c, (tt, c.2)) calls)).2) as Hall.
  { apply Hall; [|apply holds_empty]. intros io id. apply lookup_empty. }
  induction calls as [|[io q] calls IH]; intros d t Hfresh H Hcalls; [done|].
  apply Forall_cons in Hcalls as [[Hio Hq] Hcalls].
  destruct (honest_serve io d t q Hio (Hfresh io) H Hq) as (Ha & H' & Hkept).
  cbn [serve_all map serve filesystem in_memory fst snd].
  destruct (file_serve io d q) as [d1 a1], (memory_serve t q) as [t1 a2]. cbn [fst snd] in *.
  specialize (IH d1 t1 (λ io', fresh_kept io' d d1 (Hfresh io') Hkept) H' Hcalls).
  destruct (serve_all (S := gmap string Entry) d1 calls) as [? as1].
  destruct (serve_all (S := Table) t1 _) as [? as2]. simpl in *. congruence.
Qed.
End Stores.
