(* ===== verification/SessionReconcile.v ===== *)
(** * Recovering a session transition from the cluster

    A transition whose process died is settled from the live ConstellationSpec:
    [reconcile_transition_operation] of [services/vs_api/transition_operations.py]
    judges it, and [_extract_cr_session] of [services/vs_api/main.py] verifies a
    success against the configuration the resource selects.  The resource is read
    through the strict models of [lib/nodalarc/cr_runtime_config.py]: its spec or its
    status is [None] when the model refuses it, and integers are the integers the
    API server sends.

    [load_cr_runtime_config], which fetches the uploaded files and resolves the
    session, is an argument: the resolver is not modelled. *)

From S2P Require Import Prelude.
From S2P Require Import PyData.
From S2P Require Import PyTime.
From S2P Require Import Sha256.
From S2P Require Import CatalogRefs.
From S2P Require Import TransitionOperation.
From stdpp Require Import base list strings gmap.
From Stdlib Require Import Ascii.
Local Open Scope Z_scope.

(** ** The ConstellationSpec ([cr_runtime_config.py]) *)

Record CatalogUploadSelection := {
  us_upload_id : string;
  us_closure_digest : string;
  us_file_count : Z;
}.

Record ConstellationSpecSpec := {
  cs_session_yaml : string;
  cs_catalog_upload : CatalogUploadSelection;
  cs_record_history : bool;
}.

#[global] Instance upload_selection_eq_dec : EqDecision CatalogUploadSelection.
Proof. solve_decision. Defined.
#[global] Instance constellation_spec_eq_dec : EqDecision ConstellationSpecSpec.
Proof. solve_decision. Defined.

Inductive ConstellationSpecPhase :=
| Pending | Rendering | Creating | Wiring | Ready | PhaseError | Terminating.

#[global] Instance phase_eq_dec : EqDecision ConstellationSpecPhase.
Proof. solve_decision. Defined.

Definition phase_text (p : ConstellationSpecPhase) : string :=
  match p with
  | Pending => "Pending" | Rendering => "Rendering" | Creating => "Creating" | Wiring => "Wiring"
  | Ready => "Ready" | PhaseError => "Error" | Terminating => "Terminating"
  end.

(** The fields this file reads. *)
Record ConstellationSpecStatus := {
  cs_phase : option ConstellationSpecPhase;
  cs_message : option string;
  cs_session_name : option string;
  cs_session_run_id : option string;
  cs_pod_count : option Z;
  cs_ready_pods : option Z;
  cs_wired_pods : option Z;
  cs_document_digest : option string;
  cs_closure_digest : option string;
  cs_resolved_semantic_digest : option string;
  cs_runtime_release : option string;
  cs_runtime_build : option string;
  cs_observed_generation : option Z;
}.

Definition observes_generation (s : ConstellationSpecStatus) (generation : Z) : bool :=
  (0 <? generation) && bool_decide (cs_observed_generation s = Some generation).

Definition ready_pod_count (s : ConstellationSpecStatus) : option Z :=
  match cs_pod_count s with
  | None => None
  | Some count =>
      if count <=? 0 then None
      else if bool_decide (cs_ready_pods s = Some count ∧ cs_wired_pods s = Some count)
      then Some count else None
  end.

(** The values a runtime proof is held against. *)
Record RuntimeProof := {
  pf_document_digest : option string;
  pf_closure_digest : option string;
  pf_resolved_semantic_digest : option string;
  pf_release : string;
  pf_build : string;
}.

Definition runtime_mismatches (s : ConstellationSpecStatus) (expected : RuntimeProof) :
    list string :=
  map (λ x, x.1.1) (List.filter (λ x, negb (bool_decide (x.1.2 = x.2)))
    [(("documentDigest", cs_document_digest s), pf_document_digest expected);
     (("closureDigest", cs_closure_digest s), pf_closure_digest expected);
     (("resolvedSemanticDigest", cs_resolved_semantic_digest s),
        pf_resolved_semantic_digest expected);
     (("runtimeRelease", cs_runtime_release s), Some (pf_release expected));
     (("runtimeBuild", cs_runtime_build s), Some (pf_build expected))]).

Record ConstellationSpec := {
  cr_namespace : option string;
  cr_name : option string;
  cr_generation : option Z;
  cr_annotations : gmap string string;
  cr_spec : option ConstellationSpecSpec;
  cr_status : option ConstellationSpecStatus;
}.

(** [_positive_int], [_as_positive_int], [_as_nonnegative_int], [_nonempty_string]. *)
Definition positive_int (v : option Z) : option Z :=
  match v with Some n => if 0 <? n then Some n else None | None => None end.
Definition nonnegative_int (v : option Z) : option Z :=
  match v with Some n => if 0 <=? n then Some n else None | None => None end.
Definition nonempty_string (v : option string) : option string :=
  match v with Some s => if bool_decide (s = "") then None else Some s | None => None end.

Definition status_from_cr (cr : ConstellationSpec) : result ConstellationSpecStatus :=
  or_raise (cr_status cr) (ValueError "ConstellationSpec status refused").
Definition spec_from_cr (cr : ConstellationSpec) : result ConstellationSpecSpec :=
  or_raise (cr_spec cr) (ValueError "ConstellationSpec spec refused").

(** ** Digests ([content_identity.py]) *)

Definition hex_digit (n : Z) : ascii :=
  ascii_of_N (Z.to_N (if n <? 10 then 48 + n else 87 + n)).
Fixpoint hex_word (digits : nat) (w : Z) (rest : string) : string :=
  match digits with
  | O => rest
  | S digits => hex_word digits (w / 16) (String (hex_digit (w mod 16)) rest)
  end.
Definition hexdigest (words : list Z) : string := foldr (hex_word 8) "" words.
Definition sha256_digest (content : string) : string := "sha256:" +:+ hexdigest (sha256 content).

(** ** [reconcile_transition_operation] *)

Definition SOURCE_KIND_ANNOTATION : string := "nodalarc.io/source-kind".
Definition SOURCE_ID_ANNOTATION : string := "nodalarc.io/source-id".
Definition SOURCE_REVISION_ANNOTATION : string := "nodalarc.io/source-revision".
Definition DOCUMENT_DIGEST_ANNOTATION : string := "nodalarc.io/document-digest".
Definition CLOSURE_DIGEST_ANNOTATION : string := "nodalarc.io/closure-digest".
Definition CATALOG_GENERATION_ANNOTATION : string := "nodalarc.io/catalog-generation".

Inductive Disposition :=
| DispSucceeded (runtime : TransitionRuntimeResult)
| DispFailed (failure : TransitionOperationFailure)
| DispCancelled (failure : TransitionOperationFailure)
| StillSwitching.

(** A disposition and its detail. *)
Record TransitionReconciliation := { rc_disposition : Disposition; rc_detail : string }.

Definition plain_failure (code message : string) : TransitionOperationFailure :=
  {| tf_code := code; tf_message := message; tf_cause_type := None |}.

Definition expected_annotations (op : StoredTransitionOperation) : list (string * option string) :=
  [(SOURCE_KIND_ANNOTATION, Some "catalog_session");
   (SOURCE_ID_ANNOTATION, Some (so_logical_id (op_source op)));
   (SOURCE_REVISION_ANNOTATION, pv_source_revision (op_provenance op));
   (DOCUMENT_DIGEST_ANNOTATION, fa_document_digest (op_facts op));
   (CLOSURE_DIGEST_ANNOTATION, fa_closure_digest (op_facts op))].

Definition generation_matches (op : StoredTransitionOperation) (cr : ConstellationSpec) : bool :=
  bool_decide (cr_annotations cr !! CATALOG_GENERATION_ANNOTATION =
               pv_repository_generation (op_provenance op)).

Definition runtime_identity_matches (op : StoredTransitionOperation) (cr : ConstellationSpec) :
    bool :=
  match pv_runtime_plan (op_provenance op) with
  | Some plan => bool_decide (cr_namespace cr = Some (rp_namespace plan)) &&
                 bool_decide (cr_name cr = Some (rp_name plan))
  | None => true
  end &&
  match pv_constellation_spec (op_provenance op) with
  | Some observed => bool_decide (positive_int (cr_generation cr) = Some (co_generation observed))
  | None => true
  end.

(** Whether the live resource is the one this transition selected. *)
Definition selected_by (op : StoredTransitionOperation) (cr : ConstellationSpec) : bool :=
  forallb (λ x : string * option string,
      bool_decide (x.2 ≠ None) && bool_decide (cr_annotations cr !! x.1 = x.2))
    (expected_annotations op) &&
  generation_matches op cr && runtime_identity_matches op cr &&
  match cr_spec cr with
  | None => false
  | Some spec =>
      bool_decide (Some (sha256_digest (cs_session_yaml spec)) = fa_document_digest (op_facts op)) &&
      bool_decide (Some (us_upload_id (cs_catalog_upload spec)) = pv_upload_id (op_provenance op)) &&
      bool_decide (Some (us_closure_digest (cs_catalog_upload spec)) =
                   fa_closure_digest (op_facts op)) &&
      match fa_file_count (op_facts op) with
      | Some count => us_file_count (cs_catalog_upload spec) + 1 =? count
      | None => true
      end
  end.

Definition admitted_proof (op : StoredTransitionOperation) : RuntimeProof :=
  {| pf_document_digest := fa_document_digest (op_facts op);
     pf_closure_digest := fa_closure_digest (op_facts op);
     pf_resolved_semantic_digest := fa_resolved_semantic_digest (op_facts op);
     pf_release := fa_release (op_facts op); pf_build := fa_build (op_facts op) |}.

Definition build_runtime (r : TransitionRuntimeResult) : result TransitionRuntimeResult :=
  raise_if negb (runtime_ok r) with ValueError "invalid runtime result";; Ok r.

Definition still (detail : string) : TransitionReconciliation :=
  {| rc_disposition := StillSwitching; rc_detail := detail |}.
Definition failed_with (detail code message : string) : TransitionReconciliation :=
  {| rc_disposition := DispFailed (plain_failure code message); rc_detail := detail |}.
Definition cancelled_with (detail code message : string) : TransitionReconciliation :=
  {| rc_disposition := DispCancelled (plain_failure code message); rc_detail := detail |}.

(** The resource is Ready. *)
Definition reconcile_ready (op : StoredTransitionOperation) (observed : ConstellationSpecStatus)
    (generation : Z) : result TransitionReconciliation :=
  if bool_decide (ready_pod_count observed = None) then
    Ok (still "Waiting for complete Ready pod and wiring proof")
  else if negb (bool_decide (runtime_mismatches observed (admitted_proof op) = [])) then
    Ok (failed_with "Ready runtime proof does not match the admitted transition"
          "transition.runtime.proof_mismatch" "Runtime proof does not match the admitted transition")
  else
    match nonempty_string (cs_session_run_id observed) with
    | None => Ok (failed_with "Ready runtime is missing its session identity"
                    "transition.runtime.identity_missing" "Runtime proof is incomplete")
    | Some session_id =>
        let! runtime := build_runtime
          {| rr_session_id := session_id; rr_generation := generation |} in
        Ok {| rc_disposition := DispSucceeded runtime;
              rc_detail := "Runtime reached Ready with matching provenance and proof" |}
    end.

Definition reconcile_transition_operation (op : StoredTransitionOperation)
    (live : option ConstellationSpec) : result TransitionReconciliation :=
  raise_if terminal (op_state op)
    with StateError "terminal operations do not require reconciliation";;
  match live with
  | None => Ok (cancelled_with "No live ConstellationSpec matches the interrupted transition"
                  "transition.recovery.runtime_absent"
                  "Transition was interrupted before runtime selection completed")
  | Some cr =>
      if negb (selected_by op cr) then
        Ok (cancelled_with "Live ConstellationSpec belongs to a different transition source"
              "transition.recovery.runtime_mismatch"
              "Interrupted transition is not selected by the live runtime")
      else
      let! observed := status_from_cr cr in
      match positive_int (cr_generation cr) with
      | None => Ok (still "Waiting for the Operator to observe the selected runtime")
      | Some generation =>
          if negb (observes_generation observed generation) then
            Ok (still "Waiting for the Operator to observe the selected runtime")
          else
          match cs_phase observed with
          | None => Ok (still "Selected runtime remains pending")
          | Some ((Pending | Creating | Wiring) as phase) =>
              Ok (still ("Selected runtime remains " +:+ phase_text phase))
          | Some PhaseError =>
              Ok (failed_with "Operator reported an error for the selected runtime"
                    "transition.runtime.error" "Session transition failed")
          | Some Ready => reconcile_ready op observed generation
          | Some ((Rendering | Terminating) as phase) =>
              Ok (still ("Selected runtime is in phase " +:+ phase_text phase))
          end
      end
  end.

(** ** The identity of the live session ([main.py]) *)

Definition whitespace (c : ascii) : bool :=
  let n := N_of_ascii c in ((9 <=? n)%N && (n <=? 13)%N) || ((28 <=? n)%N && (n <=? 32)%N).
Fixpoint lstrip (s : string) : string :=
  match s with
  | String c rest => if whitespace c then lstrip rest else s
  | EmptyString => ""
  end.
Fixpoint rstrip (s : string) : string :=
  match s with
  | EmptyString => ""
  | String c rest =>
      match rstrip rest with
      | EmptyString => if whitespace c then "" else String c ""
      | kept => String c kept
      end
  end.
Definition strip (s : string) : string := rstrip (lstrip s).

Fixpoint map_chars (f : ascii → ascii) (s : string) : string :=
  match s with EmptyString => "" | String c rest => String (f c) (map_chars f rest) end.

(** [sanitize_session_id] of [nats_channels.py]. *)
Definition session_id_ok (s : string) : bool :=
  match s with
  | EmptyString => false
  | String c rest =>
      (upper c || lower c || decimal c) &&
      all_chars (λ c, upper c || lower c || decimal c || bool_decide (c = "_"%char) ||
                      bool_decide (c = "-"%char)) rest &&
      len_within 0 62 rest
  end.
Definition sanitize_session_id (raw : string) : result string :=
  let cleaned := map_chars (λ c, if bool_decide (c ∈ ["."; "*"; ">"]%char) then "-"%char else c)
    (strip raw) in
  raise_if bool_decide (cleaned = "") with ValueError "session_id is empty after sanitization";;
  raise_if negb (session_id_ok cleaned) with ValueError "session_id invalid";;
  Ok cleaned.

Definition Refusal (what : string) : exn := Raised "CRSessionRefusal" what.

Definition cr_ready_identity (cr : ConstellationSpec) : result (option (Z * string)) :=
  let! status := status_from_cr cr in
  match positive_int (cr_generation cr) with
  | None => Ok None
  | Some generation =>
      if negb (observes_generation status generation) then Ok None
      else if negb (bool_decide (cs_phase status = Some Ready)) then Ok None
      else if bool_decide (ready_pod_count status = None) then Ok None
      else
      match nonempty_string (cs_session_run_id status) with
      | None => Raise (Refusal "Ready ConstellationSpec is missing status.sessionRunId")
      | Some run_id => let! session_id := sanitize_session_id run_id in Ok (Some (generation, session_id))
      end
  end.

(** What [load_cr_runtime_config] returns of the resolved configuration. *)
Record LoadedConfig := {
  ld_document_digest : string;
  ld_closure_digest : string;
  ld_resolved_semantic_digest : string;
  ld_session_name : string;
}.

Section Extract.
Context (release build : string) (load : ConstellationSpec → string → result LoadedConfig).

(** [_extract_cr_session] with [require_ready]: the identity it returns. *)
Definition extract_cr_session (cr : ConstellationSpec) : result (option TransitionRuntimeResult) :=
  let! status := status_from_cr cr in
  let! ident := cr_ready_identity cr in
  match ident with
  | None => Ok None
  | Some (generation, session_run_id) =>
      let! _ := spec_from_cr cr in
      let! _ := or_raise (nonempty_string (cr_namespace cr))
        (Refusal "ConstellationSpec metadata has no namespace") in
      let! config := load cr session_run_id in
      let expected := {| pf_document_digest := Some (ld_document_digest config);
                         pf_closure_digest := Some (ld_closure_digest config);
                         pf_resolved_semantic_digest := Some (ld_resolved_semantic_digest config);
                         pf_release := release; pf_build := build |} in
      raise_if negb (bool_decide (runtime_mismatches status expected = []))
        with Refusal "ConstellationSpec status does not match verified runtime configuration";;
      let! status_name := or_raise (nonempty_string (cs_session_name status))
        (Refusal "Ready ConstellationSpec is missing status.sessionName") in
      raise_if negb (bool_decide (status_name = ld_session_name config))
        with Refusal "ConstellationSpec status.sessionName does not match spec.session.name";;
      let! _ := or_raise (nonempty_string (cr_annotations cr !! SOURCE_ID_ANNOTATION))
        (Refusal "ConstellationSpec is missing the source annotation") in
      Ok (Some {| rr_session_id := session_run_id; rr_generation := generation |})
  end.
End Extract.

(** [_constellation_spec_observation]. *)
Definition constellation_spec_observation (cr : ConstellationSpec) :
    result TransitionConstellationSpecObservation :=
  let! status := status_from_cr cr in
  match nonempty_string (cr_namespace cr), nonempty_string (cr_name cr),
        positive_int (cr_generation cr) with
  | Some namespace, Some name, Some generation =>
      let o :=
        {| co_namespace := namespace; co_name := name; co_generation := generation;
           co_status :=
             {| sp_observed_generation := positive_int (cs_observed_generation status);
                sp_phase := option_map phase_text (cs_phase status);
                sp_session_id := nonempty_string (cs_session_run_id status);
                sp_pod_count := nonnegative_int (cs_pod_count status);
                sp_ready_pods := nonnegative_int (cs_ready_pods status);
                sp_wired_pods := nonnegative_int (cs_wired_pods status);
                sp_document_digest := nonempty_string (cs_document_digest status);
                sp_closure_digest := nonempty_string (cs_closure_digest status);
                sp_resolved_semantic_digest := nonempty_string (cs_resolved_semantic_digest status);
                sp_release := nonempty_string (cs_runtime_release status);
                sp_build := nonempty_string (cs_runtime_build status) |} |} in
      raise_if negb (observation_ok o) with ValueError "invalid ConstellationSpec observation";;
      Ok o
  | _, _, _ => Raise (ValueError "ConstellationSpec observation is missing Kubernetes identity")
  end.

(** ** The evidence of a failure ([transition_failure_from_exception]) *)

(** What the function reads of an exception. *)
Record Evidence := {
  ev_code : option string;
  ev_message : option string;
  ev_cause_type : option string;
}.
Record Exception := {
  ex_type_name : string;
  ex_timeout : bool;
  ex_evidence : option Evidence;
}.

(** [text[:n]]. *)
Definition clip (n : nat) (s : string) : string := String.substring 0 n s.

(** [_TYPED_FAILURE_CODE_PATTERN]. *)
Definition typed_code (s : string) : bool :=
  match s with
  | EmptyString => false
  | String c rest =>
      lower c &&
      all_chars (λ c, lower c || decimal c || bool_decide (c ∈ ["_"; "."; "-"]%char)) rest &&
      len_within 0 127 rest
  end.

Definition stripped (m : option string) : option string :=
  match m with Some s => if bool_decide (strip s = "") then None else Some s | None => None end.

Definition typed_message (code : string) (e : Evidence) : string :=
  if String.prefix "catalog_upload_store." code then
    "Catalog upload could not be persisted or verified"
  else if String.prefix "catalog_upload." code then
    "Catalog upload does not satisfy deployment transport requirements"
  else if String.prefix "prepared_session." code || String.prefix "session_deployment." code then
    match stripped (ev_message e) with
    | Some m => clip 512 (strip m)
    | None => "Session deployment preflight failed"
    end
  else "Session transition failed".

Definition typed_evidence (exc : Exception) : option (string * Evidence) :=
  match ex_evidence exc with
  | Some e => code ← ev_code e; if typed_code code then Some (code, e) else None
  | None => None
  end.

Definition transition_failure_from_exception (exc : Exception) : TransitionOperationFailure :=
  let type_name := clip 128 (ex_type_name exc) in
  match typed_evidence exc with
  | Some (code, e) =>
      {| tf_code := code; tf_message := typed_message code e;
         tf_cause_type := Some (match stripped (ev_cause_type e) with
                                | Some cause => clip 128 cause
                                | None => type_name
                                end) |}
  | None =>
      if ex_timeout exc then
        {| tf_code := "transition.runtime.timeout"; tf_message := "Session transition timed out";
           tf_cause_type := Some type_name |}
      else {| tf_code := "transition.worker.failed"; tf_message := "Session transition failed";
              tf_cause_type := Some type_name |}
  end.
