(* ===== verification/SessionTransitions.v ===== *)
(** * Session transitions: the process ([services/vs_api/main.py])

    VS-API admits a transition ([_admit_transition]), runs it as a task
    ([_run_admitted_transition]) whose worker reports its progress to the store
    ([_run_prepared_switch_locked]), and settles the transitions an earlier process
    left behind ([_reconcile_interrupted_transition]).  The process keeps the
    identifiers of the active and of its own transition; everything else is in the
    durable store.

    A call of the store runs in a thread: [admit] and [reconcile] are split where
    they wait, so that they can interleave.  The environment gives the input and
    output of each call and the clock.  The worker is the sequence of its reports
    and how it ends; a report that raises ends it.  Publications and broadcasts are
    not modelled. *)

From S2P Require Import Prelude.
From S2P Require Import PyData.
From S2P Require Import PyTime.
From S2P Require Import CatalogRefs.
From S2P Require Import TransitionOperation.
From S2P Require Import TransitionStore.
From S2P Require Import SessionReconcile.
From stdpp Require Import base list strings gmap.
Local Open Scope Z_scope.

Section Process.
Context {codec : RecordCodec} (ios : nat → Io) (clock : nat → datetime).

(** The session manager's status and its detail, once there is one. *)
Record Process := {
  ps_store : gmap string Entry;
  ps_calls : nat;
  ps_active : option string;
  ps_local : option string;
  ps_manager : option (string * string);
}.

Definition with_ids (p : Process) (active local : option string) : Process :=
  {| ps_store := ps_store p; ps_calls := ps_calls p; ps_active := active; ps_local := local;
     ps_manager := ps_manager p |}.
Definition with_active (p : Process) (active : option string) : Process :=
  with_ids p active (ps_local p).
Definition with_manager (p : Process) (m : option (string * string)) : Process :=
  {| ps_store := ps_store p; ps_calls := ps_calls p; ps_active := ps_active p;
     ps_local := ps_local p; ps_manager := m |}.

(** [_invoke_transition_store], at the time of the call. *)
Definition invoke (q : datetime → Request) (p : Process) : Process * Answer :=
  let n := ps_calls p in
  let '(d, a) := file_serve (ios n) (ps_store p) (q (clock n)) in
  ({| ps_store := d; ps_calls := S n; ps_active := ps_active p; ps_local := ps_local p;
      ps_manager := ps_manager p |}, a).

(** The programs of the process. *)
Definition Proc (A : Type) : Type := Process → Process * result A.
Definition finish {A} (a : A) : Proc A := λ p, (p, Ok a).
Definition pbind {A B} (c : Proc A) (k : A → Proc B) : Proc B :=
  λ p, match c p with (p, Ok a) => k a p | (p, Raise e) => (p, Raise e) end.
Notation "'step!' x ':=' c 'in' k" := (pbind c (λ x, k))
  (at level 10, x binder, c at level 200, k at level 200) : py_scope.

(** ** Reports of a transition *)

Definition normalized (detail : string) : option string :=
  let text := clip 512 (strip detail) in if bool_decide (text = "") then None else Some text.

(** [_advance_transition_operation]. *)
Definition advance_operation (operation_id : string) (state : TransitionOperationState)
    (detail : string) (failure : option TransitionOperationFailure)
    (runtime : option TransitionRuntimeResult) : Proc unit :=
  step! _ := invoke (AdvanceTo operation_id
    {| ad_state := state; ad_detail := normalized detail; ad_failure := failure;
       ad_runtime := runtime |}) in
  finish tt.
Definition report (operation_id : string) (state : TransitionOperationState) (detail : string) :
    Proc unit := advance_operation operation_id state detail None None.

(** The callbacks the worker of a catalog switch is given. *)
Inductive Report :=
| TransitionStarted
| SwitchProgress (detail : string)
| UploadResourceObserved (name : string)
| ConstellationSpecObserved (cr : ConstellationSpec).

Definition build_patch (patch : TransitionOperationProvenancePatch) :
    Proc TransitionOperationProvenancePatch :=
  λ p, (p, raise_if negb (patch_ok patch) with ValueError "invalid provenance patch";; Ok patch).

Definition update_provenance (operation_id : string) (patch : TransitionOperationProvenancePatch) :
    Proc unit :=
  step! patch := build_patch patch in
  step! _ := invoke (UpdateProvenance operation_id patch) in
  finish tt.

Definition run_report (operation_id : string) (r : Report) : Proc unit :=
  match r with
  | TransitionStarted =>
      step! _ := report operation_id VERIFYING
        "Exact uploaded catalog and reviewed source are verified" in
      report operation_id SWITCHING "Selecting the verified runtime configuration"
  | SwitchProgress detail =>
      if bool_decide (detail = "Uploading exact session catalog") then
        report operation_id UPLOADING detail
      else
        step! operation := invoke (λ _, GetOperation operation_id) in
        match operation with
        | Some op =>
            if bool_decide (op_state op = SWITCHING) then report operation_id SWITCHING detail
            else finish tt
        | None => finish tt
        end
  | UploadResourceObserved name => update_provenance operation_id (UploadResource name)
  | ConstellationSpecObserved cr =>
      step! o := (λ p, (p, constellation_spec_observation cr)) in
      update_provenance operation_id (Observed o)
  end.

Fixpoint run_reports (operation_id : string) (reports : list Report) : Proc unit :=
  match reports with
  | [] => finish tt
  | r :: reports => step! _ := run_report operation_id r in run_reports operation_id reports
  end.

(** ** Running a transition *)

Inductive WorkerEnd :=
| WorkerReturns (runtime : option TransitionRuntimeResult)
| WorkerRaises (exc : Exception)
| WorkerCancelled.

Record Worker := { wk_reports : list Report; wk_end : WorkerEnd }.

Definition class_name (e : exn) : string :=
  match e with
  | ValueError _ => "ValueError" | KeyError _ => "KeyError" | TypeError _ => "TypeError"
  | RuntimeError _ => "RuntimeError" | OverflowError _ => "OverflowError"
  | Raised class _ => class
  end.
Definition exception_of (e : exn) : Exception :=
  {| ex_type_name := class_name e; ex_timeout := false; ex_evidence := None |}.

(** How the body of the task ends. *)
Definition run_body (operation_id : string) (w : Worker) (p : Process) : Process * WorkerEnd :=
  match (step! _ := report operation_id COLLECTING
           "Collecting and rechecking the trusted session source" in
         run_reports operation_id (wk_reports w)) p with
  | (p, Raise e) => (p, WorkerRaises (exception_of e))
  | (p, Ok _) =>
      match wk_end w with
      | WorkerReturns runtime =>
          match advance_operation operation_id SUCCEEDED "Session runtime reached Ready" None
                  runtime p with
          | (p, Raise e) => (p, WorkerRaises (exception_of e))
          | (p, Ok _) => (p, WorkerReturns runtime)
          end
      | other => (p, other)
      end
  end.

(** The handlers: their own failures are suppressed. *)
Definition run_handlers (operation_id : string) (ended : WorkerEnd) (p : Process) : Process :=
  match ended with
  | WorkerReturns _ => p
  | WorkerCancelled =>
      let p := (advance_operation operation_id CANCELLED "Session transition task was cancelled"
        (Some (plain_failure "transition.worker.cancelled" "Session transition was cancelled"))
        None p).1 in
      match ps_manager p with
      | Some ("switching", _) => with_manager p (Some ("error", "Session transition cancelled"))
      | _ => p
      end
  | WorkerRaises exc =>
      (advance_operation operation_id FAILED "Session transition failed"
        (Some (transition_failure_from_exception exc)) None p).1
  end.

Definition forget (operation_id : string) (o : option string) : option string :=
  if bool_decide (o = Some operation_id) then None else o.

(** [_run_admitted_transition]. *)
Definition run_admitted_transition (operation_id : string) (w : Worker) (p : Process) : Process :=
  let '(p, ended) := run_body operation_id w p in
  let p := run_handlers operation_id ended p in
  with_ids p (forget operation_id (ps_active p)) (forget operation_id (ps_local p)).

(** ** Admission *)

(** The reservation, in its thread. *)
Definition admit_reserve (operation_id : string) (reservation : TransitionOperationReservation) :
    Proc unit :=
  step! _ := invoke (Reserve operation_id reservation) in finish tt.

(** Back on the event loop: the reservation is made public, or the conflict is. *)
Definition admit_publish (operation_id : string) (outcome : result unit) (p : Process) :
    Process * result bool :=
  match outcome with
  | Ok _ =>
      let p := with_ids p (Some operation_id) (Some operation_id) in
      (match ps_manager p with
       | Some _ => with_manager p (Some ("switching", "Transition reserved"))
       | None => p
       end, Ok true)
  | Raise (Raised "TransitionOperationConflictError" active) => (with_active p (Some active), Ok false)
  | Raise e => (p, Raise e)
  end.

(** [_admit_transition]: whether the task was started. *)
Definition admit_transition (operation_id : string)
    (reservation : TransitionOperationReservation) (p : Process) : Process * result bool :=
  let '(p, outcome) := admit_reserve operation_id reservation p in
  admit_publish operation_id outcome p.

(** The task could not be scheduled: the transition fails before it runs. *)
Definition scheduling_failed (operation_id cause_type : string) : Proc unit :=
  step! _ := invoke (AdvanceTo operation_id
    {| ad_state := FAILED; ad_detail := Some "Session transition task could not be scheduled";
       ad_failure := Some {| tf_code := "transition.scheduling.failed";
                             tf_message := "Session transition could not be scheduled";
                             tf_cause_type := Some cause_type |};
       ad_runtime := None |}) in
  λ p, (with_ids p None None, Ok tt).

(** ** Recovery *)

Section Recovery.
Context (release build : string) (load : ConstellationSpec → string → result LoadedConfig).

Definition build_failure (f : TransitionOperationFailure) : result TransitionOperationFailure :=
  raise_if negb (failure_ok f) with ValueError "invalid failure evidence";; Ok f.

(** The verification of a success against the resource. *)
Definition verified_runtime (live : option ConstellationSpec) (runtime : TransitionRuntimeResult) :
    result TransitionRuntimeResult :=
  let! cr := or_raise live (ValueError "no resource") in
  let! verified := extract_cr_session release build load cr in
  let! verified := or_raise verified
    (ValueError "Ready runtime identity is not generation-consistent") in
  let! verified := build_runtime verified in
  raise_if negb (bool_decide (verified = runtime))
    with ValueError "verified runtime identity differs from status proof";;
  Ok verified.

(** What a judged transition is advanced to. *)
Definition judged_end (live : option ConstellationSpec) (r : TransitionReconciliation) :
    result Advance :=
  let final state detail failure runtime :=
    {| ad_state := state; ad_detail := Some detail; ad_failure := failure; ad_runtime := runtime |} in
  match rc_disposition r with
  | DispSucceeded runtime =>
      match verified_runtime live runtime with
      | Ok verified => Ok (final SUCCEEDED (rc_detail r) None (Some verified))
      | Raise e =>
          let! failure := build_failure
            {| tf_code := "transition.runtime.verification_failed";
               tf_message := "Selected runtime could not be verified";
               tf_cause_type := Some (class_name e) |} in
          Ok (final FAILED "Selected runtime could not be verified after restart" (Some failure) None)
      end
  | DispFailed failure => Ok (final FAILED (rc_detail r) (Some failure) None)
  | DispCancelled failure => Ok (final CANCELLED (rc_detail r) (Some failure) None)
  | StillSwitching => Ok (final SWITCHING (rc_detail r) None None)
  end.

Definition mismatched (r : TransitionReconciliation) : bool :=
  match rc_disposition r with
  | DispCancelled f | DispFailed f => bool_decide (tf_code f = "transition.recovery.runtime_mismatch")
  | _ => false
  end.

(** The observation of the resource, recorded unless it is another transition's. *)
Definition record_observation (live : option ConstellationSpec) (r : TransitionReconciliation)
    (active : StoredTransitionOperation) : Proc StoredTransitionOperation :=
  match live with
  | Some cr =>
      if bool_decide (pv_runtime_plan (op_provenance active) ≠ None) && negb (mismatched r) then
        step! o := (λ p, (p, constellation_spec_observation cr)) in
        step! updated := invoke (UpdateProvenance (op_operation_id active) (Observed o)) in
        finish (default active updated)
      else finish active
  | None => finish active
  end.

Definition same_detail (active : StoredTransitionOperation) (detail : string) : bool :=
  bool_decide (op_state active = SWITCHING) &&
  match last (op_events active) with
  | Some e => bool_decide (te_detail e = Some detail)
  | None => false
  end.

Definition advance_judged (live : option ConstellationSpec) (r : TransitionReconciliation)
    (active : StoredTransitionOperation) : Proc unit :=
  step! a := (λ p, (p, judged_end live r)) in
  step! _ := invoke (AdvanceTo (op_operation_id active) a) in
  finish tt.

(** After the transition was read: what the recovery does with it. *)
Definition settle (live : option ConstellationSpec) (active : StoredTransitionOperation) :
    Proc unit :=
  step! r := (λ p, (p, reconcile_transition_operation active live)) in
  step! active := record_observation live r active in
  match rc_disposition r with
  | StillSwitching =>
      step! _ := (λ p, (with_active p (Some (op_operation_id active)), Ok tt)) in
      if same_detail active (rc_detail r) then finish tt
      else advance_judged live r active
  | _ =>
      step! _ := advance_judged live r active in
      λ p, (with_active p None, Ok tt)
  end.

(** Back on the event loop with the active record. *)
Definition reconcile_from (live : option ConstellationSpec)
    (active : option StoredTransitionOperation) : Proc unit := λ p,
  match active with
  | None => (if bool_decide (ps_local p = None) then with_active p None else p, Ok tt)
  | Some active =>
      if bool_decide (ps_local p = Some (op_operation_id active)) then (p, Ok tt)
      else settle live active p
  end.

(** [_reconcile_interrupted_transition]: an exception leaves the transition active. *)
Definition reconcile_interrupted_transition (live : option ConstellationSpec) (p : Process) :
    Process :=
  ((step! active := invoke (λ _, Active) in reconcile_from live active) p).1.
End Recovery.
End Process.

Notation "'step!' x ':=' c 'in' k" := (pbind c (λ x, k))
  (at level 10, x binder, c at level 200, k at level 200) : py_scope.
