(* ===== verification/SessionTheorems.v ===== *)
(** * Session transitions: what the process promises

    An interrupted transition is settled by the next recovery, a recovered success
    is proven by the live resource, and a transition that ran is over: whatever the
    worker did, admission is free again.  The last theorem is the interleaving in
    which a recovery cancels a transition that was just admitted. *)

From S2P Require Import Prelude.
From S2P Require Import PyData.
From S2P Require Import PyTime.
From S2P Require Import CatalogRefs.
From S2P Require Import TransitionOperation.
From S2P Require Import TransitionStore.
From S2P Require Import TransitionTheorems.
From S2P Require Import SessionReconcile.
From S2P Require Import SessionTransitions.
From stdpp Require Import base list strings gmap.
From Stdlib Require Import Lia.
Local Open Scope Z_scope.

(** ** Evidence is always valid *)

Lemma length_clip n s : String.length (clip n s) = Nat.min n (String.length s).
Proof.
  unfold clip. revert n. induction s as [|c s IH]; intros [|n]; simpl; try done. by rewrite IH.
Qed.

Lemma clip_within n s : s ≠ "" → (0 < n)%nat → len_within 1 (Z.of_nat n) (clip n s) = true.
Proof.
  intros Hs Hn. unfold len_within, text_len. rewrite length_clip, andb_true_iff, !Z.leb_le.
  assert (0 < String.length s)%nat by (destruct s; [done|simpl; lia]). lia.
Qed.

Lemma normalized_ok detail : optional (len_within 1 512) (normalized detail) = true.
Proof.
  unfold normalized. case_bool_decide as E; [done|].
  destruct (decide (strip detail = "")) as [Es|Es]; [by rewrite Es in E|].
  apply (clip_within 512); [done|lia].
Qed.

Lemma typed_code_length code : typed_code code = true → len_within 1 128 code = true.
Proof.
  destruct code as [|c rest]; [done|]. simpl. unfold len_within, text_len. simpl.
  rewrite !andb_true_iff, !Z.leb_le. lia.
Qed.

(** The evidence of any exception of a named class is a valid failure. *)
Lemma failure_from_exception_ok exc :
  ex_type_name exc ≠ "" → failure_ok (transition_failure_from_exception exc) = true.
Proof.
  intros Hn. pose proof (clip_within 128 (ex_type_name exc) Hn ltac:(lia)) as Htype.
  change (Z.of_nat 128) with 128 in Htype.
  unfold transition_failure_from_exception.
  destruct (typed_evidence exc) as [[code e]|] eqn:Et.
  - unfold failure_ok. cbn [tf_code tf_message tf_cause_type optional]. rewrite !andb_true_iff.
    split_and!.
    + unfold typed_evidence in Et. destruct (ex_evidence exc) as [e'|]; [|done].
      destruct (ev_code e') as [code'|]; [|done]. simpl in Et.
      destruct (typed_code code') eqn:Ec; [|done]. injection Et as <- <-. by apply typed_code_length.
    + unfold typed_message. destruct (String.prefix "catalog_upload_store." code); [done|].
      destruct (String.prefix "catalog_upload." code); [done|].
      destruct (String.prefix "prepared_session." code || _); [|done].
      unfold stripped. destruct (ev_message e) as [m|]; [|done].
      case_bool_decide as Em; [done|]. apply (clip_within 512); [done|lia].
    + unfold stripped. destruct (ev_cause_type e) as [cause|]; [|done].
      case_bool_decide as Ec; [done|]. apply (clip_within 128); [|lia]. by intros ->.
  - destruct (ex_timeout exc); unfold failure_ok; cbn [tf_code tf_message tf_cause_type optional];
      rewrite Htype; reflexivity.
Qed.

(** ** Calls *)

Section Process.
Context {codec : RecordCodec} (ios : nat → Io) (clock : nat → datetime).
Implicit Types (p : Process) (t : Table).

(** From here on the operating system does what it is asked. *)
Definition served_well p : Prop :=
  ∀ k, honest (ios (ps_calls p + k)) ∧ fresh_names (ios (ps_calls p + k)) (ps_store p).

Definition same_ids p p' : Prop :=
  ps_active p' = ps_active p ∧ ps_local p' = ps_local p ∧ ps_manager p' = ps_manager p.

(** A call served well is the call on the dictionary. *)
Lemma invoke_served p t q :
  holds (ps_store p) t → served_well p → request_ok (q (clock (ps_calls p))) = true →
  ∃ p', invoke ios clock q p = (p', (memory_serve t (q (clock (ps_calls p)))).2) ∧
    holds (ps_store p') (memory_serve t (q (clock (ps_calls p)))).1 ∧ served_well p' ∧ same_ids p p'.
Proof.
  intros H Hw Hq. set (now := clock (ps_calls p)) in *.
  destruct (Hw 0%nat) as [Hio Hfresh]. rewrite Nat.add_0_r in Hio, Hfresh.
  destruct (honest_serve (ios (ps_calls p)) (ps_store p) t (q now) Hio Hfresh H Hq)
    as (Ha & Hd & Hkept).
  unfold invoke. fold now. destruct (file_serve (ios (ps_calls p)) (ps_store p) (q now)) as [d a].
  simpl in *. subst a. eexists. split; [done|]. split_and!; [done| |done..].
  intros k. destruct (Hw (S k)) as [Hio' Hfresh']. cbn [ps_calls ps_store].
  rewrite <-Nat.add_succ_comm in Hio', Hfresh'. split; [done|]. by eapply fresh_kept.
Qed.

(** Any call is the call on the dictionary, or raises with the dictionary of before
    or after it. *)
Lemma invoke_spec p t q p' a :
  (∀ n, reliable (ios n)) → holds (ps_store p) t →
  request_ok (q (clock (ps_calls p))) = true → invoke ios clock q p = (p', a) →
  same_ids p p' ∧
  ((a = (memory_serve t (q (clock (ps_calls p)))).2 ∧
    holds (ps_store p') (memory_serve t (q (clock (ps_calls p)))).1) ∨
   (∃ e, a = Raise e) ∧
   (holds (ps_store p') t ∨ holds (ps_store p') (memory_serve t (q (clock (ps_calls p)))).1)).
Proof.
  intros Hio H Hq. unfold invoke.
  destruct (file_serve _ _ _) as [d a'] eqn:E. intros [= <- <-]. split; [done|].
  by eapply serve_spec.
Qed.

Lemma served_active p t :
  holds (ps_store p) t → served_well p →
  ∃ p', invoke ios clock (λ _, Active) p = (p', Ok (first_active (map snd t))) ∧
    holds (ps_store p') t ∧ served_well p' ∧ same_ids p p'.
Proof. intros H Hw. by apply (invoke_served p t (λ _, Active)). Qed.

(** ** Serving a dictionary *)

Lemma advance_served t id cur a now r :
  dict_get id t = Some cur → operation_id_ok id = true →
  advanced_record cur a now = Ok (Some r) →
  memory_serve t (AdvanceTo id a now) = (dict_set id r t, Ok (Some r)).
Proof.
  intros Hcur Hid Ha. unfold memory_serve, memory_decide, memory_change.
  assert (memory_get t id = Ok cur) as -> by by apply memory_get_Ok. cbn [rbind]. by rewrite Ha.
Qed.

Lemma patch_served t id cur patch now changed :
  dict_get id t = Some cur → operation_id_ok id = true →
  patched_provenance cur patch now = Ok changed →
  memory_serve t (UpdateProvenance id patch now) =
    (dict_set id (default cur changed) t, Ok (Some (default cur changed))).
Proof.
  intros Hcur Hid Ha. unfold memory_serve, memory_decide, memory_change.
  assert (memory_get t id = Ok cur) as -> by by apply memory_get_Ok. cbn [rbind]. by rewrite Ha.
Qed.

(** A nonterminal record can always be ended, with the evidence its end needs. *)
Definition ends_with_evidence (a : Advance) : bool :=
  match ad_state a with
  | SUCCEEDED => bool_decide (ad_failure a = None)
  | FAILED | CANCELLED => bool_decide (ad_failure a ≠ None) && bool_decide (ad_runtime a = None)
  | _ => false
  end && optional (len_within 1 512) (ad_detail a).

Lemma end_record cur a now :
  stored_ok cur = true → nonterminal cur = true → ends_with_evidence a = true →
  ∃ r, advanced_record cur a now = Ok (Some r) ∧ op_state r = ad_state a ∧
    terminal (ad_state a) = true ∧ op_operation_id r = op_operation_id cur ∧
    op_runtime r = ad_runtime a ∧ op_failure r = ad_failure a.
Proof.
  intros Hok Hn [Hs Hd]%andb_true_iff.
  assert (operation_id_ok (op_operation_id cur) = true ∧ 0 < op_version cur) as [Hid Hv].
  { unfold stored_ok, evidence_ok in Hok. split_ok. split; [done|by apply Z.ltb_lt]. }
  unfold nonterminal in Hn. apply negb_true_iff in Hn.
  unfold advanced_record. rewrite Hn. destruct a as [state detail failure runtime].
  cbn [ad_state ad_detail ad_failure ad_runtime] in *.
  assert (∀ later, evidence_ok
    {| op_operation_id := op_operation_id cur; op_state := state; op_source := op_source cur;
       op_facts := op_facts cur; op_created_at := op_created_at cur; op_updated_at := now;
       op_events := op_events cur ++ [{| te_state := state; te_occurred_at := now; te_detail := later |}];
       op_failure := failure; op_runtime := runtime; op_version := op_version cur + 1;
       op_provenance := op_provenance cur |} = true) as Hev.
  { intros later. unfold evidence_ok.
    cbn [op_operation_id op_version op_events op_state op_failure op_runtime].
    rewrite last_snoc, Hid. cbn [te_state]. rewrite (bool_decide_true (state = state)) by done.
    replace (0 <? op_version cur + 1) with true by (symmetry; apply Z.ltb_lt; lia).
    destruct state; try done; apply andb_true_iff in Hs as [Hf%bool_decide_eq_true _];
      by destruct failure. }
  unfold build_event, event_ok. cbn [te_detail]. rewrite Hd. cbn [negb].
  unfold build_record.
  destruct state; try done; cbn [terminal negb andb rbind] in *.
  - apply bool_decide_eq_true in Hs as ->. cbn [bool_decide]. simpl. rewrite Hev. by eexists.
  - apply andb_true_iff in Hs as [Hf%bool_decide_eq_true ->%bool_decide_eq_true].
    destruct failure as [f|]; [|done]. simpl. rewrite Hev. by eexists.
  - apply andb_true_iff in Hs as [Hf%bool_decide_eq_true ->%bool_decide_eq_true].
    destruct failure as [f|]; [|done]. simpl. rewrite Hev. by eexists.
Qed.

(** ** Judgements *)

Definition judgement_ok (r : TransitionReconciliation) : Prop :=
  len_within 1 512 (rc_detail r) = true ∧
  match rc_disposition r with
  | DispSucceeded runtime => runtime_ok runtime = true
  | DispFailed failure | DispCancelled failure => failure_ok failure = true
  | StillSwitching => True
  end.

Lemma reconcile_ok op live r :
  reconcile_transition_operation op live = Ok r → judgement_ok r.
Proof.
  unfold reconcile_transition_operation. intros [_ H]%raise_if_Ok.
  destruct live as [cr|]; [|by injection H as <-].
  destruct (negb (selected_by op cr)); [by injection H as <-|].
  apply rbind_Ok in H as (observed & _ & H).
  destruct (positive_int (cr_generation cr)) as [generation|]; [|by injection H as <-].
  destruct (negb (observes_generation observed generation)); [by injection H as <-|].
  destruct (cs_phase observed) as [[]|]; try (by injection H as <-).
  unfold reconcile_ready in H. case_bool_decide; [by injection H as <-|].
  destruct (negb _); [by injection H as <-|].
  destruct (nonempty_string _) as [session_id|]; [|by injection H as <-].
  apply rbind_Ok in H as (runtime & [Hr [= <-]]%raise_if_Ok & [= <-]).
  split; [done|]. by apply negb_false_iff.
Qed.

(** Exceptions of classes with names a record can hold. *)
Definition named (e : exn) : Prop := len_within 1 128 (class_name e) = true.

Lemma ro_or_raise {A} (P : exn → Prop) (o : option A) e : P e → raises_only P (or_raise o e).
Proof. intros He e'. destruct o; simpl; [done|]. by intros [= <-]. Qed.

Section Recovery.
Context (release build : string) (load : ConstellationSpec → string → result LoadedConfig).
Context (Hload : ∀ cr id, raises_only named (load cr id)).
Abbreviation recover := (reconcile_interrupted_transition ios clock release build load).
Abbreviation extract := (extract_cr_session release build load).

Lemma extract_named cr : raises_only named (extract cr).
Proof.
  unfold extract_cr_session, cr_ready_identity, status_from_cr, spec_from_cr, sanitize_session_id.
  repeat first
    [ apply ro_bind; [|intros ? _]
    | apply ro_or_raise; done
    | apply Hload
    | apply ro_Ok
    | apply ro_Raise; done
    | case_match ].
Qed.

Lemma verified_named live runtime : raises_only named (verified_runtime release build load live runtime).
Proof.
  unfold verified_runtime, build_runtime.
  repeat first
    [ apply extract_named
    | apply ro_bind; [|intros ? _]
    | apply ro_or_raise; done
    | apply ro_Ok
    | apply ro_Raise; done
    | case_match ].
Qed.

Lemma judged_end_ok live r :
  judgement_ok r → rc_disposition r ≠ StillSwitching →
  ∃ a, judged_end release build load live r = Ok a ∧ ends_with_evidence a = true ∧
    optional failure_ok (ad_failure a) && optional runtime_ok (ad_runtime a) = true.
Proof.
  intros [Hd Hr] Hs. unfold judged_end, ends_with_evidence.
  destruct (rc_disposition r) as [runtime|failure|failure|]; [| | |done].
  - destruct (verified_runtime release build load live runtime) as [v|e] eqn:E.
    + eexists. split; [done|]. cbn. rewrite Hd. split; [done|].
      apply rbind_Ok in E as (cr & _ & E). apply rbind_Ok in E as (v1 & _ & E).
      apply rbind_Ok in E as (v2 & _ & E). apply rbind_Ok in E as (v3 & Hv & E).
      apply raise_if_Ok in Hv as [Hv%negb_false_iff [= <-]].
      by apply raise_if_Ok in E as [_ [= <-]].
    + pose proof (verified_named live runtime e E) as Hn. unfold build_failure.
      match goal with |- context [failure_ok ?f] => assert (failure_ok f = true) as Hf end.
      { unfold failure_ok. cbn [tf_code tf_message tf_cause_type optional]. by rewrite Hn. }
      rewrite Hf. eexists. split; [done|]. cbn [ad_state ad_detail ad_failure ad_runtime optional].
      by rewrite Hf.
  - eexists. split; [done|]. cbn. by rewrite Hd, Hr.
  - eexists. split; [done|]. cbn. by rewrite Hd, Hr.
Qed.

(** ** Observing the selected resource *)

Lemma observation_fields cr o :
  constellation_spec_observation cr = Ok o →
  observation_ok o = true ∧ cr_namespace cr = Some (co_namespace o) ∧
  cr_name cr = Some (co_name o) ∧ positive_int (cr_generation cr) = Some (co_generation o).
Proof.
  unfold constellation_spec_observation. intros (status & _ & H)%rbind_Ok.
  destruct (nonempty_string (cr_namespace cr)) as [ns|] eqn:Hns; [|done].
  destruct (nonempty_string (cr_name cr)) as [name|] eqn:Hname; [|done].
  destruct (positive_int (cr_generation cr)) as [g|]; [|done].
  apply raise_if_Ok in H as [Hok%negb_false_iff [= <-]]. split_and!; try done; simpl.
  - destruct (cr_namespace cr) as [x|]; [|done]. simpl in Hns. by case_bool_decide; simplify_eq.
  - destruct (cr_name cr) as [x|]; [|done]. simpl in Hname. by case_bool_decide; simplify_eq.
Qed.

Lemma selected_identity op cr plan :
  selected_by op cr = true → pv_runtime_plan (op_provenance op) = Some plan →
  cr_namespace cr = Some (rp_namespace plan) ∧ cr_name cr = Some (rp_name plan) ∧
  ∀ observed, pv_constellation_spec (op_provenance op) = Some observed →
    positive_int (cr_generation cr) = Some (co_generation observed).
Proof.
  unfold selected_by, runtime_identity_matches. intros H Hp. rewrite Hp in H. split_ok.
  repeat match goal with H : bool_decide _ = true |- _ => apply bool_decide_eq_true in H end.
  split_and!; [done..|]. intros observed Ho.
  match goal with H : match pv_constellation_spec _ with _ => _ end = true |- _ => rename H into Hg end.
  rewrite Ho in Hg. by apply bool_decide_eq_true in Hg.
Qed.

Lemma observed_provenance_ok pv o plan :
  provenance_ok pv = true → pv_runtime_plan pv = Some plan → observation_ok o = true →
  co_namespace o = rp_namespace plan → co_name o = rp_name plan →
  provenance_ok (with_observation pv o) = true.
Proof.
  unfold provenance_ok, with_observation. cbn [pv_source_revision pv_repository_generation
    pv_upload_id pv_upload_resource_names pv_runtime_plan pv_constellation_spec].
  intros H Hp Ho Hns Hname. rewrite Hp in *. split_ok.
  rewrite (bool_decide_true (co_namespace o = _)), (bool_decide_true (co_name o = _)) by done.
  rewrite !andb_true_iff. by split_and!.
Qed.

(** A provenance that admits an observation has none of another resource. *)
Lemma observed_patch pv o plan :
  provenance_ok pv = true → pv_runtime_plan pv = Some plan → observation_ok o = true →
  co_namespace o = rp_namespace plan → co_name o = rp_name plan →
  (∀ existing, pv_constellation_spec pv = Some existing → co_generation existing = co_generation o) →
  ∃ changed, patched pv (Observed o) = Ok changed.
Proof.
  intros H Hp Ho Hns Hname Hgen.
  pose proof (observed_provenance_ok pv o plan H Hp Ho Hns Hname) as Hnew. simpl.
  assert (match pv_constellation_spec pv with
          | Some existing => negb (same_identity existing o) | None => false end = false) as ->.
  { destruct (pv_constellation_spec pv) as [existing|] eqn:He; [|done].
    unfold provenance_ok in H. rewrite He, Hp in H. split_ok.
    repeat match goal with H : bool_decide _ = true |- _ => apply bool_decide_eq_true in H end.
    unfold same_identity. rewrite (Hgen existing), Z.eqb_refl by done.
    by rewrite !bool_decide_true by congruence. }
  case_bool_decide; [by eexists|]. unfold build_provenance. rewrite Hnew. by eexists.
Qed.

(** The observation of the resource a transition selected is always recorded. *)
Lemma observation_recorded op cr o now :
  sound op → nonterminal op = true → selected_by op cr = true →
  pv_runtime_plan (op_provenance op) ≠ None → constellation_spec_observation cr = Ok o →
  ∃ changed, patched_provenance op (Observed o) now = Ok changed ∧
    (∀ r, changed = Some r → succeeds op r ∧ op_state r = op_state op).
Proof.
  intros Hs Hn Hsel Hplan (Hok & Hns & Hname & Hgen)%observation_fields.
  destruct (pv_runtime_plan (op_provenance op)) as [plan|] eqn:Hp; [|done].
  destruct (selected_identity op cr plan Hsel Hp) as (Hns' & Hname' & Hgen').
  rewrite Hns in Hns'. rewrite Hname in Hname'. injection Hns' as Ens. injection Hname' as Ename.
  assert (stored_ok op = true) as Hst by apply Hs. unfold stored_ok in Hst. split_ok.
  match goal with H : provenance_ok _ = true |- _ => rename H into Hpv end.
  match goal with H : evidence_ok op = true |- _ => rename H into Hev end.
  destruct (observed_patch (op_provenance op) o plan Hpv Hp Hok Ens Ename) as [changed Hpatch].
  { intros existing He. rewrite (Hgen' existing He) in Hgen. congruence. }
  assert (∃ result, patched_provenance op (Observed o) now = Ok result) as [result Hres].
  { unfold patched_provenance. unfold nonterminal in Hn. apply negb_true_iff in Hn. rewrite Hn, Hpatch.
    cbn [rbind]. destruct changed as [pv|]; [|by eexists]. unfold build_record.
    match goal with |- context [evidence_ok ?r] => assert (evidence_ok r = true) as -> end; [|by eexists].
    revert Hev. unfold evidence_ok.
    cbn [op_operation_id op_version op_events op_state op_failure op_runtime].
    rewrite !andb_true_iff, !Z.ltb_lt. intros. split_and!; naive_solver lia. }
  exists result. split; [done|]. intros r ->. split; [exact (patched_sound op (Observed o) now r Hs Hok Hres)|].
  unfold patched_provenance in Hres. apply raise_if_Ok in Hres as [_ Hres].
  apply rbind_Ok in Hres as ([pv|] & _ & Hres); [|done].
  by apply rbind_Ok in Hres as (? & [-> _]%build_record_Ok & [= <-]).
Qed.

(** ** Settling *)

(** The live resource decides the transition, and reads as a resource. *)
Definition decisive (op : StoredTransitionOperation) (live : option ConstellationSpec) : Prop :=
  (∃ r, reconcile_transition_operation op live = Ok r ∧ rc_disposition r ≠ StillSwitching) ∧
  ∀ cr, live = Some cr → selected_by op cr = true → is_Ok (constellation_spec_observation cr) = true.

Lemma mismatched_selected op cr r :
  reconcile_transition_operation op (Some cr) = Ok r → mismatched r = false → selected_by op cr = true.
Proof.
  unfold reconcile_transition_operation. intros [_ H]%raise_if_Ok.
  destruct (selected_by op cr); [done|]. by injection H as <-.
Qed.

(** The dictionaries agree but for one identifier. *)
Definition agree_but (id : string) t t' : Prop :=
  ∀ id', id' ≠ id → dict_get id' t' = dict_get id' t.

Lemma agree_but_set id r t : agree_but id t (dict_set id r t).
Proof. intros id' Hne. by apply dict_get_set_ne. Qed.

Lemma observation_served p t op live r :
  holds (ps_store p) t → served_well p → dict_get (op_operation_id op) t = Some op →
  nonterminal op = true → reconcile_transition_operation op live = Ok r → decisive op live →
  ∃ p' t' op', record_observation ios clock live r op p = (p', Ok op') ∧
    holds (ps_store p') t' ∧ served_well p' ∧ same_ids p p' ∧
    op_operation_id op' = op_operation_id op ∧ dict_get (op_operation_id op) t' = Some op' ∧
    nonterminal op' = true ∧ agree_but (op_operation_id op) t t'.
Proof.
  intros H Hw Hop Hn Hr [_ Hobs]. unfold record_observation.
  assert (∃ p' t' op', (p, Ok op : result StoredTransitionOperation) = (p', Ok op') ∧
    holds (ps_store p') t' ∧ served_well p' ∧ same_ids p p' ∧
    op_operation_id op' = op_operation_id op ∧ dict_get (op_operation_id op) t' = Some op' ∧
    nonterminal op' = true ∧ agree_but (op_operation_id op) t t') as Hsame.
  { exists p, t, op. done. }
  destruct live as [cr|]; [|done]. case_match eqn:Eb; [|done].
  apply andb_true_iff in Eb as [Hplan%bool_decide_eq_true Hm%negb_true_iff].
  pose proof (mismatched_selected op cr r Hr Hm) as Hsel.
  specialize (Hobs cr eq_refl Hsel).
  destruct (constellation_spec_observation cr) as [o|] eqn:Eo; [|done].
  destruct (tk_record t (h_table _ _ H) _ _ Hop) as [_ Hsound].
  destruct (observation_recorded op cr o (clock (ps_calls p)) Hsound Hn Hsel Hplan Eo)
    as (changed & Hch & Hsucc).
  pose proof (observation_fields cr o Eo) as (Hok & _).
  destruct (invoke_served p t (UpdateProvenance (op_operation_id op) (Observed o)) H Hw Hok)
    as (p' & Hinv & H' & Hw' & Hids).
  pose proof (patch_served t _ op (Observed o) _ changed Hop (id_of_record _ _ _ _ H Hop) Hch) as Eserve.
  rewrite Eserve in Hinv, H'.
  exists p', (dict_set (op_operation_id op) (default op changed) t), (default op changed).
  unfold pbind. rewrite Hinv. split_and!; try done.
  - destruct changed as [r'|]; [|done]. by destruct (Hsucc r' eq_refl) as [(_ & ? & _) _].
  - by rewrite dict_get_set_eq.
  - destruct changed as [r'|]; [|done]. destruct (Hsucc r' eq_refl) as [_ Hst].
    unfold nonterminal in *. simpl. by rewrite Hst.
  - apply agree_but_set.
Qed.

Lemma settle_ends p t op live :
  holds (ps_store p) t → served_well p → dict_get (op_operation_id op) t = Some op →
  nonterminal op = true → decisive op live →
  ∃ p' t' r, settle ios clock release build load live op p = (p', Ok tt) ∧
    holds (ps_store p') t' ∧ served_well p' ∧ ps_active p' = None ∧ ps_local p' = ps_local p ∧
    dict_get (op_operation_id op) t' = Some r ∧ nonterminal r = false ∧
    agree_but (op_operation_id op) t t'.
Proof.
  intros H Hw Hop Hn Hdec. pose proof Hdec as [(r & Hr & Hs) _].
  destruct (observation_served p t op live r) as
    (p1 & t1 & op1 & Hobs & H1 & Hw1 & Hids1 & Hid1 & Hop1 & Hn1 & Hag1); try done.
  destruct (judged_end_ok live r (reconcile_ok op live r Hr) Hs) as (a & Ha & Hend & Hreq).
  destruct (tk_record t1 (h_table _ _ H1) _ _ Hop1) as [_ [Hok1 _]].
  destruct (end_record op1 a (clock (ps_calls p1)) Hok1 Hn1 Hend)
    as (r' & Hadv & Hst & Hterm & _).
  rewrite <-Hid1 in Hop1.
  destruct (invoke_served p1 t1 (AdvanceTo (op_operation_id op1) a) H1 Hw1 Hreq)
    as (p2 & Hinv & H2 & Hw2 & Hids2).
  pose proof (advance_served t1 _ op1 a _ r' Hop1 (id_of_record _ _ _ _ H1 Hop1) Hadv) as Eserve.
  rewrite Eserve in Hinv, H2.
  exists (with_active p2 None), (dict_set (op_operation_id op1) r' t1), r'.
  unfold settle, pbind. rewrite Hr, Hobs.
  destruct (rc_disposition r) eqn:Ed; [..|done]; unfold advance_judged, pbind; rewrite Ha, Hinv;
    (split_and!; [done|done|done|done| | | |]);
    try (destruct Hids1 as (_ & Hl1 & _), Hids2 as (_ & Hl2 & _); simpl; congruence);
    try (by rewrite <-Hid1, dict_get_set_eq);
    try (unfold nonterminal; by rewrite Hst, Hterm);
    intros id' Hne; rewrite <-(Hag1 id' Hne); apply dict_get_set_ne; congruence.
Qed.

Lemma active_record d t op :
  holds d t → first_active (map snd t) = Some op →
  dict_get (op_operation_id op) t = Some op ∧ nonterminal op = true.
Proof.
  intros H [Hin Hn]%find_first_Some. split; [|done].
  apply list_elem_of_fmap in Hin as ([id r] & -> & Hin).
  apply dict_in_get in Hin; [|apply (tk_wf t (h_table d t H))].
  destruct (tk_record t (h_table d t H) id r Hin) as [Hid _]. simpl. by rewrite Hid.
Qed.

Lemma none_active t id r t' :
  table_ok t → dict_get id t = Some r → nonterminal r = true → agree_but id t t' →
  (∀ r', dict_get id t' = Some r' → nonterminal r' = false) → table_ok t' →
  first_active (map snd t') = None.
Proof.
  intros Ht Hr Hn Hag Hid Ht'. apply find_first_None. intros r' Hin.
  apply list_elem_of_fmap in Hin as ([id' r''] & -> & Hin). simpl.
  apply dict_in_get in Hin; [|apply (tk_wf t' Ht')].
  destruct (decide (id' = id)) as [->|Hne]; [by apply Hid|].
  rewrite Hag in Hin by done. destruct (nonterminal r'') eqn:Hn'; [|done].
  destruct Hne. by apply (tk_one t Ht id' id r'' r).
Qed.

Lemma new_record_total id reservation now :
  operation_id_ok id = true → ∃ r, new_record id reservation now = Ok r.
Proof.
  intros Hid. unfold new_record, validated_operation_id. rewrite Hid. cbn [negb rbind].
  unfold build_event, build_record, evidence_ok. cbn. rewrite Hid. by eexists.
Qed.

Lemma admitted_when_free p t id reservation :
  holds (ps_store p) t → served_well p → first_active (map snd t) = None →
  operation_id_ok id = true → dict_get id t = None → reservation_ok reservation = true →
  ∃ p' r, admit_reserve ios clock id reservation p = (p', Ok tt) ∧
    new_record id reservation (clock (ps_calls p)) = Ok r ∧
    holds (ps_store p') (dict_set id r t) ∧ served_well p' ∧ same_ids p p'.
Proof.
  intros H Hw Hfree Hid Hnew Hres.
  destruct (new_record_total id reservation (clock (ps_calls p)) Hid) as [r Hr].
  destruct (invoke_served p t (Reserve id reservation) H Hw Hres) as (p' & Hinv & H' & Hw' & Hids).
  assert (memory_serve t (Reserve id reservation (clock (ps_calls p))) =
    (dict_set id r t, Ok (Some r))) as Eserve.
  { unfold memory_serve, memory_decide, dict_mem. by rewrite Hfree, Hnew, Hr. }
  rewrite Eserve in Hinv, H'. exists p', r. unfold admit_reserve, pbind. by rewrite Hinv.
Qed.

(** C25: an interrupted transition is settled, and admission is free again.  When a
    record of an earlier process is still active, the live resource decides it (it
    is absent, another transition's, in error, or Ready with its pods wired), and
    the operating system does what it is asked, one recovery pass makes the record
    terminal, leaves no transition active, and the next transition is admitted. *)
Theorem interrupted_transition_settles p t op live next reservation :
  holds (ps_store p) t → served_well p → first_active (map snd t) = Some op →
  ps_local p ≠ Some (op_operation_id op) → decisive op live →
  operation_id_ok next = true → dict_get next t = None → reservation_ok reservation = true →
  ps_active (recover live p) = None ∧ ps_local (recover live p) = ps_local p ∧
  (∃ t' r, holds (ps_store (recover live p)) t' ∧ first_active (map snd t') = None ∧
     dict_get (op_operation_id op) t' = Some r ∧ terminal (op_state r) = true) ∧
  (admit_transition ios clock next reservation (recover live p)).2 = Ok true.
Proof.
  intros H Hw Hact Hlocal Hdec Hnext Hnew Hres.
  destruct (active_record _ _ _ H Hact) as [Hop Hn].
  destruct (served_active p t H Hw) as (p1 & Hinv & H1 & Hw1 & (_ & Hl1 & _)).
  destruct (settle_ends p1 t op live H1 Hw1 Hop Hn Hdec)
    as (p2 & t2 & r & Hsettle & H2 & Hw2 & Ha2 & Hl2 & Hr & Hnr & Hag).
  assert (recover live p = p2) as ->.
  { unfold reconcile_interrupted_transition, pbind. rewrite Hinv, Hact. simpl.
    rewrite bool_decide_false by by rewrite Hl1. by rewrite Hsettle. }
  assert (first_active (map snd t2) = None) as Hfree.
  { apply (none_active t (op_operation_id op) op t2); try done; [apply (h_table _ _ H)| |apply (h_table _ _ H2)].
    intros r' Hr'. congruence. }
  destruct (admitted_when_free p2 t2 next reservation H2 Hw2 Hfree Hnext) as (p3 & r3 & Hadm & _); [|done|].
  { rewrite Hag; [done|]. intros ->. congruence. }
  split_and!; [done|congruence| |].
  - exists t2, r. split_and!; try done. unfold nonterminal in Hnr. by apply negb_false_iff.
  - unfold admit_transition. by rewrite Hadm.
Qed.

(** ** Recovered successes *)

(** The live resource carries the proof of the success. *)
Definition proven (cr : ConstellationSpec) (op r : StoredTransitionOperation) : Prop :=
  selected_by op cr = true ∧
  ∃ status generation run_id config,
    cr_status cr = Some status ∧ positive_int (cr_generation cr) = Some generation ∧
    cs_observed_generation status = Some generation ∧ cs_phase status = Some Ready ∧
    (∃ n, 0 < n ∧ cs_pod_count status = Some n ∧ cs_ready_pods status = Some n ∧
          cs_wired_pods status = Some n) ∧
    cs_runtime_release status = Some (fa_release (op_facts op)) ∧
    cs_runtime_build status = Some (fa_build (op_facts op)) ∧
    cs_document_digest status = fa_document_digest (op_facts op) ∧
    cs_closure_digest status = fa_closure_digest (op_facts op) ∧
    cs_resolved_semantic_digest status = fa_resolved_semantic_digest (op_facts op) ∧
    load cr run_id = Ok config ∧
    cs_document_digest status = Some (ld_document_digest config) ∧
    cs_closure_digest status = Some (ld_closure_digest config) ∧
    cs_resolved_semantic_digest status = Some (ld_resolved_semantic_digest config) ∧
    cs_session_run_id status = Some run_id ∧
    op_runtime r = Some {| rr_session_id := run_id; rr_generation := generation |}.

Lemma mismatches_nil status expected :
  runtime_mismatches status expected = [] →
  cs_document_digest status = pf_document_digest expected ∧
  cs_closure_digest status = pf_closure_digest expected ∧
  cs_resolved_semantic_digest status = pf_resolved_semantic_digest expected ∧
  cs_runtime_release status = Some (pf_release expected) ∧
  cs_runtime_build status = Some (pf_build expected).
Proof.
  unfold runtime_mismatches. intros H%map_eq_nil. cbn [List.filter fst snd] in H.
  do 5 (case_bool_decide; [|done]; cbn [negb] in H). done.
Qed.

Lemma nonempty_Some v s : nonempty_string v = Some s → v = Some s.
Proof. destruct v as [x|]; [|done]. simpl. by case_bool_decide. Qed.

Lemma ready_pods status :
  ready_pod_count status ≠ None →
  ∃ n, 0 < n ∧ cs_pod_count status = Some n ∧ cs_ready_pods status = Some n ∧
       cs_wired_pods status = Some n.
Proof.
  unfold ready_pod_count. destruct (cs_pod_count status) as [n|]; [|done].
  destruct (n <=? 0) eqn:En; [done|]. case_bool_decide as E; [|done]. intros _.
  exists n. apply Z.leb_gt in En. naive_solver.
Qed.

Lemma judged_success op live r runtime :
  reconcile_transition_operation op live = Ok r → rc_disposition r = DispSucceeded runtime →
  ∃ cr status generation, live = Some cr ∧ selected_by op cr = true ∧ cr_status cr = Some status ∧
    positive_int (cr_generation cr) = Some generation ∧
    cs_observed_generation status = Some generation ∧ cs_phase status = Some Ready ∧
    ready_pod_count status ≠ None ∧ runtime_mismatches status (admitted_proof op) = [] ∧
    cs_session_run_id status = Some (rr_session_id runtime) ∧ rr_generation runtime = generation.
Proof.
  unfold reconcile_transition_operation. intros [_ H]%raise_if_Ok Hd.
  destruct live as [cr|]; [|injection H as <-; done].
  destruct (selected_by op cr) eqn:Hsel; cbn [negb] in H; [|injection H as <-; done].
  apply rbind_Ok in H as (status & Hst%or_raise_Ok & H).
  destruct (positive_int (cr_generation cr)) as [g|] eqn:Hg; [|injection H as <-; done].
  destruct (observes_generation status g) eqn:Ho; cbn [negb] in H; [|injection H as <-; done].
  apply andb_true_iff in Ho as [_ Ho%bool_decide_eq_true].
  destruct (cs_phase status) as [[]|] eqn:Hp; try (injection H as <-; done).
  unfold reconcile_ready in H. case_bool_decide as Hpods; [injection H as <-; done|].
  case_bool_decide as Hm; cbn [negb] in H; [|injection H as <-; done].
  destruct (nonempty_string _) as [run_id|] eqn:Hrun; [|injection H as <-; done].
  apply rbind_Ok in H as (rt & [_ [= <-]]%raise_if_Ok & [= <-]). injection Hd as <-.
  apply nonempty_Some in Hrun. exists cr, status, g. by split_and!.
Qed.

Lemma extracted cr v :
  extract cr = Ok (Some v) →
  ∃ status config, cr_status cr = Some status ∧ load cr (rr_session_id v) = Ok config ∧
    cs_document_digest status = Some (ld_document_digest config) ∧
    cs_closure_digest status = Some (ld_closure_digest config) ∧
    cs_resolved_semantic_digest status = Some (ld_resolved_semantic_digest config).
Proof.
  unfold extract_cr_session. intros (status & Hst%or_raise_Ok & H)%rbind_Ok.
  apply rbind_Ok in H as ([[g run_id]|] & _ & H); [|done].
  apply rbind_Ok in H as (? & _ & H). apply rbind_Ok in H as (? & _ & H).
  apply rbind_Ok in H as (config & Hload' & H). apply raise_if_Ok in H as [Hm H].
  apply negb_false_iff, bool_decide_eq_true in Hm. apply mismatches_nil in Hm as (? & ? & ? & _).
  apply rbind_Ok in H as (? & _ & H). apply raise_if_Ok in H as [_ H].
  apply rbind_Ok in H as (? & _ & [= <-]). by exists status, config.
Qed.

Lemma success_proven op live r a now cur r' :
  reconcile_transition_operation op live = Ok r → judged_end release build load live r = Ok a →
  ad_state a = SUCCEEDED → advanced_record cur a now = Ok (Some r') →
  ∃ cr, live = Some cr ∧ proven cr op r'.
Proof.
  intros Hr Ha Hs Hadv.
  assert (op_runtime r' = ad_runtime a) as Hrt.
  { unfold advanced_record in Hadv. destruct (terminal _); [by case_bool_decide|].
    apply raise_if_Ok in Hadv as [_ Hadv]. apply rbind_Ok in Hadv as (? & _ & Hadv).
    apply rbind_Ok in Hadv as (e & _ & Hadv).
    by apply rbind_Ok in Hadv as (r1 & [-> _]%build_record_Ok & [= <-]). }
  unfold judged_end in Ha. destruct (rc_disposition r) as [runtime| | |] eqn:Hd;
    [|by injection Ha as <-..].
  destruct (judged_success op live r runtime Hr Hd)
    as (cr & status & g & -> & Hsel & Hst & Hg & Ho & Hp & Hpods & Hm & Hrun & Hrg).
  destruct (verified_runtime release build load (Some cr) runtime) as [v|e] eqn:Ev.
  2: { by apply rbind_Ok in Ha as (f & _ & [= <-]). }
  injection Ha as <-. cbn in Hrt. exists cr. split; [done|]. split; [done|].
  unfold verified_runtime in Ev. cbn [or_raise rbind] in Ev.
  apply rbind_Ok in Ev as (o & Hext & Ev). apply rbind_Ok in Ev as (v' & ->%or_raise_Ok & Ev).
  apply rbind_Ok in Ev as (v'' & [_ [= <-]]%raise_if_Ok & Ev).
  apply raise_if_Ok in Ev as [Heq%negb_false_iff%bool_decide_eq_true [= <-]]. subst v'.
  destruct (extracted cr runtime Hext) as (status' & config & Hst' & Hl & Hdig).
  rewrite Hst in Hst'. injection Hst' as <-.
  apply mismatches_nil in Hm as (? & ? & ? & ? & ?).
  exists status, g, (rr_session_id runtime), config. split_and!; try done; [by apply ready_pods|..];
    try apply Hdig. rewrite Hrt. destruct runtime. simpl in *. by subst.
Qed.

(** Every success of the later dictionary is one of the earlier. *)
Definition no_new_success t t' : Prop :=
  ∀ id r, dict_get id t' = Some r → op_state r = SUCCEEDED → dict_get id t = Some r.

Lemma no_new_refl t : no_new_success t t.
Proof. by intros id r. Qed.
#[local] Hint Resolve no_new_refl : core.

Lemma change_at t id f r :
  memory_change t id f = Ok (WriteBack r) →
  ∃ cur, dict_get id t = Some cur ∧ (r = cur ∨ f cur = Ok (Some r)).
Proof.
  intros (cur & [_ Hcur]%memory_get_Ok & H)%rbind_Ok. exists cur. split; [done|].
  apply rbind_Ok in H as ([r'|] & Hf & [= <-]); [by right|by left].
Qed.

Lemma patch_no_success t id patch now :
  no_new_success t (memory_serve t (UpdateProvenance id patch now)).1.
Proof.
  unfold memory_serve. destruct (memory_decide _ _) as [[?|r]|e] eqn:E; [done| |done].
  intros id' r' Hr' Hs. simpl in Hr'. rewrite dict_get_set in Hr'.
  destruct (decide (id' = id)) as [->|]; [|done]. injection Hr' as <-.
  simpl in E. apply change_at in E as (cur & Hcur & [->|Hch]); [done|].
  unfold patched_provenance in Hch. apply raise_if_Ok in Hch as [Ht Hch].
  apply rbind_Ok in Hch as ([pv|] & _ & Hch); [|done].
  apply rbind_Ok in Hch as (? & [-> _]%build_record_Ok & [= <-]). simpl in Hs.
  by rewrite Hs in Ht.
Qed.

Lemma advance_success t id a now id' r :
  dict_get id' (memory_serve t (AdvanceTo id a now)).1 = Some r → op_state r = SUCCEEDED →
  dict_get id' t = Some r ∨
  id' = id ∧ ad_state a = SUCCEEDED ∧
    ∃ cur, dict_get id t = Some cur ∧ advanced_record cur a now = Ok (Some r).
Proof.
  unfold memory_serve. destruct (memory_decide _ _) as [[?|r0]|e] eqn:E; [by left| |by left].
  simpl. rewrite dict_get_set. destruct (decide (id' = id)) as [->|]; [|by left].
  intros [= <-] Hs. simpl in E. apply change_at in E as (cur & Hcur & [->|Hch]); [by left|].
  right. split_and!; [done| |by exists cur]. unfold advanced_record in Hch.
  destruct (terminal _); [by case_bool_decide|].
  apply raise_if_Ok in Hch as [_ Hch]. apply rbind_Ok in Hch as (? & _ & Hch).
  apply rbind_Ok in Hch as (e & _ & Hch).
  by apply rbind_Ok in Hch as (r1 & [-> _]%build_record_Ok & [= <-]).
Qed.

(** Recording the observation, whatever fails in it. *)
Lemma observation_no_success p t op live r p1 res :
  (∀ n, reliable (ios n)) → holds (ps_store p) t →
  record_observation ios clock live r op p = (p1, res) →
  ∃ t1, holds (ps_store p1) t1 ∧ no_new_success t t1 ∧
    (∀ op1, res = Ok op1 → op_operation_id op1 = op_operation_id op).
Proof.
  intros Hio H. unfold record_observation.
  destruct live as [cr|]; [case_match|];
    try (intros [= <- <-]; exists t; split_and!; [done|done|intros ? [= <-]; done]).
  unfold pbind. destruct (constellation_spec_observation cr) as [o|e] eqn:Eo.
  2: { intros [= <- <-]. by exists t. }
  destruct (invoke ios clock _ p) as [p' a] eqn:Einv.
  destruct (observation_fields cr o Eo) as (Hok & _).
  destruct (invoke_spec p t (UpdateProvenance (op_operation_id op) (Observed o)) p' a Hio H Hok Einv) as [_ [[-> H']|[[e ->] H']]].
  - set (q := UpdateProvenance _ _ _) in *.
    destruct ((memory_serve t q).2) as [answer|e] eqn:Eans.
    + intros [= <- <-]. exists (memory_serve t q).1. split_and!; [done|apply patch_no_success|].
      intros op1 [= <-]. destruct answer as [r1|]; [|done]. simpl.
      apply (tk_record _ (h_table _ _ H') (op_operation_id op)). revert Eans. unfold memory_serve.
      destruct (memory_decide t q) as [[?|r0]|e'] eqn:Edec; simpl; try done.
      * subst q. simpl in Edec. by apply rbind_Ok in Edec as (? & _ & (? & _ & [=])%rbind_Ok).
      * intros [= <-]. by rewrite dict_get_set_eq.
    + intros [= <- <-]. exists (memory_serve t q).1. split_and!; [done|apply patch_no_success|done].
  - intros [= <- <-]. destruct H' as [H'|H'].
    + by exists t.
    + eexists. split_and!; [exact H'|apply patch_no_success|done].
Qed.

Lemma settle_success p t op live :
  (∀ n, reliable (ios n)) → holds (ps_store p) t → dict_get (op_operation_id op) t = Some op →
  nonterminal op = true →
  ∃ t', holds (ps_store (settle ios clock release build load live op p).1) t' ∧
    ∀ id r, dict_get id t' = Some r → op_state r = SUCCEEDED → dict_get id t ≠ Some r →
      ∃ cr, live = Some cr ∧ id = op_operation_id op ∧ proven cr op r.
Proof.
  intros Hio H Hop Hn. unfold settle, pbind at 1.
  assert (∀ d' t', holds d' t' → no_new_success t t' → ∃ t', holds d' t' ∧
    ∀ id r, dict_get id t' = Some r → op_state r = SUCCEEDED → dict_get id t ≠ Some r →
      ∃ cr, live = Some cr ∧ id = op_operation_id op ∧ proven cr op r) as Hnone.
  { intros d' t' H' Hns. exists t'. split; [done|]. intros id r Hr Hs Hne. destruct Hne. by apply Hns. }
  destruct (reconcile_transition_operation op live) as [r|e] eqn:Er; [|by apply (Hnone _ t)].
  unfold pbind at 1. destruct (record_observation _ _ _ _ _ _) as [p1 res] eqn:Eobs.
  destruct (observation_no_success p t op live r p1 res Hio H Eobs) as (t1 & H1 & Hns & Hid).
  destruct res as [op1|e]; [|by apply (Hnone _ t1)]. specialize (Hid op1 eq_refl).
  assert (∀ p2, ps_store p2 = ps_store p1 →
    ∃ t', holds (ps_store (advance_judged ios clock release build load live r op1 p2).1) t' ∧
    ∀ id r', dict_get id t' = Some r' → op_state r' = SUCCEEDED → dict_get id t ≠ Some r' →
      ∃ cr, live = Some cr ∧ id = op_operation_id op ∧ proven cr op r') as Hadv.
  { intros p2 Hp2. rewrite <-Hp2 in H1. unfold advance_judged, pbind.
    destruct (judged_end release build load live r) as [a|e] eqn:Ea; [|by apply (Hnone _ t1)].
    destruct (invoke ios clock _ p2) as [p3 ans] eqn:Einv.
    assert (request_ok (AdvanceTo (op_operation_id op1) a (clock (ps_calls p2))) = true) as Hreq.
    { destruct (rc_disposition r) eqn:Ed;
        [..|unfold judged_end in Ea; rewrite Ed in Ea; by injection Ea as <-];
        (destruct (judged_end_ok live r (reconcile_ok op live r Er)) as (a' & Ea' & _ & Hreq);
         [congruence|rewrite Ea in Ea'; by injection Ea' as ->]). }
    destruct (invoke_spec p2 t1 (AdvanceTo (op_operation_id op1) a) p3 ans Hio H1 Hreq Einv) as [_ Hcases].
    assert (∃ t', holds (ps_store p3) t' ∧ (t' = t1 ∨ t' = (memory_serve t1 (AdvanceTo (op_operation_id op1) a (clock (ps_calls p2)))).1)) as (t' & H' & Ht').
    { destruct Hcases as [[_ ?]|[_ [?|?]]]; eauto. }
    exists t'. split; [by destruct ans|]. intros id r' Hr' Hs Hne.
    destruct Ht' as [-> | ->]; [destruct Hne; by apply Hns|].
    destruct (advance_success _ _ _ _ _ _ Hr' Hs) as [Hold|(-> & Hst & cur & _ & Hch)].
    - destruct Hne. by apply Hns.
    - destruct (success_proven op live r a _ cur r' Er Ea Hst Hch) as (cr & -> & Hp). by exists cr. }
  destruct (rc_disposition r) eqn:Ed.
  all: try (unfold pbind; destruct (Hadv p1 eq_refl) as (t' & H' & Hsucc);
    destruct (advance_judged _ _ _ _ _ _ _ _ p1) as [p3 [|]]; exists t'; done).
  unfold pbind. destruct (same_detail op1 (rc_detail r)); [by apply (Hnone _ t1)|].
  by apply (Hadv (with_active p1 (Some (op_operation_id op1)))).
Qed.

(** C26: a success recovered after a restart is proven.  Whatever fails in a recovery
    pass, a record it leaves succeeded that was not before is the active transition,
    and the live ConstellationSpec is the one the transition selected, observed by
    the Operator at its generation, Ready with every pod ready and wired, carrying
    the digests, release and build that were admitted and those of the configuration
    it selects; the recorded runtime is its session run and its generation. *)
Theorem recovered_success_is_proven p t live :
  (∀ n, reliable (ios n)) → holds (ps_store p) t →
  ∃ t', holds (ps_store (recover live p)) t' ∧
    ∀ id r, dict_get id t' = Some r → op_state r = SUCCEEDED → dict_get id t ≠ Some r →
      ∃ cr op, live = Some cr ∧ dict_get id t = Some op ∧ nonterminal op = true ∧ proven cr op r.
Proof.
  intros Hio H. unfold reconcile_interrupted_transition, pbind.
  destruct (invoke ios clock (λ _, Active) p) as [p1 a] eqn:Einv.
  destruct (invoke_spec p t (λ _, Active) p1 a Hio H eq_refl Einv) as [_ Hcases].
  assert (holds (ps_store p1) t) as H1 by by destruct Hcases as [[_ ?]|[_ [?|?]]].
  assert (∃ t', holds (ps_store p1) t' ∧
    ∀ id r, dict_get id t' = Some r → op_state r = SUCCEEDED → dict_get id t ≠ Some r →
      ∃ cr op, live = Some cr ∧ dict_get id t = Some op ∧ nonterminal op = true ∧ proven cr op r)
    as Hsame by (exists t; split; [done|]; intros id r Hr _ Hne; by destruct Hne).
  destruct a as [active|e]; [|done].
  destruct Hcases as [[Ha _]|[[e Ha] _]]; [|done]. injection Ha as ->. unfold reconcile_from.
  destruct (first_active (map snd t)) as [op|] eqn:Eop; [|by case_bool_decide].
  case_bool_decide; [done|]. destruct (active_record _ _ _ H Eop) as [Hop Hn].
  destruct (settle_success p1 t op live Hio H1 Hop Hn) as (t' & H' & Hsucc).
  exists t'. split; [done|]. intros id r Hr Hs Hne.
  destruct (Hsucc id r Hr Hs Hne) as (cr & -> & -> & Hp). by exists cr, op.
Qed.
End Recovery.

(** ** Running a transition *)

(** The transition is under way and calls are served. *)
Definition underway (id : string) p t : Prop :=
  holds (ps_store p) t ∧ served_well p ∧ ∃ r, dict_get id t = Some r ∧ nonterminal r = true.

(** A program that leaves a transition under way. *)
Definition keeps_underway {A} (id : string) (c : Proc A) : Prop :=
  ∀ p t, underway id p t → ∃ t', underway id (c p).1 t' ∧ same_ids p (c p).1 ∧ agree_but id t t'.

Lemma keeps_pure {A} id (r : result A) : keeps_underway id (λ p, (p, r)).
Proof. intros p t H. by exists t. Qed.

Lemma proc_keeps_bind {A B} id (c : Proc A) (k : A → Proc B) :
  keeps_underway id c → (∀ p a, (c p).2 = Ok a → keeps_underway id (k a)) →
  keeps_underway id (pbind c k).
Proof.
  intros Hc Hk p t H. destruct (Hc p t H) as (t1 & H1 & (Ha & Hl & Hm) & Hag). unfold pbind.
  destruct (c p) as [p1 [a|e]] eqn:Ec; [|by exists t1]. cbn [fst] in *.
  destruct (Hk p a ltac:(by rewrite Ec) p1 t1 H1) as (t2 & H2 & (Ha2 & Hl2 & Hm2) & Hag2). exists t2.
  split_and!; [done|by split_and!; congruence|]. intros id' Hne. by rewrite Hag2, Hag.
Qed.

(** What a request may do to the record of a transition under way. *)
Lemma keeps_invoke id (q : datetime → Request) :
  (∀ now, request_ok (q now) = true) → (∀ now, requested_id (q now) = id ∨ q now = Active) →
  (∀ now t cur r, dict_get id t = Some cur → nonterminal cur = true →
     memory_decide t (q now) = Ok (WriteBack r) → nonterminal r = true) →
  keeps_underway id (invoke ios clock q).
Proof.
  intros Hq Hid Hkeep p t (H & Hw & r & Hr & Hn).
  destruct (invoke_served p t q H Hw (Hq _)) as (p' & Hinv & H' & Hw' & Hids).
  set (now := clock (ps_calls p)) in *.
  exists (memory_serve t (q now)).1. rewrite Hinv. cbn [fst].
  assert ((∃ r', dict_get id (memory_serve t (q now)).1 = Some r' ∧ nonterminal r' = true) ∧
    agree_but id t (memory_serve t (q now)).1) as [Hrec Hag].
  { unfold memory_serve. destruct (memory_decide t (q now)) as [[?|r']|e] eqn:Edec;
      [split; [by exists r|by intros ? ?]| |split; [by exists r|by intros ? ?]]. cbn [fst].
    destruct (Hid now) as [->|E]; [|by rewrite E in Edec].
    split; [|apply agree_but_set]. exists r'. rewrite dict_get_set_eq. split; [done|]. by eapply Hkeep. }
  by split_and!.
Qed.

Lemma keeps_advance id a :
  terminal (ad_state a) = false →
  optional failure_ok (ad_failure a) && optional runtime_ok (ad_runtime a) = true →
  keeps_underway id (invoke ios clock (AdvanceTo id a)).
Proof.
  intros Ht Ha. apply keeps_invoke; [done|by left|]. intros now t cur r Hcur Hn H.
  simpl in H. apply change_at in H as (cur' & Hcur' & [->|Hch]); [congruence|].
  unfold advanced_record in Hch. destruct (terminal (op_state cur')); [by case_bool_decide|].
  apply raise_if_Ok in Hch as [_ Hch]. apply rbind_Ok in Hch as (? & _ & Hch).
  apply rbind_Ok in Hch as (e & _ & Hch).
  apply rbind_Ok in Hch as (r1 & [-> _]%build_record_Ok & [= <-]). unfold nonterminal. simpl. by rewrite Ht.
Qed.

Lemma keeps_patch id patch :
  patch_ok patch = true → keeps_underway id (invoke ios clock (UpdateProvenance id patch)).
Proof.
  intros Hp. apply keeps_invoke; [done|by left|]. intros now t cur r Hcur Hn H.
  simpl in H. apply change_at in H as (cur' & Hcur' & [->|Hch]); [congruence|].
  apply raise_if_Ok in Hch as [Ht Hch]. apply rbind_Ok in Hch as ([pv|] & _ & Hch); [|done].
  apply rbind_Ok in Hch as (r1 & [-> _]%build_record_Ok & [= <-]). unfold nonterminal. simpl. by rewrite Ht.
Qed.

Lemma keeps_report id state detail :
  terminal state = false → keeps_underway id (report ios clock id state detail).
Proof. intros Ht. apply proc_keeps_bind; [by apply keeps_advance|]. intros _ _ _. apply keeps_pure. Qed.

Lemma keeps_update id patch : keeps_underway id (update_provenance ios clock id patch).
Proof.
  apply proc_keeps_bind; [apply keeps_pure|]. intros p patch' [Hp%negb_false_iff [= <-]]%raise_if_Ok.
  apply proc_keeps_bind; [by apply keeps_patch|]. intros _ _ _. apply keeps_pure.
Qed.

Lemma keeps_run_report id r : keeps_underway id (run_report ios clock id r).
Proof.
  destruct r as [|detail|name|cr]; simpl.
  - apply proc_keeps_bind; [by apply keeps_report|]. intros _ _ _. by apply keeps_report.
  - case_bool_decide; [by apply keeps_report|].
    apply proc_keeps_bind.
    { apply keeps_invoke; [done|by left|]. intros now t cur r _ _ Hd. simpl in Hd.
      by apply rbind_Ok in Hd as (? & _ & [=]). }
    intros _ [op|] _; [|apply keeps_pure]. case_bool_decide; [by apply keeps_report|apply keeps_pure].
  - apply keeps_update.
  - apply proc_keeps_bind; [apply keeps_pure|]. intros _ o _. apply keeps_update.
Qed.

Lemma keeps_run_reports id reports : keeps_underway id (run_reports ios clock id reports).
Proof.
  induction reports as [|r reports IH]; simpl; [apply keeps_pure|].
  apply proc_keeps_bind; [apply keeps_run_report|]. by intros _ _ _.
Qed.

(** What the worker gives is a model, and its exceptions have a class. *)
Definition worker_ok (w : Worker) : Prop :=
  match wk_end w with
  | WorkerReturns runtime => optional runtime_ok runtime = true
  | WorkerRaises exc => ex_type_name exc ≠ ""
  | WorkerCancelled => True
  end.

(** Ending a transition under way. *)
Lemma end_underway id p t state detail failure runtime :
  underway id p t → optional failure_ok failure && optional runtime_ok runtime = true →
  ends_with_evidence {| ad_state := state; ad_detail := normalized detail; ad_failure := failure;
                        ad_runtime := runtime |} = true →
  ∃ p' t' r, advance_operation ios clock id state detail failure runtime p = (p', Ok tt) ∧
    holds (ps_store p') t' ∧ served_well p' ∧ same_ids p p' ∧ dict_get id t' = Some r ∧
    op_state r = state ∧ terminal state = true ∧ op_runtime r = runtime ∧ agree_but id t t'.
Proof.
  intros (H & Hw & cur & Hcur & Hn) Hreq Hend.
  set (a := {| ad_state := state; ad_detail := _; ad_failure := _; ad_runtime := _ |}) in *.
  destruct (tk_record t (h_table _ _ H) _ _ Hcur) as [_ [Hok _]].
  destruct (end_record cur a (clock (ps_calls p)) Hok Hn Hend) as (r & Hadv & Hst & Hterm & _ & Hrt & _).
  destruct (invoke_served p t (AdvanceTo id a) H Hw Hreq) as (p' & Hinv & H' & Hw' & Hids).
  pose proof (advance_served t id cur a _ r Hcur (id_of_record _ _ _ _ H Hcur) Hadv) as Eserve.
  rewrite Eserve in Hinv, H'. exists p', (dict_set id r t), r.
  unfold advance_operation, pbind. fold a. rewrite Hinv. split_and!; try done.
  - by rewrite dict_get_set_eq.
  - apply agree_but_set.
Qed.

(** Every exception of the store has a class. *)
Definition classed (e : exn) : Prop := class_name e ≠ "".

Ltac classed_steps := repeat first
  [ apply ro_bind; [|intros ? _]
  | apply ro_or_raise; done
  | apply ro_Ok
  | apply ro_Raise; done
  | case_match ].

Lemma change_classed cur a now : raises_only classed (advanced_record cur a now).
Proof. unfold advanced_record, build_event, build_record. classed_steps. Qed.

Lemma patch_classed cur patch now : raises_only classed (patched_provenance cur patch now).
Proof. unfold patched_provenance, patched, build_provenance, build_record. classed_steps. Qed.

Lemma read_path_classed io d name : raises_only classed (read_path io d name).
Proof. unfold read_path. classed_steps. Qed.

Lemma read_active_classed io d : raises_only classed (read_active io d).
Proof.
  unfold read_active. apply ro_bind; [|intros ? _; classed_steps].
  apply ro_mapM. intros name _. apply read_path_classed.
Qed.

Lemma path_classed id : raises_only classed (path id).
Proof. unfold path, validated_operation_id. classed_steps. Qed.

Lemma new_record_classed id reservation now : raises_only classed (new_record id reservation now).
Proof. unfold new_record, validated_operation_id, build_event, build_record. classed_steps. Qed.

Lemma file_change_classed io d id f :
  (∀ cur, raises_only classed (f cur)) → raises_only classed (file_change io d id f).
Proof.
  intros Hf. unfold file_change. apply ro_bind; [apply path_classed|intros name _].
  case_match; [by apply ro_Raise|]. apply ro_bind; [apply read_path_classed|intros cur _].
  apply ro_bind; [apply Hf|intros changed _]. apply ro_Ok.
Qed.

Lemma decide_classed io d q : raises_only classed (file_decide io d q).
Proof.
  destruct q as [id reservation now|id| |id a now|id patch now]; simpl.
  - apply ro_bind; [apply read_active_classed|intros [op|] _]; [by apply ro_Raise|].
    apply ro_bind; [apply path_classed|intros target _]. case_match; [by apply ro_Raise|].
    apply ro_bind; [apply new_record_classed|intros r _]. apply ro_Ok.
  - apply ro_bind; [apply path_classed|intros name _]. case_match; [by apply ro_Raise|].
    apply ro_bind; [apply read_path_classed|intros r _]. apply ro_Ok.
  - apply ro_bind; [apply read_active_classed|intros r _]. apply ro_Ok.
  - apply file_change_classed. intros cur. apply change_classed.
  - apply file_change_classed. intros cur. apply patch_classed.
Qed.

Lemma serve_classed io d q : raises_only classed (file_serve io d q).2.
Proof.
  unfold file_serve. pose proof (decide_classed io d q) as Hd.
  destruct (file_decide io d q) as [[answer|record]|e]; [apply ro_Ok| |apply ro_Raise; by apply Hd].
  unfold write, path, validated_operation_id. cbn [rbind].
  destruct (negb _); cbn [rbind]; [by apply ro_Raise|].
  destruct (bool_decide _ || _); [by apply ro_Raise|].
  destruct (io_fault io), (d !! file_name (op_operation_id record)) as [[| |]|];
    try case_bool_decide; cbn [snd]; classed_steps.
Qed.

Definition all_classed {A} (c : Proc A) : Prop := ∀ p, raises_only classed (c p).2.

Lemma classed_bind {A B} (c : Proc A) (k : A → Proc B) :
  all_classed c → (∀ a, all_classed (k a)) → all_classed (pbind c k).
Proof.
  intros Hc Hk p. unfold pbind. specialize (Hc p).
  destruct (c p) as [p' [a|e]]; [apply Hk|]. cbn [snd] in *. apply ro_Raise. by apply Hc.
Qed.

Lemma classed_pure {A} (r : result A) : raises_only classed r → all_classed (λ p, (p, r)).
Proof. by intros H p. Qed.

Lemma classed_invoke q : all_classed (invoke ios clock q).
Proof.
  intros p. unfold invoke. pose proof (serve_classed (ios (ps_calls p)) (ps_store p)
    (q (clock (ps_calls p)))) as Hs. by destruct (file_serve _ _ _).
Qed.

Lemma classed_report id state detail : all_classed (report ios clock id state detail).
Proof. apply classed_bind; [apply classed_invoke|]. intros _. apply classed_pure, ro_Ok. Qed.

Lemma classed_update id patch : all_classed (update_provenance ios clock id patch).
Proof.
  apply classed_bind; [apply classed_pure; classed_steps|]. intros patch'.
  apply classed_bind; [apply classed_invoke|]. intros _. apply classed_pure, ro_Ok.
Qed.

Lemma classed_reports id reports : all_classed (run_reports ios clock id reports).
Proof.
  induction reports as [|r reports IH]; simpl; [apply classed_pure, ro_Ok|].
  apply classed_bind; [|by intros _]. destruct r as [|detail|name|cr]; simpl.
  - apply classed_bind; [apply classed_report|]. intros _. apply classed_report.
  - case_bool_decide; [apply classed_report|]. apply classed_bind; [apply classed_invoke|].
    intros [op|]; [|apply classed_pure, ro_Ok].
    case_bool_decide; [apply classed_report|apply classed_pure, ro_Ok].
  - apply classed_update.
  - apply classed_bind; [|intros o; apply classed_update]. apply classed_pure.
    unfold constellation_spec_observation, status_from_cr. classed_steps.
Qed.

(** The body of a task: it ended the transition, or left it under way. *)
Lemma run_body_spec p t id w :
  underway id p t → worker_ok w →
  let '(p', ended) := run_body ios clock id w p in
  match ended with
  | WorkerReturns runtime =>
      wk_end w = WorkerReturns runtime ∧
      ∃ t' r, holds (ps_store p') t' ∧ dict_get id t' = Some r ∧ op_state r = SUCCEEDED ∧
        op_runtime r = runtime ∧ agree_but id t t'
  | WorkerRaises exc =>
      ex_type_name exc ≠ "" ∧ ∃ t', underway id p' t' ∧ agree_but id t t'
  | WorkerCancelled => ∃ t', underway id p' t' ∧ agree_but id t t'
  end.
Proof.
  intros H Hw. unfold run_body.
  set (body := pbind _ _). assert (keeps_underway id body) as Hkeep.
  { apply proc_keeps_bind; [by apply keeps_report|]. intros _ _ _. apply keeps_run_reports. }
  assert (all_classed body) as Hcl.
  { apply classed_bind; [apply classed_report|]. intros _. apply classed_reports. }
  destruct (Hkeep p t H) as (t1 & H1 & _ & Hag1). specialize (Hcl p).
  destruct (body p) as [p1 [[]|e]]; cbn [fst snd] in *; [|split; [by apply Hcl|by exists t1]].
  unfold worker_ok in Hw. destruct (wk_end w) as [runtime|exc|]; [|by eauto|by eauto].
  destruct (end_underway id p1 t1 SUCCEEDED "Session runtime reached Ready" None runtime)
    as (p2 & t2 & r & -> & H2 & _ & _ & Hr & Hst & _ & Hrt & Hag2); [done|done| |].
  { unfold ends_with_evidence. cbn [ad_state ad_failure ad_detail]. by rewrite normalized_ok. }
  split; [done|]. exists t2, r. split_and!; try done. intros id' Hne. by rewrite Hag2, Hag1.
Qed.

(** C27: a transition that ran is over.  Whatever the worker reported and however it
    ended, the process no longer takes the transition for its own or for the active
    one, and when the operating system does what it is asked the record is terminal:
    succeeded, with the runtime the worker returned, only when the worker returned;
    else failed or cancelled. *)
Theorem transition_always_ends p t id w :
  underway id p t → worker_ok w →
  ps_active (run_admitted_transition ios clock id w p) ≠ Some id ∧
  ps_local (run_admitted_transition ios clock id w p) ≠ Some id ∧
  ∃ t' r, holds (ps_store (run_admitted_transition ios clock id w p)) t' ∧
    dict_get id t' = Some r ∧ terminal (op_state r) = true ∧
    (op_state r = SUCCEEDED → wk_end w = WorkerReturns (op_runtime r)) ∧ agree_but id t t'.
Proof.
  intros H Hw. pose proof (run_body_spec p t id w H Hw) as Hbody.
  unfold run_admitted_transition. destruct (run_body ios clock id w p) as [p1 ended].
  cbn [with_ids ps_active ps_local ps_store]. unfold forget.
  split_and!; [by case_bool_decide..|].
  assert (∀ state detail failure t1, underway id p1 t1 → agree_but id t t1 →
    failure_ok failure = true → state = FAILED ∨ state = CANCELLED →
    ∃ t' r, holds (ps_store (advance_operation ios clock id state detail (Some failure) None p1).1) t' ∧
      dict_get id t' = Some r ∧ terminal (op_state r) = true ∧
      (op_state r = SUCCEEDED → wk_end w = WorkerReturns (op_runtime r)) ∧ agree_but id t t') as Hfail.
  { intros state detail failure t1 H1 Hag1 Hf Hst.
    destruct (end_underway id p1 t1 state detail (Some failure) None)
      as (p2 & t2 & r & -> & H2 & _ & _ & Hr & Hst2 & Hterm & _ & Hag2); [done|by simpl; rewrite Hf| |].
    { unfold ends_with_evidence. cbn [ad_state ad_failure ad_runtime ad_detail].
      rewrite normalized_ok. by destruct Hst as [-> | ->]. }
    exists t2, r. rewrite Hst2. split_and!; try done.
    - destruct Hst as [-> | ->]; done.
    - intros id' Hne. by rewrite Hag2, Hag1. }
  destruct ended as [runtime|exc|]; cbn [run_handlers].
  - destruct Hbody as (Hend & t' & r & H' & Hr & Hst & Hrt & Hag). exists t', r.
    rewrite Hst. split_and!; try done. intros _. by rewrite Hend, Hrt.
  - destruct Hbody as (Hn & t1 & H1 & Hag1). apply (Hfail FAILED _ _ t1); try done; [|by left].
    by apply failure_from_exception_ok.
  - destruct Hbody as (t1 & H1 & Hag1).
    destruct (Hfail CANCELLED "Session transition task was cancelled"
      (plain_failure "transition.worker.cancelled" "Session transition was cancelled") t1 H1 Hag1)
      as (t' & r & H' & Hrest); [done|by right|].
    exists t', r. split; [|done]. by repeat case_match.
Qed.

(** A recovery can end a transition that was just admitted.  The reservation is in
    the store before the process names it its own, and a recovery does not take the
    admission lock: one that runs in between, while the live resource is still the
    previous session's, ends the record.  The admission then succeeds, and the first
    report of its task is refused. *)
Theorem recovery_ends_admitted release build load p t id reservation live :
  (∀ cr run_id, raises_only named (load cr run_id)) →
  holds (ps_store p) t → served_well p → first_active (map snd t) = None → ps_local p = None →
  operation_id_ok id = true → dict_get id t = None → reservation_ok reservation = true →
  (∀ cr r, live = Some cr → new_record id reservation (clock (ps_calls p)) = Ok r →
     selected_by r cr = false) →
  (admit_reserve ios clock id reservation p).2 = Ok tt ∧
  let recovered := reconcile_interrupted_transition ios clock release build load live
    (admit_reserve ios clock id reservation p).1 in
  (admit_publish id (Ok tt) recovered).2 = Ok true ∧
  ps_local (admit_publish id (Ok tt) recovered).1 = Some id ∧
  (report ios clock id COLLECTING "Collecting and rechecking the trusted session source"
     (admit_publish id (Ok tt) recovered).1).2 =
    Raise (StateError "terminal transition operations are immutable").
Proof.
  intros Hload H Hw Hfree Hlocal Hid Hnew Hres Hother.
  destruct (admitted_when_free p t id reservation H Hw Hfree Hid Hnew Hres)
    as (p1 & r & -> & Hr & H1 & Hw1 & (_ & Hl1 & _)). cbn [fst snd].
  destruct (new_record_sound id reservation _ r Hres Hr) as (Hs & Hrid & Hn).
  split; [done|]. cbv zeta.
  assert (decisive r live) as Hdec.
  { destruct live as [cr|].
    - specialize (Hother cr r eq_refl Hr). split.
      + unfold reconcile_transition_operation. unfold nonterminal in Hn. apply negb_true_iff in Hn.
        rewrite Hn, Hother. by eexists.
      + intros cr' [= <-]. by rewrite Hother.
    - split; [|done]. unfold reconcile_transition_operation. unfold nonterminal in Hn.
      apply negb_true_iff in Hn. rewrite Hn. by eexists. }
  assert (dict_get id (dict_set id r t) = Some r) as Hget by by rewrite dict_get_set_eq.
  assert (first_active (map snd (dict_set id r t)) = Some r) as Hact.
  { destruct (find_first_is_Some nonterminal (map snd (dict_set id r t)) r) as [r' Hr'].
    - apply dict_get_in in Hget. apply list_elem_of_fmap. by exists (id, r).
    - done.
    - unfold first_active. rewrite Hr'. destruct (active_record _ _ r' H1 Hr') as [Hg' Hn'].
      pose proof (tk_one _ (h_table _ _ H1) _ _ _ _ Hget Hg' Hn Hn') as E. rewrite <-E in Hg'. congruence. }
  destruct (served_active p1 _ H1 Hw1) as (p2 & Hinv & H2 & Hw2 & (_ & Hl2 & _)).
  assert (dict_get (op_operation_id r) (dict_set id r t) = Some r) as Hget' by by rewrite Hrid.
  destruct (settle_ends release build load Hload p2 _ r live H2 Hw2 Hget' Hn Hdec)
    as (p3 & t3 & r3 & Hsettle & H3 & Hw3 & _ & _ & Hr3 & Hn3 & _).
  assert (reconcile_interrupted_transition ios clock release build load live p1 = p3) as ->.
  { unfold reconcile_interrupted_transition, pbind. rewrite Hinv, Hact. simpl.
    rewrite bool_decide_false by by rewrite Hl2, Hl1, Hlocal. by rewrite Hsettle. }
  split_and!; [done|by simpl; case_match|].
  set (p4 := (admit_publish id (Ok tt) p3).1).
  assert (ps_store p4 = ps_store p3 ∧ ps_calls p4 = ps_calls p3) as [Est Ecalls]
    by (unfold p4; simpl; by case_match).
  assert (served_well p4) as Hw4.
  { intros k'. unfold served_well in Hw3. rewrite Est, Ecalls. apply Hw3. }
  unfold report, advance_operation, pbind.
  destruct (invoke_served p4 t3 (AdvanceTo id {| ad_state := COLLECTING;
    ad_detail := normalized "Collecting and rechecking the trusted session source";
    ad_failure := None; ad_runtime := None |})) as (p5 & -> & _); [by rewrite Est|done..|].
  unfold memory_serve, memory_decide, memory_change.
  assert (memory_get t3 id = Ok r3) as ->.
  { apply memory_get_Ok. split; [done|]. by rewrite <-Hrid. }
  cbn [rbind]. unfold advanced_record. unfold nonterminal in Hn3. apply negb_false_iff in Hn3.
  rewrite Hn3. rewrite bool_decide_false; [done|]. intros E. by rewrite E in Hn3.
Qed.
End Process.
