(* ===== verification/SessionSwitch.v ===== *)
(** * Switching the session ([services/vs_api/session_manager.py])

    A prepared deployment becomes the running session: its files are uploaded and
    verified, the transition is announced, the old ConstellationSpec and its pods are
    removed, the new one is created and awaited.  An upload nothing selects is
    removed again when the switch fails.

    The cluster is an argument: what the Kubernetes API, the upload store and the
    callbacks of the caller answer, as functions of a state.  [AtomicCluster] is
    what the removal of uploads relies on.  A task can be cancelled wherever it waits
    ([cancels]): before the job it waits for runs, after it, or while it runs.  A job
    that runs is not stopped by the cancellation of its task: it ends in its thread,
    beside the clean-up of the cancelled task ([Landing]).

    The deployment itself and the resource made from it are those of
    [session_deployment.py] and [main.py]. *)

From S2P Require Import Prelude.
From S2P Require Import PyData.
From S2P Require Import PyTime.
From S2P Require Import Sha256.
From S2P Require Import CatalogRefs.
From S2P Require Import TransitionOperation.
From S2P Require Import TransitionStore.
From S2P Require Import TransitionTheorems.
From S2P Require Import SessionReconcile.
From stdpp Require Import base list strings gmap pretty.
Local Open Scope Z_scope.

(** ** The deployment *)

(** A prepared session: the root document and the files it refers to. *)
Record PreparedSessionFiles := {
  sf_logical_id : string;
  sf_source_revision : string;
  sf_root_yaml : string;
  sf_catalog_sizes : list Z;
  sf_closure_digest : string;
  sf_resolved_semantic_digest : string;
}.

(** What preparation computes of them. *)
Definition sf_document_digest (f : PreparedSessionFiles) : string := sha256_digest (sf_root_yaml f).
Definition sf_file_count (f : PreparedSessionFiles) : Z :=
  1 + Z.of_nat (length (sf_catalog_sizes f)).
Definition sf_total_bytes (f : PreparedSessionFiles) : Z :=
  text_len (sf_root_yaml f) + foldr Z.add 0 (sf_catalog_sizes f).

Record Deployment := {
  dy_repository_generation : option string;
  dy_prepared : PreparedSessionFiles;
  dy_upload : CatalogUploadSelection;
  dy_record_history : bool;
  dy_receipt : bool;
}.

(** The checks of [PreparedCatalogSessionDeployment] on its selection. *)
Definition deployment_ok (d : Deployment) : bool :=
  bool_decide (us_closure_digest (dy_upload d) = sf_closure_digest (dy_prepared d)) &&
  (us_file_count (dy_upload d) =? Z.of_nat (length (sf_catalog_sizes (dy_prepared d)))).

Definition CR_NAME : string := "current-session".

(** [_prepared_transition_reservation] of [main.py]. *)
Definition prepared_transition_reservation (release build namespace : string) (d : Deployment) :
    TransitionOperationReservation :=
  {| rs_source := {| so_logical_id := sf_logical_id (dy_prepared d) |};
     rs_facts :=
       {| fa_document_digest := Some (sf_document_digest (dy_prepared d));
          fa_closure_digest := Some (sf_closure_digest (dy_prepared d));
          fa_resolved_semantic_digest := Some (sf_resolved_semantic_digest (dy_prepared d));
          fa_file_count := Some (sf_file_count (dy_prepared d));
          fa_total_bytes := Some (sf_total_bytes (dy_prepared d));
          fa_release := release; fa_build := build |};
     rs_provenance :=
       {| pv_source_revision := Some (sf_source_revision (dy_prepared d));
          pv_repository_generation := dy_repository_generation d;
          pv_upload_id := Some (us_upload_id (dy_upload d)); pv_upload_resource_names := [];
          pv_runtime_plan := Some {| rp_namespace := namespace; rp_name := CR_NAME |};
          pv_constellation_spec := None |} |}.

Record CrBody := {
  bd_namespace : string;
  bd_name : string;
  bd_annotations : gmap string string;
  bd_spec : ConstellationSpecSpec;
}.

(** [constellation_spec_body] of [session_deployment.py]. *)
Definition constellation_spec_body (d : Deployment) (namespace : string) : result CrBody :=
  raise_if negb (dy_receipt d)
    with ValueError "catalog upload must be persisted before building the session CR";;
  let annotations : gmap string string :=
    list_to_map
      [(SOURCE_KIND_ANNOTATION, "catalog_session");
       (SOURCE_ID_ANNOTATION, sf_logical_id (dy_prepared d));
       (SOURCE_REVISION_ANNOTATION, sf_source_revision (dy_prepared d));
       (DOCUMENT_DIGEST_ANNOTATION, sf_document_digest (dy_prepared d));
       (CLOSURE_DIGEST_ANNOTATION, sf_closure_digest (dy_prepared d))] in
  Ok {| bd_namespace := namespace; bd_name := CR_NAME;
        bd_annotations := match dy_repository_generation d with
                          | Some g => <[CATALOG_GENERATION_ANNOTATION := g]> annotations
                          | None => annotations
                          end;
        bd_spec := {| cs_session_yaml := sf_root_yaml (dy_prepared d);
                      cs_catalog_upload := dy_upload d;
                      cs_record_history := dy_record_history d |} |}.

(** The resource the API server keeps of a body, at a generation and with the status
    the Operator wrote. *)
Definition created (body : CrBody) (generation : Z) (status : option ConstellationSpecStatus) :
    ConstellationSpec :=
  {| cr_namespace := Some (bd_namespace body); cr_name := Some (bd_name body);
     cr_generation := Some generation; cr_annotations := bd_annotations body;
     cr_spec := Some (bd_spec body); cr_status := status |}.

(** ** The cluster *)

(** The spec of a live resource: as the strict model reads it, or what it refuses. *)
Inductive LiveSpec :=
| Complete (spec : ConstellationSpecSpec)
| Incomplete (upload : option CatalogUploadSelection)
| NotAMapping.

Record LiveCr := {
  lc_uid : option string;
  lc_spec : LiveSpec;
  lc_generation : option Z;
  lc_status : option ConstellationSpecStatus;
}.

(** The snapshots of a watch, and the exception that ended it. *)
Record Watch (A : Type) := { wa_snapshots : list A; wa_end : exn }.
Arguments wa_snapshots {A} w.
Arguments wa_end {A} w.

Definition TimeoutError (what : string) : exn := Raised "TimeoutError" what.
Definition not_found : exn := Raised "ApiException" "404".

Record Cluster (W : Type) := {
  k_persist : W → W * result unit;
  k_preflight : W → W * result unit;
  k_started : W → W * result unit;
  k_progress : string → W → W * result unit;
  k_observed : LiveCr → W → W * result unit;
  k_delete : W → W * result unit;
  k_create : CrBody → W → W * result unit;
  k_get : W → W * result LiveCr;
  k_watch_cr : W → W * Watch (option LiveCr);
  k_watch_pods : W → W * Watch Z;
  k_cleanup : W → W * result unit;
}.
Arguments k_persist {W} c. Arguments k_preflight {W} c. Arguments k_started {W} c.
Arguments k_progress {W} c. Arguments k_observed {W} c. Arguments k_delete {W} c.
Arguments k_create {W} c. Arguments k_get {W} c. Arguments k_watch_cr {W} c.
Arguments k_watch_pods {W} c. Arguments k_cleanup {W} c.

(** ** The program *)

(** What the switch did. *)
Inductive Milestone :=
| Persisted | Verified | Announced | DeleteAsked | OldGone | PodsGone | CreateAsked | CleanedUp.

#[global] Instance milestone_eq_dec : EqDecision Milestone.
Proof. solve_decision. Defined.

(** When the job in flight at a cancellation takes effect: once the clean-up has looked
    whether the upload is selected and before it removes it, or after the removal.
    (Before the look it is a job that ended: [AfterJob].)  The job lands as a whole. *)
Inductive Landing := BesideCleanup | AfterCleanup.

Inductive CancelPoint := NotCancelled | BeforeJob | DuringJob (landing : Landing) | AfterJob.

Section Switch.
Context {W : Type} (cluster : Cluster W) (cancels : nat → CancelPoint).
Context (deployment : Deployment) (namespace : string).

Record Switch := {
  sw_world : W;
  sw_awaits : nat;
  sw_receipt : bool;
  sw_selected : bool;
  sw_log : list Milestone;
  sw_status : string;
  sw_detail : string;
  sw_source : option string;
}.

(** A cancelled task leaves what the job in flight still does. *)
Inductive Outcome (A : Type) :=
| Fin (a : A)
| Exc (e : exn)
| Cancelled (landing : Landing) (rest : Switch → Switch).
Arguments Fin {A} a. Arguments Exc {A} e. Arguments Cancelled {A} landing rest.

Definition SwitchM (A : Type) : Type := Switch → Switch * Outcome A.
Definition ret {A} (a : A) : SwitchM A := λ s, (s, Fin a).
Definition fails {A} (e : exn) : SwitchM A := λ s, (s, Exc e).
Definition sbind {A B} (c : SwitchM A) (k : A → SwitchM B) : SwitchM B := λ s,
  match c s with
  | (s, Fin a) => k a s
  | (s, Exc e) => (s, Exc e)
  | (s, Cancelled landing rest) => (s, Cancelled landing rest)
  end.
Notation "'do_' x ':=' c 'in' k" := (sbind c (λ x, k))
  (at level 10, x binder, c at level 200, k at level 200) : py_scope.

Definition set_world (s : Switch) (w : W) : Switch :=
  {| sw_world := w; sw_awaits := sw_awaits s; sw_receipt := sw_receipt s;
     sw_selected := sw_selected s; sw_log := sw_log s; sw_status := sw_status s;
     sw_detail := sw_detail s; sw_source := sw_source s |}.
Definition set_flags (s : Switch) (receipt selected : bool) : Switch :=
  {| sw_world := sw_world s; sw_awaits := sw_awaits s; sw_receipt := receipt;
     sw_selected := selected; sw_log := sw_log s; sw_status := sw_status s;
     sw_detail := sw_detail s; sw_source := sw_source s |}.
Definition set_status (s : Switch) (status detail : string) : Switch :=
  {| sw_world := sw_world s; sw_awaits := sw_awaits s; sw_receipt := sw_receipt s;
     sw_selected := sw_selected s; sw_log := sw_log s; sw_status := status;
     sw_detail := detail; sw_source := sw_source s |}.
Definition note (m : Milestone) (s : Switch) : Switch :=
  {| sw_world := sw_world s; sw_awaits := sw_awaits s; sw_receipt := sw_receipt s;
     sw_selected := sw_selected s; sw_log := sw_log s ++ [m]; sw_status := sw_status s;
     sw_detail := sw_detail s; sw_source := sw_source s |}.
Definition tick (s : Switch) : Switch :=
  {| sw_world := sw_world s; sw_awaits := S (sw_awaits s); sw_receipt := sw_receipt s;
     sw_selected := sw_selected s; sw_log := sw_log s; sw_status := sw_status s;
     sw_detail := sw_detail s; sw_source := sw_source s |}.
Definition selected (s : Switch) : Switch := set_flags s (sw_receipt s) true.

(** A job of the executor, or a coroutine of the caller that waits for one. *)
Definition Job (A : Type) : Type := Switch → Switch * result A.
Definition await {A} (job : Job A) : SwitchM A := λ s,
  let point := cancels (sw_awaits s) in
  let s := tick s in
  match point with
  | BeforeJob => (s, Cancelled AfterCleanup (λ s, s))
  | DuringJob landing => (s, Cancelled landing (λ s, (job s).1))
  | AfterJob => ((job s).1, Cancelled AfterCleanup (λ s, s))
  | NotCancelled =>
      match job s with (s, Ok a) => (s, Fin a) | (s, Raise e) => (s, Exc e) end
  end.

(** A call of the cluster, with what it did when it returned. *)
Definition call {A} (f : W → W * A) (s : Switch) : Switch * A :=
  let '(w, r) := f (sw_world s) in (set_world s w, r).
Definition calling (f : W → W * result unit) (m : Milestone) : Job unit := λ s,
  match call f s with (s, Ok _) => (note m s, Ok tt) | (s, Raise e) => (s, Raise e) end.

Definition progress (detail : string) : SwitchM unit := λ s,
  await (call (k_progress cluster detail)) (set_status s (sw_status s) detail).

(** [_delete_existing_cr]: whether there was one. *)
Definition delete_existing : Job bool := λ s,
  match calling (k_preflight cluster) Verified s with
  | (s, Raise e) => (s, Raise e)
  | (s, Ok _) =>
      match call (k_delete cluster) (note DeleteAsked s) with
      | (s, Ok _) => (s, Ok true)
      | (s, Raise e) => if bool_decide (e = not_found) then (s, Ok false) else (s, Raise e)
      end
  end.

(** The first snapshot that satisfies a test. *)
Definition watch_until {A} (w : Watch A) (ok : A → bool) (timed_out : list A → string) :
    result unit :=
  match find_first ok (wa_snapshots w) with
  | Some _ => Ok tt
  | None =>
      match wa_end w with
      | Raised "TimeoutError" _ => Raise (TimeoutError (timed_out (wa_snapshots w)))
      | e => Raise e
      end
  end.

Definition watching {A} (f : W → W * Watch A) (ok : A → bool)
    (timed_out : list A → string) (m : Milestone) : Job unit := λ s,
  let '(s, w) := call f s in
  match watch_until w ok timed_out with
  | Ok _ => (note m s, Ok tt)
  | Raise e => (s, Raise e)
  end.

(** The old session is removed. *)
Definition clear_old : SwitchM unit :=
  do_ deleted := await delete_existing in
  if deleted then
    do_ _ := progress "Waiting for old session to finalize" in
    do_ _ := await (watching (k_watch_cr cluster) (λ o, match o with None => true | Some _ => false end)
      (λ _, "Old ConstellationSpec did not finalize within 120 seconds; refusing to deploy a new session over stale control-plane state")
      OldGone) in
    do_ _ := progress "Waiting for old session pods to terminate" in
    await (watching (k_watch_pods cluster) (λ n, n =? 0)
      (λ seen, pretty (default 0 (last seen)) +:+
        " old session pod(s) still exist after 120 seconds; refusing to deploy a new session over stale data-plane state")
      PodsGone)
  else ret tt.

Definition selected_spec_matches (observed : LiveCr) (intended : CrBody) : bool :=
  match lc_spec observed with
  | Complete spec => bool_decide (spec = bd_spec intended)
  | _ => false
  end.

Definition selected_upload (s : LiveSpec) : option CatalogUploadSelection :=
  match s with
  | Complete spec => Some (cs_catalog_upload spec)
  | Incomplete upload => upload
  | NotAMapping => None
  end.

(** [_selected_catalog_upload_matches]. *)
Definition selected_catalog_upload_matches (observed : LiveCr) (intended : CrBody) : result bool :=
  let! upload := or_raise (selected_upload (lc_spec observed))
    (match lc_spec observed with
     | NotAMapping => TypeError "observed ConstellationSpec spec is not a mapping"
     | _ => ValueError "catalog upload selection refused"
     end) in
  Ok (bool_decide (upload = cs_catalog_upload (bd_spec intended))).

(** [_create_cr]. *)
Definition create_cr (body : CrBody) : Job unit := λ s,
  match call (k_create cluster body) (note CreateAsked s) with
  | (s, Ok _) => (selected s, Ok tt)
  | (s, Raise create_exc) =>
      match call (k_get cluster) s with
      | (s, Raise observe_exc) =>
          (if bool_decide (observe_exc = not_found) then s else selected s, Raise create_exc)
      | (s, Ok observed) =>
          match selected_catalog_upload_matches observed body with
          | Raise _ => (selected s, Raise create_exc)
          | Ok selects =>
              let s := if selects then selected s else s in
              (s, if selected_spec_matches observed body then Ok tt else Raise create_exc)
          end
      end
  end.

(** One snapshot of the deploying resource: [None] to go on watching. *)
Definition observes_current (cr : LiveCr) (status : ConstellationSpecStatus) : bool :=
  match lc_generation cr with Some g => observes_generation status g | None => false end.

Definition deploy_snapshot (applied_uid : string) (last_message : string) (o : option LiveCr) :
    SwitchM (string * option LiveCr) :=
  match o with
  | None => fails (RuntimeError "Deploy failed: ConstellationSpec current-session was deleted while the session deployed")
  | Some cr =>
      if negb (bool_decide (lc_uid cr = Some applied_uid)) then
        fails (RuntimeError "Deploy failed: ConstellationSpec current-session was replaced by another object while the session deployed")
      else
      match lc_status cr with
      | None => fails (ValueError "ConstellationSpec status refused")
      | Some status =>
          let message := default "" (cs_message status) in
          if negb (observes_current cr status) then
            if bool_decide (last_message = "observing") then ret (last_message, None)
            else do_ _ := progress "Waiting for operator to observe new session spec" in
                 ret ("observing", None)
          else
          do_ last_message :=
            if negb (bool_decide (message = "")) && negb (bool_decide (message = last_message))
            then do_ _ := progress message in ret message
            else ret last_message in
          if bool_decide (cs_phase status = Some Ready) then
            do_ _ := await (call (k_observed cluster cr)) in
            ret (last_message, Some cr)
          else if bool_decide (cs_phase status = Some PhaseError) then
            do_ _ := await (call (k_observed cluster cr)) in
            fails (RuntimeError ("Deploy failed: " +:+ message))
          else ret (last_message, None)
      end
  end.

Fixpoint deploy_watch (applied_uid last_message : string) (snapshots : list (option LiveCr))
    (ended : exn) : SwitchM LiveCr :=
  match snapshots with
  | [] => fails ended
  | o :: snapshots =>
      do_ '(last_message, ready) := deploy_snapshot applied_uid last_message o in
      match ready with
      | Some cr => λ s, ({| sw_world := sw_world s; sw_awaits := sw_awaits s;
                            sw_receipt := sw_receipt s; sw_selected := sw_selected s;
                            sw_log := sw_log s; sw_status := sw_status s;
                            sw_detail := sw_detail s;
                            sw_source := Some (sf_logical_id (dy_prepared deployment)) |}, Fin cr)
      | None => deploy_watch applied_uid last_message snapshots ended
      end
  end.

(** A timeout while the session deploys, of the watch or of a callback. *)
Definition deploy_timeout {A} (c : SwitchM A) : SwitchM A := λ s,
  match c s with
  | (s, Exc (Raised "TimeoutError" _)) =>
      (s, Exc (TimeoutError "Deploy timed out waiting for session Ready (5 minutes)"))
  | other => other
  end.

(** [_switch_constellation_spec]. *)
Definition switch_constellation_spec (body : CrBody) : SwitchM LiveCr :=
  do_ _ := progress "Tearing down current session" in
  do_ _ := clear_old in
  do_ _ := progress "Deploying new constellation" in
  do_ _ := await (create_cr body) in
  do_ selected_cr := await (call (k_get cluster)) in
  do_ _ := await (call (k_observed cluster selected_cr)) in
  match nonempty_string (lc_uid selected_cr) with
  | None => fails (RuntimeError "Deploy failed: ConstellationSpec current-session carries no uid")
  | Some uid =>
      do_ _ := progress "Waiting for session to deploy" in
      deploy_timeout
        (do_ w := await (λ s, let '(s, w) := call (k_watch_cr cluster) s in (s, Ok w)) in
         deploy_watch uid "" (wa_snapshots w) (wa_end w))
  end.

(** The deployment once its upload is stored. *)
Definition persisted : Deployment :=
  {| dy_repository_generation := dy_repository_generation deployment;
     dy_prepared := dy_prepared deployment; dy_upload := dy_upload deployment;
     dy_record_history := dy_record_history deployment; dy_receipt := true |}.

(** The body of [_switch_prepared_session]. *)
Definition switch_body : SwitchM LiveCr :=
  do_ _ := progress "Uploading exact session catalog" in
  do_ _ := await (calling (k_persist cluster) Persisted) in
  do_ _ := (λ s, (set_flags s true (sw_selected s), Fin tt)) in
  do_ _ := progress "Verifying exact session catalog" in
  do_ _ := await (calling (k_preflight cluster) Verified) in
  do_ _ := await (calling (k_started cluster) Announced) in
  do_ _ := progress "Switching runtime session" in
  match constellation_spec_body persisted namespace with
  | Raise e => fails e
  | Ok body => switch_constellation_spec body
  end.

Definition exception_text (e : exn) : string :=
  match e with
  | ValueError what | KeyError what | TypeError what | RuntimeError what | OverflowError what
  | Raised _ what => what
  end.

(** [_cleanup_unselected], with what happens while it waits for its job: its failure is
    logged. *)
Definition cleanup_unselected (meanwhile : Switch → Switch) (s : Switch) : Switch :=
  if negb (sw_receipt s) || sw_selected s then meanwhile s
  else (call (k_cleanup cluster) (note CleanedUp (meanwhile s))).1.

(** The clean-up of a cancelled task and the job it left in flight. *)
Definition cleanup_cancelled (landing : Landing) (rest : Switch → Switch) (s : Switch) : Switch :=
  match landing with
  | BesideCleanup => cleanup_unselected rest s
  | AfterCleanup => rest (cleanup_unselected (λ s, s) s)
  end.

(** The start of a switch: nothing stored, a fresh event. *)
Definition initial (w : W) (status detail : string) (source : option string) : Switch :=
  {| sw_world := w; sw_awaits := 0; sw_receipt := false; sw_selected := false;
     sw_log := []; sw_status := status; sw_detail := detail; sw_source := source |}.

(** [_switch_prepared_session] from a fresh event. *)
Definition switch_prepared_session (w : W) (status detail : string) (source : option string) :
    Switch * Outcome LiveCr :=
  let s := initial w status detail source in
  if dy_receipt deployment then
    (s, Exc (ValueError "catalog switch requires an unpersisted prepared deployment"))
  else
  match switch_body (set_status s "switching" detail) with
  | (s, Fin cr) => (s, Fin cr)
  | (s, Cancelled landing rest) => (cleanup_cancelled landing rest s, Cancelled landing rest)
  | (s, Exc e) =>
      let s := cleanup_unselected (λ s, s) s in
      (set_status s "error" (exception_text e), Exc e)
  end.
End Switch.
