(* ===== verification/SwitchTheorems.v ===== *)
(** * Switching the session: what is promised

    A transition recognises the resource made from its own deployment; a switch
    destroys nothing before the new session is uploaded and verified; and the upload
    a live resource selects is not removed, unless the task is cancelled while the
    creation of that resource is in flight. *)

From S2P Require Import Prelude.
From S2P Require Import PyData.
From S2P Require Import PyTime.
From S2P Require Import Sha256.
From S2P Require Import CatalogRefs.
From S2P Require Import TransitionOperation.
From S2P Require Import TransitionStore.
From S2P Require Import TransitionTheorems.
From S2P Require Import SessionReconcile.
From S2P Require Import SessionSwitch.
From stdpp Require Import base list strings gmap.
From Stdlib Require Import Lia.
Local Open Scope Z_scope.

(** ** The resource of a transition *)

(** The record still says what was reserved. *)
Definition descends (reservation : TransitionOperationReservation)
    (op : StoredTransitionOperation) : Prop :=
  op_source op = rs_source reservation ∧ op_facts op = rs_facts reservation ∧
  pv_source_revision (op_provenance op) = pv_source_revision (rs_provenance reservation) ∧
  pv_repository_generation (op_provenance op) =
    pv_repository_generation (rs_provenance reservation) ∧
  pv_upload_id (op_provenance op) = pv_upload_id (rs_provenance reservation) ∧
  pv_runtime_plan (op_provenance op) = pv_runtime_plan (rs_provenance reservation).

Lemma new_descends id reservation now r :
  new_record id reservation now = Ok r → descends reservation r.
Proof.
  intros (? & _ & H)%rbind_Ok. by apply rbind_Ok in H as (e & _ & [-> _]%build_record_Ok).
Qed.

Lemma advance_descends reservation op a now r :
  descends reservation op → advanced_record op a now = Ok (Some r) → descends reservation r.
Proof.
  intros Hd. unfold advanced_record. destruct (terminal (op_state op)); [by case_bool_decide|].
  intros [_ H]%raise_if_Ok. apply rbind_Ok in H as (? & _ & H).
  apply rbind_Ok in H as (e & _ & H). by apply rbind_Ok in H as (r1 & [-> _]%build_record_Ok & [= <-]).
Qed.

Lemma patch_descends reservation op patch now r :
  descends reservation op → patched_provenance op patch now = Ok (Some r) → descends reservation r.
Proof.
  intros Hd [_ H]%raise_if_Ok. apply rbind_Ok in H as ([pv|] & Hp & H); [|done].
  apply rbind_Ok in H as (r1 & [-> _]%build_record_Ok & [= <-]).
  destruct patch as [name|o]; simpl in Hp; apply raise_if_Ok in Hp as [_ Hp];
    (case_bool_decide; [done|]); by apply rbind_Ok in Hp as (? & [-> _]%build_provenance_Ok & [= <-]).
Qed.

Ltac annotation :=
  repeat first [rewrite lookup_insert_eq | rewrite lookup_insert_ne by done | rewrite lookup_empty].

(** a transition recognises its own resource.  The ConstellationSpec made from a
    deployment, at any generation the transition has not contradicted and with any
    status, is the one selected by every record that descends from the reservation
    made of the same deployment: a recovery never takes it for another transition's. *)
Theorem own_resource_recognised release build namespace d body generation status op :
  constellation_spec_body d namespace = Ok body → deployment_ok d = true → 0 < generation →
  descends (prepared_transition_reservation release build namespace d) op →
  (∀ o, pv_constellation_spec (op_provenance op) = Some o → co_generation o = generation) →
  selected_by op (created body generation status) = true.
Proof.
  intros [_ [= <-]]%raise_if_Ok [Hcd%bool_decide_eq_true Hfc%Z.eqb_eq]%andb_true_iff Hg
    (Hs & Hf & Hrev & Hgen & Hup & Hplan) Hobs.
  unfold selected_by, expected_annotations, generation_matches, runtime_identity_matches, created.
  cbn [cr_annotations cr_spec cr_namespace cr_name cr_generation bd_annotations bd_spec bd_namespace
       bd_name cs_session_yaml cs_catalog_upload].
  rewrite Hs, Hf, Hrev, Hgen, Hup, Hplan. unfold prepared_transition_reservation.
  cbn [rs_source rs_facts rs_provenance so_logical_id fa_document_digest fa_closure_digest
       fa_file_count pv_source_revision pv_repository_generation pv_upload_id pv_runtime_plan
       rp_namespace rp_name forallb fst snd list_to_map foldr].
  unfold sf_document_digest, sf_file_count. rewrite Hcd, Hfc.
  assert (positive_int (Some generation) = Some generation) as ->.
  { simpl. by rewrite (proj2 (Z.ltb_lt 0 generation)). }
  assert (match pv_constellation_spec (op_provenance op) with
          | Some observed => bool_decide (Some generation = Some (co_generation observed))
          | None => true end = true) as ->.
  { destruct (pv_constellation_spec (op_provenance op)) as [o|]; [|done].
    by rewrite (Hobs o), bool_decide_true. }
  rewrite (Z.add_comm _ 1), Z.eqb_refl.
  destruct (dy_repository_generation d) as [g|]; annotation; by rewrite !bool_decide_true by done.
Qed.

(** ** The order of a switch *)

Section Switch.
Context {W : Type} (cluster : Cluster W) (cancels : nat → CancelPoint).
Context (deployment : Deployment) (namespace : string).
Abbreviation State := (@Switch W).

(** A program that reports one of the given sequences of milestones when it returns,
    and the beginning of one when it does not.  What is in flight when it is cancelled
    goes on along the same sequence. *)
Definition partway (paths : list (list Milestone)) (l : list Milestone) : Prop :=
  ∃ path, path ∈ paths ∧ l `prefix_of` path.
Definition lands_along (paths : list (list Milestone)) (l : list Milestone) (landing : Landing)
    (rest : State → State) : Prop :=
  ∀ s, ∃ late, sw_log (rest s) = sw_log s ++ late ∧ partway paths (l ++ late) ∧
    (late ≠ [] → ∃ n, cancels n = DuringJob landing).
Definition along {A} (paths : list (list Milestone)) (c : SwitchM A) : Prop :=
  ∀ s : State, ∃ l, sw_log (c s).1 = sw_log s ++ l ∧
    match (c s).2 with
    | Fin _ _ => l ∈ paths
    | Exc _ _ => partway paths l
    | Cancelled _ landing rest => lands_along paths l landing rest
    end.

Lemma lands_mono ps qs l1 l2 landing rest :
  (∀ late, partway ps (l1 ++ late) → partway qs (l2 ++ late)) →
  lands_along ps l1 landing rest → lands_along qs l2 landing rest.
Proof. intros Hpq Hl s. destruct (Hl s) as (late & ? & ? & ?). exists late. auto. Qed.

Lemma lands_nothing ps l landing : partway ps l → lands_along ps l landing (λ s, s).
Proof. intros Hl s. exists []. rewrite !app_nil_r. split_and!; by try done. Qed.

(** A job that reports a sequence, or its beginning when it raises. *)
Definition job_along {A} (path : list Milestone) (j : Job A) : Prop :=
  ∀ s : State, ∃ l, sw_log (j s).1 = sw_log s ++ l ∧
    match (j s).2 with Ok _ => l = path | Raise _ => l `prefix_of` path end.

Definition joined (ps qs : list (list Milestone)) : list (list Milestone) :=
  p ← ps; map (app p) qs.

Lemma elem_of_joined p q ps qs : p ∈ ps → q ∈ qs → p ++ q ∈ joined ps qs.
Proof.
  intros Hp Hq. unfold joined. apply list_elem_of_bind. exists p. split; [|done].
  apply list_elem_of_fmap. by exists q.
Qed.

Lemma along_ret {A} (a : A) : along [[]] (ret a).
Proof. intros s. exists []. rewrite app_nil_r. split; [done|by left]. Qed.

Lemma along_fails {A} e : along [[]] (fails e : SwitchM A).
Proof. intros s. exists []. rewrite app_nil_r. split; [done|]. exists []. split; [by left|done]. Qed.

Lemma along_bind {A B} ps qs (c : SwitchM A) (k : A → SwitchM B) :
  qs ≠ [] → along ps c → (∀ a, along qs (k a)) → along (joined ps qs) (sbind c k).
Proof.
  intros Hqs Hc Hk s. destruct (Hc s) as (l & Hl & Hend). unfold sbind.
  assert (∀ l, partway ps l → partway (joined ps qs) l) as Hpre.
  { intros l' (path & Hp & Hpref). destruct qs as [|q qs]; [done|]. exists (path ++ q).
    split; [apply elem_of_joined; [done|by left]|]. by apply prefix_app_r. }
  destruct (c s) as [s1 [a|e|landing rest]]; simpl in *.
  - destruct (Hk a s1) as (l2 & Hl2 & Hend2). exists (l ++ l2).
    rewrite Hl2, Hl, app_assoc. split; [done|].
    assert (∀ l', partway qs l' → partway (joined ps qs) (l ++ l')) as Hpost.
    { intros l' (path & Hp & Hpref). exists (l ++ path).
      split; [by apply elem_of_joined|by apply prefix_app]. }
    destruct (k a s1) as [s2 [b|e|landing rest]]; simpl in *; [by apply elem_of_joined|by auto|].
    eapply lands_mono; [|exact Hend2]. intros late. rewrite <-app_assoc. apply Hpost.
  - exists l. auto.
  - exists l. split; [done|]. eapply lands_mono; [|exact Hend]. auto.
Qed.

Lemma along_weaken {A} ps qs (c : SwitchM A) :
  along ps c → (∀ p, p ∈ ps → p ∈ qs) → along qs c.
Proof.
  intros Hc Hsub s. destruct (Hc s) as (l & Hl & Hend). exists l. split; [done|].
  assert (∀ l, partway ps l → partway qs l) as Hpre.
  { intros l' (path & Hp & Hpref). exists path. auto. }
  destruct (c s) as [s1 [a|e|landing rest]]; simpl in *; [by apply Hsub|by auto|].
  eapply lands_mono; [|exact Hend]. auto.
Qed.

Lemma along_await {A} path (j : Job A) : job_along path j → along [path] (await cancels j).
Proof.
  intros Hj s.
  assert (∀ s, ∃ l, sw_log (j s).1 = sw_log s ++ l ∧ partway [path] l) as Hpart.
  { intros s'. destruct (Hj s') as (l & Hl & Hend). exists l. split; [done|]. exists path.
    split; [by left|]. destruct (j s') as [s1 [a|e]]; simpl in *; [by subst|done]. }
  unfold await. destruct (cancels (sw_awaits s)) as [| |landing|] eqn:Ec.
  - destruct (Hj (tick s)) as (l & Hl & Hend). exists l.
    destruct (j (tick s)) as [s1 [a|e]]; simpl in *; (split; [done|]).
    + subst. by left.
    + exists path. split; [by left|done].
  - exists []. rewrite app_nil_r. split; [done|]. apply lands_nothing. exists path.
    split; [by left|apply prefix_nil].
  - exists []. rewrite app_nil_r. split; [done|]. intros s'. destruct (Hpart s') as (l & ? & ?).
    exists l. split_and!; eauto.
  - destruct (Hpart (tick s)) as (l & Hl & Hend). exists l. split; [done|]. by apply lands_nothing.
Qed.

Lemma call_log {A} (f : W → W * A) (s : State) : sw_log (call f s).1 = sw_log s.
Proof. unfold call. by destruct (f (sw_world s)). Qed.

Lemma job_call {A} (f : W → W * result A) : job_along [] (call f).
Proof.
  intros s. exists []. rewrite call_log, app_nil_r. split; [done|].
  destruct (call f s) as [s1 [a|e]]; [done|apply prefix_nil].
Qed.

Lemma job_calling f m : job_along [m] (@calling W f m).
Proof.
  intros s. unfold calling. pose proof (call_log f s) as Hlog.
  destruct (call f s) as [s1 [a|e]]; simpl in *.
  - exists [m]. by rewrite Hlog.
  - exists []. rewrite Hlog, app_nil_r. split; [done|apply prefix_nil].
Qed.

Lemma job_watching {A} (f : W → W * Watch A) ok what m : job_along [m] (@watching W A f ok what m).
Proof.
  intros s. unfold watching. pose proof (call_log f s) as Hlog.
  destruct (call f s) as [s1 w]; simpl in *. destruct (watch_until w ok what); simpl.
  - exists [m]. by rewrite Hlog.
  - exists []. rewrite Hlog, app_nil_r. split; [done|apply prefix_nil].
Qed.

Lemma along_progress detail : along [[]] (progress cluster cancels detail).
Proof.
  intros s. unfold progress.
  exact (along_await [] (call (k_progress cluster detail)) (job_call _)
    (set_status s (sw_status s) detail)).
Qed.

Lemma job_delete : job_along [Verified; DeleteAsked] (delete_existing cluster).
Proof.
  intros s. unfold delete_existing. destruct (job_calling (k_preflight cluster) Verified s) as (l & Hl & Hend).
  destruct (calling (k_preflight cluster) Verified s) as [s1 [[]|e]]; simpl in *.
  - subst l. exists [Verified; DeleteAsked].
    pose proof (call_log (k_delete cluster) (note DeleteAsked s1)) as Hlog.
    destruct (call (k_delete cluster) (note DeleteAsked s1)) as [s2 [[]|e]]; simpl in *.
    + by rewrite Hlog, Hl, <-app_assoc.
    + case_bool_decide; simpl; rewrite Hlog, Hl, <-app_assoc; done.
  - exists l. split; [done|]. etrans; [exact Hend|]. by exists [DeleteAsked].
Qed.

Definition old_paths : list (list Milestone) :=
  [[Verified; DeleteAsked]; [Verified; DeleteAsked; OldGone; PodsGone]].

Lemma along_clear_old : along old_paths (clear_old cluster cancels).
Proof.
  unfold clear_old. apply (along_weaken (joined [[Verified; DeleteAsked]] [[]; [OldGone; PodsGone]]));
    [|by intros p].
  apply along_bind; [done|apply along_await, job_delete|]. intros [].
  - apply (along_weaken (joined [[]] (joined [[OldGone]] (joined [[]] [[PodsGone]]))));
      [|intros p Hp; right; exact Hp].
    apply along_bind; [done|apply along_progress|intros _].
    apply along_bind; [done|apply along_await, job_watching|intros _].
    apply along_bind; [done|apply along_progress|intros _].
    apply along_await, job_watching.
  - apply (along_weaken [[]]); [apply along_ret|]. intros p ->%list_elem_of_singleton. by left.
Qed.

Lemma create_log body (s : State) :
  sw_log (create_cr cluster body s).1 = sw_log s ++ [CreateAsked].
Proof.
  unfold create_cr. pose proof (call_log (k_create cluster body) (note CreateAsked s)) as Hlog.
  destruct (call (k_create cluster body) (note CreateAsked s)) as [s1 [[]|e]]; simpl in *; [done|].
  pose proof (call_log (k_get cluster) s1) as Hlog2.
  destruct (call (k_get cluster) s1) as [s2 [observed|oe]]; simpl in *.
  - destruct (selected_catalog_upload_matches observed body) as [[]|]; simpl; by rewrite Hlog2, Hlog.
  - by case_bool_decide; simpl; rewrite Hlog2, Hlog.
Qed.

Lemma job_create body : job_along [CreateAsked] (create_cr cluster body).
Proof.
  intros s. exists [CreateAsked]. rewrite create_log. split; [done|].
  by destruct (create_cr cluster body s).2.
Qed.

Lemma along_snapshot uid message o : along [[]] (deploy_snapshot cluster cancels uid message o).
Proof.
  unfold deploy_snapshot. destruct o as [cr|]; [|apply along_fails].
  destruct (negb _); [apply along_fails|]. destruct (lc_status cr) as [status|]; [|apply along_fails].
  destruct (negb (observes_current cr status)).
  { case_bool_decide; [apply along_ret|]. apply (along_bind [[]] [[]]); [done|apply along_progress|].
    intros _. apply along_ret. }
  apply (along_bind [[]] [[]]); [done| |].
  { destruct (_ && _); [|apply along_ret]. apply (along_bind [[]] [[]]); [done|apply along_progress|].
    intros _. apply along_ret. }
  intros message'. case_bool_decide; [|case_bool_decide; [|apply along_ret]];
    (apply (along_bind [[]] [[]]); [done|apply along_await, job_call|]); intros _;
    [apply along_ret|apply along_fails].
Qed.

Lemma along_deploy uid message snapshots e :
  along [[]] (deploy_watch cluster cancels deployment uid message snapshots e).
Proof.
  revert message. induction snapshots as [|o snapshots IH]; intros message; simpl; [apply along_fails|].
  apply (along_bind [[]] [[]]); [done|apply along_snapshot|]. intros [message' [cr|]]; [|apply IH].
  intros s. exists []. rewrite app_nil_r. split; [done|by left].
Qed.

Lemma along_timeout {A} paths (c : SwitchM A) : along paths c → along paths (deploy_timeout c).
Proof.
  intros Hc s. destruct (Hc s) as (l & Hl & Hend). exists l. unfold deploy_timeout.
  destruct (c s) as [s1 [a|e|landing rest]]; simpl in *; [done| |done].
  destruct e; simpl; try done. by repeat case_match; simplify_eq.
Qed.

(** The whole way of a switch. *)
Definition switch_paths : list (list Milestone) :=
  map (λ old, [Persisted; Verified; Announced] ++ old ++ [CreateAsked]) old_paths.

Lemma along_spec body :
  along (map (λ old, old ++ [CreateAsked]) old_paths)
    (switch_constellation_spec cluster cancels deployment body).
Proof.
  unfold switch_constellation_spec.
  apply (along_weaken (joined [[]] (joined old_paths (joined [[]] (joined [[CreateAsked]] [[]])))));
    [|by intros p].
  apply along_bind; [done|apply along_progress|intros _].
  apply along_bind; [done|apply along_clear_old|intros _].
  apply along_bind; [done|apply along_progress|intros _].
  apply along_bind; [done|apply along_await, job_create|intros _].
  apply (along_bind [[]] [[]]); [done|apply along_await, job_call|intros cr].
  apply (along_bind [[]] [[]]); [done|apply along_await, job_call|intros _].
  destruct (nonempty_string (lc_uid cr)) as [uid|]; [|apply along_fails].
  apply (along_bind [[]] [[]]); [done|apply along_progress|intros _].
  apply along_timeout. apply (along_bind [[]] [[]]); [done| |intros w; apply along_deploy].
  apply along_await. intros s. pose proof (call_log (k_watch_cr cluster) s) as Hlog.
  destruct (call (k_watch_cr cluster) s) as [s1 w]. simpl in *. exists [].
  by rewrite Hlog, app_nil_r.
Qed.

Lemma along_body : along switch_paths (switch_body cluster cancels deployment namespace).
Proof.
  unfold switch_body.
  apply (along_weaken (joined [[]] (joined [[Persisted]] (joined [[]] (joined [[]] (joined [[Verified]]
    (joined [[Announced]] (joined [[]] (map (λ old, old ++ [CreateAsked]) old_paths))))))))); [|by intros p].
  apply along_bind; [done|apply along_progress|intros _].
  apply along_bind; [done|apply along_await, job_calling|intros _].
  apply along_bind; [done| |intros _].
  { intros s. exists []. rewrite app_nil_r. split; [done|by left]. }
  apply along_bind; [done|apply along_progress|intros _].
  apply along_bind; [done|apply along_await, job_calling|intros _].
  apply along_bind; [done|apply along_await, job_calling|intros _].
  apply along_bind; [done|apply along_progress|intros _].
  apply along_spec.
Qed.

(** What the clean-up adds to what happens meanwhile. *)
Lemma cleanup_effect meanwhile (s : State) :
  cleanup_unselected cluster meanwhile s = meanwhile s ∨
  sw_log (cleanup_unselected cluster meanwhile s) = sw_log (meanwhile s) ++ [CleanedUp] ∧
    sw_selected s = false ∧
    sw_world (cleanup_unselected cluster meanwhile s) = (k_cleanup cluster (sw_world (meanwhile s))).1.
Proof.
  unfold cleanup_unselected. destruct (negb (sw_receipt s) || sw_selected s) eqn:E; [by left|].
  apply orb_false_iff in E as [_ E]. right. unfold call. simpl.
  by destruct (k_cleanup cluster (sw_world (meanwhile s))).
Qed.


Abbreviation switched := (switch_prepared_session cluster cancels deployment namespace).

End Switch.

(** ** The upload *)

Definition selects (live : option LiveSpec) (upload : CatalogUploadSelection) : Prop :=
  ∃ spec, live = Some spec ∧ selected_upload spec = Some upload.

(** A call after which the live resource selects no upload it did not select. *)
Definition selects_nothing_new {W A} (live : W → option LiveSpec) (f : W → W * A) : Prop :=
  ∀ w upload, selects (live (f w).1) upload → selects (live w) upload.

(** The API server answers for one resource at a time: a creation happened or it did
    not, a read tells the live resource, and nothing else makes it select an
    upload. *)
Class AtomicCluster {W} (cluster : Cluster W) (live : W → option LiveSpec) := {
  ac_get_same w : live (k_get cluster w).1 = live w;
  ac_get_tells w : match (k_get cluster w).2 with
                   | Ok cr => live w = Some (lc_spec cr)
                   | Raise e => e = not_found → live w = None
                   end;
  ac_create body w : live (k_create cluster body w).1 = live w ∨
                     live (k_create cluster body w).1 = Some (Complete (bd_spec body));
  ac_persist : selects_nothing_new live (k_persist cluster);
  ac_preflight : selects_nothing_new live (k_preflight cluster);
  ac_started : selects_nothing_new live (k_started cluster);
  ac_progress detail : selects_nothing_new live (k_progress cluster detail);
  ac_observed cr : selects_nothing_new live (k_observed cluster cr);
  ac_delete : selects_nothing_new live (k_delete cluster);
  ac_watch_cr : selects_nothing_new live (k_watch_cr cluster);
  ac_watch_pods : selects_nothing_new live (k_watch_pods cluster);
  ac_cleanup : selects_nothing_new live (k_cleanup cluster);
}.

Section Upload.
Context {W : Type} (cluster : Cluster W) (live : W → option LiveSpec) `{!AtomicCluster cluster live}.
Context (cancels : nat → CancelPoint) (deployment : Deployment) (namespace : string).
Abbreviation State := (@Switch W).
Abbreviation upload := (dy_upload deployment).

(** A resource that selects the upload is known to. *)
Definition knows (s : State) : Prop := selects (live (sw_world s)) upload → sw_selected s = true.

(** A step after which the live resource selects the upload only if it did before. *)
Definition calm (s s' : State) : Prop :=
  (selects (live (sw_world s')) upload → selects (live (sw_world s)) upload) ∧
  sw_selected s' = sw_selected s.
Definition asks (s s' : State) : Prop :=
  ∃ l, sw_log s' = sw_log s ++ l ∧ CreateAsked ∈ l.

(** What is in flight at a cancellation selects nothing unless it is the creation. *)
Definition tame {A} (o : Outcome A) : Prop :=
  match o with
  | Cancelled _ _ rest => ∀ s : State, calm s (rest s) ∨ asks s (rest s)
  | _ => True
  end.
Definition keeps_knowing {A} (c : SwitchM A) : Prop :=
  ∀ s : State, knows s → knows (c s).1 ∧ tame (c s).2.
Definition job_calm {A} (j : Job A) : Prop := ∀ s : State, calm s (j s).1.

Lemma calm_knows s s' : calm s s' → knows s → knows s'.
Proof. intros [Hlive Hsel] Hs ?%Hlive. rewrite Hsel. auto. Qed.

Lemma calm_refl s : calm s s.
Proof. done. Qed.

Lemma calm_trans s1 s2 s3 : calm s1 s2 → calm s2 s3 → calm s1 s3.
Proof. intros [H1 E1] [H2 E2]. split; [auto|congruence]. Qed.

Lemma knows_bind {A B} (c : SwitchM A) (k : A → SwitchM B) :
  keeps_knowing c → (∀ a, keeps_knowing (k a)) → keeps_knowing (sbind c k).
Proof.
  intros Hc Hk s Hs. unfold sbind. destruct (Hc s Hs) as [Hc1 Hc2].
  destruct (c s) as [s1 [a|e|landing rest]]; [by apply Hk|done|done].
Qed.

Lemma knows_ret {A} (a : A) : keeps_knowing (ret a).
Proof. by intros s. Qed.
Lemma knows_fails {A} e : keeps_knowing (fails e : SwitchM A).
Proof. by intros s. Qed.

Lemma knows_job {A} (j : Job A) :
  (∀ s, knows s → knows (j s).1) → (∀ s, calm s (j s).1 ∨ asks s (j s).1) →
  keeps_knowing (await cancels j).
Proof.
  intros Hj Htame s Hs. unfold await. specialize (Hj (tick s) Hs).
  destruct (cancels (sw_awaits s)).
  - by destruct (j (tick s)) as [s1 [a|e]].
  - split; [done|]. left. apply calm_refl.
  - split; [done|exact Htame].
  - split; [done|]. left. apply calm_refl.
Qed.

Lemma knows_await {A} (j : Job A) : job_calm j → keeps_knowing (await cancels j).
Proof.
  intros Hj. apply knows_job; [|by left]. intros s Hs. by eapply calm_knows, Hs.
Qed.

Lemma calm_call {A} (f : W → W * A) (s : State) :
  selects_nothing_new live f → calm s (call f s).1.
Proof.
  intros Hf. unfold call, calm. specialize (Hf (sw_world s) upload).
  by destruct (f (sw_world s)) as [w r].
Qed.

Lemma job_calm_call {A} (f : W → W * result A) : selects_nothing_new live f → job_calm (call f).
Proof. intros Hf s. by apply calm_call. Qed.

Lemma get_nothing_new : selects_nothing_new live (k_get cluster).
Proof. intros w u. by rewrite ac_get_same. Qed.

Lemma job_calm_calling f m : selects_nothing_new live f → job_calm (@calling W f m).
Proof.
  intros Hf s. pose proof (calm_call f s Hf) as H. unfold calling.
  by destruct (call f s) as [s1 [a|e]].
Qed.

Lemma job_calm_watching {A} (f : W → W * Watch A) ok what m :
  selects_nothing_new live f → job_calm (@watching W A f ok what m).
Proof.
  intros Hf s. pose proof (calm_call f s Hf) as H. unfold watching.
  destruct (call f s) as [s1 w]. by destruct (watch_until w ok what).
Qed.

Lemma job_calm_snapshots : job_calm (λ s, let '(s, w) := call (k_watch_cr cluster) s in (s, Ok w)).
Proof.
  intros s. pose proof (calm_call (k_watch_cr cluster) s ac_watch_cr) as H.
  by destruct (call (k_watch_cr cluster) s).
Qed.

Lemma knows_progress detail : keeps_knowing (progress cluster cancels detail).
Proof.
  intros s Hs. apply (knows_await (call (k_progress cluster detail))); [|done].
  apply job_calm_call, ac_progress.
Qed.

Lemma job_calm_delete : job_calm (delete_existing cluster).
Proof.
  intros s. unfold delete_existing.
  pose proof (job_calm_calling (k_preflight cluster) Verified ac_preflight s) as H.
  destruct (calling (k_preflight cluster) Verified s) as [s1 [[]|e]]; [|done].
  pose proof (calm_trans _ _ _ H (calm_call (k_delete cluster) (note DeleteAsked s1) ac_delete)) as H'.
  destruct (call (k_delete cluster) (note DeleteAsked s1)) as [s2 [[]|e]]; [done|]. by case_bool_decide.
Qed.

Lemma knows_selected (s : State) : knows (selected s).
Proof. by intros _. Qed.

(** The creation: an ambiguous outcome is looked up, and what cannot be read counts as
    selected. *)
Lemma knows_create body :
  cs_catalog_upload (bd_spec body) = upload → keeps_knowing (await cancels (create_cr cluster body)).
Proof.
  intros Hbody. apply knows_job.
  2: { intros s. right. exists [CreateAsked]. split; [apply create_log|by left]. }
  intros s Hs. unfold create_cr.
  destruct (call (k_create cluster body) (note CreateAsked s)) as [s1 [[]|e]]; [apply knows_selected|].
  pose proof (ac_get_tells (sw_world s1)) as Htells. pose proof (ac_get_same (sw_world s1)) as Hsame.
  unfold call. destruct (k_get cluster (sw_world s1)) as [w2 [observed|oe]]; simpl in *.
  - unfold selected_catalog_upload_matches.
    destruct (selected_upload (lc_spec observed)) as [u|] eqn:Eu; simpl; [|apply knows_selected].
    case_bool_decide as Hu; [apply knows_selected|]. intros (spec & Hspec & Hsel). simpl in Hspec.
    rewrite Hsame, Htells in Hspec. injection Hspec as <-. congruence.
  - case_bool_decide as Ho; [|apply knows_selected]. intros (spec & Hspec & _). simpl in Hspec.
    rewrite Hsame, Htells in Hspec; done.
Qed.

Lemma knows_snapshot uid message o : keeps_knowing (deploy_snapshot cluster cancels uid message o).
Proof.
  unfold deploy_snapshot. destruct o as [cr|]; [|apply knows_fails].
  destruct (negb _); [apply knows_fails|]. destruct (lc_status cr) as [status|]; [|apply knows_fails].
  destruct (negb (observes_current cr status)).
  { case_bool_decide; [apply knows_ret|]. apply knows_bind; [apply knows_progress|].
    intros _. apply knows_ret. }
  apply knows_bind.
  { destruct (_ && _); [|apply knows_ret]. apply knows_bind; [apply knows_progress|].
    intros _. apply knows_ret. }
  intros message'. case_bool_decide; [|case_bool_decide; [|apply knows_ret]];
    (apply knows_bind; [apply knows_await, job_calm_call, ac_observed|]); intros _;
    [apply knows_ret|apply knows_fails].
Qed.

Lemma knows_deploy uid message snapshots e :
  keeps_knowing (deploy_watch cluster cancels deployment uid message snapshots e).
Proof.
  revert message. induction snapshots as [|o snapshots IH]; intros message; simpl; [apply knows_fails|].
  apply knows_bind; [apply knows_snapshot|]. intros [message' [cr|]]; [|apply IH]. by intros s.
Qed.

Lemma knows_timeout {A} (c : SwitchM A) : keeps_knowing c → keeps_knowing (deploy_timeout c).
Proof.
  intros Hc s Hs. specialize (Hc s Hs). unfold deploy_timeout.
  destruct (c s) as [s1 [a|e|landing rest]]; simpl in *; [done| |done].
  destruct e; simpl; try done. by repeat case_match; simplify_eq.
Qed.

Lemma knows_body : keeps_knowing (switch_body cluster cancels deployment namespace).
Proof.
  unfold switch_body, switch_constellation_spec, clear_old.
  repeat first
    [ apply knows_bind; [|intros ?]
    | apply knows_progress
    | apply knows_create; reflexivity
    | apply knows_await; first
        [ apply job_calm_calling; first [apply ac_persist | apply ac_preflight | apply ac_started]
        | apply job_calm_delete
        | apply job_calm_watching; first [apply ac_watch_cr | apply ac_watch_pods]
        | apply job_calm_call; first [apply get_nothing_new | apply ac_observed]
        | apply job_calm_snapshots ]
    | apply knows_timeout
    | apply knows_deploy
    | apply knows_ret
    | apply knows_fails
    | by intros s
    | case_match ].
Qed.

(** The body removes no upload, and asks for the creation once. *)
Lemma path_removes_nothing l : partway switch_paths l → CleanedUp ∉ l.
Proof.
  intros (path & Hpath & [rest ->]) Hin.
  assert (Forall (λ p, CleanedUp ∉ p) switch_paths) as Hall by (by repeat constructor; set_solver).
  rewrite Forall_forall in Hall. apply (Hall _ Hpath). apply elem_of_app. by left.
Qed.

Lemma path_asks_once l late : partway switch_paths (l ++ late) → CreateAsked ∈ late → CreateAsked ∉ l.
Proof.
  intros (path & Hpath & [rest Hrest]) Hlate Hl.
  assert (Forall (λ p, length (filter (λ m, m = CreateAsked) p) = 1%nat) switch_paths) as Hall
    by (by repeat constructor).
  rewrite Forall_forall in Hall. specialize (Hall _ Hpath).
  rewrite Hrest, !filter_app, !length_app in Hall.
  assert (∀ p, CreateAsked ∈ p → (0 < length (filter (λ m, m = CreateAsked) p))%nat) as Hpos.
  { intros p Hp. destruct (filter (λ m, m = CreateAsked) p) eqn:E; [|simpl; lia].
    by apply (filter_nil_not_elem_of (λ m, m = CreateAsked) p CreateAsked) in E. }
  pose proof (Hpos l Hl). pose proof (Hpos late Hlate). lia.
Qed.

(** A clean-up that removes the upload does so when nothing in flight selects it. *)
Lemma cleanup_spares meanwhile (s : State) :
  knows s → calm s (meanwhile s) → CleanedUp ∉ sw_log (meanwhile s) →
  let s := cleanup_unselected cluster meanwhile s in
  CleanedUp ∈ sw_log s → ¬ selects (live (sw_world s)) upload.
Proof.
  intros Hs [Hcalm _] Hlog. simpl.
  destruct (cleanup_effect cluster meanwhile s) as [->|(_ & Hsel & ->)]; [done|].
  intros _ Hlive. pose proof (Hs (Hcalm (ac_cleanup _ _ Hlive))). congruence.
Qed.

Lemma cancelled_spares l landing rest (s : State) :
  knows s → CleanedUp ∉ sw_log s → lands_along cancels switch_paths l landing rest →
  (∀ s, calm s (rest s) ∨ asks s (rest s)) →
  let s' := cleanup_cancelled cluster landing rest s in
  CleanedUp ∈ sw_log s' → selects (live (sw_world s')) upload →
  (∃ n, cancels n = DuringJob landing) ∧ (CreateAsked ∉ l) ∧ CreateAsked ∈ sw_log s'.
Proof.
  intros Hs Hlog Hlands Htame. simpl.
  assert (∀ s, CleanedUp ∈ sw_log (rest s) → CleanedUp ∈ sw_log s) as Hclean.
  { intros s1. destruct (Hlands s1) as (late & -> & Hp%path_removes_nothing & _). set_solver. }
  assert (∀ s, asks s (rest s) → (∃ n, cancels n = DuringJob landing) ∧ (CreateAsked ∉ l) ∧
    CreateAsked ∈ sw_log (rest s)) as Hasks.
  { intros s1 (l1 & E1 & Hin). destruct (Hlands s1) as (late & E2 & Hp & Hd).
    rewrite E1 in E2. apply app_inv_head in E2 as <-. rewrite E1. split_and!.
    - apply Hd. by intros ->%elem_of_nil_inv || (intros ->; by apply elem_of_nil in Hin).
    - by eapply path_asks_once.
    - set_solver. }
  destruct landing; simpl.
  - intros Hin Hlive. destruct (Htame s) as [Hcalm|Ha]; [|].
    + exfalso. apply (cleanup_spares rest s Hs Hcalm); [by intros ?%Hclean|done..].
    + destruct (Hasks _ Ha) as (? & ? & Hc). split_and!; [done..|].
      destruct (cleanup_effect cluster rest s) as [->|(-> & _)]; set_solver.
  - intros Hin%Hclean Hlive. pose proof (cleanup_spares (λ s, s) s Hs (calm_refl s) Hlog Hin) as Hno.
    destruct (Htame (cleanup_unselected cluster (λ s, s) s)) as [[Hcalm _]|Ha]; [|by apply Hasks].
    by destruct Hno; apply Hcalm.
Qed.

(** C29: an upload is removed only when nothing selects it.  On a cluster that handles
    one resource atomically, whatever it answers and wherever the task is cancelled:
    when the switch removed the upload and the live ConstellationSpec selects it all
    the same, the task was cancelled while the creation was in flight, which had not
    been asked for when it was cancelled and was carried out then.  So a switch that
    is not cancelled there, also one whose creation failed with an ambiguous answer,
    removes no upload that the live resource selects. *)
Theorem selected_upload_kept w status detail source :
  ¬ selects (live w) upload →
  let s := (switch_prepared_session cluster cancels deployment namespace w status detail source).1 in
  CleanedUp ∈ sw_log s → selects (live (sw_world s)) upload →
  ∃ cancelled landing rest,
    switch_body cluster cancels deployment namespace
      (initial w "switching" detail source) = (cancelled, Cancelled LiveCr landing rest) ∧
    (∃ n, cancels n = DuringJob landing) ∧
    (CreateAsked ∉ sw_log cancelled) ∧ CreateAsked ∈ sw_log s.
Proof.
  intros Hw. unfold switch_prepared_session. destruct (dy_receipt deployment).
  { simpl. by intros ?%not_elem_of_nil. }
  change (set_status (initial w status detail source) "switching" detail)
    with (initial w "switching" detail source). set (s0 := initial w "switching" detail source).
  destruct (knows_body s0) as [Hknows Htame]; [by intros ?%Hw|].
  destruct (along_body cluster cancels deployment namespace s0) as (l & Hl & Hend).
  assert (partway switch_paths l → CleanedUp ∉ l) as Hlog by apply path_removes_nothing.
  destruct (switch_body cluster cancels deployment namespace s0) as [s [cr|e|landing rest]]; simpl in *;
    rewrite <-Hl in *.
  - intros Hin. destruct Hlog; [by exists (sw_log s)|done].
  - intros Hin Hlive. exfalso. by apply (cleanup_spares (λ s, s) s); auto using calm_refl.
  - intros Hin Hlive. exists s, landing, rest. split; [done|].
    eapply cancelled_spares; try done. apply Hlog. destruct (Hend s) as (late & _ & (p & ? & ?) & _).
    exists p. split; [done|]. etrans; [|done]. by apply prefix_app_r.
Qed.
End Upload.
