(* ===== verification/TransitionScenario.v ===== *)
(** * Session transitions, evaluated

    A session of VS-API on a concrete record text: a transition is reserved, runs,
    crashes, and is settled from the live resource.  [SmallCluster]: a cluster with one
    resource and a store of uploads, on which the creation of the resource is refused,
    answers ambiguously or succeeds; the theorems about the switch are applied to it. *)

From S2P Require Import Prelude.
From S2P Require Import PyData.
From S2P Require Import PyTime.
From S2P Require Import Sha256.
From S2P Require Import CatalogRefs.
From S2P Require Import TransitionOperation.
From S2P Require Import TransitionStore.
From S2P Require Import TransitionTheorems.
From S2P Require Import SessionReconcile.
From S2P Require Import SessionTransitions.
From S2P Require Import SessionTheorems.
From S2P Require Import SessionSwitch.
From S2P Require Import SwitchTheorems.
From stdpp Require Import base list strings gmap.
Local Open Scope Z_scope.

(** The text of a record is the record. *)
Definition plain_validate (r : StoredTransitionOperation) : option StoredTransitionOperation :=
  if stored_ok r then Some r else None.

#[local] Instance plain_codec : RecordCodec.
Proof.
  refine {| text := StoredTransitionOperation; dump_json := λ r, r; validate_json := plain_validate |}.
  - intros r Hr. unfold plain_validate. by rewrite Hr.
  - intros b r. unfold plain_validate. destruct (stored_ok b) eqn:Hb; [|done]. by intros [= <-].
Defined.

(** ** The transition *)

Definition op_id : string := "0123456789abcdef0123456789abcdef".
Definition next_id : string := "fedcba9876543210fedcba9876543210".
Definition yaml : string := "name: polar".
Definition yaml_digest : string := Eval vm_compute in sha256_digest yaml.
Definition other_digest : string := Eval vm_compute in sha256_digest "closure".

Definition reservation : TransitionOperationReservation :=
  {| rs_source := {| so_logical_id := "nodalarc:sessions/polar.yaml" |};
     rs_facts := {| fa_document_digest := Some yaml_digest; fa_closure_digest := Some other_digest;
                    fa_resolved_semantic_digest := Some other_digest; fa_file_count := Some 3;
                    fa_total_bytes := Some 900; fa_release := "1.0"; fa_build := "dev" |};
     rs_provenance := {| pv_source_revision := Some other_digest; pv_repository_generation := None;
                         pv_upload_id := Some "upload-1"; pv_upload_resource_names := [];
                         pv_runtime_plan := Some {| rp_namespace := "nodalarc";
                                                    rp_name := "current-session" |};
                         pv_constellation_spec := None |} |}.

Definition now : datetime := 1700000000000000.
Definition io_ok : Io :=
  {| io_readable := λ _, true; io_random := "k3x"; io_unlinks := true; io_fault := NoFault |}.
Definition io_unsynced : Io :=
  {| io_readable := λ _, true; io_random := "q8z"; io_unlinks := true;
     io_fault := DirectorySyncFails |}.

Lemma io_ok_honest : honest io_ok.
Proof. done. Qed.

Definition reserve_q : Request := Reserve op_id reservation now.
Definition fail_q : Request := AdvanceTo op_id
  {| ad_state := FAILED; ad_detail := None;
     ad_failure := Some (plain_failure "transition.worker.failed" "Session transition failed");
     ad_runtime := None |} now.

Definition reserved : gmap string Entry := (file_serve io_ok ∅ reserve_q).1.
Definition reserved_table : Table := (memory_serve [] reserve_q).1.

Lemma reserved_holds :
  holds reserved reserved_table ∧ (∀ name, is_json name = false → reserved !! name = None).
Proof.
  destruct (honest_serve io_ok ∅ [] reserve_q io_ok_honest) as (_ & H & Hkept).
  - intros id. apply lookup_empty.
  - apply holds_empty.
  - vm_compute. reflexivity.
  - split; [exact H|]. intros name Hn. unfold reserved. rewrite Hkept by done. apply lookup_empty.
Qed.

(** A reservation whose directory sync failed was written: the next one conflicts. *)
Example unsynced_reservation_blocks :
  let '(d, a) := file_serve io_unsynced ∅ reserve_q in
  a = Raise not_persisted ∧
  (file_serve io_ok d (Reserve next_id reservation now)).2 = Raise (Conflict op_id).
Proof. vm_compute. split; reflexivity. Qed.

Definition unsynced : gmap string Entry := (file_serve io_unsynced ∅ reserve_q).1.
Definition failed_after : gmap string Entry := (file_serve io_ok unsynced fail_q).1.

Lemma one_transition_at_a_time_witness :
  (∀ name e, is_json name = true → unsynced !! name = Some e →
     ∃ r, e = File (dump_json r) ∧ name = file_name (op_operation_id r) ∧ sound r ∧
          (nonterminal r = false → failed_after !! name = Some e)) ∧
  (∀ n1 n2 c1 c2 r1 r2, is_json n1 = true → is_json n2 = true →
     unsynced !! n1 = Some (File c1) → validate_json c1 = Some r1 → nonterminal r1 = true →
     unsynced !! n2 = Some (File c2) → validate_json c2 = Some r2 → nonterminal r2 = true → n1 = n2).
Proof.
  apply (one_transition_at_a_time unsynced failed_after).
  - apply rtc_once. apply (step_call ∅ io_unsynced reserve_q unsynced
      (file_serve io_unsynced ∅ reserve_q).2).
    + by intros found.
    + vm_compute. reflexivity.
    + apply surjective_pairing.
  - apply rtc_once. apply (step_call unsynced io_ok fail_q failed_after
      (file_serve io_ok unsynced fail_q).2).
    + by intros found.
    + vm_compute. reflexivity.
    + apply surjective_pairing.
Defined.

Lemma stores_agree_witness :
  (serve_all (S := gmap string Entry) ∅
     [(io_ok, reserve_q); (io_ok, Active); (io_ok, Reserve next_id reservation now);
      (io_ok, fail_q); (io_ok, GetOperation next_id)]).2 =
  (serve_all (S := Table) []
     [(tt, reserve_q); (tt, Active); (tt, Reserve next_id reservation now); (tt, fail_q);
      (tt, GetOperation next_id)]).2.
Proof.
  apply (stores_agree [(io_ok, reserve_q); (io_ok, Active);
    (io_ok, Reserve next_id reservation now); (io_ok, fail_q); (io_ok, GetOperation next_id)]).
  repeat (apply Forall_cons; split; [split; [exact io_ok_honest|vm_compute; reflexivity]|]).
  apply Forall_nil. exact I.
Defined.

(** ** The live resource *)

Definition live_status : ConstellationSpecStatus :=
  {| cs_phase := Some Ready; cs_message := None; cs_session_name := Some "polar";
     cs_session_run_id := Some "run-7"; cs_pod_count := Some 4; cs_ready_pods := Some 4;
     cs_wired_pods := Some 4; cs_document_digest := Some yaml_digest;
     cs_closure_digest := Some other_digest; cs_resolved_semantic_digest := Some other_digest;
     cs_runtime_release := Some "1.0"; cs_runtime_build := Some "dev";
     cs_observed_generation := Some 2 |}.
Definition live : ConstellationSpec :=
  {| cr_namespace := Some "nodalarc"; cr_name := Some "current-session"; cr_generation := Some 2;
     cr_annotations :=
       list_to_map [(SOURCE_KIND_ANNOTATION, "catalog_session");
                    (SOURCE_ID_ANNOTATION, "nodalarc:sessions/polar.yaml");
                    (SOURCE_REVISION_ANNOTATION, other_digest);
                    (DOCUMENT_DIGEST_ANNOTATION, yaml_digest);
                    (CLOSURE_DIGEST_ANNOTATION, other_digest)];
     cr_spec := Some {| cs_session_yaml := yaml;
                        cs_catalog_upload := {| us_upload_id := "upload-1";
                                                us_closure_digest := other_digest;
                                                us_file_count := 2 |};
                        cs_record_history := false |};
     cr_status := Some live_status |}.

Definition load_live (_ : ConstellationSpec) (_ : string) : result LoadedConfig :=
  Ok {| ld_document_digest := yaml_digest; ld_closure_digest := other_digest;
        ld_resolved_semantic_digest := other_digest; ld_session_name := "polar" |}.

Lemma load_live_named cr run_id : raises_only named (load_live cr run_id).
Proof. by intros e. Qed.

Definition ios : nat → Io := λ _, io_ok.
Definition clock : nat → datetime := λ n, now + Z.of_nat n.
Definition restarted : Process :=
  {| ps_store := reserved; ps_calls := 1; ps_active := None; ps_local := None; ps_manager := None |}.

Lemma restarted_served : served_well ios restarted.
Proof.
  intros k. split; [exact io_ok_honest|]. intros id. apply reserved_holds, temp_is_not_json.
Qed.

Definition reserved_op : StoredTransitionOperation :=
  Eval vm_compute in match reserved_table with (_, r) :: _ => r | [] =>
    {| op_operation_id := ""; op_state := RESERVED; op_source := rs_source reservation;
       op_facts := rs_facts reservation; op_created_at := 0; op_updated_at := 0; op_events := [];
       op_failure := None; op_runtime := None; op_version := 0;
       op_provenance := rs_provenance reservation |} end.

Lemma live_decides : decisive reserved_op (Some live).
Proof.
  split.
  - destruct (reconcile_transition_operation reserved_op (Some live)) as [r|e] eqn:E.
    + exists r. split; [done|]. revert E. vm_compute. by intros [= <-].
    + exfalso. revert E. by vm_compute.
  - intros cr [= <-] _. vm_compute. reflexivity.
Qed.

(** The recovery finds the runtime Ready and proven. *)
Example recovery_succeeds :
  match dict_get op_id (match file_decide io_ok (ps_store
          (reconcile_interrupted_transition ios clock "1.0" "dev" load_live (Some live) restarted))
          (GetOperation op_id) with Ok (Return (Some r)) => [(op_id, r)] | _ => [] end) with
  | Some r => op_state r = SUCCEEDED ∧
              op_runtime r = Some {| rr_session_id := "run-7"; rr_generation := 2 |}
  | None => False
  end.
Proof. vm_compute. split; reflexivity. Qed.

Lemma interrupted_transition_settles_witness :
  let recovered :=
    reconcile_interrupted_transition ios clock "1.0" "dev" load_live (Some live) restarted in
  ps_active recovered = None ∧ ps_local recovered = ps_local restarted ∧
  (∃ t' r, holds (ps_store recovered) t' ∧ first_active (map snd t') = None ∧
     dict_get (op_operation_id reserved_op) t' = Some r ∧ terminal (op_state r) = true) ∧
  (admit_transition ios clock next_id reservation recovered).2 = Ok true.
Proof.
  apply (interrupted_transition_settles ios clock "1.0" "dev" load_live load_live_named restarted
    reserved_table reserved_op (Some live) next_id reservation).
  - exact (proj1 reserved_holds).
  - exact restarted_served.
  - vm_compute. reflexivity.
  - done.
  - exact live_decides.
  - vm_compute. reflexivity.
  - vm_compute. reflexivity.
  - vm_compute. reflexivity.
Defined.

Lemma recovered_success_is_proven_witness :
  ∃ t', holds (ps_store (reconcile_interrupted_transition ios clock "1.0" "dev" load_live
                           (Some live) restarted)) t' ∧
    ∀ id r, dict_get id t' = Some r → op_state r = SUCCEEDED →
      dict_get id reserved_table ≠ Some r →
      ∃ cr op, Some live = Some cr ∧ dict_get id reserved_table = Some op ∧
        nonterminal op = true ∧ proven load_live cr op r.
Proof.
  apply (recovered_success_is_proven ios clock "1.0" "dev" load_live load_live_named restarted
    reserved_table (Some live)).
  - by intros n found.
  - exact (proj1 reserved_holds).
Defined.

(** ** A run *)

Definition worker : Worker :=
  {| wk_reports := [SwitchProgress "Uploading exact session catalog";
                    UploadResourceObserved "upload-1-a"; TransitionStarted;
                    SwitchProgress "Deploying new constellation"; ConstellationSpecObserved live];
     wk_end := WorkerReturns (Some {| rr_session_id := "run-7"; rr_generation := 2 |}) |}.

Lemma transition_always_ends_witness :
  ps_active (run_admitted_transition ios clock op_id worker restarted) ≠ Some op_id ∧
  ps_local (run_admitted_transition ios clock op_id worker restarted) ≠ Some op_id ∧
  ∃ t' r, holds (ps_store (run_admitted_transition ios clock op_id worker restarted)) t' ∧
    dict_get op_id t' = Some r ∧ terminal (op_state r) = true ∧
    (op_state r = SUCCEEDED → wk_end worker = WorkerReturns (op_runtime r)) ∧
    agree_but op_id reserved_table t'.
Proof.
  apply (transition_always_ends ios clock restarted reserved_table op_id worker).
  - split; [exact (proj1 reserved_holds)|]. split; [exact restarted_served|].
    exists reserved_op. split; vm_compute; reflexivity.
  - vm_compute. reflexivity.
Defined.

(** The recovery that ends an admitted transition, with the previous session's
    resource still live. *)
Example admission_lost_to_recovery :
  let fresh := {| ps_store := ∅; ps_calls := 0; ps_active := None; ps_local := None;
                  ps_manager := None |} in
  (admit_reserve ios clock next_id reservation fresh).2 = Ok tt ∧
  let recovered := reconcile_interrupted_transition ios clock "1.0" "dev" load_live None
    (admit_reserve ios clock next_id reservation fresh).1 in
  (report ios clock next_id COLLECTING "Collecting and rechecking the trusted session source"
     (admit_publish next_id (Ok tt) recovered).1).2 =
    Raise (StateError "terminal transition operations are immutable").
Proof. vm_compute. split; reflexivity. Qed.

Module SmallCluster.

(** ** The deployment *)

Definition document : string := "name: polar".
Definition document_digest : string := Eval vm_compute in sha256_digest document.
Definition closure_digest : string := Eval vm_compute in sha256_digest "closure".

Definition deployment : Deployment :=
  {| dy_repository_generation := Some "gen-4";
     dy_prepared :=
       {| sf_logical_id := "nodalarc/sessions/polar"; sf_source_revision := "rev-1";
          sf_root_yaml := document; sf_catalog_sizes := [120; 64];
          sf_closure_digest := closure_digest;
          sf_resolved_semantic_digest := document_digest |};
     dy_upload := {| us_upload_id := "upload-9"; us_closure_digest := closure_digest;
                     us_file_count := 2 |};
     dy_record_history := false; dy_receipt := false |}.

Definition operation_id : string := "00000000000000000000000000000009".

Definition operation_record : result StoredTransitionOperation :=
  new_record operation_id (prepared_transition_reservation "1.0" "dev" "nodalarc" deployment)
    1700000000000000.

Definition placeholder : CrBody :=
  {| bd_namespace := "none"; bd_name := "none"; bd_annotations := ∅;
     bd_spec := {| cs_session_yaml := ""; cs_catalog_upload := dy_upload deployment;
                   cs_record_history := false |} |}.
Definition body : CrBody :=
  match constellation_spec_body (persisted deployment) "nodalarc" with
  | Ok b => b
  | Raise _ => placeholder
  end.

Lemma own_resource_recognised_witness :
  match operation_record with
  | Ok op => selected_by op (created body 3 None) = true
  | Raise _ => False
  end.
Proof.
  destruct operation_record as [op|e] eqn:E; [|by vm_compute in E].
  apply (own_resource_recognised "1.0" "dev" "nodalarc" (persisted deployment) body 3 None op).
  - reflexivity.
  - vm_compute. reflexivity.
  - reflexivity.
  - exact (new_descends _ _ _ _ E).
  - intros o Ho. exfalso. revert Ho.
    assert (op = match operation_record with Ok r => r | Raise _ => op end) as -> by (by rewrite E).
    vm_compute. discriminate.
Defined.

(** ** The cluster *)

Record World := { w_live : option LiveSpec; w_uploads : list CatalogUploadSelection }.

(** How the creation of the resource goes. *)
Inductive Creation := Refused | Accepted | Ambiguous.

Definition outage : exn := Raised "ApiException" "500".

Definition create (c : Creation) (b : CrBody) (w : World) : World * result unit :=
  let made := {| w_live := Some (Complete (bd_spec b)); w_uploads := w_uploads w |} in
  match c with
  | Refused => (w, Raise (Raised "ApiException" "403"))
  | Accepted => (made, Ok tt)
  | Ambiguous => (made, Raise outage)
  end.

Definition read (w : World) : World * result LiveCr :=
  match w_live w with
  | Some spec => (w, Ok {| lc_uid := Some "uid-1"; lc_spec := spec; lc_generation := Some 1;
                           lc_status := None |})
  | None => (w, Raise not_found)
  end.

Definition quiet (w : World) : World * result unit := (w, Ok tt).

Definition cluster (c : Creation) : Cluster World :=
  {| k_persist := λ w, ({| w_live := w_live w;
                           w_uploads := dy_upload deployment :: w_uploads w |}, Ok tt);
     k_preflight := quiet; k_started := quiet; k_progress := λ _, quiet; k_observed := λ _, quiet;
     k_delete := λ w, match w_live w with
                      | Some _ => ({| w_live := None; w_uploads := w_uploads w |}, Ok tt)
                      | None => (w, Raise not_found)
                      end;
     k_create := create c; k_get := read;
     k_watch_cr := λ w, (w, {| wa_snapshots := [match read w with
                                                | (_, Ok cr) => Some cr
                                                | _ => None
                                                end];
                               wa_end := TimeoutError "watch" |});
     k_watch_pods := λ w, (w, {| wa_snapshots := [2; 0]; wa_end := TimeoutError "watch" |});
     k_cleanup := λ w, ({| w_live := w_live w;
                           w_uploads := filter (λ u, u ≠ dy_upload deployment) (w_uploads w) |},
                        Ok tt) |}.

#[global] Instance cluster_atomic c : AtomicCluster (cluster c) w_live.
Proof.
  split; unfold selects_nothing_new; simpl; try done.
  - intros w. unfold read. by destruct (w_live w) eqn:E; simpl; rewrite ?E.
  - intros w. unfold read. by destruct (w_live w) eqn:E; simpl; rewrite ?E.
  - intros b w. destruct c; simpl; auto.
  - intros w u. destruct (w_live w) eqn:E; [|by rewrite <-E]. by intros (? & [=] & _).
Qed.

Definition never (_ : nat) : CancelPoint := NotCancelled.
Definition old_world : World := {| w_live := Some (Incomplete None); w_uploads := [] |}.
Abbreviation run c := (switch_prepared_session (cluster c) never deployment "nodalarc"
  old_world "ready" "" None).

(** The three ways: the refused creation leaves no upload, the ambiguous one keeps
    it, and both had removed the old resource first. *)
Example refused_creation :
  sw_log (run Refused).1 = [Persisted; Verified; Announced; Verified; DeleteAsked; OldGone;
                            PodsGone; CreateAsked; CleanedUp] ∧
  w_uploads (sw_world (run Refused).1) = [] ∧ sw_status (run Refused).1 = "error".
Proof. vm_compute. auto. Qed.

Example ambiguous_creation_keeps_upload :
  w_uploads (sw_world (run Ambiguous).1) = [dy_upload deployment] ∧
  w_live (sw_world (run Ambiguous).1) = Some (Complete (bd_spec body)) ∧
  sw_selected (run Ambiguous).1 = true.
Proof. vm_compute. auto. Qed.

(** A task cancelled while the creation is in flight: the clean-up of the cancelled
    task finds nothing that selects the upload, and the creation that goes on in its
    thread leaves a live resource whose upload is gone, whether it lands beside the
    removal or after it. *)
Definition in_flight (landing : Landing) (n : nat) : CancelPoint :=
  if (n =? 13)%nat then DuringJob landing else NotCancelled.
Abbreviation cancelled_run landing := (switch_prepared_session (cluster Accepted)
  (in_flight landing) deployment "nodalarc" old_world "ready" "" None).

Example inflight_create_loses_upload :
  selects (w_live (sw_world (cancelled_run AfterCleanup).1)) (dy_upload deployment) ∧
  w_uploads (sw_world (cancelled_run AfterCleanup).1) = [] ∧
  last (sw_log (cancelled_run AfterCleanup).1) = Some CreateAsked ∧
  selects (w_live (sw_world (cancelled_run BesideCleanup).1)) (dy_upload deployment) ∧
  w_uploads (sw_world (cancelled_run BesideCleanup).1) = [] ∧
  last (sw_log (cancelled_run BesideCleanup).1) = Some CleanedUp.
Proof.
  split_and!; try (vm_compute; reflexivity).
  - exists (Complete (bd_spec body)). split; vm_compute; reflexivity.
  - exists (Complete (bd_spec body)). split; vm_compute; reflexivity.
Qed.

Lemma selected_upload_kept_witness :
  ∃ cancelled landing rest,
    switch_body (cluster Accepted) (in_flight BesideCleanup) deployment "nodalarc"
      (initial old_world "switching" "" None) = (cancelled, Cancelled LiveCr landing rest) ∧
    (∃ n, in_flight BesideCleanup n = DuringJob landing) ∧
    (CreateAsked ∉ sw_log cancelled) ∧ CreateAsked ∈ sw_log (cancelled_run BesideCleanup).1.
Proof.
  apply (selected_upload_kept (cluster Accepted) w_live (in_flight BesideCleanup) deployment
    "nodalarc" old_world "ready" "" None).
  - intros (spec & [= <-] & [=]).
  - apply (bool_decide_unpack _). vm_compute. exact I.
  - exists (Complete (bd_spec body)). split; vm_compute; reflexivity.
Defined.

(** A refused creation: the switch is not cancelled, so what was removed is not
    selected. *)
Example refused_creation_selects_nothing :
  CleanedUp ∈ sw_log (run Refused).1 ∧
  ¬ selects (w_live (sw_world (run Refused).1)) (dy_upload deployment).
Proof.
  split; [by apply (bool_decide_unpack _); vm_compute|]. vm_compute.
  by intros (spec & [=] & _).
Qed.
End SmallCluster.
