(* ===== verification/CatalogClosure.v ===== *)
(** * The dependency closure of a session ([lib/nodalarc/catalog_closure.py])

    A session document refers to catalog documents, which refer to others.  The
    collector walks them depth first from the references of the root, refuses
    cycles, dangling references and documents that are not what their reference
    says, and returns every document it needed with a digest of the whole.

    The YAML decoder and the document models are an interface, [Grammar]: the bytes
    of a document give a validated value or a refusal.  What the collector reads of
    a value, the typed references in it, is modelled.  A read view is a function of
    the reference: a view that changes while it is read is not modelled.  [fuel] is
    the depth of the recursion. *)

From S2P Require Import Prelude.
From S2P Require Import PyData.
From S2P Require Import CatalogRefs.
From S2P Require Import TransitionOperation.
From S2P Require Import SessionReconcile.
From stdpp Require Import base list strings gmap pretty.
From Stdlib Require Import Ascii.
Local Open Scope Z_scope.

(** ** Documents *)

(** The values of the document models, as far as [catalog_document_references]
    looks at them. *)
#[warnings="-register-all"]
Inductive Value :=
| TypedRef (ref : string)
| Model (fields : list Value)
| MappingOf (items : list (Value * Value))
| Sequence (items : list Value)
| Plain.

Fixpoint catalog_document_references (value : Value) : list string :=
  match value with
  | TypedRef ref => [ref]
  | Model fields => flat_map catalog_document_references fields
  | MappingOf items =>
      flat_map (λ item, catalog_document_references item.1 ++ catalog_document_references item.2)
        items
  | Sequence items => flat_map catalog_document_references items
  | Plain => []
  end.

(** A typed reference is a canonical catalog reference. *)
Definition canonical (ref : string) : Prop := new_ref CatalogRef ref = Ok ref.

(** [_parse_yaml] and [_validate_document], of the session root or of the document of
    a reference. *)
Class Grammar := {
  validated : option string → string → result Value;
  validated_typed ref yaml value :
    validated ref yaml = Ok value → Forall canonical (catalog_document_references value);
}.

(** ** Errors and reading *)

Definition ClosureError (code : string) : exn := Raised "CatalogClosureError" code.
Definition INVALID_REFERENCE : exn := ClosureError "catalog_closure.invalid_reference".
Definition REFERENCE_PATH_REJECTED : exn := ClosureError "catalog_closure.reference_path_rejected".
Definition REFERENCE_FAMILY_MISMATCH : exn :=
  ClosureError "catalog_closure.reference_family_mismatch".
Definition DANGLING_REFERENCE : exn := ClosureError "catalog_closure.dangling_reference".
Definition READ_FAILED : exn := ClosureError "catalog_closure.read_failed".
Definition READ_VIEW_CONTRACT : exn := ClosureError "catalog_closure.read_view_contract".
Definition REFERENCE_CYCLE : exn := ClosureError "catalog_closure.reference_cycle".
Definition PRESERVED_PATH_COLLISION : exn :=
  ClosureError "catalog_closure.preserved_path_collision".
Definition RecursionError : exn := Raised "RecursionError" "maximum recursion depth exceeded".

Record CatalogReadDocument := {
  rd_family : string;
  rd_preserved_path : string;
  rd_yaml : string;
}.

(** What a view answers: the document, one of the three read errors, or a refusal of
    its own. *)
Inductive ReadAnswer :=
| Document (document : CatalogReadDocument)
| DocumentNotFound
| ReadRejected
| ReadFailed
| Refused (e : exn).

Abbreviation CatalogReadView := (string → ReadAnswer).

(** [ref._parsed()]. *)
Definition parsed (ref : string) : result ParsedCatalogReference :=
  parse_catalog_reference ref (Some (allowed_families CatalogRef)).

Definition family_of (ref : string) : option string :=
  match parsed ref with Ok p => pr_family p | Raise _ => None end.

Definition preserved_catalog_path (ref : string) : string :=
  match parsed ref with
  | Ok p => join_with "/" ("catalog" :: pr_namespace p :: pr_relative_path p)
  | Raise _ => ""
  end.

(** ** Entries *)

Record CatalogClosureEntry := {
  ce_ref : string;
  ce_family : string;
  ce_preserved_path : string;
  ce_yaml : string;
  ce_document_digest : string;
  ce_size_bytes : Z;
}.

#[global] Instance closure_entry_eq_dec : EqDecision CatalogClosureEntry.
Proof. solve_decision. Defined.

Definition entry_lt (e e' : CatalogClosureEntry) : bool := str_lt (ce_ref e) (ce_ref e').

(** ** The digest of a closure *)

(** A JSON string: everything but controls, the quote and the backslash stays. *)
Definition json_char (c : ascii) (rest : string) : string :=
  let n := Z.of_N (N_of_ascii c) in
  let escaped letter := String "\"%char (String letter rest) in
  if (n =? 34) || (n =? 92) then escaped c
  else if n =? 8 then escaped "b"%char
  else if n =? 9 then escaped "t"%char
  else if n =? 10 then escaped "n"%char
  else if n =? 12 then escaped "f"%char
  else if n =? 13 then escaped "r"%char
  else if n <? 32 then "\u00" +:+ hex_word 2 n rest
  else String c rest.
Fixpoint json_chars (s rest : string) : string :=
  match s with
  | EmptyString => rest
  | String c s => json_char c (json_chars s rest)
  end.
Definition quote : string := String (ascii_of_nat 34) "".
Definition json_string (s : string) : string := quote +:+ json_chars s quote.

Definition json_field (name value : string) : string := json_string name +:+ ":" +:+ value.
Definition json_object (fields : list string) : string :=
  "{" +:+ join_with "," fields +:+ "}".

(** One entry of the inventory, its keys sorted. *)
Definition inventory_entry (e : CatalogClosureEntry) : string :=
  json_object
    [json_field "document_digest" (json_string (ce_document_digest e));
     json_field "family" (json_string (ce_family e));
     json_field "preserved_path" (json_string (ce_preserved_path e));
     json_field "ref" (json_string (ce_ref e));
     json_field "size_bytes" (pretty (ce_size_bytes e))].

Definition catalog_closure_digest (entries : list CatalogClosureEntry) : string :=
  sha256_digest (json_object
    [json_field "entries" ("[" +:+ join_with "," (map inventory_entry entries) +:+ "]");
     json_field "schema" (json_string "nodalarc.catalog-dependency-closure.v1")]).

(** ** The walk ([_CollectionState]) *)

Record CollectionState := {
  cl_entries : dict string CatalogClosureEntry;
  cl_owners : gmap string string;
}.

Definition fresh_collection : CollectionState := {| cl_entries := []; cl_owners := ∅ |}.

Section Collect.
Context {grammar : Grammar} (view : CatalogReadView).

(** [_read]. *)
Definition read (ref : string) : result CatalogReadDocument :=
  match view ref with
  | Document document => Ok document
  | ReadRejected => Raise REFERENCE_PATH_REJECTED
  | DocumentNotFound => Raise DANGLING_REFERENCE
  | ReadFailed => Raise READ_FAILED
  | Refused e => Raise e
  end.

(** The document of a reference, once it is known to be the one that was asked
    for. *)
Definition read_checked (ref : string) : result CatalogReadDocument :=
  let! family := or_raise (family_of ref) REFERENCE_FAMILY_MISMATCH in
  raise_if bool_decide (family ∉ CATALOG_FAMILIES) with REFERENCE_FAMILY_MISMATCH;;
  let! document := read ref in
  raise_if negb (bool_decide (rd_family document = family)) with REFERENCE_FAMILY_MISMATCH;;
  raise_if negb (bool_decide (rd_preserved_path document = preserved_catalog_path ref))
    with READ_VIEW_CONTRACT;;
  Ok document.

Definition entry_of (ref : string) (document : CatalogReadDocument) : CatalogClosureEntry :=
  {| ce_ref := ref; ce_family := rd_family document;
     ce_preserved_path := preserved_catalog_path ref; ce_yaml := rd_yaml document;
     ce_document_digest := sha256_digest (rd_yaml document);
     ce_size_bytes := text_len (rd_yaml document) |}.

(** The path of a document belongs to one reference. *)
Definition claim_path (ref : string) (s : CollectionState) : result CollectionState :=
  let path := preserved_catalog_path ref in
  raise_if match cl_owners s !! path with
           | Some owner => negb (bool_decide (owner = ref))
           | None => false
           end with PRESERVED_PATH_COLLISION;;
  Ok {| cl_entries := cl_entries s; cl_owners := <[path := ref]> (cl_owners s) |}.

(** [visit]; [active] is the chain of references being visited. *)
Fixpoint visit (fuel : nat) (active : list string) (s : CollectionState) (ref : string) :
    result CollectionState :=
  match fuel with
  | O => Raise RecursionError
  | S fuel =>
      if bool_decide (ref ∈ active) then Raise REFERENCE_CYCLE
      else if dict_mem ref (cl_entries s) then Ok s
      else
      let! document := read_checked ref in
      let! s := claim_path ref s in
      let! value := validated (Some ref) (rd_yaml document) in
      let! s := foldM (visit fuel (active ++ [ref])) s
        (sorted str_lt (catalog_document_references value)) in
      Ok {| cl_entries := dict_set ref (entry_of ref document) (cl_entries s);
            cl_owners := cl_owners s |}
  end.

(** ** The collector *)

(** [collect_references]; the entries of the graph. *)
Definition collect_references (fuel : nat) (refs : list string) :
    result (list CatalogClosureEntry) :=
  let! parsed_refs := mapM_r (λ ref, match new_ref CatalogRef ref with
                                     | Ok r => Ok r
                                     | Raise _ => Raise INVALID_REFERENCE
                                     end) refs in
  let! s := foldM (visit fuel []) fresh_collection (sorted str_lt parsed_refs) in
  Ok (sorted entry_lt (map snd (cl_entries s))).

Record CatalogClosure := {
  cc_root_yaml : string;
  cc_entries : list CatalogClosureEntry;
  cc_document_digest : string;
  cc_closure_digest : string;
  cc_file_count : Z;
  cc_total_bytes : Z;
}.

Definition sum_sizes (entries : list CatalogClosureEntry) : Z :=
  foldr (λ e n, ce_size_bytes e + n) 0 entries.

Definition collect (fuel : nat) (root_yaml : string) : result CatalogClosure :=
  let! root := validated None root_yaml in
  let! entries := collect_references fuel (catalog_document_references root) in
  Ok {| cc_root_yaml := root_yaml; cc_entries := entries;
        cc_document_digest := sha256_digest root_yaml;
        cc_closure_digest := catalog_closure_digest entries;
        cc_file_count := Z.of_nat (length entries); cc_total_bytes := sum_sizes entries |}.
End Collect.

(** [ClosureReadView] over captured entries: the last one of a reference counts. *)
Definition closure_view (entries : list CatalogClosureEntry) : CatalogReadView := λ ref,
  match dict_get ref (dict_of (map (λ e, (ce_ref e, e)) entries)) with
  | Some e => Document {| rd_family := ce_family e; rd_preserved_path := ce_preserved_path e;
                          rd_yaml := ce_yaml e |}
  | None => DocumentNotFound
  end.
