(* ===== verification/ClosureTheorems.v ===== *)
(** * The dependency closure: what is promised

    The walk returns exactly the documents the root needs, or refuses; it always
    ends; and what it returned, read again from the captured bytes, gives the same
    closure. *)

From S2P Require Import Prelude.
From S2P Require Import PyFloat.
From S2P Require Import PyData.
From S2P Require Import CatalogRefs.
From S2P Require Import TransitionOperation.
From S2P Require Import SessionReconcile.
From S2P Require Import CatalogClosure.
From stdpp Require Import base list strings gmap sorting relations.
From Stdlib Require Import Ascii Lia.

(** ** References *)

Lemma parsed_spelling ref p :
  parsed ref = Ok p → ref = pr_namespace p +:+ String ":" (join_with "/" (pr_relative_path p)).
Proof. intros (? & ? & ? & ? & _ & _ & _ & _ & _ & _ & _ & ->)%parse_shaped. done. Qed.

Lemma new_ref_same ref r : new_ref CatalogRef ref = Ok r → r = ref.
Proof. intros (p & Hp & [= <-])%rbind_Ok. symmetry. by apply parsed_spelling. Qed.

Lemma canonical_parsed ref : canonical ref ↔ ∃ p, parsed ref = Ok p.
Proof.
  split; [by intros (p & Hp & _)%rbind_Ok; eauto|]. intros [p Hp]. unfold canonical, new_ref.
  unfold parsed in Hp. rewrite Hp. cbn. f_equal. symmetry. by apply parsed_spelling.
Qed.

(** The components of an accepted path contain no separator. *)
Lemma parsed_components ref p :
  parsed ref = Ok p →
  Forall (λ part, has_char "/" part = false) (pr_namespace p :: pr_relative_path p).
Proof.
  intros (fam & dirs & stem & suffix & Hns & _ & Hd & Hs & Hx & -> & _)%parse_shaped.
  constructor; [by repeat (apply elem_of_cons in Hns as [->|Hns]; [done|]); inversion Hns|].
  apply Forall_app. split; [eapply Forall_impl; [exact Hd|]; intros; by apply name_has_no|].
  constructor; [|done]. rewrite has_char_app, name_has_no by done.
  by repeat (apply elem_of_cons in Hx as [->|Hx]; [done|]); inversion Hx.
Qed.

(** Two references never share a preserved path. *)
Lemma preserved_inj ref ref' :
  canonical ref → canonical ref' → preserved_catalog_path ref = preserved_catalog_path ref' →
  ref = ref'.
Proof.
  intros [p Hp]%canonical_parsed [p' Hp']%canonical_parsed. unfold preserved_catalog_path.
  rewrite Hp, Hp'. intros H%(f_equal (split_on "/")).
  rewrite !split_join in H; try done.
  - injection H as Hns Hpath. rewrite (parsed_spelling _ _ Hp), (parsed_spelling _ _ Hp'). congruence.
  - constructor; [done|]. by eapply parsed_components.
  - constructor; [done|]. by eapply parsed_components.
Qed.

(** ** Sorting by a key *)

Lemma sorted_key_unique {A} (key : A → string) l l' :
  l ≡ₚ l' → NoDup (map key l) →
  sorted (λ x y, str_lt (key x) (key y)) l = sorted (λ x y, str_lt (key x) (key y)) l'.
Proof.
  intros Hp Hnd. set (lt := λ x y, str_lt (key x) (key y)).
  assert (StrictWeakOn lt (λ _ : A, True)) as Hswo.
  { destruct (strict_total_swo str_lt (λ _, True)) as [Hi Ht Hn]. unfold lt. split.
    - intros x _. by apply Hi.
    - intros x y z _ _ _. by apply Ht.
    - intros x y z _ _ _. by apply Hn. }
  apply (StronglySorted_unique_strong (λ x y, lt y x = false)).
  - intros x y Hx Hy H1 H2. apply elem_of_sorted in Hx, Hy. rewrite <-Hp in Hy.
    assert (key x = key y) as Hk.
    { apply st_total; [exact H2|exact H1]. }
    apply list_elem_of_lookup in Hx as [i Hi], Hy as [j Hj].
    assert (i = j) as -> by (eapply (NoDup_lookup (map key l)); [done|..];
      rewrite list_lookup_fmap; [by rewrite Hi|rewrite Hj; simpl; by rewrite Hk]).
    congruence.
  - apply (sorted_sorted lt (λ _, True)). by apply Forall_true.
  - apply (sorted_sorted lt (λ _, True)). by apply Forall_true.
  - by rewrite !sorted_perm.
Qed.

(** ** What a document needs *)

Section Walk.
Context {grammar : Grammar} (view : CatalogReadView).

(** The reference is read and its document accepted. *)
Definition good (ref : string) (d : CatalogReadDocument) (v : Value) : Prop :=
  read_checked view ref = Ok d ∧ validated (Some ref) (rd_yaml d) = Ok v.

Definition needs (ref x : string) : Prop :=
  ∃ d v, good ref d v ∧ x ∈ catalog_document_references v.

(** Everything from a reference on can be collected. *)
Definition collectable (ref : string) : Prop :=
  canonical ref ∧ ∀ x, rtc needs ref x → (∃ d v, good x d v) ∧ ¬ tc needs x x.

Lemma needs_canonical ref x : needs ref x → canonical x.
Proof.
  intros (d & v & [_ Hv] & Hx). apply validated_typed in Hv. rewrite Forall_forall in Hv. auto.
Qed.

Lemma needs_of ref d v x : good ref d v → needs ref x → x ∈ catalog_document_references v.
Proof. intros [Hd Hv] (d' & v' & [Hd' Hv'] & Hx). congruence. Qed.

(** The dictionary of a walk: every document after those it needs. *)
Inductive collected : dict string CatalogClosureEntry → Prop :=
| collected_nil : collected []
| collected_snoc l ref d v :
    collected l → canonical ref → ref ∉ dict_keys l → good ref d v →
    (∀ x, x ∈ catalog_document_references v → x ∈ dict_keys l) →
    collected (l ++ [(ref, entry_of ref d)]).

Lemma dict_keys_app {V} (l l' : dict string V) : dict_keys (l ++ l') = dict_keys l ++ dict_keys l'.
Proof. apply map_app. Qed.

Lemma collected_wf l : collected l → dict_wf l.
Proof.
  induction 1 as [|l ref d v _ IH _ Hnew _ _]; [constructor|]. unfold dict_wf.
  rewrite dict_keys_app. apply NoDup_app. split_and!; [done| |apply NoDup_singleton].
  intros x Hx ->%list_elem_of_singleton. done.
Qed.

Lemma collected_in l ref e :
  collected l → (ref, e) ∈ l → canonical ref ∧ ∃ d v, good ref d v ∧ e = entry_of ref d.
Proof.
  induction 1 as [|l r d v _ IH Hc _ Hg _]; [by intros ?%not_elem_of_nil|].
  intros [?|[= -> ->]%list_elem_of_singleton]%elem_of_app; [auto|eauto].
Qed.

Lemma collected_closed l ref x : collected l → ref ∈ dict_keys l → needs ref x → x ∈ dict_keys l.
Proof.
  induction 1 as [|l r d v _ IH _ _ Hg Hdeps]; [by intros ?%not_elem_of_nil|].
  rewrite dict_keys_app, !elem_of_app. intros [Hr| ->%list_elem_of_singleton] Hn; [auto|].
  left. apply Hdeps. by eapply needs_of.
Qed.

Lemma collected_reach l ref x : collected l → rtc needs ref x → ref ∈ dict_keys l → x ∈ dict_keys l.
Proof. intros Hl. induction 1; [done|]. intros Hr. eapply IHrtc, collected_closed; eauto. Qed.

Lemma collected_acyclic l ref : collected l → ref ∈ dict_keys l → ¬ tc needs ref ref.
Proof.
  induction 1 as [|l r d v Hl IH _ Hnew Hg Hdeps]; [by intros ?%not_elem_of_nil|].
  rewrite dict_keys_app. intros [Hr| ->%list_elem_of_singleton]%elem_of_app; [auto|].
  intros Hcycle. assert (∃ x, needs r x ∧ rtc needs x r) as (x & Hrx & Hxr).
  { inversion Hcycle; subst; [by exists r|]. eexists. split; [done|by apply tc_rtc]. }
  apply Hnew. eapply collected_reach; [done|exact Hxr|]. apply Hdeps. by eapply needs_of.
Qed.

(** ** Soundness of the walk *)

Record walking (s : CollectionState) : Prop := {
  wk_entries : collected (cl_entries s);
  wk_owner path owner :
    cl_owners s !! path = Some owner → canonical owner ∧ path = preserved_catalog_path owner;
}.

(** What a visit adds: new documents, none of them active, that its reference
    reaches. *)
Definition adds (active : list string) (from : string → Prop) (s s' : CollectionState) : Prop :=
  ∃ l, cl_entries s' = cl_entries s ++ l ∧
    ∀ k, k ∈ dict_keys l → (k ∉ active) ∧ ∃ ref, from ref ∧ rtc needs ref k.

Lemma adds_refl active from s : adds active from s s.
Proof. exists []. rewrite app_nil_r. split; [done|]. by intros k ?%not_elem_of_nil. Qed.

Lemma adds_trans active from s1 s2 s3 :
  adds active from s1 s2 → adds active from s2 s3 → adds active from s1 s3.
Proof.
  intros (l1 & H1 & Hl1) (l2 & H2 & Hl2). exists (l1 ++ l2). rewrite H2, H1, app_assoc.
  split; [done|]. intros k. rewrite dict_keys_app. intros [?|?]%elem_of_app; auto.
Qed.

Lemma adds_mono active active' (from from' : string → Prop) s s' :
  (∀ k, k ∈ active' → k ∈ active) → (∀ ref, from ref → ∃ ref', from' ref' ∧ rtc needs ref' ref) →
  adds active from s s' → adds active' from' s s'.
Proof.
  intros Ha Hf (l & Hl & Hk). exists l. split; [done|]. intros k Hkl.
  destruct (Hk k Hkl) as (Hna & ref & Hr & Hreach). split; [auto|].
  destruct (Hf ref Hr) as (ref' & Hr' & Hreach'). exists ref'. split; [done|by etrans].
Qed.

Lemma adds_keys active from s s' k :
  adds active from s s' → k ∈ dict_keys (cl_entries s) → k ∈ dict_keys (cl_entries s').
Proof. intros (l & -> & _). rewrite dict_keys_app, elem_of_app. auto. Qed.

Lemma fold_sound active f refs s s' :
  (∀ s ref s', ref ∈ refs → walking s → f s ref = Ok s' →
     walking s' ∧ adds active (eq ref) s s' ∧ ref ∈ dict_keys (cl_entries s')) →
  walking s → foldM f s refs = Ok s' →
  walking s' ∧ adds active (λ ref, ref ∈ refs) s s' ∧ ∀ ref, ref ∈ refs → ref ∈ dict_keys (cl_entries s').
Proof.
  intros Hf Hs Hfold.
  assert (∀ l, (∀ ref, ref ∈ l → ref ∈ refs) → ∀ s, walking s → foldM f s l = Ok s' →
    walking s' ∧ adds active (λ ref, ref ∈ refs) s s' ∧
    ∀ ref, ref ∈ l → ref ∈ dict_keys (cl_entries s')) as Hall; [|by eapply (Hall refs)].
  clear s Hs Hfold. induction l as [|ref l IH]; intros Hl s Hs; cbn [foldM].
  { intros [= ->]. split_and!; [done|apply adds_refl|]. by intros ref ?%not_elem_of_nil. }
  intros (s1 & H1 & H2)%rbind_Ok.
  destruct (Hf s ref s1) as (Hs1 & Hadd & Hin); [apply Hl; by left|done|done|].
  destruct (IH ltac:(intros r Hr; apply Hl; by right) s1 Hs1 H2) as (Hs' & Hadd' & Hins).
  split_and!; [done| |].
  - eapply adds_trans; [|exact Hadd']. eapply adds_mono; [done| |exact Hadd].
    intros ? <-. exists ref. split; [apply Hl; by left|done].
  - intros r [->|Hr]%elem_of_cons; [|auto]. by eapply adds_keys.
Qed.

Lemma claim_path_keeps ref s s' :
  walking s → canonical ref → claim_path ref s = Ok s' → walking s' ∧ cl_entries s' = cl_entries s.
Proof.
  intros [He Ho] Hc [_ [= <-]]%raise_if_Ok. split; [|done]. split; [done|]. cbn.
  intros path owner. rewrite lookup_insert_Some. intros [[<- <-]|[_ ?]]; [done|auto].
Qed.

Lemma claim_path_total ref s : walking s → canonical ref → ∃ s', claim_path ref s = Ok s'.
Proof.
  intros [_ Ho] Hc. unfold claim_path. destruct (cl_owners s !! _) as [owner|] eqn:E; [|by eexists].
  apply Ho in E as [Hco Hp]. rewrite bool_decide_true; [by eexists|]. by apply preserved_inj.
Qed.

Lemma visit_sound fuel active s ref s' :
  walking s → canonical ref → visit view fuel active s ref = Ok s' →
  walking s' ∧ adds active (eq ref) s s' ∧ ref ∈ dict_keys (cl_entries s').
Proof.
  revert active s ref s'. induction fuel as [|fuel IH]; intros active s ref s' Hs Hc; [done|].
  cbn [visit]. case_bool_decide as Ha; [done|].
  destruct (dict_mem ref (cl_entries s)) eqn:Em.
  { intros [= <-]. split_and!; [done|apply adds_refl|by apply dict_mem_true]. }
  apply dict_mem_false in Em. intros (d & Hd & H)%rbind_Ok. apply rbind_Ok in H as (s1 & H1 & H).
  apply rbind_Ok in H as (v & Hv & H). apply rbind_Ok in H as (s2 & H2 & [= <-]).
  destruct (claim_path_keeps ref s s1 Hs Hc H1) as [Hs1 E1].
  assert (∀ x, x ∈ sorted str_lt (catalog_document_references v) → needs ref x) as Hneeds.
  { intros x Hx%elem_of_sorted. exists d, v. by split. }
  destruct (fold_sound (active ++ [ref]) (visit view fuel (active ++ [ref]))
    (sorted str_lt (catalog_document_references v)) s1 s2) as ([He2 Ho2] & (l & El & Hl) & Hin);
    [|done|done|].
  { intros s3 x s4 Hx Hs3. by apply IH, (needs_canonical ref), Hneeds. }
  assert (ref ∉ dict_keys (cl_entries s2)) as Hnew.
  { rewrite El, dict_keys_app, E1, elem_of_app. intros [?|Hk]; [done|].
    destruct (Hl ref Hk) as [Hna _]. apply Hna, elem_of_app. right. by left. }
  cbn [cl_entries cl_owners]. rewrite dict_set_new by done. split_and!.
  - split; [|done]. cbn. eapply collected_snoc; try done. intros x Hx. apply Hin. by rewrite elem_of_sorted.
  - exists (l ++ [(ref, entry_of ref d)]). cbn. rewrite El, E1, app_assoc. split; [done|].
    intros k. rewrite dict_keys_app. intros [Hk| ->%list_elem_of_singleton]%elem_of_app.
    + destruct (Hl k Hk) as (Hna & x & Hx & Hr). split; [intros ?; apply Hna, elem_of_app; by left|].
      exists ref. split; [done|]. eapply rtc_l; [|exact Hr]. by apply Hneeds.
    + split; [done|]. by exists ref.
  - rewrite dict_keys_app, elem_of_app. right. by left.
Qed.

(** ** Completeness and depth *)

Lemma good_read ref d v : good ref d v → ∃ d', view ref = Document d'.
Proof.
  intros [(fam & _ & H)%rbind_Ok _]. apply raise_if_Ok in H as [_ H].
  apply rbind_Ok in H as (d1 & Hd1 & _). unfold read in Hd1. destruct (view ref); eauto; done.
Qed.

Section Finite.
Context (known : list string) (Hknown : ∀ ref d, view ref = Document d → ref ∈ known).

Lemma active_bound active : NoDup active → (∀ a, a ∈ active → a ∈ known) → length active ≤ length known.
Proof. intros Hnd Ha. apply submseteq_length, NoDup_submseteq; auto. Qed.

Lemma grown_active active ref :
  NoDup active → ref ∉ active → (∀ a, a ∈ active → a ∈ known) → ref ∈ known →
  NoDup (active ++ [ref]) ∧ (∀ a, a ∈ active ++ [ref] → a ∈ known) ∧
  length (active ++ [ref]) = S (length active).
Proof.
  intros Hnd Hr Ha Hk. split_and!.
  - apply NoDup_app. split_and!; [done| |apply NoDup_singleton]. by intros x Hx ->%list_elem_of_singleton.
  - intros a [?| ->%list_elem_of_singleton]%elem_of_app; auto.
  - rewrite length_app. simpl. lia.
Qed.

(** A walk over what can be collected does not stop. *)
Lemma visit_total fuel active s ref :
  walking s → collectable ref → NoDup active → (∀ a, a ∈ active → a ∈ known ∧ tc needs a ref) →
  length known < fuel + length active → ∃ s', visit view fuel active s ref = Ok s'.
Proof.
  revert active s ref. induction fuel as [|fuel IH]; intros active s ref Hs [Hc Hr] Hnd Ha Hf.
  { pose proof (active_bound active Hnd ltac:(intros; by apply Ha)). lia. }
  cbn [visit]. destruct (Hr ref (rtc_refl _ _)) as [(d & v & Hg) Hac].
  rewrite bool_decide_false by (intros Hin; by apply Hac, Ha).
  destruct (dict_mem ref (cl_entries s)); [by eexists|]. destruct (Hg) as [Hd Hv]. rewrite Hd. cbn [rbind].
  destruct (claim_path_total ref s Hs Hc) as [s1 H1]. rewrite H1. cbn [rbind]. rewrite Hv. cbn [rbind].
  destruct (claim_path_keeps ref s s1 Hs Hc H1) as [Hs1 _].
  destruct (good_read _ _ _ Hg) as [d' Hk%Hknown].
  destruct (grown_active active ref) as (Hnd' & Hk' & Hlen); [done| |by intros; apply Ha|done|].
  { intros Hin. by apply Hac, Ha. }
  destruct (foldM_total walking (visit view fuel (active ++ [ref]))
    (sorted str_lt (catalog_document_references v))) with (s := s1) as (s2 & -> & _); [|done|by eexists].
  intros s3 x Hx%elem_of_sorted Hs3. assert (needs ref x) as Hn by by exists d, v.
  destruct (IH (active ++ [ref]) s3 x) as [s4 H4]; try done.
  - split; [by eapply needs_canonical|]. intros y Hy. apply Hr. by eapply rtc_l.
  - intros a Hin. split; [by apply Hk'|]. apply elem_of_app in Hin as [Hin| ->%list_elem_of_singleton].
    + eapply tc_r; [by apply Ha|done].
    + by constructor.
  - lia.
  - exists s4. split; [done|]. eapply visit_sound; [done|by eapply needs_canonical|done].
Qed.

(** Errors of other parts are not taken for those of the walk. *)
Definition foreign (e : exn) : Prop := e ≠ RecursionError ∧ e ≠ REFERENCE_CYCLE.

(** The depth of the walk is bounded by the documents there are, and a cycle it
    reports is one. *)
Lemma visit_depth fuel active s ref :
  (∀ r e, view r = Refused e → foreign e) → (∀ r yaml, raises_only foreign (validated r yaml)) →
  NoDup active → (∀ a, a ∈ active → a ∈ known ∧ tc needs a ref) →
  length known < fuel + length active →
  raises_only (λ e, e ≠ RecursionError ∧
      (e = REFERENCE_CYCLE → ∃ x, rtc needs ref x ∧ tc needs x x)) (visit view fuel active s ref).
Proof.
  intros Hview Hval. revert active s ref.
  induction fuel as [|fuel IH]; intros active s ref Hnd Ha Hf; cbn [visit].
  { pose proof (active_bound active Hnd ltac:(intros; by apply Ha)). lia. }
  case_bool_decide as Hin.
  { apply ro_Raise. split; [done|]. intros _. exists ref. split; [done|by apply Ha]. }
  destruct (dict_mem _ _); [apply ro_Ok|]. apply ro_bind.
  { unfold read_checked, read. intros e. destruct (family_of ref); [|by intros [= <-]]. cbn [or_raise rbind].
    case_bool_decide; [by intros [= <-]|].
    destruct (view ref) as [doc| | | |e'] eqn:Ev; cbn [rbind]; try by intros [= <-].
    - do 2 (destruct (negb _); [by intros [= <-]|]). done.
    - intros [= <-]. apply Hview in Ev as [??]. by split. }
  intros d Hd. apply ro_bind.
  { unfold claim_path. intros e. destruct (match _ with Some _ => _ | None => _ end); by intros [= <-]. }
  intros s1 _. apply ro_bind; [intros e [??]%Hval; by split|]. intros v Hv.
  apply ro_bind; [|intros; apply ro_Ok].
  destruct (good_read ref d v (conj Hd Hv)) as [d' Hk%Hknown].
  destruct (grown_active active ref Hnd Hin ltac:(intros; by apply Ha) Hk) as (Hnd' & Ha' & Hlen).
  apply (ro_foldM _ (λ _, True)); [|done]. intros s2 x Hx%elem_of_sorted _. split; [|done].
  assert (needs ref x) as Hn by by exists d, v.
  intros e He. destruct (IH (active ++ [ref]) s2 x) with (e := e) as [Hne Hcy]; [done| |lia|done|].
  - intros a Hina. split; [by apply Ha'|]. apply elem_of_app in Hina as [Hina| ->%list_elem_of_singleton].
    + eapply tc_r; [by apply Ha|done].
    + by constructor.
  - split; [done|]. intros Hec. destruct (Hcy Hec) as (y & Hy & Hyy). exists y. split; [by eapply rtc_l|done].
Qed.
End Finite.
End Walk.

(** ** The closure *)

Section Closure.
Context {grammar : Grammar} (view : CatalogReadView).

Lemma walking_fresh : walking view fresh_collection.
Proof. split; [constructor|]. intros path owner. cbn [fresh_collection cl_owners]. by rewrite lookup_empty. Qed.

Lemma canonical_refs refs parsed_refs :
  mapM_r (λ ref, match new_ref CatalogRef ref with
                 | Ok r => Ok r
                 | Raise _ => Raise INVALID_REFERENCE
                 end) refs = Ok parsed_refs ↔ parsed_refs = refs ∧ Forall canonical refs.
Proof.
  revert parsed_refs. induction refs as [|ref refs IH]; intros ps; cbn [mapM_r].
  { split; [by intros [= <-]|by intros [-> _]]. }
  rewrite rbind_Ok, Forall_cons. setoid_rewrite rbind_Ok. setoid_rewrite IH. split.
  - intros (r & Hr & rs & [-> Hrs] & [= <-]). destruct (new_ref CatalogRef ref) as [r'|] eqn:E; [|done].
    injection Hr as <-. pose proof (new_ref_same _ _ E). subst r'. split_and!; [done|by apply rbind_Ok in E|done].
  - intros (-> & Hr & Hrs). exists ref. assert (new_ref CatalogRef ref = Ok ref) as -> by by apply rbind_Ok. eauto.
Qed.

(** The entries of a walk are filed under their references. *)
Lemma collected_refs l : collected view l → map ce_ref (map snd l) = dict_keys l.
Proof.
  induction 1 as [|l ref d v _ IH _ _ _ _]; [done|]. unfold dict_keys in *. by rewrite !map_app, IH.
Qed.

(** What a successful collection walked. *)
Lemma collect_walked fuel refs entries :
  collect_references view fuel refs = Ok entries →
  Forall canonical refs ∧ ∃ s, walking view s ∧ entries = sorted entry_lt (map snd (cl_entries s)) ∧
    ∀ r, r ∈ dict_keys (cl_entries s) ↔ ∃ root, root ∈ refs ∧ rtc (needs view) root r.
Proof.
  intros (ps & [-> Hc]%canonical_refs & H)%rbind_Ok. apply rbind_Ok in H as (s & Hs & [= <-]).
  split; [done|]. rewrite Forall_forall in Hc. exists s.
  destruct (fold_sound view [] (visit view fuel []) (sorted str_lt refs) fresh_collection s)
    as (Hw & (l & El & Hl) & Hin); [|apply walking_fresh|done|].
  { intros s1 ref s2 Hr%elem_of_sorted Hs1. apply visit_sound; [done|by apply Hc]. }
  split_and!; [done|done|]. intros r. cbn in El. rewrite El. split.
  - intros (Hna & root & Hr%elem_of_sorted & Hreach)%Hl. by exists root.
  - intros (root & Hr & Hreach). rewrite <-El. eapply collected_reach; [apply Hw|done|].
    apply Hin. by rewrite elem_of_sorted.
Qed.

Lemma collect_total known fuel refs :
  (∀ ref d, view ref = Document d → ref ∈ known) → length known < fuel →
  Forall (collectable view) refs → ∃ entries, collect_references view fuel refs = Ok entries.
Proof.
  intros Hk Hfuel Hrefs. unfold collect_references.
  rewrite (proj2 (canonical_refs refs refs)).
  2: { split; [done|]. eapply Forall_impl; [done|]. by intros r [Hr _]. }
  cbn [rbind]. rewrite Forall_forall in Hrefs.
  destruct (foldM_total (walking view) (visit view fuel []) (sorted str_lt refs))
    with (s := fresh_collection) as (s & -> & _); [|apply walking_fresh|by eexists].
  intros s ref Hr%elem_of_sorted%Hrefs Hs.
  destruct (visit_total view known Hk fuel [] s ref) as [s' H']; try done.
  - apply NoDup_nil_2.
  - by intros a ?%not_elem_of_nil.
  - simpl. lia.
  - exists s'. split; [done|]. eapply visit_sound; [done|apply Hr|done].
Qed.

(** The entries of a collection. *)
Lemma collect_entries fuel refs entries :
  collect_references view fuel refs = Ok entries →
  NoDup (map ce_ref entries) ∧ entries = sorted entry_lt entries ∧
  (∀ r, r ∈ map ce_ref entries ↔ ∃ root, root ∈ refs ∧ rtc (needs view) root r) ∧
  (∀ e, e ∈ entries → ∃ d v, good view (ce_ref e) d v ∧ e = entry_of (ce_ref e) d).
Proof.
  intros (_ & s & [Hw _] & -> & Hreach)%collect_walked.
  assert (NoDup (map ce_ref (map snd (cl_entries s)))) as Hnd.
  { rewrite (collected_refs _ Hw). by apply (collected_wf view). }
  split_and!.
  - by rewrite (sorted_perm entry_lt).
  - symmetry. apply (sorted_key_unique ce_ref); [|by rewrite (sorted_perm entry_lt)].
    by rewrite (sorted_perm entry_lt).
  - intros r. rewrite <-Hreach, <-(collected_refs _ Hw). by rewrite (sorted_perm entry_lt).
  - intros e ([k e'] & -> & Hin)%elem_of_sorted%list_elem_of_fmap. cbn [snd].
    destruct (collected_in view _ _ _ Hw Hin) as (_ & d & v & Hg & ->). cbn [entry_of ce_ref]. eauto.
Qed.

Lemma collected_collectable fuel refs entries :
  collect_references view fuel refs = Ok entries → Forall (collectable view) refs.
Proof.
  intros (Hc & s & [Hw _] & _ & Hreach)%collect_walked. rewrite Forall_forall in Hc |- *.
  intros ref Hr. split; [auto|]. intros x Hx.
  assert (x ∈ dict_keys (cl_entries s)) as Hin by (apply Hreach; eauto). split.
  - apply list_elem_of_fmap in Hin as ([k e] & -> & Hin). apply (collected_in view) in Hin; [|done].
    destruct Hin as (_ & d & v & Hg & _). eauto.
  - by eapply collected_acyclic.
Qed.

(** C30: the closure is exactly what the session needs.  Where the view can read
    finitely many documents, the collection returns exactly when every document
    reachable from the references is there, is what its reference says, is valid,
    and none needs itself; and the entries it returns are one per reachable
    reference, in the order of the references, each with the bytes the view gave. *)
Theorem closure_exact known refs :
  (∀ ref d, view ref = Document d → ref ∈ known) →
  ((∃ entries, collect_references view (S (length known)) refs = Ok entries) ↔
     Forall (collectable view) refs) ∧
  ∀ fuel entries, collect_references view fuel refs = Ok entries →
    NoDup (map ce_ref entries) ∧ entries = sorted entry_lt entries ∧
    (∀ r, r ∈ map ce_ref entries ↔ ∃ root, root ∈ refs ∧ rtc (needs view) root r) ∧
    (∀ e, e ∈ entries → ∃ d v, good view (ce_ref e) d v ∧ e = entry_of (ce_ref e) d).
Proof.
  intros Hk. split; [split|].
  - intros [entries Hcol]. by eapply collected_collectable.
  - apply (collect_total known); [done|lia].
  - intros fuel entries. apply collect_entries.
Qed.

(** C31: the walk ends, and a cycle it reports is one.  When the other parts raise
    neither error themselves, a recursion as deep as the view has documents is
    enough, and the collection reports a cycle only when a reachable document needs
    itself. *)
Theorem closure_walk_ends known refs :
  (∀ ref d, view ref = Document d → ref ∈ known) →
  (∀ ref e, view ref = Refused e → foreign e) → (∀ ref yaml, raises_only foreign (validated ref yaml)) →
  raises_only (λ e, e ≠ RecursionError ∧ (e = REFERENCE_CYCLE →
      ∃ root x, root ∈ refs ∧ rtc (needs view) root x ∧ tc (needs view) x x))
    (collect_references view (S (length known)) refs).
Proof.
  intros Hk Hview Hval. apply ro_bind.
  { apply ro_mapM. intros ref _. destruct (new_ref CatalogRef ref); [apply ro_Ok|by apply ro_Raise]. }
  intros ps [-> _]%canonical_refs. apply ro_bind; [|intros; apply ro_Ok].
  apply (ro_foldM _ (λ _, True)); [|done]. intros s ref Hr%elem_of_sorted _. split; [|done].
  intros e He. destruct (visit_depth view known Hk (S (length known)) [] s ref) with (e := e)
    as [Hne Hcy]; try done.
  - apply NoDup_nil_2.
  - by intros a ?%not_elem_of_nil.
  - simpl. lia.
  - split; [done|]. intros Hec. destruct (Hcy Hec) as (x & Hx & Hxx). by exists ref, x.
Qed.
End Closure.

(** ** The captured bytes *)

Section Captured.
Context {grammar : Grammar} (view : CatalogReadView) (fuel : nat) (refs : list string).
Context (entries : list CatalogClosureEntry) (Hcol : collect_references view fuel refs = Ok entries).

Lemma captured_lookup (l : list CatalogClosureEntry) ref :
  NoDup (map ce_ref l) →
  dict_get ref (dict_of (map (λ e, (ce_ref e, e)) l)) = find_first (λ e, bool_decide (ce_ref e = ref)) l.
Proof.
  intros Hnd. set (items := map (λ e, (ce_ref e, e)) l).
  assert (dict_of items = items) as ->.
  { enough (∀ d todo : dict string CatalogClosureEntry, NoDup (dict_keys (d ++ todo)) →
      fold_left (λ d kv, dict_set kv.1 kv.2 d) todo d = d ++ todo) as H.
    { apply (H []). unfold items, dict_keys. by rewrite app_nil_l, map_map. }
    intros d todo. revert d. induction todo as [|[k e] todo IH]; intros d Hd; cbn [fold_left].
    { by rewrite app_nil_r. }
    rewrite dict_set_new, IH; [by rewrite <-app_assoc|by rewrite <-app_assoc|].
    unfold dict_keys in *. rewrite map_app in Hd. apply NoDup_app in Hd as (_ & Hd & _).
    intros Hin. apply (Hd k Hin). by left. }
  unfold items. clear. induction l as [|e l IH]; [done|]. cbn. by repeat case_decide; repeat case_bool_decide; simplify_eq.
Qed.

Lemma captured_document r d :
  closure_view entries r = Document d →
  ∃ e, e ∈ entries ∧ ce_ref e = r ∧ d = {| rd_family := ce_family e;
    rd_preserved_path := ce_preserved_path e; rd_yaml := ce_yaml e |}.
Proof.
  destruct (collect_entries view fuel refs entries Hcol) as (Hnd & _). unfold closure_view.
  rewrite captured_lookup by done. destruct (find_first _ _) as [e|] eqn:E; [|done].
  apply find_first_Some in E as [Hin He%bool_decide_eq_true]. intros [= <-]. eauto.
Qed.

(** On the captured references the two views agree. *)
Lemma captured_good r d v :
  r ∈ map ce_ref entries → good (closure_view entries) r d v ↔ good view r d v.
Proof.
  destruct (collect_entries view fuel refs entries Hcol) as (Hnd & _ & _ & Hgood).
  intros Hr. apply list_elem_of_fmap in Hr as (e & -> & He).
  destruct (Hgood e He) as (d0 & v0 & [Hd0 Hv0] & Ee).
  assert (closure_view entries (ce_ref e) = Document d0) as Hview.
  { unfold closure_view. rewrite captured_lookup by done.
    destruct (find_first _ _) as [e'|] eqn:E.
    - apply find_first_Some in E as [He' Hr%bool_decide_eq_true].
      assert (e' = e) as ->.
      { destruct (Hgood e' He') as (d1 & v1 & [Hd1 _] & E1). rewrite Hr in Hd1, E1. congruence. }
      rewrite Ee. apply rbind_Ok in Hd0 as (fam & _ & H). apply raise_if_Ok in H as [_ H].
      apply rbind_Ok in H as (d2 & _ & H). apply raise_if_Ok in H as [_ H].
      apply raise_if_Ok in H as [Hp%negb_false_iff%bool_decide_eq_true [= <-]].
      cbn. rewrite <-Hp. by destruct d2.
    - rewrite find_first_None in E. specialize (E e He). by rewrite bool_decide_true in E. }
  assert (read_checked (closure_view entries) (ce_ref e) = Ok d0) as Hd0'.
  { unfold read_checked, read in *. rewrite Hview.
    apply rbind_Ok in Hd0 as (fam & Hfam & H). rewrite Hfam. cbn [rbind].
    apply raise_if_Ok in H as [Hf H]. rewrite Hf. apply rbind_Ok in H as (d2 & _ & H). cbn [rbind].
    pose proof H as H'. apply raise_if_Ok in H' as [_ H']. apply raise_if_Ok in H' as [_ [= <-]]. done. }
  unfold good. rewrite Hd0', Hd0. naive_solver.
Qed.

Lemma captured_reach root r :
  root ∈ refs → rtc (needs view) root r ↔ rtc (needs (closure_view entries)) root r.
Proof.
  destruct (collect_entries view fuel refs entries Hcol) as (_ & _ & Hreach & _). intros Hroot.
  assert (∀ x, rtc (needs view) root x → x ∈ map ce_ref entries) as Hin by (intros; apply Hreach; eauto).
  split; revert r.
  - apply rtc_ind_r; [done|]. intros x y Hx (d & v & Hg & Hy) IH. eapply rtc_r; [exact IH|].
    exists d, v. split; [|done]. apply captured_good; auto.
  - apply rtc_ind_r; [done|]. intros x y Hx (d & v & Hg & Hy) IH. eapply rtc_r; [exact IH|].
    exists d, v. split; [|done]. by apply captured_good in Hg; auto.
Qed.

Lemma captured_tc root x y :
  root ∈ refs → rtc (needs view) root x → tc (needs (closure_view entries)) x y → tc (needs view) x y.
Proof.
  destruct (collect_entries view fuel refs entries Hcol) as (_ & _ & Hreach & _). intros Hroot Hx H.
  assert (∀ a b, rtc (needs view) root a → needs (closure_view entries) a b → needs view a b) as Hstep.
  { intros a b Ha (d & v & Hg & Hb). exists d, v. split; [|done]. apply captured_good in Hg; [done|].
    apply Hreach. eauto. }
  induction H as [x y H|x y z H _ IH].
  - constructor. by apply Hstep.
  - eapply tc_l; [by apply Hstep|]. apply IH. eapply rtc_r; [exact Hx|]. by apply Hstep.
Qed.

Lemma captured_collectable : Forall (collectable (closure_view entries)) refs.
Proof.
  destruct (collect_entries view fuel refs entries Hcol) as (_ & _ & Hreach & _).
  pose proof (collected_collectable view fuel refs entries Hcol) as H. rewrite Forall_forall in H |- *.
  intros root Hroot. destruct (H root Hroot) as [Hc Hall]. split; [done|].
  intros x Hx. apply captured_reach in Hx; [|done]. destruct (Hall x Hx) as [(d & v & Hg) Hac]. split.
  - exists d, v. apply captured_good; [|done]. apply Hreach. eauto.
  - intros Htc. apply Hac. by eapply captured_tc.
Qed.

(** Reading the captured entries again gives the same entries. *)
Lemma captured_again fuel' :
  length entries < fuel' → collect_references (closure_view entries) fuel' refs = Ok entries.
Proof.
  intros Hf. destruct (collect_entries view fuel refs entries Hcol) as (Hnd & Hs & Hreach & Hgood).
  destruct (collect_total (closure_view entries) (map ce_ref entries) fuel' refs) as [entries' H'].
  { intros r d (e & He & <- & _)%captured_document. apply list_elem_of_fmap. eauto. }
  { by rewrite length_map. }
  { apply captured_collectable. }
  rewrite H'. destruct (collect_entries _ _ _ _ H') as (Hnd' & Hs' & Hreach' & Hgood').
  f_equal. rewrite Hs, Hs'. apply (sorted_key_unique ce_ref); [|done].
  assert (∀ r, r ∈ map ce_ref entries ↔ r ∈ map ce_ref entries') as Hsame.
  { intros r. rewrite Hreach, Hreach'. split; intros (root & Hr & Hx); exists root;
      (split; [done|]); by apply captured_reach. }
  assert (∀ l, NoDup (map ce_ref l) → NoDup l) as Hnd_of by (intros l; apply NoDup_fmap_1).
  apply NoDup_Permutation; [by apply Hnd_of..|]. intros e. split; intros He.
  - assert (ce_ref e ∈ map ce_ref entries) as Hr.
    { apply Hsame, list_elem_of_fmap. eauto. }
    destruct (Hgood' e He) as (d & v & Hg & Ee). apply captured_good in Hg; [|done].
    apply list_elem_of_fmap in Hr as (e0 & Hr0 & He0). destruct (Hgood e0 He0) as (d0 & v0 & Hg0 & E0).
    rewrite <-Hr0 in Hg0, E0. destruct Hg as [Hg _], Hg0 as [Hg0 _]. congruence.
  - assert (ce_ref e ∈ map ce_ref entries') as Hr.
    { apply Hsame, list_elem_of_fmap. eauto. }
    destruct (Hgood e He) as (d & v & Hg & Ee).
    apply list_elem_of_fmap in Hr as (e0 & Hr0 & He0). destruct (Hgood' e0 He0) as (d0 & v0 & Hg0 & E0).
    rewrite <-Hr0 in Hg0, E0. apply captured_good in Hg0; [|apply list_elem_of_fmap; eauto].
    destruct Hg as [Hg _], Hg0 as [Hg0 _]. congruence.
Qed.
End Captured.
