(* ===== verification/CatalogUpload.v ===== *)
(** * Catalog uploads and their ConfigMaps

    [lib/nodalarc/catalog_upload.py]: the root document of a session and every
    catalog file it needs, within limits, checked to be exactly the closure of the
    root.  [lib/nodalarc/kubernetes_runtime_config.py]: one ConfigMap per file, as
    VS-API writes them and every runtime service reads them back.

    Text is the bytes of its UTF-8 encoding; [decode("utf-8")] refuses bytes that are
    none.  A ConfigMap is what the readers look at of one. *)

From S2P Require Import Prelude.
From S2P Require Import PyData.
From S2P Require Import PyTime.
From S2P Require Import CatalogRefs.
From S2P Require Import TransitionOperation.
From S2P Require Import SessionReconcile.
From S2P Require Import CatalogClosure.
From stdpp Require Import base list strings gmap pretty.
From Stdlib Require Import Ascii.
Local Open Scope Z_scope.

(** ** Uploads *)

Record CatalogUploadLimits := {
  max_root_yaml_bytes : Z;
  max_file_bytes : Z;
  max_file_count : Z;
  max_aggregate_bytes : Z;
}.

Definition DEFAULT_CATALOG_UPLOAD_LIMITS : CatalogUploadLimits :=
  {| max_root_yaml_bytes := 256 * 1024; max_file_bytes := 512 * 1024; max_file_count := 4096;
     max_aggregate_bytes := 16 * 1024 * 1024 |}.

Record CatalogUpload := {
  up_selection : CatalogUploadSelection;
  up_root_yaml : string;
  up_catalog_files : list CatalogClosureEntry;
}.

Definition upload_id (u : CatalogUpload) : string := us_upload_id (up_selection u).

(** [_UPLOAD_ID_PATTERN]. *)
Definition upload_id_ok (s : string) : bool :=
  let plain c := lower c || decimal c in
  match s with
  | EmptyString => false
  | String c rest =>
      plain c && all_chars (λ c, plain c || bool_decide (c = "-"%char)) rest &&
      len_within 0 62 rest &&
      match last_char rest with Some c => plain c | None => true end
  end.

Definition selection_ok (s : CatalogUploadSelection) : bool :=
  upload_id_ok (us_upload_id s) && sha256_digest_ok (us_closure_digest s) &&
  (0 <=? us_file_count s).

Definition UploadError (code : string) : exn := Raised "CatalogUploadError" code.
Definition LIMIT_EXCEEDED : exn := UploadError "catalog_upload.limit_exceeded".
Definition INVALID_UPLOAD : exn := UploadError "catalog_upload.invalid_upload".
Definition CLOSURE_MISMATCH : exn := UploadError "catalog_upload.closure_mismatch".

Definition build_upload (u : CatalogUpload) : result CatalogUpload :=
  raise_if bool_decide (up_root_yaml u = "") with ValueError "root_yaml must not be empty";; Ok u.

Definition check_limit (actual maximum : Z) : result unit :=
  if actual <=? maximum then Ok tt else Raise LIMIT_EXCEEDED.

Definition check_bounds (root_yaml : string) (files : list CatalogClosureEntry)
    (limits : CatalogUploadLimits) : result unit :=
  let! _ := check_limit (text_len root_yaml) (max_root_yaml_bytes limits) in
  let! _ := check_limit (Z.of_nat (length files)) (max_file_count limits) in
  let! _ := check_limit (text_len root_yaml + sum_sizes files) (max_aggregate_bytes limits) in
  foldM (λ _ e,
    raise_if negb (ce_size_bytes e =? text_len (ce_yaml e)) with INVALID_UPLOAD;;
    check_limit (ce_size_bytes e) (max_file_bytes limits)) tt files.

Section Upload.
Context {grammar : Grammar}.

(** The loop that files the entries by their references. *)
Definition file_entry (by_ref : dict string CatalogClosureEntry) (e : CatalogClosureEntry) :
    result (dict string CatalogClosureEntry) :=
  raise_if dict_mem (ce_ref e) by_ref with CLOSURE_MISMATCH;;
  raise_if negb (bool_decide (sha256_digest (ce_yaml e) = ce_document_digest e)) with INVALID_UPLOAD;;
  Ok (dict_set (ce_ref e) e by_ref).

(** A refusal of the collector is a mismatch; anything else passes. *)
Definition closure_refusal (e : exn) : exn :=
  match e with
  | Raised "CatalogClosureError" _ | KeyError _ => CLOSURE_MISMATCH
  | e => e
  end.

(** [verify_catalog_upload]. *)
Definition verify_catalog_upload (limits : CatalogUploadLimits) (u : CatalogUpload) :
    result CatalogUpload :=
  let files := up_catalog_files u in
  let! _ := check_bounds (up_root_yaml u) files limits in
  let! by_ref := foldM file_entry [] files in
  match collect (closure_view files) (S (length files)) (up_root_yaml u) with
  | Raise e => Raise (closure_refusal e)
  | Ok closure =>
      raise_if negb (bool_decide ((list_to_set (map ce_ref (cc_entries closure)) : gset string) =
                                  list_to_set (dict_keys by_ref))) with CLOSURE_MISMATCH;;
      raise_if negb (bool_decide (cc_closure_digest closure = us_closure_digest (up_selection u)))
        with CLOSURE_MISMATCH;;
      raise_if negb (Z.of_nat (length (cc_entries closure)) =? us_file_count (up_selection u))
        with CLOSURE_MISMATCH;;
      Ok u
  end.

(** [encode_catalog_upload] of a prepared root, its files and their digest. *)
Definition encode_catalog_upload (root_yaml : string) (files : list CatalogClosureEntry)
    (closure_digest new_id : string) (limits : CatalogUploadLimits) : result CatalogUpload :=
  let selection := {| us_upload_id := new_id; us_closure_digest := closure_digest;
                      us_file_count := Z.of_nat (length files) |} in
  raise_if negb (selection_ok selection) with ValueError "invalid catalog upload selection";;
  let! _ := check_bounds root_yaml files limits in
  raise_if negb (bool_decide (catalog_closure_digest files = closure_digest)) with CLOSURE_MISMATCH;;
  let! u := build_upload {| up_selection := selection; up_root_yaml := root_yaml;
                            up_catalog_files := files |} in
  verify_catalog_upload limits u.
End Upload.

(** ** ConfigMaps *)

(** A mapping of an API object, as [_string_mapping] judges it. *)
Inductive StringMap :=
| Absent
| Strings (m : gmap string string)
| NotStrings.

Record ConfigMap := {
  cm_api_version : option string;
  cm_kind : option string;
  cm_immutable : bool;
  cm_has_binary_data : bool;
  cm_has_owners : bool;
  cm_name : option string;
  cm_namespace : option string;
  cm_uid : option string;
  cm_labels : StringMap;
  cm_annotations : StringMap;
  cm_data : StringMap;
  cm_created : option datetime;
}.

(** The creation body of one. *)
Record ConfigMapBody := {
  cb_name : string;
  cb_namespace : string;
  cb_labels : gmap string string;
  cb_annotations : gmap string string;
  cb_data : gmap string string;
}.

Definition CATALOG_UPLOAD_LABEL : string := "nodalarc.io/catalog-upload".
Definition CATALOG_REF_ANNOTATION : string := "nodalarc.io/catalog-ref".
Definition CATALOG_DOCUMENT_KEY : string := "document.yaml".

Definition RuntimeConfigError (code : string) : exn := Raised "KubernetesRuntimeConfigError" code.
Definition INVALID_CONFIG_MAP : exn :=
  RuntimeConfigError "kubernetes_runtime_config.invalid_config_map".
Definition INVALID_UPLOAD_FILE : exn :=
  RuntimeConfigError "kubernetes_runtime_config.invalid_upload".

Definition string_mapping (m : StringMap) : result (gmap string string) :=
  match m with Absent => Ok ∅ | Strings m => Ok m | NotStrings => Raise INVALID_CONFIG_MAP end.

(** The last digits of a number. *)
Fixpoint digits (n : nat) (k : Z) (rest : string) : string :=
  match n with
  | O => rest
  | S n => digits n (k / 10) (String (ascii_of_N (Z.to_N (48 + k mod 10))) rest)
  end.
(** [f"-{order:06d}"]. *)
Definition order_suffix (order : Z) : string :=
  "-" +:+ (if order <? 1000000 then digits 6 order ""
           else pretty (order / 1000000) +:+ digits 6 (order mod 1000000) "").

Fixpoint rstrip_dash (s : string) : string :=
  match s with
  | EmptyString => ""
  | String c rest =>
      match rstrip_dash rest with
      | EmptyString => if bool_decide (c = "-"%char) then "" else String c ""
      | kept => String c kept
      end
  end.

Definition catalog_upload_config_map_name (id : string) (order : Z) : string :=
  let suffix := order_suffix order in
  rstrip_dash (clip (63 - String.length suffix) id) +:+ suffix.

(** Whether bytes are UTF-8: the ranges the coming continuation bytes lie in. *)
Definition utf8_lead (b : Z) : option (list (Z * Z)) :=
  let tail := (128, 191) in
  if b <? 128 then Some []
  else if (194 <=? b) && (b <=? 223) then Some [tail]
  else if b =? 224 then Some [(160, 191); tail]
  else if b =? 237 then Some [(128, 159); tail]
  else if (225 <=? b) && (b <=? 239) then Some [tail; tail]
  else if b =? 240 then Some [(144, 191); tail; tail]
  else if (241 <=? b) && (b <=? 243) then Some [tail; tail; tail]
  else if b =? 244 then Some [(128, 143); tail; tail]
  else None.
Fixpoint utf8_from (pending : list (Z * Z)) (s : string) : bool :=
  match s, pending with
  | EmptyString, [] => true
  | EmptyString, _ => false
  | String c s, (lo, hi) :: pending =>
      let b := Z.of_N (N_of_ascii c) in (lo <=? b) && (b <=? hi) && utf8_from pending s
  | String c s, [] =>
      match utf8_lead (Z.of_N (N_of_ascii c)) with
      | Some pending => utf8_from pending s
      | None => false
      end
  end.
Definition utf8_ok (s : string) : bool := utf8_from [] s.

Definition encode_catalog_upload_config_map (namespace id : string) (order : Z)
    (e : CatalogClosureEntry) : result ConfigMapBody :=
  raise_if negb (utf8_ok (ce_yaml e)) with INVALID_UPLOAD_FILE;;
  Ok {| cb_name := catalog_upload_config_map_name id order; cb_namespace := namespace;
        cb_labels := {[CATALOG_UPLOAD_LABEL := id]};
        cb_annotations := {[CATALOG_REF_ANNOTATION := ce_ref e]};
        cb_data := {[CATALOG_DOCUMENT_KEY := ce_yaml e]} |}.

Record ConfigMapMetadataIdentity := {
  mi_name : string;
  mi_namespace : string;
  mi_uid : string;
}.

Definition config_map_metadata_identity (cm : ConfigMap) : result ConfigMapMetadataIdentity :=
  match nonempty_string (cm_name cm), nonempty_string (cm_namespace cm), nonempty_string (cm_uid cm)
  with
  | Some name, Some namespace, Some uid =>
      Ok {| mi_name := name; mi_namespace := namespace; mi_uid := uid |}
  | _, _, _ => Raise INVALID_CONFIG_MAP
  end.

(** The identity of an upload's ConfigMap and the upload it belongs to. *)
Definition catalog_upload_config_map_identity (cm : ConfigMap) :
    result (ConfigMapMetadataIdentity * string) :=
  let! who := config_map_metadata_identity cm in
  let! labels := string_mapping (cm_labels cm) in
  let! id := or_raise (nonempty_string (labels !! CATALOG_UPLOAD_LABEL)) INVALID_CONFIG_MAP in
  Ok (who, id).

Record CatalogUploadConfigMap := {
  uc_name : string;
  uc_uid : string;
  uc_entry : CatalogClosureEntry;
}.

Definition decode_catalog_upload_config_map (namespace id : string) (cm : ConfigMap) :
    result CatalogUploadConfigMap :=
  let! '(who, _) := catalog_upload_config_map_identity cm in
  raise_if negb (bool_decide (mi_namespace who = namespace)) with INVALID_CONFIG_MAP;;
  raise_if negb (bool_decide (cm_api_version cm ∈ [None; Some "v1"])) ||
           negb (bool_decide (cm_kind cm ∈ [None; Some "ConfigMap"])) with INVALID_CONFIG_MAP;;
  raise_if cm_immutable cm with INVALID_CONFIG_MAP;;
  raise_if cm_has_binary_data cm with INVALID_CONFIG_MAP;;
  raise_if cm_has_owners cm with INVALID_CONFIG_MAP;;
  let! labels := string_mapping (cm_labels cm) in
  raise_if negb (bool_decide (labels = {[CATALOG_UPLOAD_LABEL := id]})) with INVALID_CONFIG_MAP;;
  let! annotations := string_mapping (cm_annotations cm) in
  raise_if negb (bool_decide (dom annotations = ({[CATALOG_REF_ANNOTATION]} : gset string)))
    with INVALID_CONFIG_MAP;;
  let! value := or_raise (annotations !! CATALOG_REF_ANNOTATION) INVALID_CONFIG_MAP in
  let! ref := match new_ref CatalogRef value with Ok r => Ok r | Raise _ => Raise INVALID_CONFIG_MAP end in
  let! family := or_raise (family_of ref) INVALID_CONFIG_MAP in
  let! data := string_mapping (cm_data cm) in
  raise_if negb (bool_decide (dom data = ({[CATALOG_DOCUMENT_KEY]} : gset string)))
    with INVALID_CONFIG_MAP;;
  let! content := or_raise (data !! CATALOG_DOCUMENT_KEY) INVALID_CONFIG_MAP in
  Ok {| uc_name := mi_name who; uc_uid := mi_uid who;
        uc_entry := {| ce_ref := ref; ce_family := family;
                       ce_preserved_path := preserved_catalog_path ref; ce_yaml := content;
                       ce_document_digest := sha256_digest content;
                       ce_size_bytes := text_len content |} |}.

(** The resources by reference, and the names seen. *)
Definition add_resource (namespace id : string)
    (seen : dict string CatalogUploadConfigMap * list string) (cm : ConfigMap) :
    result (dict string CatalogUploadConfigMap * list string) :=
  let '(resources, names) := seen in
  let! resource := decode_catalog_upload_config_map namespace id cm in
  raise_if bool_decide (uc_name resource ∈ names) with INVALID_CONFIG_MAP;;
  raise_if dict_mem (ce_ref (uc_entry resource)) resources with INVALID_CONFIG_MAP;;
  Ok (dict_set (ce_ref (uc_entry resource)) resource resources, uc_name resource :: names).

Definition decode_catalog_upload_config_maps (namespace root_yaml : string)
    (selection : CatalogUploadSelection) (items : list ConfigMap) :
    result (CatalogUpload * list CatalogUploadConfigMap) :=
  let! '(resources, _) := foldM (add_resource namespace (us_upload_id selection)) ([], []) items in
  let ordered := omap (λ ref, dict_get ref resources) (sorted str_lt (dict_keys resources)) in
  let! u := build_upload {| up_selection := selection; up_root_yaml := root_yaml;
                            up_catalog_files := map uc_entry ordered |} in
  Ok (u, ordered).
