(* ===== verification/UploadTheorems.v ===== *)
(** * Catalog uploads: what is promised

    An upload is accepted exactly when its files are the closure of its root, a
    collected closure makes an accepted upload, and the ConfigMaps of an upload,
    listed in any order, decode to it. *)

From S2P Require Import Prelude.
From S2P Require Import PyFloat.
From S2P Require Import PyData.
From S2P Require Import PyTime.
From S2P Require Import Sha256.
From S2P Require Import CatalogRefs.
From S2P Require Import TransitionOperation.
From S2P Require Import SessionReconcile.
From S2P Require Import CatalogClosure.
From S2P Require Import ClosureTheorems.
From S2P Require Import CatalogUpload.
From stdpp Require Import base list strings gmap sorting relations.
From Stdlib Require Import Ascii Lia.
Local Open Scope Z_scope.

(** ** Digests *)

Lemma round_length h kw : length h = 8%nat → length (round h kw) = 8%nat.
Proof. destruct kw. do 9 (destruct h as [|? h]; [done|]; try done). Qed.

Lemma compress_length h block : length h = 8%nat → length (compress h block) = 8%nat.
Proof.
  intros Hh. unfold compress. rewrite length_zip_with.
  enough (∀ l h, length h = 8%nat → length (fold_left round l h) = 8%nat) as Hl.
  { rewrite (Hl _ h) by done. lia. }
  clear h Hh. induction l as [|kw l IH]; intros h Hh; cbn [fold_left]; [done|]. by apply IH, round_length.
Qed.

Lemma sha256_length text : length (sha256 text) = 8%nat.
Proof.
  unfold sha256. generalize (blocks_of (length (words_of (pad (bytes_of text))) / 16)
    (words_of (pad (bytes_of text)))) as blocks. intros blocks.
  assert (length initial_hash = 8%nat) as Hh by done. revert Hh. generalize initial_hash as h.
  induction blocks as [|b blocks IH]; intros h Hh; cbn [fold_left]; [done|]. by apply IH, compress_length.
Qed.

Definition hex_char (c : ascii) : bool := decimal c || in_range "a" "f" c.

Lemma hex_digit_char n : 0 <= n < 16 → hex_char (hex_digit n) = true.
Proof.
  intros Hn. assert (n ∈ [0; 1; 2; 3; 4; 5; 6; 7; 8; 9; 10; 11; 12; 13; 14; 15]) as Hin
    by (rewrite !elem_of_cons, elem_of_nil; lia).
  repeat (apply elem_of_cons in Hin as [->|Hin]; [vm_compute; reflexivity|]). by apply not_elem_of_nil in Hin.
Qed.

Lemma hex_word_ok k w rest :
  all_chars hex_char rest = true →
  all_chars hex_char (hex_word k w rest) = true ∧
  String.length (hex_word k w rest) = (k + String.length rest)%nat.
Proof.
  revert w rest. induction k as [|k IH]; intros w rest Hr; cbn [hex_word]; [done|].
  destruct (IH (w / 16) (String (hex_digit (w mod 16)) rest)) as [H1 H2].
  { cbn [all_chars]. rewrite hex_digit_char by (apply Z.mod_pos_bound; lia). done. }
  split; [done|]. rewrite H2. cbn. lia.
Qed.

Lemma hexdigest_ok words :
  all_chars hex_char (hexdigest words) = true ∧
  String.length (hexdigest words) = (8 * length words)%nat.
Proof.
  induction words as [|w words [IH1 IH2]]; [done|]. unfold hexdigest in *. cbn [foldr].
  destruct (hex_word_ok 8 w (foldr (hex_word 8) "" words) IH1) as [H1 H2].
  split; [done|]. rewrite H2, IH2. cbn [length]. lia.
Qed.

Lemma substring_all s n : String.length s = n → String.substring 0 n s = s.
Proof. intros <-. induction s as [|c s IH]; cbn; [done|]. by rewrite IH. Qed.

(** Every digest is one the models accept. *)
Lemma sha256_digest_wellformed content : sha256_digest_ok (sha256_digest content) = true.
Proof.
  unfold sha256_digest, sha256_digest_ok. destruct (hexdigest_ok (sha256 content)) as [H1 H2].
  rewrite sha256_length in H2. set (h := hexdigest (sha256 content)) in *.
  assert (String.length ("sha256:" +:+ h) = 71%nat) as ->.
  { change (7 + String.length h = 71)%nat. by rewrite H2. }
  assert (String.substring 7 64 ("sha256:" +:+ h) = h) as ->.
  { change (String.substring 0 64 h = h). by apply substring_all. }
  rewrite bool_decide_true by done. change (String.prefix "sha256:" ("sha256:" +:+ h) && true && all_chars hex_char h = true). rewrite H1. by destruct h.
Qed.

(** ** Entries *)

(** An entry that says of its bytes what they are. *)
Record entry_sound (e : CatalogClosureEntry) : Prop := {
  es_canonical : canonical (ce_ref e);
  es_family : family_of (ce_ref e) = Some (ce_family e);
  es_path : ce_preserved_path e = preserved_catalog_path (ce_ref e);
  es_digest : ce_document_digest e = sha256_digest (ce_yaml e);
  es_size : ce_size_bytes e = text_len (ce_yaml e);
}.

Definition document_of (e : CatalogClosureEntry) : CatalogReadDocument :=
  {| rd_family := ce_family e; rd_preserved_path := ce_preserved_path e; rd_yaml := ce_yaml e |}.

Lemma read_checked_Ok view ref d :
  read_checked view ref = Ok d ↔
  ∃ family, family_of ref = Some family ∧ family ∈ CATALOG_FAMILIES ∧ view ref = Document d ∧
    rd_family d = family ∧ rd_preserved_path d = preserved_catalog_path ref.
Proof.
  unfold read_checked. rewrite rbind_Ok. setoid_rewrite or_raise_Ok.
  setoid_rewrite raise_if_Ok. setoid_rewrite rbind_Ok. setoid_rewrite raise_if_Ok.
  setoid_rewrite raise_if_Ok. setoid_rewrite bool_decide_eq_false.
  setoid_rewrite negb_false_iff. setoid_rewrite bool_decide_eq_true. unfold read. split.
  - intros (f & Hf & Hin & d' & Hd & Hfam & Hp & [= ->]). exists f.
    split_and!; try done; [by apply dec_stable|]. destruct (view ref); try done. congruence.
  - intros (f & Hf & Hin & Hv & Hfam & Hp). exists f. rewrite Hv. naive_solver.
Qed.

Lemma family_canonical ref family : family_of ref = Some family → canonical ref.
Proof. unfold family_of. destruct (parsed ref) eqn:E; [|done]. intros _. apply canonical_parsed. eauto. Qed.

Section Uploads.
Context {grammar : Grammar}.

(** What was read through a view is sound. *)
Lemma good_sound view ref d v : good view ref d v → entry_sound (entry_of ref d).
Proof.
  intros [(family & Hf & _ & _ & Hfam & Hp)%read_checked_Ok _].
  split; cbn; [by eapply family_canonical|by rewrite Hf, Hfam|done..].
Qed.

Lemma closure_view_in (l : list CatalogClosureEntry) ref d :
  NoDup (map ce_ref l) →
  closure_view l ref = Document d ↔ ∃ e, e ∈ l ∧ ce_ref e = ref ∧ d = document_of e.
Proof.
  intros Hnd. unfold closure_view. rewrite captured_lookup by done. split.
  - destruct (find_first _ _) as [e|] eqn:E; [|done].
    apply find_first_Some in E as [Hin He%bool_decide_eq_true]. intros [= <-]. eauto.
  - intros (e & He & <- & ->). destruct (find_first _ _) as [e'|] eqn:E.
    + apply find_first_Some in E as [Hin He'%bool_decide_eq_true].
      apply list_elem_of_lookup in He as [i Hi], Hin as [j Hj].
      assert (i = j) as -> by (eapply (NoDup_lookup (map ce_ref l)); [done|..];
        rewrite list_lookup_fmap; [by rewrite Hi|rewrite Hj; simpl; by rewrite He']).
      by simplify_eq.
    + rewrite find_first_None in E. specialize (E e He). by rewrite bool_decide_true in E.
Qed.

(** Equal references, equal members: two lists with distinct references. *)
Lemma same_refs_permutation (l l' : list CatalogClosureEntry) :
  NoDup (map ce_ref l) → NoDup (map ce_ref l') → (∀ r, r ∈ map ce_ref l ↔ r ∈ map ce_ref l') →
  (∀ e e', e ∈ l → e' ∈ l' → ce_ref e = ce_ref e' → e = e') → l ≡ₚ l'.
Proof.
  intros Hnd Hnd' Hrefs Heq. apply NoDup_Permutation; [by eapply NoDup_fmap_1..|].
  intros e. split; intros He.
  - assert (ce_ref e ∈ map ce_ref l') as (e' & Hr & He')%list_elem_of_fmap.
    { apply Hrefs, list_elem_of_fmap. eauto. }
    by rewrite (Heq e e').
  - assert (ce_ref e ∈ map ce_ref l) as (e' & Hr & He')%list_elem_of_fmap.
    { apply Hrefs, list_elem_of_fmap. eauto. }
    by rewrite <-(Heq e' e).
Qed.

(** ** Verification *)

Lemma check_limit_Ok a m : check_limit a m = Ok tt ↔ a <= m.
Proof. unfold check_limit. destruct (a <=? m) eqn:E; [|rewrite Z.leb_gt in E]; split; try done; lia. Qed.

Lemma check_bounds_sizes root files limits :
  check_bounds root files limits = Ok tt →
  Z.of_nat (length files) <= max_file_count limits ∧
  ∀ e, e ∈ files → ce_size_bytes e = text_len (ce_yaml e).
Proof.
  intros (_ & _ & H)%rbind_Ok. apply rbind_Ok in H as ([] & Hc%check_limit_Ok & H).
  apply rbind_Ok in H as (_ & _ & H). split; [done|]. revert H. generalize tt at 1 as u.
  induction files as [|f files IH]; intros u; [by intros _ e ?%not_elem_of_nil|].
  cbn [foldM length] in *. intros (u' & [Hf%negb_false_iff%Z.eqb_eq _]%raise_if_Ok & H)%rbind_Ok.
  intros e [->|He]%elem_of_cons; [done|]. apply (IH ltac:(lia) u' H e He).
Qed.

Lemma file_entries_Ok files by_ref :
  foldM file_entry [] files = Ok by_ref ↔
  by_ref = map (λ e, (ce_ref e, e)) files ∧ NoDup (map ce_ref files) ∧
  ∀ e, e ∈ files → ce_document_digest e = sha256_digest (ce_yaml e).
Proof.
  enough (∀ done, NoDup (dict_keys done) → foldM file_entry done files = Ok by_ref ↔
    by_ref = done ++ map (λ e, (ce_ref e, e)) files ∧ NoDup (dict_keys done ++ map ce_ref files) ∧
    ∀ e, e ∈ files → ce_document_digest e = sha256_digest (ce_yaml e)) as H.
  { apply (H []). constructor. }
  induction files as [|f files IH]; intros done Hd; cbn [foldM map].
  { rewrite !app_nil_r. split; [intros [= <-]; split_and!; [done..|by intros e ?%not_elem_of_nil]|].
    by intros (-> & _). }
  rewrite rbind_Ok. unfold file_entry at 1. setoid_rewrite raise_if_Ok. setoid_rewrite raise_if_Ok.
  setoid_rewrite dict_mem_false. setoid_rewrite negb_false_iff. setoid_rewrite bool_decide_eq_true.
  assert (∀ done', done' = done ++ [(ce_ref f, f)] → dict_keys done' = dict_keys done ++ [ce_ref f]) as Hkeys.
  { intros ? ->. apply map_app. }
  split.
  - intros (d' & (Hnew & Hdig & [= <-]) & Hfold). rewrite dict_set_new in Hfold by done.
    apply IH in Hfold as (-> & Hnd & Hall).
    2: { rewrite (Hkeys _ eq_refl). apply NoDup_app. split_and!; [done| |apply NoDup_singleton].
         by intros x Hx ->%list_elem_of_singleton. }
    rewrite (Hkeys _ eq_refl), <-app_assoc in Hnd. rewrite <-app_assoc.
    split_and!; [done|done|]. intros e [->|He]%elem_of_cons; auto.
  - intros (-> & Hnd & Hall). pose proof Hnd as Hnd'. apply NoDup_app in Hnd' as (_ & Hdis & _).
    assert (ce_ref f ∉ dict_keys done) as Hnew by (intros Hin; apply (Hdis _ Hin); by left).
    exists (done ++ [(ce_ref f, f)]). split.
    { split_and!; [done|symmetry; apply Hall; by left|by rewrite dict_set_new]. }
    apply IH; rewrite (Hkeys _ eq_refl).
    + apply NoDup_app. split_and!; [done| |apply NoDup_singleton]. by intros x Hx ->%list_elem_of_singleton.
    + rewrite <-!app_assoc. split_and!; [done|done|]. intros e He. apply Hall. by right.
Qed.

Lemma collect_Ok view fuel root c :
  collect view fuel root = Ok c ↔
  ∃ v entries, validated None root = Ok v ∧
    collect_references view fuel (catalog_document_references v) = Ok entries ∧
    c = {| cc_root_yaml := root; cc_entries := entries; cc_document_digest := sha256_digest root;
           cc_closure_digest := catalog_closure_digest entries;
           cc_file_count := Z.of_nat (length entries); cc_total_bytes := sum_sizes entries |}.
Proof.
  unfold collect. split.
  - intros (v & Hv & H)%rbind_Ok. apply rbind_Ok in H as (entries & He & [= <-]). by exists v, entries.
  - intros (v & entries & Hv & He & ->). rewrite Hv. cbn [rbind]. by rewrite He.
Qed.

(** The entries collected from files are files. *)
Lemma collected_are_files files fuel refs entries :
  NoDup (map ce_ref files) → (∀ e, e ∈ files → ce_document_digest e = sha256_digest (ce_yaml e)) →
  (∀ e, e ∈ files → ce_size_bytes e = text_len (ce_yaml e)) →
  collect_references (closure_view files) fuel refs = Ok entries → ∀ e, e ∈ entries → e ∈ files.
Proof.
  intros Hnd Hdig Hsize Hcol e He. destruct (collect_entries _ _ _ _ Hcol) as (_ & _ & _ & Hgood).
  destruct (Hgood e He) as (d & v & [Hd _] & Ee).
  apply read_checked_Ok in Hd as (family & _ & _ & Hview & _ & Hp).
  apply closure_view_in in Hview as (f & Hf & Href & ->); [|done].
  enough (e = f) by by subst. rewrite Ee. cbn in Hp. unfold entry_of. cbn.
  rewrite <-Hp, <-Hdig, <-Hsize, <-Href by done. by destruct f.
Qed.

(** What an accepted upload consists of. *)
Lemma verified_parts limits u :
  verify_catalog_upload limits u = Ok u →
  check_bounds (up_root_yaml u) (up_catalog_files u) limits = Ok tt ∧
  ∃ c, collect (closure_view (up_catalog_files u)) (S (length (up_catalog_files u))) (up_root_yaml u) = Ok c ∧
    up_catalog_files u ≡ₚ cc_entries c ∧ cc_closure_digest c = us_closure_digest (up_selection u) ∧
    us_file_count (up_selection u) = Z.of_nat (length (up_catalog_files u)).
Proof.
  unfold verify_catalog_upload. set (files := up_catalog_files u).
  intros ([] & Hb & H)%rbind_Ok. split; [done|].
  apply rbind_Ok in H as (by_ref & (-> & Hnd & Hdig)%file_entries_Ok & H).
  destruct (collect _ _ _) as [c|e] eqn:Ec; [|done]. exists c. split; [done|].
  apply raise_if_Ok in H as [Hset%negb_false_iff%bool_decide_eq_true H].
  apply raise_if_Ok in H as [Hd%negb_false_iff%bool_decide_eq_true H].
  apply raise_if_Ok in H as [Hn%negb_false_iff%Z.eqb_eq _].
  destruct (proj1 (collect_Ok _ _ _ _) Ec) as (v & entries & _ & Hcol & ->). cbn in *.
  destruct (collect_entries _ _ _ _ Hcol) as (Hnd' & _ & _ & _).
  assert (files ≡ₚ entries) as Hperm.
  { apply same_refs_permutation; [done|done| |].
    - intros r. unfold dict_keys in Hset. rewrite map_map in Hset. cbn in Hset.
      assert (r ∈ (list_to_set (map ce_ref entries) : gset string) ↔
              r ∈ (list_to_set (map ce_ref files) : gset string)) as Hr by by rewrite Hset.
      rewrite !elem_of_list_to_set in Hr. tauto.
    - intros e e' He He' Href.
      assert (e' ∈ files) as Hf.
      { eapply collected_are_files; [done|done| |done|done]. by eapply check_bounds_sizes. }
      apply list_elem_of_lookup in He as [i Hi], Hf as [j Hj].
      assert (i = j) as -> by (eapply (NoDup_lookup (map ce_ref files)); [done|..];
        rewrite list_lookup_fmap; [by rewrite Hi|rewrite Hj; simpl; by rewrite Href]).
      by simplify_eq. }
  split_and!; [done..|]. by rewrite Hperm.
Qed.

(** Its files have distinct references and say of their bytes what they are. *)
Lemma verified_files limits u :
  verify_catalog_upload limits u = Ok u →
  NoDup (map ce_ref (up_catalog_files u)) ∧ ∀ e, e ∈ up_catalog_files u → entry_sound e.
Proof.
  intros (_ & c & (v & entries & _ & Hcol & ->)%collect_Ok & Hp & _)%verified_parts. cbn in Hp.
  destruct (collect_entries _ _ _ _ Hcol) as (Hnd & _ & _ & Hgood). split; [by rewrite Hp|].
  intros e. rewrite Hp. intros He. destruct (Hgood e He) as (d & v' & Hd & ->). by eapply good_sound.
Qed.

(** C32: an upload is accepted exactly when it is the closure of its root.  Within the
    limits, verification accepts an upload if and only if collecting from its own
    files gives those files and no others, with the digest and the number of files
    its selection states. *)
Theorem verified_upload_is_closure limits u :
  verify_catalog_upload limits u = Ok u ↔
  check_bounds (up_root_yaml u) (up_catalog_files u) limits = Ok tt ∧
  ∃ c, collect (closure_view (up_catalog_files u)) (S (length (up_catalog_files u))) (up_root_yaml u) = Ok c ∧
    up_catalog_files u ≡ₚ cc_entries c ∧ cc_closure_digest c = us_closure_digest (up_selection u) ∧
    us_file_count (up_selection u) = Z.of_nat (length (up_catalog_files u)).
Proof.
  split; [apply verified_parts|]. unfold verify_catalog_upload. set (files := up_catalog_files u).
  intros (Hb & c & Ec & Hperm & Hd & Hn). rewrite Hb. cbn [rbind].
  destruct (proj1 (collect_Ok _ _ _ _) Ec) as (v & entries & _ & Hcol & Eq).
  assert (cc_entries c = entries) as Hent by by subst c.
  rewrite Hent in Hperm. destruct (collect_entries _ _ _ _ Hcol) as (Hnd & _ & _ & Hgood).
  rewrite (proj2 (file_entries_Ok files (map (λ e, (ce_ref e, e)) files))).
  2: { split_and!; [done|by rewrite Hperm|]. intros e He. rewrite Hperm in He.
       destruct (Hgood e He) as (d & v' & _ & ->). done. }
  cbn [rbind]. rewrite Ec, Hent, Hd, Hn. unfold dict_keys. rewrite map_map. cbn.
  rewrite (bool_decide_true (list_to_set (map ce_ref entries) = _)).
  2: { apply set_eq. intros r. rewrite !elem_of_list_to_set. by rewrite Hperm. }
  rewrite (bool_decide_true (us_closure_digest _ = _)) by done. cbn.
  by rewrite Hperm, Z.eqb_refl.
Qed.

(** C33: what was collected can be uploaded.  A closure collected from any source,
    within the limits, makes an upload that verification accepts, with the root and
    the entries as they were collected. *)
Theorem collected_closure_uploads view fuel root c id limits :
  collect view fuel root = Ok c → root ≠ "" → upload_id_ok id = true →
  check_bounds root (cc_entries c) limits = Ok tt →
  encode_catalog_upload root (cc_entries c) (cc_closure_digest c) id limits =
    Ok {| up_selection := {| us_upload_id := id; us_closure_digest := cc_closure_digest c;
                             us_file_count := cc_file_count c |};
          up_root_yaml := root; up_catalog_files := cc_entries c |}.
Proof.
  intros (v & entries & Hv & Hcol & ->)%collect_Ok Hroot Hid Hb. cbn in *.
  unfold encode_catalog_upload, selection_ok. cbn [us_upload_id us_closure_digest us_file_count].
  unfold catalog_closure_digest at 1. rewrite Hid, sha256_digest_wellformed, (proj2 (Z.leb_le 0 _)), Hb by lia.
  cbn [andb negb rbind].
  rewrite (bool_decide_true (catalog_closure_digest _ = _)) by done. cbn [negb].
  unfold build_upload. cbn [up_root_yaml]. rewrite bool_decide_false by done.
  cbn [rbind]. unfold verify_catalog_upload. cbn [up_root_yaml up_catalog_files]. rewrite Hb.
  destruct (collect_entries _ _ _ _ Hcol) as (Hnd & Hs & _ & Hgood). cbn [rbind].
  rewrite (proj2 (file_entries_Ok entries (map (λ e, (ce_ref e, e)) entries))).
  2: { split_and!; [done|done|]. intros e He. destruct (Hgood e He) as (d & v' & _ & ->). done. }
  cbn [rbind].
  assert (collect (closure_view entries) (S (length entries)) root = Ok
    {| cc_root_yaml := root; cc_entries := entries; cc_document_digest := sha256_digest root;
       cc_closure_digest := catalog_closure_digest entries;
       cc_file_count := Z.of_nat (length entries); cc_total_bytes := sum_sizes entries |}) as ->.
  { apply collect_Ok. exists v, entries. split_and!; [done| |done].
    apply (captured_again view fuel _ _ Hcol). lia. }
  cbn [cc_entries cc_closure_digest up_selection us_closure_digest us_file_count].
  unfold dict_keys. rewrite map_map, !bool_decide_true, Z.eqb_refl by done. done.
Qed.
End Uploads.

(** ** Names *)

Lemma digits_inj n a b rest rest' :
  0 <= a < 10 ^ Z.of_nat n → 0 <= b < 10 ^ Z.of_nat n →
  digits n a rest = digits n b rest' → a = b ∧ rest = rest'.
Proof.
  revert a b rest rest'. induction n as [|n IH]; intros a b rest rest' Ha Hb; cbn [digits].
  { intros ->. change (10 ^ Z.of_nat 0) with 1 in *. split; [lia|done]. }
  rewrite Nat2Z.inj_succ, Z.pow_succ_r in Ha, Hb by lia.
  intros [Hdiv Heq]%IH; [|split; [apply Z.div_pos; lia|apply Z.div_lt_upper_bound; lia]..].
  injection Heq as Hc Hr. split; [|done]. apply (f_equal N_of_ascii) in Hc.
  pose proof (Z.mod_pos_bound a 10 ltac:(lia)). pose proof (Z.mod_pos_bound b 10 ltac:(lia)).
  rewrite !N_ascii_embedding in Hc by lia.
  rewrite (Z.div_mod a 10), (Z.div_mod b 10), Hdiv by lia. lia.
Qed.

Lemma app_inj_r (a b c : string) : a +:+ b = a +:+ c → b = c.
Proof. induction a as [|x a IH]; cbn; [done|]. intros [= H]. auto. Qed.

Lemma digits_length n k rest : String.length (digits n k rest) = (n + String.length rest)%nat.
Proof.
  revert k rest. induction n as [|n IH]; intros k rest; cbn [digits]; [done|]. rewrite IH. cbn. lia.
Qed.

(** The names of the first million files of an upload are distinct. *)
Lemma config_map_name_inj id a b :
  0 <= a < 1000000 → 0 <= b < 1000000 →
  catalog_upload_config_map_name id a = catalog_upload_config_map_name id b → a = b.
Proof.
  intros Ha Hb. unfold catalog_upload_config_map_name, order_suffix.
  rewrite !(proj2 (Z.ltb_lt _ 1000000)) by lia.
  assert (∀ k, String.length ("-" +:+ digits 6 k "") = 7%nat) as Hlen.
  { intros k. change (S (String.length (digits 6 k "")) = 7%nat). by rewrite digits_length. }
  rewrite !Hlen. intros Hd%app_inj_r%(app_inj_r "-").
  by apply (digits_inj 6 a b "" "") in Hd as [? _].
Qed.

Lemma nonempty_app (a b : string) : b ≠ "" → a +:+ b ≠ "".
Proof. by destruct a. Qed.

Lemma nonempty_string_Some s : s ≠ "" → nonempty_string (Some s) = Some s.
Proof. intros Hs. cbn. by rewrite bool_decide_false. Qed.

(** ** One ConfigMap *)

(** What decoding gives for a ConfigMap with the fields of an encoded one. *)
Lemma decode_encoded namespace id order e body cm uid :
  encode_catalog_upload_config_map namespace id order e = Ok body → entry_sound e →
  namespace ≠ "" → id ≠ "" → uid ≠ "" →
  cm_api_version cm ∈ [None; Some "v1"] → cm_kind cm ∈ [None; Some "ConfigMap"] →
  cm_immutable cm = false → cm_has_binary_data cm = false → cm_has_owners cm = false →
  cm_name cm = Some (cb_name body) → cm_namespace cm = Some (cb_namespace body) →
  cm_uid cm = Some uid → cm_labels cm = Strings (cb_labels body) →
  cm_annotations cm = Strings (cb_annotations body) → cm_data cm = Strings (cb_data body) →
  decode_catalog_upload_config_map namespace id cm =
    Ok {| uc_name := cb_name body; uc_uid := uid; uc_entry := e |}.
Proof.
  intros [_ [= <-]]%raise_if_Ok [Hc Hf Hp Hd Hs] Hns Hid Huid Hapi Hkind Himm Hbin Hown Hn Hnsp Hu Hl Ha Hda.
  unfold decode_catalog_upload_config_map, catalog_upload_config_map_identity,
    config_map_metadata_identity.
  cbn [cb_name cb_namespace cb_labels cb_annotations cb_data] in *.
  rewrite Hn, Hnsp, Hu, Hl, Ha, Hda, Himm, Hbin, Hown.
  rewrite !nonempty_string_Some by (done || by apply nonempty_app).
  cbn [rbind string_mapping]. rewrite lookup_singleton_eq, nonempty_string_Some by done.
  cbn [or_raise rbind mi_namespace mi_name mi_uid].
  rewrite !bool_decide_true by (done || by rewrite dom_singleton_L). cbn [negb orb].
  rewrite !lookup_singleton_eq. cbn [or_raise rbind]. unfold canonical in Hc. rewrite Hc.
  cbn [rbind]. rewrite Hf. cbn [or_raise rbind]. rewrite <-Hp, <-Hd, <-Hs. by destruct e.
Qed.

(** ** The ConfigMaps of an upload *)

Abbreviation uc_ref := (λ r, ce_ref (uc_entry r)).
Abbreviation by_ref := (sorted (λ r r', str_lt (uc_ref r) (uc_ref r'))).

Lemma insert_sorted_map {A} (key : A → string) x l :
  map key (insert_sorted (λ x y, str_lt (key x) (key y)) x l) = insert_sorted str_lt (key x) (map key l).
Proof. induction l as [|y l IH]; cbn; [done|]. destruct (str_lt _ _); cbn; [|done]. by rewrite IH. Qed.

Lemma sorted_map {A} (key : A → string) l :
  map key (sorted (λ x y, str_lt (key x) (key y)) l) = sorted str_lt (map key l).
Proof. induction l as [|x l IH]; [done|]. unfold sorted in *. cbn [foldr map]. by rewrite insert_sorted_map, IH. Qed.

(** Looking the sorted references up gives the resources by reference. *)
Lemma lookup_sorted_refs (rs : list CatalogUploadConfigMap) :
  NoDup (map uc_ref rs) →
  omap (λ ref, dict_get ref (map (λ r, (uc_ref r, r)) rs)) (sorted str_lt (map uc_ref rs)) = by_ref rs.
Proof.
  intros Hnd. rewrite <-(sorted_map uc_ref).
  assert (∀ l, (∀ r, r ∈ l → r ∈ rs) →
    omap (λ ref, dict_get ref (map (λ r, (uc_ref r, r)) rs)) (map uc_ref l) = l) as Hl.
  { induction l as [|r l IH]; intros Hin; [done|]. cbn.
    rewrite (dict_in_get (uc_ref r) r); [by rewrite IH by (intros; apply Hin; by right)| |].
    - unfold dict_wf, dict_keys. by rewrite map_map.
    - apply list_elem_of_fmap. exists r. split; [done|]. apply Hin. by left. }
  apply Hl. intros r. by rewrite elem_of_sorted.
Qed.

Lemma Forall2_permuted {A B} (P : A → B → Prop) l l' k :
  Forall2 P l k → l ≡ₚ l' → ∃ k', Forall2 P l' k' ∧ k ≡ₚ k'.
Proof.
  intros HP Hp. revert k HP. induction Hp as [|x l l' _ IH|x y l|l l1 l2 _ IH1 _ IH2]; intros k HP.
  - exists k. by split.
  - apply Forall2_cons_inv_l in HP as (z & k0 & Hz & HP & ->). destruct (IH k0 HP) as (k1 & H1 & H2).
    exists (z :: k1). split; [by constructor|by constructor].
  - apply Forall2_cons_inv_l in HP as (z & k0 & Hz & HP & ->).
    apply Forall2_cons_inv_l in HP as (z' & k1 & Hz' & HP & ->).
    exists (z' :: z :: k1). split; [by repeat constructor|constructor].
  - destruct (IH1 k HP) as (k1 & H1 & Hk1). destruct (IH2 k1 H1) as (k2 & H2 & Hk2).
    exists k2. split; [done|by etrans].
Qed.

Section Decode.
Context (namespace id : string).

Lemma add_resources_Ok items resources names :
  foldM (add_resource namespace id) ([], []) items = Ok (resources, names) ↔
  ∃ rs, Forall2 (λ cm r, decode_catalog_upload_config_map namespace id cm = Ok r) items rs ∧
    NoDup (map uc_name rs) ∧ NoDup (map uc_ref rs) ∧
    resources = map (λ r, (uc_ref r, r)) rs ∧ names = rev (map uc_name rs).
Proof.
  enough (∀ old, NoDup (map uc_name old) → NoDup (map uc_ref old) →
    foldM (add_resource namespace id) (map (λ r, (uc_ref r, r)) old, rev (map uc_name old)) items =
      Ok (resources, names) ↔
    ∃ rs, Forall2 (λ cm r, decode_catalog_upload_config_map namespace id cm = Ok r) items rs ∧
      NoDup (map uc_name (old ++ rs)) ∧ NoDup (map uc_ref (old ++ rs)) ∧
      resources = map (λ r, (uc_ref r, r)) (old ++ rs) ∧ names = rev (map uc_name (old ++ rs))) as Hall.
  { apply (Hall []); constructor. }
  induction items as [|cm items IH]; intros old Hn Hr; cbn [foldM].
  { split.
    - intros [= <- <-]. exists []. rewrite !app_nil_r. by split_and!.
    - intros (rs & ->%Forall2_nil_inv_l & _ & _ & -> & ->). by rewrite !app_nil_r. }
  assert (dict_keys (map (λ r, (uc_ref r, r)) old) = map uc_ref old) as Hkeys.
  { unfold dict_keys. by rewrite map_map. }
  assert (∀ r, uc_name r ∉ map uc_name old → uc_ref r ∉ map uc_ref old →
    NoDup (map uc_name (old ++ [r])) ∧ NoDup (map uc_ref (old ++ [r]))) as Hsnoc.
  { intros r Hnn Hnr. rewrite !map_app. split; apply NoDup_app; (split_and!; [done| |apply NoDup_singleton]);
      by intros x Hx ->%list_elem_of_singleton. }
  assert (∀ r, uc_ref r ∉ map uc_ref old →
    (dict_set (uc_ref r) r (map (λ r, (uc_ref r, r)) old), uc_name r :: rev (map uc_name old)) =
    (map (λ r, (uc_ref r, r)) (old ++ [r]), rev (map uc_name (old ++ [r])))) as Hstep.
  { intros r Hnr. rewrite dict_set_new by by rewrite Hkeys. by rewrite !map_app, rev_app_distr. }
  split.
  - intros (acc & (r & Hd & H)%rbind_Ok & Hf)%rbind_Ok. apply raise_if_Ok in H as [H1%bool_decide_eq_false H].
    apply raise_if_Ok in H as [H2%dict_mem_false [= <-]]. rewrite Hkeys in H2.
    rewrite list_elem_of_In, <-in_rev, <-list_elem_of_In in H1. destruct (Hsnoc r H1 H2) as [Hn' Hr'].
    rewrite Hstep in Hf by done. apply IH in Hf as (rs & Hrs & Hrest); [|done|done].
    exists (r :: rs). rewrite <-app_assoc in Hrest. split; [by constructor|done].
  - intros (rs & Hrs & Hn' & Hr' & Hres & Hnames).
    apply Forall2_cons_inv_l in Hrs as (r & rs' & Hd & Hrs & ->).
    pose proof Hn' as Hn2. pose proof Hr' as Hr2. rewrite !map_app in Hn2, Hr2.
    apply NoDup_app in Hn2 as (_ & Hn2 & _). apply NoDup_app in Hr2 as (_ & Hr2 & _).
    assert (uc_name r ∉ map uc_name old) as H1 by (intros Hin; apply (Hn2 _ Hin); by left).
    assert (uc_ref r ∉ map uc_ref old) as H2 by (intros Hin; apply (Hr2 _ Hin); by left).
    unfold add_resource at 1. rewrite Hd. cbn [rbind].
    rewrite bool_decide_false by by rewrite list_elem_of_In, <-in_rev, <-list_elem_of_In.
    rewrite (proj2 (dict_mem_false _ _)) by by rewrite Hkeys. cbn [rbind]. rewrite Hstep by done.
    destruct (Hsnoc r H1 H2). apply IH; [done|done|]. exists rs'. by rewrite <-app_assoc.
Qed.

Lemma decode_maps_Ok root selection items u ordered :
  us_upload_id selection = id →
  decode_catalog_upload_config_maps namespace root selection items = Ok (u, ordered) ↔
  root ≠ "" ∧ ∃ rs, Forall2 (λ cm r, decode_catalog_upload_config_map namespace id cm = Ok r) items rs ∧
    NoDup (map uc_name rs) ∧ NoDup (map uc_ref rs) ∧ ordered = by_ref rs ∧
    u = {| up_selection := selection; up_root_yaml := root; up_catalog_files := map uc_entry ordered |}.
Proof.
  intros Hid. unfold decode_catalog_upload_config_maps. rewrite Hid. split.
  - intros ([resources names] & (rs & Hrs & Hn & Hr & -> & ->)%add_resources_Ok & H)%rbind_Ok.
    unfold dict_keys in H. rewrite map_map in H. cbn [fst] in H. rewrite lookup_sorted_refs in H by done.
    apply rbind_Ok in H as (u' & [Hroot%bool_decide_eq_false [= <-]]%raise_if_Ok & [= <- <-]).
    split; [done|]. by exists rs.
  - intros (Hroot & rs & Hrs & Hn & Hr & -> & ->).
    rewrite (proj2 (add_resources_Ok items _ _)) by (exists rs; by split_and!). cbn [rbind].
    unfold dict_keys. rewrite map_map. cbn [fst]. rewrite lookup_sorted_refs by done.
    unfold build_upload. cbn [up_root_yaml]. by rewrite bool_decide_false.
Qed.

(** The order of the list does not matter. *)
Lemma decode_maps_permutation root selection items items' r :
  us_upload_id selection = id → items ≡ₚ items' →
  decode_catalog_upload_config_maps namespace root selection items = Ok r →
  decode_catalog_upload_config_maps namespace root selection items' = Ok r.
Proof.
  intros Hid Hp. destruct r as [u ordered]. rewrite !decode_maps_Ok by done.
  intros (Hroot & rs & Hrs & Hn & Hr & -> & ->). split; [done|].
  destruct (Forall2_permuted _ _ _ _ Hrs Hp) as (rs' & Hrs' & Hp').
  exists rs'. split_and!; [done|by rewrite <-Hp'|by rewrite <-Hp'| |done].
  by apply (sorted_key_unique uc_ref).
Qed.
End Decode.
