(* ===== verification/UploadStore.v ===== *)
(** * The upload store ([services/vs_api/catalog_upload_store.py])

    VS-API keeps the files of an upload as labelled ConfigMaps: it creates and reads
    them back, deletes them again when the attempt failed, and collects old groups
    nothing uses.  [catalog_upload_lifecycle.py] says which groups are used.

    The Kubernetes API is an argument, [Api]: what it answers as a function of a
    state.  [put] submits its creations to a pool and judges the results when all are
    done; every creation writes a name of its own, so the model runs them in order.
    [ConfigMapServer] is what the API server promises. *)

From S2P Require Import Prelude.
From S2P Require Import PyData.
From S2P Require Import PyTime.
From S2P Require Import CatalogRefs.
From S2P Require Import TransitionOperation.
From S2P Require Import SessionReconcile.
From S2P Require Import CatalogClosure.
From S2P Require Import CatalogUpload.
From stdpp Require Import base list strings gmap.
Local Open Scope Z_scope.

(** ** The API *)

(** A list request names the label and, for one upload, its value. *)
Record Api (W : Type) := {
  a_create : ConfigMapBody → W → W * result ConfigMap;
  a_list : option string → W → W * result (list ConfigMap);
  a_delete : string → W → W * result unit;
}.
Arguments a_create {W} a. Arguments a_list {W} a. Arguments a_delete {W} a.

Definition missing : exn := Raised "ApiException" "404".

(** ** Receipts and errors *)

Record ResourceEvidence := {
  re_name : string;
  re_ref : string;
  re_uid : string;
}.

#[global] Instance resource_evidence_eq_dec : EqDecision ResourceEvidence.
Proof. solve_decision. Defined.

Definition evidence_lt (e e' : ResourceEvidence) : bool := str_lt (re_ref e) (re_ref e').

Record StoreReceipt := {
  sr_selection : CatalogUploadSelection;
  sr_resources : list ResourceEvidence;
}.

Definition build_receipt (r : StoreReceipt) : result StoreReceipt :=
  raise_if negb (Z.of_nat (length (sr_resources r)) =? us_file_count (sr_selection r))
    with ValueError "catalog upload receipt resource count does not match selection";;
  raise_if negb (bool_decide (NoDup (map re_name (sr_resources r))))
    with ValueError "catalog upload receipt contains duplicate resource names";;
  raise_if negb (bool_decide (NoDup (map re_ref (sr_resources r))))
    with ValueError "catalog upload receipt contains duplicate refs";;
  Ok r.

(** The error of a failed [put]: what was created and what could not be removed. *)
Record PutFailure := {
  xf_code : string;
  xf_created : list string;
  xf_cleanup_failures : list string;
}.

Definition StoreFailure (code : string) : exn := Raised "CatalogUploadStoreError" code.
Definition STORE_INVALID_UPLOAD : string := "catalog_upload_store.invalid_upload".
Definition CREATE_FAILED : string := "catalog_upload_store.create_failed".
Definition LIST_FAILED : string := "catalog_upload_store.list_failed".
Definition READBACK_MISMATCH : string := "catalog_upload_store.readback_mismatch".
Definition DELETE_FAILED : string := "catalog_upload_store.delete_failed".

(** The code a failure ends with. *)
Definition failure_code (e : exn) : string :=
  match e with Raised "CatalogUploadStoreError" code => code | _ => CREATE_FAILED end.

Definition wrapped {A} (code : string) (r : result A) : result A :=
  match r with Ok a => Ok a | Raise _ => Raise (StoreFailure code) end.

Section Store.
Context {grammar : Grammar} {W : Type} (api : Api W) (namespace : string).
Context (observer : ResourceEvidence → W → W * result unit).

(** ** Deleting and reading *)

(** [_cleanup]: the names that could not be deleted. *)
Fixpoint cleanup (names : list string) (w : W) : W * list string :=
  match names with
  | [] => (w, [])
  | name :: names =>
      let '(w, r) := a_delete api name w in
      let '(w, failed) := cleanup names w in
      (w, match r with
          | Ok _ => failed
          | Raise e => if bool_decide (e = missing) then failed else name :: failed
          end)
  end.

Definition resource_evidence (r : CatalogUploadConfigMap) : ResourceEvidence :=
  {| re_name := uc_name r; re_ref := ce_ref (uc_entry r); re_uid := uc_uid r |}.

Definition decode_verified (selection : CatalogUploadSelection) (root_yaml : string)
    (items : list ConfigMap) : result (CatalogUpload * list ResourceEvidence) :=
  let! '(u, resources) := decode_catalog_upload_config_maps namespace root_yaml selection items in
  let! _ := verify_catalog_upload DEFAULT_CATALOG_UPLOAD_LIMITS u in
  Ok (u, map resource_evidence resources).

(** [KubernetesCatalogUploadStore.read]. *)
Definition store_read (selection : CatalogUploadSelection) (root_yaml : string) (w : W) :
    W * result (CatalogUpload * list ResourceEvidence) :=
  let '(w, listed) := a_list api (Some (us_upload_id selection)) w in
  (w, let! items := wrapped LIST_FAILED listed in
      wrapped READBACK_MISMATCH (decode_verified selection root_yaml items)).

(** [KubernetesCatalogUploadStore.delete]: the deleted names. *)
Definition store_delete (id : string) (w : W) : W * result (list string) :=
  if bool_decide (id = "") then (w, Raise (TypeError "upload must identify a non-empty upload ID"))
  else
  let '(w, listed) := a_list api (Some id) w in
  match wrapped LIST_FAILED listed with
  | Raise e => (w, Raise e)
  | Ok items =>
      match mapM_r catalog_upload_config_map_identity items with
      | Raise e => (w, Raise e)
      | Ok identities =>
          let names := sorted str_lt (map (λ i, mi_name i.1) identities) in
          let '(w, failed) := cleanup names w in
          (w, if bool_decide (failed = []) then Ok names else Raise (StoreFailure DELETE_FAILED))
      end
  end.

(** ** Putting an upload *)

Definition encode_bodies (u : CatalogUpload) : result (list ConfigMapBody) :=
  mapM_r (λ item : nat * CatalogClosureEntry,
      encode_catalog_upload_config_map namespace (upload_id u) (Z.of_nat item.1) item.2)
    (enumerate (up_catalog_files u)).

Fixpoint create_all (bodies : list ConfigMapBody) (w : W) : W * list (result ConfigMap) :=
  match bodies with
  | [] => (w, [])
  | body :: bodies =>
      let '(w, r) := a_create api body w in
      let '(w, rs) := create_all bodies w in
      (w, r :: rs)
  end.

(** The evidence of a creation, when the server names what was asked for. *)
Definition judge_create (e : CatalogClosureEntry) (body : ConfigMapBody) (r : result ConfigMap) :
    option ResourceEvidence :=
  match (let! cm := r in config_map_metadata_identity cm) with
  | Raise _ => None
  | Ok who =>
      if bool_decide (mi_name who = cb_name body) &&
         bool_decide (mi_namespace who = namespace)
      then Some {| re_name := cb_name body; re_ref := ce_ref e; re_uid := mi_uid who |}
      else None
  end.

Fixpoint judge_creates (items : list (CatalogClosureEntry * ConfigMapBody * result ConfigMap)) :
    list (option ResourceEvidence) :=
  match items with
  | [] => []
  | (e, body, r) :: items => judge_create e body r :: judge_creates items
  end.

Fixpoint observe_all (created : list ResourceEvidence) (w : W) : W * result unit :=
  match created with
  | [] => (w, Ok tt)
  | evidence :: created =>
      match observer evidence w with
      | (w, Ok _) => observe_all created w
      | (w, Raise e) => (w, Raise e)
      end
  end.

(** What was created, once every creation has answered. *)
Definition created_of (u : CatalogUpload) (bodies : list ConfigMapBody)
    (answers : list (result ConfigMap)) : list (option ResourceEvidence) :=
  judge_creates (zip (zip (up_catalog_files u) bodies) answers).

(** The upload as it is read back, against what was created. *)
Definition readback (u : CatalogUpload) (created : list ResourceEvidence) (w : W) :
    W * result StoreReceipt :=
  let '(w, r) := store_read (up_selection u) (up_root_yaml u) w in
  (w, let! '(verified, observed) := r in
      raise_if negb (bool_decide (up_catalog_files verified = up_catalog_files u))
        with StoreFailure READBACK_MISMATCH;;
      raise_if negb (bool_decide ((list_to_set (map re_name observed) : gset string) =
                                  list_to_set (map re_name created)))
        with StoreFailure READBACK_MISMATCH;;
      build_receipt {| sr_selection := up_selection u;
                       sr_resources := sorted evidence_lt observed |}).

(** The attempt: what it created, and how it ended. *)
Definition put_attempt (u : CatalogUpload) (w : W) :
    W * list ResourceEvidence * result StoreReceipt :=
  match wrapped STORE_INVALID_UPLOAD (encode_bodies u) with
  | Raise e => (w, [], Raise e)
  | Ok bodies =>
      let '(w, answers) := create_all bodies w in
      let judged := created_of u bodies answers in
      let created := omap id judged in
      match observe_all created w with
      | (w, Raise e) => (w, created, Raise e)
      | (w, Ok _) =>
          if bool_decide (None ∈ judged) then (w, created, Raise (StoreFailure CREATE_FAILED))
          else let '(w, r) := readback u created w in (w, created, r)
      end
  end.

(** [KubernetesCatalogUploadStore.put]. *)
Definition put (u : CatalogUpload) (w : W) : W * (StoreReceipt + PutFailure) :=
  match verify_catalog_upload DEFAULT_CATALOG_UPLOAD_LIMITS u with
  | Raise _ => (w, inr {| xf_code := STORE_INVALID_UPLOAD; xf_created := [];
                          xf_cleanup_failures := [] |})
  | Ok _ =>
      let '(w, created, r) := put_attempt u w in
      match r with
      | Ok receipt => (w, inl receipt)
      | Raise e =>
          let names := map re_name created in
          let '(w, failed) := cleanup names w in
          (w, inr {| xf_code := failure_code e; xf_created := names; xf_cleanup_failures := failed |})
      end
  end.

(** ** Garbage collection *)

Record GcReceipt := {
  gc_active_upload_ids : list string;
  gc_deleted : list string;
  gc_active : list string;
  gc_grace : list string;
  gc_unsafe : list string;
}.

Abbreviation Groups := (dict string (list (string * ConfigMap))).

(** The groups, and the names of what belongs to none. *)
Definition group_item (acc : Groups * list string) (cm : ConfigMap) : Groups * list string :=
  let '(groups, unsafe) := acc in
  match catalog_upload_config_map_identity cm with
  | Raise _ => (groups, unsafe ++ [default "<unknown>" (nonempty_string (cm_name cm))])
  | Ok (who, id) =>
      if negb (bool_decide (mi_namespace who = namespace)) then
        (groups, unsafe ++ [mi_name who])
      else (dict_set id (default [] (dict_get id groups) ++ [(mi_name who, cm)]) groups, unsafe)
  end.

(** What becomes of a group. *)
Inductive GroupFate := InUse | Unsafe | Young | Old.

Definition group_fate (active : gset string) (cutoff : datetime) (id : string)
    (group : list (string * ConfigMap)) : GroupFate :=
  if bool_decide (id ∈ active) then InUse
  else if existsb (λ item : string * ConfigMap, bool_decide (cm_created item.2 = None)) group then Unsafe
  else if existsb (λ item : string * ConfigMap,
                     match cm_created item.2 with Some t => cutoff <? t | None => false end) group
  then Young
  else Old.

Fixpoint collect_groups (active : gset string) (cutoff : datetime)
    (groups : list (string * list (string * ConfigMap))) (receipt : GcReceipt) (w : W) :
    W * result GcReceipt :=
  match groups with
  | [] =>
      (w, Ok {| gc_active_upload_ids := sorted_set str_lt active;
                gc_deleted := sorted str_lt (gc_deleted receipt);
                gc_active := sorted str_lt (gc_active receipt);
                gc_grace := sorted str_lt (gc_grace receipt);
                gc_unsafe := sorted str_lt (gc_unsafe receipt) |})
  | (id, group) :: groups =>
      let names := sorted str_lt (map fst group) in
      let keep deleted used young unsafe :=
        collect_groups active cutoff groups
          {| gc_active_upload_ids := []; gc_deleted := gc_deleted receipt ++ deleted; gc_active := gc_active receipt ++ used;
             gc_grace := gc_grace receipt ++ young; gc_unsafe := gc_unsafe receipt ++ unsafe |} in
      match group_fate active cutoff id group with
      | InUse => keep [] names [] [] w
      | Unsafe => keep [] [] [] names w
      | Young => keep [] [] names [] w
      | Old =>
          let '(w, failed) := cleanup names w in
          if bool_decide (failed = []) then keep names [] [] [] w
          else (w, Raise (StoreFailure DELETE_FAILED))
      end
  end.

Definition group_lt (g g' : string * list (string * ConfigMap)) : bool := str_lt g.1 g'.1.

(** [KubernetesCatalogUploadStore.garbage_collect] at the time [now]. *)
Definition garbage_collect (grace : Z) (active : gset string) (now : datetime) (w : W) :
    W * result GcReceipt :=
  if bool_decide ("" ∈ active) then
    (w, Raise (TypeError "active_upload_ids must contain non-empty strings"))
  else
  let '(w, listed) := a_list api None w in
  match wrapped LIST_FAILED listed with
  | Raise e => (w, Raise e)
  | Ok items =>
      let '(groups, unsafe) := fold_left group_item items ([], []) in
      collect_groups active (now - grace) (sorted group_lt groups)
        {| gc_active_upload_ids := []; gc_deleted := []; gc_active := []; gc_grace := []; gc_unsafe := unsafe |} w
  end.

Definition DEFAULT_CATALOG_UPLOAD_GC_GRACE : Z := 15 * 60 * 1000000.

(** ** [catalog_upload_lifecycle.py] *)

Definition live_upload_id (live : option ConstellationSpec) : result (option string) :=
  match live with
  | None => Ok None
  | Some cr => let! spec := spec_from_cr cr in Ok (Some (us_upload_id (cs_catalog_upload spec)))
  end.

(** The uploads in use: the live one and that of the transition under way. *)
Definition protected (live : option ConstellationSpec) (active : option StoredTransitionOperation) :
    result (gset string) :=
  raise_if match active with Some op => terminal (op_state op) | None => false end
    with ValueError "active_operation must be nonterminal";;
  let! live_id := live_upload_id live in
  Ok (list_to_set (option_list live_id ++
        option_list (op ← active; pv_upload_id (op_provenance op)))).

Definition reconcile_catalog_upload_lifecycle (grace : Z) (live : option ConstellationSpec)
    (active : option StoredTransitionOperation) (now : datetime) (w : W) : W * result GcReceipt :=
  match protected live active with
  | Raise e => (w, Raise e)
  | Ok ids => garbage_collect grace ids now w
  end.
End Store.

(** ** The server *)

(** What the server keeps of a creation body. *)
Record keeps_body (body : ConfigMapBody) (cm : ConfigMap) : Prop := {
  kb_api : cm_api_version cm ∈ [None; Some "v1"];
  kb_kind : cm_kind cm ∈ [None; Some "ConfigMap"];
  kb_immutable : cm_immutable cm = false;
  kb_binary : cm_has_binary_data cm = false;
  kb_owners : cm_has_owners cm = false;
  kb_name : cm_name cm = Some (cb_name body);
  kb_namespace : cm_namespace cm = Some (cb_namespace body);
  kb_uid : ∃ uid, cm_uid cm = Some uid ∧ uid ≠ "";
  kb_labels : cm_labels cm = Strings (cb_labels body);
  kb_annotations : cm_annotations cm = Strings (cb_annotations body);
  kb_data : cm_data cm = Strings (cb_data body);
}.

(** The label a list request asks for. *)
Definition listed_by (selector : option string) (cm : ConfigMap) : bool :=
  match cm_labels cm with
  | Strings labels =>
      match labels !! CATALOG_UPLOAD_LABEL, selector with
      | Some id, Some wanted => bool_decide (id = wanted)
      | Some _, None => true
      | None, _ => false
      end
  | _ => false
  end.

(** The API server keeps one object per name.  A creation needs a free name; one that
    raised may have happened; a deletion that found nothing says so. *)
Class ConfigMapServer {W} (api : Api W) (namespace : string) (stored : W → gmap string ConfigMap) := {
  cs_named w name cm :
    stored w !! name = Some cm → cm_name cm = Some name ∧ cm_namespace cm = Some namespace;
  cs_list_same selector w : stored (a_list api selector w).1 = stored w;
  cs_list selector w items : (a_list api selector w).2 = Ok items →
    items ≡ₚ List.filter (listed_by selector) (map snd (map_to_list (stored w)));
  cs_create body w :
    let '(w', r) := a_create api body w in
    match r with
    | Ok cm => stored w !! cb_name body = None ∧ keeps_body body cm ∧
               stored w' = <[cb_name body := cm]> (stored w)
    | Raise _ => stored w' = stored w ∨
        stored w !! cb_name body = None ∧ ∃ cm, keeps_body body cm ∧
        stored w' = <[cb_name body := cm]> (stored w)
    end;
  cs_delete name w :
    let '(w', r) := a_delete api name w in
    match r with
    | Ok _ => stored w' = delete name (stored w)
    | Raise e => (e = missing → stored w !! name = None) ∧
                 (stored w' = stored w ∨ stored w' = delete name (stored w))
    end;
}.
