(* ===== verification/StoreTheorems.v ===== *)
(** * The upload store: what is promised

    On a server that keeps one object per name, [put] touches nothing that was there
    before, reports what it could not take back, and succeeds only when every reader
    gets the upload; the garbage collector keeps whatever is in use or young. *)

From S2P Require Import Prelude.
From S2P Require Import PyFloat.
From S2P Require Import PyData.
From S2P Require Import PyTime.
From S2P Require Import CatalogRefs.
From S2P Require Import TransitionOperation.
From S2P Require Import SessionReconcile.
From S2P Require Import CatalogClosure.
From S2P Require Import ClosureTheorems.
From S2P Require Import CatalogUpload.
From S2P Require Import UploadTheorems.
From S2P Require Import UploadStore.
From stdpp Require Import base list strings gmap sorting.
From Stdlib Require Import Lia.
Local Open Scope Z_scope.

Section Store.
Context {grammar : Grammar} {W : Type} (api : Api W) (namespace : string).
Context (observer : ResourceEvidence → W → W * result unit) (stored : W → gmap string ConfigMap).
Context `{!ConfigMapServer api namespace stored}.

(** ** Deleting *)

Lemma delete_spec name w :
  (∀ other, other ≠ name → stored (a_delete api name w).1 !! other = stored w !! other) ∧
  (stored (a_delete api name w).1 !! name = None ∨
   stored (a_delete api name w).1 !! name = stored w !! name) ∧
  (match (a_delete api name w).2 with Ok _ => True | Raise e => e = missing end →
   stored (a_delete api name w).1 !! name = None).
Proof.
  pose proof (cs_delete name w) as H. destruct (a_delete api name w) as [w' [u|e]]; cbn.
  - rewrite H. split_and!; [intros; by rewrite lookup_delete_ne|left|intros _]; by rewrite lookup_delete_eq.
  - destruct H as [Hm [->| ->]].
    + split_and!; [done|by right|done].
    + split_and!; [intros; by rewrite lookup_delete_ne|left|intros _]; by rewrite lookup_delete_eq.
Qed.

(** What a clean-up leaves. *)
Record cleaned (names failed : list string) (m m' : gmap string ConfigMap) : Prop := {
  cn_others name : name ∉ names → m' !! name = m !! name;
  cn_named name : name ∈ names → name ∈ failed ∨ m' !! name = None;
  cn_only name : m' !! name = None ∨ m' !! name = m !! name;
}.

Lemma cleanup_spec names w :
  cleaned names (cleanup api names w).2 (stored w) (stored (cleanup api names w).1).
Proof.
  revert w. induction names as [|name names IH]; intros w; cbn [cleanup].
  { split; [done|by intros name ?%not_elem_of_nil|by right]. }
  destruct (delete_spec name w) as (Hother & Hkept & Hgone).
  destruct (a_delete api name w) as [w1 r]. cbn in *. specialize (IH w1).
  destruct (cleanup api names w1) as [w2 failed]. cbn in *. destruct IH as [H1 H2 H3]. split.
  - intros x [Hx Hxs]%not_elem_of_cons. by rewrite H1, Hother.
  - intros x [->|Hx]%elem_of_cons.
    + assert (match r with Ok _ => True | Raise e => e = missing end →
              stored w2 !! name = None) as Hnone.
      { intros Hr. specialize (Hgone Hr). destruct (H3 name) as [?|Heq]; [done|]. by rewrite Heq. }
      destruct r as [u|e]; [auto|]. case_bool_decide; [auto|]. left. by left.
    + destruct (H2 x Hx) as [Hf|Hf]; [|auto]. left.
      destruct r as [u|e]; [done|]. case_bool_decide; [done|by right].
  - intros x. destruct (H3 x) as [?|Heq]; [by left|]. rewrite Heq.
    destruct (decide (x = name)) as [->|Hx]; [done|]. rewrite Hother by done. by right.
Qed.

(** ** Creating *)








(** ** Putting *)

Hypothesis observer_keeps : ∀ e w, stored (observer e w).1 = stored w.










End Store.

(** ** Garbage collection *)

Section Collect.
Context {grammar : Grammar} {W : Type} (api : Api W) (namespace : string).
Context (stored : W → gmap string ConfigMap).
Context `{!ConfigMapServer api namespace stored}.

(** The place of an object in the group [id]. *)
Definition member (id : string) (cm : ConfigMap) : option (string * ConfigMap) :=
  match catalog_upload_config_map_identity cm with
  | Ok (who, id') =>
      if bool_decide (mi_namespace who = namespace) && bool_decide (id' = id)
      then Some (mi_name who, cm) else None
  | Raise _ => None
  end.

Lemma group_items items acc :
  dict_wf acc.1 →
  dict_wf (fold_left (group_item namespace) items acc).1 ∧
  ∀ id, default [] (dict_get id (fold_left (group_item namespace) items acc).1) =
        default [] (dict_get id acc.1) ++ omap (member id) items.
Proof.
  revert acc. induction items as [|cm items IH]; intros [groups unsafe] Hwf; cbn [fold_left].
  { split; [done|]. intros id. by rewrite app_nil_r. }
  cbn [omap list_omap]. unfold member at 1, group_item at 2 4.
  destruct (catalog_upload_config_map_identity cm) as [[who id']|x]; [|exact (IH (groups, unsafe ++ _) Hwf)].
  case_bool_decide; cbn [negb andb]; [|exact (IH (groups, unsafe ++ _) Hwf)].
  destruct (IH (dict_set id' (default [] (dict_get id' groups) ++ [(mi_name who, cm)]) groups, unsafe))
    as [Hw Hd]; [by apply dict_set_wf|]. split; [done|]. intros id. rewrite Hd. cbn [fst].
  rewrite dict_get_set. destruct (decide _) as [<-|Hne]; case_bool_decide; try done.
  cbn. by rewrite <-app_assoc.
Qed.

Lemma groups_members items id group :
  (id, group) ∈ sorted group_lt (fold_left (group_item namespace) items ([], [])).1 →
  group = omap (member id) items.
Proof.
  destruct (group_items items ([], [])) as [Hwf Hd]; [constructor|].
  rewrite elem_of_sorted. intros Hin%(dict_in_get _ _ _ Hwf). specialize (Hd id). by rewrite Hin in Hd.
Qed.

(** What is gone was in an old group. *)
Lemma collect_groups_spec active cutoff groups receipt w name :
  stored (collect_groups api active cutoff groups receipt w).1 !! name = stored w !! name ∨
  stored (collect_groups api active cutoff groups receipt w).1 !! name = None ∧
  ∃ id group, (id, group) ∈ groups ∧ group_fate active cutoff id group = Old ∧ name ∈ map fst group.
Proof.
  revert receipt w. induction groups as [|[id group] groups IH]; intros receipt w; cbn [collect_groups].
  { by left. }
  assert (∀ receipt w', stored w' !! name = stored w !! name ∨ stored w' !! name = None ∧
      group_fate active cutoff id group = Old ∧ name ∈ map fst group →
    stored (collect_groups api active cutoff groups receipt w').1 !! name = stored w !! name ∨
    stored (collect_groups api active cutoff groups receipt w').1 !! name = None ∧
    ∃ id' group', (id', group') ∈ (id, group) :: groups ∧
      group_fate active cutoff id' group' = Old ∧ name ∈ map fst group') as Hrest.
  { intros receipt' w' Hw'.
    destruct (IH receipt' w') as [Heq|(Hn & id' & g' & Hin & Hrest)].
    - rewrite Heq. destruct Hw' as [?|(Hn & Hold & Hin)]; [by left|]. right. split; [done|].
      exists id, group. split_and!; [by left|done..].
    - right. split; [done|]. exists id', g'. split; [by right|done]. }
  destruct (group_fate active cutoff id group) eqn:Ef; try (apply Hrest; by left).
  pose proof (cleanup_spec api namespace stored (sorted str_lt (map fst group)) w) as [Ho _ Hl].
  destruct (cleanup api (sorted str_lt (map fst group)) w) as [w1 failed]. cbn [fst snd] in *.
  assert (stored w1 !! name = stored w !! name ∨ stored w1 !! name = None ∧ Old = Old ∧ name ∈ map fst group)
    as Hw1.
  { destruct (decide (name ∈ map fst group)) as [Hin|Hout].
    - destruct (Hl name) as [?|?]; [by right|by left].
    - left. apply Ho. by rewrite elem_of_sorted. }
  case_bool_decide; [by apply Hrest|]. cbn. destruct Hw1 as [?|(Hn & _ & Hin)]; [by left|]. right.
  split; [done|]. exists id, group. split_and!; [by left|done..].
Qed.

Lemma existsb_false {A} (f : A → bool) l : existsb f l = false ↔ ∀ x, x ∈ l → f x = false.
Proof.
  induction l as [|y l IH]; cbn; [split; [by intros _ x ?%not_elem_of_nil|done]|].
  rewrite orb_false_iff, IH. setoid_rewrite elem_of_cons. naive_solver.
Qed.

Lemma group_fate_Old active cutoff id group :
  group_fate active cutoff id group = Old ↔
  (id ∉ active) ∧ ∀ item, item ∈ group → ∃ t, cm_created item.2 = Some t ∧ t <= cutoff.
Proof.
  unfold group_fate. case_bool_decide as Ha; [naive_solver|].
  transitivity (existsb (λ item : string * ConfigMap, bool_decide (cm_created item.2 = None)) group = false ∧
    existsb (λ item : string * ConfigMap,
      match cm_created item.2 with Some t => cutoff <? t | None => false end) group = false).
  { destruct (existsb _ group); [by split; [|intros []]|]. by destruct (existsb _ group); naive_solver. }
  rewrite !existsb_false. split.
  - intros [H1 H2]. split; [done|]. intros item Hi. specialize (H1 item Hi). specialize (H2 item Hi).
    apply bool_decide_eq_false in H1. destruct (cm_created item.2) as [t|]; [|done].
    apply Z.ltb_ge in H2. eauto.
  - intros [_ H]. split; intros item Hi; destruct (H item Hi) as (t & -> & Ht).
    + by apply bool_decide_eq_false.
    + by apply Z.ltb_ge.
Qed.

(** The objects of an upload that can be identified. *)
Definition belongs (id : string) (cm : ConfigMap) : Prop :=
  ∃ who, catalog_upload_config_map_identity cm = Ok (who, id).

Lemma identity_parts cm who id :
  catalog_upload_config_map_identity cm = Ok (who, id) →
  cm_name cm = Some (mi_name who) ∧ cm_namespace cm = Some (mi_namespace who) ∧ listed_by None cm = true.
Proof.
  unfold catalog_upload_config_map_identity, config_map_metadata_identity, listed_by, nonempty_string.
  intros H. repeat (case_match; simplify_eq/=; try done).
Qed.

Lemma listed_stored selector w items cm :
  (a_list api selector w).2 = Ok items →
  cm ∈ items ↔ (∃ name, stored w !! name = Some cm) ∧ listed_by selector cm = true.
Proof.
  intros Hp%cs_list. rewrite Hp, list_elem_of_In, filter_In, <-list_elem_of_In.
  apply and_iff_compat_r. rewrite list_elem_of_fmap. split.
  - intros ([name cm'] & -> & Hin). apply elem_of_map_to_list in Hin. eauto.
  - intros [name Hn]. exists (name, cm). split; [done|by apply elem_of_map_to_list].
Qed.

Lemma member_stored w name cm id item :
  stored w !! name = Some cm → member id cm = Some item ↔ belongs id cm ∧ item = (name, cm).
Proof.
  intros Hs. destruct (cs_named w name cm Hs) as [Hn Hns]. unfold member, belongs. split.
  - destruct (catalog_upload_config_map_identity cm) as [[who id']|x] eqn:E; [|done].
    destruct (identity_parts _ _ _ E) as (H1 & H2 & _). rewrite H1 in Hn. injection Hn as ->.
    case_bool_decide; [|done]. case_bool_decide; [|done]. intros [= <-]. subst. eauto.
  - intros [[who Hw] ->]. rewrite Hw. destruct (identity_parts _ _ _ Hw) as (H1 & H2 & _).
    rewrite !bool_decide_true by congruence. cbn. congruence.
Qed.

(** C36: what is in use or young is kept.  When the collection of old uploads leaves a
    stored object changed, the object is gone and its upload is neither that of the
    live session nor that of a transition under way; and every object of the same
    upload has a known creation time, at least the grace period ago. *)
Theorem collection_spares_used grace live active now w name cm :
  stored w !! name = Some cm →
  let '(w', r) := reconcile_catalog_upload_lifecycle api namespace grace live active now w in
  stored w' !! name = Some cm ∨
  stored w' !! name = None ∧ ∃ ids id,
    protected live active = Ok ids ∧ (id ∉ ids) ∧ belongs id cm ∧
    ∀ name' cm', stored w !! name' = Some cm' → belongs id cm' →
      ∃ t, cm_created cm' = Some t ∧ t <= now - grace.
Proof.
  intros Hs. unfold reconcile_catalog_upload_lifecycle, garbage_collect.
  destruct (protected live active) as [ids|x] eqn:Ep; [|by left]. case_bool_decide; [by left|].
  pose proof (cs_list_same None w) as Hsame. pose proof (listed_stored None w) as Hl.
  destruct (a_list api None w) as [w1 [items|x]]; cbn in *; [|left; congruence].
  specialize (Hl items). pose proof (groups_members items) as Hg.
  destruct (fold_left (group_item namespace) items ([], [])) as [groups unsafe].
  match goal with |- context [collect_groups ?a ?b ?c ?d ?e ?f] =>
    pose proof (collect_groups_spec b c d e f name) as Hc; destruct (collect_groups a b c d e f) as [w2 r] end.
  cbn in *. rewrite Hsame in Hc. destruct Hc as [->|(Hnone & id & group & Hin & [Hid Hold]%group_fate_Old & Hname)];
    [by left|]. right. split; [done|]. exists ids, id. apply Hg in Hin as ->.
  apply list_elem_of_fmap in Hname as ([n cm0] & -> & (cm1 & Hi & Hm)%list_elem_of_omap).
  destruct (proj1 (Hl cm1 eq_refl) Hi) as [[n1 Hn1] _].
  apply (member_stored w n1) in Hm as [Hb [= <- <-]]; [|done]. cbn in Hs. rewrite Hs in Hn1. injection Hn1 as <-.
  split_and!; [done..|]. intros name' cm' Hs' Hb'.
  apply (Hold (name', cm')), list_elem_of_omap. exists cm'. split; [|by apply (member_stored w name')].
  apply Hl; [done|]. destruct Hb' as [who Hw]. split; [eauto|by eapply identity_parts].
Qed.
End Collect.
