(* ===== verification/StoreProgress.v ===== *)
(** * The upload store on a server that answers

    A verified upload under a fresh identifier, on a server that does what it is asked,
    is stored: its receipt names one object per file. *)

From S2P Require Import Prelude.
From S2P Require Import PyFloat.
From S2P Require Import PyData.
From S2P Require Import PyTime.
From S2P Require Import CatalogRefs.
From S2P Require Import TransitionOperation.
From S2P Require Import SessionReconcile.
From S2P Require Import CatalogClosure.
From S2P Require Import ClosureTheorems.
From S2P Require Import CatalogUpload.
From S2P Require Import UploadTheorems.
From S2P Require Import UploadStore.
From S2P Require Import StoreTheorems.
From stdpp Require Import base list strings gmap sorting.
From Stdlib Require Import Lia.
Local Open Scope Z_scope.

(** A server that does what it is asked, and an observer that does not refuse. *)
Record answers {W} (api : Api W) (namespace : string) (observer : ResourceEvidence → W → W * result unit)
    (stored : W → gmap string ConfigMap) : Prop := {
  an_create body w : cb_namespace body = namespace → stored w !! cb_name body = None →
    ∃ cm, (a_create api body w).2 = Ok cm;
  an_list selector w : ∃ items, (a_list api selector w).2 = Ok items;
  an_observer e w : (observer e w).2 = Ok tt ∧ stored (observer e w).1 = stored w;
}.

Section Progress.
Context {grammar : Grammar} {W : Type} (api : Api W) (namespace : string).
Context (observer : ResourceEvidence → W → W * result unit) (stored : W → gmap string ConfigMap).
Context `{!ConfigMapServer api namespace stored} (Hans : answers api namespace observer stored).
Context (namespace_named : namespace ≠ "").

(** ** Encoding *)

Definition encoded (id : string) (item : nat * CatalogClosureEntry) (body : ConfigMapBody) : Prop :=
  encode_catalog_upload_config_map namespace id (Z.of_nat item.1) item.2 = Ok body.

Lemma encode_bodies_Ok u :
  (∀ e, e ∈ up_catalog_files u → utf8_ok (ce_yaml e) = true) →
  ∃ bodies, encode_bodies namespace u = Ok bodies ∧
    Forall2 (encoded (upload_id u)) (enumerate (up_catalog_files u)) bodies.
Proof.
  intros Hutf. destruct (encode_bodies namespace u) as [bodies|x] eqn:E.
  - exists bodies. split; [done|]. by apply mapM_r_Forall2 in E.
  - exfalso. assert (is_Ok (@Raise (list ConfigMapBody) x) = true) as H; [|done]. rewrite <-E.
    apply mapM_r_total. intros [i e] Hin. unfold encode_catalog_upload_config_map. cbn.
    rewrite Hutf; [done|]. apply list_elem_of_lookup in Hin as [j Hj].
    unfold enumerate in Hj. rewrite list_lookup_imap in Hj. apply list_elem_of_lookup. exists j.
    destruct (up_catalog_files u !! j); cbn in Hj; congruence.
Qed.

Lemma encoded_inv id item body :
  encoded id item body →
  cb_name body = catalog_upload_config_map_name id (Z.of_nat item.1) ∧ cb_name body ≠ "" ∧
  cb_namespace body = namespace ∧ cb_labels body = {[CATALOG_UPLOAD_LABEL := id]}.
Proof. intros [_ [= <-]]%raise_if_Ok. split_and!; try done. by apply nonempty_app. Qed.

(** The names of the first million files are distinct. *)
Lemma encoded_names_distinct id (files : list CatalogClosureEntry) bodies :
  Forall2 (encoded id) (enumerate files) bodies → Z.of_nat (length files) <= 1000000 →
  NoDup (map cb_name bodies).
Proof.
  intros Henc Hlen. apply NoDup_alt. intros i j name Hi Hj.
  rewrite list_lookup_fmap in Hi, Hj. 
  apply fmap_Some in Hi as (b & Hb & ->), Hj as (b' & Hb' & Heq).
  destruct (Forall2_lookup_r _ _ _ _ _ Henc Hb) as ([k e] & Hk & (Hn & _)%encoded_inv).
  destruct (Forall2_lookup_r _ _ _ _ _ Henc Hb') as ([k' e'] & Hk' & (Hn' & _)%encoded_inv).
  unfold enumerate in Hk, Hk'. rewrite list_lookup_imap in Hk, Hk'.
  destruct (files !! i) eqn:Ei; [|done]. destruct (files !! j) eqn:Ej; [|done].
  apply lookup_lt_Some in Ei, Ej. cbn in *. injection Hk as <- <-. injection Hk' as <- <-.
  apply Nat2Z.inj, (config_map_name_inj id); [lia|lia|congruence].
Qed.

(** ** Creating *)

Lemma create_all_answers bodies w :
  NoDup (map cb_name bodies) →
  (∀ body, body ∈ bodies → cb_namespace body = namespace ∧ stored w !! cb_name body = None) →
  ∃ cms, (create_all api bodies w).2 = map Ok cms ∧ Forall2 keeps_body bodies cms ∧
    map snd (map_to_list (stored (create_all api bodies w).1)) ≡ₚ
      cms ++ map snd (map_to_list (stored w)).
Proof.
  revert w. induction bodies as [|body bodies IH]; intros w Hnd Hfree; cbn [create_all].
  { exists []. by split_and!. }
  apply NoDup_cons in Hnd as [Hnew Hnd]. pose proof (cs_create body w) as Hc.
  destruct (an_create _ _ _ _ Hans body w) as [cm Hcm]; [apply Hfree; by left..|].
  destruct (a_create api body w) as [w1 r]. cbn in Hcm. subst r. destruct Hc as (Hnone & Hk & Hw1).
  destruct (IH w1) as (cms & Ha & Hks & Hp); [done| |].
  { intros b Hb. destruct (Hfree b) as [Hns Hb']; [by right|]. split; [done|].
    rewrite Hw1, lookup_insert_ne; [done|].
    intros Heq. apply Hnew. rewrite Heq. by apply list_elem_of_fmap_2. }
  destruct (create_all api bodies w1) as [w2 rs]. cbn in *. exists (cm :: cms).
  split_and!; [by rewrite Ha|by constructor|].
  rewrite Hp, Hw1, map_to_list_insert by done. cbn. symmetry. apply Permutation_middle.
Qed.

(** The evidence of what was created. *)
Lemma judge_kept e body cm :
  keeps_body body cm → cb_namespace body = namespace → cb_name body ≠ "" →
  ∃ uid, judge_create namespace e body (Ok cm) =
    Some {| re_name := cb_name body; re_ref := ce_ref e; re_uid := uid |}.
Proof.
  intros Hk Hns Hn. destruct (kb_uid _ _ Hk) as (uid & Hu & Hne). exists uid.
  unfold judge_create, config_map_metadata_identity. cbn [rbind].
  rewrite (kb_name _ _ Hk), (kb_namespace _ _ Hk), Hu, !nonempty_string_Some by congruence.
  cbn. rewrite !bool_decide_true by done. done.
Qed.

Lemma judged_all files bodies cms :
  length files = length bodies → Forall2 keeps_body bodies cms →
  (∀ body, body ∈ bodies → cb_namespace body = namespace ∧ (cb_name body ≠ "")) →
  ∃ created, judge_creates namespace (zip (zip files bodies) (map Ok cms)) = map Some created ∧
    map re_name created = map cb_name bodies.
Proof.
  intros Hlen Hks. revert files Hlen. induction Hks as [|body cm bodies cms Hk Hks IH];
    intros [|e files] Hlen Hb; try done; [by exists []|].
  destruct (Hb body) as [Hns Hn]; [by left|]. destruct (judge_kept e body cm Hk Hns Hn) as [uid Hj].
  destruct (IH files) as (created & Hc & Hnames); [by injection Hlen|intros b ?; apply Hb; by right|].
  cbn [zip zip_with map judge_creates]. rewrite Hj, Hc.
  exists ({| re_name := cb_name body; re_ref := ce_ref e; re_uid := uid |} :: created).
  split; [done|]. cbn. by rewrite Hnames.
Qed.

Lemma judged_Some (created : list ResourceEvidence) : omap id (map Some created) = created.
Proof. induction created as [|e created IH]; cbn; [done|]. by rewrite IH. Qed.

Lemma observe_all_Ok created w :
  (observe_all observer created w).2 = Ok tt ∧ stored (observe_all observer created w).1 = stored w.
Proof.
  revert w. induction created as [|e created IH]; intros w; cbn [observe_all]; [done|].
  destruct (an_observer _ _ _ _ Hans e w) as [H1 H2]. destruct (observer e w) as [w1 r]. cbn in *.
  subst r. destruct (IH w1) as [-> ->]. done.
Qed.

(** ** Reading back *)

Lemma decoded_all id items bodies cms :
  Forall2 (encoded id) items bodies → Forall2 keeps_body bodies cms → id ≠ "" →
  (∀ item, item ∈ items → entry_sound item.2) →
  ∃ rs, Forall2 (λ cm r, decode_catalog_upload_config_map namespace id cm = Ok r) cms rs ∧
    map uc_entry rs = map snd items ∧ map uc_name rs = map cb_name bodies.
Proof.
  intros Henc. revert cms. induction Henc as [|item body items bodies Hb Henc IH];
    intros cms Hks Hid Hsound.
  { apply Forall2_nil_inv_l in Hks as ->. by exists []. }
  apply Forall2_cons_inv_l in Hks as (cm & cms' & Hk & Hks & ->).
  destruct (IH cms' Hks Hid) as (rs & Hrs & He & Hn); [intros; apply Hsound; by right|].
  destruct (kb_uid _ _ Hk) as (uid & Hu & Hne).
  exists ({| uc_name := cb_name body; uc_uid := uid; uc_entry := item.2 |} :: rs). split_and!.
  - constructor; [|done]. destruct Hk. eapply decode_encoded; try done. apply Hsound. by left.
  - cbn. by rewrite He.
  - cbn. by rewrite Hn.
Qed.

(** Lists in the order of their references decode to themselves. *)
Lemma decoded_in_order (files : list CatalogClosureEntry) rs :
  map uc_entry rs = files → sorted entry_lt files = files → map uc_entry (by_ref rs) = files.
Proof.
  intros <- Hs. rewrite <-Hs. clear Hs. unfold sorted.
  induction rs as [|r rs IH]; cbn [foldr map]; [done|]. rewrite <-IH.
  generalize (foldr (insert_sorted (λ r r', str_lt (ce_ref (uc_entry r)) (ce_ref (uc_entry r')))) [] rs) as l. intros l.
  induction l as [|y l IHl]; cbn; [done|]. unfold entry_lt at 1. destruct (str_lt _ _); cbn; [|done].
  by rewrite IHl.
Qed.

Lemma kept_labelled id items bodies cms :
  Forall2 (encoded id) items bodies → Forall2 keeps_body bodies cms →
  Forall (λ cm, listed_by (Some id) cm = true) cms.
Proof.
  intros Henc Hks. apply Forall_forall. intros cm [i Hcm]%list_elem_of_lookup.
  destruct (Forall2_lookup_r _ _ _ _ _ Hks Hcm) as (body & Hb & Hk).
  destruct (Forall2_lookup_r _ _ _ _ _ Henc Hb) as (item & _ & (_ & _ & _ & Hl)%encoded_inv).
  unfold listed_by. rewrite (kb_labels _ _ Hk), Hl, lookup_singleton_eq. by rewrite bool_decide_true.
Qed.

(** Only the new objects carry the label. *)
Lemma labelled_new id (m : gmap string ConfigMap) cms rest :
  map snd (map_to_list m) ≡ₚ cms ++ rest → Forall (λ cm, listed_by (Some id) cm = true) cms →
  Forall (λ cm, listed_by (Some id) cm = false) rest →
  List.filter (listed_by (Some id)) (map snd (map_to_list m)) ≡ₚ cms.
Proof.
  intros Hp Hc Hr.
  assert (∀ l, Forall (λ cm, listed_by (Some id) cm = true) l → List.filter (listed_by (Some id)) l = l) as Ht.
  { induction 1 as [|x l Hx _ IH]; cbn; [done|]. by rewrite Hx, IH. }
  assert (∀ l, Forall (λ cm, listed_by (Some id) cm = false) l → List.filter (listed_by (Some id)) l = []) as Hf.
  { induction 1 as [|x l Hx _ IH]; cbn; [done|]. by rewrite Hx. }
  assert (∀ l l', l ≡ₚ l' → List.filter (listed_by (Some id)) l ≡ₚ List.filter (listed_by (Some id)) l') as Hcong.
  { induction 1 as [|x l l' _ IH|x y l|l l1 l2 _ IH1 _ IH2]; cbn.
    - done.
    - destruct (listed_by _ x); by rewrite IH.
    - destruct (listed_by _ x), (listed_by _ y); try done. constructor.
    - by rewrite IH1. }
  rewrite (Hcong _ _ Hp), List.filter_app, Ht, Hf, app_nil_r by done. done.
Qed.

(** The objects listed are decoded into the upload, one resource per file. *)
Lemma listed_decode u bodies cms items :
  verify_catalog_upload DEFAULT_CATALOG_UPLOAD_LIMITS u = Ok u → up_root_yaml u ≠ "" →
  upload_id u ≠ "" → sorted entry_lt (up_catalog_files u) = up_catalog_files u →
  Forall2 (encoded (upload_id u)) (enumerate (up_catalog_files u)) bodies →
  NoDup (map cb_name bodies) → Forall2 keeps_body bodies cms → cms ≡ₚ items →
  ∃ resources, decode_verified namespace (up_selection u) (up_root_yaml u) items =
      Ok (u, map resource_evidence resources) ∧
    map uc_entry resources = up_catalog_files u ∧ map uc_name resources ≡ₚ map cb_name bodies.
Proof.
  intros Hv Hroot Hid Hs Henc Hnd Hks Hp. destruct (verified_files _ _ Hv) as [Href Hsound].
  assert (map snd (enumerate (up_catalog_files u)) = up_catalog_files u) as Hsnd.
  { apply list_eq. intros i. unfold enumerate. rewrite list_lookup_fmap, list_lookup_imap.
    by destruct (up_catalog_files u !! i). }
  destruct (decoded_all _ _ _ _ Henc Hks Hid) as (rs & Hrs & He & Hn).
  { intros item Hi. apply Hsound. rewrite <-Hsnd. by apply list_elem_of_fmap_2. }
  rewrite Hsnd in He. destruct (Forall2_permuted _ _ _ _ Hrs Hp) as (rs' & Hrs' & Hpr).
  assert (map uc_ref rs = map ce_ref (up_catalog_files u)) as Hrefs by by rewrite <-He, map_map.
  exists (by_ref rs). split_and!; [|by apply decoded_in_order|by rewrite sorted_perm, Hn].
  unfold decode_verified.
  rewrite (proj2 (decode_maps_Ok namespace (upload_id u) _ _ items u (by_ref rs) eq_refl)).
  - cbn [rbind]. by rewrite Hv.
  - split; [done|]. exists rs'.
    split_and!; [done|by rewrite <-Hpr, Hn|by rewrite <-Hpr, Hrefs| |].
    + apply (sorted_key_unique uc_ref); [done|]. by rewrite Hrefs.
    + rewrite (decoded_in_order _ _ He Hs). by destruct u.
Qed.

Lemma receipt_built u resources :
  verify_catalog_upload DEFAULT_CATALOG_UPLOAD_LIMITS u = Ok u →
  sorted entry_lt (up_catalog_files u) = up_catalog_files u →
  map uc_entry resources = up_catalog_files u → NoDup (map uc_name resources) →
  ∃ receipt, build_receipt {| sr_selection := up_selection u;
      sr_resources := sorted evidence_lt (map resource_evidence resources) |} = Ok receipt ∧
    map re_ref (sr_resources receipt) = map ce_ref (up_catalog_files u).
Proof.
  intros Hv Hs He Hn. destruct (verified_files _ _ Hv) as [Href _].
  destruct (verified_parts _ _ Hv) as (_ & c & _ & _ & _ & Hcount).
  set (evidence := map resource_evidence resources).
  assert (map re_ref (sorted evidence_lt evidence) = map ce_ref (up_catalog_files u)) as Hrefs.
  { etrans; [apply (sorted_map re_ref)|]. rewrite <-Hs, (sorted_map ce_ref).
    unfold evidence. rewrite map_map. cbn. by rewrite <-He, map_map. }
  unfold build_receipt. cbn [sr_resources sr_selection].
  assert (length (sorted evidence_lt evidence) = length (up_catalog_files u)) as Hlen.
  { apply (f_equal length) in Hrefs. by rewrite !length_map in Hrefs. }
  rewrite Hlen, Hcount, Z.eqb_refl, Hrefs, !bool_decide_true; [cbn; eauto|done|].
  rewrite sorted_perm. unfold evidence. by rewrite map_map.
Qed.

(** C35: a verified upload under a fresh identifier gets stored.  On a server that does
    what it is asked, when no object has the upload's label or one of its names and
    the files are UTF-8 and in the order of their references, storing a verified upload
    succeeds, with one resource per file in the receipt. *)
Theorem put_stores u w :
  verify_catalog_upload DEFAULT_CATALOG_UPLOAD_LIMITS u = Ok u → up_root_yaml u ≠ "" →
  upload_id u ≠ "" → sorted entry_lt (up_catalog_files u) = up_catalog_files u →
  (∀ e, e ∈ up_catalog_files u → utf8_ok (ce_yaml e) = true) →
  (∀ order, stored w !! catalog_upload_config_map_name (upload_id u) order = None) →
  (∀ name cm, stored w !! name = Some cm → listed_by (Some (upload_id u)) cm = false) →
  ∃ receipt, (put api namespace observer u w).2 = inl receipt ∧
    map re_ref (sr_resources receipt) = map ce_ref (up_catalog_files u).
Proof.
  intros Hv Hroot Hid Hs Hutf Hfree Hlabel. unfold put, put_attempt. rewrite Hv.
  destruct (encode_bodies_Ok u Hutf) as (bodies & -> & Henc). cbn [wrapped].
  destruct (verified_parts _ _ Hv) as ([Hlen _]%check_bounds_sizes & _).
  assert (NoDup (map cb_name bodies)) as Hnd.
  { eapply encoded_names_distinct; [done|]. cbn in Hlen. lia. }
  assert (∀ body, body ∈ bodies → ∃ item, encoded (upload_id u) item body) as Hbody.
  { intros body [i Hi]%list_elem_of_lookup. destruct (Forall2_lookup_r _ _ _ _ _ Henc Hi). naive_solver. }
  destruct (create_all_answers bodies w Hnd) as (cms & Ha & Hks & Hp).
  { intros body [item (-> & _ & ? & _)%encoded_inv]%Hbody. auto. }
  destruct (create_all api bodies w) as [w1 rs]. cbn [fst snd] in *. subst rs.
  destruct (judged_all (up_catalog_files u) bodies cms) as (created & Hj & Hnames); [|done| |].
  { apply Forall2_length in Henc. unfold enumerate in Henc. by rewrite length_imap in Henc. }
  { intros body [item (_ & ? & ? & _)%encoded_inv]%Hbody. done. }
  unfold created_of. rewrite Hj, judged_Some.
  destruct (observe_all_Ok created w1) as [Ho1 Ho2].
  destruct (observe_all observer created w1) as [w2 o]. cbn in Ho1, Ho2. subst o.
  rewrite bool_decide_false.
  2: { by intros (? & ? & _)%list_elem_of_fmap. }
  unfold readback, store_read. fold (upload_id u).
  destruct (an_list _ _ _ _ Hans (Some (upload_id u)) w2) as [items Hi].
  pose proof (cs_list _ _ _ Hi) as Hperm. destruct (a_list api (Some (upload_id u)) w2) as [w3 listed].
  cbn in Hi. subst listed. cbn [wrapped rbind].
  rewrite Ho2, (labelled_new _ _ cms _ Hp) in Hperm; [|by eapply kept_labelled|]; cycle 1.
  { apply Forall_forall. intros cm ([name cm'] & -> & Hin%elem_of_map_to_list)%list_elem_of_fmap. by eapply Hlabel. }
  destruct (listed_decode u bodies cms items) as (resources & -> & He & Hn); try done.
  cbn [wrapped rbind]. rewrite (bool_decide_true (up_catalog_files u = _)) by done. cbn [negb].
  rewrite bool_decide_true; cycle 1.
  { rewrite map_map. cbn. apply set_eq. intros x. rewrite !elem_of_list_to_set, Hnames, <-Hn. done. }
  destruct (receipt_built u resources) as (receipt & -> & Hrefs); try done; [by rewrite Hn|].
  exists receipt. done.
Qed.
End Progress.
