(* ===== verification/CatalogRepository.v ===== *)
(** * The user catalog ([lib/nodalarc/filesystem_catalog_repository.py])

    A user's documents are kept as immutable generations, directories named by the
    digest of what is in them, and a file [CURRENT] that names one.  A unit of work
    copies the current generation, applies its mutations, validates the result and
    its references, and renames it into place before it replaces [CURRENT].
    Generations nobody reads are removed.

    One scope is modelled; the repository keeps the scopes apart and runs one
    operation at a time.  A tree is a map from paths to entries, with directories
    implicit.  An operation that writes meets the operating system as the list of
    [Fault]s says: each write works, fails with part of it done, or never returns
    because the process died.  A read gives what is there; [Unreadable] is a file that
    cannot be read.  The finalizer of a snapshot is a step of its own.

    Not modelled: the loss of writes that were not synced, links outside the places
    the code looks for them, and the checks of the injected root paths. *)

From S2P Require Import Prelude.
From S2P Require Import PyData.
From S2P Require Import CatalogRefs.
From S2P Require Import TransitionOperation.
From S2P Require Import SessionReconcile.
From S2P Require Import CatalogClosure.
From S2P Require Import CatalogUpload.
From stdpp Require Import base list strings gmap gmultiset pretty.
From Stdlib Require Import Ascii.
Local Open Scope Z_scope.

(** ** Errors ([catalog_repository.py]) *)

Definition RepositoryError (what : string) : exn := Raised "CatalogRepositoryError" what.
Definition NotFoundError : exn := Raised "CatalogNotFoundError" "catalog document does not exist".
Definition ConflictError (what : string) : exn := Raised "CatalogConflictError" what.
Definition ReadOnlyError : exn := Raised "CatalogReadOnlyError" "shipped catalog is read-only".
Definition ValidationError (what : string) : exn := Raised "CatalogValidationError" what.
Definition ContainmentError (what : string) : exn := Raised "CatalogContainmentError" what.
Definition TransactionStateError (what : string) : exn := Raised "CatalogTransactionStateError" what.
Definition TransactionOrderError : exn :=
  Raised "CatalogTransactionOrderError" "session publication must be the final mutation".
Definition OsError : exn := Raised "OSError" "".

(** ** Trees *)

Inductive Entry :=
| Regular (content : string)
| Unreadable
| Link
| Special.

#[global] Instance entry_eq_dec : EqDecision Entry.
Proof. solve_decision. Defined.

(** Entries by their path, written with slashes. *)
Abbreviation Tree := (gmap string Entry).

(** The path and the directories above it. *)
Fixpoint prefixes (parts : list string) : list (list string) :=
  match parts with
  | [] => []
  | part :: parts => [part] :: map (cons part) (prefixes parts)
  end.

Definition has_link (t : Tree) (path : string) : bool :=
  existsb (λ parts, bool_decide (t !! join_with "/" parts = Some Link)) (prefixes (split_on "/" path)).

(** [_read_exact_file]. *)
Definition read_exact_file (t : Tree) (path : string) : result string :=
  raise_if bool_decide (".." ∈ split_on "/" path) with ContainmentError "path must remain contained";;
  raise_if has_link t path with ContainmentError "catalog path contains symlink";;
  match t !! path with
  | Some (Regular content) => Ok content
  | Some Unreadable => Raise (RepositoryError "catalog document could not be read")
  | Some Link | Some Special | None => Raise NotFoundError
  end.

(** ** References *)

Definition relative_path (ref : string) : string :=
  match parsed ref with Ok p => join_with "/" (pr_relative_path p) | Raise _ => "" end.

Record ParsedRef := {
  rf_ref : string;
  rf_namespace : string;
  rf_family : string;
}.

(** [_parsed_ref]. *)
Definition parsed_ref (value : string) : result ParsedRef :=
  match (let! ref := new_ref CatalogRef value in
         let! p := parse_catalog_reference ref None in
         let! family := or_raise (pr_family p) (ValueError "no family directory") in
         raise_if bool_decide (family ∉ CATALOG_FAMILIES) with ValueError "unknown family";;
         Ok {| rf_ref := ref; rf_namespace := pr_namespace p; rf_family := family |}) with
  | Ok r => Ok r
  | Raise _ => Raise (ValidationError "invalid catalog reference")
  end.

Definition writable_ref (value : string) : result ParsedRef :=
  let! r := parsed_ref value in
  raise_if negb (bool_decide (rf_namespace r = "user")) with ReadOnlyError;;
  Ok r.

Definition validated_revision (value : string) : result string :=
  raise_if negb (sha256_digest_ok value) with ValidationError "catalog revision must be a digest";;
  Ok value.

Definition lower_char (c : ascii) : ascii :=
  if in_range "A" "Z" c then ascii_of_N (N_of_ascii c + 32) else c.
Fixpoint lower_text (s : string) : string :=
  match s with EmptyString => "" | String c s => String (lower_char c) (lower_text s) end.

Definition ref_text (namespace path : string) : string := namespace +:+ String ":" path.

(** One path of [_iter_document_refs]. *)
Definition document_ref (t : Tree) (namespace : string) (item : string * Entry) :
    result string :=
  let '(path, entry) := item in
  raise_if has_link t path with ContainmentError "catalog path contains symlink";;
  raise_if bool_decide (entry = Special) with ContainmentError "not a regular file";;
  raise_if negb (bool_decide (lower_text (splitext (List.last (split_on "/" path) "")).2 ∈ YAML_SUFFIXES))
    with ValidationError "catalog contains non-YAML file";;
  let! r := parsed_ref (ref_text namespace path) in
  raise_if negb (bool_decide (rf_namespace r = namespace))
    with ContainmentError "catalog namespace changed";;
  Ok (rf_ref r).

Definition iter_document_refs (t : Tree) (namespace : string) : result (list string) :=
  let! refs := mapM_r (document_ref t namespace) (map_to_list t) in
  Ok (sorted str_lt refs).

(** ** Generations *)

(** [n.to_bytes(8, "big")]. *)
Fixpoint big_endian (k : nat) (n : Z) (rest : string) : string :=
  match k with
  | O => rest
  | S k => big_endian k (n / 256) (String (ascii_of_N (Z.to_N (n mod 256))) rest)
  end.
Definition sized (text : string) : string := big_endian 8 (text_len text) text.

Definition GENERATION_DOMAIN : string :=
  "nodalarc-user-catalog-generation-v1" +:+ String (ascii_of_nat 0) "".

Definition catalog_generation (documents : list (string * string)) : string :=
  sha256_digest (GENERATION_DOMAIN +:+
    foldr (λ d rest, sized d.1 +:+ (sized d.2 +:+ rest)) ""
      (sorted (λ d d', str_lt d.1 d'.1) documents)).

Section Repository.
Context {grammar : Grammar} (shipped : Tree).

(** [_validated_document]: the family.  What the collector reports of a document, a
    decoding, validation, type or value error, is what is caught here. *)
Definition validated_document (ref content : string) : result string :=
  let! r := parsed_ref ref in
  raise_if negb (utf8_ok content) with ValidationError "catalog document is invalid";;
  match validated (Some ref) content with
  | Ok _ => Ok (rf_family r)
  | Raise (Raised ("CatalogClosureError" | "ValueError" | "TypeError") _) =>
      Raise (ValidationError "catalog document is invalid")
  | Raise e => Raise e
  end.

(** [_validate_catalog_root]. *)
Definition root_document (t : Tree) (ref : string) : result (string * string) :=
  let! content := read_exact_file t (relative_path ref) in
  let! _ := validated_document ref content in
  Ok (ref, content).

Definition validate_catalog_root (t : Tree) (namespace : string) : result string :=
  let! refs := iter_document_refs t namespace in
  let! documents := mapM_r (root_document t) refs in
  Ok (catalog_generation documents).

(** ** Snapshots *)

Definition root_for (user : Tree) (namespace : string) : Tree :=
  if bool_decide (namespace = "nodalarc") then shipped else user.

(** [FilesystemCatalogSnapshot.read], the view of the collector. *)
Definition snapshot_read (user : Tree) : CatalogReadView := λ ref,
  match parsed_ref ref with
  | Raise e => Refused e
  | Ok r =>
      match read_exact_file (root_for user (rf_namespace r)) (relative_path (rf_ref r)) with
      | Ok content => Document {| rd_family := rf_family r;
                                  rd_preserved_path := preserved_catalog_path (rf_ref r);
                                  rd_yaml := content |}
      | Raise (Raised "CatalogNotFoundError" _) => DocumentNotFound
      | Raise (Raised "CatalogContainmentError" _) => ReadRejected
      | Raise _ => ReadFailed
      end
  end.

Record CatalogDocument := {
  cd_ref : string;
  cd_namespace : string;
  cd_family : string;
  cd_content : string;
  cd_revision : string;
}.

(** [FilesystemCatalogSnapshot.get]. *)
Definition snapshot_get (user : Tree) (ref : string) : result CatalogDocument :=
  let! r := parsed_ref ref in
  let! content := read_exact_file (root_for user (rf_namespace r)) (relative_path (rf_ref r)) in
  let! family := validated_document (rf_ref r) content in
  raise_if negb (bool_decide (family = rf_family r)) with ValidationError "catalog family changed";;
  Ok {| cd_ref := rf_ref r; cd_namespace := rf_namespace r; cd_family := rf_family r;
        cd_content := content; cd_revision := sha256_digest content |}.

(** [list] and [export_documents]: the documents that were listed are read again. *)
Definition list_documents (user : Tree) (namespace family : option string) :
    result (list CatalogDocument) :=
  raise_if bool_decide (namespace ∉ [None; Some "nodalarc"; Some "user"])
    with ValidationError "unknown catalog namespace";;
  raise_if match family with Some f => bool_decide (f ∉ CATALOG_FAMILIES) | None => false end
    with ValidationError "unknown catalog family";;
  let namespaces := match namespace with Some n => [n] | None => ["nodalarc"; "user"] end in
  let! documents := mapM_r (λ namespace,
      let! refs := iter_document_refs (root_for user namespace) namespace in
      mapM_r (snapshot_get user) refs) namespaces in
  Ok (sorted (λ d d', str_lt (cd_ref d) (cd_ref d'))
        (List.filter (λ d, match family with
                           | Some f => bool_decide (cd_family d = f)
                           | None => true
                           end) (concat documents))).

Definition export_documents (user : Tree) (namespace family : option string) :
    result (list CatalogDocument) :=
  let! entries := list_documents user namespace family in
  mapM_r (λ d, snapshot_get user (cd_ref d)) entries.

(** ** Units of work *)

Record Mutation := {
  mu_ref : string;
  mu_family : string;
  mu_content : option string;
  mu_expected : option string;
}.

Definition is_session_publication (m : Mutation) : bool :=
  bool_decide (mu_family m = "sessions") && bool_decide (is_Some (mu_content m)).

Record UnitOfWork := {
  uw_base : string;
  uw_mutations : dict string Mutation;
  uw_publication_seen : bool;
  uw_closed : bool;
}.

Definition assert_can_add (u : UnitOfWork) (ref : string) (publication : bool) : result unit :=
  raise_if uw_closed u with TransactionStateError "catalog unit of work is closed";;
  raise_if uw_publication_seen u && negb publication with TransactionOrderError;;
  raise_if dict_mem ref (uw_mutations u)
    with TransactionStateError "catalog reference is mutated twice";;
  Ok tt.

Definition add_mutation (u : UnitOfWork) (m : Mutation) (publication : bool) : UnitOfWork :=
  {| uw_base := uw_base u; uw_mutations := dict_set (mu_ref m) m (uw_mutations u);
     uw_publication_seen := uw_publication_seen u || publication; uw_closed := uw_closed u |}.

Definition write_bytes (u : UnitOfWork) (ref content : string) (expected : option string) :
    result UnitOfWork :=
  let! r := writable_ref ref in
  let publication := bool_decide (rf_family r = "sessions") in
  let! _ := assert_can_add u (rf_ref r) publication in
  let! revision := match expected with
                   | None => Ok None
                   | Some e => let! e := validated_revision e in Ok (Some e)
                   end in
  Ok (add_mutation u {| mu_ref := rf_ref r; mu_family := rf_family r; mu_content := Some content;
                        mu_expected := revision |} publication).

Definition delete_bytes (u : UnitOfWork) (ref expected : string) : result UnitOfWork :=
  let! r := writable_ref ref in
  let! _ := assert_can_add u (rf_ref r) false in
  let! revision := validated_revision expected in
  Ok (add_mutation u {| mu_ref := rf_ref r; mu_family := rf_family r; mu_content := None;
                        mu_expected := Some revision |} false).

Definition closed (u : UnitOfWork) (mutations : dict string Mutation) : UnitOfWork :=
  {| uw_base := uw_base u; uw_mutations := mutations; uw_publication_seen := uw_publication_seen u;
     uw_closed := true |}.
Definition abort (u : UnitOfWork) : UnitOfWork := closed u [].

(** ** The scope directory *)

Inductive DirEntry :=
| Directory (catalog : option Tree)
| DirLink
| DirOther.

Inductive FileEntry :=
| FileText (text : string)
| FileLink
| FileOther.

(** [temps] are the files [.CURRENT-*.tmp]; [pins] is the count of snapshots the
    repository keeps, [live] the snapshot objects there are; [faults] is what the
    coming writes meet. *)
Inductive Fault :=
| Works
| Fails (progress : nat)
| Crashes (progress : nat).

Record World := {
  w_current : option FileEntry;
  w_temps : gmap string FileEntry;
  w_generations : gmap string DirEntry;
  w_pins : gmap string nat;
  w_live : gmultiset string;
  w_faults : list Fault;
}.

(** A call ends with a value or an exception, or the process dies in it. *)
Inductive Outcome (A : Type) :=
| Done (a : A)
| Failed (e : exn)
| Crashed.
Arguments Done {A} a. Arguments Failed {A} e. Arguments Crashed {A}.

Definition Repo (A : Type) : Type := World → World * Outcome A.
Definition done {A} (a : A) : Repo A := λ w, (w, Done a).
Definition judged {A} (f : World → result A) : Repo A := λ w,
  (w, match f w with Ok a => Done a | Raise e => Failed e end).
Definition wbind {A B} (c : Repo A) (k : A → Repo B) : Repo B := λ w,
  match c w with
  | (w, Done a) => k a w
  | (w, Failed e) => (w, Failed e)
  | (w, Crashed) => (w, Crashed)
  end.
#[local] Notation "'run!' x ':=' c 'in' k" := (wbind c (λ x, k))
  (at level 10, x binder, c at level 200, k at level 200) : py_scope.

(** [except BaseException: handler; raise] and [finally: handler]. *)
Definition on_error {A} (c : Repo A) (handler : Repo unit) : Repo A := λ w,
  match c w with
  | (w, Failed e) =>
      match handler w with
      | (w, Done _) => (w, Failed e)
      | (w, Failed e') => (w, Failed e')
      | (w, Crashed) => (w, Crashed)
      end
  | r => r
  end.
Definition finally {A} (c : Repo A) (handler : Repo unit) : Repo A := λ w,
  match on_error c handler w with
  | (w, Done a) => (run! _ := handler in done a) w
  | r => r
  end.

Definition upd (w : World) (current : option FileEntry) (temps : gmap string FileEntry)
    (generations : gmap string DirEntry) : World :=
  {| w_current := current; w_temps := temps; w_generations := generations; w_pins := w_pins w;
     w_live := w_live w; w_faults := w_faults w |}.
Definition with_current (w : World) (c : option FileEntry) : World :=
  upd w c (w_temps w) (w_generations w).
Definition with_temps (w : World) (t : gmap string FileEntry) : World :=
  upd w (w_current w) t (w_generations w).
Definition with_generations (w : World) (g : gmap string DirEntry) : World :=
  upd w (w_current w) (w_temps w) g.
Definition with_pins (w : World) (pins : gmap string nat) : World :=
  {| w_current := w_current w; w_temps := w_temps w; w_generations := w_generations w;
     w_pins := pins; w_live := w_live w; w_faults := w_faults w |}.
Definition with_live (w : World) (live : gmultiset string) : World :=
  {| w_current := w_current w; w_temps := w_temps w; w_generations := w_generations w;
     w_pins := w_pins w; w_live := live; w_faults := w_faults w |}.
Definition with_faults (w : World) (faults : list Fault) : World :=
  {| w_current := w_current w; w_temps := w_temps w; w_generations := w_generations w;
     w_pins := w_pins w; w_live := w_live w; w_faults := faults |}.

(** A name the system picks: one that is free. *)
Fixpoint padding (n : nat) : string :=
  match n with O => "" | S n => String "x" (padding n) end.
Definition free_name (prefix : string) (taken : gset string) : string :=
  prefix +:+ padding (foldr (λ name n, String.length name `max` n)%nat 0%nat (elements taken)).

(** A write: the whole of it, or the part that was done when it stopped. *)
Definition os_write (whole : World → World) (part : nat → World → World) : Repo unit := λ w,
  match w_faults w with
  | [] => (whole w, Done tt)
  | Works :: faults => (whole (with_faults w faults), Done tt)
  | Fails k :: faults => (part k (with_faults w faults), Failed OsError)
  | Crashes k :: faults => (part k (with_faults w faults), Crashed)
  end.
Definition os_step (whole : World → World) : Repo unit := os_write whole (λ _ w, w).
Definition fsync : Repo unit := os_step (λ w, w).

(** [shutil.rmtree] of a directory of [generations]: its files go first. *)
Definition partly_removed (k : nat) (d : DirEntry) : DirEntry :=
  match d with
  | Directory (Some t) =>
      if Nat.ltb (size t) k then Directory None
      else Directory (Some (list_to_map (drop k (map_to_list t))))
  | d => d
  end.
Definition rmtree (name : string) : Repo unit :=
  os_write (λ w, with_generations w (delete name (w_generations w)))
    (λ k w, with_generations w (alter (partly_removed k) name (w_generations w))).

(** ** Generations of the scope *)

Definition generation_name (generation : string) : string :=
  if String.prefix "sha256:" generation
  then String.substring 7 (String.length generation - 7) generation else generation.
Definition STAGING : string := ".staging-".
Definition is_staging (name : string) : bool := String.prefix STAGING name.

(** Text mode reads every line end as a newline. *)
Definition newline : ascii := "010"%char.
Definition carriage_return : ascii := "013"%char.
Fixpoint universal_newlines (s : string) : string :=
  match s with
  | EmptyString => ""
  | String c rest =>
      if bool_decide (c = carriage_return) then
        match rest with
        | String c' rest' =>
            if bool_decide (c' = newline) then String newline (universal_newlines rest')
            else String newline (universal_newlines rest)
        | EmptyString => String newline ""
        end
      else String c (universal_newlines rest)
  end.

(** [_read_current]. *)
Definition read_current (w : World) : result string :=
  match w_current w with
  | Some (FileText raw) =>
      match split_on newline (universal_newlines raw) with
      | [generation; rest] =>
          if bool_decide (rest = "") then
            raise_if negb (sha256_digest_ok generation)
              with ContainmentError "CURRENT contains an invalid catalog generation";;
            Ok generation
          else Raise (ContainmentError "CURRENT must contain exactly one generation line")
      | _ => Raise (ContainmentError "CURRENT must contain exactly one generation line")
      end
  | Some FileLink => Raise (ContainmentError "CURRENT must not be a symlink")
  | Some FileOther | None => Raise (ContainmentError "CURRENT must be a regular file")
  end.

(** [_generation_catalog_root]. *)
Definition generation_catalog_root (w : World) (generation : string) : result Tree :=
  let! _ := validated_revision generation in
  match w_generations w !! generation_name generation with
  | Some (Directory (Some t)) => Ok t
  | Some DirLink => Raise (ContainmentError "catalog path contains symlink")
  | _ => Raise (ContainmentError "catalog generation is unavailable")
  end.

(** [_snapshot_at] and [snapshot]; a snapshot is the generation it is pinned to. *)
Definition snapshot_at (generation : string) : Repo string :=
  run! _ := judged (λ w, generation_catalog_root w generation) in
  λ w, (with_pins (with_live w ({[+ generation +]} ⊎ w_live w))
          (<[generation := S (default 0%nat (w_pins w !! generation))]> (w_pins w)),
        Done generation).
Definition snapshot : Repo string :=
  run! generation := judged read_current in snapshot_at generation.

(** A generation directory that is what its name says. *)
Definition verify_directory (d : DirEntry) (generation : string) (what : string) : result unit :=
  match d with
  | Directory (Some t) =>
      let! actual := validate_catalog_root t "user" in
      raise_if negb (bool_decide (actual = generation)) with ContainmentError what;;
      Ok tt
  | DirLink => Raise (ContainmentError "catalog generation must not be a symlink")
  | Directory None | DirOther => Raise (ContainmentError "catalog root is unavailable")
  end.

(** [_cleanup_inactive_generations]. *)
Definition cleanup_directory (current : string) (removed : bool) (name : string) : Repo bool := λ w,
  match w_generations w !! name with
  | None => (w, Done removed)
  | Some d =>
      let candidate := "sha256:" +:+ name in
      if is_staging name then (w, Done removed)
      else if negb match d with Directory _ => true | _ => false end then
        (w, Failed (ContainmentError "catalog generations root contains an unsafe entry"))
      else if negb (sha256_digest_ok candidate) then
        (w, Failed (ContainmentError "catalog generations root contains an invalid generation"))
      else if bool_decide (candidate = current) then (w, Done removed)
      else if Nat.ltb 0 (default 0%nat (w_pins w !! candidate)) then (w, Done removed)
      else match verify_directory d candidate "inactive catalog generation failed validation" with
           | Raise e => (w, Failed e)
           | Ok _ => (run! _ := rmtree name in done true) w
           end
  end.

Fixpoint cleanup_directories (current : string) (removed : bool) (names : list string) : Repo bool :=
  match names with
  | [] => done removed
  | name :: names =>
      run! removed := cleanup_directory current removed name in
      cleanup_directories current removed names
  end.

Definition cleanup_inactive_generations (current : string) : Repo unit := λ w,
  let names := sorted_set str_lt (dom (w_generations w)) in
  (run! removed := cleanup_directories current false names in
   if removed : bool then fsync else done tt) w.

(** [_release_snapshot]: what the finalizer of a snapshot runs when it is gone. *)
Definition unpin (generation : string) (w : World) : World :=
  with_pins w (match w_pins w !! generation with
               | Some (S (S n)) => <[generation := S n]> (w_pins w)
               | _ => delete generation (w_pins w)
               end).
Definition release_snapshot (generation : string) : Repo unit := λ w,
  (run! current := judged read_current in cleanup_inactive_generations current) (unpin generation w).

(** ** Publishing *)

(** [_publish_current]: a temporary file, renamed over [CURRENT]. *)
Definition drop_temp (temp : string) : Repo unit := λ w,
  match w_temps w !! temp with
  | Some (FileText _) => os_step (λ w, with_temps w (delete temp (w_temps w))) w
  | _ => (w, Done tt)
  end.
Definition publish_current (generation : string) : Repo unit := λ w,
  let text := generation +:+ String newline "" in
  let temp := free_name ".CURRENT-" (dom (w_temps w)) in
  (run! _ := judged (λ w, match w_current w with
                          | Some FileLink => Raise (ContainmentError "CURRENT must not be a symlink")
                          | _ => Ok tt
                          end) in
   finally
     (run! _ := os_write (λ w, with_temps w (<[temp := FileText text]> (w_temps w)))
                  (λ k w, with_temps w (<[temp := FileText (clip k text)]> (w_temps w))) in
      run! _ := os_step (λ w, with_current (with_temps w (delete temp (w_temps w)))
                                (Some (FileText text))) in
      fsync)
     (drop_temp temp)) w.

(** [_finalize_generation]. *)
Definition finalize_generation (staging generation : string) : Repo unit := λ w,
  let final := generation_name generation in
  match w_generations w !! final with
  | Some d =>
      (run! _ := judged (λ _, verify_directory d generation
                                "existing generation directory failed integrity check") in
       rmtree staging) w
  | None =>
      (run! _ := os_step (λ w, match w_generations w !! staging with
                               | Some d => with_generations w
                                   (<[final := d]> (delete staging (w_generations w)))
                               | None => w
                               end) in
       fsync) w
  end.

(** ** Committing *)

(** [_check_preconditions] of one mutation. *)
Definition check_precondition (user : Tree) (m : Mutation) : result unit :=
  let! existing := match snapshot_get user (mu_ref m) with
                   | Ok d => Ok (Some d)
                   | Raise (Raised "CatalogNotFoundError" _) => Ok None
                   | Raise e => Raise e
                   end in
  match mu_content m, mu_expected m, existing with
  | None, _, None => Raise (ConflictError "cannot delete absent catalog document")
  | None, expected, Some d =>
      raise_if negb (bool_decide (Some (cd_revision d) = expected))
        with ConflictError "stale delete revision";;
      Ok tt
  | Some _, None, Some _ => Raise (ConflictError "catalog document already exists")
  | Some _, None, None => Ok tt
  | Some _, Some _, None => Raise (ConflictError "cannot replace absent catalog document")
  | Some _, Some expected, Some d =>
      raise_if negb (bool_decide (cd_revision d = expected)) with ConflictError "stale write revision";;
      Ok tt
  end.

Definition check_preconditions (user : Tree) (mutations : list Mutation) : result unit :=
  foldM (λ _ m, check_precondition user m) tt mutations.

Definition staged_tree (w : World) (staging : string) : Tree :=
  match w_generations w !! staging with Some (Directory (Some t)) => t | _ => ∅ end.
Definition with_staged (w : World) (staging : string) (t : Tree) : World :=
  with_generations w (<[staging := Directory (Some t)]> (w_generations w)).

(** [_write_exact_file] into the staging directory. *)
Definition write_exact_file (staging path content : string) : Repo unit :=
  run! _ := judged (λ _, raise_if bool_decide (".." ∈ split_on "/" path)
                           with ContainmentError "write path must remain contained";; Ok tt) in
  let put text w := with_staged w staging (<[path := Regular text]> (staged_tree w staging)) in
  os_write (put content) (λ k, put (clip k content)).

Fixpoint stage_documents (staging : string) (documents : list CatalogDocument) : Repo unit :=
  match documents with
  | [] => done tt
  | d :: documents =>
      run! _ := write_exact_file staging (relative_path (cd_ref d)) (cd_content d) in
      stage_documents staging documents
  end.

(** [_stage_base]. *)
Definition stage_base (base : Tree) (staging : string) : Repo unit :=
  run! documents := judged (λ _, export_documents base (Some "user") None) in
  stage_documents staging documents.

(** [_apply_mutations], publications last. *)
Definition mutation_lt (m m' : Mutation) : bool :=
  match is_session_publication m, is_session_publication m' with
  | false, true => true
  | true, false => false
  | _, _ => str_lt (mu_ref m) (mu_ref m')
  end.
Definition apply_mutation (staging : string) (m : Mutation) : Repo unit :=
  let path := relative_path (mu_ref m) in
  match mu_content m with
  | Some content => write_exact_file staging path content
  | None =>
      run! _ := judged (λ w, match staged_tree w staging !! path with
                             | Some Link => Raise (ContainmentError "delete target must not be a symlink")
                             | None => Raise OsError
                             | Some _ => Ok tt
                             end) in
      os_step (λ w, with_staged w staging (delete path (staged_tree w staging)))
  end.
Fixpoint apply_all (staging : string) (mutations : list Mutation) : Repo unit :=
  match mutations with
  | [] => done tt
  | m :: mutations => run! _ := apply_mutation staging m in apply_all staging mutations
  end.
Definition apply_mutations (staging : string) (mutations : list Mutation) : Repo unit :=
  apply_all staging (sorted mutation_lt mutations).

(** [_validate_staged_reference_graph]. *)
Definition validate_reference_graph (user : Tree) : result unit :=
  let! refs := iter_document_refs user "user" in
  match collect_references (snapshot_read user) (S (size shipped + size user)) refs with
  | Ok _ => Ok tt
  | Raise (Raised "CatalogClosureError" _) =>
      Raise (ValidationError "staged catalog reference graph is invalid")
  | Raise e => Raise e
  end.

(** [_commit]; the base snapshot stays pinned until its finalizer runs. *)
Definition make_staging : Repo string := λ w,
  let staging := free_name STAGING (dom (w_generations w)) in
  (run! _ := os_step (λ w, with_generations w (<[staging := Directory None]> (w_generations w))) in
   run! _ := os_step (λ w, with_staged w staging ∅) in
   done staging) w.

Definition staged_commit (base : Tree) (staging : string) (mutations : list Mutation) : Repo string :=
  run! _ := stage_base base staging in
  run! _ := apply_mutations staging mutations in
  run! generation := judged (λ w, validate_catalog_root (staged_tree w staging) "user") in
  run! _ := judged (λ w, validate_reference_graph (staged_tree w staging)) in
  run! _ := finalize_generation staging generation in
  run! _ := publish_current generation in
  run! _ := cleanup_inactive_generations generation in
  done generation.

Definition drop_staging (staging : string) : Repo unit := λ w,
  match w_generations w !! staging with
  | Some (Directory _) => rmtree staging w
  | _ => (w, Done tt)
  end.

Definition commit_mutations (base_generation : string) (mutations : list Mutation) : Repo string :=
  run! current := judged read_current in
  if negb (bool_decide (current = base_generation)) then
    judged (λ _, Raise (ConflictError "catalog generation is stale"))
  else
  run! _ := snapshot_at current in
  run! base := judged (λ w, generation_catalog_root w current) in
  run! _ := judged (λ _, check_preconditions base mutations) in
  run! staging := make_staging in
  run! generation := on_error (staged_commit base staging mutations) (drop_staging staging) in
  snapshot_at generation.

(** [FilesystemCatalogUnitOfWork.commit]; the unit of work is closed however it
    ends. *)
Definition commit (u : UnitOfWork) : Repo string :=
  run! _ := judged (λ _, raise_if uw_closed u
                           with TransactionStateError "catalog unit of work is closed";;
                         raise_if match uw_mutations u with [] => true | _ => false end
                           with TransactionStateError "catalog unit of work has no mutations";;
                         Ok tt) in
  commit_mutations (uw_base u) (map snd (uw_mutations u)).

(** [begin]: a base that is given is not looked up. *)
Definition begin_work (base_generation : option string) : Repo UnitOfWork :=
  run! generation := match base_generation with
                     | None => snapshot
                     | Some g => judged (λ _, validated_revision g)
                     end in
  done {| uw_base := generation; uw_mutations := []; uw_publication_seen := false;
          uw_closed := false |}.

(** ** Recovery *)

(** [_recover_scope], the leftovers of an interrupted process first. *)
Definition recover_temp (temp : string) : Repo unit := λ w,
  match w_temps w !! temp with
  | Some (FileText _) => os_step (λ w, with_temps w (delete temp (w_temps w))) w
  | Some FileLink => (w, Failed (ContainmentError "CURRENT temporary file must not be a symlink"))
  | Some FileOther => (w, Failed (ContainmentError "CURRENT temporary entry must be a regular file"))
  | None => (w, Done tt)
  end.
Definition recover_staging (name : string) : Repo unit := λ w,
  match w_generations w !! name with
  | Some (Directory _) => rmtree name w
  | Some DirLink => (w, Failed (ContainmentError "catalog staging directory must not be a symlink"))
  | Some DirOther => (w, Failed (ContainmentError "catalog staging entry must be a directory"))
  | None => (w, Done tt)
  end.
Fixpoint for_each (names : list string) (body : string → Repo unit) : Repo unit :=
  match names with
  | [] => done tt
  | name :: names => run! _ := body name in for_each names body
  end.

Definition EMPTY_GENERATION : string := catalog_generation [].

Definition create_empty : Repo unit := λ w,
  let final := generation_name EMPTY_GENERATION in
  (run! _ := match w_generations w !! final with
             | Some d => judged (λ _, verify_directory d EMPTY_GENERATION
                 "existing empty generation directory failed integrity check")
             | None =>
                 os_write (λ w, with_generations w
                             (<[final := Directory (Some ∅)]> (w_generations w)))
                   (λ k w, match k with
                           | O => w
                           | S _ => with_generations w (<[final := Directory None]> (w_generations w))
                           end)
             end in
   publish_current EMPTY_GENERATION) w.

Definition recover_scope : Repo unit := λ w,
  (run! _ := for_each (elements (dom (w_temps w))) recover_temp in
   run! _ := for_each (List.filter is_staging (elements (dom (w_generations w)))) recover_staging in
   run! _ := (λ w, match w_current w with
                   | None => create_empty w
                   | Some _ => (w, Done tt)
                   end) in
   run! generation := judged read_current in
   run! t := judged (λ w, generation_catalog_root w generation) in
   run! actual := judged (λ _, validate_catalog_root t "user") in
   if negb (bool_decide (actual = generation)) then
     judged (λ _, Raise (ContainmentError "CURRENT does not match the stored catalog"))
   else cleanup_inactive_generations generation) w.

(** A process that starts has no snapshots. *)
Definition restart : Repo unit := λ w, recover_scope (with_live (with_pins w ∅) ∅).
End Repository.

Arguments Done {A} a. Arguments Failed {A} e. Arguments Crashed {A}.
