(* ===== verification/RepositoryInv.v ===== *)
(** * The user catalog: its programs

    Rules for programs that may stop anywhere, what each of them leaves alone, and
    what the trees they read and write contain. *)

From S2P Require Import Prelude.
From S2P Require Import PyData.
From S2P Require Import CatalogRefs.
From S2P Require Import TransitionOperation.
From S2P Require Import SessionReconcile.
From S2P Require Import CatalogClosure.
From S2P Require Import ClosureTheorems.
From S2P Require Import CatalogUpload.
From S2P Require Import UploadTheorems.
From S2P Require Import CatalogRepository.
From stdpp Require Import base list strings gmap gmultiset relations.
From Stdlib Require Import Ascii Lia.
Local Open Scope Z_scope.

(** ** Names *)

Lemma digest_shape s :
  sha256_digest_ok s = true → ∃ h, s = "sha256:" +:+ h ∧ all_chars hex_char h = true ∧ String.length h = 64%nat.
Proof.
  unfold sha256_digest_ok. rewrite !andb_true_iff. intros [[[h ->]%CatalogRefs.prefix_app Hlen%bool_decide_eq_true] Hc].
  assert (String.length h = 64%nat) as Hh.
  { change (7 + String.length h = 71)%nat in Hlen. lia. }
  exists h. split_and!; [done| |done].
  change (all_chars hex_char (String.substring 0 64 h) = true) in Hc. by rewrite substring_all in Hc.
Qed.

Lemma generation_name_digest h : generation_name ("sha256:" +:+ h) = h.
Proof.
  unfold generation_name. replace (String.prefix "sha256:" ("sha256:" +:+ h)) with true by by destruct h.
  change (String.substring 0 (String.length h - 0) h = h). rewrite Nat.sub_0_r. by apply substring_all.
Qed.

(** Digests and the names of their directories. *)
Lemma digest_name g : sha256_digest_ok g = true → "sha256:" +:+ generation_name g = g.
Proof. intros (h & -> & _)%digest_shape. by rewrite generation_name_digest. Qed.

Lemma digest_not_staging g : sha256_digest_ok g = true → is_staging (generation_name g) = false.
Proof.
  intros (h & -> & Hh & Hlen)%digest_shape. rewrite generation_name_digest.
  destruct h as [|c h]; [done|]. cbn [all_chars] in Hh. apply andb_true_iff in Hh as [Hc _].
  unfold is_staging, STAGING. cbn [String.prefix]. destruct (ascii_dec "." c) as [<-|]; [|done].
  by vm_compute in Hc.
Qed.

Lemma padding_length n : String.length (padding n) = n.
Proof. induction n as [|n IH]; cbn; [done|]. by rewrite IH. Qed.

Lemma text_length_app (s s' : string) : String.length (s +:+ s') = (String.length s + String.length s')%nat.
Proof.
  induction s as [|c s IH]; [done|].
  change (S (String.length (s +:+ s')) = S (String.length s + String.length s')). by rewrite IH.
Qed.

Lemma free_name_free prefix taken : prefix ≠ "" → free_name prefix taken ∉ taken.
Proof.
  intros Hp Hin. assert (∀ l, free_name prefix taken ∈ l →
    (String.length (free_name prefix taken) ≤ foldr (λ name n, String.length name `max` n) 0 l)%nat) as Hl.
  { induction l as [|x l IH]; [by intros ?%not_elem_of_nil|]. cbn.
    intros [<-|Hx]%elem_of_cons; [lia|]. specialize (IH Hx). lia. }
  specialize (Hl (elements taken) ltac:(by apply elem_of_elements)).
  unfold free_name in Hl at 1. rewrite text_length_app, padding_length in Hl. destruct prefix; [done|]. cbn in Hl. lia.
Qed.

Lemma prefix_self p s : String.prefix p (p +:+ s) = true.
Proof.
  induction p as [|c p IH]; [by destruct s|].
  change (String c p +:+ s) with (String c (p +:+ s)). cbn [String.prefix]. by destruct (ascii_dec c c).
Qed.

Lemma free_name_staging taken : is_staging (free_name STAGING taken) = true.
Proof. apply prefix_self. Qed.

(** ** [CURRENT] *)

Definition current_text (generation : string) : string := generation +:+ String newline "".

Lemma universal_newlines_plain s :
  all_chars (λ c, negb (bool_decide (c = carriage_return))) s = true → universal_newlines s = s.
Proof.
  induction s as [|c s IH]; cbn [universal_newlines all_chars]; [done|].
  intros [Hc%negb_true_iff Hs]%andb_true_iff. rewrite Hc. by rewrite IH.
Qed.

Lemma hex_plain c : hex_char c = true → bool_decide (c = newline) = false ∧ bool_decide (c = carriage_return) = false.
Proof.
  intros Hc. split; apply bool_decide_eq_false; intros ->; by vm_compute in Hc.
Qed.

Lemma current_reads w g :
  w_current w = Some (FileText (current_text g)) → sha256_digest_ok g = true → read_current w = Ok g.
Proof.
  intros Hw Hg. unfold read_current. rewrite Hw. pose proof Hg as (h & Eh & Hh & _)%digest_shape.
  assert (∀ ok, (∀ c, hex_char c = true → ok c = true) → all_chars ok "sha256:" = true → all_chars ok g = true) as Hall.
  { intros ok Hok Hpre. rewrite Eh, all_chars_app, Hpre. by apply (all_chars_impl hex_char). }
  unfold current_text. rewrite universal_newlines_plain.
  2: { rewrite all_chars_app, (Hall (λ c, negb (bool_decide (c = carriage_return)))); [done| |done].
       intros c Hc. by destruct (hex_plain c Hc) as [_ ->]. }
  rewrite split_on_cons.
  - cbn. by rewrite Hg.
  - unfold has_char. rewrite (Hall (λ c, negb (bool_decide (c = newline)))); [done| |done].
    intros c Hc. by destruct (hex_plain c Hc) as [-> _].
Qed.

Lemma read_current_ok w g : read_current w = Ok g → sha256_digest_ok g = true.
Proof.
  unfold read_current. repeat case_match; try done. intros [= <-]. by apply negb_false_iff.
Qed.

(** ** Programs *)

(** What holds between the world before a program and the world after it, however it
    ended. *)
Definition ensures {A} (R : World → World → Prop) (c : Repo A) : Prop := ∀ w, R w (c w).1.

Section Ensures.
Context (R : World → World → Prop) `{!PreOrder R}.

Lemma ensures_done {A} (a : A) : ensures R (done a).
Proof. intros w. reflexivity. Qed.

Lemma ensures_judged {A} (f : World → result A) : ensures R (judged f).
Proof. intros w. reflexivity. Qed.

Lemma ensures_bind {A B} (c : Repo A) (k : A → Repo B) :
  ensures R c → (∀ a, ensures R (k a)) → ensures R (wbind c k).
Proof.
  intros Hc Hk w. specialize (Hc w). unfold wbind. destruct (c w) as [w1 [a|e|]]; cbn in *; [|done|done].
  etrans; [exact Hc|apply Hk].
Qed.

Lemma ensures_on_error {A} (c : Repo A) handler :
  ensures R c → ensures R handler → ensures R (on_error c handler).
Proof.
  intros Hc Hh w. specialize (Hc w). unfold on_error. destruct (c w) as [w1 [a|e|]]; cbn in *; [done| |done].
  specialize (Hh w1). destruct (handler w1) as [w2 [u|e'|]]; cbn in *; by etrans.
Qed.

Lemma ensures_finally {A} (c : Repo A) handler :
  ensures R c → ensures R handler → ensures R (finally c handler).
Proof.
  intros Hc Hh w. pose proof (ensures_on_error c handler Hc Hh w) as H. unfold finally.
  destruct (on_error c handler w) as [w1 [a|e|]]; cbn in *; [|done|done].
  etrans; [exact H|]. apply ensures_bind; [done|intros ?; apply ensures_done].
Qed.

Lemma ensures_for_each names body : (∀ name, name ∈ names → ensures R (body name)) → ensures R (for_each names body).
Proof.
  induction names as [|name names IH]; intros Hb; cbn [for_each]; [apply ensures_done|].
  apply ensures_bind; [apply Hb; by left|]. intros _. apply IH. intros n Hn. apply Hb. by right.
Qed.
End Ensures.

(** ** What a program leaves alone *)

Definition holds (w : World) (name : string) (t : Tree) : Prop :=
  w_generations w !! name = Some (Directory (Some t)).

(** [CURRENT], the pins and the directories of these names. *)
Record kept (keep : string → Prop) (w w' : World) : Prop := {
  kp_current : w_current w' = w_current w;
  kp_pins : w_pins w' = w_pins w;
  kp_holds name t : keep name → holds w name t → holds w' name t;
}.

#[global] Instance kept_preorder keep : PreOrder (kept keep).
Proof.
  split; [by split|]. intros w1 w2 w3 [H1 H2 H3] [H4 H5 H6]. split; [congruence..|]. auto.
Qed.

(** The same, and no new directory of these names. *)
Record same (keep : string → Prop) (w w' : World) : Prop := {
  sm_current : w_current w' = w_current w;
  sm_pins : w_pins w' = w_pins w;
  sm_generations name : keep name → w_generations w' !! name = w_generations w !! name;
}.

#[global] Instance same_preorder keep : PreOrder (same keep).
Proof.
  split; [by split|]. intros w1 w2 w3 [H1 H2 H3] [H4 H5 H6]. split; [congruence..|].
  intros name Hn. by rewrite H6, H3.
Qed.

Lemma same_kept keep w w' : same keep w w' → kept keep w w'.
Proof. intros [H1 H2 H3]. split; [done..|]. unfold holds. intros name t Hn. by rewrite H3. Qed.

(** Every directory but those of staging. *)
Abbreviation unstaged := (λ name, is_staging name = false).

Lemma same_with_generations keep w g :
  (∀ name, keep name → g !! name = w_generations w !! name) → same keep w (with_generations w g).
Proof. by intros H. Qed.

Lemma same_write keep whole part :
  (∀ w, same keep w (whole w)) → (∀ k w, same keep w (part k w)) →
  ensures (same keep) (os_write whole part).
Proof.
  intros Hw Hp w. unfold os_write. destruct (w_faults w) as [|[|k|k] faults]; cbn; [done| | |];
    (etrans; [|apply Hw || apply Hp]; by split).
Qed.

Lemma same_rmtree keep name : ¬ keep name → ensures (same keep) (rmtree name).
Proof.
  intros Hn. apply same_write; intros; apply same_with_generations; intros x Hx;
    (rewrite lookup_delete_ne || rewrite lookup_alter_ne); congruence.
Qed.

Lemma same_staged staging t w : is_staging staging = true → same unstaged w (with_staged w staging t).
Proof. intros Hs. apply same_with_generations. intros x Hx. rewrite lookup_insert_ne; congruence. Qed.

Lemma os_write_at (R : World → World → Prop) whole part w :
  (∀ faults, R w (whole (with_faults w faults))) → (∀ k faults, R w (part k (with_faults w faults))) →
  R w (os_write whole part w).1.
Proof.
  intros Hw Hp. unfold os_write. destruct (w_faults w) as [|[|k|k] faults] eqn:E; cbn; [|auto..].
  specialize (Hw (w_faults w)). by destruct w.
Qed.

Lemma os_write_done whole part w w' u :
  os_write whole part w = (w', Done u) → ∃ faults, w' = whole (with_faults w faults).
Proof.
  unfold os_write. destruct (w_faults w) as [|[|k|k] faults] eqn:E; try done.
  - intros [= <- _]. exists (w_faults w). by destruct w.
  - intros [= <- _]. by exists faults.
Qed.

Lemma ensures_bind_at (R : World → World → Prop) `{!PreOrder R} {A B} (c : Repo A) (k : A → Repo B) w :
  R w (c w).1 → (∀ a, ensures R (k a)) → R w (wbind c k w).1.
Proof.
  intros Hc Hk. unfold wbind. destruct (c w) as [w1 [a|e|]]; cbn in *; [|done|done].
  etrans; [exact Hc|apply Hk].
Qed.

Lemma wbind_done {A B} (c : Repo A) (k : A → Repo B) w w' b :
  wbind c k w = (w', Done b) → ∃ w1 a, c w = (w1, Done a) ∧ k a w1 = (w', Done b).
Proof. unfold wbind. destruct (c w) as [w1 [a|e|]]; naive_solver. Qed.

Lemma judged_done {A} (f : World → result A) w w' a :
  judged f w = (w', Done a) → w' = w ∧ f w = Ok a.
Proof. unfold judged. destruct (f w); naive_solver. Qed.

Section Programs.
Context {grammar : Grammar} (shipped : Tree).

(** ** Staging *)

Lemma same_make_staging : ensures (same unstaged) make_staging.
Proof.
  intros w. unfold make_staging. set (staging := free_name STAGING (dom (w_generations w))).
  assert (is_staging staging = true) as Hs by apply free_name_staging.
  apply (ensures_bind (same unstaged)); [|intros ?; apply (ensures_bind (same unstaged)); [|]].
  - apply same_write; [|done]. intros w'. apply same_with_generations. intros x Hx. rewrite lookup_insert_ne; congruence.
  - apply same_write; [|done]. intros w'. by apply same_staged.
  - intros ?. apply (ensures_done (same unstaged)).
Qed.

Lemma same_write_exact_file staging path content :
  is_staging staging = true → ensures (same unstaged) (write_exact_file staging path content).
Proof.
  intros Hs. apply (ensures_bind (same unstaged)); [apply (ensures_judged (same unstaged))|].
  intros ?. apply same_write; intros; by apply same_staged.
Qed.

Lemma same_stage_documents staging documents :
  is_staging staging = true → ensures (same unstaged) (stage_documents staging documents).
Proof.
  intros Hs. induction documents as [|d documents IH]; cbn [stage_documents];
    [apply (ensures_done (same unstaged))|].
  apply (ensures_bind (same unstaged)); [by apply same_write_exact_file|done].
Qed.

Lemma same_apply_all staging mutations :
  is_staging staging = true → ensures (same unstaged) (apply_all staging mutations).
Proof.
  intros Hs. induction mutations as [|m mutations IH]; cbn [apply_all];
    [apply (ensures_done (same unstaged))|].
  apply (ensures_bind (same unstaged)); [|done]. unfold apply_mutation.
  destruct (mu_content m); [by apply same_write_exact_file|].
  apply (ensures_bind (same unstaged)); [apply (ensures_judged (same unstaged))|].
  intros ?. apply same_write; [|done]. intros. by apply same_staged.
Qed.

Lemma same_drop_staging staging : is_staging staging = true → ensures (same unstaged) (drop_staging staging).
Proof.
  intros Hs w. unfold drop_staging. destruct (w_generations w !! staging) as [[[t|]| |]|]; try done;
    apply same_rmtree; congruence.
Qed.

Lemma same_fsync keep : ensures (same keep) fsync.
Proof. by apply same_write. Qed.

(** A generation is put in place whole. *)
Lemma finalize_spec staging generation w :
  is_staging staging = true → sha256_digest_ok generation = true →
  kept unstaged w (finalize_generation staging generation w).1 ∧
  ∀ u t, (finalize_generation staging generation w).2 = Done u → holds w staging t →
    ∃ t', holds (finalize_generation staging generation w).1 (generation_name generation) t' ∧
      (t' = t ∨ holds w (generation_name generation) t' ∧ validate_catalog_root t' "user" = Ok generation).
Proof.
  intros Hs Hg%digest_not_staging. unfold finalize_generation.
  set (final := generation_name generation) in *.
  destruct (w_generations w !! final) as [d|] eqn:Ed.
  - split.
    + apply same_kept, (ensures_bind (same unstaged)); [apply (ensures_judged (same unstaged))|].
      intros ?. apply same_rmtree. congruence.
    + intros u t. unfold wbind, judged. destruct (verify_directory d generation _) as [[]|e] eqn:Ev; [|done].
      destruct d as [[t'|]| |]; try done. intros Hr Ht. exists t'.
      apply rbind_Ok in Ev as (actual & Ha & [->%negb_false_iff%bool_decide_eq_true _]%raise_if_Ok).
      split; [|by right]. apply (kp_holds (λ name, name = final) w); [|done|done].
      apply same_kept, same_rmtree. congruence.
  - set (whole := λ w : World, match w_generations w !! staging with
      | Some d => with_generations w (<[final := d]> (delete staging (w_generations w)))
      | None => w
      end).
    assert (∀ faults, kept unstaged w (whole (with_faults w faults))) as Hk.
    { intros faults. unfold whole. cbn. destruct (w_generations w !! staging); [|done].
      split; [done..|]. unfold holds. cbn. intros name t Hn Ht. rewrite lookup_insert_ne, lookup_delete_ne; congruence. }
    split.
    + apply (ensures_bind_at (kept unstaged)); [|intros ? ?; apply same_kept, same_fsync].
      apply (os_write_at (kept unstaged)); [done|]. intros k faults. by split.
    + intros u t Hr Ht. destruct (wbind (os_step whole) (λ _, fsync) w) as [w' r] eqn:E. cbn in Hr. subst r.
      apply wbind_done in E as (w1 & a & [faults ->]%os_write_done & [faults' ->]%os_write_done).
      exists t. split; [|by left]. unfold holds, whole in *. cbn. rewrite Ht. cbn. by rewrite lookup_insert_eq.
Qed.

(** ** Cleaning up *)

(** What the clean-up spares. *)
Definition spared (pins : gmap string nat) (current name : string) : Prop :=
  is_staging name = true ∨ "sha256:" +:+ name = current ∨
  (0 < default 0%nat (pins !! ("sha256:" +:+ name)))%nat.

(** The pins stay what they are during a clean-up. *)
Definition cleans (pins : gmap string nat) (current : string) (w w' : World) : Prop :=
  w_pins w = pins → same (spared pins current) w w'.

#[local] Instance cleans_preorder pins current : PreOrder (cleans pins current).
Proof.
  split; [by intros w _|]. intros w1 w2 w3 H1 H2 Hp. specialize (H1 Hp). etrans; [exact H1|].
  apply H2. by rewrite (sm_pins _ _ _ H1).
Qed.

Lemma cleans_directory pins current removed name :
  ensures (cleans pins current) (cleanup_directory current removed name).
Proof.
  intros w Hp. unfold cleanup_directory. destruct (w_generations w !! name) as [d|]; [|done].
  destruct (is_staging name) eqn:Es; [done|]. destruct (negb _); [done|]. destruct (negb _); [done|].
  case_bool_decide as Hc; [done|]. destruct (Nat.ltb _ _) eqn:El; [done|].
  destruct (verify_directory _ _ _); [|done].
  apply (ensures_bind (same (spared pins current))); [|intros _; apply (ensures_done (same _))].
  apply same_rmtree. apply Nat.ltb_ge in El. rewrite Hp in El. intros [?|[?|?]]; [congruence..|lia].
Qed.

Lemma cleans_directories pins current removed names :
  ensures (cleans pins current) (cleanup_directories current removed names).
Proof.
  revert removed. induction names as [|name names IH]; intros removed; cbn [cleanup_directories].
  { apply (ensures_done (cleans pins current)). }
  apply (ensures_bind (cleans pins current)); [apply cleans_directory|done].
Qed.

Lemma cleanup_same current w : same (spared (w_pins w) current) w (cleanup_inactive_generations current w).1.
Proof.
  enough (ensures (cleans (w_pins w) current) (cleanup_inactive_generations current)) as H by by apply H.
  intros w1. unfold cleanup_inactive_generations.
  apply (ensures_bind (cleans (w_pins w) current)); [apply cleans_directories|].
  intros [] w2 _; [apply same_fsync|done].
Qed.

(** ** Publishing *)

(** [CURRENT] stays or names the generation. *)
Record published (generation : string) (w w' : World) : Prop := {
  pb_current : w_current w' = w_current w ∨ w_current w' = Some (FileText (current_text generation));
  pb_pins : w_pins w' = w_pins w;
  pb_generations : w_generations w' = w_generations w;
}.

#[local] Instance published_preorder generation : PreOrder (published generation).
Proof.
  split; [split; auto|]. intros w1 w2 w3 [H1 H2 H3] [H4 H5 H6].
  split; [|congruence..]. destruct H4 as [->|]; auto.
Qed.

Lemma published_write generation whole part :
  (∀ w, published generation w (whole w)) → (∀ k w, published generation w (part k w)) →
  ensures (published generation) (os_write whole part).
Proof.
  intros Hw Hp w. apply os_write_at; intros; (etrans; [|apply Hw || apply Hp]; split; auto).
Qed.

Lemma published_drop_temp generation temp : ensures (published generation) (drop_temp temp).
Proof.
  intros w. unfold drop_temp. destruct (w_temps w !! temp) as [[text| |]|]; try done.
  apply published_write; intros; split; auto.
Qed.

Lemma publish_spec generation : ensures (published generation) (publish_current generation).
Proof.
  intros w. unfold publish_current. apply (ensures_bind (published generation)); [apply (ensures_judged (published _))|].
  intros ?. apply (ensures_finally (published generation)); [|apply published_drop_temp].
  apply (ensures_bind (published generation)); [apply published_write; intros; split; auto|].
  intros ?. apply (ensures_bind (published generation)); [apply published_write; intros; split; auto|].
  intros ?. apply published_write; intros; split; auto.
Qed.

(** A publication that returned has happened. *)
Lemma drop_temp_current temp w w' u : drop_temp temp w = (w', Done u) → w_current w' = w_current w.
Proof.
  unfold drop_temp. destruct (w_temps w !! temp) as [[text| |]|].
  - by intros [faults ->]%os_write_done.
  - by intros [= <- _].
  - by intros [= <- _].
  - by intros [= <- _].
Qed.

Lemma finally_done {A} (c : Repo A) handler w w' a :
  finally c handler w = (w', Done a) → ∃ w1 u, c w = (w1, Done a) ∧ handler w1 = (w', Done u).
Proof.
  unfold finally, on_error. destruct (c w) as [w1 [b|e|]]; try done.
  - intros (w2 & u & Hh & [= <- <-])%wbind_done. eauto.
  - by destruct (handler w1) as [w2 [|? |]].
Qed.

Lemma publish_done generation w w' u :
  publish_current generation w = (w', Done u) → w_current w' = Some (FileText (current_text generation)).
Proof.
  unfold publish_current. intros (w1 & a & _ & H)%wbind_done. apply finally_done in H as (w2 & b & H & Hd).
  rewrite (drop_temp_current _ _ _ _ Hd).
  apply wbind_done in H as (w3 & c & _ & H). apply wbind_done in H as (w4 & d & [faults ->]%os_write_done & H).
  by apply os_write_done in H as [faults' ->].
Qed.

(** ** What a tree contains *)

Lemma parse_any_family v families p :
  parse_catalog_reference v (Some families) = Ok p → parse_catalog_reference v None = Ok p.
Proof.
  unfold parse_catalog_reference. intros (ns & -> & H)%rbind_Ok. cbn [rbind].
  apply rbind_Ok in H as (rel & -> & H). cbn [rbind].
  do 5 (apply raise_if_Ok in H as [-> H]). destruct (splitext _) as [base suffix].
  apply raise_if_Ok in H as [-> H]. apply rbind_Ok in H as (parts & -> & H). cbn [rbind].
  apply rbind_Ok in H as (stem & -> & H). cbn [rbind]. by apply raise_if_Ok in H as [_ H].
Qed.

Lemma parsed_ref_Ok v r :
  parsed_ref v = Ok r → rf_ref r = v ∧ v = ref_text (rf_namespace r) (relative_path v).
Proof.
  unfold parsed_ref. destruct (rbind _ _) as [r'|e] eqn:E; [|done]. intros [= ->].
  apply rbind_Ok in E as (ref & Hnew & E). pose proof (new_ref_same _ _ Hnew) as ->.
  apply rbind_Ok in Hnew as (p & Hp & _). rewrite (parse_any_family _ _ _ Hp) in E. cbn [rbind] in E.
  apply rbind_Ok in E as (family & _ & [_ [= <-]]%raise_if_Ok). split; [done|].
  unfold relative_path, parsed. rewrite Hp. by apply parsed_spelling.
Qed.

Lemma ref_text_inj namespace path path' : ref_text namespace path = ref_text namespace path' → path = path'.
Proof. intros H%app_inj_r. congruence. Qed.

(** A listed document is at the path of its reference. *)
Lemma document_ref_Ok t path entry ref :
  document_ref t "user" (path, entry) = Ok ref → ref = ref_text "user" path ∧ relative_path ref = path.
Proof.
  unfold document_ref. intros [_ H]%raise_if_Ok. apply raise_if_Ok in H as [_ H]. apply raise_if_Ok in H as [_ H].
  apply rbind_Ok in H as (r & [Href Hv]%parsed_ref_Ok & H).
  apply raise_if_Ok in H as [Hns%negb_false_iff%bool_decide_eq_true [= <-]]. rewrite Href. split; [done|].
  rewrite Hns in Hv. symmetry. by apply (ref_text_inj "user").
Qed.

Lemma iter_refs_elem t refs ref :
  iter_document_refs t "user" = Ok refs →
  ref ∈ refs ↔ ref = ref_text "user" (relative_path ref) ∧ is_Some (t !! relative_path ref).
Proof.
  intros (l & Hl%mapM_r_Forall2 & [= <-])%rbind_Ok. rewrite elem_of_sorted. split.
  - intros [i Hi]%list_elem_of_lookup. destruct (Forall2_lookup_r _ _ _ _ _ Hl Hi) as ([path e] & Hpe & Hd).
    apply document_ref_Ok in Hd as [-> Hp]. rewrite Hp. split; [done|].
    apply list_elem_of_lookup_2, elem_of_map_to_list in Hpe. eauto.
  - intros [Href [e He]]. apply elem_of_map_to_list in He.
    apply list_elem_of_lookup in He as [i Hi]. destruct (Forall2_lookup_l _ _ _ _ _ Hl Hi) as (ref' & Hr & Hd).
    apply document_ref_Ok in Hd as [Hr' _]. rewrite <-Href in Hr'. subst ref'. by eapply list_elem_of_lookup_2.
Qed.

Lemma read_exact_file_Ok t path content : read_exact_file t path = Ok content → t !! path = Some (Regular content).
Proof.
  unfold read_exact_file. intros [_ H]%raise_if_Ok. apply raise_if_Ok in H as [_ H].
  destruct (t !! path) as [[c| | |]|]; naive_solver.
Qed.

(** A valid tree holds documents only. *)
Lemma valid_regular t g path e :
  validate_catalog_root t "user" = Ok g → t !! path = Some e → ∃ content, e = Regular content.
Proof.
  intros (refs & Hrefs & (docs & Hdocs%mapM_r_Forall2 & _)%rbind_Ok)%rbind_Ok He.
  pose proof Hrefs as (l & Hl%mapM_r_Forall2 & _)%rbind_Ok.
  assert ((path, e) ∈ map_to_list t) as [i Hi]%list_elem_of_lookup by by apply elem_of_map_to_list.
  destruct (Forall2_lookup_l _ _ _ _ _ Hl Hi) as (ref & _ & [Href Hp]%document_ref_Ok).
  assert (ref ∈ refs) as [j Hj]%list_elem_of_lookup.
  { apply (iter_refs_elem t refs ref Hrefs). rewrite Hp. eauto. }
  destruct (Forall2_lookup_l _ _ _ _ _ Hdocs Hj) as ([ref' c] & _ & (c' & Hc & _)%rbind_Ok).
  rewrite Hp in Hc. apply read_exact_file_Ok in Hc. exists c'. congruence.
Qed.

Lemma text_app_cancel (s1 s2 x : string) : s1 +:+ x = s2 +:+ x → s1 = s2.
Proof.
  intros H. assert (String.length s1 = String.length s2) as Hlen.
  { apply (f_equal String.length) in H. rewrite !text_length_app in H. lia. }
  revert s2 H Hlen. induction s1 as [|c s1 IH]; intros [|c' s2] H Hlen; try done.
  change (String c (s1 +:+ x) = String c' (s2 +:+ x)) in H. injection H as -> H. f_equal.
  apply IH; [done|]. by injection Hlen.
Qed.

(** References of the user's documents. *)
Definition user_ref (ref : string) : Prop := ref = ref_text "user" (relative_path ref).

Lemma user_ref_inj ref ref' : user_ref ref → user_ref ref' → relative_path ref = relative_path ref' → ref = ref'.
Proof. unfold user_ref. congruence. Qed.

Lemma snapshot_get_user user ref d :
  user_ref ref → snapshot_get shipped user ref = Ok d →
  cd_ref d = ref ∧ user !! relative_path ref = Some (Regular (cd_content d)) ∧
  cd_revision d = sha256_digest (cd_content d).
Proof.
  intros Hu (r & [Href Hv]%parsed_ref_Ok & H)%rbind_Ok. apply rbind_Ok in H as (content & Hc & H).
  apply rbind_Ok in H as (family & _ & [_ [= <-]]%raise_if_Ok). cbn. rewrite Href in *.
  assert (rf_namespace r = "user") as Hns.
  { unfold user_ref, ref_text in *. apply (text_app_cancel _ _ (String ":" (relative_path ref))). congruence. }
  rewrite Hns in Hc. split_and!; [done| |done]. by apply read_exact_file_Ok.
Qed.

(** The documents of a valid tree, exported. *)
Lemma export_user user g docs :
  validate_catalog_root user "user" = Ok g → export_documents shipped user (Some "user") None = Ok docs →
  (∀ d, d ∈ docs → user !! relative_path (cd_ref d) = Some (Regular (cd_content d))) ∧
  ∀ path e, user !! path = Some e → ∃ d, d ∈ docs ∧ relative_path (cd_ref d) = path.
Proof.
  intros Hv (entries & Hlist & Hdocs%mapM_r_Forall2)%rbind_Ok.
  apply raise_if_Ok in Hlist as [_ Hlist]. cbv zeta in Hlist.
  apply rbind_Ok in Hlist as (lists & Hlists%mapM_r_Forall2 & [= <-]).
  apply Forall2_cons_inv_l in Hlists as (l & k & (refs & Hrefs & Hl%mapM_r_Forall2)%rbind_Ok & ->%Forall2_nil_inv_l & ->).
  cbn [root_for] in Hrefs. change (iter_document_refs user "user" = Ok refs) in Hrefs.
  cbn [concat] in Hdocs. rewrite app_nil_r in Hdocs.
  assert (List.filter (λ _ : CatalogDocument, true) l = l) as Hfilter.
  { clear. induction l as [|x l IH]; cbn; [done|]. by rewrite IH. }
  rewrite Hfilter in Hdocs.
  assert (∀ d, d ∈ l → user_ref (cd_ref d) ∧ cd_ref d ∈ refs) as Hl1.
  { intros d [i Hi]%list_elem_of_lookup. destruct (Forall2_lookup_r _ _ _ _ _ Hl Hi) as (ref & Hr & Hg).
    apply list_elem_of_lookup_2 in Hr. pose proof (proj1 (iter_refs_elem _ _ _ Hrefs) Hr) as [Hu _].
    destruct (snapshot_get_user _ _ _ Hu Hg) as (-> & _). done. }
  split.
  - intros d [i Hi]%list_elem_of_lookup. destruct (Forall2_lookup_r _ _ _ _ _ Hdocs Hi) as (d0 & Hd0 & Hg).
    apply list_elem_of_lookup_2, elem_of_sorted, Hl1 in Hd0 as [Hu _].
    destruct (snapshot_get_user _ _ _ Hu Hg) as (-> & ? & _). done.
  - intros path e He. pose proof Hrefs as (l0 & Hl0%mapM_r_Forall2 & _)%rbind_Ok.
    assert ((path, e) ∈ map_to_list user) as [i Hi]%list_elem_of_lookup by by apply elem_of_map_to_list.
    destruct (Forall2_lookup_l _ _ _ _ _ Hl0 Hi) as (ref & _ & [Href Hp]%document_ref_Ok).
    assert (ref ∈ refs) as [j Hj]%list_elem_of_lookup.
    { apply (iter_refs_elem user refs ref Hrefs). rewrite Hp. eauto. }
    assert (user_ref ref) as Hu by (unfold user_ref; by rewrite Hp).
    destruct (Forall2_lookup_l _ _ _ _ _ Hl Hj) as (d & Hd & Hg).
    destruct (snapshot_get_user _ _ _ Hu Hg) as (Hdr & _).
    assert (d ∈ sorted (λ d d', str_lt (cd_ref d) (cd_ref d')) l) as [k Hk]%list_elem_of_lookup.
    { apply elem_of_sorted. by eapply list_elem_of_lookup_2. }
    destruct (Forall2_lookup_l _ _ _ _ _ Hdocs Hk) as (d' & Hd' & Hg').
    rewrite Hdr in Hg'. destruct (snapshot_get_user _ _ _ Hu Hg') as (Hdr' & _).
    exists d'. split; [by eapply list_elem_of_lookup_2|]. by rewrite Hdr'.
Qed.

(** Staging them gives the tree again. *)
Definition put_document (t : Tree) (d : CatalogDocument) : Tree :=
  <[relative_path (cd_ref d) := Regular (cd_content d)]> t.

Lemma put_documents (base t : Tree) docs :
  t ⊆ base → (∀ d, d ∈ docs → base !! relative_path (cd_ref d) = Some (Regular (cd_content d))) →
  (∀ path e, base !! path = Some e → t !! path = Some e ∨ ∃ d, d ∈ docs ∧ relative_path (cd_ref d) = path) →
  foldl put_document t docs = base.
Proof.
  revert t. induction docs as [|d docs IH]; intros t Hsub Hin Hall; cbn [foldl].
  - apply map_eq. intros path. destruct (base !! path) as [e|] eqn:E.
    + destruct (Hall path e E) as [?|(d & ?%not_elem_of_nil & _)]; done.
    + destruct (t !! path) as [e|] eqn:E'; [|done]. eapply lookup_weaken in E'; [|done]. congruence.
  - assert (base !! relative_path (cd_ref d) = Some (Regular (cd_content d))) as Hd by (apply Hin; by left).
    apply IH.
    + apply insert_subseteq_l; done.
    + intros d' Hd'. apply Hin. by right.
    + intros path e E. destruct (decide (path = relative_path (cd_ref d))) as [->|Hne].
      * left. unfold put_document. rewrite lookup_insert_eq. congruence.
      * destruct (Hall path e E) as [Ht|(d' & [->|Hd']%elem_of_cons & Hp)]; [|congruence|eauto].
        left. unfold put_document. by rewrite lookup_insert_ne.
Qed.
End Programs.

(** ** Counting the snapshots *)

(** The repository's count of the snapshots of a generation is how many there are. *)
Definition counted (w : World) : Prop :=
  ∀ g, default 0%nat (w_pins w !! g) = multiplicity g (w_live w).

Definition uncounted (w w' : World) : Prop := w_pins w' = w_pins w ∧ w_live w' = w_live w.
#[global] Instance uncounted_preorder : PreOrder uncounted.
Proof. split; [done|]. intros w1 w2 w3 [H1 H2] [H3 H4]. split; congruence. Qed.

Definition counts (w w' : World) : Prop := counted w → counted w'.
#[global] Instance counts_preorder : PreOrder counts.
Proof. split; [by intros w H|]. intros w1 w2 w3 H1 H2 H. by apply H2, H1. Qed.

Lemma uncounted_counts w w' : uncounted w w' → counts w w'.
Proof. intros [Hp Hl] H g. by rewrite Hp, Hl. Qed.

Lemma uncounted_write whole part :
  (∀ w, uncounted w (whole w)) → (∀ k w, uncounted w (part k w)) → ensures uncounted (os_write whole part).
Proof. intros Hw Hp w. apply os_write_at; intros; (etrans; [|apply Hw || apply Hp]; done). Qed.

Lemma uncounted_step whole : (∀ w, uncounted w (whole w)) → ensures uncounted (os_step whole).
Proof. intros Hw. by apply uncounted_write. Qed.

Lemma uncounted_rmtree name : ensures uncounted (rmtree name).
Proof. by apply uncounted_write. Qed.

Lemma uncounted_fsync : ensures uncounted fsync.
Proof. by apply uncounted_step. Qed.

#[export] Hint Resolve uncounted_rmtree uncounted_fsync : nodal.

(** [uncount] goes through a program down to its writes. *)
Ltac uncount :=
  repeat first
    [ done | solve [auto with nodal]
    | apply (ensures_done uncounted) | apply (ensures_judged uncounted)
    | apply uncounted_step; intros ? | apply uncounted_write; intros
    | apply (ensures_bind uncounted); [|intros ?]
    | apply (ensures_on_error uncounted) | apply (ensures_finally uncounted)
    | apply (ensures_for_each uncounted); intros ? ?
    | match goal with
      | |- ensures _ (match ?o with _ => _ end) => destruct o
      | |- ensures _ (if ?b then _ else _) => destruct b
      | |- uncounted _ (match ?o with _ => _ end) => destruct o
      end ].

(** A program that looks at the world first. *)
Lemma ensures_look {A} R (c : World → Repo A) : (∀ w0, ensures R (c w0)) → ensures R (λ w, c w w).
Proof. intros H w. apply (H w). Qed.

Section Counting.
Context {grammar : Grammar} (shipped : Tree).

Lemma uncounted_cleanup current : ensures uncounted (cleanup_inactive_generations current).
Proof.
  assert (∀ names removed, ensures uncounted (cleanup_directories current removed names)) as H.
  { induction names as [|name names IH]; intros removed; cbn [cleanup_directories]; uncount.
    intros w. unfold cleanup_directory. repeat case_match; try done.
    change (uncounted w ((wbind (rmtree name) (λ _, done true)) w).1).
    match goal with |- uncounted _ (?c w).1 => enough (ensures uncounted c) as He by apply He end. uncount. }
  unfold cleanup_inactive_generations.
  apply (ensures_look uncounted (λ w0, wbind (cleanup_directories current false
    (sorted_set str_lt (dom (w_generations w0)))) _)). intros w0. uncount.
Qed.
#[local] Hint Resolve uncounted_cleanup : nodal.

Lemma uncounted_drop_temp temp : ensures uncounted (drop_temp temp).
Proof. intros w. unfold drop_temp. repeat case_match; try done. by apply uncounted_step. Qed.
#[local] Hint Resolve uncounted_drop_temp : nodal.

Lemma uncounted_publish generation : ensures uncounted (publish_current generation).
Proof.
  intros w. unfold publish_current. set (temp := free_name _ _).
  match goal with |- uncounted _ (?c w).1 => enough (ensures uncounted c) as He by apply He end.
  uncount.
Qed.
#[local] Hint Resolve uncounted_publish : nodal.

Lemma uncounted_finalize staging generation : ensures uncounted (finalize_generation staging generation).
Proof.
  intros w. unfold finalize_generation.
  destruct (w_generations w !! _);
    match goal with |- uncounted _ (?c w).1 => enough (ensures uncounted c) as He by apply He end; uncount.
Qed.
#[local] Hint Resolve uncounted_finalize : nodal.

Lemma uncounted_staged_commit base staging ms : ensures uncounted (staged_commit shipped base staging ms).
Proof.
  assert (∀ docs, ensures uncounted (stage_documents staging docs)) as Hd.
  { induction docs as [|d docs IH]; cbn [stage_documents]; uncount. }
  assert (∀ ms, ensures uncounted (apply_all staging ms)) as Ha.
  { induction ms0 as [|m ms0 IH]; cbn [apply_all]; uncount. unfold apply_mutation. uncount. }
  unfold staged_commit, stage_base, apply_mutations. uncount.
Qed.

Lemma uncounted_make_staging : ensures uncounted make_staging.
Proof.
  intros w. unfold make_staging. set (staging := free_name _ _).
  match goal with |- uncounted _ (?c w).1 => enough (ensures uncounted c) as He by apply He end. uncount.
Qed.

Lemma uncounted_drop_staging staging : ensures uncounted (drop_staging staging).
Proof. intros w. unfold drop_staging. repeat case_match; try done; apply uncounted_rmtree. Qed.

Lemma uncounted_recover : ensures uncounted recover_scope.
Proof.
  unfold recover_scope. apply (ensures_look uncounted (λ w0, wbind (for_each (elements (dom (w_temps w0))) _)
    (λ _, wbind (for_each (List.filter is_staging (elements (dom (w_generations w0)))) _) _))).
  intros w0. apply (ensures_bind uncounted); [|intros ?; apply (ensures_bind uncounted); [|intros ?]].
  - apply (ensures_for_each uncounted). intros temp _ w. unfold recover_temp. repeat case_match; try done.
    by apply uncounted_step.
  - apply (ensures_for_each uncounted). intros name _ w. unfold recover_staging.
    repeat case_match; try done; apply uncounted_rmtree.
  - apply (ensures_bind uncounted); [|intros ?; uncount].
    intros w. destruct (w_current w); [done|]. unfold create_empty.
    match goal with |- uncounted _ (?c w).1 => enough (ensures uncounted c) as He by apply He end.
    uncount.
Qed.

(** A snapshot is counted, and so is its end. *)
Lemma counts_snapshot_at g : ensures counts (snapshot_at g).
Proof.
  intros w. unfold snapshot_at, wbind, judged. destruct (generation_catalog_root w g); [|done].
  intros H h. cbn [fst w_pins w_live with_pins with_live]. specialize (H h).
  rewrite multiplicity_disj_union, lookup_insert. case_decide as E.
  - subst h. by rewrite H, multiplicity_singleton_eq.
  - rewrite multiplicity_singleton_ne by done. exact H.
Qed.

Lemma counts_snapshot : ensures counts snapshot.
Proof. apply (ensures_bind counts); [apply (ensures_judged counts)|apply counts_snapshot_at]. Qed.

Lemma counted_release g w :
  counted w → g ∈ w_live w → counted (release_snapshot g (with_live w (w_live w ∖ {[+ g +]}))).1.
Proof.
  intros H Hg. unfold release_snapshot.
  match goal with |- counted (?c ?v).1 => enough (ensures uncounted c) as He;
    [apply (uncounted_counts v); [apply He|]|] end.
  2: uncount.
  assert (0 < multiplicity g (w_live w))%nat as Hpos by by apply elem_of_multiplicity.
  intros h. unfold unpin. cbn [w_pins w_live with_pins with_live]. rewrite multiplicity_difference. pose proof (H g) as Hc. specialize (H h).
  destruct (decide (h = g)) as [->|Hne].
  - rewrite multiplicity_singleton_eq. destruct (w_pins w !! g) as [[|[|n]]|] eqn:E; cbn in Hc;
      (rewrite lookup_insert_eq || rewrite lookup_delete_eq); cbn; lia.
  - rewrite multiplicity_singleton_ne, Nat.sub_0_r by done. rewrite <-H.
    destruct (w_pins w !! g) as [[|[|n]]|]; by (rewrite lookup_insert_ne || rewrite lookup_delete_ne).
Qed.

Lemma counted_restart w : counted (restart w).1.
Proof.
  unfold restart. eapply uncounted_counts; [apply uncounted_recover|]. intros g. cbn [w_pins w_live with_pins with_live].
  by rewrite lookup_empty, multiplicity_empty.
Qed.

Lemma counts_commit u : ensures counts (commit shipped u).
Proof.
  assert (∀ A (c : Repo A), ensures uncounted c → ensures counts c) as Hun.
  { intros A c Hc w. by apply uncounted_counts. }
  unfold commit, commit_mutations.
  repeat first
    [ apply (ensures_judged counts) | apply counts_snapshot_at
    | apply (ensures_bind counts); [|intros ?]
    | match goal with |- ensures _ (if ?b then _ else _) => destruct b end
    | apply Hun; apply (ensures_on_error uncounted); [apply uncounted_staged_commit|apply uncounted_drop_staging]
    | apply Hun, uncounted_make_staging ].
Qed.
End Counting.
