(* ===== verification/RepositoryTheorems.v ===== *)
(** * The user catalog: what is promised

    Whatever fails and wherever the process dies, [CURRENT] names a whole generation
    that is what its digest says, a snapshot reads what it read first, and a commit
    happens entirely, on the generation it was made for, or not at all. *)

From S2P Require Import Prelude.
From S2P Require Import PyData.
From S2P Require Import CatalogRefs.
From S2P Require Import TransitionOperation.
From S2P Require Import SessionReconcile.
From S2P Require Import CatalogClosure.
From S2P Require Import ClosureTheorems.
From S2P Require Import CatalogUpload.
From S2P Require Import UploadTheorems.
From S2P Require Import CatalogRepository.
From S2P Require Import RepositoryInv.
From stdpp Require Import base list strings gmap gmultiset relations.
From Stdlib Require Import Lia.
Local Open Scope Z_scope.

Section Theorems.
Context {grammar : Grammar} (shipped : Tree).

(** ** Staging *)

Lemma holds_staged w staging t : holds w staging t → staged_tree w staging = t.
Proof. unfold holds, staged_tree. by intros ->. Qed.

Lemma write_exact_file_done staging path content w w' u t :
  write_exact_file staging path content w = (w', Done u) → holds w staging t →
  holds w' staging (<[path := Regular content]> t).
Proof.
  intros (w1 & a & [-> _]%judged_done & [faults ->]%os_write_done)%wbind_done Ht.
  rewrite <-(holds_staged _ _ _ Ht). unfold holds. cbn. apply lookup_insert_eq.
Qed.

Lemma stage_documents_done staging docs w w' u t :
  stage_documents staging docs w = (w', Done u) → holds w staging t →
  holds w' staging (foldl put_document t docs).
Proof.
  revert w t. induction docs as [|d docs IH]; intros w t; cbn [stage_documents foldl].
  { by intros [= <- _]. }
  intros (w1 & a & Hw & H)%wbind_done Ht. eapply IH; [exact H|]. by eapply write_exact_file_done.
Qed.

(** One mutation, and what a list of them makes of a path. *)
Definition mutate (t : Tree) (m : Mutation) : Tree :=
  match mu_content m with
  | Some content => <[relative_path (mu_ref m) := Regular content]> t
  | None => delete (relative_path (mu_ref m)) t
  end.

Definition mutated (t : Tree) (mutations : list Mutation) (path : string) : option Entry :=
  match find_first (λ m, bool_decide (relative_path (mu_ref m) = path)) mutations with
  | Some m => Regular <$> mu_content m
  | None => t !! path
  end.

Lemma apply_all_done staging ms w w' u t :
  apply_all staging ms w = (w', Done u) → holds w staging t → holds w' staging (foldl mutate t ms).
Proof.
  revert w t. induction ms as [|m ms IH]; intros w t; cbn [apply_all foldl].
  { by intros [= <- _]. }
  intros (w1 & a & Hw & H)%wbind_done Ht. eapply IH; [exact H|]. clear H IH.
  unfold apply_mutation, mutate in *. destruct (mu_content m) as [content|].
  - by eapply write_exact_file_done.
  - apply wbind_done in Hw as (w2 & b & [-> _]%judged_done & [faults ->]%os_write_done).
    rewrite <-(holds_staged _ _ _ Ht). unfold holds. cbn. apply lookup_insert_eq.
Qed.

Lemma foldl_mutate_other t ms path :
  (∀ m, m ∈ ms → relative_path (mu_ref m) ≠ path) → foldl mutate t ms !! path = t !! path.
Proof.
  revert t. induction ms as [|m ms IH]; intros t Hm; cbn [foldl]; [done|].
  rewrite IH by (intros; apply Hm; by right). assert (relative_path (mu_ref m) ≠ path) by (apply Hm; by left).
  unfold mutate. destruct (mu_content m); [by rewrite lookup_insert_ne|by rewrite lookup_delete_ne].
Qed.

Lemma foldl_mutate_one t ms m :
  NoDup (map (λ m, relative_path (mu_ref m)) ms) → m ∈ ms →
  foldl mutate t ms !! relative_path (mu_ref m) = Regular <$> mu_content m.
Proof.
  revert t. induction ms as [|x ms IH]; intros t Hnd Hm; [by apply not_elem_of_nil in Hm|].
  apply NoDup_cons in Hnd as [Hx Hnd]. cbn [foldl]. apply elem_of_cons in Hm as [->|Hm]; [|by apply IH].
  rewrite foldl_mutate_other.
  - unfold mutate. destruct (mu_content x); [by rewrite lookup_insert_eq|by rewrite lookup_delete_eq].
  - intros m' Hm' Heq. apply Hx, list_elem_of_fmap. eauto.
Qed.

(** The order of the mutations does not matter. *)
Lemma foldl_mutate t ms ms' path :
  NoDup (map (λ m, relative_path (mu_ref m)) ms) → ms ≡ₚ ms' → foldl mutate t ms' !! path = mutated t ms path.
Proof.
  intros Hnd Hp. unfold mutated. destruct (find_first _ ms) as [m|] eqn:E.
  - apply find_first_Some in E as [Hm <-%bool_decide_eq_true]. apply foldl_mutate_one; [by rewrite <-Hp|by rewrite <-Hp].
  - rewrite find_first_None in E. apply foldl_mutate_other. intros m. rewrite <-Hp. intros Hm Heq.
    specialize (E m Hm). by apply bool_decide_eq_false in E.
Qed.

(** What was staged. *)
Lemma staged_content base g staging ms w w1 w2 u1 u2 :
  validate_catalog_root base "user" = Ok g → NoDup (map (λ m, relative_path (mu_ref m)) ms) →
  holds w staging ∅ → stage_base shipped base staging w = (w1, Done u1) →
  apply_mutations staging ms w1 = (w2, Done u2) →
  ∃ staged, holds w2 staging staged ∧ ∀ path, staged !! path = mutated base ms path.
Proof.
  intros Hv Hnd Hw (w0 & docs & [-> Hdocs]%judged_done & Hs)%wbind_done Ha.
  apply (stage_documents_done _ _ _ _ _ ∅) in Hs; [|done].
  destruct (export_user shipped base g docs Hv Hdocs) as [Hin Hall].
  rewrite (put_documents base ∅ docs) in Hs; [|apply map_empty_subseteq|done|naive_solver].
  eexists. split; [by eapply apply_all_done|]. intros path. apply foldl_mutate; [done|].
  symmetry. apply sorted_perm.
Qed.

(** ** Committing *)

Lemma judged_returns {A} (f : World → result A) w w' : judged f w ≠ (w', Crashed).
Proof. unfold judged. by destruct (f w). Qed.

Lemma judged_fails {A} (f : World → result A) w w' e : judged f w = (w', Failed e) → w' = w.
Proof. unfold judged. by intros [= <- _]. Qed.

(** A program that ends in [P] when its first part stops in [P], or the rest does. *)
Lemma peel {A B} (P : World → Outcome B → Prop) (c : Repo A) (k : A → Repo B) w :
  (∀ w1 e, c w = (w1, Failed e) → P w1 (Failed e)) → (∀ w1, c w = (w1, Crashed) → P w1 Crashed) →
  (∀ w1 a, c w = (w1, Done a) → P (k a w1).1 (k a w1).2) → P (wbind c k w).1 (wbind c k w).2.
Proof. intros H1 H2 H3. unfold wbind. destruct (c w) as [w1 [a|e|]]; cbn; auto. Qed.

(** The commit happened: [g] is current, and nothing in use is gone. *)
Record committed (base : Tree) (ms : list Mutation) (w w' : World) (g : string) : Prop := {
  cm_current : w_current w' = Some (FileText (current_text g));
  cm_digest : sha256_digest_ok g = true;
  cm_pins : w_pins w' = w_pins w;
  cm_spared name t : is_staging name = false → spared (w_pins w) g name → holds w name t → holds w' name t;
  cm_staged : ∃ staged t, (∀ path, staged !! path = mutated base ms path) ∧
    validate_catalog_root staged "user" = Ok g ∧ validate_reference_graph shipped staged = Ok tt ∧
    holds w' (generation_name g) t ∧ validate_catalog_root t "user" = Ok g ∧
    (t = staged ∨ holds w (generation_name g) t);
}.

Lemma committed_kept base ms w w1 w2 g keep :
  committed base ms w w1 g → kept keep w1 w2 → keep (generation_name g) →
  (∀ name, is_staging name = false → spared (w_pins w) g name → keep name) → committed base ms w w2 g.
Proof.
  intros [H1 H2 H3 H4 (staged & t & H5 & H6 & H7 & H8 & H9 & H10)] [Hc Hp Hh] Hg Hk.
  split; [congruence|done|congruence|eauto|]. exists staged, t. split_and!; auto.
Qed.

(** How a commit can end. *)
Definition settled (base : Tree) (ms : list Mutation) (w w' : World) (r : Outcome string) : Prop :=
  (kept unstaged w w' ∧ ∀ g, r ≠ Done g) ∨ ∃ g, committed base ms w w' g ∧ ∀ g', r = Done g' → g' = g.

Lemma validated_generation t g : validate_catalog_root t "user" = Ok g → sha256_digest_ok g = true.
Proof.
  intros (refs & _ & (docs & _ & [= <-])%rbind_Ok)%rbind_Ok. apply sha256_digest_wellformed.
Qed.

(** From the staged tree on. *)
Lemma finish_commit base ms staging staged g w w0 :
  is_staging staging = true → same unstaged w w0 → holds w0 staging staged →
  (∀ path, staged !! path = mutated base ms path) → validate_catalog_root staged "user" = Ok g →
  validate_reference_graph shipped staged = Ok tt →
  let c := wbind (finalize_generation staging g) (λ _, wbind (publish_current g)
             (λ _, wbind (cleanup_inactive_generations g) (λ _, done g))) in
  settled base ms w (c w0).1 (c w0).2.
Proof.
  intros Hst Hs Hh Hstaged Hv Hgraph. pose proof (validated_generation _ _ Hv) as Hg. cbv zeta.
  pose proof (same_kept _ _ _ Hs) as Hk.
  destruct (finalize_spec staging g w0 Hst Hg) as [Hkf Hfin].
  apply peel; [intros w1 e E|intros w1 E|intros w1 u E]; rewrite E in Hkf, Hfin; cbn in Hkf, Hfin.
  1-2: left; (split; [by etrans|done]).
  destruct (Hfin u staged eq_refl Hh) as (t & Ht & Hwhich). assert (kept unstaged w w1) as Hk1 by by etrans.
  assert (validate_catalog_root t "user" = Ok g ∧ (t = staged ∨ holds w (generation_name g) t)) as [Hvt Hwhich'].
  { destruct Hwhich as [->|[Hold Hvt]]; [by auto|]. split; [done|]. right. unfold holds in *.
    by rewrite <-(sm_generations _ _ _ Hs) by by apply digest_not_staging. }
  assert (∀ w2, w_current w2 = Some (FileText (current_text g)) → w_pins w2 = w_pins w1 →
    w_generations w2 = w_generations w1 → committed base ms w w2 g) as Hcommit.
  { intros w2 H1 H2 H3. split; [done|done|rewrite H2; apply Hk1| |].
    - intros name x Hn _ Hx. unfold holds. rewrite H3. by apply (kp_holds _ _ _ Hk1).
    - exists staged, t. split_and!; try done. unfold holds. by rewrite H3. }
  pose proof (publish_spec g w1) as Hpub.
  apply peel; [intros w2 e E2|intros w2 E2|intros w2 v E2]; rewrite E2 in Hpub; cbn in Hpub; destruct Hpub as [Hc Hp Hgs].
  1-2: destruct Hc as [Hc|Hc]; [left|right; exists g; (split; [by apply Hcommit|done])];
    (split; [|done]; etrans; [exact Hk1|]; split; [done|done|unfold holds; by rewrite Hgs]).
  right. exists g. apply publish_done in E2 as Hcur. specialize (Hcommit w2 Hcur Hp Hgs).
  split; [|unfold wbind; destruct (cleanup_inactive_generations g w2) as [w3 [[]|e|]]; naive_solver].
  assert (committed base ms w (cleanup_inactive_generations g w2).1 g) as Hdone.
  { eapply committed_kept; [done|apply same_kept, cleanup_same| |].
    - right. left. by apply digest_name.
    - intros name Hn. by rewrite (cm_pins _ _ _ _ _ Hcommit). }
  unfold wbind. destruct (cleanup_inactive_generations g w2) as [w3 [[]|e|]]; done.
Qed.

Lemma staged_commit_settles base g0 staging ms w :
  is_staging staging = true → holds w staging ∅ → validate_catalog_root base "user" = Ok g0 →
  NoDup (map (λ m, relative_path (mu_ref m)) ms) →
  settled base ms w (staged_commit shipped base staging ms w).1 (staged_commit shipped base staging ms w).2.
Proof.
  intros Hst Hh Hv0 Hnd. unfold staged_commit.
  assert (ensures (same unstaged) (stage_base shipped base staging)) as Hsb.
  { apply (ensures_bind (same unstaged)); [apply (ensures_judged (same unstaged))|]. intros ?. by apply same_stage_documents. }
  specialize (Hsb w). apply peel; [intros w1 e E|intros w1 E|intros w1 u E]; rewrite E in Hsb; cbn in Hsb.
  1-2: left; (split; [by apply same_kept|done]).
  pose proof (same_apply_all staging (sorted mutation_lt ms) Hst w1) as Ham.
  apply peel; [intros w2 e E2|intros w2 E2|intros w2 u2 E2]; unfold apply_mutations in E2; rewrite E2 in Ham; cbn in Ham.
  1-2: left; (split; [apply same_kept; by etrans|done]).
  destruct (staged_content base g0 staging ms w w1 w2 u u2 Hv0 Hnd Hh E E2) as (staged & Hs & Hstaged).
  assert (same unstaged w w2) as Hsame by by etrans.
  apply peel; [intros w3 e E3|intros w3 E3|intros w3 g E3].
  1: apply judged_fails in E3 as ->; left; (split; [by apply same_kept|done]).
  1: by apply judged_returns in E3.
  apply judged_done in E3 as [-> Hg]. rewrite (holds_staged _ _ _ Hs) in Hg.
  apply peel; [intros w3 e E3|intros w3 E3|intros w3 u3 E3].
  1: apply judged_fails in E3 as ->; left; (split; [by apply same_kept|done]).
  1: by apply judged_returns in E3.
  apply judged_done in E3 as [-> Hgr]. rewrite (holds_staged _ _ _ Hs) in Hgr. destruct u3.
  by apply (finish_commit base ms staging staged).
Qed.

(** The commit with its handler. *)
Lemma commit_handled_settles base g0 staging ms w :
  is_staging staging = true → holds w staging ∅ → validate_catalog_root base "user" = Ok g0 →
  NoDup (map (λ m, relative_path (mu_ref m)) ms) →
  let c := on_error (staged_commit shipped base staging ms) (drop_staging staging) in
  settled base ms w (c w).1 (c w).2.
Proof.
  intros Hst Hh Hv0 Hnd. cbv zeta. pose proof (staged_commit_settles base g0 staging ms w Hst Hh Hv0 Hnd) as Hs.
  unfold on_error. destruct (staged_commit shipped base staging ms w) as [w1 [g|e|]]; cbn in Hs; try done.
  pose proof (same_kept _ _ _ (same_drop_staging staging Hst w1)) as Hd.
  assert (∀ r : Outcome string, (∀ g, r ≠ Done g) → settled base ms w (drop_staging staging w1).1 r) as Hr.
  { intros r Hr. destruct Hs as [[Hk _]|(g & Hc & _)]; [left; (split; [by etrans|done])|].
    right. exists g. split; [|intros g' ->; by destruct (Hr g')].
    eapply committed_kept; [done|done|by apply digest_not_staging, Hc|done]. }
  destruct (drop_staging staging w1) as [w2 [u|e'|]]; by apply Hr.
Qed.

(** ** The catalog at any time *)

(** The generations somebody can read: the current one and those of the snapshots. *)
Definition in_use (w : World) (g : string) : Prop :=
  w_current w = Some (FileText (current_text g)) ∨ (0 < default 0%nat (w_pins w !! g))%nat.

(** A whole generation that is what its digest says. *)
Definition whole (w : World) (g : string) : Prop :=
  sha256_digest_ok g = true ∧ ∃ t, holds w (generation_name g) t ∧ validate_catalog_root t "user" = Ok g.

Record intact (w : World) : Prop := {
  in_current : w_current w = None ∨ ∃ g, w_current w = Some (FileText (current_text g));
  in_whole g : in_use w g → whole w g;
}.

(** What an operation does to the generations. *)
Record good_step (w w' : World) : Prop := {
  gs_current : w_current w' = w_current w ∨ ∃ g, w_current w' = Some (FileText (current_text g));
  gs_new g : in_use w' g → in_use w g ∨ whole w' g;
  gs_isolated g t : sha256_digest_ok g = true → in_use w' g →
    holds w (generation_name g) t → holds w' (generation_name g) t;
}.

Lemma good_intact w w' : intact w → good_step w w' → intact w'.
Proof.
  intros [Hc Hw] [Hc' Hn Hi]. split; [destruct Hc' as [->|?]; auto|]. intros g Hg.
  destruct (Hn g Hg) as [(Hd & t & Ht & Hv)%Hw|?]; [|done]. split; [done|]. exists t. auto.
Qed.

Lemma in_use_kept keep w w' g : kept keep w w' → in_use w' g → in_use w g.
Proof. intros [H1 H2 _]. unfold in_use. by rewrite H1, H2. Qed.

Lemma good_kept keep w w' :
  kept keep w w' → (∀ g, sha256_digest_ok g = true → in_use w' g → keep (generation_name g)) → good_step w w'.
Proof.
  intros Hk Hkeep. split.
  - left. apply Hk.
  - intros g Hg. left. by eapply in_use_kept.
  - intros g t Hd Hg. apply (kp_holds _ _ _ Hk). auto.
Qed.

Lemma good_unstaged w w' : kept unstaged w w' → good_step w w'.
Proof. intros Hk. apply (good_kept unstaged); [done|]. intros g Hd _. by apply digest_not_staging. Qed.

(** After a step, a program that changes neither [CURRENT] nor the pins. *)
Lemma good_then keep w w1 w2 :
  good_step w w1 → kept keep w1 w2 →
  (∀ g, sha256_digest_ok g = true → in_use w1 g → keep (generation_name g)) → good_step w w2.
Proof.
  intros [Hc Hn Hi] Hk Hkeep. assert (∀ g, in_use w2 g → in_use w1 g) as Huse by (intros g; by eapply in_use_kept).
  split.
  - rewrite (kp_current _ _ _ Hk). done.
  - intros g Hg%Huse. destruct (Hn g Hg) as [?|(Hd & t & Ht & Hv)]; [by left|]. right. split; [done|].
    exists t. split; [|done]. apply (kp_holds _ _ _ Hk); auto.
  - intros g t Hd Hg%Huse Ht. apply (kp_holds _ _ _ Hk); auto.
Qed.

(** Before a step, a program that brings nothing new into use. *)
Lemma then_good w w1 w2 :
  w_current w1 = w_current w → (∀ g, in_use w1 g → in_use w g) →
  (∀ g t, sha256_digest_ok g = true → holds w (generation_name g) t → holds w1 (generation_name g) t) →
  good_step w1 w2 → good_step w w2.
Proof.
  intros Hc1 Huse Hh [Hc Hn Hi]. split.
  - by rewrite <-Hc1.
  - intros g Hg. destruct (Hn g Hg); auto.
  - intros g t Hd Hg Ht. auto.
Qed.

(** Pinning a generation that is in use. *)
Lemma pin_spec g w w' :
  snapshot_at g w = (w', Done g) ∨ (∃ e, snapshot_at g w = (w', Failed e) ∧ w' = w) →
  in_use w g → w_current w' = w_current w ∧ w_generations w' = w_generations w ∧ ∀ h, in_use w' h → in_use w h.
Proof.
  intros [H|(e & _ & ->)] Hg; [|by auto].
  apply wbind_done in H as (w1 & t & [-> Ht]%judged_done & [= <-]). split_and!; [done..|].
  intros h [Hh|Hh]; [by left|]. cbn in Hh. rewrite lookup_insert in Hh. case_decide; [by subst|by right].
Qed.

Lemma snapshot_at_ends g w :
  let '(w', r) := snapshot_at g w in
  (r = Done g ∧ ∃ t, generation_catalog_root w g = Ok t) ∨ (∃ e, r = Failed e ∧ w' = w).
Proof.
  unfold snapshot_at, wbind, judged. destruct (generation_catalog_root w g); [left|right]; eauto.
Qed.

Lemma intact_reads w g : intact w → read_current w = Ok g → w_current w = Some (FileText (current_text g)) ∧ whole w g.
Proof.
  intros [[Hc|[g' Hc]] Hw] Hr; [unfold read_current in Hr; by rewrite Hc in Hr|].
  assert (whole w g') as Hg' by (apply Hw; by left). rewrite (current_reads w g' Hc) in Hr by apply Hg'.
  injection Hr as <-. done.
Qed.

Lemma whole_root w g t : whole w g → generation_catalog_root w g = Ok t → holds w (generation_name g) t ∧ validate_catalog_root t "user" = Ok g.
Proof.
  intros (Hd & t' & Ht & Hv) (? & _ & H)%rbind_Ok. unfold holds in *. rewrite Ht in H. by injection H as <-.
Qed.

(** ** One commit *)

Lemma make_staging_done w w' staging :
  make_staging w = (w', Done staging) → is_staging staging = true ∧ holds w' staging ∅.
Proof.
  unfold make_staging. intros (w1 & a & [f1 ->]%os_write_done & H)%wbind_done.
  apply wbind_done in H as (w2 & b & [f2 ->]%os_write_done & [= <- <-]).
  split; [apply free_name_staging|]. unfold holds. cbn. apply lookup_insert_eq.
Qed.

(** How a commit ends, with what it was checked against. *)
Definition commit_ends (base_generation : string) (ms : list Mutation) (w w' : World) (r : Outcome string) : Prop :=
  (w_current w' = w_current w ∧ ∀ g, r ≠ Done g) ∨
  ∃ g base staged t, read_current w = Ok base_generation ∧ holds w (generation_name base_generation) base ∧
    check_preconditions shipped base ms = Ok tt ∧ (∀ path, staged !! path = mutated base ms path) ∧
    validate_catalog_root staged "user" = Ok g ∧ validate_reference_graph shipped staged = Ok tt ∧
    read_current w' = Ok g ∧ holds w' (generation_name g) t ∧ (t = staged ∨ holds w (generation_name g) t) ∧
    ∀ g', r = Done g' → g' = g.

Lemma current_text_inj g g' : current_text g = current_text g' → g = g'.
Proof. apply text_app_cancel. Qed.

(** A step and a pin of what is in use. *)
Lemma good_pinned w w1 w2 :
  good_step w w1 → w_current w2 = w_current w1 → w_generations w2 = w_generations w1 →
  (∀ g, in_use w2 g → in_use w1 g) → good_step w w2.
Proof.
  intros [Hc Hn Hi] Hc2 Hg2 Hu. split.
  - by rewrite Hc2.
  - intros g Hg%Hu. destruct (Hn g Hg) as [?|(Hd & t & Ht & Hv)]; [by left|]. right. split; [done|].
    exists t. unfold holds. by rewrite Hg2.
  - intros g t Hd Hg%Hu Ht. unfold holds. rewrite Hg2. by apply Hi.
Qed.

Lemma committed_good base ms w w' g : committed base ms w w' g → good_step w w'.
Proof.
  intros [Hc Hd Hp Hs (staged & t & _ & _ & _ & Ht & Hv & _)].
  assert (∀ h, in_use w' h → h = g ∨ (0 < default 0%nat (w_pins w !! h))%nat) as Huse.
  { intros h [Hh|Hh]; [left|right; by rewrite <-Hp]. rewrite Hc in Hh. injection Hh as Hh. symmetry. by apply current_text_inj. }
  split; [by right; eauto| |].
  - intros h [->|Hh]%Huse; [right; split; eauto|by left; right].
  - intros h x Hdh Hh Hx. apply Hs; [by apply digest_not_staging| |done]. unfold spared. rewrite digest_name by done.
    destruct (Huse h Hh) as [->|?]; auto.
Qed.

(** The end of a commit: the new generation is pinned and returned. *)
Lemma settled_returns base ms w w3 r3 :
  settled base ms w w3 r3 →
  let '(w', r) := match r3 with Done g => snapshot_at g w3 | Failed e => (w3, Failed e) | Crashed => (w3, Crashed) end in
  good_step w w' ∧ w_generations w' = w_generations w3 ∧ w_current w' = w_current w3 ∧
  ((w_current w3 = w_current w ∧ ∀ g, r ≠ Done g) ∨ ∃ g, committed base ms w w3 g ∧ ∀ g', r = Done g' → g' = g).
Proof.
  intros [[Hk Hr]|(g & Hc & Hr)].
  - destruct r3 as [g|e|]; [by destruct (Hr g)|..]; (split_and!; [by apply good_unstaged|done|done|]);
      left; (split; [apply Hk|done]).
  - pose proof (committed_good _ _ _ _ _ Hc) as Hgood.
    destruct r3 as [g'|e|]; [|split_and!; [done..|right; eauto]|split_and!; [done..|right; eauto]].
    rewrite (Hr g' eq_refl) in *. pose proof (snapshot_at_ends g w3) as Hends.
    destruct (snapshot_at g w3) as [w' r] eqn:E.
    assert (in_use w3 g) as Huse by (left; apply Hc).
    destruct (pin_spec g w3 w') as (H1 & H2 & H3); [destruct Hends as [[-> _]|(e & -> & ->)]; eauto|done|].
    split_and!; [by eapply good_pinned|done|done|]. right. exists g. split; [done|].
    destruct Hends as [[-> _]|(e & -> & _)]; [|done]. by intros g'' [= ->].
Qed.

(** From the base on. *)
Lemma commit_from base cur ms w :
  validate_catalog_root base "user" = Ok cur → NoDup (map (λ m, relative_path (mu_ref m)) ms) →
  let '(w', r) := wbind make_staging (λ staging,
      wbind (on_error (staged_commit shipped base staging ms) (drop_staging staging)) snapshot_at) w in
  good_step w w' ∧
  ((w_current w' = w_current w ∧ ∀ g, r ≠ Done g) ∨
   ∃ g staged t, (∀ path, staged !! path = mutated base ms path) ∧
     validate_catalog_root staged "user" = Ok g ∧ validate_reference_graph shipped staged = Ok tt ∧
     read_current w' = Ok g ∧ holds w' (generation_name g) t ∧ (t = staged ∨ holds w (generation_name g) t) ∧
     ∀ g', r = Done g' → g' = g).
Proof.
  intros Hv Hnd. pose proof (same_make_staging w) as Hms. pose proof (make_staging_done w) as Hmd.
  unfold wbind at 1. destruct (make_staging w) as [w2 r2]. cbn in Hms.
  pose proof (sm_current _ _ _ Hms) as Hc2.
  assert (∀ w', good_step w2 w' → good_step w w') as Hfrom.
  { intros w' Hg. eapply then_good; [done| | |exact Hg].
    - intros g Hg'. by eapply in_use_kept; [apply same_kept|].
    - intros g x Hd Hx. apply (kp_holds _ _ _ (same_kept _ _ _ Hms)); [by apply digest_not_staging|done]. }
  assert (good_step w w2) as Hg2 by (apply Hfrom; by apply good_unstaged).
  destruct r2 as [staging|e|]; [|by split; [|left]..].
  destruct (Hmd w2 staging eq_refl) as [Hst Hh].
  pose proof (commit_handled_settles base cur staging ms w2 Hst Hh Hv Hnd) as Hs. cbv zeta in Hs.
  unfold wbind. destruct (on_error _ _ w2) as [w3 r3]. cbn in Hs. apply settled_returns in Hs.
  destruct (match r3 with
            | Done g => snapshot_at g w3 | Failed e => (w3, Failed e) | Crashed => (w3, Crashed)
            end) as [w' r].
  destruct Hs as (Hgood & Hgs & Hcs & Hend). split; [by apply Hfrom|].
  destruct Hend as [[Hc3 Hr]|(g & Hcm & Hr)]; [left; split; [congruence|done]|right].
  destruct Hcm as [Hcc Hcd _ _ (staged & x & H1 & H2 & H3 & H4 & H5 & H6)].
  exists g, staged, x. split_and!; try done.
  - apply current_reads; [congruence|done].
  - unfold holds. by rewrite Hgs.
  - destruct H6 as [->|H6]; [by left|right]. unfold holds in *.
    by rewrite <-(sm_generations _ _ _ Hms) by by apply digest_not_staging.
Qed.

Lemma commit_spec base_generation ms w :
  intact w → NoDup (map (λ m, relative_path (mu_ref m)) ms) →
  let '(w', r) := commit_mutations shipped base_generation ms w in
  good_step w w' ∧ commit_ends base_generation ms w w' r.
Proof.
  intros Hin Hnd.
  assert (∀ (e : exn), good_step w w ∧ commit_ends base_generation ms w w (Failed e)) as Hstay.
  { intros e. split; [by apply good_unstaged|left; done]. }
  unfold commit_mutations. unfold wbind at 1. unfold judged at 1.
  destruct (read_current w) as [cur|e] eqn:Er; [|apply Hstay].
  case_bool_decide as Hb; cbn [negb]; [subst base_generation|apply Hstay].
  destruct (intact_reads w cur Hin Er) as [Hcur Hwhole]. assert (in_use w cur) as Huse by by left.
  unfold wbind at 1. pose proof (snapshot_at_ends cur w) as Hends.
  destruct (snapshot_at cur w) as [w1 r1] eqn:E1. destruct Hends as [[-> [t Ht]]|(e & -> & ->)]; [|apply Hstay].
  destruct (pin_spec cur w w1 (or_introl E1) Huse) as (Hc1 & Hg1 & Hu1).
  assert (generation_catalog_root w1 cur = Ok t) as Ht1 by (unfold generation_catalog_root; by rewrite Hg1).
  destruct (whole_root w cur t Hwhole Ht) as [Hht Hvt].
  assert (∀ w', good_step w1 w' → good_step w w') as Hfrom.
  { intros w' Hg. eapply then_good; [exact Hc1|exact Hu1|by unfold holds; rewrite Hg1|done]. }
  unfold wbind at 1, judged at 1. rewrite Ht1. unfold wbind at 1, judged at 1.
  destruct (check_preconditions shipped t ms) as [[]|e] eqn:Ep.
  2: { split; [by apply Hfrom, good_unstaged|by left]. }
  pose proof (commit_from t cur ms w1 Hvt Hnd) as Hrest.
  destruct (wbind make_staging _ w1) as [w' r]. destruct Hrest as [Hgood Hend]. split; [by apply Hfrom|].
  destruct Hend as [[Hc Hr]|(g & staged & x & H1 & H2 & H3 & H4 & H5 & H6 & H7)]; [left; split; [congruence|done]|].
  right. exists g, t, staged, x. split_and!; try done. unfold holds in *. by rewrite <-Hg1.
Qed.

(** ** Every operation *)

Lemma then_cleanup w w1 g :
  good_step w w1 → w_current w1 = Some (FileText (current_text g)) →
  good_step w (cleanup_inactive_generations g w1).1.
Proof.
  intros Hg Hc. apply (good_then _ _ _ _ Hg (same_kept _ _ _ (cleanup_same g w1))).
  intros h Hd [Hh|Hh]; unfold spared; rewrite digest_name by done; [|by auto].
  rewrite Hc in Hh. injection Hh as Hh%current_text_inj. auto.
Qed.

Lemma snapshot_good w : intact w → good_step w (snapshot w).1.
Proof.
  intros Hin. unfold snapshot, wbind, judged. destruct (read_current w) as [g|e] eqn:Er; [|by apply good_unstaged].
  destruct (intact_reads w g Hin Er) as [Hc _]. pose proof (snapshot_at_ends g w) as Hends.
  destruct (snapshot_at g w) as [w' r] eqn:E.
  destruct (pin_spec g w w') as (H1 & H2 & H3); [destruct Hends as [[-> _]|(e & -> & ->)]; eauto|by left|].
  cbn. eapply good_pinned; [by apply good_unstaged|done..].
Qed.

Lemma unpin_uses g w h : in_use (unpin g w) h → in_use w h.
Proof.
  unfold in_use, unpin. cbn. intros [?|Hh]; [by left|]. right. revert Hh.
  destruct (w_pins w !! g) as [[|[|n]]|] eqn:E; (rewrite lookup_insert || rewrite lookup_delete);
    case_decide; subst; rewrite ?E; cbn; lia || done.
Qed.

Lemma release_good g w : intact w → good_step w (release_snapshot g w).1.
Proof.
  intros Hin. unfold release_snapshot.
  assert (∀ w', good_step (unpin g w) w' → good_step w w') as Hfrom.
  { intros w' Hg. by apply (then_good w (unpin g w) w'); [|apply unpin_uses|..]. }
  unfold wbind, judged. change (read_current (unpin g w)) with (read_current w).
  destruct (read_current w) as [cur|e] eqn:Er; [|by apply Hfrom, good_unstaged].
  destruct (intact_reads w cur Hin Er) as [Hc _]. by apply Hfrom, then_cleanup; [apply good_unstaged|].
Qed.

(** ** Starting *)

Lemma empty_valid : validate_catalog_root ∅ "user" = Ok EMPTY_GENERATION.
Proof.
  unfold validate_catalog_root, iter_document_refs.
  rewrite (map_to_list_empty : map_to_list (∅ : Tree) = []). done.
Qed.

Lemma verify_directory_Ok d g what u :
  verify_directory d g what = Ok u → ∃ t, d = Directory (Some t) ∧ validate_catalog_root t "user" = Ok g.
Proof.
  unfold verify_directory. destruct d as [[t|]| |]; try done.
  intros (actual & Ha & [->%negb_false_iff%bool_decide_eq_true _]%raise_if_Ok)%rbind_Ok. eauto.
Qed.

#[local] Opaque EMPTY_GENERATION.

(** The empty generation, put in place or found. *)
Lemma create_empty_good w : w_current w = None → good_step w (create_empty w).1 ∧ w_pins (create_empty w).1 = w_pins w.
Proof.
  intros Hc. unfold create_empty. set (final := generation_name EMPTY_GENERATION).
  assert (sha256_digest_ok EMPTY_GENERATION = true) as Hd by apply (validated_generation _ _ empty_valid).
  assert (∀ c : Repo unit, kept (λ _, True) w (c w).1 →
    (∀ w1 u, c w = (w1, Done u) → whole w1 EMPTY_GENERATION) →
    good_step w (wbind c (λ _, publish_current EMPTY_GENERATION) w).1 ∧
    w_pins (wbind c (λ _, publish_current EMPTY_GENERATION) w).1 = w_pins w) as Hrest.
  { intros c Hk Hdone. unfold wbind. destruct (c w) as [w1 r]. cbn in Hk.
    pose proof (good_kept (λ _, True) w w1 Hk ltac:(done)) as Hg.
    destruct r as [u|e|]; [|by split; [|apply Hk]..].
    destruct (publish_spec EMPTY_GENERATION w1) as [Hpc Hpp Hpg]. split; [|rewrite Hpp; apply Hk].
    destruct (Hdone w1 u eq_refl) as (_ & t & Ht & Hv).
    destruct Hpc as [Hpc|Hpc]; [eapply good_pinned; [exact Hg|done|done|unfold in_use; by rewrite Hpc, Hpp]|].
    split; [by right; eauto| |].
    - intros g [Hu|Hu].
      + rewrite Hpc in Hu. injection Hu as <-%current_text_inj. right. split; [exact Hd|]. exists t.
        unfold holds. rewrite Hpg. split; [exact Ht|exact Hv].
      + left. right. by rewrite <-(kp_pins _ _ _ Hk), <-Hpp.
    - intros g x _ _ Hx. unfold holds. rewrite Hpg. by apply (kp_holds _ _ _ Hk). }
  destruct (w_generations w !! final) as [d|] eqn:Ed; apply Hrest.
  - done.
  - intros w1 u [-> (t & -> & Hv)%verify_directory_Ok]%judged_done. split; [exact Hd|].
    exists t. split; [exact Ed|exact Hv].
  - assert (∀ d faults, kept (λ _, True) w (with_generations (with_faults w faults) (<[final := d]> (w_generations w)))) as Hk.
    { intros d faults. split; [done..|]. unfold holds. cbn. intros name t _ Ht. rewrite lookup_insert_ne; congruence. }
    apply (os_write_at (kept (λ _, True))); [intros; apply Hk|]. intros [|k] faults; [by split|apply Hk].
  - intros w1 u [faults ->]%os_write_done. split; [exact Hd|]. exists ∅.
    split; [|apply empty_valid]. unfold holds. cbn. apply lookup_insert_eq.
Qed.

Lemma same_recover_temp keep temp : ensures (same keep) (recover_temp temp).
Proof.
  intros w. unfold recover_temp. destruct (w_temps w !! temp) as [[x| |]|]; try done. by apply same_write.
Qed.

Lemma same_recover_staging name : is_staging name = true → ensures (same unstaged) (recover_staging name).
Proof.
  intros Hs w. unfold recover_staging. destruct (w_generations w !! name) as [[x| |]|]; try done.
  apply same_rmtree. congruence.
Qed.

(** What recovery does once the leftovers are gone. *)
Lemma recovery_good w1 w :
  good_step w1 w → intact w →
  let c := wbind (judged read_current) (λ generation,
    wbind (judged (λ w, generation_catalog_root w generation)) (λ t,
    wbind (judged (λ _, validate_catalog_root t "user")) (λ actual,
    if negb (bool_decide (actual = generation)) then
      judged (λ _, Raise (ContainmentError "CURRENT does not match the stored catalog"))
    else cleanup_inactive_generations generation))) in
  good_step w1 (c w).1.
Proof.
  intros Hg Hin. unfold wbind, judged. destruct (read_current w) as [g|e] eqn:Er; [|done].
  destruct (intact_reads w g Hin Er) as [Hc _]. destruct (generation_catalog_root w g) as [t|e]; [|done].
  destruct (validate_catalog_root t "user") as [actual|e]; [|done]. destruct (negb _); [done|]. by apply then_cleanup.
Qed.

Lemma restart_good w : intact w → good_step w (restart w).1.
Proof.
  intros Hin. unfold restart. set (w0 := with_live (with_pins w ∅) ∅).
  assert (∀ g, in_use w0 g → in_use w g) as Hu0.
  { intros g [?|Hg]; [by left|]. cbn in Hg. rewrite lookup_empty in Hg. cbn in Hg. lia. }
  assert (intact w0) as Hin0.
  { split; [apply Hin|]. intros g Hg. apply (in_whole w Hin g (Hu0 g Hg)). }
  apply (then_good w w0); [done|exact Hu0|done|]. unfold recover_scope.
  assert (ensures (same unstaged) (for_each (elements (dom (w_temps w0))) recover_temp)) as H1.
  { apply (ensures_for_each (same unstaged)). intros; apply same_recover_temp. }
  assert (ensures (same unstaged)
    (for_each (List.filter is_staging (elements (dom (w_generations w0)))) recover_staging)) as H2.
  { apply (ensures_for_each (same unstaged)). intros name [_ Hs]%list_elem_of_In%filter_In. by apply same_recover_staging. }
  specialize (H1 w0). unfold wbind at 1. destruct (for_each _ recover_temp w0) as [w1 [u|e|]]; cbn in H1;
    [|by apply good_unstaged, same_kept..].
  specialize (H2 w1). unfold wbind at 1. destruct (for_each _ recover_staging w1) as [w2 [u2|e|]]; cbn in H2;
    [|apply good_unstaged, same_kept; by etrans..].
  assert (kept unstaged w0 w2) as Hk2 by (apply same_kept; by etrans).
  pose proof (good_unstaged _ _ Hk2) as Hg2.
  assert (intact w2) as Hin2 by by eapply good_intact.
  unfold wbind at 1. destruct (w_current w2) as [c|] eqn:Ec; [by apply recovery_good|].
  destruct (create_empty_good w2 Ec) as [Hg3 Hp3]. pose proof (good_intact _ _ Hin2 Hg3) as Hin3.
  assert (good_step w0 (create_empty w2).1) as Hg03.
  { apply (then_good w0 w2); [apply Hk2|intros g; by apply (in_use_kept unstaged)| |done].
    intros g t Hd. apply Hk2. by apply digest_not_staging. }
  destruct (create_empty w2) as [w3 [u3|e|]]; cbn in *; [by apply recovery_good|done|done].
Qed.

(** ** Units of work *)

(** A unit of work as its operations build it. *)
Inductive work : UnitOfWork → Prop :=
| work_begin g :
    work {| uw_base := g; uw_mutations := []; uw_publication_seen := false; uw_closed := false |}
| work_write u ref content expected u' :
    work u → write_bytes u ref content expected = Ok u' → work u'
| work_delete u ref expected u' : work u → delete_bytes u ref expected = Ok u' → work u'.

Record work_ok (u : UnitOfWork) : Prop := {
  wk_wf : dict_wf (uw_mutations u);
  wk_refs ref m : (ref, m) ∈ uw_mutations u → mu_ref m = ref ∧ user_ref ref;
}.

Lemma writable_ref_user v r : writable_ref v = Ok r → user_ref (rf_ref r).
Proof.
  intros (r' & [Href Hv]%parsed_ref_Ok & [Hns%negb_false_iff%bool_decide_eq_true [= <-]]%raise_if_Ok)%rbind_Ok.
  unfold user_ref. by rewrite Href, <-Hns.
Qed.

Lemma add_mutation_ok u m publication :
  work_ok u → user_ref (mu_ref m) → work_ok (add_mutation u m publication).
Proof.
  intros [Hwf Hr] Hu. split; cbn; [by apply dict_set_wf|].
  intros ref m' [[= -> ->]|Hin]%dict_set_in; [done|by apply Hr].
Qed.

Lemma work_is_ok u : work u → work_ok u.
Proof.
  induction 1 as [g|u ref content expected u' _ IH Hw|u ref expected u' _ IH Hd].
  - split; [apply NoDup_nil_2|by intros ref m ?%not_elem_of_nil].
  - apply rbind_Ok in Hw as (r & Hr%writable_ref_user & Hw). apply rbind_Ok in Hw as (_ & _ & Hw).
    apply rbind_Ok in Hw as (revision & _ & [= <-]). by apply add_mutation_ok.
  - apply rbind_Ok in Hd as (r & Hr%writable_ref_user & Hd). apply rbind_Ok in Hd as (_ & _ & Hd).
    apply rbind_Ok in Hd as (revision & _ & [= <-]). by apply add_mutation_ok.
Qed.

Lemma work_paths u : work u → NoDup (map (λ m, relative_path (mu_ref m)) (map snd (uw_mutations u))).
Proof.
  intros [Hwf Hr]%work_is_ok. unfold dict_wf, dict_keys in Hwf. revert Hwf Hr.
  induction (uw_mutations u) as [|[ref m] ms IH]; cbn; intros Hwf Hr; [apply NoDup_nil_2|].
  apply NoDup_cons in Hwf as [Hn Hwf]. apply NoDup_cons. split.
  - intros (m' & Hp & ([ref' m''] & -> & Hin)%list_elem_of_fmap)%list_elem_of_fmap. cbn in Hp.
    destruct (Hr ref m ltac:(by left)) as [Hm Hu]. destruct (Hr ref' m'' ltac:(by right)) as [Hm' Hu'].
    rewrite Hm, Hm' in Hp. rewrite (user_ref_inj _ _ Hu Hu' Hp) in Hn.
    apply Hn, list_elem_of_fmap. by exists (ref', m'').
  - apply IH; [done|]. intros ref' m' Hin. apply Hr. by right.
Qed.

Lemma commit_good u w :
  intact w → work u →
  let '(w', r) := commit shipped u w in
  good_step w w' ∧ commit_ends (uw_base u) (map snd (uw_mutations u)) w w' r.
Proof.
  intros Hin Hu. pose proof (commit_spec (uw_base u) _ w Hin (work_paths u Hu)) as Hc.
  unfold commit, wbind, judged. destruct (if uw_closed u then _ else _) as [[]|e]; [done|].
  split; [by apply good_unstaged|by left].
Qed.

(** ** The repository over time *)

(** Any operation, with any faults; one that dies in the middle is a step too.  A
    snapshot that is gone runs its finalizer. *)
Inductive step : World → World → Prop :=
| step_snapshot w faults : step w (snapshot (with_faults w faults)).1
| step_release w faults g :
    g ∈ w_live w →
    step w (release_snapshot g (with_live (with_faults w faults) (w_live w ∖ {[+ g +]}))).1
| step_commit w faults u : work u → step w (commit shipped u (with_faults w faults)).1
| step_restart w faults : step w (restart (with_faults w faults)).1.

Lemma intact_faults w faults : intact w → intact (with_faults w faults).
Proof. by intros [? ?]. Qed.

Lemma intact_live w live : intact w → intact (with_live w live).
Proof. by intros [? ?]. Qed.

Lemma step_good w w' : intact w → step w w' → good_step w w'.
Proof.
  intros Hin Hs. assert (∀ faults w', good_step (with_faults w faults) w' → good_step w w') as Hfrom.
  { intros faults w1 Hg. by apply (then_good w (with_faults w faults)). }
  destruct Hs as [w faults|w faults g Hg|w faults u Hu|w faults]; apply (Hfrom faults);
    pose proof (intact_faults w faults Hin) as Hf.
  - by apply snapshot_good.
  - set (w1 := with_live _ _). apply (then_good _ w1); [done|by intros h|done|].
    by apply release_good, intact_live.
  - pose proof (commit_good u _ Hf Hu) as Hc. by destruct (commit shipped u _); destruct Hc.
  - by apply restart_good.
Qed.

Lemma step_counted w w' : step w w' → counted w → counted w'.
Proof.
  intros [w0 faults|w0 faults g Hg|w0 faults u Hu|w0 faults] H; assert (counted (with_faults w0 faults)) as Hf by exact H.
  - by apply counts_snapshot.
  - by apply (counted_release g (with_faults w0 faults)).
  - by apply counts_commit.
  - apply counted_restart.
Qed.

Lemma empty_scope_intact w : w_current w = None → w_pins w = ∅ → intact w.
Proof.
  intros Hc Hp. split; [by left|]. unfold in_use. rewrite Hc, Hp. intros g [?|Hg]; [done|].
  rewrite lookup_empty in Hg. cbn in Hg. lia.
Qed.

Lemma step_intact w w' : intact w → step w w' → intact w'.
Proof. intros Hin Hs. eapply good_intact; [done|by apply step_good]. Qed.

(** A repository that was opened: [CURRENT] names a whole generation, the generation
    of every snapshot there is is whole, and the snapshots are counted. *)
Record opened (w : World) : Prop := {
  op_current : ∃ g, w_current w = Some (FileText (current_text g)) ∧ whole w g;
  op_live g : g ∈ w_live w → whole w g;
  op_counted : counted w;
}.

(** The current generation and those that are read through a snapshot. *)
Definition readable (w : World) (g : string) : Prop :=
  w_current w = Some (FileText (current_text g)) ∨ g ∈ w_live w.

Lemma readable_in_use w g : counted w → readable w g → in_use w g.
Proof. intros H [?|Hg]; [by left|right]. rewrite H. by apply elem_of_multiplicity. Qed.

Lemma intact_opened w : intact w → counted w → w_current w ≠ None → opened w.
Proof.
  intros [[Hc|(g & Hc)] Hw] Hn Hne; [done|]. split; [|intros h Hh; apply Hw, readable_in_use; [done|by right]|done].
  exists g. split; [done|]. apply Hw. by left.
Qed.

Lemma opened_intact w : opened w → intact w.
Proof.
  intros [(g & Hc & Hg) Hl Hn]. split; [right; eauto|]. intros h [Hh|Hh].
  - rewrite Hc in Hh. injection Hh as <-%current_text_inj. done.
  - apply Hl. rewrite Hn in Hh. by apply elem_of_multiplicity.
Qed.

Lemma step_opened w w' : opened w → step w w' → opened w'.
Proof.
  intros Ho Hs. pose proof (opened_intact w Ho) as Hin. apply intact_opened; [by eapply step_intact| |].
  - eapply step_counted; [done|apply Ho].
  - destruct (gs_current _ _ (step_good w w' Hin Hs)) as [->|[g ->]]; [|done].
    by destruct (op_current w Ho) as (g & -> & _).
Qed.

(** A start that returns found or made a catalog. *)
Lemma restart_current w faults w' :
  restart (with_faults w faults) = (w', Done tt) → w_current w' ≠ None.
Proof.
  unfold restart, recover_scope. intros (w1 & a & _ & H)%wbind_done.
  apply wbind_done in H as (w2 & b & _ & H). apply wbind_done in H as (w3 & c & _ & H).
  apply wbind_done in H as (w4 & g & [-> Hr]%judged_done & H).
  apply wbind_done in H as (w5 & t & [-> _]%judged_done & H).
  apply wbind_done in H as (w6 & actual & [-> _]%judged_done & H).
  assert (w_current w3 ≠ None) as Hc by (unfold read_current in Hr; by destruct (w_current w3)).
  destruct (negb _); [by apply judged_done in H as [_ ?]|].
  pose proof (sm_current _ _ _ (cleanup_same g w3)) as E. rewrite H in E. cbn in E. congruence.
Qed.

(** C37: the catalog is whole at any time.  Once a process has opened a scope that was
    without a catalog, whatever snapshots are taken and dropped, units of work committed
    and processes restarted, whichever writes fail and wherever the process dies,
    [CURRENT] is there and is one line naming a generation, and this generation and that
    of every snapshot object there is are there, valid, and have the digest they are
    named by.  Openings that failed before the first that succeeded are covered too. *)
Theorem catalog_always_intact w0 w1 w2 w faults :
  w_current w0 = None → w_pins w0 = ∅ → w_live w0 = ∅ → rtc step w0 w1 →
  restart (with_faults w1 faults) = (w2, Done tt) → rtc step w2 w → opened w.
Proof.
  intros Hc Hp Hl Hbefore Hstart Hafter. assert (intact w1 ∧ counted w1) as [Hin Hn].
  { assert (intact w0 ∧ counted w0) as H0.
    { split; [by apply empty_scope_intact|]. intros g. by rewrite Hp, Hl, lookup_empty, multiplicity_empty. }
    clear -Hbefore H0. induction Hbefore as [|x y z Hs _ IH]; [done|]. destruct H0 as [H1 H2].
    apply IH. split; [by eapply step_intact|by eapply step_counted]. }
  assert (step w1 w2) as Hs by (pose proof (step_restart w1 faults) as Hs; by rewrite Hstart in Hs).
  assert (opened w2) as Ho.
  { apply intact_opened; [by eapply step_intact|by eapply step_counted|by eapply restart_current]. }
  clear -Hafter Ho. induction Hafter as [|x y z Hs _ IH]; [done|]. apply IH. by eapply step_opened.
Qed.

(** C38: a snapshot reads what it read first.  As long as a generation stays current or
    there is a snapshot of it, no operation changes the documents in its directory,
    whatever fails in it. *)
Theorem snapshots_isolated g t w w' :
  intact w → counted w → sha256_digest_ok g = true → holds w (generation_name g) t →
  rtc (λ w w', step w w' ∧ readable w' g) w w' → holds w' (generation_name g) t.
Proof.
  intros Hin Hn Hg Ht Hsteps. induction Hsteps as [|w w1 w' [Hs Hu] _ IH]; [done|].
  pose proof (step_counted _ _ Hs Hn) as Hn1. apply IH; [by eapply step_intact|done|].
  apply (step_good w w1 Hin Hs); [done|by apply readable_in_use|done].
Qed.

(** C39: a commit happens entirely or not at all.  However it ends, a commit leaves
    [CURRENT] as it was, or it found its base generation current and its expectations
    met there, and the current generation is now the base with exactly the mutations
    applied, valid and closed under references (or the stored directory of the same
    digest).  One that returns has happened. *)
Theorem commit_all_or_nothing u w :
  intact w → work u →
  let '(w', r) := commit shipped u w in
  commit_ends (uw_base u) (map snd (uw_mutations u)) w w' r.
Proof.
  intros Hin Hu. pose proof (commit_good u w Hin Hu) as Hc. by destruct (commit shipped u w); destruct Hc.
Qed.
End Theorems.
