(* ===== verification/CatalogScenario.v ===== *)
(** * A small catalog, evaluated

    [SmallCatalog]: a catalog of three documents, a grammar in which a document is the
    list of its references, and a server that keeps objects, can lose the answer of a
    creation and can refuse a deletion; the theorems about closures, uploads and their
    store are applied to them.  [SmallRepository]: a user catalog over time, with two
    commits, a snapshot, and a process that dies while an old generation is removed. *)

From S2P Require Import Prelude.
From S2P Require Import PyFloat.
From S2P Require Import PyData.
From S2P Require Import PyTime.
From S2P Require Import CatalogRefs.
From S2P Require Import TransitionOperation.
From S2P Require Import SessionReconcile.
From S2P Require Import CatalogClosure.
From S2P Require Import ClosureTheorems.
From S2P Require Import CatalogUpload.
From S2P Require Import UploadTheorems.
From S2P Require Import UploadStore.
From S2P Require Import StoreTheorems.
From S2P Require Import StoreProgress.
From S2P Require Import CatalogRepository.
From S2P Require Import RepositoryInv.
From S2P Require Import RepositoryTheorems.
From stdpp Require Import base list strings gmap gmultiset relations.
From Stdlib Require Import Ascii Lia.
Local Open Scope Z_scope.

Module SmallCatalog.

(** ** The grammar *)

Definition newline : ascii := "010"%char.

Definition refs_of (yaml : string) : list string :=
  List.filter (λ line, negb (bool_decide (line = ""))) (split_on newline yaml).

Definition is_canonical (ref : string) : bool :=
  match new_ref CatalogRef ref with Ok r => bool_decide (r = ref) | Raise _ => false end.

Definition listing (yaml : string) : result Value :=
  if forallb is_canonical (refs_of yaml) then Ok (Sequence (map TypedRef (refs_of yaml)))
  else Raise (ClosureError "catalog_closure.invalid_document").

Lemma listing_typed yaml value :
  listing yaml = Ok value → Forall canonical (catalog_document_references value).
Proof.
  unfold listing. destruct (forallb _ _) eqn:E; [|done]. intros [= <-].
  revert E. cbn. induction (refs_of yaml) as [|ref refs IH]; cbn; [constructor|].
  intros [Hr Hrefs]%andb_true_iff. constructor; [|by apply IH]. unfold canonical. revert Hr.
  unfold is_canonical. destruct (new_ref CatalogRef ref); [|done]. by intros ->%bool_decide_eq_true.
Qed.

#[local] Instance listing_grammar : Grammar :=
  {| validated := λ _ yaml, listing yaml; validated_typed := λ _, listing_typed |}.

(** ** The catalog *)

Definition SAT : string := "nodalarc:nodes/sat.yaml".
Definition LEO : string := "nodalarc:orbits/leo.yaml".
Definition LASER : string := "user:terminals/laser.yaml".
Definition LOOP : string := "user:nodes/loop.yaml".

Definition lines (refs : list string) : string := join_with newline refs.

Definition library : dict string CatalogReadDocument :=
  let document ref family refs :=
    (ref, {| rd_family := family; rd_preserved_path := preserved_catalog_path ref; rd_yaml := lines refs |}) in
  [document SAT "nodes" [LASER; LEO]; document LEO "orbits" []; document LASER "terminals" [];
   document LOOP "nodes" [LEO; LOOP]].

Definition library_view : CatalogReadView := λ ref,
  match dict_get ref library with Some d => Document d | None => DocumentNotFound end.

Lemma library_known ref d : library_view ref = Document d → ref ∈ dict_keys library.
Proof.
  unfold library_view. destruct (dict_get ref library) eqn:E; [|done]. intros _. by eapply dict_get_elem_keys.
Qed.

Definition root : string := lines [SAT; LEO].

Definition closure : result CatalogClosure := Eval vm_compute in collect library_view 5 root.

Lemma collected_in_order :
  match closure with Ok c => map ce_ref (cc_entries c) = [SAT; LEO; LASER] | Raise _ => False end.
Proof. reflexivity. Qed.

Lemma closure_exact_witness : Forall (collectable library_view) [SAT; LEO].
Proof.
  apply (closure_exact library_view (dict_keys library) [SAT; LEO] library_known).
  eexists. vm_compute. reflexivity.
Defined.

Lemma listing_foreign ref yaml : raises_only foreign (@validated listing_grammar ref yaml).
Proof.
  unfold raises_only. cbn. unfold listing. destruct (forallb _ _); [done|].
  by intros e [= <-].
Qed.

(** A document that needs itself is found. *)
Lemma closure_walk_ends_witness :
  ∃ start x, start ∈ [SAT; LOOP] ∧ rtc (needs library_view) start x ∧ tc (needs library_view) x x.
Proof.
  assert (collect_references library_view 5 [SAT; LOOP] = Raise REFERENCE_CYCLE) as Hrun
    by (vm_compute; reflexivity).
  apply (closure_walk_ends library_view (dict_keys library) [SAT; LOOP] library_known) in Hrun as [_ H];
    [by apply H| |apply listing_foreign].
  intros ref e. unfold library_view. by destruct (dict_get ref library).
Defined.

(** ** The upload *)

Definition the_closure : CatalogClosure :=
  match closure with
  | Ok c => c
  | Raise _ => {| cc_root_yaml := ""; cc_entries := []; cc_document_digest := "";
                  cc_closure_digest := ""; cc_file_count := 0; cc_total_bytes := 0 |}
  end.

Definition upload : CatalogUpload :=
  {| up_selection := {| us_upload_id := "upload-9"; us_closure_digest := cc_closure_digest the_closure;
                        us_file_count := 3 |};
     up_root_yaml := root; up_catalog_files := cc_entries the_closure |}.

Lemma collected_closure_uploads_witness :
  encode_catalog_upload root (cc_entries the_closure) (cc_closure_digest the_closure) "upload-9"
    DEFAULT_CATALOG_UPLOAD_LIMITS = Ok upload.
Proof.
  apply (collected_closure_uploads library_view 5 root the_closure "upload-9").
  - vm_compute. reflexivity.
  - discriminate.
  - vm_compute. reflexivity.
  - vm_compute. reflexivity.
Defined.

(** One file more than the root needs. *)
Lemma surplus_file_refused :
  verify_catalog_upload DEFAULT_CATALOG_UPLOAD_LIMITS
    {| up_selection := up_selection upload; up_root_yaml := lines [LEO];
       up_catalog_files := up_catalog_files upload |} = Raise CLOSURE_MISMATCH.
Proof. vm_compute. reflexivity. Qed.

(** ** The server *)

Definition namespace : string := "nodalarc".

(** What the server keeps of an object, and when it was created. *)
Record Payload := {
  pl_body : ConfigMapBody;
  pl_created : option datetime;
}.

Record Server := {
  sv_objects : gmap string Payload;
  sv_clock : datetime;
}.

Definition object (name : string) (p : Payload) : ConfigMap :=
  {| cm_api_version := Some "v1"; cm_kind := Some "ConfigMap"; cm_immutable := false;
     cm_has_binary_data := false; cm_has_owners := false; cm_name := Some name;
     cm_namespace := Some namespace; cm_uid := Some ("uid-" +:+ name);
     cm_labels := Strings (cb_labels (pl_body p));
     cm_annotations := Strings (cb_annotations (pl_body p));
     cm_data := Strings (cb_data (pl_body p)); cm_created := pl_created p |}.

Definition stored (w : Server) : gmap string ConfigMap :=
  map_imap (λ name p, Some (object name p)) (sv_objects w).

Definition with_objects (w : Server) (objects : gmap string Payload) : Server :=
  {| sv_objects := objects; sv_clock := sv_clock w |}.

(** The server that loses the answers of some creations and fails some deletions. *)
Definition server (lost stuck : list string) : Api Server :=
  {| a_create := λ body w,
       if bool_decide (cb_namespace body = namespace) then
         match sv_objects w !! cb_name body with
         | Some _ => (w, Raise (Raised "ApiException" "409"))
         | None =>
             let p := {| pl_body := body; pl_created := Some (sv_clock w) |} in
             (with_objects w (<[cb_name body := p]> (sv_objects w)),
              if bool_decide (cb_name body ∈ lost) then Raise (Raised "ReadTimeout" "")
              else Ok (object (cb_name body) p))
         end
       else (w, Raise (Raised "ApiException" "403"));
     a_list := λ selector w,
       (w, Ok (List.filter (listed_by selector) (map snd (map_to_list (stored w)))));
     a_delete := λ name w,
       if bool_decide (name ∈ stuck) then (w, Raise (Raised "ApiException" "500"))
       else match sv_objects w !! name with
            | None => (w, Raise missing)
            | Some _ => (with_objects w (delete name (sv_objects w)), Ok tt)
            end |}.

Lemma stored_lookup w name : stored w !! name = object name <$> sv_objects w !! name.
Proof. unfold stored. rewrite map_lookup_imap. by destruct (sv_objects w !! name). Qed.

Lemma object_keeps body created :
  cb_namespace body = namespace → keeps_body body (object (cb_name body) {| pl_body := body; pl_created := created |}).
Proof.
  intros Hns. split; cbn; try done; try (by repeat constructor).
  - by rewrite Hns.
  - by eexists.
Qed.

#[local] Instance small_server lost stuck : ConfigMapServer (server lost stuck) namespace stored.
Proof.
  split.
  - intros w name cm. rewrite stored_lookup. destruct (sv_objects w !! name); [|done]. by intros [= <-].
  - done.
  - intros selector w items [= <-]. done.
  - intros body w. cbn. case_bool_decide as Hns; [|by left].
    destruct (sv_objects w !! cb_name body) eqn:E; [by left|].
    assert (stored w !! cb_name body = None) as Hfree by by rewrite stored_lookup, E.
    case_bool_decide; [right; split; [done|]; eexists; (split; [by apply object_keeps|])|
      split_and!; [done|by apply object_keeps|]]; unfold stored; cbn; by rewrite map_imap_insert.
  - intros name w. cbn. case_bool_decide; [by split; [|left]|].
    destruct (sv_objects w !! name) eqn:E; [|split; [intros _; by rewrite stored_lookup, E|by left]].
    unfold stored. cbn. by rewrite map_imap_delete.
Qed.

Definition observer (_ : ResourceEvidence) (w : Server) : Server * result unit := (w, Ok tt).

(** ** Storing the upload *)

Definition other : ConfigMapBody :=
  {| cb_name := "upload-7-000000"; cb_namespace := namespace;
     cb_labels := {[CATALOG_UPLOAD_LABEL := "upload-7"]};
     cb_annotations := {[CATALOG_REF_ANNOTATION := LEO]}; cb_data := {[CATALOG_DOCUMENT_KEY := ""]} |}.

Definition empty_server : Server := {| sv_objects := ∅; sv_clock := 5000 |}.

Lemma server_answers : answers (server [] []) namespace observer stored.
Proof.
  split.
  - intros body w Hns. rewrite stored_lookup. cbn. rewrite bool_decide_true by done.
    destruct (sv_objects w !! cb_name body); [done|]. cbn. eauto.
  - cbn. eauto.
  - done.
Qed.

Lemma put_stores_witness :
  ∃ receipt, (put (server [] []) namespace observer upload empty_server).2 = inl receipt ∧
    map re_ref (sr_resources receipt) = [SAT; LEO; LASER].
Proof.
  apply (put_stores (server [] []) namespace observer stored server_answers ltac:(discriminate) upload empty_server).
  - vm_compute. reflexivity.
  - discriminate.
  - discriminate.
  - vm_compute. reflexivity.
  - intros e He.
    assert (forallb (λ e, utf8_ok (ce_yaml e)) (up_catalog_files upload) = true) as H by (vm_compute; reflexivity).
    rewrite forallb_forall in H. apply H. by apply list_elem_of_In.
  - intros order. rewrite stored_lookup. done.
  - intros name cm. rewrite stored_lookup. done.
Defined.

(** Another upload's object is there. *)
Definition serving : Server :=
  {| sv_objects := {["upload-7-000000" := {| pl_body := other; pl_created := Some 0 |}]};
     sv_clock := 5000 |}.




(** A creation that happened and whose answer was lost is not taken back. *)
Lemma lost_answer_left :
  is_Some (stored (put (server ["upload-9-000000"] []) namespace observer upload serving).1
             !! "upload-9-000000").
Proof. vm_compute. eauto. Qed.

(** ** Collecting *)

(** The live session runs from the old upload 7. *)
Definition live : ConstellationSpec :=
  {| cr_namespace := Some namespace; cr_name := Some "session"; cr_generation := Some 1;
     cr_annotations := ∅;
     cr_spec := Some {| cs_session_yaml := root; cs_record_history := false;
                        cs_catalog_upload := {| us_upload_id := "upload-7"; us_closure_digest := "";
                                                us_file_count := 1 |} |};
     cr_status := None |}.

Definition collected_names (live : option ConstellationSpec) (w : Server) : list string :=
  match (reconcile_catalog_upload_lifecycle (server [] []) namespace 60 live None 1000 w).2 with
  | Ok receipt => gc_deleted receipt
  | Raise _ => []
  end.

Lemma old_upload_collected : collected_names None serving = ["upload-7-000000"].
Proof. vm_compute. reflexivity. Qed.

Lemma collection_spares_used_witness :
  stored (reconcile_catalog_upload_lifecycle (server [] []) namespace 60 (Some live) None 1000 serving).1
    !! "upload-7-000000" = stored serving !! "upload-7-000000".
Proof.
  destruct (stored serving !! "upload-7-000000") as [cm|] eqn:Ecm; [|by vm_compute in Ecm].
  pose proof (collection_spares_used (server [] []) namespace stored 60 (Some live) None 1000 serving
    "upload-7-000000" cm Ecm) as H.
  destruct (reconcile_catalog_upload_lifecycle _ _ _ _ _ _ _) as [w' r]. cbn.
  destruct H as [Hkept|(_ & ids & id & Hids & Hid & [who Hwho] & _)]; [exact Hkept|].
  exfalso. apply Hid. cbn in Hids. injection Hids as <-.
  assert (cm = object "upload-7-000000" {| pl_body := other; pl_created := Some 0 |}) as ->.
  { apply (inj Some). rewrite <-Ecm. vm_compute. reflexivity. }
  vm_compute in Hwho. injection Hwho as _ <-. set_solver.
Defined.
End SmallCatalog.

Module SmallRepository.
#[local] Existing Instance SmallCatalog.listing_grammar.

Definition shipped : Tree := {["orbits/leo.yaml" := Regular ""]}.
Definition SAT : string := "user:nodes/sat.yaml".
Definition TUG : string := "user:nodes/tug.yaml".
Definition LEO : string := "nodalarc:orbits/leo.yaml".

(** ** Operations *)

Definition scope0 : World :=
  {| w_current := None; w_temps := ∅; w_generations := ∅; w_pins := ∅; w_live := ∅;
     w_faults := [] |}.
Definition scope1 : World := (restart (with_faults scope0 [])).1.

Definition base_of (w : World) : string :=
  match read_current w with Ok g => g | Raise _ => "" end.
Definition fresh_work (w : World) : UnitOfWork :=
  {| uw_base := base_of w; uw_mutations := []; uw_publication_seen := false; uw_closed := false |}.
Definition writing (u : UnitOfWork) (ref content : string) : UnitOfWork :=
  match write_bytes u ref content None with Ok u => u | Raise _ => u end.

Definition work1 : UnitOfWork := writing (fresh_work scope1) SAT LEO.
Definition scope2 : World := (commit shipped work1 (with_faults scope1 [])).1.
Definition work2 : UnitOfWork := writing (fresh_work scope2) TUG SAT.

Lemma work1_built : work work1.
Proof. apply (work_write (fresh_work scope1) SAT LEO None); [constructor|vm_compute; reflexivity]. Qed.
Lemma work2_built : work work2.
Proof. apply (work_write (fresh_work scope2) TUG SAT None); [constructor|vm_compute; reflexivity]. Qed.

Lemma work2_base : uw_base work2 = base_of scope2.
Proof. vm_compute. reflexivity. Qed.

(** ** The theorems *)

Lemma restarted : step shipped scope0 scope1.
Proof. exact (step_restart shipped scope0 []). Qed.
Lemma committed1 : step shipped scope1 scope2.
Proof. exact (step_commit shipped scope1 [] work1 work1_built). Qed.

Lemma opened1 : restart (with_faults scope0 []) = (scope1, Done tt).
Proof. vm_compute. reflexivity. Qed.

Lemma catalog_always_intact_witness : opened scope2.
Proof.
  apply (catalog_always_intact shipped scope0 scope0 scope1 scope2 []); [reflexivity..| | |].
  - apply rtc_refl.
  - exact opened1.
  - apply rtc_once, committed1.
Defined.

Lemma scope2_intact : intact scope2.
Proof.
  eapply step_intact, committed1. eapply step_intact, restarted. by apply empty_scope_intact.
Qed.

Lemma scope2_counted : counted scope2.
Proof. eapply step_counted; [apply committed1|]. apply counted_restart. Qed.

Definition tree2 : Tree := {["nodes/sat.yaml" := Regular LEO]}.

Lemma scope2_holds : holds scope2 (generation_name (base_of scope2)) tree2.
Proof. vm_compute. reflexivity. Qed.

Definition scope3 : World := (commit shipped work2 (with_faults scope2 [])).1.

Lemma committed2 : step shipped scope2 scope3.
Proof. exact (step_commit shipped scope2 [] work2 work2_built). Qed.

(** The generation of the first commit, while the second one runs. *)
Lemma snapshots_isolated_witness : holds scope3 (generation_name (base_of scope2)) tree2.
Proof.
  apply (snapshots_isolated shipped (base_of scope2) tree2 scope2).
  - apply scope2_intact.
  - apply scope2_counted.
  - vm_compute. reflexivity.
  - apply scope2_holds.
  - apply rtc_once. split; [apply committed2|]. right.
    apply elem_of_multiplicity. vm_compute. repeat constructor.
Defined.

Definition generation3 : string := Eval vm_compute in base_of scope3.

Lemma committed2_returns : (commit shipped work2 (with_faults scope2 [])).2 = Done generation3.
Proof. vm_compute. reflexivity. Qed.

Lemma commit_all_or_nothing_witness :
  ∃ staged, validate_catalog_root staged "user" = Ok generation3 ∧
    staged !! "nodes/tug.yaml" = Some (Regular SAT) ∧ staged !! "nodes/sat.yaml" = Some (Regular LEO).
Proof.
  pose proof (commit_all_or_nothing shipped work2 (with_faults scope2 [])
    (intact_faults _ _ scope2_intact) work2_built) as H.
  pose proof committed2_returns as Hrun.
  destruct (commit shipped work2 (with_faults scope2 [])) as [w' r]. cbn [snd] in Hrun. subst r.
  destruct H as [[_ H]|(g & base & staged & t & Hr & Hh & _ & Hs & Hv & _ & _ & _ & _ & Hg)].
  - by destruct (H generation3).
  - exists staged. rewrite (Hg generation3 eq_refl), !Hs. split; [exact Hv|].
    pose proof scope2_holds as H2. unfold holds in Hh, H2. rewrite work2_base in Hh.
    unfold with_faults in Hh. cbn [w_generations] in Hh. rewrite H2 in Hh. injection Hh as <-. split; vm_compute; reflexivity.
Defined.

(** ** Where it breaks *)

(** The process dies while the first, empty generation is removed: the directory is
    left without its catalog. *)
Definition broken : World :=
  (release_snapshot (base_of scope1)
     (with_live (with_faults scope2 [Crashes 1]) (w_live scope2 ∖ {[+ base_of scope1 +]}))).1.

Lemma broken_current : read_current broken = read_current scope2.
Proof. vm_compute. reflexivity. Qed.

(** No process can open the repository any more, though what [CURRENT] names is
    whole. *)
Lemma interrupted_removal_blocks :
  (restart (with_faults broken [])).2 = Failed (ContainmentError "catalog root is unavailable") ∧
  (restart (restart (with_faults broken [])).1).2 =
    Failed (ContainmentError "catalog root is unavailable").
Proof. vm_compute. split; reflexivity. Qed.

(** The last sync of a publication fails: the commit is reported as failed and has
    happened. *)
Definition unsynced : World * Outcome string :=
  commit shipped work2 (with_faults scope2 [Works; Works; Works; Works; Works; Works; Works; Works; Fails 0]).

Lemma failed_commit_published :
  unsynced.2 = Failed OsError ∧ read_current unsynced.1 = Ok generation3.
Proof. vm_compute. split; reflexivity. Qed.
End SmallRepository.
